(* ===== verification/_CoqProject ===== *)
-Q . S2P
Prelude.v
RustString.v
Json.v
Scheduler.v
SchedulerInv.v
SchedulerTheorems.v
SchedulerSnapshot.v
Contracts.v
Policy.v
Approval.v
Runtime.v
RuntimeTheorems.v
ToolLoop.v
Access.v
ServiceAuth.v
TaskRecords.v
Conversation.v
ConversationSample.v
TaskStore.v
TaskStoreTheorems.v
TaskStoreQueries.v
Models.v
Privacy.v
PrivacyTheorems.v
Routing.v
Workflow.v
WorkflowTheorems.v
AdminAudit.v
TaskRequests.v
TaskApi.v
TaskGateTheorems.v
TaskDecisionTheorems.v
TaskReplayTheorems.v
RemoteView.v
UrlPath.v
Devices.v
Registry.v
RegistryView.v
RegistryUpsert.v
RegistryRefinement.v
RegistryTheorems.v
RegistrySample.v
ShareLinks.v
ShareLinkTheorems.v
TaskApiSample.v
StringSearch.v
AdminRedaction.v
Notifications.v
VisionEvents.v
VisionStore.v
VisionTheorems.v
FamilyTimeline.v
FamilyMemory.v
FamilyMemoryTheorems.v
VisionSample.v
Guardian.v
GuardianRuntime.v
GuardianEffects.v
GuardianOnce.v
GuardianReviews.v
GuardianSample.v
CatRecords.v
CatQueue.v
CatStore.v
CatStoreLemmas.v
CatStoreWrites.v
CatStoreTheorems.v
CatLedger.v
CatSampling.v
ModelEndpoints.v
ModelSelection.v
ModelRuns.v
ModelSecrets.v
ModelRunTheorems.v
CatVerdict.v
CatWorker.v
CatCapture.v
CatCaptureTheorems.v
CatSample.v
ModelSample.v
