(* ===== verification/Prelude.v ===== *)
(** * HarborBeacon: a verification library

    HarborBeacon (Rust, [src/src/]) is the control program of a home hub: it takes
    requests from people, turns them into plans of actions, runs those through
    middleware and tools, keeps what a conversation needs between messages, and
    shares an AI accelerator between its model servers. This library models the
    parts that decide: who may act, what needs an approval, which executor runs a
    step, who gets the accelerator, what the task store contains, when a request is
    a repetition, which devices are registered, what a shared link opens, what a
    family sees of its cameras' events, which recordings are shown and which are
    deleted, which model answers and what may leave for a cloud, what the audit
    keeps.

    ** Parts, files and sources

    - This file, [RustString], [Json]: what the rest shares. [Prelude]: results,
      machine integers, total comparison functions ([TotalCmp], the hint database
      and tactic [total_cmp]), Rust's stable sort, iterator functions. [RustString]:
      [str] as UTF-8 bytes, with [trim], [split_whitespace], [contains] and the
      ASCII conversions, and hash functions and URL-safe text as classes with laws.
      [Json]: [serde_json] as the class [SerdeJson] with its laws and [Codec] for the
      derived conversions, one instance, [jv], and ordered objects and pointers for
      code that goes through a value.
    - The lease scheduler, [runtime/ai_resource_scheduler.rs]. [Scheduler]: the state
      under the mutex, every operation of it ([acquire_enter], [acquire_poll],
      [grant], [release], [quarantine]), and threads as steps of a [System] (a
      thread calls [acquire], wakes up, drops or quarantines a lease), run in any
      order. [SchedulerInv]: the invariant and its preservation. [SchedulerTheorems]:
      what clients rely on. [SchedulerSnapshot]: the reports.
    - The orchestrator, [orchestrator/]. [Contracts]: actions, plans and results
      ([contracts.rs]). [Policy]: the gate ([policy.rs]). [Approval]: approvals of
      tool calls ([approval.rs]). [Runtime]: router, audit log and plan execution
      ([router.rs], [audit.rs], [runtime.rs]), with [RuntimeTheorems]. [ToolLoop]:
      the tool loop and its channels ([tool_loop.rs], [channel.rs]). [Workflow],
      [WorkflowTheorems]: the compiler from what people say to candidates of plans,
      its specification and its evaluation ([workflow_compiler.rs]).
    - Access. [Access]: permission bindings, identities and authorisation
      ([control_plane/access.rs], [users.rs], [auth.rs], [runtime/access_control.rs]).
      [ServiceAuth]: the tokens services present to each other ([service_auth.rs]).
    - The task store, [runtime/task_session.rs]. [TaskRecords]: the records it keeps
      ([control_plane/tasks.rs], [media.rs], [approvals.rs], [events.rs]).
      [Conversation]: the state of a multi-step flow, its migration and envelope.
      [TaskStore]: every operation over the content of the file. [TaskStoreTheorems],
      [TaskStoreQueries]: what the operations guarantee. [ConversationSample]: the
      interfaces at concrete values.
    - The task service, [runtime/task_api.rs]. [TaskRequests]: requests, responses and
      what is derived from a request alone. [TaskApi]: [handle_task] with its
      tracking, the approval gate ([ensure_action_allowed]), the HarborOS handler,
      decisions on approvals, and replays; methods are functions of the disk, of an
      environment of clock readings, identifiers and system-call outcomes ([Env]),
      and of the outside world. [TaskGateTheorems], [TaskDecisionTheorems],
      [TaskReplayTheorems]; [TaskApiSample] has the witnesses of these, of the store
      and of shared links.
    - The device registry, [runtime/registry.rs]. [Devices]: the records of the
      platform and of cameras ([control_plane/devices.rs], [media.rs]). [Registry]:
      cameras read from the records and written to them, removals, the entities of
      Home Assistant, and the file. [RegistryView]: the invariant and
      its preservation, what is seen of a camera, and the abstract
      registry of what is seen. [RegistryUpsert], [RegistryRefinement]: that the
      operations implement it. [RegistryTheorems], [RegistrySample].
    - Local vision. [VisionEvents]: which events of the cameras are accepted, what is
      said of one, and how detections and model answers become one
      ([runtime/vision_event.rs]). [VisionStore]: their file, with its theorems. [Notifications]:
      requests and their delivery ([connectors/notifications.rs]). [StringSearch]:
      lemmas on searching and replacing. [VisionTheorems].
    - The family. [FamilyTimeline]: timelines and digests of the events, with their
      theorems ([runtime/family_timeline.rs]). [FamilyMemory]: the file of feedback
      and what it makes of the events ([runtime/family_memory.rs]), with
      [FamilyMemoryTheorems]. [VisionSample] is for local vision and the family.
    - The home guardian. [Guardian]: rules, whether one matches an event of a camera,
      and what it then does ([runtime/home_guardian.rs]); which service requests may
      be sent to Home Assistant ([connectors/home_assistant.rs]); the stored rules
      ([runtime/admin_console.rs]). [GuardianRuntime]: the queue of events, the worker, evaluations, cooldowns and
      the cache of rules ([bin/agent_hub_admin_api.rs]). [GuardianOnce]: evaluations on
      threads, section by section. [GuardianEffects], [GuardianReviews],
      [GuardianSample].
    - Shared live views. [RemoteView]: signed tokens ([runtime/remote_view.rs]).
      [UrlPath]: the encoding of path segments and the shared paths. [ShareLinks]:
      the task that issues a link, and its verification and revocation
      ([task_api.rs], [bin/agent_hub_admin_api.rs]).
      [ShareLinkTheorems].
    - [AdminAudit]: the audit stream of the admin console, with its theorems
      ([control_plane/audit.rs]). [AdminRedaction]: what the admin API takes out of a
      text before it shows or stores it, with its theorems
      ([bin/agent_hub_admin_api.rs]).
    - Cat recordings. [CatRecords]: the records of recordings to validate, what may
      become of one, and the aggregation of a classifier's predictions
      ([runtime/cat_recording_validation.rs], [cat_recording_classifier.rs]).
      [CatQueue]: the operations, each a [Request] that decides on records to write
      from those there are, and the queue they make. [CatStore]: the file, its
      archives, counter, repair and index, as calls to a system that fails where a list
      of outcomes says ([cat_recording_validation.rs], [secure_store_path.rs]);
      [CatStoreLemmas], [CatStoreWrites], [CatStoreTheorems]: that it is crash-safe and
      implements the queue. [CatLedger]: the file of the recordings in progress, with
      its theorems ([runtime/cat_recording_reconciliation.rs]).
      [CatSampling]: the frames that are looked at and the merging of two looks;
      [CatVerdict]: the evaluation of a recording, with the classifier and the vision
      model; [CatWorker]: the worker that validates
      ([bin/agent_hub_admin_api.rs], [runtime/model_center.rs],
      [connectors/ai_provider.rs]). [CatCapture]: the worker that records what the
      detection of a cat shows: its settings, the evidence, the transitions, the
      leases it holds at HarborLink, and the reconciliation of what it lost track of
      ([bin/agent_hub_admin_api.rs]), with [CatCaptureTheorems]. [CatSample].
    - The model center, [runtime/model_center.rs] and its state in
      [runtime/admin_console.rs]. [ModelEndpoints]: the stored endpoints and policies,
      their defaults, saves, patches and redaction. [ModelSelection]: the probe of the
      local service, which endpoints answer for a policy, the router, the checks on
      addresses. [ModelRuns]: texts, summaries of images, embeddings and rankings.
      [ModelSecrets], [ModelRunTheorems], with [ModelSample], which also has the
      witness of [CatVerdict].
    - Models. [Models]: the model registry's records ([control_plane/models.rs]).
      [Privacy], [PrivacyTheorems]: the gateway that decides what of a question and
      its citations may go to a cloud model ([runtime/privacy_gateway.rs]).
      [Routing]: the endpoint a route policy selects ([control_plane/routing.rs]).

    ** How they interact

    [Runtime.execute_plan] runs each step of a plan through [Policy.enforce], then
    through the router to executors, an interface ([Runtime.Executor]) whose methods
    act on an abstract world; each step opens and closes one event of the audit
    log. [ToolLoop] does the same for a planner's tool calls, with
    [Approval.needs_approval] in between. [Access] and [ServiceAuth] stand at the
    door of the HTTP services. [TaskStore] keeps [Conversation]'s states inside
    sessions ([save_for_session], [load_for_session]). [TaskApi.handle_task] saves a
    run, a step and a session to the store, lets a handler answer, and saves what it
    answered; the HarborOS handler asks [Policy.enforce] with the pending ticket of
    the store, then [Runtime.router_execute]; [ShareLinks] goes through the same gate
    with a camera of the registry, which the admin console saves
    ([Registry.save_devices]). The guardian's worker evaluates the stored rules
    against the events of [VisionEvents], and acts through the guard on Home
    Assistant and, with the intent that [VisionEvents] builds, through
    [Notifications.deliver]; middleware and gateway are interfaces
    ([GuardianRuntime.GuardianWorld], [Notifications.NotificationGateway]).
    The timeline and the memory of the family read the events of [VisionStore].
    [CatWorker] runs over the interface [QueueStore], the abstract queue, which
    the file of [CatStore] implements for each of its processes
    ([CatStoreTheorems.file_queue]), and over the evaluations, which [CatVerdict]
    computes: it asks [CatSampling] for frames and the classifier or, by
    [ModelSelection] and the services of [ModelRuns], a vision model for what they
    show. [CatCapture] hands what it recorded to the same [QueueStore] and keeps what
    is in progress in the interface [LedgerStore], which the file of [CatLedger]
    implements ([CatLedger.ledger_file]); HarborLink is an interface too
    ([CatCapture.CaptureWorld]). Runs take leases of the scheduler, an interface there
    ([ModelRuns.ModelServices]).

    ** What the theorems show

    - Scheduler, for every interleaving: leases are exclusive and hold all their
      resources; quarantine is permanent; grants follow priority and arrival; free
      resources are granted; no wake-up is lost, which is what makes waiting on one
      condition variable right; queues are bounded; waits end; counters balance.
    - Orchestrator: the gate's decision as a predicate, and that defaults only raise
      it; one audit event per step, closed with the step's result; without an
      approval the world becomes what the steps that need none make of it; the router is "first success in priority
      order"; the tool loop stops within its limit; channels are FIFO.
    - Access: deny-overrides and default-deny, independent of order; a principal is
      an active member with a permitting role; tokens are compared to well-formed
      configured ones, credential files before environment variables.
    - Task store: records stay under their ids and failures change nothing, but for what
      a failed write leaves; reads see writes; deletion cascades; pruning keeps the newest; listings do not
      depend on hash order; conversation states survive migration and storage, with
      the exception the sample file exhibits ([session_state_key_changes]).
    - Task service: what opens the gate, that HarborOS actions reach the world only
      through it, and the protocol of a ticket from question to approval; that a
      rejection is final for the ticket but does not close the gate; that a finished
      task is replayed to its own request and refused to others, and that approval
      changes which request that is.
    - Device registry: records stay unique and owned whatever operations run; for
      registries that cameras entered through the operations ([managed_registry]),
      upserting is the abstract upsert of what is seen, a sync of Home Assistant
      leaves the cameras alone and shows exactly its entities, and what was saved is
      loaded; saving the loaded cameras keeps what is seen but not the cameras
      without a stream.
    - Local vision: no text that is accepted or sent is private, the contract with Home
      Assistant, what the sanitizer leaves; the file read by chunks from its end is
      the file read whole, and lists what was accepted, as long as no write was cut
      short.
    - Home guardian: everything an evaluation does to the world is asked for by an
      active rule that matches, and is a notification of the default target or an
      allow-listed service; where threads evaluate at the same time, each executes an
      action for an event at most once, and once one is done only those that had already
      looked still do ([attempted_twice] shows that two can); events are coalesced and their queue is bounded; the stored rules stay in
      form, and a change of status holds; what is counted and kept of runs.
    - Family: a timeline shows the newest of the events asked for and its buckets part
      them; the last feedback decides what is shown of an event; the file lists what
      was accepted.
    - Cat recordings: whatever calls fail and wherever a process ends, the files hold
      what was acknowledged and every process sees it; the files are the queue. In the
      queue, a claim is exclusive, decisions are final, the oldest is claimed, expired
      claims are recovered, and only rejected recordings are discarded. The frames of
      a look are few, distinct and within the recording; a verdict rests on what was
      measured, detected and seen; the worker asks for the deletion of rejected
      recordings only, and a failed evaluation decides nothing.
      Recordings start on enough evidence, after the ledger holds them; the ledger
      keeps what the worker has in memory, whatever HarborLink answers and wherever the
      process ends; what is forgotten was handed to the
      queue, unless validation is off, or is unknown to HarborLink; a process that starts
      takes over what goes on.
    - Model center: the embedded router asks the facade of this machine and nothing
      else; texts leave for a cloud only where the policy allows it, images go to local
      endpoints with a loopback name, the documents of a search to no cloud; endpoints
      are tried in order until one answers; the metadata shown of endpoints holds no
      secret and can be saved back, but for nested secrets and the local service's keys
      ([nested_secret_lost], [stored_key_wiped]).
    - Texts of the admin API: where no local path is left, what follows the key of a
      secret; and the text that ends the thread ([address_after_wide_colon]).
    - Shared views: which tokens are accepted, and the life of a link from the
      request through its paths to expiry and revocation.
    - Audit: what redaction removes, that the stream is the latest records, that
      pages enumerate it.
    - Workflows: what validation accepts, which candidate a text gets, and that no
      candidate carries more than a read-only action.
    - Models: the gate to the cloud, as an equivalence over the raw texts; what a
      capsule cannot contain, cut words included; what the risk tags mean; route
      selection as a minimum that does not depend on the registry's order, and
      that local-only policies keep local ([local_only_selects_cloud] shows the
      report's flag of that name is weaker).

    ** Conventions, bounds and fuel

    Definitions have the source's names where Rocq allows; a field or constructor
    that would clash carries a prefix for its type. Unsigned counters are [Z] with
    [wrap64], the release build's addition. Identifiers drawn from [u64] counters
    wrap after 2^64 - 1 draws, so the theorems on them are about fewer steps
    ([run cfg k] with [k] below that bound). Time is a value the caller gives:
    [Instant]s in nanoseconds, RFC 3339 stamps as strings. There is no fuel in
    the operations: loops are structural on the lists they go through, the tool
    loop on its iteration limit, and waiting is a step of the scheduler's system. The
    one exception is the reading of the vision events, where rounds are bounded by
    the length of the file, as each reads a byte at least, and are shown to suffice
    ([chunked_reading_complete]). A [f32] or [f64] is a [spec_float]; the durations of
    recordings are computed with binary64's rounding. The worker of the cat recordings
    makes as many turns as it is given, so its theorems hold of every prefix of its
    endless loop.

    In [CatStore] a call takes its outcome from a list, after which calls succeed: it
    succeeds, fails, or, for a write, stops after some bytes; a process that ends is one
    whose call failed and whose index is gone. Reads
    of the file that was opened succeed; temporary files and the failures injected by
    tests are left out. A run of a model yields the requests it sends beside its
    result, so that theorems can speak of what leaves the program; the values of the
    environment are UTF-8.

    Code outside the repository is a parameter: [serde_json] (its law: what a
    conversion writes it reads back), [uuid], SHA-256, HMAC and base64 (lengths,
    alphabet, decoding undoes encoding), the constant-time comparison, the
    environment and file system (contents and the errors of each call), the order
    of hash maps ([HashOrder]), Unicode lower case ([UnicodeLower], and [CharLower] by
    character), the URL parser ([UrlParser], [EndpointUrls], [AdminUrls]), executors, planners and
    tools, model servers, the programs that measure and cut recordings ([CatMedia]),
    and the handlers of the intents that are not modelled ([TaskApi.Handlers]). The
    vectors of mock endpoints ([build_mock_embedding]), a floating-point computation
    for tests, are one as well.

    ** Not modelled

    Input and output around the modelled parts: the other HTTP endpoints and the
    rendering of the admin console, device discovery and streaming (sockets, ffmpeg),
    recording and its segments, the clients of model servers and of storage, the walk
    of secure paths over file descriptors, scripts and smoke tests. Computations whose
    libraries are not in the repository: the knowledge index (floating-point scores,
    SQLite, HNSW), the parsing of documents. The vendored [rig-core]. Of what decides,
    these remain: the handlers of camera, knowledge and general messages of the task
    API with their turns, the processes that detect and their jobs (the worker that
    records is given their latest results), the readiness reports of the model center, the
    catalogues of apps, plugins and skills. They are built of calls to the parts above
    and to services whose answers they reformat. *)
From stdpp Require Export base option list strings gmap sorting pretty.
From Stdlib Require Export ZArith Lia.

(** * Results *)

(** Rust's [Result<A, E>]. *)
Inductive result (E A : Type) : Type :=
| Ok (a : A)
| Err (e : E).
Arguments Ok {E A} a.
Arguments Err {E A} e.

Global Instance result_ret {E} : MRet (result E) := fun A a => Ok a.

Global Instance result_bind {E} : MBind (result E) :=
  fun A B f r => match r with Ok a => f a | Err e => Err e end.

Global Instance result_fmap {E} : FMap (result E) :=
  fun A B f r => match r with Ok a => Ok (f a) | Err e => Err e end.

(** [Option::ok_or_else]. *)
Definition ok_or {E A} (e : E) (o : option A) : result E A :=
  match o with Some a => Ok a | None => Err e end.

(** [Result::map_err]. *)
Definition map_err {E E' A} (f : E -> E') (r : result E A) : result E' A :=
  match r with Ok a => Ok a | Err e => Err (f e) end.

(** [Result::ok]. *)
Definition res_ok {E A} (r : result E A) : option A :=
  match r with Ok a => Some a | Err _ => None end.

Definition is_ok {E A} (r : result E A) : bool :=
  match r with Ok _ => true | Err _ => false end.

Declare Scope rust_scope.
Delimit Scope rust_scope with rust.

(** The question mark operator of the source: [x <-? r; k]. *)
Notation "x <-? r ; k" := (@mbind (result _) result_bind _ _ (fun x => k) r)
  (at level 100, r at level 99, k at level 200, right associativity,
   format "x  <-?  r ;  '//' k") : rust_scope.

(** Let [cbn] compute [+:+] on a known first byte. *)
Global Arguments String.append : simpl nomatch.

(** * Machine integers *)

Definition u64_max : Z := 18446744073709551615%Z.
Definition u32_max : Z := 4294967295%Z.

(** Release-mode [+] on [u64]: two's complement wrap-around. *)
Definition wrap64 (z : Z) : Z := (z mod 18446744073709551616)%Z.

Definition u64_incr (z : Z) : Z := wrap64 (z + 1)%Z.

Definition u64_saturating_add (a b : Z) : Z := Z.min (a + b) u64_max.
Definition u64_saturating_mul (a b : Z) : Z := Z.min (a * b) u64_max.

(** [u64::checked_add]. *)
Definition u64_checked_add (a b : Z) : option Z :=
  if Z.leb (a + b) u64_max then Some (a + b)%Z else None.

(** [Ord::clamp]. *)
Definition z_clamp (z lo hi : Z) : Z :=
  if Z.ltb z lo then lo else if Z.ltb hi z then hi else z.

Definition u64_range (z : Z) : Prop := (0 <= z <= u64_max)%Z.

(** * Orderings *)

(** [Ordering::then_with]. *)
Definition then_with (c d : comparison) : comparison :=
  match c with Eq => d | _ => c end.

(** [Ord] on [Option]: [None] is below every [Some]. *)
Definition option_compare {A} (cmp : A -> A -> comparison) (x y : option A) : comparison :=
  match x, y with
  | None, None => Eq
  | None, Some _ => Lt
  | Some _, None => Gt
  | Some a, Some b => cmp a b
  end.

(** Comparison functions that are total preorders, which is what
    [slice::sort_by] asks of its argument. *)
Class TotalCmp {A} (cmp : A -> A -> comparison) : Prop := {
  cmp_flip x y : cmp y x = CompOpp (cmp x y);
  cmp_trans x y z : cmp x y <> Gt -> cmp y z <> Gt -> cmp x z <> Gt
}.

Definition cmp_le {A} (cmp : A -> A -> comparison) (x y : A) : Prop := cmp x y <> Gt.

(** * Stable sorting *)

Fixpoint insert_by {A} (cmp : A -> A -> comparison) (x : A) (l : list A) : list A :=
  match l with
  | [] => [x]
  | y :: l' => match cmp x y with
               | Gt => y :: insert_by cmp x l'
               | _ => x :: l
               end
  end.

(** [slice::sort_by]: stable, ascending. *)
Definition sort_by {A} (cmp : A -> A -> comparison) (l : list A) : list A :=
  foldr (insert_by cmp) [] l.

(** * Lists *)

(** [Iterator::position]. *)
Fixpoint position {A} (p : A -> bool) (l : list A) : option nat :=
  match l with
  | [] => None
  | x :: l' => if p x then Some 0 else S <$> position p l'
  end.

(** [if let Some(x) = v.iter_mut().find(p) { change x } else { v.push(new) }] *)
Fixpoint upsert_first {A} (p : A -> bool) (change : A -> A) (new : A) (l : list A) : list A :=
  match l with
  | [] => [new]
  | x :: l => if p x then change x :: l else x :: upsert_first p change new l
  end.

(** [Option::is_some]. *)
Definition is_some {A} (o : option A) : bool := match o with Some _ => true | None => false end.

(** An option as a list: [Vec::extend], or a push if there is one. *)
Definition option_list {A} (o : option A) : list A := match o with Some x => [x] | None => [] end.

(** [VecDeque::remove] at a valid index. *)
Fixpoint remove_at {A} (i : nat) (l : list A) : list A :=
  match l, i with
  | [], _ => []
  | _ :: l', 0 => l'
  | x :: l', S i' => x :: remove_at i' l'
  end.

Definition list_any {A} (p : A -> bool) (l : list A) : bool := existsb p l.
Definition list_all {A} (p : A -> bool) (l : list A) : bool := forallb p l.
Definition list_find {A} (p : A -> bool) (l : list A) : option A := List.find p l.
Definition count_if {A} (p : A -> bool) (l : list A) : nat := length (List.filter p l).

Global Arguments list_any {A} p l : simpl never.
Global Arguments list_all {A} p l : simpl never.
Global Arguments list_find {A} p l : simpl never.
Global Arguments count_if {A} p l : simpl never.

(** * Tactics *)

(** Split every boolean and propositional conjunction of the context, and turn
    the boolean tests into the propositions they decide. *)
Ltac bool_facts :=
  repeat match goal with
  | H : (_ && _)%bool = true |- _ => apply andb_prop in H; destruct H
  | H : (_ || _)%bool = false |- _ => apply orb_false_elim in H; destruct H
  | H : negb _ = true |- _ => apply negb_true_iff in H
  | H : negb _ = false |- _ => apply negb_false_iff in H
  | H : Z.leb _ _ = true |- _ => apply Z.leb_le in H
  | H : Z.leb _ _ = false |- _ => apply Z.leb_gt in H
  | H : Z.ltb _ _ = true |- _ => apply Z.ltb_lt in H
  | H : Z.ltb _ _ = false |- _ => apply Z.ltb_ge in H
  | H : Z.eqb _ _ = true |- _ => apply Z.eqb_eq in H
  | H : Z.eqb _ _ = false |- _ => apply Z.eqb_neq in H
  | H : Nat.eqb _ _ = true |- _ => apply Nat.eqb_eq in H
  | H : Nat.eqb _ _ = false |- _ => apply Nat.eqb_neq in H
  | H : Nat.leb _ _ = true |- _ => apply Nat.leb_le in H
  | H : Nat.leb _ _ = false |- _ => apply Nat.leb_gt in H
  | H : Nat.ltb _ _ = true |- _ => apply Nat.ltb_lt in H
  | H : Nat.ltb _ _ = false |- _ => apply Nat.ltb_ge in H
  | H : String.eqb _ _ = true |- _ => apply String.eqb_eq in H
  | H : String.eqb _ _ = false |- _ => apply String.eqb_neq in H
  | H : bool_decide _ = true |- _ => apply bool_decide_eq_true in H
  | H : bool_decide _ = false |- _ => apply bool_decide_eq_false in H
  end.

(** Invert an equation between results, through the [?] operators it uses. *)
Ltac res_inv H :=
  repeat match type of H with
  | context [mbind _ ?r] =>
      let E := fresh "E" in
      destruct r eqn:E; cbn in H; try discriminate H
  end;
  try (injection H as H).

(** * Lemmas: integers *)

Lemma wrap64_range z : u64_range (wrap64 z).
Proof.
  unfold u64_range, wrap64, u64_max.
  pose proof (Z.mod_pos_bound z 18446744073709551616). lia.
Qed.

Lemma wrap64_small z : u64_range z -> wrap64 z = z.
Proof. unfold u64_range, wrap64, u64_max. intros. apply Z.mod_small. lia. Qed.

Lemma wrap64_add_l a b : wrap64 (wrap64 a + b) = wrap64 (a + b).
Proof. unfold wrap64. by rewrite Zplus_mod_idemp_l. Qed.

Lemma wrap64_add_r a b : wrap64 (a + wrap64 b) = wrap64 (a + b).
Proof. unfold wrap64. by rewrite Zplus_mod_idemp_r. Qed.

Lemma u64_incr_small z : (0 <= z < u64_max)%Z -> u64_incr z = (z + 1)%Z.
Proof. intros. apply wrap64_small. unfold u64_range. lia. Qed.

Lemma z_clamp_range z lo hi : (lo <= hi)%Z -> (lo <= z_clamp z lo hi <= hi)%Z.
Proof. unfold z_clamp. intros. repeat case_match; bool_facts; lia. Qed.

Lemma z_clamp_id z lo hi : (lo <= z <= hi)%Z -> z_clamp z lo hi = z.
Proof. unfold z_clamp. intros. repeat case_match; bool_facts; lia. Qed.

Lemma z_clamp_idem z lo hi :
  (lo <= hi)%Z -> z_clamp (z_clamp z lo hi) lo hi = z_clamp z lo hi.
Proof. intros. by apply z_clamp_id, z_clamp_range. Qed.

(** * Lemmas: comparisons *)

Section total_cmp.
Context {A : Type} (cmp : A -> A -> comparison) `{!TotalCmp cmp}.

Lemma cmp_refl x : cmp x x = Eq.
Proof. pose proof (cmp_flip (cmp:=cmp) x x). by destruct (cmp x x). Qed.

Lemma cmp_le_refl x : cmp_le cmp x x.
Proof. unfold cmp_le. by rewrite cmp_refl. Qed.

Lemma cmp_le_total x y : cmp_le cmp x y \/ cmp_le cmp y x.
Proof. unfold cmp_le. rewrite (cmp_flip (cmp:=cmp) x y). destruct (cmp x y); auto. Qed.

Lemma cmp_le_antisym x y : cmp_le cmp x y -> cmp_le cmp y x -> cmp x y = Eq.
Proof. unfold cmp_le. rewrite (cmp_flip (cmp:=cmp) x y). by destruct (cmp x y). Qed.

Lemma cmp_gt_le x y : cmp x y = Gt -> cmp_le cmp y x.
Proof. unfold cmp_le. rewrite (cmp_flip (cmp:=cmp) x y). by intros ->. Qed.

End total_cmp.

Global Instance cmp_le_transitive {A} (cmp : A -> A -> comparison) `{!TotalCmp cmp} :
  Transitive (cmp_le cmp).
Proof. intros x y z. apply cmp_trans. Qed.

Lemma cmp_total_from {A} (cmp : A -> A -> comparison) :
  (forall x y, cmp y x = CompOpp (cmp x y)) ->
  (forall x y, cmp x y = Eq -> x = y) ->
  (forall x y z, cmp x y = Lt -> cmp y z = Lt -> cmp x z = Lt) -> TotalCmp cmp.
Proof.
  intros Hf He Ht. split; [exact Hf|]. intros x y z H1 H2.
  destruct (cmp x y) eqn:E1; [|destruct (cmp y z) eqn:E2|]; try done.
  - by apply He in E1 as ->.
  - apply He in E2 as ->. by rewrite E1.
  - by rewrite (Ht _ _ _ E1 E2).
Qed.

Global Instance total_cmp_Z : TotalCmp Z.compare.
Proof.
  apply cmp_total_from.
  - intros. apply Z.compare_antisym.
  - intros ??. apply Z.compare_eq.
  - intros ???. rewrite !Z.compare_lt_iff. lia.
Qed.

Global Instance total_cmp_nat : TotalCmp Nat.compare.
Proof.
  apply cmp_total_from.
  - intros. apply Nat.compare_antisym.
  - intros ??. apply Nat.compare_eq.
  - intros ???. rewrite !Nat.compare_lt_iff. lia.
Qed.

Lemma string_compare_lt_trans s1 s2 s3 :
  String.compare s1 s2 = Lt -> String.compare s2 s3 = Lt -> String.compare s1 s3 = Lt.
Proof.
  revert s2 s3. induction s1 as [|a s1 IH]; intros [|b s2] [|c s3]; try done.
  cbn. unfold Ascii.compare.
  destruct (N.compare_spec (Ascii.N_of_ascii a) (Ascii.N_of_ascii b)) as [E1|E1|E1],
    (N.compare_spec (Ascii.N_of_ascii b) (Ascii.N_of_ascii c)) as [E2|E2|E2],
    (N.compare_spec (Ascii.N_of_ascii a) (Ascii.N_of_ascii c)) as [E3|E3|E3];
    try done; try lia. apply IH.
Qed.

Global Instance total_cmp_string : TotalCmp String.compare.
Proof.
  apply cmp_total_from.
  - intros. apply String.compare_antisym.
  - intros ??. apply String.compare_eq_iff.
  - intros ???. apply string_compare_lt_trans.
Qed.

Global Instance total_cmp_option {A} (cmp : A -> A -> comparison) :
  TotalCmp cmp -> TotalCmp (option_compare cmp).
Proof.
  intros H. split.
  - intros [x|] [y|]; try done. apply (cmp_flip (cmp:=cmp)).
  - intros [x|] [y|] [z|]; try done. apply (cmp_trans (cmp:=cmp)).
Qed.

Lemma total_cmp_on {A B} (f : A -> B) (cmp : B -> B -> comparison) :
  TotalCmp cmp -> TotalCmp (fun x y => cmp (f x) (f y)).
Proof.
  intros H. split; intros *; [apply (cmp_flip (cmp:=cmp))|apply (cmp_trans (cmp:=cmp))].
Qed.

Lemma total_cmp_rev {A} (cmp : A -> A -> comparison) :
  TotalCmp cmp -> TotalCmp (fun x y => cmp y x).
Proof.
  intros H. split; intros *; [apply (cmp_flip (cmp:=cmp))|].
  intros H1 H2. by apply (cmp_trans (cmp:=cmp) z y x).
Qed.

Lemma total_cmp_then {A} (c1 c2 : A -> A -> comparison) :
  TotalCmp c1 -> TotalCmp c2 -> TotalCmp (fun x y => then_with (c1 x y) (c2 x y)).
Proof.
  intros H1 H2. split.
  - intros x y. rewrite (cmp_flip (cmp:=c1) x y), (cmp_flip (cmp:=c2) x y).
    by destruct (c1 x y).
  - intros x y z Hxy Hyz.
    assert (c1 x y <> Gt) as Gxy by (by destruct (c1 x y)).
    assert (c1 y z <> Gt) as Gyz by (by destruct (c1 y z)).
    pose proof (cmp_trans (cmp:=c1) _ _ _ Gxy Gyz) as Gxz.
    destruct (c1 x z) eqn:Exz; try done. cbn.
    assert (c1 x y = Eq) as E1.
    { apply cmp_le_antisym; [done..|]. unfold cmp_le.
      apply (cmp_trans (cmp:=c1) y z x); [done|]. by rewrite (cmp_flip (cmp:=c1) x z), Exz. }
    assert (c1 y z = Eq) as E2.
    { apply cmp_le_antisym; [done..|]. unfold cmp_le.
      apply (cmp_trans (cmp:=c1) z x y); [|done]. by rewrite (cmp_flip (cmp:=c1) x z), Exz. }
    rewrite E1 in Hxy. rewrite E2 in Hyz. by apply (cmp_trans (cmp:=c2) x y z).
Qed.

(** Comparisons built from others by projections, reversal and [then_with]. *)
Create HintDb total_cmp.
#[export] Hint Resolve total_cmp_Z total_cmp_nat total_cmp_string total_cmp_option : total_cmp.

Ltac total_cmp :=
  lazymatch goal with
  | |- TotalCmp (fun l r => then_with (@?a l r) (@?b l r)) =>
      apply (total_cmp_then a b); total_cmp
  | |- TotalCmp (fun l r => ?c (@?f l) (@?g r)) => apply (total_cmp_on f c); total_cmp
  | |- TotalCmp (fun l r => ?c (@?f r) (@?g l)) =>
      apply (total_cmp_rev (fun l r => c (f l) (f r))); total_cmp
  | |- TotalCmp _ => eauto with total_cmp
  end.

(** * Lemmas: sorting *)

Section sort_lemmas.
Context {A : Type} (cmp : A -> A -> comparison).

Lemma insert_by_perm x l : insert_by cmp x l ≡ₚ x :: l.
Proof.
  induction l as [|y l IH]; cbn; [done|].
  destruct (cmp x y); [done..|]. rewrite IH. apply Permutation_swap.
Qed.

Lemma sort_by_perm l : sort_by cmp l ≡ₚ l.
Proof.
  induction l as [|x l IH]; cbn; [done|]. by rewrite insert_by_perm, IH.
Qed.

Lemma elem_of_sort_by x l : x ∈ sort_by cmp l <-> x ∈ l.
Proof. by rewrite sort_by_perm. Qed.

Lemma length_sort_by l : length (sort_by cmp l) = length l.
Proof. by rewrite sort_by_perm. Qed.

Context `{!TotalCmp cmp}.

Lemma insert_by_sorted x l :
  StronglySorted (cmp_le cmp) l -> StronglySorted (cmp_le cmp) (insert_by cmp x l).
Proof.
  induction 1 as [|y l Hl IH Hy]; cbn; [repeat constructor|].
  destruct (cmp x y) eqn:E.
  1-2: assert (cmp_le cmp x y) as Hxy by (unfold cmp_le; by rewrite E);
       constructor; [by constructor|]; constructor; [done|];
       eapply Forall_impl; [exact Hy|]; intros z Hz; by transitivity y.
  constructor; [done|]. rewrite insert_by_perm. constructor; [|done].
  by apply cmp_gt_le.
Qed.

Lemma sort_by_sorted l : StronglySorted (cmp_le cmp) (sort_by cmp l).
Proof. induction l; cbn; [constructor|]. by apply insert_by_sorted. Qed.

(** Sorting by a comparison that tells distinct elements apart does not depend
    on the order the elements came in, which for a [HashMap] is unspecified. *)
Lemma sort_by_perm_eq l1 l2 :
  (forall x y, x ∈ l1 -> y ∈ l1 -> cmp x y = Eq -> x = y) ->
  l1 ≡ₚ l2 -> sort_by cmp l1 = sort_by cmp l2.
Proof.
  intros Hinj Hp. apply (StronglySorted_unique_strong (cmp_le cmp)).
  - intros x y Hx Hy Hxy Hyx. rewrite elem_of_sort_by in Hx, Hy.
    apply Hinj; [done|by rewrite Hp|]. by apply cmp_le_antisym.
  - apply sort_by_sorted.
  - apply sort_by_sorted.
  - by rewrite !sort_by_perm.
Qed.

Lemma sort_by_id l : StronglySorted (cmp_le cmp) l -> sort_by cmp l = l.
Proof.
  unfold sort_by. induction 1 as [|x l Hl IH Hx]; cbn; [done|]. rewrite IH.
  destruct Hx as [|y l Hxy _]; cbn; [done|].
  unfold cmp_le in Hxy. by destruct (cmp x y).
Qed.

End sort_lemmas.

Lemma insert_by_ext {A} (c1 c2 : A -> A -> comparison) x l :
  (forall y, y ∈ l -> c1 x y = c2 x y) -> insert_by c1 x l = insert_by c2 x l.
Proof.
  induction l as [|y l IH]; cbn; [done|]. intros H. rewrite H, IH by (set_solver || left). done.
Qed.

(** Only the comparisons of the list's elements matter. *)
Lemma sort_by_ext {A} (c1 c2 : A -> A -> comparison) l :
  (forall x y, x ∈ l -> y ∈ l -> c1 x y = c2 x y) -> sort_by c1 l = sort_by c2 l.
Proof.
  unfold sort_by. induction l as [|x l IH]; cbn; [done|]. intros H.
  rewrite IH by set_solver. apply insert_by_ext. intros y Hy. apply H; [by left|right].
  by apply (elem_of_sort_by c2 y l).
Qed.

(** * Lemmas: lists *)

Lemma list_any_cons {A} (p : A -> bool) x l : list_any p (x :: l) = p x || list_any p l.
Proof. done. Qed.

Lemma list_all_cons {A} (p : A -> bool) x l : list_all p (x :: l) = p x && list_all p l.
Proof. done. Qed.

Lemma list_any_true {A} (p : A -> bool) l :
  list_any p l = true <-> exists x, x ∈ l /\ p x = true.
Proof.
  unfold list_any. rewrite existsb_exists. by setoid_rewrite list_elem_of_In.
Qed.

Lemma list_any_false {A} (p : A -> bool) l :
  list_any p l = false <-> forall x, x ∈ l -> p x = false.
Proof.
  rewrite <-not_true_iff_false, list_any_true. split.
  - intros H x Hx. apply not_true_iff_false. eauto.
  - intros H (x & Hx & Hp). rewrite (H x Hx) in Hp. done.
Qed.

Lemma list_all_true {A} (p : A -> bool) l :
  list_all p l = true <-> forall x, x ∈ l -> p x = true.
Proof.
  unfold list_all. rewrite forallb_forall. by setoid_rewrite list_elem_of_In.
Qed.

Lemma list_all_false {A} (p : A -> bool) l :
  list_all p l = false <-> exists x, x ∈ l /\ p x = false.
Proof.
  unfold list_all. induction l as [|y l IH]; cbn.
  - split; [done|]. intros (x & Hx & _). by apply not_elem_of_nil in Hx.
  - rewrite andb_false_iff, IH. split.
    + intros [H|(x & Hx & H)]; [exists y|exists x]; split; try done; set_solver.
    + intros (x & [->|Hx]%elem_of_cons & H); eauto.
Qed.

Lemma list_any_ext {A} (p q : A -> bool) l :
  (forall x, x ∈ l -> p x = q x) -> list_any p l = list_any q l.
Proof.
  induction l as [|y l IH]; intros H; [done|].
  unfold list_any in *; cbn. rewrite H by left. f_equal. apply IH.
  intros x Hx. apply H. by right.
Qed.

Lemma list_all_ext {A} (p q : A -> bool) l :
  (forall x, x ∈ l -> p x = q x) -> list_all p l = list_all q l.
Proof.
  induction l as [|y l IH]; intros H; [done|].
  unfold list_all in *; cbn. rewrite H by left. f_equal. apply IH.
  intros x Hx. apply H. by right.
Qed.

Lemma list_find_some {A} (p : A -> bool) l x :
  list_find p l = Some x -> x ∈ l /\ p x = true.
Proof.
  unfold list_find. intros [H1 H2]%List.find_some. by rewrite list_elem_of_In.
Qed.

Lemma list_find_none {A} (p : A -> bool) l :
  list_find p l = None <-> forall x, x ∈ l -> p x = false.
Proof.
  unfold list_find. induction l as [|y l IH]; cbn.
  - split; [intros _ x Hx; by apply not_elem_of_nil in Hx|done].
  - destruct (p y) eqn:E.
    + split; [done|]. intros H. rewrite (H y) in E; [done|set_solver].
    + rewrite IH. split; intros H x; [intros [->|Hx]%elem_of_cons; eauto|].
      intros Hx. apply H. set_solver.
Qed.

Lemma elem_of_list_filter {A} (p : A -> bool) l x :
  x ∈ List.filter p l <-> x ∈ l /\ p x = true.
Proof. by rewrite !list_elem_of_In, List.filter_In. Qed.

Lemma list_filter_perm {A} (p : A -> bool) l l' :
  l ≡ₚ l' -> List.filter p l ≡ₚ List.filter p l'.
Proof.
  induction 1 as [|x l l' _ IH|x y l|l1 l2 l3 _ IH1 _ IH2]; cbn.
  - done.
  - destruct (p x); [by rewrite IH|done].
  - destruct (p x), (p y); try done. apply Permutation_swap.
  - by rewrite IH1.
Qed.

Global Instance list_filter_proper {A} (p : A -> bool) :
  Proper ((≡ₚ) ==> (≡ₚ)) (List.filter p).
Proof. intros l l'. apply list_filter_perm. Qed.

Global Instance count_if_proper {A} (p : A -> bool) :
  Proper ((≡ₚ) ==> (=)) (count_if p).
Proof. intros l l' H. unfold count_if. by rewrite H. Qed.

Lemma count_if_le {A} (p : A -> bool) l : count_if p l <= length l.
Proof. unfold count_if. induction l; cbn; [lia|]. destruct (p _); cbn; lia. Qed.

Lemma count_if_cons {A} (p : A -> bool) x l :
  count_if p (x :: l) = (if p x then 1 else 0) + count_if p l.
Proof. unfold count_if. cbn. by destruct (p x). Qed.

Lemma count_if_app {A} (p : A -> bool) l1 l2 :
  count_if p (l1 ++ l2) = count_if p l1 + count_if p l2.
Proof. unfold count_if. by rewrite List.filter_app, length_app. Qed.

Lemma position_some {A} (p : A -> bool) l i :
  position p l = Some i -> exists x, l !! i = Some x /\ p x = true.
Proof.
  revert i. induction l as [|y l IH]; cbn; intros i H; [done|].
  destruct (p y) eqn:E; [simplify_eq; eauto|].
  destruct (position p l) as [j|]; simplify_eq/=. by apply IH.
Qed.

Lemma position_none {A} (p : A -> bool) l :
  position p l = None <-> forall x, x ∈ l -> p x = false.
Proof.
  induction l as [|y l IH]; cbn.
  - split; [intros _ x Hx; by apply not_elem_of_nil in Hx|done].
  - destruct (p y) eqn:E.
    + split; [done|]. intros H. rewrite (H y) in E; [done|set_solver].
    + rewrite fmap_None, IH. split; intros H x; [intros [->|Hx]%elem_of_cons; eauto|].
      intros Hx. apply H. set_solver.
Qed.

Lemma remove_at_perm {A} (l : list A) i x :
  l !! i = Some x -> l ≡ₚ x :: remove_at i l.
Proof.
  revert i. induction l as [|y l IH]; intros [|i] H; simplify_eq/=; [done|].
  rewrite (IH i) at 1 by done. apply Permutation_swap.
Qed.

Lemma NoDup_fmap_inj {A B} (f : A -> B) l x y :
  NoDup (f <$> l) -> x ∈ l -> y ∈ l -> f x = f y -> x = y.
Proof.
  induction l as [|z l IH]; cbn; intros Hn Hx Hy E; [by apply not_elem_of_nil in Hx|].
  apply NoDup_cons in Hn as [Hz Hn].
  apply elem_of_cons in Hx as [->|Hx], Hy as [->|Hy]; try done; [..|by apply IH];
    destruct Hz; [rewrite E|rewrite <-E]; by apply list_elem_of_fmap_2.
Qed.

Lemma remove_at_sublist {A} (l : list A) i : remove_at i l `sublist_of` l.
Proof.
  revert i. induction l as [|y l IH]; intros [|i]; cbn; [done|done| |].
  - by apply sublist_cons.
  - by apply sublist_skip.
Qed.

(** * Lists changed in place or appended to *)

Section upsert.
Context {A : Type} (key : A -> string) (k : string) (change : A -> A) (new : A).
Local Open Scope string_scope.
Local Open Scope list_scope.
Hypothesis change_key : forall x, key (change x) = key x.
Hypothesis new_key : key new = k.
Local Abbreviation ups := (upsert_first (fun x => key x =? k) change new).

Lemma upsert_first_keys l :
  key <$> ups l = if bool_decide (k ∈ key <$> l) then key <$> l else (key <$> l) ++ [k].
Proof.
  induction l as [|x l IH]; cbn; [by rewrite new_key|].
  destruct (String.eqb_spec (key x) k) as [E|E]; cbn.
  - rewrite change_key. rewrite bool_decide_true by (rewrite E; left). done.
  - rewrite IH. destruct (bool_decide_reflect (k ∈ key <$> l)) as [Hk|Hk].
    + by rewrite bool_decide_true by by right.
    + by rewrite bool_decide_false by (intros [->|]%elem_of_cons; done).
Qed.

Lemma upsert_first_nodup l : NoDup (key <$> l) -> NoDup (key <$> ups l).
Proof.
  intros Hl. rewrite upsert_first_keys. destruct (bool_decide_reflect (k ∈ key <$> l)); [done|].
  apply NoDup_app. split_and!; [done|set_solver|apply NoDup_singleton].
Qed.

Lemma elem_of_upsert_first x l :
  x ∈ ups l -> x ∈ l \/ x = new \/ exists y, y ∈ l /\ key y = k /\ x = change y.
Proof.
  clear change_key new_key.
  induction l as [|y l IH]; cbn; [set_solver|].
  destruct (String.eqb_spec (key y) k) as [E|E]; intros [->|Hx]%elem_of_cons.
  - right. right. exists y. split; [left|done].
  - left. by right.
  - left. left.
  - destruct (IH Hx) as [Hl|[->|(z & Hz & Ez & ->)]]; [left; by right|by right; left|].
    right. right. exists z. split; [by right|done].
Qed.

Lemma upsert_first_keeps x l : x ∈ l -> key x <> k -> x ∈ ups l.
Proof.
  clear change_key new_key. intros Hx Hk. induction l as [|y l IH]; cbn; [by apply not_elem_of_nil in Hx|].
  destruct (String.eqb_spec (key y) k) as [E|E]; apply elem_of_cons in Hx as [->|Hx]; rewrite elem_of_cons; auto.
  congruence.
Qed.

Lemma find_upsert_first l :
  list_find (fun x => key x =? k) (ups l)
  = Some match list_find (fun x => key x =? k) l with Some x => change x | None => new end.
Proof.
  unfold list_find. induction l as [|x l IH]; cbn; [by rewrite new_key, String.eqb_refl|].
  destruct (key x =? k) eqn:E; cbn; [by rewrite change_key, E|]. by rewrite E, IH.
Qed.

Lemma find_upsert_other k' l :
  k' <> k -> list_find (fun x => key x =? k') (ups l) = list_find (fun x => key x =? k') l.
Proof.
  intros Hk. unfold list_find. induction l as [|x l IH]; cbn.
  - rewrite new_key. destruct (String.eqb_spec k k') as [E'|E']; [by destruct Hk|done].
  - destruct (String.eqb_spec (key x) k) as [E|E]; cbn.
    + rewrite change_key, E. destruct (String.eqb_spec k k') as [E'|E']; [by destruct Hk|done].
    + by rewrite IH.
Qed.
End upsert.

Lemma upsert_first_absent {A} (p : A -> bool) change new l :
  (forall x, x ∈ l -> p x = false) -> upsert_first p change new l = l ++ [new].
Proof.
  induction l as [|x l IH]; cbn; intros Hl; [done|]. rewrite (Hl x) by left.
  rewrite IH; [done|]. intros y Hy. apply Hl. by right.
Qed.

Lemma list_find_app {A} (p : A -> bool) l1 l2 :
  list_find p (l1 ++ l2) = match list_find p l1 with Some x => Some x | None => list_find p l2 end.
Proof. unfold list_find. induction l1 as [|x l1 IH]; cbn; [done|]. by destruct (p x). Qed.

Lemma list_find_ext {A} (p q : A -> bool) l : (forall x, x ∈ l -> p x = q x) -> list_find p l = list_find q l.
Proof.
  unfold list_find. induction l as [|x l IH]; cbn; intros Hl; [done|].
  rewrite (Hl x) by left. rewrite IH; [done|]. intros y Hy. apply Hl. by right.
Qed.

(** [Vec::dedup_by_key] *)
Fixpoint dedup_by {A B} `{EqDecision B} (key : A -> B) (l : list A) : list A :=
  match l with
  | [] => []
  | x :: l =>
      match dedup_by key l with
      | [] => [x]
      | y :: rest => if decide (key x = key y) then x :: rest else x :: y :: rest
      end
  end.
