(* ===== verification/RustString.v ===== *)
(** Rust's [str] as the program uses it.

    A Rust string is its UTF-8 bytes, here a [string] of bytes, so that length,
    equality, order, [contains], [starts_with] and the ASCII conversions are
    operations on bytes as they are in Rust; the operations on [char]s
    ([trim], [split_whitespace], [chars]) recognise the encoded scalar values.
    Unicode lower-casing is the one operation left abstract
    ([UnicodeLower]): its tables are data of the standard library.

    The cryptographic crates the program calls are interfaces, at the end: SHA-256
    ([sha2]), keyed hashes ([hmac]) and the text form of bytes ([base64], URL-safe
    without padding). A byte is a [Z] from 0 to 255. *)
From Stdlib Require Import Ascii.
From S2P Require Import Prelude.
Local Open Scope N_scope.

(** * Bytes *)

Definition byte (c : ascii) : N := N_of_ascii c.

Definition byte_in (lo hi : N) (c : ascii) : bool := (lo <=? byte c) && (byte c <=? hi).

Definition is_ascii_uppercase (c : ascii) : bool := byte_in 65 90 c.
Definition is_ascii_lowercase (c : ascii) : bool := byte_in 97 122 c.
Definition is_ascii_digit (c : ascii) : bool := byte_in 48 57 c.
Definition is_ascii_alphanumeric (c : ascii) : bool :=
  is_ascii_uppercase c || is_ascii_lowercase c || is_ascii_digit c.

Definition ascii_lower (c : ascii) : ascii :=
  if is_ascii_uppercase c then ascii_of_N (byte c + 32) else c.

Definition ascii_upper (c : ascii) : ascii :=
  if is_ascii_lowercase c then ascii_of_N (byte c - 32) else c.

(** A continuation byte of a multi-byte scalar value. *)
Definition is_continuation (c : ascii) : bool := byte_in 128 191 c.

Local Close Scope N_scope.

(** * White space: the scalar values with the property [White_Space] *)

Definition ws1 (a : ascii) : bool := byte_in 9 13 a || (byte a =? 32)%N.

(** U+0085, U+00A0 *)
Definition ws2 (a b : ascii) : bool :=
  (byte a =? 194)%N && ((byte b =? 133)%N || (byte b =? 160)%N).

(** U+1680, U+2000 to U+200A, U+2028, U+2029, U+202F, U+205F, U+3000 *)
Definition ws3 (a b c : ascii) : bool :=
  ((byte a =? 225) && (byte b =? 154) && (byte c =? 128))%N
  || ((byte a =? 226)%N && (byte b =? 128)%N
      && (byte_in 128 138 c || byte_in 168 169 c || (byte c =? 175)%N))
  || ((byte a =? 226) && (byte b =? 129) && (byte c =? 159))%N
  || ((byte a =? 227) && (byte b =? 128) && (byte c =? 128))%N.

(** What is left after a leading white space value; [None] when the string does
    not start with one. *)
Definition ws_strip (s : string) : option string :=
  match s with
  | EmptyString => None
  | String a r1 =>
      if ws1 a then Some r1 else
      match r1 with
      | EmptyString => None
      | String b r2 =>
          if ws2 a b then Some r2 else
          match r2 with
          | EmptyString => None
          | String c r3 => if ws3 a b c then Some r3 else None
          end
      end
  end.

(** The same on reversed bytes. *)
Definition ws_strip_rev (s : string) : option string :=
  match s with
  | EmptyString => None
  | String a r1 =>
      if ws1 a then Some r1 else
      match r1 with
      | EmptyString => None
      | String b r2 =>
          if ws2 b a then Some r2 else
          match r2 with
          | EmptyString => None
          | String c r3 => if ws3 c b a then Some r3 else None
          end
      end
  end.

(** * Strings *)

Definition str_len (s : string) : nat := String.length s.

Definition is_empty (s : string) : bool :=
  match s with EmptyString => true | _ => false end.

Fixpoint str_forall (p : ascii -> bool) (s : string) : bool :=
  match s with
  | EmptyString => true
  | String a r => p a && str_forall p r
  end.

Fixpoint str_map (f : ascii -> ascii) (s : string) : string :=
  match s with
  | EmptyString => EmptyString
  | String a r => String (f a) (str_map f r)
  end.

Fixpoint str_rev_onto (s acc : string) : string :=
  match s with
  | EmptyString => acc
  | String a r => str_rev_onto r (String a acc)
  end.
Definition str_rev (s : string) : string := str_rev_onto s EmptyString.

(** [str::to_ascii_lowercase] *)
Definition to_ascii_lowercase (s : string) : string := str_map ascii_lower s.

(** [str::eq_ignore_ascii_case] *)
Definition eq_ignore_ascii_case (s t : string) : bool :=
  String.eqb (to_ascii_lowercase s) (to_ascii_lowercase t).

(** [str::replace] of one ASCII character by another. *)
Definition replace_char (a b : ascii) (s : string) : string :=
  str_map (fun c => if Ascii.eqb c a then b else c) s.

Definition starts_with (p s : string) : bool := String.prefix p s.

(** [str::contains] *)
Fixpoint str_contains (p s : string) : bool :=
  starts_with p s ||
  match s with EmptyString => false | String _ r => str_contains p r end.

Definition contains_any (needles : list string) (s : string) : bool :=
  list_any (fun n => str_contains n s) needles.

(** [str::strip_suffix] with an ASCII character. *)
Fixpoint strip_suffix_char (c : ascii) (s : string) : option string :=
  match s with
  | EmptyString => None
  | String a EmptyString => if Ascii.eqb a c then Some EmptyString else None
  | String a r => String a <$> strip_suffix_char c r
  end.

(** [str::split_once] with an ASCII character. *)
Fixpoint split_once (c : ascii) (s : string) : option (string * string) :=
  match s with
  | EmptyString => None
  | String a r =>
      if Ascii.eqb a c then Some (EmptyString, r)
      else prod_map (String a) id <$> split_once c r
  end.

(** [str::trim_start] *)
Fixpoint trim_start (s : string) : string :=
  match s with
  | EmptyString => EmptyString
  | String a r1 =>
      if ws1 a then trim_start r1 else
      match r1 with
      | EmptyString => s
      | String b r2 =>
          if ws2 a b then trim_start r2 else
          match r2 with
          | EmptyString => s
          | String c r3 => if ws3 a b c then trim_start r3 else s
          end
      end
  end.

(** [trim_start] on the reversed bytes, so a white space value is met last byte
    first. *)
Fixpoint trim_start_rev (s : string) : string :=
  match s with
  | EmptyString => EmptyString
  | String a r1 =>
      if ws1 a then trim_start_rev r1 else
      match r1 with
      | EmptyString => s
      | String b r2 =>
          if ws2 b a then trim_start_rev r2 else
          match r2 with
          | EmptyString => s
          | String c r3 => if ws3 c b a then trim_start_rev r3 else s
          end
      end
  end.

(** [str::trim_end] *)
Definition trim_end (s : string) : string := str_rev (trim_start_rev (str_rev s)).

(** [str::trim] *)
Definition trim (s : string) : string := trim_end (trim_start s).

(** The test the code writes [value.trim().is_empty()]. *)
Definition is_blank (s : string) : bool := is_empty (trim s).

(** [str::trim_start_matches] and [str::trim_matches] at ASCII characters. *)
Fixpoint trim_start_matches (p : ascii -> bool) (s : string) : string :=
  match s with
  | String a r => if p a then trim_start_matches p r else s
  | EmptyString => EmptyString
  end.

Definition trim_end_matches (p : ascii -> bool) (s : string) : string :=
  str_rev (trim_start_matches p (str_rev s)).
Definition trim_matches (p : ascii -> bool) (s : string) : string :=
  trim_end_matches p (trim_start_matches p s).

(** [str::ends_with] *)
Definition ends_with (p s : string) : bool := starts_with (str_rev p) (str_rev s).

(** One of the strings of a list. *)
Definition str_in (s : string) (l : list string) : bool := list_any (String.eqb s) l.

(** Put a token in front of a list of tokens, unless it is empty. *)
Definition push_token (t : string) (l : list string) : list string :=
  match t with EmptyString => l | _ => t :: l end.

(** The bytes before the first white space of [s], and the tokens after it. *)
Fixpoint split_ws (s : string) : string * list string :=
  let cut r := match split_ws r with (t, l) => (EmptyString, push_token t l) end in
  let keep a r := match split_ws r with (t, l) => (String a t, l) end in
  match s with
  | EmptyString => (EmptyString, [])
  | String a r1 =>
      if ws1 a then cut r1 else
      match r1 with
      | EmptyString => keep a r1
      | String b r2 =>
          if ws2 a b then cut r2 else
          match r2 with
          | EmptyString => keep a r1
          | String c r3 => if ws3 a b c then cut r3 else keep a r1
          end
      end
  end.

(** [str::split_whitespace] *)
Definition split_whitespace (s : string) : list string :=
  push_token (split_ws s).1 (split_ws s).2.

(** [<[String]>::join] *)
Fixpoint join (sep : string) (l : list string) : string :=
  match l with
  | [] => EmptyString
  | [s] => s
  | s :: l' => s +:+ sep +:+ join sep l'
  end.

(** [str::chars().count()] *)
Fixpoint chars_count (s : string) : nat :=
  match s with
  | EmptyString => 0
  | String a r => (if is_continuation a then 0 else 1) + chars_count r
  end.

(** [str::chars().take(n).collect()] *)
Fixpoint chars_take (n : nat) (s : string) : string :=
  match s with
  | EmptyString => EmptyString
  | String a r =>
      if is_continuation a then String a (chars_take n r)
      else match n with
           | 0 => EmptyString
           | S n' => String a (chars_take n' r)
           end
  end.

(** The code's idiom [value.map(str::trim).filter(|v| !v.is_empty())]. *)
Definition non_blank (s : string) : option string :=
  let t := trim s in if is_empty t then None else Some t.

(** [str::split] at a byte, and [slice::split] for bytes. *)
Fixpoint split_char (c : ascii) (s : string) : list string :=
  match s with
  | EmptyString => [EmptyString]
  | String a r =>
      if Ascii.eqb a c then EmptyString :: split_char c r
      else match split_char c r with
           | t :: l => String a t :: l
           | [] => [String a EmptyString]
           end
  end.

(** [str::replace] of a needle that is not empty; [skip] bytes of a match are still
    to pass. *)
Fixpoint replace_from (needle new : string) (skip : nat) (s : string) : string :=
  match s with
  | EmptyString => EmptyString
  | String a r =>
      match skip with
      | S skip => replace_from needle new skip r
      | O => if starts_with needle s then new +:+ replace_from needle new (str_len needle - 1) r
             else String a (replace_from needle new 0 r)
      end
  end.
Definition str_replace (needle new s : string) : string := replace_from needle new 0 s.

(** [slice[i..]] and [slice[..n]] of bytes. *)
Fixpoint str_drop (n : nat) (s : string) : string :=
  match n, s with
  | S n, String _ r => str_drop n r
  | _, _ => s
  end.

(** What follows the first occurrence of [p], found by [str::find]. *)
Fixpoint after_first (p s : string) : option string :=
  if starts_with p s then Some (str_drop (str_len p) s)
  else match s with EmptyString => None | String _ r => after_first p r end.

(** [str::find] of an ASCII character. *)
Fixpoint find_char (c : ascii) (s : string) : option nat :=
  match s with
  | EmptyString => None
  | String a r => if Ascii.eqb a c then Some O else S <$> find_char c r
  end.

(** [str::from_utf8] succeeds. *)
Fixpoint utf8_valid (s : string) : bool :=
  match s with
  | EmptyString => true
  | String a r =>
      if (byte a <? 128)%N then utf8_valid r else
      match r with
      | EmptyString => false
      | String b r2 =>
          if byte_in 194 223 a then is_continuation b && utf8_valid r2 else
          match r2 with
          | EmptyString => false
          | String c r3 =>
              if byte_in 224 239 a then
                byte_in (if (byte a =? 224)%N then 160 else 128) (if (byte a =? 237)%N then 159 else 191) b
                && is_continuation c && utf8_valid r3
              else
              match r3 with
              | EmptyString => false
              | String d r4 =>
                  byte_in 240 244 a
                  && byte_in (if (byte a =? 240)%N then 144 else 128) (if (byte a =? 244)%N then 143 else 191) b
                  && is_continuation c && is_continuation d && utf8_valid r4
              end
          end
      end
  end.

(** Strings of ASCII bytes only. *)
Definition is_ascii (s : string) : bool := str_forall (byte_in 0 127) s.

(** [str::to_lowercase], the Unicode conversion: what the code relies on is
    that it is the ASCII conversion on ASCII strings. *)
Class UnicodeLower := {
  to_lowercase : string -> string;
  to_lowercase_ascii s : is_ascii s = true -> to_lowercase s = to_ascii_lowercase s
}.

(** The conversion that lowers ASCII letters only, an instance for concrete
    inputs. *)
Definition ascii_unicode_lower : UnicodeLower :=
  {| to_lowercase := to_ascii_lowercase; to_lowercase_ascii := fun s _ => eq_refl |}.

(** Decimal printing of unsigned integers, [format!("{}", n)]. *)
Definition show_Z (z : Z) : string := pretty z.
Definition show_nat (n : nat) : string := pretty n.

(** [format!("{b}")] of a bool *)
Definition show_bool (b : bool) : string := if b then "true" else "false".

(** * Lemmas *)

Lemma str_in_true s l : str_in s l = true <-> s ∈ l.
Proof.
  unfold str_in. rewrite list_any_true. setoid_rewrite String.eqb_eq. naive_solver.
Qed.

Lemma str_in_false s l : str_in s l = false <-> s ∉ l.
Proof. rewrite <-str_in_true. by destruct (str_in s l). Qed.

Lemma is_empty_true s : is_empty s = true <-> s = "".
Proof. by destruct s. Qed.

Lemma is_empty_false s : is_empty s = false <-> s <> "".
Proof. by destruct s. Qed.

Lemma str_rev_onto_app s t acc :
  str_rev_onto (s +:+ t) acc = str_rev_onto t (str_rev_onto s acc).
Proof. revert acc. induction s; intros acc; cbn; [done|]. by rewrite IHs. Qed.

Lemma str_app_assoc (s t u : string) : (s +:+ t) +:+ u = s +:+ (t +:+ u).
Proof. induction s; cbn; [done|]. by f_equal. Qed.

Lemma str_app_nil_r (s : string) : s +:+ "" = s.
Proof. induction s; cbn; [done|]. by f_equal. Qed.

Lemma str_rev_onto_acc s acc : str_rev_onto s acc = str_rev s +:+ acc.
Proof.
  unfold str_rev. revert acc. induction s as [|a s IH]; intros acc; cbn; [done|].
  rewrite IH, (IH (String a "")), str_app_assoc. done.
Qed.

Lemma str_rev_app s t : str_rev (s +:+ t) = str_rev t +:+ str_rev s.
Proof.
  unfold str_rev at 1. rewrite str_rev_onto_app, str_rev_onto_acc.
  unfold str_rev. done.
Qed.

Lemma str_rev_involutive s : str_rev (str_rev s) = s.
Proof.
  induction s as [|a s IH]; [done|].
  change (String a s) with (String a "" +:+ s) at 1.
  rewrite str_rev_app, str_rev_app, IH. done.
Qed.

(** ** White space *)

Lemma ws_strip_length s r : ws_strip s = Some r -> String.length r < String.length s.
Proof.
  destruct s as [|a [|b [|c s]]]; cbn; intros; repeat case_match; simplify_eq/=; lia.
Qed.

Lemma ws_strip_rev_length s r : ws_strip_rev s = Some r -> String.length r < String.length s.
Proof.
  destruct s as [|a [|b [|c s]]]; cbn; intros; repeat case_match; simplify_eq/=; lia.
Qed.

(** Induction that may skip any number of leading bytes. *)
Lemma string_length_ind (P : string -> Prop) :
  (forall s, (forall r, String.length r < String.length s -> P r) -> P s) -> forall s, P s.
Proof.
  intros IH s. remember (String.length s) as n eqn:E. revert s E.
  induction (lt_wf n) as [n _ IHn]. intros s ->. apply IH. intros r Hr. by eapply IHn.
Qed.

Lemma trim_start_eq s :
  trim_start s = match ws_strip s with Some r => trim_start r | None => s end.
Proof.
  destruct s as [|a [|b [|c s]]]; cbn [trim_start ws_strip]; try done.
  all: destruct (ws1 a); try destruct (ws2 a b); try destruct (ws3 a b c);
    try done; by repeat (case_match; simplify_eq/=).
Qed.

Lemma trim_start_rev_eq s :
  trim_start_rev s = match ws_strip_rev s with Some r => trim_start_rev r | None => s end.
Proof.
  destruct s as [|a [|b [|c s]]]; cbn [trim_start_rev ws_strip_rev]; try done.
  all: destruct (ws1 a); try done; destruct (ws2 b a); try done; by destruct (ws3 c b a).
Qed.

Lemma split_ws_eq s :
  split_ws s = match ws_strip s with
               | Some r => ("", split_whitespace r)
               | None => match s with
                         | "" => ("", [])
                         | String a r => (String a (split_ws r).1, (split_ws r).2)
                         end
               end.
Proof.
  unfold split_whitespace.
  destruct s as [|a r1]; [done|]. cbn [split_ws ws_strip].
  destruct (ws1 a); [by destruct (split_ws r1)|].
  destruct r1 as [|b r2]; [done|].
  destruct (ws2 a b); [by destruct (split_ws r2)|].
  destruct r2 as [|c r3]; [by destruct (split_ws (String b ""))|].
  destruct (ws3 a b c); [by destruct (split_ws r3)|by destruct (split_ws (String b (String c r3)))].
Qed.

Lemma ws_strip_trim_start s : ws_strip (trim_start s) = None.
Proof.
  induction s as [s IH] using string_length_ind. rewrite trim_start_eq.
  destruct (ws_strip s) eqn:E; [|done]. by apply IH, ws_strip_length.
Qed.

Lemma ws_strip_rev_trim s : ws_strip_rev (trim_start_rev s) = None.
Proof.
  induction s as [s IH] using string_length_ind. rewrite trim_start_rev_eq.
  destruct (ws_strip_rev s) eqn:E; [|done]. by apply IH, ws_strip_rev_length.
Qed.

(** A prefix of a string that starts with no white space starts with none. *)
Lemma ws_strip_prefix s t : ws_strip (s +:+ t) = None -> ws_strip s = None.
Proof.
  destruct s as [|a [|b [|c s]]]; cbn; try done; repeat case_match; done.
Qed.

Lemma ws_strip_suffix s r : ws_strip s = Some r -> exists w, s = w +:+ r.
Proof.
  destruct s as [|a [|b [|c s]]]; cbn; intros; repeat case_match; simplify_eq/=.
  all: first [by exists (String a "")|by exists (String a (String b ""))
             |by exists (String a (String b (String c "")))].
Qed.

Lemma ws_strip_rev_suffix s r : ws_strip_rev s = Some r -> exists w, s = w +:+ r.
Proof.
  destruct s as [|a [|b [|c s]]]; cbn; intros; repeat case_match; simplify_eq/=.
  all: first [by exists (String a "")|by exists (String a (String b ""))
             |by exists (String a (String b (String c "")))].
Qed.

Lemma trim_start_rev_suffix s : exists w, s = w +:+ trim_start_rev s.
Proof.
  induction s as [s IH] using string_length_ind. rewrite trim_start_rev_eq.
  destruct (ws_strip_rev s) as [r|] eqn:E; [|by exists ""].
  destruct (IH r) as [w Hw]; [by apply ws_strip_rev_length|].
  apply ws_strip_rev_suffix in E as [v ->]. exists (v +:+ w).
  by rewrite str_app_assoc, <-Hw.
Qed.

Lemma trim_end_prefix s : exists w, s = trim_end s +:+ w.
Proof.
  destruct (trim_start_rev_suffix (str_rev s)) as [w Hw]. exists (str_rev w).
  unfold trim_end. rewrite <-str_rev_app, <-Hw. by rewrite str_rev_involutive.
Qed.

Lemma trim_start_id s : ws_strip s = None -> trim_start s = s.
Proof. intros E. by rewrite trim_start_eq, E. Qed.

Lemma trim_start_fixed s : trim_start (trim_start s) = trim_start s.
Proof. apply trim_start_id, ws_strip_trim_start. Qed.

Lemma trim_end_fixed s : trim_end (trim_end s) = trim_end s.
Proof.
  unfold trim_end. rewrite str_rev_involutive.
  by rewrite (trim_start_rev_eq (trim_start_rev _)), ws_strip_rev_trim.
Qed.

Lemma ws_strip_trim s : ws_strip (trim s) = None.
Proof.
  unfold trim. destruct (trim_end_prefix (trim_start s)) as [w Hw].
  apply (ws_strip_prefix _ w). rewrite <-Hw. apply ws_strip_trim_start.
Qed.

Lemma trim_fixed s : trim (trim s) = trim s.
Proof.
  unfold trim at 1. rewrite trim_start_id by apply ws_strip_trim.
  unfold trim. apply trim_end_fixed.
Qed.

Lemma is_blank_trim s : is_blank (trim s) = is_blank s.
Proof. unfold is_blank. by rewrite trim_fixed. Qed.

Lemma non_blank_some s t : non_blank s = Some t <-> t = trim s /\ t <> "".
Proof.
  unfold non_blank. destruct (is_empty (trim s)) eqn:E.
  - apply is_empty_true in E. split; [done|]. intros [-> ?]. congruence.
  - apply is_empty_false in E. naive_solver.
Qed.

Lemma non_blank_none s : non_blank s = None <-> is_blank s = true.
Proof. unfold non_blank, is_blank. by destruct (is_empty (trim s)). Qed.

(** ** Tokens *)

(** A token: no white space value starts anywhere in it. *)
Definition is_token (t : string) : Prop := split_ws t = (t, []).

Lemma is_token_cons a t : is_token (String a t) -> is_token t.
Proof.
  unfold is_token. rewrite split_ws_eq. destruct (ws_strip (String a t)); [done|].
  intros [= H1 H2]. destruct (split_ws t). by simplify_eq/=.
Qed.

Lemma is_token_no_ws t : is_token t -> t <> "" -> ws_strip t = None.
Proof.
  unfold is_token. rewrite split_ws_eq. destruct (ws_strip t); [|done].
  intros [= <- _]. done.
Qed.

Lemma is_token_intro a t : ws_strip (String a t) = None -> is_token t -> is_token (String a t).
Proof. unfold is_token. intros E H. by rewrite split_ws_eq, E, H. Qed.

(** A prefix of a token is a token. *)
Lemma is_token_prefix s t : is_token (s +:+ t) -> is_token s.
Proof.
  induction s as [|a s IH]; [done|]. cbn. intros H. apply is_token_intro.
  - apply (ws_strip_prefix _ t). by apply is_token_no_ws.
  - apply IH. by eapply is_token_cons.
Qed.

Lemma is_token_split s : is_token (split_ws s).1.
Proof.
  induction s as [s IH] using string_length_ind. rewrite split_ws_eq.
  destruct (ws_strip s) eqn:E; [done|]. destruct s as [|a r]; [done|]. cbn.
  apply is_token_intro; [|apply IH; cbn; lia].
  assert (exists w, r = (split_ws r).1 +:+ w) as [w Hw].
  2: { apply (ws_strip_prefix _ w). cbn. by rewrite <-Hw. }
  clear. induction r as [r IH] using string_length_ind. rewrite split_ws_eq.
  destruct (ws_strip r); [by exists r|]. destruct r as [|b r]; [by exists ""|].
  destruct (IH r) as [w Hw]; [cbn; lia|]. exists w. cbn. by rewrite <-Hw.
Qed.

Lemma elem_of_push_token x t l : x ∈ push_token t l <-> (x = t /\ t <> "") \/ x ∈ l.
Proof. destruct t; cbn; [naive_solver|]. rewrite elem_of_cons. naive_solver. Qed.

Lemma split_whitespace_tokens s t :
  t ∈ split_whitespace s -> is_token t /\ t <> "".
Proof.
  induction s as [s IH] using string_length_ind. unfold split_whitespace.
  rewrite elem_of_push_token. intros [[-> Hne]|Ht].
  - split; [apply is_token_split|done].
  - rewrite split_ws_eq in Ht. destruct (ws_strip s) eqn:E.
    + eapply IH; [by apply ws_strip_length|done].
    + destruct s as [|a r]; [by apply not_elem_of_nil in Ht|]. cbn in Ht.
      apply (IH r); [cbn; lia|]. unfold split_whitespace.
      apply elem_of_push_token. by right.
Qed.

(** A token followed by a space is cut off as it is. *)
Lemma split_ws_token t r :
  is_token t -> split_ws (t +:+ String " " r) = (t, split_whitespace r).
Proof.
  induction t as [|a t IH]; intros Ht.
  - cbn [String.append]. by rewrite split_ws_eq.
  - rewrite split_ws_eq. replace (ws_strip (String a t +:+ String " " r)) with (@None string).
    { cbn. rewrite IH by (by eapply is_token_cons). done. }
    symmetry. apply is_token_no_ws in Ht; [|done].
    destruct t as [|b [|c t]]; cbn in *.
    + destruct (ws1 a); [done|]. unfold ws2, ws3.
      replace (byte " ") with 32%N by done. cbn.
      rewrite andb_false_r. destruct r; cbn; rewrite ?andb_false_r; done.
    + destruct (ws1 a); [done|]. destruct (ws2 a b); [done|].
      unfold ws3, byte_in. replace (byte " ") with 32%N by done. cbn.
      by rewrite !andb_false_r.
    + by destruct (ws1 a), (ws2 a b), (ws3 a b c).
Qed.

Lemma split_whitespace_token t : is_token t -> t <> "" -> split_whitespace t = [t].
Proof. unfold split_whitespace. intros -> ?. by destruct t. Qed.

(** [join] with a space, then [split_whitespace], gives the tokens back. *)
Lemma split_whitespace_join l :
  (forall t, t ∈ l -> is_token t /\ t <> "") -> split_whitespace (join " " l) = l.
Proof.
  induction l as [|t l IH]; intros H; [done|].
  assert (is_token t /\ t <> "") as [Ht Hne] by (apply H; left).
  destruct l as [|u l]; [by apply split_whitespace_token|].
  change (join " " (t :: u :: l)) with (t +:+ String " " (join " " (u :: l))).
  unfold split_whitespace at 1. rewrite split_ws_token by done. cbn [fst snd].
  rewrite IH; [by destruct t|]. intros v Hv. apply H. by right.
Qed.

(** Cutting the joined tokens anywhere leaves prefixes of them. *)
Lemma split_whitespace_join_prefix l p r x :
  (forall t, t ∈ l -> is_token t /\ t <> "") -> join " " l = p +:+ r ->
  x ∈ split_whitespace p -> exists t w, t ∈ l /\ t = x +:+ w.
Proof.
  revert p r. induction l as [|t l IH]; intros p r H Hp Hx.
  { destruct p; [by apply not_elem_of_nil in Hx|done]. }
  assert (is_token t /\ t <> "") as [Ht Hne] by (apply H; left).
  assert (Hcut : forall q w, t = q +:+ w -> x ∈ split_whitespace q ->
                 exists t' w', t' ∈ t :: l /\ t' = x +:+ w').
  { intros q w -> Hq. destruct (decide (q = "")) as [->|Hqn]; [by apply not_elem_of_nil in Hq|].
    rewrite split_whitespace_token in Hq by (eauto using is_token_prefix).
    apply list_elem_of_singleton in Hq as ->. exists (q +:+ w), w. set_solver. }
  destruct l as [|u l]; [by apply (Hcut p r)|].
  change (join " " (t :: u :: l)) with (t +:+ String " " (join " " (u :: l))) in Hp.
  assert ((exists w, t = p +:+ w) \/ exists q, p = t +:+ String " " q /\ join " " (u :: l) = q +:+ r)
    as [[w Hw]|(q & -> & Hq)].
  { clear -Hp. revert p Hp. induction t as [|a t IH]; intros [|b p] Hp.
    - left. by exists "".
    - right. injection Hp as <- Hp. by exists p.
    - left. by exists (String a t).
    - injection Hp as <- Hp. destruct (IH _ Hp) as [[w ->]|(q & -> & Hq)]; [left; by exists w|].
      right. by exists q. }
  - by apply (Hcut p w).
  - unfold split_whitespace in Hx. rewrite split_ws_token in Hx by done. cbn [fst snd] in Hx.
    apply elem_of_push_token in Hx as [[-> _]|Hx].
    + exists t, "". rewrite str_app_nil_r. set_solver.
    + destruct (IH q r) as (t' & w' & Ht' & ->); [set_solver|done..|].
      exists (x +:+ w'), w'. set_solver.
Qed.

(** ** Substrings *)

Lemma starts_with_refl s : starts_with s s = true.
Proof.
  unfold starts_with. induction s as [|a s IH]; cbn; [done|].
  by destruct (Ascii.ascii_dec a a).
Qed.

Lemma starts_with_cons a b p s :
  starts_with (String a p) (String b s)
  = if Ascii.ascii_dec a b then starts_with p s else false.
Proof. done. Qed.

Lemma starts_with_spec p s : starts_with p s = true <-> exists r, s = p +:+ r.
Proof.
  revert s. induction p as [|a p IH]; intros s.
  - split; [by exists s|by destruct s].
  - destruct s as [|b s]; [split; [done|by intros [? ?]]|].
    rewrite starts_with_cons. destruct (Ascii.ascii_dec a b) as [<-|Hab].
    + rewrite IH. split; intros [r Hr]; exists r; [by rewrite Hr|by injection Hr].
    + split; [done|]. intros [r Hr]. by injection Hr as ->.
Qed.

Lemma str_contains_cons p a s :
  str_contains p (String a s) = starts_with p (String a s) || str_contains p s.
Proof. done. Qed.

Lemma str_contains_spec p s :
  str_contains p s = true <-> exists l r, s = l +:+ p +:+ r.
Proof.
  induction s as [|a s IH].
  - unfold str_contains. rewrite orb_false_r, starts_with_spec. split.
    + intros [r Hr]. by exists "", r.
    + intros ([|? ?] & r & Hr); [by exists r|done].
  - rewrite str_contains_cons, orb_true_iff, starts_with_spec, IH. split.
    + intros [[r Hr]|(l & r & ->)]; [by exists "", r|by exists (String a l), r].
    + intros ([|b l] & r & Hr); [left; by exists r|right].
      injection Hr as -> ->. by exists l, r.
Qed.

Lemma str_contains_app_l p s t :
  str_contains p s = true -> str_contains p (s +:+ t) = true.
Proof.
  rewrite !str_contains_spec. intros (l & r & ->). exists l, (r +:+ t).
  by rewrite !str_app_assoc.
Qed.

Lemma starts_with_app_l p s t :
  starts_with p s = true -> starts_with p (s +:+ t) = true.
Proof.
  rewrite !starts_with_spec. intros (r & ->). exists (r +:+ t).
  by rewrite !str_app_assoc.
Qed.

Lemma str_map_app f s t : str_map f (s +:+ t) = str_map f s +:+ str_map f t.
Proof. induction s; cbn; [done|]. by f_equal. Qed.

Lemma ascii_lower_idem a : ascii_lower (ascii_lower a) = ascii_lower a.
Proof. by destruct a as [[] [] [] [] [] [] [] []]. Qed.

Lemma to_ascii_lowercase_idem s :
  to_ascii_lowercase (to_ascii_lowercase s) = to_ascii_lowercase s.
Proof. induction s; cbn; [done|]. f_equal; [apply ascii_lower_idem|done]. Qed.

(** ** Prefixes *)

Lemma chars_take_prefix n s : exists r, s = chars_take n s +:+ r.
Proof.
  revert n. induction s as [|a s IH]; intros n; cbn; [by exists ""|].
  destruct (is_continuation a).
  - destruct (IH n) as [r Hr]. exists r. cbn. by rewrite <-Hr.
  - destruct n as [|n]; [by exists (String a s)|].
    destruct (IH n) as [r Hr]. exists r. cbn. by rewrite <-Hr.
Qed.

Lemma chars_count_take n s : chars_count (chars_take n s) <= n.
Proof.
  revert n. induction s as [|a s IH]; intros n; cbn; [lia|].
  destruct (is_continuation a) eqn:E; cbn; [rewrite E; cbn; apply IH|].
  destruct n as [|n]; cbn; [lia|]. rewrite E. specialize (IH n). lia.
Qed.

Lemma chars_take_all n s : chars_count s <= n -> chars_take n s = s.
Proof.
  revert n. induction s as [|a s IH]; intros n; cbn; [done|].
  destruct (is_continuation a) eqn:E; cbn.
  - intros. f_equal. by apply IH.
  - destruct n as [|n]; [lia|]. intros. f_equal. apply IH. lia.
Qed.

(** * Numbers: [str::parse] at an unsigned type, and [to_string] *)

Definition digit_value (a : ascii) : Z := Z.of_N (byte a) - 48.

Fixpoint parse_digits (max acc : Z) (s : string) : option Z :=
  match s with
  | EmptyString => Some acc
  | String a r =>
      if is_ascii_digit a then
        let acc := (10 * acc + digit_value a)%Z in
        if (acc <=? max)%Z then parse_digits max acc r else None
      else None
  end.

(** A sign [+] may come first; there must be a digit, and no overflow. *)
Definition parse_uint (max : Z) (s : string) : option Z :=
  match s with
  | EmptyString => None
  | String a r =>
      if Ascii.eqb a "+" then if is_empty r then None else parse_digits max 0 r
      else parse_digits max 0 s
  end.

Lemma pretty_N_char_digit (x : N) :
  (x < 10)%N -> is_ascii_digit (pretty_N_char x) = true /\ digit_value (pretty_N_char x) = Z.of_N x.
Proof.
  intros Hx. assert (x ∈ [0; 1; 2; 3; 4; 5; 6; 7; 8; 9]%N) as H.
  { rewrite !elem_of_cons, elem_of_nil. lia. }
  repeat (apply elem_of_cons in H as [->|H]; [by split|]). by apply not_elem_of_nil in H.
Qed.

Lemma parse_digits_pretty max (x : N) s :
  (Z.of_N x <= max)%Z -> parse_digits max 0 (pretty_N_go x s) = parse_digits max (Z.of_N x) s.
Proof.
  revert s. induction (N.lt_wf_0 x) as [x _ IH]. intros s Hx.
  destruct (decide (x = 0)%N) as [->|Hx0]; [by rewrite pretty_N_go_0|].
  rewrite pretty_N_go_step by lia.
  assert (x / 10 < x)%N as Hlt by (apply N.div_lt; lia).
  rewrite IH by lia. cbn. pose proof (N.mod_lt x 10 ltac:(lia)) as Hm.
  destruct (pretty_N_char_digit (x mod 10) Hm) as [-> ->].
  pose proof (N.div_mod x 10 ltac:(lia)) as Hd.
  replace (10 * Z.of_N (x / 10) + Z.of_N (x mod 10))%Z with (Z.of_N x) by lia.
  by rewrite (proj2 (Z.leb_le _ _) Hx).
Qed.

Lemma pretty_N_go_digit (x : N) s a r :
  (0 < x)%N -> pretty_N_go x s = String a r -> is_ascii_digit a = true.
Proof.
  revert s. induction (N.lt_wf_0 x) as [x _ IH]. intros s Hx.
  rewrite pretty_N_go_step by lia. pose proof (N.mod_lt x 10 ltac:(lia)) as Hm.
  destruct (decide (x / 10 = 0)%N) as [E|E].
  - rewrite E, pretty_N_go_0. intros [= <- _]. by apply pretty_N_char_digit.
  - apply IH; [apply N.div_lt; lia|by apply N.neq_0_lt_0].
Qed.

Lemma parse_show_Z max z : (0 <= z <= max)%Z -> parse_uint max (show_Z z) = Some z.
Proof.
  intros Hz. unfold show_Z. destruct z as [|p|p]; [| |lia].
  - change (parse_uint max (pretty 0%Z)) with (if (0 <=? max)%Z then Some 0%Z else None).
    by rewrite (proj2 (Z.leb_le 0 max) ltac:(lia)).
  - change (pretty (Z.pos p)) with (pretty_N_go (N.pos p) "").
    pose proof (parse_digits_pretty max (N.pos p) "" ltac:(lia)) as E.
    destruct (pretty_N_go (N.pos p) "") as [|a r] eqn:Ep; [done|].
    unfold parse_uint. pose proof (pretty_N_go_digit (N.pos p) _ _ _ ltac:(lia) Ep) as Ha.
    destruct (Ascii.eqb_spec a "+") as [->|]; [done|]. exact E.
Qed.

(** * Characters that trimming cannot touch *)

(** An ASCII character that is not white space. *)
Definition plain (c : ascii) : bool := negb (ws1 c) && (byte c <? 128)%N.

Lemma plain_ws c : plain c = true ->
  ws1 c = false /\ (forall a, ws2 a c = false /\ ws2 c a = false)
  /\ forall a b, ws3 a b c = false /\ ws3 a c b = false /\ ws3 c a b = false.
Proof.
  unfold plain, ws2, ws3, byte_in. intros [Hw Hb]%andb_true_iff. apply negb_true_iff in Hw.
  apply N.ltb_lt in Hb. split; [done|].
  assert (forall n, (128 <= n)%N -> (byte c =? n)%N = false) as Hne by (intros; apply N.eqb_neq; lia).
  assert (forall n, (128 <= n)%N -> (n <=? byte c)%N = false) as Hle by (intros; apply N.leb_gt; lia).
  split; intros; rewrite ?Hne, ?Hle by lia; cbn; rewrite ?andb_false_r; done.
Qed.

Section plain.
Context (c : ascii) (Hc : plain c = true).

Lemma ws_strip_plain s t r :
  ws_strip (s +:+ String c t) = Some r ->
  exists s', r = s' +:+ String c t /\ String.length s' < String.length s.
Proof.
  destruct (plain_ws c Hc) as (H1 & H2 & H3).
  destruct s as [|x [|y [|z s]]]; cbn -[ws1 ws2 ws3].
  - rewrite H1. destruct t as [|b [|d t]]; [done| |]; by rewrite (proj2 (H2 _)), ?(proj2 (proj2 (H3 _ _))).
  - destruct (ws1 x); [intros [= <-]; exists ""; cbn; auto with lia|].
    rewrite (proj1 (H2 _)). destruct t as [|d t]; [done|]. by rewrite (proj1 (proj2 (H3 _ _))).
  - destruct (ws1 x); [intros [= <-]; exists (String y ""); cbn; auto with lia|].
    destruct (ws2 x y); [intros [= <-]; exists ""; cbn; auto with lia|]. by rewrite (proj1 (H3 _ _)).
  - destruct (ws1 x); [intros [= <-]; exists (String y (String z s)); cbn; auto with lia|].
    destruct (ws2 x y); [intros [= <-]; exists (String z s); cbn; auto with lia|].
    destruct (ws3 x y z); [intros [= <-]; exists s; cbn; auto with lia|]. done.
Qed.

Lemma ws_strip_rev_plain s t r :
  ws_strip_rev (s +:+ String c t) = Some r ->
  exists s', r = s' +:+ String c t /\ String.length s' < String.length s.
Proof.
  destruct (plain_ws c Hc) as (H1 & H2 & H3).
  destruct s as [|x [|y [|z s]]]; cbn -[ws1 ws2 ws3].
  - rewrite H1. destruct t as [|b [|d t]]; [done| |]; by rewrite (proj1 (H2 _)), ?(proj1 (H3 _ _)).
  - destruct (ws1 x); [intros [= <-]; exists ""; cbn; auto with lia|].
    rewrite (proj2 (H2 _)). destruct t as [|d t]; [done|]. by rewrite (proj1 (proj2 (H3 _ _))).
  - destruct (ws1 x); [intros [= <-]; exists (String y ""); cbn; auto with lia|].
    destruct (ws2 y x); [intros [= <-]; exists ""; cbn; auto with lia|]. by rewrite (proj2 (proj2 (H3 _ _))).
  - destruct (ws1 x); [intros [= <-]; exists (String y (String z s)); cbn; auto with lia|].
    destruct (ws2 y x); [intros [= <-]; exists (String z s); cbn; auto with lia|].
    destruct (ws3 z y x); [intros [= <-]; exists s; cbn; auto with lia|]. done.
Qed.

Lemma trim_start_plain s t : exists s', trim_start (s +:+ String c t) = s' +:+ String c t.
Proof.
  induction s as [s IH] using string_length_ind. rewrite trim_start_eq.
  destruct (ws_strip _) eqn:E; [|by exists s]. apply ws_strip_plain in E as (s' & -> & Hl). by apply IH.
Qed.

Lemma trim_start_rev_plain s t : exists s', trim_start_rev (s +:+ String c t) = s' +:+ String c t.
Proof.
  induction s as [s IH] using string_length_ind. rewrite trim_start_rev_eq.
  destruct (ws_strip_rev _) eqn:E; [|by exists s].
  apply ws_strip_rev_plain in E as (s' & -> & Hl). by apply IH.
Qed.

Lemma str_rev_mid s t : str_rev (s +:+ String c t) = str_rev t +:+ String c (str_rev s).
Proof. rewrite str_rev_app. unfold str_rev at 1. cbn. by rewrite str_rev_onto_acc, str_app_assoc. Qed.

(** A string that holds such a character is not blank. *)
Lemma is_blank_plain s t : is_blank (s +:+ String c t) = false.
Proof.
  unfold is_blank, trim. destruct (trim_start_plain s t) as [s' ->]. unfold trim_end.
  rewrite str_rev_mid. destruct (trim_start_rev_plain (str_rev t) (str_rev s')) as [s'' ->].
  apply is_empty_false. intros Hn. apply (f_equal str_rev) in Hn.
  rewrite str_rev_involutive in Hn. by destruct s''.
Qed.
End plain.

Lemma is_blank_colon s t : is_blank (s +:+ ":" +:+ t) = false.
Proof. by apply (is_blank_plain ":"). Qed.

(** A string between two such characters is its own trimming. *)
Lemma trim_plain_ends a s b :
  plain a = true -> plain b = true -> trim (String a (s +:+ String b "")) = String a (s +:+ String b "").
Proof.
  intros Ha Hb. unfold trim.
  assert (forall r, ws_strip (String a r) = None) as Hs.
  { intros r. destruct (ws_strip (String a r)) as [x|] eqn:E; [|done].
    apply (ws_strip_plain a Ha "") in E as (s' & _ & Hl). cbn in Hl. lia. }
  rewrite trim_start_id by apply Hs. unfold trim_end.
  change (String a (s +:+ String b "")) with ((String a s) +:+ String b "").
  rewrite str_rev_mid. change (str_rev "") with "". cbn [String.append]. rewrite trim_start_rev_eq.
  destruct (ws_strip_rev (String b _)) as [x|] eqn:E.
  - apply (ws_strip_rev_plain b Hb "") in E as (s' & _ & Hl). cbn in Hl. lia.
  - change (String b (str_rev (String a s))) with ("" +:+ String b (str_rev (String a s))).
    by rewrite str_rev_mid, str_rev_involutive.
Qed.

Lemma str_snoc a s : exists t b, String a s = t +:+ String b "".
Proof.
  revert a. induction s as [|b s IH]; intros a; [by exists "", a|].
  destruct (IH b) as (t & x & ->). by exists (String a t), x.
Qed.

Lemma str_forall_app p (s t : string) : str_forall p (s +:+ t) = str_forall p s && str_forall p t.
Proof. induction s as [|a s IH]; [done|]. cbn. by rewrite IH, andb_assoc. Qed.

Lemma trim_plain s : str_forall plain s = true -> trim s = s.
Proof.
  destruct s as [|a s]; [done|]. intros Hp. cbn in Hp. apply andb_true_iff in Hp as [Ha Hp].
  destruct s as [|b s].
  - unfold trim. cbn -[trim_end]. unfold trim_end. cbn.
    destruct (plain_ws a Ha) as (-> & _ & _). cbn. by rewrite (proj1 (plain_ws a Ha)).
  - destruct (str_snoc b s) as (t & x & E). rewrite E in Hp |- *. apply trim_plain_ends; [done|].
    clear E. induction t as [|y t IH]; cbn in Hp; apply andb_true_iff in Hp as [Hx Hp]; [done|by apply IH].
Qed.

Lemma digit_plain a : is_ascii_digit a = true -> plain a = true.
Proof.
  unfold is_ascii_digit, plain, ws1, byte_in. intros [H1 H2]%andb_true_iff.
  apply N.leb_le in H1, H2.
  assert ((byte a <=? 13)%N = false) as -> by (apply N.leb_gt; lia).
  assert ((byte a =? 32)%N = false) as -> by (apply N.eqb_neq; lia).
  rewrite andb_false_r. cbn. apply N.ltb_lt. lia.
Qed.

Lemma pretty_N_go_digits (x : N) s :
  str_forall is_ascii_digit s = true -> str_forall is_ascii_digit (pretty_N_go x s) = true.
Proof.
  revert s. induction (N.lt_wf_0 x) as [x _ IH]. intros s Hs.
  destruct (decide (x = 0)%N) as [->|Hx0]; [by rewrite pretty_N_go_0|].
  rewrite pretty_N_go_step by lia. apply IH; [apply N.div_lt; lia|].
  cbn. rewrite Hs. by rewrite (proj1 (pretty_N_char_digit _ (N.mod_lt x 10 ltac:(lia)))).
Qed.

(** A number that is not negative prints as digits, and so untouched by trimming. *)
Lemma show_Z_digits z : (0 <= z)%Z -> str_forall is_ascii_digit (show_Z z) = true.
Proof.
  intros Hz. unfold show_Z. destruct z as [|p|p]; [done| |lia].
  change (pretty (Z.pos p)) with (pretty_N_go (N.pos p) ""). by apply pretty_N_go_digits.
Qed.

Lemma trim_show_Z z : (0 <= z)%Z -> trim (show_Z z) = show_Z z.
Proof.
  intros Hz. apply trim_plain. pose proof (show_Z_digits z Hz) as Hd. revert Hd.
  generalize (show_Z z). intros s. induction s as [|a s IH]; [done|]. cbn.
  intros [Ha Hs]%andb_true_iff. by rewrite (digit_plain a Ha), IH.
Qed.

Lemma show_Z_not_empty z : (0 <= z)%Z -> show_Z z <> "".
Proof.
  intros Hz E. pose proof (parse_show_Z z z ltac:(lia)) as Hp. by rewrite E in Hp.
Qed.

(** * Cryptographic crates *)

Local Open Scope Z_scope.

(** [Sha256::digest], and its length. *)
Class Sha256 := {
  sha256 : string -> list Z;
  sha256_length s : length (sha256 s) = 32%nat
}.

Definition hex_digit (n : Z) : ascii :=
  ascii_of_N (Z.to_N (if n <? 10 then 48 + n else 87 + n)).

(** [format!("{byte:02x}")] *)
Definition hex_byte (b : Z) : string :=
  String (hex_digit (b / 16)) (String (hex_digit (b mod 16)) "").

(** The digest's first six bytes in hexadecimal. *)
Definition short_sha256 `{Sha256} (input : string) : string :=
  join "" (hex_byte <$> take 6 (sha256 input)).

(** [Hmac<Sha256>] of a message under a key, with the documented length of its
    result; a key may have any length. Byte strings are [string]s. *)
Class HmacSha256 := {
  hmac : string -> string -> string;
  hmac_length key m : str_len (hmac key m) = 32%nat
}.

(** [URL_SAFE_NO_PAD]. Decoding inverts encoding; an encoding is made of letters,
    digits, [-] and [_]; only the empty input has an empty encoding. *)
Definition url_safe (c : ascii) : bool :=
  is_ascii_alphanumeric c || Ascii.eqb c "-"%char || Ascii.eqb c "_"%char.

Class Base64Url := {
  b64_encode : string -> string;
  b64_decode : string -> result string string;
  b64_decode_encode s : b64_decode (b64_encode s) = Ok s;
  b64_encode_safe s : str_forall url_safe (b64_encode s) = true;
  b64_encode_empty s : b64_encode s = "" -> s = ""
}.
