(* ===== verification/Json.v ===== *)
(** [serde_json], as far as the program uses it.

    The crate is not part of the repository, so [Value] and its functions are an
    interface, [SerdeJson], with the documented behaviour the proofs use as its
    laws, [SerdeJsonLaws]. [Codec] is the pair [to_value]/[from_value] of a type
    with derived [Serialize] and [Deserialize]. [jv] is the crate's public data
    type; it instantiates the interface where a theorem is applied to concrete
    values, and is what the code that builds values is modelled over. Objects are built and read by key; as
    in the crate's map, the last entry of a key wins.

    The second part has JSON values as data: the maps of the crate, which are ordered
    by key and hold a key once, and the look-ups by path that the task service and the
    audit stream share. *)
From Stdlib Require Export SpecFloat.
From S2P Require Import Prelude RustString.
Class SerdeJson := {
  Value : Type;
  json_null : Value;
  json_bool : bool -> Value;
  json_num : Z -> Value;
  json_str : string -> Value;
  json_arr : list Value -> Value;
  json_obj : list (string * Value) -> Value;
  is_null : Value -> bool;
  value_get : Value -> string -> option Value;
  as_str : Value -> option string;
  as_bool : Value -> option bool;
  as_u64 : Value -> option Z;
  as_array : Value -> option (list Value);
  value_remove : string -> Value -> Value
}.

(** The entry of a key in a list of entries: the last one. *)
Fixpoint entry {A} (k : string) (l : list (string * A)) : option A :=
  match l with
  | [] => None
  | (k', v) :: l' =>
      match entry k l' with
      | Some x => Some x
      | None => if (k' =? k)%string then Some v else None
      end
  end.

Class SerdeJsonLaws `{SerdeJson} : Prop := {
  is_null_null : is_null json_null = true;
  is_null_obj l : is_null (json_obj l) = false;
  get_obj l k : value_get (json_obj l) k = entry k l;
  get_null k : value_get json_null k = None;
  as_str_str s : as_str (json_str s) = Some s;
  as_str_null : as_str json_null = None;
  as_bool_bool b : as_bool (json_bool b) = Some b;
  as_u64_num n : u64_range n -> as_u64 (json_num n) = Some n;
  as_array_arr l : as_array (json_arr l) = Some l
}.

(** [serde_json::to_value] and [serde_json::from_value] at a type. *)
Class Codec `{SerdeJson} (A : Type) := {
  to_value : A -> result string Value;
  from_value : Value -> result string A
}.

(** What is serialised is read back as it was. *)
Class CodecLaws `{SerdeJson} (A : Type) `{!Codec A} : Prop := {
  from_to_value (a : A) v : to_value a = Ok v -> from_value v = Ok a
}.

(** * The data type

    Numbers are integers or [f64]s (finite; the two zeros are not equal here). *)

Inductive jv :=
| JNull
| JBool (b : bool)
| JNum (n : Z)
| JFloat (x : spec_float)
| JStr (s : string)
| JArr (l : list jv)
| JObj (l : list (string * jv)).

Definition jv_is_null (v : jv) : bool := match v with JNull => true | _ => false end.

Definition jv_get (v : jv) (k : string) : option jv :=
  match v with JObj l => entry k l | _ => None end.

Definition jv_remove (k : string) (v : jv) : jv :=
  match v with
  | JObj l => JObj (List.filter (fun kv => negb (kv.1 =? k)%string) l)
  | _ => v
  end.

Definition jv_json : SerdeJson := {|
  Value := jv; json_null := JNull; json_bool := JBool; json_num := JNum; json_str := JStr;
  json_arr := JArr; json_obj := JObj; is_null := jv_is_null; value_get := jv_get;
  as_str v := match v with JStr s => Some s | _ => None end;
  as_bool v := match v with JBool b => Some b | _ => None end;
  as_u64 v := match v with
              | JNum n => if ((0 <=? n) && (n <=? u64_max))%Z then Some n else None
              | _ => None end;
  as_array v := match v with JArr l => Some l | _ => None end;
  value_remove := jv_remove
|}.

Lemma jv_json_laws : @SerdeJsonLaws jv_json.
Proof.
  split; try done. intros n [H1 H2]. cbn. by rewrite (proj2 (Z.leb_le _ _) H1), (proj2 (Z.leb_le _ _) H2).
Qed.

(** * Lemmas *)

Lemma entry_none {A} k (l : list (string * A)) : entry k l = None <-> k ∉ l.*1.
Proof.
  induction l as [|[k' v] l IH]; cbn; [split; [intros _ H; by apply not_elem_of_nil in H|done]|].
  rewrite not_elem_of_cons, <-IH. destruct (entry k l); [naive_solver|].
  destruct (String.eqb_spec k' k); naive_solver.
Qed.

Lemma entry_elem {A} k v (l : list (string * A)) : entry k l = Some v -> (k, v) ∈ l.
Proof.
  induction l as [|[k' v'] l IH]; cbn; [done|].
  destruct (entry k l) as [x|]; [intros [= ->]; right; by apply IH|].
  destruct (String.eqb_spec k' k) as [->|]; [|done]. intros [= ->]. left.
Qed.

(** * Values as data *)

Local Open Scope string_scope.
Local Open Scope list_scope.

(** * Operations *)

(** [Map::insert] *)
Fixpoint obj_insert (k : string) (v : jv) (l : list (string * jv)) : list (string * jv) :=
  match l with
  | [] => [(k, v)]
  | (k', v') :: l' =>
      match String.compare k k' with
      | Lt => (k, v) :: l
      | Eq => (k, v) :: l'
      | Gt => (k', v') :: obj_insert k v l'
      end
  end.

Definition insert_entry (l : list (string * jv)) (kv : string * jv) : list (string * jv) :=
  obj_insert kv.1 kv.2 l.

(** The macro [json!] at an object. *)
Definition json_object (l : list (string * jv)) : jv := JObj (foldl insert_entry [] l).

(** [Serialize] for [Option]. *)
Definition json_option {A} (f : A -> jv) (o : option A) : jv :=
  match o with Some x => f x | None => JNull end.

Definition is_object (v : jv) : bool := match v with JObj _ => true | _ => false end.

(** An index in a JSON pointer: [str::parse::<usize>] without a sign or a leading
    zero. *)
Definition parse_index (s : string) : option Z :=
  if starts_with "+" s || (starts_with "0" s && negb (str_len s =? 1)%nat) then None
  else parse_uint u64_max s.

(** One segment of [Value::pointer]. The pointers of the code are constants
    without escapes, and are given here by their segments. *)
Definition jv_index (v : jv) (segment : string) : option jv :=
  match v with
  | JObj l => entry segment l
  | JArr l => parse_index segment ≫= (fun i => l !! Z.to_nat i)
  | _ => None
  end.

Fixpoint pointer (path : list string) (v : jv) : option jv :=
  match path with
  | [] => Some v
  | s :: path => jv_index v s ≫= pointer path
  end.

Definition jv_str (v : jv) : option string := match v with JStr s => Some s | _ => None end.
Definition jv_bool (v : jv) : option bool := match v with JBool b => Some b | _ => None end.
Definition jv_u64 (v : jv) : option Z :=
  match v with JNum n => if ((0 <=? n) && (n <=? u64_max))%Z then Some n else None | _ => None end.
Definition jv_array (v : jv) : option (list jv) := match v with JArr l => Some l | _ => None end.

(** [Value::as_f64], and [f64 as f32]. *)
Definition jv_f64 (v : jv) : option spec_float :=
  match v with
  | JNum n => Some (binary_normalize 53 1024 n 0 false)
  | JFloat x => Some x
  | _ => None
  end.

Definition f64_as_f32 (x : spec_float) : spec_float :=
  match x with
  | S754_finite s m e => binary_normalize 24 128 (cond_Zopp s (Zpos m)) e s
  | _ => x
  end.

(** [f64::from] of a [f32]. *)
Definition f32_as_f64 (x : spec_float) : spec_float :=
  match x with
  | S754_finite s m e => binary_normalize 53 1024 (cond_Zopp s (Zpos m)) e s
  | _ => x
  end.

(** [serde_json::to_string] of a value. *)
Class JsonText := { json_to_string : jv -> result string string }.

(** [Iterator::find_map] *)
Fixpoint find_map {A B} (f : A -> option B) (l : list A) : option B :=
  match l with
  | [] => None
  | x :: l => match f x with Some y => Some y | None => find_map f l end
  end.

Global Instance spec_float_eq_dec : EqDecision spec_float.
Proof. solve_decision. Defined.

(** [Value::eq] *)
Global Instance jv_eq_dec : EqDecision jv.
Proof.
  unfold EqDecision, Decision. fix rec 1. intros [|b|n|x|s|l|l] [|b'|n'|x'|s'|l'|l']; try (by right).
  - by left.
  - destruct (decide (b = b')) as [->|]; [by left|right; congruence].
  - destruct (decide (n = n')) as [->|]; [by left|right; congruence].
  - destruct (decide (x = x')) as [->|]; [by left|right; congruence].
  - destruct (decide (s = s')) as [->|]; [by left|right; congruence].
  - destruct (List.list_eq_dec rec l l') as [->|]; [by left|right; congruence].
  - assert (forall a b : string * jv, {a = b} + {a <> b}) as kv.
    { intros [k v] [k' v']. destruct (decide (k = k')) as [->|]; [|right; congruence].
      destruct (rec v v') as [->|]; [by left|right; congruence]. }
    destruct (List.list_eq_dec kv l l') as [->|]; [by left|right; congruence].
Defined.

(** * Lemmas *)

(** Induction on a value, through its arrays and objects. *)
Lemma jv_nested_ind (P : jv -> Prop) :
  P JNull -> (forall b, P (JBool b)) -> (forall n, P (JNum n)) -> (forall x, P (JFloat x)) -> (forall s, P (JStr s)) ->
  (forall l, Forall P l -> P (JArr l)) ->
  (forall l, Forall (fun kv => P kv.2) l -> P (JObj l)) ->
  forall v, P v.
Proof.
  intros Hnull Hbool Hnum Hfloat Hstr Harr Hobj. fix rec 1. intros [|b|n|x|s|l|l]; [done|auto..| |].
  - apply Harr. induction l as [|v l IH]; constructor; [apply rec|exact IH].
  - apply Hobj. induction l as [|[k v] l IH]; constructor; [apply rec|exact IH].
Qed.

(** Keys in increasing order, as the crate's maps keep them. *)
Definition key_lt (x y : string * jv) : Prop := String.compare x.1 y.1 = Lt.
Definition keys_ordered (l : list (string * jv)) : Prop := StronglySorted key_lt l.

Inductive ordered : jv -> Prop :=
| ordered_null : ordered JNull
| ordered_bool b : ordered (JBool b)
| ordered_num n : ordered (JNum n)
| ordered_float x : ordered (JFloat x)
| ordered_str s : ordered (JStr s)
| ordered_arr l : Forall ordered l -> ordered (JArr l)
| ordered_obj l : keys_ordered l -> Forall (fun kv => ordered kv.2) l -> ordered (JObj l).

Create HintDb json.
#[export] Hint Constructors ordered : json.

(** * Ordered objects *)

Lemma key_lt_trans x y z : key_lt x y -> key_lt y z -> key_lt x z.
Proof. apply string_compare_lt_trans. Qed.

Lemma elem_of_obj_insert k v l kv :
  kv ∈ obj_insert k v l -> kv = (k, v) \/ kv ∈ l.
Proof.
  induction l as [|[k' v'] l IH]; cbn; [set_solver|].
  destruct (String.compare k k'); rewrite !elem_of_cons; naive_solver.
Qed.

Lemma obj_insert_ordered k v l : keys_ordered l -> keys_ordered (obj_insert k v l).
Proof.
  unfold keys_ordered. induction 1 as [|[k' v'] l Hl IH Hk]; cbn; [by repeat constructor|].
  rewrite Forall_forall in Hk. destruct (String.compare k k') eqn:E.
  - apply String.compare_eq_iff in E as ->. constructor; [done|]. by apply Forall_forall.
  - constructor; [constructor; [done|by apply Forall_forall]|].
    apply Forall_forall. intros x [->|Hx]%elem_of_cons; [done|].
    apply (key_lt_trans _ (k', v')); [done|by apply Hk].
  - constructor; [done|]. apply Forall_forall. intros x [->|Hx]%elem_of_obj_insert; [|by apply Hk].
    unfold key_lt. cbn. by rewrite String.compare_antisym, E.
Qed.

Lemma entry_ordered_below k l :
  keys_ordered l -> Forall (key_lt (k, JNull)) l -> entry k l = None.
Proof.
  intros _ Hl. apply entry_none. intros (kv & E & Hkv)%list_elem_of_fmap.
  rewrite Forall_forall in Hl. specialize (Hl kv Hkv). unfold key_lt in Hl. cbn in Hl.
  by rewrite E, (cmp_refl String.compare) in Hl.
Qed.

(** The first entry decides, in an ordered object. *)
Lemma entry_cons_ordered k k' v l :
  keys_ordered ((k', v) :: l) ->
  entry k ((k', v) :: l) = if (k' =? k) then Some v else entry k l.
Proof.
  intros Hl. cbn. destruct (String.eqb_spec k' k) as [->|]; [|by destruct (entry k l)].
  apply StronglySorted_inv in Hl as [Hl Hk]. by rewrite (entry_ordered_below k l Hl Hk).
Qed.

Lemma entry_obj_insert k v l k' :
  keys_ordered l -> entry k' (obj_insert k v l) = if (k =? k') then Some v else entry k' l.
Proof.
  induction l as [|[k1 v1] l IH]; intros Hl; [cbn; by destruct (k =? k')|].
  pose proof (obj_insert_ordered k v _ Hl) as Hi. cbn [obj_insert] in *.
  destruct (String.compare k k1) eqn:E.
  - apply String.compare_eq_iff in E as ->. rewrite !entry_cons_ordered by done.
    by destruct (k1 =? k').
  - by rewrite entry_cons_ordered.
  - rewrite !entry_cons_ordered by done. apply StronglySorted_inv in Hl as [Hl _].
    rewrite IH by done. destruct (String.eqb_spec k1 k') as [->|]; [|done].
    destruct (String.eqb_spec k k') as [->|]; [|done].
    by rewrite (cmp_refl String.compare) in E.
Qed.

(** Ordered objects with the same entries are the same. *)
Lemma ordered_ext l1 l2 :
  keys_ordered l1 -> keys_ordered l2 -> (forall k, entry k l1 = entry k l2) -> l1 = l2.
Proof.
  intros H1. revert l2. induction H1 as [|[k1 v1] l1 H1 IH Hk1]; intros l2 H2 He.
  - destruct l2 as [|[k v] l2]; [done|]. specialize (He k).
    rewrite entry_cons_ordered, String.eqb_refl in He by done. done.
  - destruct H2 as [|[k2 v2] l2 H2 Hk2].
    { specialize (He k1). rewrite entry_cons_ordered, String.eqb_refl in He by (by constructor). done. }
    assert (k1 = k2) as ->.
    { destruct (String.compare k1 k2) eqn:E; [by apply String.compare_eq_iff| |]; exfalso.
      - specialize (He k1). rewrite !entry_cons_ordered, String.eqb_refl in He by (by constructor).
        destruct (String.eqb_spec k2 k1) as [->|].
        { by rewrite (cmp_refl String.compare) in E. }
        rewrite entry_ordered_below in He; [done|done|].
        rewrite Forall_forall in Hk2 |- *. intros x Hx.
        apply (key_lt_trans _ (k2, v2)); [done|by apply Hk2].
      - specialize (He k2). rewrite !entry_cons_ordered, String.eqb_refl in He by (by constructor).
        destruct (String.eqb_spec k1 k2) as [->|].
        { by rewrite (cmp_refl String.compare) in E. }
        rewrite entry_ordered_below in He; [done|done|].
        rewrite Forall_forall in Hk1 |- *. intros x Hx.
        apply (key_lt_trans _ (k1, v1)); [|by apply Hk1].
        unfold key_lt. cbn. by rewrite String.compare_antisym, E. }
    pose proof (He k2) as Hv. rewrite !entry_cons_ordered, String.eqb_refl in Hv by (by constructor).
    injection Hv as ->. f_equal. apply IH; [done|]. intros k. specialize (He k).
    rewrite !entry_cons_ordered in He by (by constructor).
    destruct (String.eqb_spec k2 k) as [->|]; [|done].
    by rewrite !entry_ordered_below.
Qed.

Lemma foldl_insert_ordered acc l : keys_ordered acc -> keys_ordered (foldl insert_entry acc l).
Proof.
  revert acc. induction l as [|kv l IH]; intros acc Ha; cbn; [done|].
  by apply IH, obj_insert_ordered.
Qed.

Lemma elem_of_foldl_insert acc l kv :
  kv ∈ foldl insert_entry acc l -> kv ∈ acc \/ kv ∈ l.
Proof.
  revert acc. induction l as [|[k v] l IH]; intros acc; cbn; [by left|].
  intros [Hk%elem_of_obj_insert|Hk]%IH; rewrite elem_of_cons; naive_solver.
Qed.

(** Inserting an ordered object's entries rebuilds it. *)
Lemma obj_insert_last k v l :
  Forall (fun x => key_lt x (k, v)) l -> obj_insert k v l = l ++ [(k, v)].
Proof.
  induction 1 as [|[k' v'] l Hx Hl IH]; cbn; [done|].
  unfold key_lt in Hx. cbn in Hx. rewrite String.compare_antisym, Hx. cbn. by rewrite IH.
Qed.

Lemma foldl_insert_app acc l :
  keys_ordered (acc ++ l) -> foldl insert_entry acc l = acc ++ l.
Proof.
  revert acc. induction l as [|[k v] l IH]; intros acc Ho; cbn; [by rewrite app_nil_r|].
  unfold insert_entry at 2. cbn. rewrite obj_insert_last.
  - rewrite IH, <-app_assoc; [done|]. by rewrite <-app_assoc.
  - apply Forall_forall. intros x Hx. unfold keys_ordered in Ho.
    apply StronglySorted_app in Ho as (Hlt & _ & _). apply Hlt; [done|left].
Qed.

Lemma entry_fmap (f : string * jv -> string * jv) k l :
  Forall (fun kv => (f kv).1 = kv.1) l -> entry k (f <$> l) = (fun v => (f (k, v)).2) <$> entry k l.
Proof.
  induction 1 as [|[k' v'] l Hf Hl IH]; cbn; [done|].
  destruct (f (k', v')) as [k'' v''] eqn:E. cbn in Hf. subst k''. rewrite IH.
  destruct (entry k l); cbn; [done|].
  destruct (String.eqb_spec k' k) as [->|]; [|done]. cbn. by rewrite E.
Qed.

Lemma fmap_keys_ordered (f : string * jv -> string * jv) l :
  Forall (fun kv => (f kv).1 = kv.1) l -> keys_ordered l -> keys_ordered (f <$> l).
Proof.
  intros Hf. induction 1 as [|kv l Hl IH Hk]; cbn; [constructor|].
  apply Forall_cons in Hf as [Hkv Hf]. constructor; [by apply IH|].
  apply Forall_fmap. rewrite Forall_forall in Hf, Hk |- *. intros x Hx. unfold key_lt. cbn.
  rewrite Hkv, (Hf x Hx). by apply Hk.
Qed.


(** The entries of an object built by insertions: the last one of a key. *)
Lemma entry_foldl_insert acc l k :
  keys_ordered acc ->
  entry k (foldl insert_entry acc l) = match entry k l with Some v => Some v | None => entry k acc end.
Proof.
  revert acc. induction l as [|[k' v] l IH]; intros acc Ha; cbn; [done|].
  rewrite IH by by apply obj_insert_ordered. unfold insert_entry. cbn [fst snd].
  rewrite entry_obj_insert by done. destruct (entry k l); [done|]. by destruct (k' =? k).
Qed.

Lemma entry_json_object l k : entry k (foldl insert_entry [] l) = entry k l.
Proof. rewrite entry_foldl_insert by constructor. by destruct (entry k l). Qed.
