(* ===== verification/Scheduler.v ===== *)
(** The A100 cluster lease scheduler, [src/runtime/ai_resource_scheduler.rs].

    The scheduler is one mutex-protected [SchedulerState] and a condition
    variable. Every operation is a function from the state the lock protects to
    the state it leaves, with the clock readings it takes as arguments and, where
    the code calls [notify_all], a boolean that says so. [acquire] blocks, so it
    is three functions: [acquire_enter] runs from the call to the wait loop,
    [acquire_poll] is one iteration of the loop, and [acquire_begin] is the code
    run under the first lock, which is the two composed. [step] interleaves them
    for any number of threads. Instants and durations are nanoseconds. *)
From S2P Require Import Prelude RustString.
Local Open Scope Z_scope.

(** * Constants *)

Definition DEFAULT_LEASE_QUEUE_CAPACITY : Z := 8.
Definition MAX_LEASE_QUEUE_CAPACITY : Z := 64.
Definition DEFAULT_LEASE_WAIT_TIMEOUT_MS : Z := 60000.
Definition MAX_LEASE_WAIT_TIMEOUT_MS : Z := 300000.
Definition AI_RESOURCE_QUEUE_MODE : string := "ai_cluster_lease".

(** * Workloads, clusters and resources *)

Inductive AiWorkload := Yolo | Llm | CatRecordingVerifier | Vlm.
Inductive AiCluster := A100Cluster0 | A100Cluster1.
Inductive AiResource :=
| ResA100Cluster0
| ResA100Cluster1
| SpacemitOnnxRuntimeCluster0
| SpacemitOnnxRuntimeCluster1.

Global Instance AiWorkload_eq_dec : EqDecision AiWorkload.
Proof. solve_decision. Defined.
Global Instance AiCluster_eq_dec : EqDecision AiCluster.
Proof. solve_decision. Defined.
Global Instance AiResource_eq_dec : EqDecision AiResource.
Proof. solve_decision. Defined.

Definition workload_as_str (w : AiWorkload) : string :=
  match w with
  | Yolo => "yolo"
  | Llm => "llm"
  | CatRecordingVerifier => "cat_recording_verifier"
  | Vlm => "vlm"
  end.

Definition cluster (w : AiWorkload) : AiCluster :=
  match w with
  | Yolo => A100Cluster0
  | Llm | CatRecordingVerifier | Vlm => A100Cluster1
  end.

Definition required_resources (w : AiWorkload) : list AiResource :=
  match w with
  | Yolo => [ResA100Cluster0; SpacemitOnnxRuntimeCluster0]
  | CatRecordingVerifier => [ResA100Cluster1; SpacemitOnnxRuntimeCluster1]
  | Llm | Vlm => [ResA100Cluster1]
  end.

Definition workload_priority (w : AiWorkload) : Z :=
  match w with
  | Yolo | Llm => 0
  | CatRecordingVerifier => 5
  | Vlm => 10
  end.

Definition workload_index (w : AiWorkload) : nat :=
  match w with
  | Yolo => 0%nat
  | Llm => 1%nat
  | CatRecordingVerifier => 2%nat
  | Vlm => 3%nat
  end.

Definition ALL_RESOURCES : list AiResource :=
  [ResA100Cluster0; ResA100Cluster1; SpacemitOnnxRuntimeCluster0; SpacemitOnnxRuntimeCluster1].

Definition resource_as_str (r : AiResource) : string :=
  match r with
  | ResA100Cluster0 => "a100_cluster_0"
  | ResA100Cluster1 => "a100_cluster_1"
  | SpacemitOnnxRuntimeCluster0 => "spacemit_onnx_runtime_cluster_0"
  | SpacemitOnnxRuntimeCluster1 => "spacemit_onnx_runtime_cluster_1"
  end.

Definition resource_index (r : AiResource) : nat :=
  match r with
  | ResA100Cluster0 => 0%nat
  | ResA100Cluster1 => 1%nat
  | SpacemitOnnxRuntimeCluster0 => 2%nat
  | SpacemitOnnxRuntimeCluster1 => 3%nat
  end.

(** [1 << self.index()] *)
Definition resource_mask_bit (r : AiResource) : Z := Z.shiftl 1 (Z.of_nat (resource_index r)).

Definition from_cluster (c : AiCluster) : AiResource :=
  match c with
  | A100Cluster0 => ResA100Cluster0
  | A100Cluster1 => ResA100Cluster1
  end.

Definition cluster_other (c : AiCluster) : AiCluster :=
  match c with
  | A100Cluster0 => A100Cluster1
  | A100Cluster1 => A100Cluster0
  end.

Definition cluster_as_str (c : AiCluster) : string :=
  match c with
  | A100Cluster0 => "a100_cluster_0"
  | A100Cluster1 => "a100_cluster_1"
  end.

Definition core_ids (c : AiCluster) : list Z :=
  match c with
  | A100Cluster0 => [8; 9; 10; 11]
  | A100Cluster1 => [12; 13; 14; 15]
  end.

(** The [while] loop over the required resources, [mask |= resource.mask()]. *)
Definition resource_mask (w : AiWorkload) : Z :=
  foldl (fun mask r => Z.lor mask (resource_mask_bit r)) 0 (required_resources w).

Definition resources_in_mask (mask : Z) : list AiResource :=
  List.filter (fun r => negb (Z.land mask (resource_mask_bit r) =? 0)) ALL_RESOURCES.

Definition resources_overlap (left right : Z) : bool := negb (Z.land left right =? 0).

(** * Errors *)

Inductive AiLeaseErrorKind := QueueFull | WaitTimeout | Quarantined.

Record AiLeaseError := {
  error_kind : AiLeaseErrorKind;
  error_workload : AiWorkload;
  error_cluster : AiCluster
}.

Definition error_code (e : AiLeaseError) : string :=
  match error_kind e with
  | QueueFull => "ai_resource_queue_full"
  | WaitTimeout => "ai_resource_wait_timeout"
  | Quarantined => "ai_resource_quarantined"
  end.

Inductive AiLeaseQuarantineReason :=
| ProcessExitUnconfirmed
| InferenceTimeout
| RuntimeFailure.

Definition reason_as_str (r : AiLeaseQuarantineReason) : string :=
  match r with
  | ProcessExitUnconfirmed => "process_exit_unconfirmed"
  | InferenceTimeout => "inference_timeout"
  | RuntimeFailure => "runtime_failure"
  end.

(** [impl fmt::Display for AiLeaseError] *)
Definition error_display (e : AiLeaseError) : string :=
  error_code e +:+ " for " +:+ workload_as_str (error_workload e)
    +:+ " on " +:+ cluster_as_str (error_cluster e).

(** * State *)

Record LeaseHolder := {
  holder_lease_id : Z;
  holder_workload : AiWorkload;
  holder_acquired_at : Z
}.

Record LeaseWaiter := {
  ticket : Z;
  waiter_workload : AiWorkload;
  waiter_priority : Z;
  waiter_mask : Z;
  enqueued_at : Z
}.

Record ResourceMetrics := {
  r_acquired_total : Z;
  r_released_total : Z;
  r_lease_quarantined_total : Z;
  r_queued_total : Z;
  r_queue_full_total : Z;
  r_timed_out_total : Z;
  r_total_wait_ms : Z;
  r_max_wait_ms : Z
}.

Record WorkloadMetrics := {
  w_requested_total : Z;
  w_acquired_total : Z;
  w_released_total : Z;
  w_cross_cluster_parallel_acquired_total : Z;
  w_quarantine_rejected_total : Z;
  w_queued_total : Z;
  w_queue_full_total : Z;
  w_timed_out_total : Z;
  w_total_wait_ms : Z;
  w_max_wait_ms : Z
}.

Record ResourceState := {
  holder : option LeaseHolder;
  quarantine_reason : option AiLeaseQuarantineReason;
  metrics : ResourceMetrics
}.

(** [[T; 4]] *)
Record arr4 (A : Type) := Arr4 { at0 : A; at1 : A; at2 : A; at3 : A }.
Arguments Arr4 {A}.
Arguments at0 {A}. Arguments at1 {A}. Arguments at2 {A}. Arguments at3 {A}.

Definition arr4_get {A} (a : arr4 A) (i : nat) : A :=
  match i with 0%nat => at0 a | 1%nat => at1 a | 2%nat => at2 a | _ => at3 a end.

Definition arr4_update {A} (f : A -> A) (i : nat) (a : arr4 A) : arr4 A :=
  match i with
  | 0%nat => Arr4 (f (at0 a)) (at1 a) (at2 a) (at3 a)
  | 1%nat => Arr4 (at0 a) (f (at1 a)) (at2 a) (at3 a)
  | 2%nat => Arr4 (at0 a) (at1 a) (f (at2 a)) (at3 a)
  | _ => Arr4 (at0 a) (at1 a) (at2 a) (f (at3 a))
  end.

Definition arr4_const {A} (x : A) : arr4 A := Arr4 x x x x.

Record SchedulerState := {
  next_ticket : Z;
  next_lease_id : Z;
  resources : arr4 ResourceState;
  waiters : list LeaseWaiter;
  workloads : arr4 WorkloadMetrics
}.

Definition resource_metrics_default : ResourceMetrics :=
  {| r_acquired_total := 0; r_released_total := 0; r_lease_quarantined_total := 0;
     r_queued_total := 0; r_queue_full_total := 0; r_timed_out_total := 0;
     r_total_wait_ms := 0; r_max_wait_ms := 0 |}.

Definition workload_metrics_default : WorkloadMetrics :=
  {| w_requested_total := 0; w_acquired_total := 0; w_released_total := 0;
     w_cross_cluster_parallel_acquired_total := 0; w_quarantine_rejected_total := 0;
     w_queued_total := 0; w_queue_full_total := 0; w_timed_out_total := 0;
     w_total_wait_ms := 0; w_max_wait_ms := 0 |}.

Definition scheduler_state_default : SchedulerState :=
  {| next_ticket := 0; next_lease_id := 0;
     resources := arr4_const
       {| holder := None; quarantine_reason := None; metrics := resource_metrics_default |};
     waiters := []; workloads := arr4_const workload_metrics_default |}.

(** The parts of [AiResourceScheduler] outside the mutex. *)
Record SchedulerConfig := {
  queue_capacity : Z;
  wait_timeout : Z
}.

Record AiResourceLease := {
  lease_mask : Z;
  lease_workload : AiWorkload;
  lease_id : Z
}.

(** ** Field updates *)

Definition res (st : SchedulerState) (r : AiResource) : ResourceState :=
  arr4_get (resources st) (resource_index r).

Definition wl (st : SchedulerState) (w : AiWorkload) : WorkloadMetrics :=
  arr4_get (workloads st) (workload_index w).

Definition upd_res (f : ResourceState -> ResourceState) (st : SchedulerState) (r : AiResource)
  : SchedulerState :=
  {| next_ticket := next_ticket st; next_lease_id := next_lease_id st;
     resources := arr4_update f (resource_index r) (resources st);
     waiters := waiters st; workloads := workloads st |}.

Definition upd_wl (f : WorkloadMetrics -> WorkloadMetrics) (st : SchedulerState) (w : AiWorkload)
  : SchedulerState :=
  {| next_ticket := next_ticket st; next_lease_id := next_lease_id st;
     resources := resources st; waiters := waiters st;
     workloads := arr4_update f (workload_index w) (workloads st) |}.

Definition set_waiters (ws : list LeaseWaiter) (st : SchedulerState) : SchedulerState :=
  {| next_ticket := next_ticket st; next_lease_id := next_lease_id st;
     resources := resources st; waiters := ws; workloads := workloads st |}.

Definition set_next_ticket (t : Z) (st : SchedulerState) : SchedulerState :=
  {| next_ticket := t; next_lease_id := next_lease_id st;
     resources := resources st; waiters := waiters st; workloads := workloads st |}.

Definition set_next_lease_id (i : Z) (st : SchedulerState) : SchedulerState :=
  {| next_ticket := next_ticket st; next_lease_id := i;
     resources := resources st; waiters := waiters st; workloads := workloads st |}.

Definition upd_metrics (f : ResourceMetrics -> ResourceMetrics) (s : ResourceState) : ResourceState :=
  {| holder := holder s; quarantine_reason := quarantine_reason s; metrics := f (metrics s) |}.

(** [.wrapping_add(1).max(1)] *)
Definition next_id (i : Z) : Z := Z.max (wrap64 (i + 1)) 1.

(** [duration_millis] *)
Definition duration_millis (d : Z) : Z := Z.min (d / 1000000) u64_max.

(** [Instant::elapsed], saturating at zero. *)
Definition elapsed (since now : Z) : Z := Z.max 0 (now - since).

(** ** Counters *)

Definition incr_requested (m : WorkloadMetrics) : WorkloadMetrics :=
  {| w_requested_total := u64_incr (w_requested_total m);
     w_acquired_total := w_acquired_total m; w_released_total := w_released_total m;
     w_cross_cluster_parallel_acquired_total := w_cross_cluster_parallel_acquired_total m;
     w_quarantine_rejected_total := w_quarantine_rejected_total m;
     w_queued_total := w_queued_total m; w_queue_full_total := w_queue_full_total m;
     w_timed_out_total := w_timed_out_total m; w_total_wait_ms := w_total_wait_ms m;
     w_max_wait_ms := w_max_wait_ms m |}.

Definition incr_quarantine_rejected (m : WorkloadMetrics) : WorkloadMetrics :=
  {| w_requested_total := w_requested_total m;
     w_acquired_total := w_acquired_total m; w_released_total := w_released_total m;
     w_cross_cluster_parallel_acquired_total := w_cross_cluster_parallel_acquired_total m;
     w_quarantine_rejected_total := u64_incr (w_quarantine_rejected_total m);
     w_queued_total := w_queued_total m; w_queue_full_total := w_queue_full_total m;
     w_timed_out_total := w_timed_out_total m; w_total_wait_ms := w_total_wait_ms m;
     w_max_wait_ms := w_max_wait_ms m |}.

Definition incr_w_queue_full (m : WorkloadMetrics) : WorkloadMetrics :=
  {| w_requested_total := w_requested_total m;
     w_acquired_total := w_acquired_total m; w_released_total := w_released_total m;
     w_cross_cluster_parallel_acquired_total := w_cross_cluster_parallel_acquired_total m;
     w_quarantine_rejected_total := w_quarantine_rejected_total m;
     w_queued_total := w_queued_total m; w_queue_full_total := u64_incr (w_queue_full_total m);
     w_timed_out_total := w_timed_out_total m; w_total_wait_ms := w_total_wait_ms m;
     w_max_wait_ms := w_max_wait_ms m |}.

Definition incr_w_queued (m : WorkloadMetrics) : WorkloadMetrics :=
  {| w_requested_total := w_requested_total m;
     w_acquired_total := w_acquired_total m; w_released_total := w_released_total m;
     w_cross_cluster_parallel_acquired_total := w_cross_cluster_parallel_acquired_total m;
     w_quarantine_rejected_total := w_quarantine_rejected_total m;
     w_queued_total := u64_incr (w_queued_total m); w_queue_full_total := w_queue_full_total m;
     w_timed_out_total := w_timed_out_total m; w_total_wait_ms := w_total_wait_ms m;
     w_max_wait_ms := w_max_wait_ms m |}.

Definition incr_w_timed_out (m : WorkloadMetrics) : WorkloadMetrics :=
  {| w_requested_total := w_requested_total m;
     w_acquired_total := w_acquired_total m; w_released_total := w_released_total m;
     w_cross_cluster_parallel_acquired_total := w_cross_cluster_parallel_acquired_total m;
     w_quarantine_rejected_total := w_quarantine_rejected_total m;
     w_queued_total := w_queued_total m; w_queue_full_total := w_queue_full_total m;
     w_timed_out_total := u64_incr (w_timed_out_total m); w_total_wait_ms := w_total_wait_ms m;
     w_max_wait_ms := w_max_wait_ms m |}.

Definition incr_w_released (m : WorkloadMetrics) : WorkloadMetrics :=
  {| w_requested_total := w_requested_total m;
     w_acquired_total := w_acquired_total m; w_released_total := u64_incr (w_released_total m);
     w_cross_cluster_parallel_acquired_total := w_cross_cluster_parallel_acquired_total m;
     w_quarantine_rejected_total := w_quarantine_rejected_total m;
     w_queued_total := w_queued_total m; w_queue_full_total := w_queue_full_total m;
     w_timed_out_total := w_timed_out_total m; w_total_wait_ms := w_total_wait_ms m;
     w_max_wait_ms := w_max_wait_ms m |}.

(** The workload counters a grant touches. *)
Definition grant_workload (other_cluster_busy : bool) (waited_ms : Z) (m : WorkloadMetrics)
  : WorkloadMetrics :=
  {| w_requested_total := w_requested_total m;
     w_acquired_total := u64_incr (w_acquired_total m); w_released_total := w_released_total m;
     w_cross_cluster_parallel_acquired_total :=
       if other_cluster_busy then u64_incr (w_cross_cluster_parallel_acquired_total m)
       else w_cross_cluster_parallel_acquired_total m;
     w_quarantine_rejected_total := w_quarantine_rejected_total m;
     w_queued_total := w_queued_total m; w_queue_full_total := w_queue_full_total m;
     w_timed_out_total := w_timed_out_total m;
     w_total_wait_ms := u64_saturating_add (w_total_wait_ms m) waited_ms;
     w_max_wait_ms := Z.max (w_max_wait_ms m) waited_ms |}.

Definition incr_r_queue_full (m : ResourceMetrics) : ResourceMetrics :=
  {| r_acquired_total := r_acquired_total m; r_released_total := r_released_total m;
     r_lease_quarantined_total := r_lease_quarantined_total m;
     r_queued_total := r_queued_total m; r_queue_full_total := u64_incr (r_queue_full_total m);
     r_timed_out_total := r_timed_out_total m; r_total_wait_ms := r_total_wait_ms m;
     r_max_wait_ms := r_max_wait_ms m |}.

Definition incr_r_queued (m : ResourceMetrics) : ResourceMetrics :=
  {| r_acquired_total := r_acquired_total m; r_released_total := r_released_total m;
     r_lease_quarantined_total := r_lease_quarantined_total m;
     r_queued_total := u64_incr (r_queued_total m); r_queue_full_total := r_queue_full_total m;
     r_timed_out_total := r_timed_out_total m; r_total_wait_ms := r_total_wait_ms m;
     r_max_wait_ms := r_max_wait_ms m |}.

Definition incr_r_timed_out (m : ResourceMetrics) : ResourceMetrics :=
  {| r_acquired_total := r_acquired_total m; r_released_total := r_released_total m;
     r_lease_quarantined_total := r_lease_quarantined_total m;
     r_queued_total := r_queued_total m; r_queue_full_total := r_queue_full_total m;
     r_timed_out_total := u64_incr (r_timed_out_total m); r_total_wait_ms := r_total_wait_ms m;
     r_max_wait_ms := r_max_wait_ms m |}.

Definition incr_r_released (m : ResourceMetrics) : ResourceMetrics :=
  {| r_acquired_total := r_acquired_total m; r_released_total := u64_incr (r_released_total m);
     r_lease_quarantined_total := r_lease_quarantined_total m;
     r_queued_total := r_queued_total m; r_queue_full_total := r_queue_full_total m;
     r_timed_out_total := r_timed_out_total m; r_total_wait_ms := r_total_wait_ms m;
     r_max_wait_ms := r_max_wait_ms m |}.

Definition incr_r_quarantined (m : ResourceMetrics) : ResourceMetrics :=
  {| r_acquired_total := r_acquired_total m; r_released_total := r_released_total m;
     r_lease_quarantined_total := u64_incr (r_lease_quarantined_total m);
     r_queued_total := r_queued_total m; r_queue_full_total := r_queue_full_total m;
     r_timed_out_total := r_timed_out_total m; r_total_wait_ms := r_total_wait_ms m;
     r_max_wait_ms := r_max_wait_ms m |}.

(** The resource counters a grant touches. *)
Definition grant_metrics (waited_ms : Z) (m : ResourceMetrics) : ResourceMetrics :=
  {| r_acquired_total := u64_incr (r_acquired_total m); r_released_total := r_released_total m;
     r_lease_quarantined_total := r_lease_quarantined_total m;
     r_queued_total := r_queued_total m; r_queue_full_total := r_queue_full_total m;
     r_timed_out_total := r_timed_out_total m;
     r_total_wait_ms := u64_saturating_add (r_total_wait_ms m) waited_ms;
     r_max_wait_ms := Z.max (r_max_wait_ms m) waited_ms |}.

(** * Scheduling predicates *)

Definition resources_are_free (st : SchedulerState) (mask : Z) : bool :=
  list_all (fun r => match holder (res st r), quarantine_reason (res st r) with
                     | None, None => true
                     | _, _ => false
                     end) (resources_in_mask mask).

Definition required_resources_are_quarantined (st : SchedulerState) (w : AiWorkload) : bool :=
  list_any (fun r => match quarantine_reason (res st r) with Some _ => true | None => false end)
    (required_resources w).

(** The tuple comparisons [(p1, t1) <= (p2, t2)] and [(p1, t1) < (p2, t2)]. *)
Definition key_le (p1 t1 p2 t2 : Z) : bool := (p1 <? p2) || ((p1 =? p2) && (t1 <=? t2)).
Definition key_lt (p1 t1 p2 t2 : Z) : bool := (p1 <? p2) || ((p1 =? p2) && (t1 <? t2)).

Definition can_grant_new_request (st : SchedulerState) (w : AiWorkload) : bool :=
  resources_are_free st (resource_mask w)
  && negb (list_any (fun v =>
       resources_overlap (waiter_mask v) (resource_mask w)
       && resources_are_free st (waiter_mask v)
       && key_le (waiter_priority v) (ticket v) (workload_priority w) u64_max) (waiters st)).

Definition waiter_can_be_granted (st : SchedulerState) (t : Z) : bool :=
  match list_find (fun v => ticket v =? t) (waiters st) with
  | None => false
  | Some v =>
      resources_are_free st (waiter_mask v)
      && negb (list_any (fun o =>
           negb (ticket o =? ticket v)
           && resources_overlap (waiter_mask o) (waiter_mask v)
           && resources_are_free st (waiter_mask o)
           && key_lt (waiter_priority o) (ticket o) (waiter_priority v) (ticket v)) (waiters st))
  end.

Definition queued_count_for_resource (ws : list LeaseWaiter) (r : AiResource) : nat :=
  count_if (fun v => negb (Z.land (waiter_mask v) (resource_mask_bit r) =? 0)) ws.

Global Arguments queued_count_for_resource : simpl never.
Global Arguments resources_are_free : simpl never.
Global Arguments required_resources_are_quarantined : simpl never.

Definition remove_waiter (ws : list LeaseWaiter) (t : Z) : list LeaseWaiter :=
  match position (fun v => ticket v =? t) ws with
  | Some i => remove_at i ws
  | None => ws
  end.

(** * Operations *)

(** [AiResourceScheduler::new] *)
Definition scheduler_new (capacity timeout : Z) : SchedulerConfig :=
  {| queue_capacity := z_clamp capacity 1 MAX_LEASE_QUEUE_CAPACITY;
     wait_timeout := Z.min timeout (MAX_LEASE_WAIT_TIMEOUT_MS * 1000000) |}.

(** [bounded_env_usize] and [bounded_env_u64]: [parsed] is the variable's value
    when it is set and, trimmed, parses as an unsigned integer. *)
Definition bounded_env (parsed : option Z) (default minimum maximum : Z) : Z :=
  match parsed with
  | Some v => z_clamp v minimum maximum
  | None => default
  end.

(** [AiResourceScheduler::from_environment] *)
Definition from_environment (capacity_env timeout_env : option Z) : SchedulerConfig :=
  let capacity := bounded_env capacity_env DEFAULT_LEASE_QUEUE_CAPACITY 1 MAX_LEASE_QUEUE_CAPACITY in
  let timeout_ms :=
    bounded_env timeout_env DEFAULT_LEASE_WAIT_TIMEOUT_MS 1 MAX_LEASE_WAIT_TIMEOUT_MS in
  scheduler_new capacity (timeout_ms * 1000000).

(** The body of the [for] loop of [grant]. *)
Definition grant_resource (id : Z) (w : AiWorkload) (now waited_ms : Z) (s : ResourceState)
  : ResourceState :=
  {| holder := Some {| holder_lease_id := id; holder_workload := w; holder_acquired_at := now |};
     quarantine_reason := quarantine_reason s;
     metrics := grant_metrics waited_ms (metrics s) |}.

Definition grant (st : SchedulerState) (w : AiWorkload) (mask waited_ms now : Z)
  : SchedulerState * AiResourceLease :=
  let id := next_id (next_lease_id st) in
  let st := set_next_lease_id id st in
  let other_cluster_busy :=
    match holder (res st (from_cluster (cluster_other (cluster w)))) with
    | Some _ => true | None => false end in
  let st := foldl (upd_res (grant_resource id w now waited_ms)) st (resources_in_mask mask) in
  let st := upd_wl (grant_workload other_cluster_busy waited_ms) st w in
  (st, {| lease_mask := mask; lease_workload := w; lease_id := id |}).

(** How one run of code under the lock ends: [acquire] returns, or the thread
    waits on the condition variable with a ticket and a deadline. *)
Inductive AcquireOutcome :=
| Returned (r : result AiLeaseError AiResourceLease)
| Parked (t deadline : Z).

Definition lease_error (k : AiLeaseErrorKind) (w : AiWorkload) : AiLeaseError :=
  {| error_kind := k; error_workload := w; error_cluster := cluster w |}.

(** [acquire] from the call to the [loop]: it returns, or it has enqueued a
    waiter with the ticket and deadline it gives. [now] is the reading for the lease
    or the waiter, [now1] the one the deadline is counted from. *)
Definition acquire_enter (cfg : SchedulerConfig) (st : SchedulerState) (w : AiWorkload)
    (now now1 : Z) : SchedulerState * AcquireOutcome :=
  let st := upd_wl incr_requested st w in
  if required_resources_are_quarantined st w then
    (upd_wl incr_quarantine_rejected st w, Returned (Err (lease_error Quarantined w)))
  else if can_grant_new_request st w then
    let '(st, lease) := grant st w (resource_mask w) 0 now in (st, Returned (Ok lease))
  else if list_any (fun r => queue_capacity cfg <=? Z.of_nat (queued_count_for_resource (waiters st) r))
            (required_resources w) then
    let st := foldl (upd_res (upd_metrics incr_r_queue_full)) st (required_resources w) in
    (upd_wl incr_w_queue_full st w, Returned (Err (lease_error QueueFull w)))
  else
    let t := next_id (next_ticket st) in
    let st := set_next_ticket t st in
    let waiter := {| ticket := t; waiter_workload := w; waiter_priority := workload_priority w;
                     waiter_mask := resource_mask w; enqueued_at := now |} in
    let st := set_waiters (waiters st ++ [waiter]) st in
    let st := foldl (upd_res (upd_metrics incr_r_queued)) st (required_resources w) in
    let st := upd_wl incr_w_queued st w in
    (st, Parked t (now1 + wait_timeout cfg)).

(** One iteration of the [loop] of [acquire] by the thread that waits for [w]
    with ticket [t]: the state it leaves, how it ends, and whether it calls
    [notify_all]. *)
Definition acquire_poll (st : SchedulerState) (w : AiWorkload) (t deadline now : Z)
  : SchedulerState * AcquireOutcome * bool :=
  if required_resources_are_quarantined st w then
    let st := set_waiters (remove_waiter (waiters st) t) st in
    (upd_wl incr_quarantine_rejected st w, Returned (Err (lease_error Quarantined w)), true)
  else if waiter_can_be_granted st t then
    match position (fun v => ticket v =? t) (waiters st) with
    | Some i =>
        match waiters st !! i with
        | Some v =>
            let st := set_waiters (remove_at i (waiters st)) st in
            let waited_ms := duration_millis (elapsed (enqueued_at v) now) in
            let '(st, lease) := grant st w (waiter_mask v) waited_ms now in
            (st, Returned (Ok lease), false)
        | None => (st, Parked t deadline, false)
        end
    | None => (st, Parked t deadline, false) (* the two [expect]s: never reached *)
    end
  else if deadline <=? now then
    let st := set_waiters (remove_waiter (waiters st) t) st in
    let st := foldl (upd_res (upd_metrics incr_r_timed_out)) st (required_resources w) in
    (upd_wl incr_w_timed_out st w, Returned (Err (lease_error WaitTimeout w)), true)
  else (st, Parked t deadline, false).

(** The code of [acquire] up to its first wait, all under one lock. *)
Definition acquire_begin (cfg : SchedulerConfig) (st : SchedulerState) (w : AiWorkload)
    (now now1 now' : Z) : SchedulerState * AcquireOutcome * bool :=
  match acquire_enter cfg st w now now1 with
  | (st, Returned r) => (st, Returned r, false)
  | (st, Parked t deadline) => acquire_poll st w t deadline now'
  end.

(** The test of the loops of [release] and [quarantine]. *)
Definition held_by (id : Z) (s : ResourceState) : bool :=
  match holder s with Some h => holder_lease_id h =? id | None => false end.

(** The body of the [for] loop of [release]; the boolean is its [released]. *)
Definition release_resource (id : Z) (acc : SchedulerState * bool) (r : AiResource)
  : SchedulerState * bool :=
  let '(st, released) := acc in
  if held_by id (res st r) then
    (upd_res (fun s => {| holder := None; quarantine_reason := quarantine_reason s;
                          metrics := incr_r_released (metrics s) |}) st r, true)
  else (st, released).

Definition release (st : SchedulerState) (mask : Z) (w : AiWorkload) (id : Z)
  : SchedulerState * bool :=
  let '(st, released) := foldl (release_resource id) (st, false) (resources_in_mask mask) in
  ((if released then upd_wl incr_w_released st w else st), released).

(** The body of the [for] loop of [quarantine]. *)
Definition quarantine_resource (id : Z) (reason : AiLeaseQuarantineReason)
    (acc : SchedulerState * bool) (r : AiResource) : SchedulerState * bool :=
  let '(st, quarantined) := acc in
  if held_by id (res st r) then
    (upd_res (fun s => {| holder := holder s; quarantine_reason := Some reason;
                          metrics := incr_r_quarantined (metrics s) |}) st r, true)
  else (st, quarantined).

Definition quarantine (st : SchedulerState) (mask : Z) (id : Z) (reason : AiLeaseQuarantineReason)
  : SchedulerState * bool :=
  foldl (quarantine_resource id reason) (st, false) (resources_in_mask mask).

(** [Drop for AiResourceLease]: a lease that was not quarantined is released. *)
Definition drop_lease (st : SchedulerState) (l : AiResourceLease) : SchedulerState * bool :=
  release st (lease_mask l) (lease_workload l) (lease_id l).

(** [AiResourceLease::quarantine], which consumes the lease without releasing it. *)
Definition quarantine_lease (st : SchedulerState) (l : AiResourceLease)
    (reason : AiLeaseQuarantineReason) : SchedulerState * bool :=
  quarantine st (lease_mask l) (lease_id l) reason.

(** * The threads *)

(** A thread blocked in [acquire]. *)
Record ParkedThread := {
  p_workload : AiWorkload;
  p_ticket : Z;
  p_deadline : Z
}.

(** The scheduler with the leases that exist and the threads that wait. *)
Record System := {
  sched : SchedulerState;
  live : list AiResourceLease;
  parked : list ParkedThread
}.

Definition system_init : System :=
  {| sched := scheduler_state_default; live := []; parked := [] |}.

(** The lists of leases and threads after an [acquire] step of a thread. *)
Definition settle (w : AiWorkload) (st : SchedulerState) (o : AcquireOutcome)
    (ls : list AiResourceLease) (ps : list ParkedThread) : System :=
  match o with
  | Returned (Ok l) => {| sched := st; live := l :: ls; parked := ps |}
  | Returned (Err _) => {| sched := st; live := ls; parked := ps |}
  | Parked t d => {| sched := st; live := ls;
                     parked := {| p_workload := w; p_ticket := t; p_deadline := d |} :: ps |}
  end.

(** One step of some thread, with whether it called [notify_all]: a call of
    [acquire], a wake-up (notified, timed out or spurious) of a waiting thread,
    the drop of a lease, or its quarantine. *)
Inductive step (cfg : SchedulerConfig) : System -> bool -> System -> Prop :=
| step_acquire s w now now1 now' st o n :
    acquire_begin cfg (sched s) w now now1 now' = (st, o, n) ->
    step cfg s n (settle w st o (live s) (parked s))
| step_wake s ps1 p ps2 now st o n :
    parked s = ps1 ++ p :: ps2 ->
    acquire_poll (sched s) (p_workload p) (p_ticket p) (p_deadline p) now = (st, o, n) ->
    step cfg s n (settle (p_workload p) st o (live s) (ps1 ++ ps2))
| step_drop s ls1 l ls2 st n :
    live s = ls1 ++ l :: ls2 ->
    drop_lease (sched s) l = (st, n) ->
    step cfg s n {| sched := st; live := ls1 ++ ls2; parked := parked s |}
| step_quarantine s ls1 l ls2 reason st n :
    live s = ls1 ++ l :: ls2 ->
    quarantine_lease (sched s) l reason = (st, n) ->
    step cfg s n {| sched := st; live := ls1 ++ ls2; parked := parked s |}.

(** Runs of a given number of steps. *)
Inductive run (cfg : SchedulerConfig) : nat -> System -> System -> Prop :=
| run_refl s : run cfg 0 s s
| run_step k s s' n s'' : run cfg k s s' -> step cfg s' n s'' -> run cfg (S k) s s''.
