(* ===== verification/SchedulerInv.v ===== *)
(** The invariant of the lease scheduler and its preservation by every step.

    The invariant speaks of the part of the state that decides scheduling (ids,
    holders, quarantine marks, waiters, and the acquired and released totals);
    [core_eq] is equality of that part, and the counter updates of the code are
    invisible to it. *)
From S2P Require Import Prelude RustString Scheduler.
Local Open Scope Z_scope.

(** * Arrays, resources and folds *)

Lemma arr4_get_update {A} (f : A -> A) i j a :
  (i < 4)%nat -> (j < 4)%nat ->
  arr4_get (arr4_update f i a) j = if decide (i = j) then f (arr4_get a j) else arr4_get a j.
Proof.
  intros Hi Hj. destruct i as [|[|[|[|?]]]], j as [|[|[|[|?]]]]; try lia; done.
Qed.

Lemma resource_index_lt r : (resource_index r < 4)%nat.
Proof. destruct r; cbn; lia. Qed.

Lemma resource_index_inj r r' : resource_index r = resource_index r' -> r = r'.
Proof. by destruct r, r'. Qed.

Lemma res_upd_res f st r r' :
  res (upd_res f st r) r' = if decide (r = r') then f (res st r') else res st r'.
Proof.
  unfold res, upd_res; cbn. rewrite arr4_get_update by apply resource_index_lt.
  do 2 case_decide; subst; try done. exfalso. by eauto using resource_index_inj.
Qed.

Lemma resources_in_mask_workload w : resources_in_mask (resource_mask w) = required_resources w.
Proof. by destruct w. Qed.

Lemma required_nodup w : NoDup (required_resources w).
Proof. destruct w; cbn; repeat constructor; set_solver. Qed.

Lemma overlap_workloads w w' :
  resources_overlap (resource_mask w) (resource_mask w') = true <->
  exists r, r ∈ required_resources w /\ r ∈ required_resources w'.
Proof.
  split.
  - destruct w, w'; try done; intros _; eexists; cbn; split; left.
  - intros (r & H1 & H2). destruct w, w', r; try done; set_solver.
Qed.

Lemma overlap_sym a b : resources_overlap a b = resources_overlap b a.
Proof. unfold resources_overlap. by rewrite Z.land_comm. Qed.

(** Overlap is transitive on the masks the workloads have. *)
Lemma overlap_trans u v x :
  resources_overlap (resource_mask u) (resource_mask v) = true ->
  resources_overlap (resource_mask v) (resource_mask x) = true ->
  resources_overlap (resource_mask u) (resource_mask x) = true.
Proof. by destruct u, v, x. Qed.

Lemma if_elem_cons {B} (x r : AiResource) l (a b : B) :
  (if decide (r ∈ x :: l) then a else b)
  = if decide (x = r) then a else if decide (r ∈ l) then a else b.
Proof.
  destruct (decide (x = r)) as [->|Hne]; [by rewrite decide_True by left|].
  destruct (decide (r ∈ l)); [by rewrite decide_True by (by right)|].
  rewrite decide_False; [done|]. intros [?|?]%elem_of_cons; congruence.
Qed.

Lemma if_elem_nil {B} (r : AiResource) (a b : B) :
  (if decide (r ∈ []) then a else b) = b.
Proof. rewrite decide_False; [done|apply not_elem_of_nil]. Qed.

Lemma res_foldl_upd f l st r :
  NoDup l ->
  res (foldl (upd_res f) st l) r = if decide (r ∈ l) then f (res st r) else res st r.
Proof.
  intros Hl. revert st. induction Hl as [|x l Hx Hl IH]; intros st; cbn.
  - by rewrite if_elem_nil.
  - rewrite IH, if_elem_cons, res_upd_res.
    destruct (decide (x = r)) as [->|]; [by rewrite decide_False|done].
Qed.

(** The loops of [release] and [quarantine] have one shape. *)
Lemma res_fold_held id f l st b r :
  NoDup l ->
  let out := foldl (fun (acc : SchedulerState * bool) r =>
      let '(st, b) := acc in
      if held_by id (res st r) then (upd_res f st r, true) else (st, b)) (st, b) l in
  res out.1 r = (if decide (r ∈ l) then if held_by id (res st r) then f (res st r) else res st r
                 else res st r)
  /\ next_ticket out.1 = next_ticket st /\ next_lease_id out.1 = next_lease_id st
  /\ waiters out.1 = waiters st.
Proof.
  intros Hl. revert st b. induction Hl as [|x l Hx Hl IH]; intros st b; cbn.
  - by rewrite if_elem_nil.
  - rewrite if_elem_cons. destruct (held_by id (res st x)) eqn:E; cbn.
    + destruct (IH (upd_res f st x) true) as (H1 & H2 & H3 & H4). split_and!; try done.
      rewrite H1, res_upd_res. destruct (decide (x = r)) as [->|]; [|done].
      by rewrite decide_False, E.
    + destruct (IH st b) as (H1 & H2 & H3 & H4). split_and!; try done.
      rewrite H1. destruct (decide (x = r)) as [->|]; [|done]. by rewrite decide_False, E.
Qed.

Lemma fold_held_flag id f l st b :
  NoDup l ->
  (foldl (fun (acc : SchedulerState * bool) r =>
      let '(st, b) := acc in
      if held_by id (res st r) then (upd_res f st r, true) else (st, b)) (st, b) l).2
  = b || list_any (fun r => held_by id (res st r)) l.
Proof.
  intros Hl. revert st b. induction Hl as [|x l Hx Hl IH]; intros st b; cbn.
  - by rewrite orb_false_r.
  - rewrite list_any_cons. destruct (held_by id (res st x)) eqn:E; rewrite IH; cbn;
      rewrite ?orb_true_r; done.
Qed.

Lemma next_id_small i : 0 <= i < u64_max -> next_id i = i + 1.
Proof. intros H. unfold next_id. rewrite wrap64_small; unfold u64_range; lia. Qed.

Lemma next_id_le i k : 0 <= i <= k -> k < u64_max -> 1 <= next_id i <= k + 1.
Proof. intros. rewrite next_id_small by lia. lia. Qed.

(** * The scheduling core *)

Record core_res := {
  c_holder : option LeaseHolder;
  c_reason : option AiLeaseQuarantineReason;
  c_acquired : Z;
  c_released : Z
}.

Definition core (s : ResourceState) : core_res :=
  {| c_holder := holder s; c_reason := quarantine_reason s;
     c_acquired := r_acquired_total (metrics s); c_released := r_released_total (metrics s) |}.

Record core_eq (st st' : SchedulerState) : Prop := {
  core_ticket : next_ticket st = next_ticket st';
  core_lease : next_lease_id st = next_lease_id st';
  core_waiters : waiters st = waiters st';
  core_res_eq r : core (res st r) = core (res st' r)
}.

Global Instance core_eq_equiv : Equivalence core_eq.
Proof.
  split.
  - by split.
  - intros ?? []. by split.
  - intros ??? [] []. split; intros; etrans; eauto.
Qed.

Lemma core_holder st st' r : core_eq st st' -> holder (res st r) = holder (res st' r).
Proof. intros [_ _ _ H]. specialize (H r). unfold core in H. by simplify_eq. Qed.

Lemma core_reason st st' r :
  core_eq st st' -> quarantine_reason (res st r) = quarantine_reason (res st' r).
Proof. intros [_ _ _ H]. specialize (H r). unfold core in H. by simplify_eq. Qed.

Lemma upd_wl_core f st w : core_eq (upd_wl f st w) st.
Proof. by split. Qed.

Lemma upd_metrics_core f st l :
  (forall m, r_acquired_total (f m) = r_acquired_total m) ->
  (forall m, r_released_total (f m) = r_released_total m) ->
  core_eq (foldl (upd_res (upd_metrics f)) st l) st.
Proof.
  intros Ha Hr. revert st. induction l as [|x l IH]; intros st; cbn; [done|].
  rewrite IH. split; try done. intros r. rewrite res_upd_res. case_decide; [|done].
  unfold core; cbn. by rewrite Ha, Hr.
Qed.

Global Instance free_proper : Proper (core_eq ==> (=) ==> (=)) resources_are_free.
Proof.
  intros st st' H m m' <-. apply list_all_ext. intros r _.
  by rewrite (core_holder _ _ r H), (core_reason _ _ r H).
Qed.

Global Instance quarantined_proper :
  Proper (core_eq ==> (=) ==> (=)) required_resources_are_quarantined.
Proof.
  intros st st' H m m' <-. apply list_any_ext. intros r _.
  by rewrite (core_reason _ _ r H).
Qed.

Global Instance can_grant_proper : Proper (core_eq ==> (=) ==> (=)) can_grant_new_request.
Proof.
  intros st st' H w w' <-. unfold can_grant_new_request.
  rewrite (core_waiters _ _ H), H. f_equal. f_equal. apply list_any_ext.
  intros v _. by rewrite H.
Qed.

Global Instance waiter_granted_proper : Proper (core_eq ==> (=) ==> (=)) waiter_can_be_granted.
Proof.
  intros st st' H t t' <-. unfold waiter_can_be_granted.
  rewrite (core_waiters _ _ H). case_match; [|done]. rewrite H. f_equal. f_equal.
  apply list_any_ext. intros v _. by rewrite H.
Qed.

Lemma free_spec st w :
  resources_are_free st (resource_mask w) = true <->
  forall r, r ∈ required_resources w -> holder (res st r) = None /\ quarantine_reason (res st r) = None.
Proof.
  unfold resources_are_free. rewrite resources_in_mask_workload, list_all_true.
  split; intros H r Hr; specialize (H r Hr).
  - by destruct (holder _), (quarantine_reason _).
  - by destruct H as [-> ->].
Qed.

Lemma quarantined_spec st w :
  required_resources_are_quarantined st w = true <->
  exists r, r ∈ required_resources w /\ quarantine_reason (res st r) <> None.
Proof.
  unfold required_resources_are_quarantined. rewrite list_any_true.
  split; intros (r & Hr & H); exists r; split; try done; by destruct (quarantine_reason _).
Qed.

(** * The invariant *)

Definition lease_holds (st : SchedulerState) (l : AiResourceLease) : Prop :=
  forall r, r ∈ required_resources (lease_workload l) ->
    quarantine_reason (res st r) = None /\
    exists h, holder (res st r) = Some h /\ holder_lease_id h = lease_id l
              /\ holder_workload h = lease_workload l.

Definition holder_ok (s : System) (r : AiResource) (h : LeaseHolder) : Prop :=
  1 <= holder_lease_id h <= next_lease_id (sched s)
  /\ r ∈ required_resources (holder_workload h)
  /\ match quarantine_reason (res (sched s) r) with
     | None => exists l, l ∈ live s /\ lease_id l = holder_lease_id h
                         /\ lease_workload l = holder_workload h
     | Some _ => forall l, l ∈ live s -> lease_id l <> holder_lease_id h
     end.

Definition waiter_ok (st : SchedulerState) (v : LeaseWaiter) : Prop :=
  waiter_mask v = resource_mask (waiter_workload v)
  /\ waiter_priority v = workload_priority (waiter_workload v)
  /\ 1 <= ticket v <= next_ticket st.

Definition held (s : ResourceState) : Z := match holder s with Some _ => 1 | None => 0 end.

Definition waiter_key (v : LeaseWaiter) : Z * AiWorkload := (ticket v, waiter_workload v).
Definition parked_key (p : ParkedThread) : Z * AiWorkload := (p_ticket p, p_workload p).

Record Inv (cfg : SchedulerConfig) (s : System) : Prop := {
  inv_ids : 0 <= next_lease_id (sched s) /\ 0 <= next_ticket (sched s);
  inv_live l : l ∈ live s ->
    lease_mask l = resource_mask (lease_workload l)
    /\ 1 <= lease_id l <= next_lease_id (sched s) /\ lease_holds (sched s) l;
  inv_live_nodup : NoDup (lease_id <$> live s);
  inv_holder r h : holder (res (sched s) r) = Some h -> holder_ok s r h;
  inv_reason r : quarantine_reason (res (sched s) r) <> None -> holder (res (sched s) r) <> None;
  inv_waiters v : v ∈ waiters (sched s) -> waiter_ok (sched s) v;
  inv_tickets : NoDup (ticket <$> waiters (sched s));
  inv_parked : parked_key <$> parked s ≡ₚ waiter_key <$> waiters (sched s);
  inv_queue r : Z.of_nat (queued_count_for_resource (waiters (sched s)) r) <= queue_capacity cfg;
  inv_totals r : u64_range (r_acquired_total (metrics (res (sched s) r)))
    /\ u64_range (r_released_total (metrics (res (sched s) r)))
    /\ r_acquired_total (metrics (res (sched s) r))
       = wrap64 (r_released_total (metrics (res (sched s) r)) + held (res (sched s) r))
}.

Lemma inv_core cfg st st' ls ps :
  core_eq st st' -> Inv cfg {| sched := st; live := ls; parked := ps |} ->
  Inv cfg {| sched := st'; live := ls; parked := ps |}.
Proof.
  intros H [Hids Hlive Hnd Hhold Hreas Hw Ht Hp Hq Htot]. cbn in *.
  split; cbn.
  - by rewrite <-(core_lease _ _ H), <-(core_ticket _ _ H).
  - intros l Hl. destruct (Hlive l Hl) as (H1 & [H2 H2'] & H3).
    rewrite <-(core_lease _ _ H). split_and!; [done..|].
    intros r Hr. rewrite <-(core_holder _ _ r H), <-(core_reason _ _ r H). by apply H3.
  - done.
  - intros r h. rewrite <-(core_holder _ _ r H). intros E. destruct (Hhold r h E) as (H1 & H2 & H3).
    unfold holder_ok; cbn in *. by rewrite <-(core_lease _ _ H), <-(core_reason _ _ r H).
  - intros r. rewrite <-(core_holder _ _ r H), <-(core_reason _ _ r H). apply Hreas.
  - intros v. rewrite <-(core_waiters _ _ H). unfold waiter_ok.
    rewrite <-(core_ticket _ _ H). apply Hw.
  - by rewrite <-(core_waiters _ _ H).
  - by rewrite <-(core_waiters _ _ H).
  - intros r. rewrite <-(core_waiters _ _ H). apply Hq.
  - intros r. destruct (Htot r) as (H1 & H2 & H3). pose proof (core_res_eq _ _ H r) as Hc.
    unfold core in Hc. unfold held in *. injection Hc as E1 E2 E3 E4.
    by rewrite <-E1, <-E3, <-E4.
Qed.

Lemma inv_perm cfg st ls ps ps' :
  ps ≡ₚ ps' -> Inv cfg {| sched := st; live := ls; parked := ps |} ->
  Inv cfg {| sched := st; live := ls; parked := ps' |}.
Proof. intros H []. split; try done. cbn in *. by rewrite <-H. Qed.

(** * What the operations do to the core *)

Lemma foldl_upd_frame f l st :
  next_ticket (foldl (upd_res f) st l) = next_ticket st
  /\ next_lease_id (foldl (upd_res f) st l) = next_lease_id st
  /\ waiters (foldl (upd_res f) st l) = waiters st.
Proof.
  revert st. induction l as [|r l IH]; intros st; cbn; [done|].
  destruct (IH (upd_res f st r)) as (-> & -> & ->). done.
Qed.

Lemma grant_spec st w ms now st' l :
  grant st w (resource_mask w) ms now = (st', l) ->
  l = {| lease_mask := resource_mask w; lease_workload := w;
         lease_id := next_id (next_lease_id st) |}
  /\ next_lease_id st' = next_id (next_lease_id st)
  /\ next_ticket st' = next_ticket st /\ waiters st' = waiters st
  /\ forall r, res st' r = if decide (r ∈ required_resources w)
                           then grant_resource (next_id (next_lease_id st)) w now ms (res st r)
                           else res st r.
Proof.
  unfold grant. rewrite resources_in_mask_workload. intros [= <- <-].
  destruct (foldl_upd_frame (grant_resource (next_id (next_lease_id st)) w now ms)
    (required_resources w) (set_next_lease_id (next_id (next_lease_id st)) st)) as (H1 & H2 & H3).
  split_and!; try done. intros r.
  change (res (upd_wl ?f ?s w) r) with (res s r). by rewrite res_foldl_upd by apply required_nodup.
Qed.

Lemma remove_waiter_perm ws v :
  NoDup (ticket <$> ws) -> v ∈ ws -> ws ≡ₚ v :: remove_waiter ws (ticket v).
Proof.
  intros Hn Hv. unfold remove_waiter.
  destruct (position _ ws) as [i|] eqn:E.
  - apply position_some in E as (x & Hx & Et). bool_facts.
    assert (x = v) as ->.
    { eapply NoDup_fmap_inj; [done|by eapply list_elem_of_lookup_2|done..]. }
    by apply remove_at_perm.
  - rewrite position_none in E. specialize (E v Hv). cbn in E. by rewrite Z.eqb_refl in E.
Qed.

Lemma inv_find cfg s p :
  Inv cfg s -> p ∈ parked s -> exists v, v ∈ waiters (sched s) /\ waiter_key v = parked_key p.
Proof.
  intros HI Hp. assert (parked_key p ∈ waiter_key <$> waiters (sched s)) as H.
  { rewrite <-(inv_parked _ _ HI). by apply list_elem_of_fmap_2. }
  apply list_elem_of_fmap in H as (v & -> & Hv). by exists v.
Qed.

Lemma queued_count_perm ws ws' r :
  ws ≡ₚ ws' -> queued_count_for_resource ws r = queued_count_for_resource ws' r.
Proof. unfold queued_count_for_resource. by intros ->. Qed.

Lemma queued_count_cons v ws r :
  queued_count_for_resource (v :: ws) r
  = ((if (Z.land (waiter_mask v) (resource_mask_bit r) =? 0)%Z then 0 else 1)
     + queued_count_for_resource ws r)%nat.
Proof. unfold queued_count_for_resource. rewrite count_if_cons. by destruct (Z.land _ _ =? 0). Qed.

Lemma queued_count_snoc v ws r :
  queued_count_for_resource (ws ++ [v]) r
  = ((if (Z.land (waiter_mask v) (resource_mask_bit r) =? 0)%Z then 0 else 1)
     + queued_count_for_resource ws r)%nat.
Proof. by rewrite <-queued_count_cons, (queued_count_perm _ (v :: ws)) by (by rewrite Permutation_app_comm). Qed.

Lemma mask_bit_required w r :
  (Z.land (resource_mask w) (resource_mask_bit r) =? 0) = negb (bool_decide (r ∈ required_resources w)).
Proof. by destruct w, r. Qed.

Lemma live_workload_inj cfg s l l' :
  Inv cfg s -> l ∈ live s -> l' ∈ live s -> lease_id l = lease_id l' -> l = l'.
Proof. intros HI. apply NoDup_fmap_inj, (inv_live_nodup _ _ HI). Qed.

(** * Preservation *)

Lemma inv_init cfg : 0 <= queue_capacity cfg -> Inv cfg system_init.
Proof.
  intros H. split; cbn.
  - lia.
  - by intros l ?%not_elem_of_nil.
  - constructor.
  - by intros [].
  - by intros [].
  - by intros v ?%not_elem_of_nil.
  - constructor.
  - done.
  - done.
  - intros []; unfold u64_range; cbn; unfold u64_max; (split_and!; [lia|lia|lia|lia|reflexivity]).
Qed.

Lemma inv_perm_live cfg st ls ls' ps :
  ls ≡ₚ ls' -> Inv cfg {| sched := st; live := ls; parked := ps |} ->
  Inv cfg {| sched := st; live := ls'; parked := ps |}.
Proof.
  intros H [H1 H2 H3 H4 H5 H6 H7 H8 H9 H10]. cbn in *. split; cbn; try done.
  - intros l. rewrite <-H. apply H2.
  - by rewrite <-H.
  - intros r h E. destruct (H4 r h E) as (?&?&Hm). unfold holder_ok. cbn in *.
    split_and!; try lia; [done|]. case_match; setoid_rewrite <-H; done.
Qed.

Lemma inv_remove cfg st ls p ps :
  Inv cfg {| sched := st; live := ls; parked := p :: ps |} ->
  Inv cfg {| sched := set_waiters (remove_waiter (waiters st) (p_ticket p)) st;
             live := ls; parked := ps |}.
Proof.
  intros HI. destruct (inv_find _ _ p HI) as (v & Hv & Hk); [by left|].
  unfold waiter_key, parked_key in Hk. injection Hk as Ht Hw.
  destruct HI as [H1 H2 H3 H4 H5 H6 H7 H8 H9 H10]. cbn in *.
  pose proof (remove_waiter_perm _ _ H7 Hv) as Hperm. rewrite Ht in Hperm.
  split; cbn; try done.
  - intros v' Hv'. apply H6. rewrite Hperm. by right.
  - rewrite Hperm in H7. cbn in H7. by apply NoDup_cons in H7 as [_ H7].
  - rewrite Hperm in H8. cbn in H8. unfold parked_key at 1, waiter_key at 1 in H8.
    rewrite Ht, Hw in H8. by apply Permutation_cons_inv in H8.
  - intros r. specialize (H9 r). rewrite (queued_count_perm _ _ r Hperm) in H9.
    rewrite queued_count_cons in H9. case_match; lia.
Qed.

Lemma inv_enqueue cfg st ls ps w now d :
  Inv cfg {| sched := st; live := ls; parked := ps |} ->
  next_ticket st < u64_max ->
  (forall r, r ∈ required_resources w ->
     Z.of_nat (queued_count_for_resource (waiters st) r) < queue_capacity cfg) ->
  let t := next_id (next_ticket st) in
  let v := {| ticket := t; waiter_workload := w; waiter_priority := workload_priority w;
              waiter_mask := resource_mask w; enqueued_at := now |} in
  Inv cfg {| sched := set_waiters (waiters st ++ [v]) (set_next_ticket t st);
             live := ls;
             parked := {| p_workload := w; p_ticket := t; p_deadline := d |} :: ps |}.
Proof.
  intros HI Hmax Hcap t v. destruct HI as [H1 H2 H3 H4 H5 H6 H7 H8 H9 H10]. cbn in *.
  assert (t = next_ticket st + 1) as Ht by (apply next_id_small; lia).
  split; cbn -[queued_count_for_resource]; try done.
  - lia.
  - intros v' [Hv'| ->%list_elem_of_singleton]%elem_of_app.
    + destruct (H6 v' Hv') as (? & ? & ?). unfold waiter_ok; cbn in *. lia.
    + unfold waiter_ok; cbn. lia.
  - rewrite fmap_app. apply NoDup_app. split_and!; [done| |by apply NoDup_singleton].
    intros t' (v' & E & Hv')%list_elem_of_fmap E'%list_elem_of_singleton. cbn in E'.
    destruct (H6 v' Hv') as (_ & _ & ?). cbn in *. lia.
  - rewrite fmap_app, <-H8. cbn. by rewrite Permutation_app_comm.
  - intros r. rewrite queued_count_snoc. subst v. cbn [waiter_mask]. rewrite mask_bit_required.
    specialize (H9 r). specialize (Hcap r).
    case_bool_decide as Hr; cbn [negb]; [specialize (Hcap Hr)|]; lia.
Qed.

Lemma inv_grant cfg st ls ps w ms now st' l :
  Inv cfg {| sched := st; live := ls; parked := ps |} ->
  next_lease_id st < u64_max ->
  resources_are_free st (resource_mask w) = true ->
  grant st w (resource_mask w) ms now = (st', l) ->
  Inv cfg {| sched := st'; live := l :: ls; parked := ps |}.
Proof.
  intros HI Hmax Hfree Hg. apply grant_spec in Hg as (-> & Hid & Htk & Hws & Hres).
  rewrite free_spec in Hfree. destruct HI as [H1 H2 H3 H4 H5 H6 H7 H8 H9 H10]. cbn in *.
  rewrite next_id_small in * by lia.
  assert (Hother : forall l r, l ∈ ls -> r ∈ required_resources (lease_workload l) ->
            r ∉ required_resources w).
  { intros l r Hl Hr Hw. destruct (H2 l Hl) as (_ & _ & Hh).
    destruct (Hh r Hr) as (_ & h & E & _). destruct (Hfree r Hw). congruence. }
  split; cbn; rewrite ?Hid, ?Htk, ?Hws; try done; try lia.
  - intros l [->|Hl]%elem_of_cons; cbn.
    + split_and!; try lia. intros r Hr. cbn in *. rewrite Hres, decide_True by done.
      cbn. destruct (Hfree r Hr) as [_ ->]. eauto.
    + destruct (H2 l Hl) as (? & ? & Hh). split_and!; try lia.
      intros r Hr. rewrite Hres, decide_False by (by eapply Hother). by apply Hh.
  - apply NoDup_cons; split; [|done]. intros (l & E & Hl)%list_elem_of_fmap. cbn in E.
    destruct (H2 l Hl) as (_ & ? & _). lia.
  - intros r h. rewrite Hres. unfold holder_ok; cbn. rewrite Hres, Hid. case_decide as Hr; cbn.
    + intros [= <-]; cbn. destruct (Hfree r Hr) as [_ ->]. split_and!; try lia; [done|].
      eexists; split; [by left|done].
    + intros E. destruct (H4 r h E) as (? & ? & Hm). cbn in *. split_and!; try lia; [done|].
      case_match.
      * intros l [->|Hl]%elem_of_cons; cbn; [lia|by apply Hm].
      * destruct Hm as (l & Hl & ?). exists l. split; [by right|done].
  - intros r. rewrite Hres. case_decide; [done|apply H5].
  - intros v Hv. destruct (H6 v Hv) as (? & ? & ?). unfold waiter_ok. cbn in *. rewrite Htk. lia.
  - intros r. rewrite Hres. specialize (H10 r). case_decide as Hr; [|done]. cbn.
    destruct H10 as (Ha & Hl & E). split_and!; [apply wrap64_range|done|].
    unfold u64_incr. rewrite E. unfold held. cbn.
    destruct (Hfree r Hr) as [-> _]. by rewrite Z.add_0_r, wrap64_add_l.
Qed.

Lemma release_spec st w id st' n :
  release st (resource_mask w) w id = (st', n) ->
  n = list_any (fun r => held_by id (res st r)) (required_resources w)
  /\ next_ticket st' = next_ticket st /\ next_lease_id st' = next_lease_id st
  /\ waiters st' = waiters st
  /\ forall r, res st' r =
       if decide (r ∈ required_resources w)
       then if held_by id (res st r)
            then {| holder := None; quarantine_reason := quarantine_reason (res st r);
                    metrics := incr_r_released (metrics (res st r)) |}
            else res st r
       else res st r.
Proof.
  unfold release. rewrite resources_in_mask_workload.
  set (f := fun s => {| holder := None; quarantine_reason := quarantine_reason s;
                        metrics := incr_r_released (metrics s) |}).
  assert (Hfold := res_fold_held id f (required_resources w) st false).
  pose proof (fold_held_flag id f (required_resources w) st false (required_nodup w)) as Hflag.
  cbv zeta in Hfold. unfold release_resource. fold f.
  destruct (foldl _ (st, false) (required_resources w)) as [st1 n1]; cbn in *.
  intros [= <- <-]. split_and!; [done|..].
  1-3: destruct (Hfold ResA100Cluster0 (required_nodup w)) as (_ & H1 & H2 & H3); by destruct n1.
  intros r. destruct (Hfold r (required_nodup w)) as [E _]. destruct n1; exact E.
Qed.

Lemma quarantine_spec st w id reason st' n :
  quarantine st (resource_mask w) id reason = (st', n) ->
  n = list_any (fun r => held_by id (res st r)) (required_resources w)
  /\ next_ticket st' = next_ticket st /\ next_lease_id st' = next_lease_id st
  /\ waiters st' = waiters st
  /\ forall r, res st' r =
       if decide (r ∈ required_resources w)
       then if held_by id (res st r)
            then {| holder := holder (res st r); quarantine_reason := Some reason;
                    metrics := incr_r_quarantined (metrics (res st r)) |}
            else res st r
       else res st r.
Proof.
  unfold quarantine. rewrite resources_in_mask_workload.
  set (f := fun s => {| holder := holder s; quarantine_reason := Some reason;
                        metrics := incr_r_quarantined (metrics s) |}).
  assert (Hfold := res_fold_held id f (required_resources w) st false).
  pose proof (fold_held_flag id f (required_resources w) st false (required_nodup w)) as Hflag.
  cbv zeta in Hfold. unfold quarantine_resource. fold f.
  destruct (foldl _ (st, false) (required_resources w)) as [st1 n1]; cbn in *.
  intros [= <- <-]. split_and!; [done|..].
  1-3: by destruct (Hfold ResA100Cluster0 (required_nodup w)) as (_ & H1 & H2 & H3).
  intros r. by destruct (Hfold r (required_nodup w)) as [E _].
Qed.

(** The holder of a resource a live lease covers is that lease. *)
Lemma live_held_by cfg s l r :
  Inv cfg s -> l ∈ live s -> r ∈ required_resources (lease_workload l) ->
  held_by (lease_id l) (res (sched s) r) = true /\ quarantine_reason (res (sched s) r) = None.
Proof.
  intros HI Hl Hr. destruct (inv_live _ _ HI l Hl) as (_ & _ & Hh).
  destruct (Hh r Hr) as (Hq & h & E & Hid & _). split; [|done].
  unfold held_by. by rewrite E, Hid, Z.eqb_refl.
Qed.

(** And no other live lease covers it. *)
Lemma live_disjoint cfg s l l' r :
  Inv cfg s -> l ∈ live s -> l' ∈ live s ->
  r ∈ required_resources (lease_workload l) -> r ∈ required_resources (lease_workload l') -> l = l'.
Proof.
  intros HI Hl Hl' Hr Hr'. eapply live_workload_inj; [done..|].
  destruct (inv_live _ _ HI l Hl) as (_ & _ & H1), (inv_live _ _ HI l' Hl') as (_ & _ & H2).
  destruct (H1 r Hr) as (_ & h & E & ? & _), (H2 r Hr') as (_ & h' & E' & ? & _). congruence.
Qed.

Lemma inv_drop cfg st l ls ps st' n :
  Inv cfg {| sched := st; live := l :: ls; parked := ps |} ->
  drop_lease st l = (st', n) ->
  Inv cfg {| sched := st'; live := ls; parked := ps |}.
Proof.
  intros HI Hd. assert (Hin : l ∈ l :: ls) by left.
  destruct (inv_live _ _ HI l Hin) as (Hm & _ & _).
  unfold drop_lease in Hd. rewrite Hm in Hd. apply release_spec in Hd as (_ & Htk & Hid & Hws & Hres).
  assert (Hb := fun r => live_held_by cfg _ l r HI Hin).
  assert (Hdis := fun l' r => live_disjoint cfg _ l l' r HI Hin).
  destruct HI as [H1 H2 H3 H4 H5 H6 H7 H8 H9 H10]. cbn in *.
  apply NoDup_cons in H3 as [Hnew H3].
  assert (Hnot : forall l', l' ∈ ls -> l' <> l).
  { intros l' Hl' ->. apply Hnew. by apply list_elem_of_fmap_2. }
  split; cbn; rewrite ?Hid, ?Htk, ?Hws; try done.
  - intros l' Hl'. destruct (H2 l') as (? & ? & Hh); [by right|]. split_and!; try lia.
    intros r Hr. rewrite Hres. destruct (decide (r ∈ required_resources (lease_workload l))) as [Hr'|];
      [|by apply Hh]. destruct (Hnot l' Hl'). symmetry. by eapply Hdis; [right|..].
  - intros r h. rewrite Hres. unfold holder_ok; cbn. rewrite Hres, Hid.
    case_decide as Hr; [destruct (Hb r Hr) as [-> _]; done|].
    intros E. destruct (H4 r h E) as (? & ? & Hq). cbn in *. split_and!; try lia; [done|].
    case_match; [intros l' Hl'; apply Hq; by right|].
    destruct Hq as (l' & [->|Hl']%elem_of_cons & ? & Hw); [|by exists l'].
    destruct Hr. by rewrite Hw.
  - intros r. rewrite Hres. case_decide as Hr; [|apply H5]. destruct (Hb r Hr) as [-> Hq]; cbn. by rewrite Hq.
  - intros v Hv. destruct (H6 v Hv) as (? & ? & ?). unfold waiter_ok. rewrite Htk. lia.
  - intros r. rewrite Hres. specialize (H10 r). case_decide as Hr; [|done].
    destruct (Hb r Hr) as [Hhb Hq]. rewrite Hhb. unfold held_by in Hhb.
    destruct H10 as (Ha & Hl & E). cbn. split_and!; [done|apply wrap64_range|].
    unfold held in *. cbn. destruct (holder (res st r)); [|done].
    by rewrite Z.add_0_r, E, (wrap64_small (u64_incr _)) by apply wrap64_range.
Qed.

Lemma inv_quarantine cfg st l ls ps reason st' n :
  Inv cfg {| sched := st; live := l :: ls; parked := ps |} ->
  quarantine_lease st l reason = (st', n) ->
  Inv cfg {| sched := st'; live := ls; parked := ps |}.
Proof.
  intros HI Hd. assert (Hin : l ∈ l :: ls) by left.
  destruct (inv_live _ _ HI l Hin) as (Hm & _ & _).
  unfold quarantine_lease in Hd. rewrite Hm in Hd.
  apply quarantine_spec in Hd as (_ & Htk & Hid & Hws & Hres).
  assert (Hb := fun r => live_held_by cfg _ l r HI Hin).
  assert (Hdis := fun l' r => live_disjoint cfg _ l l' r HI Hin).
  destruct HI as [H1 H2 H3 H4 H5 H6 H7 H8 H9 H10]. cbn in *.
  apply NoDup_cons in H3 as [Hnew H3].
  assert (Hnot : forall l', l' ∈ ls -> lease_id l' <> lease_id l).
  { intros l' Hl' E. apply Hnew. rewrite <-E. by apply list_elem_of_fmap_2. }
  split; cbn; rewrite ?Hid, ?Htk, ?Hws; try done.
  - intros l' Hl'. destruct (H2 l') as (? & ? & Hh); [by right|]. split_and!; try lia.
    intros r Hr. rewrite Hres. destruct (decide (r ∈ required_resources (lease_workload l))) as [Hr'|];
      [|by apply Hh]. destruct (Hnot l' Hl'). by rewrite (Hdis l' r) by (by first [right|done]).
  - intros r h. rewrite Hres. unfold holder_ok; cbn. rewrite Hres, Hid.
    case_decide as Hr.
    + destruct (Hb r Hr) as [Hhb Hq]. rewrite Hhb. cbn. intros E. destruct (H4 r h E) as (? & ? & _).
      cbn in *. split_and!; try lia; [done|]. intros l' Hl'. unfold held_by in Hhb. rewrite E in Hhb.
      bool_facts. rewrite Hhb. by apply Hnot.
    + intros E. destruct (H4 r h E) as (? & ? & Hq). cbn in *. split_and!; try lia; [done|].
      case_match; [intros l' Hl'; apply Hq; by right|].
      destruct Hq as (l' & [->|Hl']%elem_of_cons & ? & Hw); [|by exists l'].
      destruct Hr. by rewrite Hw.
  - intros r. rewrite Hres. case_decide as Hr; [|apply H5]. destruct (Hb r Hr) as [Hhb Hq].
    rewrite Hhb; cbn. intros _. unfold held_by in Hhb. by destruct (holder (res st r)).
  - intros v Hv. destruct (H6 v Hv) as (? & ? & ?). unfold waiter_ok. rewrite Htk. lia.
  - intros r. rewrite Hres. specialize (H10 r). case_decide as Hr; [|done].
    destruct (Hb r Hr) as [-> _]. exact H10.
Qed.

(** Every way an [acquire] iteration can end preserves the invariant. *)
Lemma inv_poll cfg st ls p ps now st' o n :
  Inv cfg {| sched := st; live := ls; parked := p :: ps |} ->
  next_lease_id st < u64_max ->
  acquire_poll st (p_workload p) (p_ticket p) (p_deadline p) now = (st', o, n) ->
  Inv cfg (settle (p_workload p) st' o ls ps).
Proof.
  intros HI Hmax. destruct (inv_find _ _ p HI) as (v & Hv & Hk); [by left|]. cbn in Hv.
  injection Hk as Ht Hw. pose proof (inv_remove _ _ _ _ _ HI) as HR.
  unfold acquire_poll. destruct (required_resources_are_quarantined st (p_workload p)).
  { intros [= <- <- _]. cbn. eapply inv_core; [symmetry; apply upd_wl_core|exact HR]. }
  destruct (waiter_can_be_granted st (p_ticket p)) eqn:Eg.
  - unfold waiter_can_be_granted in Eg. destruct (list_find _ _) as [v0|] eqn:Ef; [|done].
    apply list_find_some in Ef as [Hv0 Ht0]. bool_facts.
    destruct (position _ _) as [i|] eqn:Ep; [|intros [= <- <- _]; by destruct p].
    pose proof Ep as Ep'. apply position_some in Ep as (v1 & Hv1 & Ht1). rewrite Hv1. bool_facts.
    assert (v0 = v1) as ->.
    { eapply NoDup_fmap_inj; [apply (inv_tickets _ _ HI)|done|by eapply list_elem_of_lookup_2|lia]. }
    assert (v1 = v) as ->.
    { eapply NoDup_fmap_inj; [apply (inv_tickets _ _ HI)|done..|lia]. }
    destruct (inv_waiters _ _ HI v Hv) as (Hmask & _ & _). rewrite Hmask, Hw in *.
    replace (remove_at i (waiters st)) with (remove_waiter (waiters st) (p_ticket p))
      by (unfold remove_waiter; by rewrite Ep').
    destruct (grant _ _ _ _ _) as [st1 l] eqn:EG. intros [= <- <- _]. cbn.
    eapply inv_grant; [exact HR|done| |exact EG]. done.
  - destruct (p_deadline p <=? now); intros [= <- <- _]; cbn; [|by destruct p].
    eapply inv_core; [|exact HR]. symmetry. rewrite upd_wl_core. by apply upd_metrics_core.
Qed.

Lemma inv_begin cfg st ls ps w now now1 now' st' o n :
  Inv cfg {| sched := st; live := ls; parked := ps |} ->
  next_lease_id st < u64_max -> next_ticket st < u64_max ->
  acquire_begin cfg st w now now1 now' = (st', o, n) ->
  Inv cfg (settle w st' o ls ps).
Proof.
  intros HI Hl Ht. unfold acquire_begin, acquire_enter.
  assert (HI1 : Inv cfg {| sched := upd_wl incr_requested st w; live := ls; parked := ps |})
    by (eapply inv_core; [symmetry; apply upd_wl_core|done]).
  destruct (required_resources_are_quarantined _ w).
  { intros [= <- <- _]. cbn. eapply inv_core; [symmetry; apply upd_wl_core|done]. }
  destruct (can_grant_new_request _ w) eqn:Eg.
  { destruct (grant _ _ _ _ _) as [st1 l] eqn:EG. intros [= <- <- _]. cbn.
    unfold can_grant_new_request in Eg. bool_facts. by eapply inv_grant. }
  destruct (list_any _ (required_resources w)) eqn:Eq.
  { intros [= <- <- _]. cbn. eapply inv_core; [|exact HI1]. symmetry.
    rewrite upd_wl_core. by apply upd_metrics_core. }
  rewrite list_any_false in Eq. set (t := next_id _). set (d := now1 + wait_timeout cfg).
  intros Hp. pose (p := {| p_workload := w; p_ticket := t; p_deadline := d |}).
  eapply (inv_poll cfg _ ls p ps); [| |exact Hp].
  - eapply inv_core; cycle 1.
    { apply (inv_enqueue cfg _ ls ps w now d HI1); [done|].
      intros r Hr. specialize (Eq r Hr). bool_facts. exact Eq. }
    symmetry. rewrite upd_wl_core. by apply upd_metrics_core.
  - cbn. rewrite (proj1 (proj2 (foldl_upd_frame _ _ _))). done.
Qed.

Lemma inv_step cfg s n s' :
  Inv cfg s -> next_lease_id (sched s) < u64_max -> next_ticket (sched s) < u64_max ->
  step cfg s n s' -> Inv cfg s'.
Proof.
  intros HI Hl Ht Hs. destruct Hs as [s w now now1 now' st o n H|s ps1 p ps2 now st o n Hp H
    |s ls1 l ls2 st n Hls H|s ls1 l ls2 reason st n Hls H]; destruct s as [st0 ls ps]; cbn in *; subst.
  - by eapply inv_begin.
  - eapply inv_poll; [|done..]. eapply inv_perm; [|done]. by rewrite Permutation_middle.
  - eapply inv_drop; [|exact H]. eapply inv_perm_live; [|exact HI]. by rewrite Permutation_middle.
  - eapply inv_quarantine; [|exact H]. eapply inv_perm_live; [|exact HI].
    by rewrite Permutation_middle.
Qed.

(** ** The ids grow by at most one per step *)

Lemma grant_ids st w mask ms now :
  next_ticket (grant st w mask ms now).1 = next_ticket st
  /\ next_lease_id (grant st w mask ms now).1 = next_id (next_lease_id st).
Proof.
  unfold grant; cbn. edestruct foldl_upd_frame as (-> & -> & _). done.
Qed.

Lemma poll_ids st w t d now st' o n :
  acquire_poll st w t d now = (st', o, n) ->
  next_ticket st' = next_ticket st
  /\ (next_lease_id st' = next_lease_id st \/ next_lease_id st' = next_id (next_lease_id st)).
Proof.
  unfold acquire_poll. destruct (required_resources_are_quarantined _ _); [by intros [= <- _ _]; auto|].
  destruct (waiter_can_be_granted _ _).
  - destruct (position _ _) as [i|]; [|by intros [= <- _ _]; auto].
    destruct (waiters st !! i) as [v|]; [|by intros [= <- _ _]; auto].
    pose proof (grant_ids (set_waiters (remove_at i (waiters st)) st) w (waiter_mask v)
      (duration_millis (elapsed (enqueued_at v) now)) now) as [H1 H2].
    destruct (grant _ _ _ _ _). intros [= <- _ _]. cbn in *. auto.
  - destruct (d <=? now); intros [= <- _ _]; [|by auto]. cbn.
    edestruct foldl_upd_frame as (-> & -> & _). auto.
Qed.

Lemma begin_ids cfg st w now now1 now' st' o n :
  acquire_begin cfg st w now now1 now' = (st', o, n) ->
  (next_ticket st' = next_ticket st \/ next_ticket st' = next_id (next_ticket st))
  /\ (next_lease_id st' = next_lease_id st \/ next_lease_id st' = next_id (next_lease_id st)).
Proof.
  unfold acquire_begin, acquire_enter.
  destruct (required_resources_are_quarantined _ w); [intros [= <- _ _]; auto|].
  destruct (can_grant_new_request _ w).
  { pose proof (grant_ids (upd_wl incr_requested st w) w (resource_mask w) 0 now) as [H1 H2].
    destruct (grant _ _ _ _ _). intros [= <- _ _]. cbn in *. auto. }
  destruct (list_any _ (required_resources w)).
  { intros [= <- _ _]. cbn. edestruct foldl_upd_frame as (-> & -> & _). auto. }
  intros H%poll_ids. cbn in H. edestruct foldl_upd_frame as (E1 & E2 & _).
  rewrite E1, E2 in H. cbn in H. naive_solver.
Qed.

Lemma drop_ids cfg s l st n :
  Inv cfg s -> l ∈ live s -> drop_lease (sched s) l = (st, n) ->
  next_ticket st = next_ticket (sched s) /\ next_lease_id st = next_lease_id (sched s).
Proof.
  intros HI Hl. destruct (inv_live _ _ HI l Hl) as (Hm & _). unfold drop_lease. rewrite Hm.
  by intros (_ & ? & ? & _)%release_spec.
Qed.

Lemma quarantine_ids cfg s l reason st n :
  Inv cfg s -> l ∈ live s -> quarantine_lease (sched s) l reason = (st, n) ->
  next_ticket st = next_ticket (sched s) /\ next_lease_id st = next_lease_id (sched s).
Proof.
  intros HI Hl. destruct (inv_live _ _ HI l Hl) as (Hm & _). unfold quarantine_lease. rewrite Hm.
  by intros (_ & ? & ? & _)%quarantine_spec.
Qed.

Lemma step_ids cfg s n s' k :
  Inv cfg s -> 0 <= k < u64_max ->
  next_ticket (sched s) <= k -> next_lease_id (sched s) <= k -> step cfg s n s' ->
  next_ticket (sched s') <= k + 1 /\ next_lease_id (sched s') <= k + 1.
Proof.
  intros HI Hk Ht Hl Hs. destruct (inv_ids _ _ HI) as [H0 H0'].
  pose proof (next_id_le (next_ticket (sched s)) k) as Ht'.
  pose proof (next_id_le (next_lease_id (sched s)) k) as Hl'.
  destruct Hs as [s w now now1 now' st o n H|s ps1 p ps2 now st o n Hp H
    |s ls1 l ls2 st n Hls H|s ls1 l ls2 reason st n Hls H]; cbn in *.
  - replace (sched _) with st by (by destruct o as [[]|]). apply begin_ids in H. lia.
  - replace (sched _) with st by (by destruct o as [[]|]). apply poll_ids in H. lia.
  - eapply drop_ids in H; [|done|rewrite Hls; set_solver]. lia.
  - eapply quarantine_ids in H; [|done|rewrite Hls; set_solver]. lia.
Qed.

(** A run of fewer than [2^64 - 1] steps from the initial state keeps the
    invariant: the ids it uses have not wrapped around. *)
Lemma run_inv cfg k s :
  0 <= queue_capacity cfg -> Z.of_nat k < u64_max -> run cfg k system_init s ->
  Inv cfg s /\ next_ticket (sched s) <= Z.of_nat k /\ next_lease_id (sched s) <= Z.of_nat k.
Proof.
  intros Hc Hk Hr. remember system_init as s0 eqn:E0. induction Hr as [s|k s s' n s'' Hr IH Hs]; subst.
  - split; [by apply inv_init|]. cbn. lia.
  - destruct IH as (HI & Ht & Hl); [lia|done|].
    split; [eapply inv_step; [exact HI|lia|lia|exact Hs]|].
    replace (Z.of_nat (S k)) with (Z.of_nat k + 1) by lia. eapply step_ids; [exact HI|lia|done|done|exact Hs].
Qed.
