(* ===== verification/SchedulerTheorems.v ===== *)
(** What the lease scheduler guarantees, for every interleaving of its threads.

    Each theorem is about the states [run cfg k system_init s] reaches in fewer
    than [2^64 - 1] steps, so that the 64-bit lease ids and tickets have not
    wrapped around. *)
From S2P Require Import Prelude RustString Scheduler SchedulerInv.
Local Open Scope Z_scope.

(** * Sample runs, for the witnesses *)

Definition sample_cfg : SchedulerConfig := scheduler_new 2 5000000.

Definition exec_acquire (w : AiWorkload) (now : Z) (s : System) : System :=
  let '(st, o, _) := acquire_begin sample_cfg (sched s) w now now now in
  settle w st o (live s) (parked s).

Definition exec_drop (i : nat) (s : System) : System :=
  match live s !! i with
  | Some l => {| sched := (drop_lease (sched s) l).1; live := remove_at i (live s);
                 parked := parked s |}
  | None => s
  end.

Definition exec_quarantine (i : nat) (reason : AiLeaseQuarantineReason) (s : System) : System :=
  match live s !! i with
  | Some l => {| sched := (quarantine_lease (sched s) l reason).1; live := remove_at i (live s);
                 parked := parked s |}
  | None => s
  end.

(** A language-model lease and a detector lease, granted side by side. *)
Definition sample_two : System := exec_acquire Yolo 1 (exec_acquire Llm 0 system_init).

(** Then two threads queue for cluster one, the background one first. *)
Definition sample_queue : System := exec_acquire Llm 3 (exec_acquire Vlm 2 sample_two).

(** Then the first lease is dropped, and the queued threads have not run yet. *)
Definition sample_freed : System := exec_drop 1 sample_queue.

(** The verifier's lease is quarantined. *)
Definition sample_fenced : System :=
  exec_quarantine 0 ProcessExitUnconfirmed (exec_acquire CatRecordingVerifier 0 system_init).

Lemma exec_acquire_step w now s : exists n, step sample_cfg s n (exec_acquire w now s).
Proof.
  unfold exec_acquire. destruct (acquire_begin _ _ _ _ _ _) as [[st o] n] eqn:E.
  exists n. by econstructor.
Qed.

Lemma take_drop_remove_at {A} i (l : list A) : take i l ++ drop (S i) l = remove_at i l.
Proof.
  revert l. induction i as [|i IH]; intros [|x l]; cbn; try done. by rewrite <-IH.
Qed.

Lemma exec_drop_step i l s :
  live s !! i = Some l -> exists n, step sample_cfg s n (exec_drop i s).
Proof.
  intros E. unfold exec_drop. rewrite E. exists (drop_lease (sched s) l).2.
  pose proof (take_drop_middle _ _ _ E) as Hl.
  replace (remove_at i (live s)) with (take i (live s) ++ drop (S i) (live s)).
  { eapply step_drop; [by rewrite Hl|apply surjective_pairing]. }
  apply take_drop_remove_at.
Qed.

Lemma exec_quarantine_step i l reason s :
  live s !! i = Some l -> exists n, step sample_cfg s n (exec_quarantine i reason s).
Proof.
  intros E. unfold exec_quarantine. rewrite E. exists (quarantine_lease (sched s) l reason).2.
  pose proof (take_drop_middle _ _ _ E) as Hl.
  replace (remove_at i (live s)) with (take i (live s) ++ drop (S i) (live s)).
  { eapply step_quarantine; [by rewrite Hl|apply surjective_pairing]. }
  apply take_drop_remove_at.
Qed.

Lemma run_snoc cfg k s s' s'' :
  run cfg k s s' -> (exists n, step cfg s' n s'') -> run cfg (S k) s s''.
Proof. intros H [n Hn]. by econstructor. Qed.

Lemma sample_two_run : run sample_cfg 2 system_init sample_two.
Proof. do 2 (eapply run_snoc; [|apply exec_acquire_step]). constructor. Qed.

Lemma sample_queue_run : run sample_cfg 4 system_init sample_queue.
Proof. do 2 (eapply run_snoc; [|apply exec_acquire_step]). apply sample_two_run. Qed.

Lemma sample_freed_run : run sample_cfg 5 system_init sample_freed.
Proof. eapply run_snoc; [apply sample_queue_run|]. eapply exec_drop_step. vm_compute. reflexivity. Qed.

Lemma sample_fenced_run : run sample_cfg 2 system_init sample_fenced.
Proof.
  eapply run_snoc; [|eapply exec_quarantine_step; vm_compute; reflexivity].
  eapply run_snoc; [|apply exec_acquire_step]. constructor.
Qed.

(** * Helper lemmas *)

(** What makes a waiter the one to be granted. *)
Definition blocks (st : SchedulerState) (o v : LeaseWaiter) : Prop :=
  o ∈ waiters st /\ resources_overlap (waiter_mask o) (waiter_mask v) = true
  /\ resources_are_free st (waiter_mask o) = true
  /\ key_lt (waiter_priority o) (ticket o) (waiter_priority v) (ticket v) = true.

Lemma key_lt_irrefl p t : key_lt p t p t = false.
Proof. unfold key_lt. rewrite !Z.ltb_irrefl, andb_false_r. done. Qed.

Lemma grantable_spec cfg s v :
  Inv cfg s -> v ∈ waiters (sched s) ->
  waiter_can_be_granted (sched s) (ticket v) = true <->
  resources_are_free (sched s) (waiter_mask v) = true /\ forall o, ~ blocks (sched s) o v.
Proof.
  intros HI Hv. unfold waiter_can_be_granted.
  destruct (list_find _ _) as [v'|] eqn:Ef.
  2: { rewrite list_find_none in Ef. specialize (Ef v Hv). cbn in Ef. by rewrite Z.eqb_refl in Ef. }
  apply list_find_some in Ef as [Hv' Et]. bool_facts.
  assert (v' = v) as -> by (by eapply NoDup_fmap_inj; [apply (inv_tickets _ _ HI)|..]).
  rewrite andb_true_iff, negb_true_iff, list_any_false. apply and_iff_compat_l. split.
  - intros H o (Ho & H1 & H2 & H3). specialize (H o Ho). rewrite H1, H2, H3 in H.
    rewrite !andb_true_r, negb_false_iff, Z.eqb_eq in H.
    assert (o = v) as -> by (by eapply NoDup_fmap_inj; [apply (inv_tickets _ _ HI)|..]).
    by rewrite key_lt_irrefl in H3.
  - intros H o Ho. destruct (ticket o =? ticket v); cbn; [done|].
    destruct (resources_overlap _ _) eqn:E1, (resources_are_free _ (waiter_mask o)) eqn:E2,
      (key_lt _ _ _ _) eqn:E3; try done. by destruct (H o).
Qed.

(** Granting to [w] makes no other waiter grantable: whoever it unblocks shares
    a resource with it. *)
Lemma grant_unblocks_nobody cfg s s' w v :
  Inv cfg s -> Inv cfg s' ->
  (forall r, r ∈ required_resources w -> holder (res (sched s') r) <> None) ->
  (forall r, r ∉ required_resources w -> core (res (sched s') r) = core (res (sched s) r)) ->
  (forall r, r ∈ required_resources w -> holder (res (sched s) r) = None
                                         /\ quarantine_reason (res (sched s) r) = None) ->
  (forall o, o ∈ waiters (sched s) ->
     o ∈ waiters (sched s') \/ resources_overlap (waiter_mask o) (resource_mask w) = true) ->
  v ∈ waiters (sched s) -> v ∈ waiters (sched s') ->
  waiter_can_be_granted (sched s') (ticket v) = true ->
  waiter_can_be_granted (sched s) (ticket v) = true.
Proof.
  intros HI HI' Htaken Hsame Hfree Hws Hv Hv'.
  rewrite (grantable_spec cfg s v), (grantable_spec cfg s' v) by done.
  destruct (inv_waiters _ _ HI v Hv) as (Emv & _ & _).
  assert (Hmove : forall u, resources_overlap (resource_mask u) (resource_mask w) = false ->
    resources_are_free (sched s) (resource_mask u) = resources_are_free (sched s') (resource_mask u)).
  { intros u Hu. apply eq_true_iff_eq. rewrite !free_spec.
    split; intros H r Hr; specialize (H r Hr); specialize (Hsame r);
      (assert (r ∉ required_resources w) as Hn
         by (intros Hw; apply not_true_iff_false in Hu; apply Hu, overlap_workloads; by exists r));
      specialize (Hsame Hn); unfold core in Hsame; injection Hsame as E1 E2 _ _; by rewrite ?E1, ?E2 in *. }
  intros [Hf Hb].
  assert (Hnv : resources_overlap (waiter_mask v) (resource_mask w) = false).
  { apply not_true_iff_false. rewrite Emv, overlap_workloads. intros (r & H1 & H2).
    rewrite Emv, free_spec in Hf. destruct (Hf r H1) as [E _].
    by destruct (Htaken r H2). }
  split; [by rewrite Emv, Hmove, <-Emv by (by rewrite <-Emv)|].
  intros o (Ho & H1 & H2 & H3). destruct (inv_waiters _ _ HI o Ho) as (Emo & _ & _).
  assert (Hno : resources_overlap (waiter_mask o) (resource_mask w) = false).
  { apply not_true_iff_false. intros Hov. apply not_true_iff_false in Hnv. apply Hnv.
    rewrite Emv. eapply overlap_trans; [|rewrite <-Emo; exact Hov].
    rewrite <-Emv, <-Emo, overlap_sym. exact H1. }
  destruct (Hws o Ho) as [Ho'|Ho']; [|congruence].
  apply (Hb o). split_and!; [done|done| |done].
  by rewrite Emo, <-Hmove, <-Emo by (by rewrite <-Emo).
Qed.

(** What an [acquire] iteration that returns a lease did. *)
Lemma poll_granted cfg s ps1 p ps2 now st' l n :
  Inv cfg s -> parked s = ps1 ++ p :: ps2 ->
  acquire_poll (sched s) (p_workload p) (p_ticket p) (p_deadline p) now
    = (st', Returned (Ok l), n) ->
  exists v, v ∈ waiters (sched s) /\ waiter_key v = parked_key p
    /\ waiter_can_be_granted (sched s) (ticket v) = true
    /\ n = false /\ lease_workload l = p_workload p
    /\ lease_mask l = resource_mask (p_workload p)
    /\ waiters st' = remove_waiter (waiters (sched s)) (ticket v)
    /\ (forall r, res st' r = if decide (r ∈ required_resources (p_workload p))
          then grant_resource (lease_id l) (p_workload p) now
                 (duration_millis (elapsed (enqueued_at v) now)) (res (sched s) r)
          else res (sched s) r).
Proof.
  intros HI Hp. destruct (inv_find _ _ p HI) as (v & Hv & Hk); [rewrite Hp; set_solver|].
  pose proof Hk as Hk'. injection Hk as Ht Hw. unfold acquire_poll.
  destruct (required_resources_are_quarantined _ _); [done|].
  destruct (waiter_can_be_granted _ _) eqn:Eg; [|by case_match].
  destruct (position _ _) as [i|] eqn:Ep; [|done].
  pose proof Ep as Ep'. apply position_some in Ep as (v1 & Hv1 & Ht1). rewrite Hv1. bool_facts.
  assert (v1 = v) as ->.
  { eapply NoDup_fmap_inj; [apply (inv_tickets _ _ HI)|by eapply list_elem_of_lookup_2|done|lia]. }
  destruct (inv_waiters _ _ HI v Hv) as (Hmask & _ & _). rewrite Hmask, Hw in *.
  destruct (grant _ _ _ _ _) as [st1 l1] eqn:EG. intros [= <- <- <-].
  apply grant_spec in EG as (-> & _ & _ & Hws & Hres). exists v. rewrite Ht.
  split_and!; try done. rewrite Hws. cbn. unfold remove_waiter. by rewrite Ep'.
Qed.

Lemma poll_quiet st w t d now st' o :
  acquire_poll st w t d now = (st', o, false) ->
  (exists l, o = Returned (Ok l)) \/ (st' = st /\ o = Parked t d).
Proof.
  unfold acquire_poll. destruct (required_resources_are_quarantined _ _); [done|].
  destruct (waiter_can_be_granted _ _).
  - destruct (position _ _); [|intros [= <- <-]; by right].
    destruct (_ !! _); [|intros [= <- <-]; by right].
    destruct (grant _ _ _ _ _). intros [= _ <-]. eauto.
  - destruct (d <=? now); [done|]. intros [= <- <-]. by right.
Qed.

(** The ways [acquire] goes up to its first wait. *)
Lemma begin_cases cfg st w now now1 now' st' o n :
  acquire_begin cfg st w now now1 now' = (st', o, n) ->
  (required_resources_are_quarantined st w = true /\ core_eq st' st
     /\ o = Returned (Err (lease_error Quarantined w)) /\ n = false)
  \/ (required_resources_are_quarantined st w = false
     /\ can_grant_new_request st w = true /\ n = false
     /\ exists st1 l, core_eq st1 st /\ grant st1 w (resource_mask w) 0 now = (st', l)
                      /\ o = Returned (Ok l))
  \/ (required_resources_are_quarantined st w = false /\ can_grant_new_request st w = false
     /\ (exists r, r ∈ required_resources w
          /\ queue_capacity cfg <= Z.of_nat (queued_count_for_resource (waiters st) r))
     /\ core_eq st' st /\ o = Returned (Err (lease_error QueueFull w)) /\ n = false)
  \/ (required_resources_are_quarantined st w = false /\ can_grant_new_request st w = false
     /\ (forall r, r ∈ required_resources w ->
           Z.of_nat (queued_count_for_resource (waiters st) r) < queue_capacity cfg)
     /\ exists st1, let t := next_id (next_ticket st) in
        core_eq st1 (set_waiters (waiters st ++ [{| ticket := t; waiter_workload := w;
            waiter_priority := workload_priority w; waiter_mask := resource_mask w;
            enqueued_at := now |}]) (set_next_ticket t st))
        /\ acquire_poll st1 w t (now1 + wait_timeout cfg) now' = (st', o, n)).
Proof.
  unfold acquire_begin, acquire_enter.
  assert (core_eq (upd_wl incr_requested st w) st) as E0 by apply upd_wl_core.
  rewrite <-(quarantined_proper _ _ E0 w w eq_refl), <-(can_grant_proper _ _ E0 w w eq_refl).
  intros H. destruct (required_resources_are_quarantined _ w) eqn:Eq.
  { injection H as <- <- <-. left. by rewrite upd_wl_core. }
  right. destruct (can_grant_new_request _ w) eqn:Eg.
  { destruct (grant _ _ _ _ _) as [st1 l] eqn:EG. injection H as <- <- <-. left.
    split_and!; try done. eauto. }
  right. destruct (list_any _ (required_resources w)) eqn:Ef.
  - injection H as <- <- <-. left. apply list_any_true in Ef as (r & Hr & Hc). bool_facts.
    split_and!; try done; [by exists r|]. rewrite upd_wl_core, upd_metrics_core by done.
    apply upd_wl_core.
  - right. rewrite list_any_false in Ef. split_and!; try done.
    + intros r Hr. specialize (Ef r Hr). by bool_facts.
    + eexists. split; [|exact H]. rewrite upd_wl_core, upd_metrics_core by done. by split.
Qed.

Lemma wake_unblocks_nobody cfg s ps1 p ps2 now st' o v :
  Inv cfg s -> next_lease_id (sched s) < u64_max -> parked s = ps1 ++ p :: ps2 ->
  acquire_poll (sched s) (p_workload p) (p_ticket p) (p_deadline p) now = (st', o, false) ->
  v ∈ waiters (sched s) -> v ∈ waiters st' ->
  waiter_can_be_granted st' (ticket v) = true ->
  waiter_can_be_granted (sched s) (ticket v) = true.
Proof.
  intros HI Hmax Hp Hpoll Hv Hv' Hg. destruct (poll_quiet _ _ _ _ _ _ _ Hpoll) as [[l ->]|[-> _]]; [|done].
  assert (Inv cfg (settle (p_workload p) st' (Returned (Ok l)) (live s) (ps1 ++ ps2))) as HI'.
  { eapply inv_poll; [|exact Hmax|exact Hpoll]. apply (inv_perm _ _ _ (parked s)).
    - by rewrite Hp, Permutation_middle.
    - by destruct s. }
  destruct (poll_granted _ _ _ _ _ _ _ _ _ HI Hp Hpoll)
    as (u & Hu & Hk & Hgu & _ & _ & _ & Hws & Hres). injection Hk as Ht Hw.
  rewrite (grantable_spec cfg) in Hgu by done. destruct Hgu as [Hfu _].
  destruct (inv_waiters _ _ HI u Hu) as (Emu & _ & _). rewrite Emu, Hw, free_spec in Hfu.
  eapply (grant_unblocks_nobody cfg s (settle (p_workload p) st' (Returned (Ok l)) (live s) (ps1 ++ ps2))
    (p_workload p)); try done; cbn.
  - intros r Hr. by rewrite Hres, decide_True.
  - intros r Hr. by rewrite Hres, decide_False.
  - intros o Ho. pose proof (remove_waiter_perm _ _ (inv_tickets _ _ HI) Hu) as Hperm.
    rewrite Hperm in Ho. apply elem_of_cons in Ho as [->|Ho].
    + right. rewrite Emu, Hw. by destruct (p_workload p).
    + left. by rewrite Hws.
Qed.

Lemma drop_notifies cfg s l st n :
  Inv cfg s -> l ∈ live s -> drop_lease (sched s) l = (st, n) -> n = true.
Proof.
  intros HI Hl. destruct (inv_live _ _ HI l Hl) as (Hm & _). unfold drop_lease. rewrite Hm.
  intros (-> & _)%release_spec. apply list_any_true.
  exists (from_cluster (cluster (lease_workload l))).
  assert (from_cluster (cluster (lease_workload l)) ∈ required_resources (lease_workload l))
    by (destruct (lease_workload l); left).
  split; [done|]. by apply (live_held_by cfg s l).
Qed.

Lemma quarantine_notifies cfg s l reason st n :
  Inv cfg s -> l ∈ live s -> quarantine_lease (sched s) l reason = (st, n) -> n = true.
Proof.
  intros HI Hl. destruct (inv_live _ _ HI l Hl) as (Hm & _). unfold quarantine_lease. rewrite Hm.
  intros (-> & _)%quarantine_spec. apply list_any_true.
  exists (from_cluster (cluster (lease_workload l))).
  assert (from_cluster (cluster (lease_workload l)) ∈ required_resources (lease_workload l))
    by (destruct (lease_workload l); left).
  split; [done|]. by apply (live_held_by cfg s l).
Qed.

(** A new waiter makes no earlier one grantable. *)
Lemma enqueue_unblocks_nobody cfg s s1 x v :
  Inv cfg s -> Inv cfg s1 ->
  (forall r, core (res (sched s1) r) = core (res (sched s) r)) ->
  waiters (sched s1) = waiters (sched s) ++ [x] ->
  v ∈ waiters (sched s) -> waiter_can_be_granted (sched s1) (ticket v) = true ->
  waiter_can_be_granted (sched s) (ticket v) = true.
Proof.
  intros HI HI1 Hres Hws Hv. assert (v ∈ waiters (sched s1)) as Hv1 by (rewrite Hws; set_solver).
  assert (Hf : forall m, resources_are_free (sched s1) m = resources_are_free (sched s) m).
  { intros m. apply list_all_ext. intros r _. specialize (Hres r). unfold core in Hres.
    injection Hres as E1 E2 _ _. by rewrite E1, E2. }
  rewrite (grantable_spec cfg s1), (grantable_spec cfg s) by done. rewrite Hf.
  intros [H1 H2]. split; [done|]. intros o (Ho & H3 & H4 & H5). apply (H2 o).
  split_and!; [rewrite Hws; set_solver|done|by rewrite Hf|done].
Qed.

(** The system between the enqueueing of a request and its first iteration. *)
Lemma inv_enqueued cfg st ls ps w now d st1 :
  Inv cfg {| sched := st; live := ls; parked := ps |} -> next_ticket st < u64_max ->
  (forall r, r ∈ required_resources w ->
     Z.of_nat (queued_count_for_resource (waiters st) r) < queue_capacity cfg) ->
  core_eq st1 (set_waiters (waiters st ++ [{| ticket := next_id (next_ticket st);
      waiter_workload := w; waiter_priority := workload_priority w;
      waiter_mask := resource_mask w; enqueued_at := now |}])
      (set_next_ticket (next_id (next_ticket st)) st)) ->
  Inv cfg {| sched := st1; live := ls;
     parked := {| p_workload := w; p_ticket := next_id (next_ticket st); p_deadline := d |} :: ps |}.
Proof.
  intros HI Ht Hc Hcore. eapply inv_core; [symmetry; exact Hcore|]. by apply inv_enqueue.
Qed.

(** * Held resources across steps *)

Lemma poll_keeps_held cfg s ps1 p ps2 now st' o n r :
  Inv cfg s -> parked s = ps1 ++ p :: ps2 ->
  acquire_poll (sched s) (p_workload p) (p_ticket p) (p_deadline p) now = (st', o, n) ->
  holder (res (sched s) r) <> None ->
  quarantine_reason (res st' r) = quarantine_reason (res (sched s) r)
  /\ holder (res st' r) = holder (res (sched s) r).
Proof.
  intros HI Hp Hpoll Hh. destruct o as [[l|e]|t d].
  - destruct (poll_granted _ _ _ _ _ _ _ _ _ HI Hp Hpoll)
      as (u & Hu & Hk & Hgu & _ & _ & _ & Hws & Hres). injection Hk as Ht Hw.
    rewrite (grantable_spec cfg) in Hgu by done. destruct Hgu as [Hfu _].
    destruct (inv_waiters _ _ HI u Hu) as (Emu & _ & _). rewrite Emu, Hw, free_spec in Hfu.
    rewrite Hres. case_decide as Hr; [by destruct (Hfu r Hr)|done].
  - unfold acquire_poll in Hpoll. repeat case_match; simplify_eq; try done.
    change (res (upd_wl ?f ?s ?w) r) with (res s r).
    pose proof (upd_metrics_core incr_r_timed_out (set_waiters (remove_waiter (waiters (sched s))
      (p_ticket p)) (sched s)) (required_resources (p_workload p))
      (fun _ => eq_refl) (fun _ => eq_refl)) as Hc.
    by rewrite (core_holder _ _ r Hc), (core_reason _ _ r Hc).
  - unfold acquire_poll in Hpoll. by repeat case_match; simplify_eq.
Qed.

(** A step changes a resource only if it was free or held by a live lease. *)
Lemma step_keeps_held cfg s n s' r :
  Inv cfg s -> next_ticket (sched s) < u64_max -> step cfg s n s' ->
  holder (res (sched s) r) <> None ->
  (forall l, l ∈ live s -> r ∉ required_resources (lease_workload l)) ->
  quarantine_reason (res (sched s') r) = quarantine_reason (res (sched s) r)
  /\ holder (res (sched s') r) = holder (res (sched s) r).
Proof.
  intros HI Ht Hs Hh Hl. destruct Hs as [s w now now1 now' st o n H|s ps1 p ps2 now st o n Hp H
    |s ls1 l ls2 st n Hls H|s ls1 l ls2 reason st n Hls H]; cbn.
  - replace (sched _) with st by (by destruct o as [[]|]).
    apply begin_cases in H as [(_ & Hc & _)|[(_ & Hg & _ & st1 & l & Hc & HG & _)
      |[(_ & _ & _ & Hc & _)|(_ & _ & Hcap & st1 & Hc & Hpoll)]]].
    + by rewrite (core_holder _ _ r Hc), (core_reason _ _ r Hc).
    + apply grant_spec in HG as (_ & _ & _ & _ & Hres). rewrite Hres.
      unfold can_grant_new_request in Hg. bool_facts. rewrite free_spec in H.
      case_decide as Hr; [by destruct (H r Hr)|].
      by rewrite (core_holder _ _ r Hc), (core_reason _ _ r Hc).
    + by rewrite (core_holder _ _ r Hc), (core_reason _ _ r Hc).
    + destruct s as [st0 ls ps]. cbn in *.
      pose proof (inv_enqueued cfg st0 ls ps w now (now1 + wait_timeout cfg) st1 HI Ht Hcap Hc) as HI1.
      pose proof (poll_keeps_held cfg _ [] _ ps now' st o n r HI1 eq_refl Hpoll) as Hkeep.
      cbn in Hkeep. rewrite (core_holder _ _ r Hc), (core_reason _ _ r Hc) in Hkeep.
      by apply Hkeep.
  - replace (sched _) with st by (by destruct o as [[]|]). by eapply poll_keeps_held.
  - assert (l ∈ live s) as Hin by (rewrite Hls; set_solver).
    destruct (inv_live _ _ HI l Hin) as (Hm & _). unfold drop_lease in H. rewrite Hm in H.
    apply release_spec in H as (_ & _ & _ & _ & Hres). rewrite Hres, decide_False; [done|by apply Hl].
  - assert (l ∈ live s) as Hin by (rewrite Hls; set_solver).
    destruct (inv_live _ _ HI l Hin) as (Hm & _). unfold quarantine_lease in H. rewrite Hm in H.
    apply quarantine_spec in H as (_ & _ & _ & _ & Hres).
    rewrite Hres, decide_False; [done|by apply Hl].
Qed.

(** No live lease covers a quarantined resource. *)
Lemma quarantined_not_live cfg s r l :
  Inv cfg s -> quarantine_reason (res (sched s) r) <> None -> l ∈ live s ->
  r ∉ required_resources (lease_workload l).
Proof.
  intros HI Hq Hl Hr. by destruct (live_held_by _ _ _ _ HI Hl Hr) as [_ ?].
Qed.

(** * Choosing among waiters *)

Definition waiter_cmp (a b : LeaseWaiter) : comparison :=
  then_with (waiter_priority a ?= waiter_priority b) (ticket a ?= ticket b).

Global Instance waiter_cmp_total : TotalCmp waiter_cmp.
Proof. unfold waiter_cmp. total_cmp. Qed.

Lemma key_lt_cmp a b :
  key_lt (waiter_priority a) (ticket a) (waiter_priority b) (ticket b) = true
  <-> waiter_cmp a b = Lt.
Proof.
  unfold key_lt, waiter_cmp, then_with. rewrite orb_true_iff, andb_true_iff, Z.eqb_eq, !Z.ltb_lt.
  destruct (Z.compare_spec (waiter_priority a) (waiter_priority b)) as [E|E|E];
    [rewrite Z.compare_lt_iff|..]; split; intros; try lia; done.
Qed.

(** Among the waiters that overlap [v] and could run, the first in priority order
    is grantable. *)
Lemma best_waiter cfg s v :
  Inv cfg s -> v ∈ waiters (sched s) -> resources_are_free (sched s) (waiter_mask v) = true ->
  exists u, u ∈ waiters (sched s) /\ resources_overlap (waiter_mask u) (waiter_mask v) = true
    /\ waiter_can_be_granted (sched s) (ticket u) = true.
Proof.
  intros HI Hv Hf.
  pose (q := fun o => resources_overlap (waiter_mask o) (waiter_mask v)
                      && resources_are_free (sched s) (waiter_mask o)).
  pose proof (sort_by_sorted waiter_cmp (List.filter q (waiters (sched s)))) as Hs.
  assert (Hin : forall o, o ∈ sort_by waiter_cmp (List.filter q (waiters (sched s)))
    <-> o ∈ waiters (sched s) /\ q o = true).
  { intros o. by rewrite elem_of_sort_by, elem_of_list_filter. }
  destruct (inv_waiters _ _ HI v Hv) as (Emv & _).
  assert (q v = true) as Hqv.
  { unfold q. rewrite Hf, andb_true_r, Emv. by destruct (waiter_workload v). }
  destruct (sort_by _ _) as [|u l] eqn:El.
  { assert (v ∈ []) as Hn by (rewrite (Hin v); done). by apply not_elem_of_nil in Hn. }
  assert (u ∈ waiters (sched s) /\ q u = true) as [Hu Hqu] by (apply Hin; left).
  exists u. unfold q in Hqu. bool_facts. split_and!; [done|done|].
  rewrite (grantable_spec cfg) by done. split; [done|]. intros o (Ho & H1 & H2 & H3).
  apply StronglySorted_inv in Hs as [_ Hs]. rewrite key_lt_cmp in H3.
  destruct (inv_waiters _ _ HI o Ho) as (Emo & _), (inv_waiters _ _ HI u Hu) as (Emu & _).
  assert (o ∈ u :: l) as [->|Hol]%elem_of_cons.
  { apply Hin. split; [done|]. unfold q. rewrite H2, andb_true_r, Emo, Emv.
    eapply overlap_trans; [rewrite <-Emo, <-Emu; exact H1|]. by rewrite <-Emu, <-Emv. }
  - by rewrite (cmp_refl waiter_cmp) in H3.
  - rewrite Forall_forall in Hs. specialize (Hs o Hol). unfold cmp_le in Hs.
    by rewrite (cmp_flip (cmp:=waiter_cmp) o u), H3 in Hs.
Qed.

(** A grantable waiter gets its lease when its thread runs. *)
Lemma poll_grants cfg s u d now :
  Inv cfg s -> u ∈ waiters (sched s) -> waiter_can_be_granted (sched s) (ticket u) = true ->
  exists st' l, acquire_poll (sched s) (waiter_workload u) (ticket u) d now
                = (st', Returned (Ok l), false)
    /\ lease_mask l = resource_mask (waiter_workload u).
Proof.
  intros HI Hu Hg. destruct (inv_waiters _ _ HI u Hu) as (Emu & _).
  pose proof Hg as Hg'. rewrite (grantable_spec cfg) in Hg' by done. destruct Hg' as [Hf _].
  unfold acquire_poll. replace (required_resources_are_quarantined _ _) with false.
  2: { symmetry. apply not_true_iff_false. rewrite quarantined_spec. intros (r & Hr & Hq).
       rewrite Emu, free_spec in Hf. by destruct (Hf r Hr). }
  rewrite Hg. destruct (position _ _) as [i|] eqn:Ep.
  - apply position_some in Ep as (v1 & Hv1 & Ht1). rewrite Hv1. bool_facts.
    assert (v1 = u) as -> by (eapply NoDup_fmap_inj; [apply (inv_tickets _ _ HI)
      |by eapply list_elem_of_lookup_2|done|lia]).
    destruct (grant _ _ _ _ _) as [st1 l] eqn:EG. exists st1, l. split; [done|].
    rewrite Emu in EG. by apply grant_spec in EG as (-> & _).
  - rewrite position_none in Ep. specialize (Ep u Hu). cbn in Ep. by rewrite Z.eqb_refl in Ep.
Qed.

Lemma poll_leaves cfg s ps1 p ps2 now st' o n :
  Inv cfg s -> parked s = ps1 ++ p :: ps2 -> p_deadline p <= now ->
  acquire_poll (sched s) (p_workload p) (p_ticket p) (p_deadline p) now = (st', o, n) ->
  exists r, o = Returned r /\ waiters st' = remove_waiter (waiters (sched s)) (p_ticket p).
Proof.
  intros HI Hp Hd Hpoll. destruct o as [[l|e]|t d].
  - destruct (poll_granted _ _ _ _ _ _ _ _ _ HI Hp Hpoll)
      as (u & _ & Hk & _ & _ & _ & _ & Hws & _). injection Hk as <- _. eauto.
  - exists (Err e). split; [done|]. unfold acquire_poll in Hpoll. repeat case_match; simplify_eq; [done|].
    cbn. edestruct foldl_upd_frame as (_ & _ & ->). done.
  - destruct (inv_find _ _ p HI) as (v & Hv & Hk); [rewrite Hp; set_solver|].
    injection Hk as Ht Hw. unfold acquire_poll in Hpoll.
    destruct (required_resources_are_quarantined _ _) eqn:E0; [done|].
    destruct (waiter_can_be_granted _ _) eqn:Eg.
    + rewrite <-Ht in Eg. destruct (poll_grants cfg s v (p_deadline p) now HI Hv Eg) as (? & ? & E & _).
      rewrite Ht, Hw in *. unfold acquire_poll in E. rewrite E0, Eg in E. congruence.
    + by rewrite (proj2 (Z.leb_le _ _) Hd) in Hpoll.
Qed.

Lemma remove_waiter_gone cfg s p v :
  Inv cfg s -> p ∈ parked s -> v ∈ remove_waiter (waiters (sched s)) (p_ticket p) ->
  ticket v <> p_ticket p.
Proof.
  intros HI Hp Hv. destruct (inv_find _ _ p HI Hp) as (u & Hu & Hk). injection Hk as Ht Hw.
  pose proof (remove_waiter_perm _ _ (inv_tickets _ _ HI) Hu) as Hperm. rewrite Ht in Hperm.
  pose proof (inv_tickets _ _ HI) as Hn. rewrite Hperm in Hn. cbn in Hn.
  apply NoDup_cons in Hn as [Hn _]. intros E. apply Hn. replace (ticket u) with (ticket v) by congruence.
  by apply (list_elem_of_fmap_2 ticket).
Qed.

Lemma begin_unblocks_nobody cfg s w now now1 now' st' o v :
  Inv cfg s -> next_lease_id (sched s) < u64_max -> next_ticket (sched s) < u64_max ->
  acquire_begin cfg (sched s) w now now1 now' = (st', o, false) ->
  v ∈ waiters (sched s) -> v ∈ waiters st' -> waiter_can_be_granted st' (ticket v) = true ->
  waiter_can_be_granted (sched s) (ticket v) = true.
Proof.
  intros HI Hl Ht Hb Hv. pose proof Hb as Hb'. destruct s as [st ls ps]; cbn in *.
  apply begin_cases in Hb as [(_ & Hc & _)|[(_ & Hg & _ & st1 & l & Hc & HG & ->)
    |[(_ & _ & _ & Hc & _)|(_ & _ & Hcap & st1 & Hc & Hpoll)]]].
  1,3: intros _; by rewrite (waiter_granted_proper _ _ Hc (ticket v) (ticket v) eq_refl).
  - pose proof (inv_begin _ _ _ _ _ _ _ _ _ _ _ HI Hl Ht Hb') as HI'.
    unfold can_grant_new_request in Hg. bool_facts.
    apply grant_spec in HG as (_ & _ & _ & Hws & Hres).
    apply (grant_unblocks_nobody cfg {| sched := st; live := ls; parked := ps |} _ w v HI HI'); try done; cbn.
    + intros r Hr. by rewrite Hres, decide_True.
    + intros r Hr. rewrite Hres, decide_False by done. apply (core_res_eq _ _ Hc).
    + by apply free_spec.
    + intros u Hu. left. by rewrite Hws, (core_waiters _ _ Hc).
  - pose proof (inv_enqueued cfg st ls ps w now (now1 + wait_timeout cfg) st1 HI Ht Hcap Hc) as HI1.
    intros Hv' Hg. eapply (enqueue_unblocks_nobody cfg {| sched := st; live := ls; parked := ps |});
      [exact HI|exact HI1|apply (core_res_eq _ _ Hc)|apply (core_waiters _ _ Hc)|done|].
    pose proof (fun Hid => wake_unblocks_nobody cfg _ [] _ ps now' st' o v HI1 Hid eq_refl Hpoll) as Hw.
    cbn in Hw. apply Hw; [|rewrite (core_waiters _ _ Hc); cbn; set_solver|done|done].
    by rewrite (core_lease _ _ Hc).
Qed.

Lemma length_split_clusters st :
  (forall v, v ∈ waiters st -> waiter_ok st v) ->
  length (waiters st) = (queued_count_for_resource (waiters st) ResA100Cluster0
                         + queued_count_for_resource (waiters st) ResA100Cluster1)%nat.
Proof.
  intros H. assert (forall v, v ∈ waiters st -> waiter_mask v = resource_mask (waiter_workload v)) as Hm
    by (intros v Hv; by destruct (H v Hv)). clear H.
  induction (waiters st) as [|v ws IH]; [done|]. rewrite !queued_count_cons, Hm by left. cbn [length].
  rewrite IH by (intros; apply Hm; by right).
  generalize (queued_count_for_resource ws ResA100Cluster0),
    (queued_count_for_resource ws ResA100Cluster1).
  intros a b. destruct (waiter_workload v); cbv -[Nat.add]; lia.
Qed.

(** * Properties *)

Section properties.
Context (cfg : SchedulerConfig) (k : nat) (s : System).
Context (Hcap : 0 <= queue_capacity cfg) (Hk : Z.of_nat k < u64_max).
Context (Hrun : run cfg k system_init s).

(** C1. Mutual exclusion: whatever the interleaving of acquisitions, wake-ups,
    drops and quarantines, two leases that exist at the same time share no
    resource. *)
Theorem leases_exclusive i j l l' :
  live s !! i = Some l -> live s !! j = Some l' -> i <> j ->
  resources_overlap (lease_mask l) (lease_mask l') = false.
Proof.
  intros Hl Hl' Hij. destruct (run_inv _ _ _ Hcap Hk Hrun) as (HI & _ & _).
  pose proof (list_elem_of_lookup_2 _ _ _ Hl) as El. pose proof (list_elem_of_lookup_2 _ _ _ Hl') as El'.
  destruct (inv_live _ _ HI l El) as (-> & _), (inv_live _ _ HI l' El') as (-> & _).
  apply not_true_iff_false. rewrite overlap_workloads. intros (r & Hr & Hr').
  rewrite (live_disjoint cfg s l l' r) in Hl by done. destruct Hij.
  eapply (NoDup_lookup (lease_id <$> live s)); [apply (inv_live_nodup _ _ HI)|..];
    rewrite list_lookup_fmap; [by rewrite Hl|by rewrite Hl'].
Qed.

(** Atomicity of multi-resource leases: a lease that exists is recorded as
    the holder of every resource its workload requires, none of them is
    quarantined, and its mask is exactly the workload's mask. *)
Theorem lease_holds_all_resources l r :
  l ∈ live s -> r ∈ resources_in_mask (lease_mask l) ->
  r ∈ required_resources (lease_workload l)
  /\ quarantine_reason (res (sched s) r) = None
  /\ exists h, holder (res (sched s) r) = Some h
       /\ holder_lease_id h = lease_id l /\ holder_workload h = lease_workload l.
Proof.
  intros Hl. destruct (run_inv _ _ _ Hcap Hk Hrun) as (HI & _ & _).
  destruct (inv_live _ _ HI l Hl) as (-> & _ & Hh). rewrite resources_in_mask_workload.
  intros Hr. destruct (Hh r Hr). done.
Qed.

(** Quarantine is permanent and fail-closed: once a resource is quarantined,
    in every later state it still is, under the same holder, and no lease that
    exists covers it. *)
Theorem quarantine_permanent k' s' r l :
  quarantine_reason (res (sched s) r) <> None ->
  run cfg k' s s' -> Z.of_nat (k + k') < u64_max ->
  quarantine_reason (res (sched s') r) = quarantine_reason (res (sched s) r)
  /\ holder (res (sched s') r) = holder (res (sched s) r)
  /\ (l ∈ live s' -> r ∉ resources_in_mask (lease_mask l)).
Proof.
  intros Hq Hrun' Hb.
  assert (Inv cfg s' /\ next_ticket (sched s') <= Z.of_nat (k + k')
    /\ next_lease_id (sched s') <= Z.of_nat (k + k')
    /\ quarantine_reason (res (sched s') r) = quarantine_reason (res (sched s) r)
    /\ holder (res (sched s') r) = holder (res (sched s) r)) as (HI' & _ & _ & Eq & Eh).
  { revert Hb. induction Hrun' as [|k' s0 s1 n s2 _ IH Hs]; intros Hb.
    - destruct (run_inv _ _ _ Hcap Hk Hrun) as (HI & ? & ?). rewrite Nat.add_0_r. done.
    - destruct IH as (HI1 & Ht & Hl & Eq & Eh); [done|done|lia|].
      assert (quarantine_reason (res (sched s1) r) <> None) as Hq1 by congruence.
      destruct (step_ids cfg s1 n s2 (Z.of_nat (k + k')) HI1) as [? ?]; [lia|done..|].
      destruct (step_keeps_held cfg s1 n s2 r HI1) as [-> ->]; [lia|done|..].
      + by apply (inv_reason _ _ HI1).
      + intros l' Hl'. by eapply quarantined_not_live.
      + split_and!; [|lia|lia|done|done]. eapply inv_step; [exact HI1|lia|lia|exact Hs]. }
  split_and!; [done|done|]. intros Hl.
  destruct (inv_live _ _ HI' l Hl) as (-> & _). rewrite resources_in_mask_workload.
  eapply quarantined_not_live; [exact HI'| |done]. congruence.
Qed.

(** Priority with FIFO tie-breaking: when a waiting thread is granted its
    lease, no other waiter that competes for one of its resources and could run
    has a higher priority, or the same priority and an earlier ticket; and the
    lease given is for the waiting thread's own workload. *)
Theorem grant_respects_priority ps1 p ps2 now st' l n o :
  parked s = ps1 ++ p :: ps2 ->
  acquire_poll (sched s) (p_workload p) (p_ticket p) (p_deadline p) now
    = (st', Returned (Ok l), n) ->
  o ∈ waiters (sched s) ->
  resources_overlap (waiter_mask o) (lease_mask l) = true ->
  resources_are_free (sched s) (waiter_mask o) = true ->
  lease_workload l = p_workload p
  /\ key_lt (waiter_priority o) (ticket o) (workload_priority (p_workload p)) (p_ticket p) = false.
Proof.
  intros Hp Hpoll Ho Hov Hf. destruct (run_inv _ _ _ Hcap Hk Hrun) as (HI & _ & _).
  destruct (poll_granted _ _ _ _ _ _ _ _ _ HI Hp Hpoll)
    as (u & Hu & Hkey & Hgu & _ & Hw & Hm & _). injection Hkey as Et Ew.
  split; [done|]. rewrite (grantable_spec cfg) in Hgu by done. destruct Hgu as [_ Hb].
  destruct (inv_waiters _ _ HI u Hu) as (Emu & Epu & _). rewrite <-Ew, <-Et, <-Epu.
  apply not_true_iff_false. intros Hlt. apply (Hb o). split_and!; try done.
  by rewrite Emu, Ew, <-Hm.
Qed.

(** Progress: if some waiter's resources are all free, then some waiting
    thread competing with it (possibly itself) gets its lease the next time it
    runs, whenever that is; the queue cannot block itself. *)
Theorem free_resources_are_granted v now :
  v ∈ waiters (sched s) -> resources_are_free (sched s) (waiter_mask v) = true ->
  exists p st' l, p ∈ parked s
    /\ acquire_poll (sched s) (p_workload p) (p_ticket p) (p_deadline p) now
       = (st', Returned (Ok l), false)
    /\ resources_overlap (lease_mask l) (waiter_mask v) = true.
Proof.
  intros Hv Hf. destruct (run_inv _ _ _ Hcap Hk Hrun) as (HI & _ & _).
  destruct (best_waiter cfg s v HI Hv Hf) as (u & Hu & Hov & Hg).
  assert (waiter_key u ∈ parked_key <$> parked s) as (p & Hkey & Hp)%list_elem_of_fmap
    by (rewrite (inv_parked _ _ HI); by apply list_elem_of_fmap_2).
  injection Hkey as Et Ew. destruct (inv_waiters _ _ HI u Hu) as (Emu & _ & _).
  destruct (poll_grants cfg s u (p_deadline p) now HI Hu Hg) as (st' & l & Hpoll & Hm).
  exists p, st', l. rewrite <-Ew, <-Et. split_and!; [done|done|]. by rewrite Hm, <-Emu.
Qed.

(** C19. No lost wake-up: a step that does not call [notify_all] makes no waiting
    thread grantable, so a thread that sleeps through it misses nothing. *)
Theorem no_lost_wakeup s' v :
  step cfg s false s' -> v ∈ waiters (sched s) -> v ∈ waiters (sched s') ->
  waiter_can_be_granted (sched s') (ticket v) = true ->
  waiter_can_be_granted (sched s) (ticket v) = true.
Proof.
  intros Hs Hv. destruct (run_inv _ _ _ Hcap Hk Hrun) as (HI & Ht & Hl).
  clear Hrun. remember false as n eqn:En.
  destruct Hs as [s w now now1 now' st o n H|s ps1 p ps2 now st o n Hp H
    |s ls1 l ls2 st n Hls H|s ls1 l ls2 reason st n Hls H]; subst n; cbn.
  - replace (sched _) with st by (by destruct o as [[]|]).
    eapply begin_unblocks_nobody; [exact HI|lia|lia|exact H|done].
  - replace (sched _) with st by (by destruct o as [[]|]).
    eapply wake_unblocks_nobody; [exact HI|lia|exact Hp|exact H|done].
  - by apply (drop_notifies cfg _ l) in H; [|done|rewrite Hls; set_solver].
  - by apply (quarantine_notifies cfg _ l) in H; [|done|rewrite Hls; set_solver].
Qed.

(** Bounded queues: no resource ever has more waiters than the capacity, and
    the queue as a whole at most twice that, so at most 128. *)
Theorem queue_bounded r :
  Z.of_nat (queued_count_for_resource (waiters (sched s)) r) <= queue_capacity cfg
  /\ Z.of_nat (length (waiters (sched s))) <= 2 * queue_capacity cfg.
Proof.
  destruct (run_inv _ _ _ Hcap Hk Hrun) as (HI & _ & _).
  split; [apply (inv_queue _ _ HI)|].
  pose proof (inv_queue _ _ HI ResA100Cluster0). pose proof (inv_queue _ _ HI ResA100Cluster1).
  rewrite (length_split_clusters (sched s)) by (apply (inv_waiters _ _ HI)). lia.
Qed.

(** Accounting: on every resource the number of leases acquired is the number
    released plus one if it is held, in 64-bit arithmetic. *)
Theorem totals_balance r :
  r_acquired_total (metrics (res (sched s) r))
  = wrap64 (r_released_total (metrics (res (sched s) r)) + held (res (sched s) r)).
Proof.
  destruct (run_inv _ _ _ Hcap Hk Hrun) as (HI & _ & _). apply (inv_totals _ _ HI).
Qed.

(** Bounded waiting: a thread that runs at or after its deadline leaves
    [acquire], and its ticket leaves the queue. *)
Theorem deadline_ends_wait ps1 p ps2 now :
  parked s = ps1 ++ p :: ps2 -> p_deadline p <= now ->
  exists st' r n,
    acquire_poll (sched s) (p_workload p) (p_ticket p) (p_deadline p) now = (st', Returned r, n)
    /\ forall v, v ∈ waiters st' -> ticket v <> p_ticket p.
Proof.
  intros Hp Hd. destruct (run_inv _ _ _ Hcap Hk Hrun) as (HI & _ & _).
  destruct (acquire_poll _ _ _ _ now) as [[st' o] n] eqn:Hpoll.
  destruct (poll_leaves cfg s ps1 p ps2 now st' o n HI Hp Hd Hpoll) as (r & -> & Hws).
  exists st', r, n. split; [done|]. intros v. rewrite Hws.
  by apply (remove_waiter_gone cfg s p); [|rewrite Hp; set_solver].
Qed.

End properties.

(** * The theorems at concrete runs *)

Lemma sample_cap : 0 <= queue_capacity sample_cfg.
Proof. vm_compute. discriminate. Qed.

Lemma sample_bound k : (k <= 1000)%nat -> Z.of_nat k < u64_max.
Proof. unfold u64_max. lia. Qed.

Lemma leases_exclusive_witness : exists l l',
  live sample_two !! 0%nat = Some l /\ live sample_two !! 1%nat = Some l'
  /\ resources_overlap (lease_mask l) (lease_mask l') = false.
Proof.
  eexists _, _. split; [vm_compute; reflexivity|]. split; [vm_compute; reflexivity|].
  apply (leases_exclusive sample_cfg 2 sample_two sample_cap (sample_bound 2 ltac:(lia))
    sample_two_run 0%nat 1%nat); [vm_compute; reflexivity..|discriminate].
Defined.

Lemma lease_holds_all_resources_witness : exists l, l ∈ live sample_two
  /\ quarantine_reason (res (sched sample_two) SpacemitOnnxRuntimeCluster0) = None
  /\ exists h, holder (res (sched sample_two) SpacemitOnnxRuntimeCluster0) = Some h
       /\ holder_lease_id h = lease_id l /\ holder_workload h = Yolo.
Proof.
  assert (live sample_two !! 0%nat = Some {| lease_mask := 5; lease_workload := Yolo; lease_id := 2 |})
    as El by (vm_compute; reflexivity).
  apply list_elem_of_lookup_2 in El.
  exists {| lease_mask := 5; lease_workload := Yolo; lease_id := 2 |}. split; [exact El|].
  apply (lease_holds_all_resources sample_cfg 2 sample_two sample_cap (sample_bound 2 ltac:(lia))
    sample_two_run _ SpacemitOnnxRuntimeCluster0 El).
  apply elem_of_list_filter. split; [repeat (left || right)|reflexivity].
Defined.

Lemma quarantine_permanent_witness :
  exists s', run sample_cfg 1 sample_fenced s'
  /\ quarantine_reason (res (sched s') ResA100Cluster1) = Some ProcessExitUnconfirmed.
Proof.
  assert (run sample_cfg 1 sample_fenced (exec_acquire Yolo 9 sample_fenced)) as Hr.
  { eapply run_snoc; [constructor|apply exec_acquire_step]. }
  exists (exec_acquire Yolo 9 sample_fenced). split; [exact Hr|].
  refine (eq_trans (proj1 (quarantine_permanent sample_cfg 2 sample_fenced sample_cap
    (sample_bound 2 ltac:(lia)) sample_fenced_run 1 _ ResA100Cluster1
    {| lease_mask := 0; lease_workload := Yolo; lease_id := 0 |} _ Hr (sample_bound 3 ltac:(lia)))) _).
  - vm_compute. discriminate.
  - vm_compute. reflexivity.
Defined.

Definition waiting_vlm : LeaseWaiter :=
  {| ticket := 1; waiter_workload := Vlm; waiter_priority := 10; waiter_mask := 2;
     enqueued_at := 2 |}.
Definition waiting_llm : LeaseWaiter :=
  {| ticket := 2; waiter_workload := Llm; waiter_priority := 0; waiter_mask := 2;
     enqueued_at := 3 |}.
Definition thread_llm : ParkedThread :=
  {| p_workload := Llm; p_ticket := 2; p_deadline := 5000003 |}.
Definition thread_vlm : ParkedThread :=
  {| p_workload := Vlm; p_ticket := 1; p_deadline := 5000002 |}.

Lemma sample_freed_parked : parked sample_freed = [] ++ thread_llm :: [thread_vlm].
Proof. vm_compute. reflexivity. Qed.

Lemma sample_freed_waiters : waiters (sched sample_freed) = [waiting_vlm; waiting_llm].
Proof. vm_compute. reflexivity. Qed.

Lemma waiting_vlm_in : waiting_vlm ∈ waiters (sched sample_freed).
Proof. rewrite sample_freed_waiters. left. Qed.

Lemma sample_freed_poll : exists st,
  acquire_poll (sched sample_freed) Llm 2 5000003 7
  = (st, Returned (Ok {| lease_mask := 2; lease_workload := Llm; lease_id := 3 |}), false).
Proof. eexists. vm_compute. reflexivity. Qed.

Lemma grant_respects_priority_witness :
  waiting_vlm ∈ waiters (sched sample_freed)
  /\ key_lt (waiter_priority waiting_vlm) (ticket waiting_vlm) 0 2 = false.
Proof.
  split; [exact waiting_vlm_in|]. destruct sample_freed_poll as [st Hpoll].
  exact (proj2 (grant_respects_priority sample_cfg 5 sample_freed sample_cap
    (sample_bound 5 ltac:(lia)) sample_freed_run [] thread_llm [thread_vlm] 7 st _ _ waiting_vlm
    sample_freed_parked Hpoll waiting_vlm_in ltac:(vm_compute; reflexivity)
    ltac:(vm_compute; reflexivity))).
Defined.

Lemma free_resources_are_granted_witness : exists p st' l,
  p ∈ parked sample_freed
  /\ acquire_poll (sched sample_freed) (p_workload p) (p_ticket p) (p_deadline p) 7
     = (st', Returned (Ok l), false) /\ resources_overlap (lease_mask l) 2 = true.
Proof.
  apply (free_resources_are_granted sample_cfg 5 sample_freed sample_cap
    (sample_bound 5 ltac:(lia)) sample_freed_run waiting_vlm 7).
  - exact waiting_vlm_in.
  - vm_compute. reflexivity.
Defined.

(** In [sample_freed] the language model's thread could run; a further detector
    request, queued in a step without a notification, changes nothing for it. *)
Lemma sample_quiet_step : step sample_cfg sample_freed false (exec_acquire Yolo 8 sample_freed).
Proof.
  assert ((acquire_begin sample_cfg (sched sample_freed) Yolo 8 8 8).2 = false) as En
    by (vm_compute; reflexivity).
  unfold exec_acquire. destruct (acquire_begin _ _ _ _ _ _) as [[st o] n] eqn:E. cbn in En. subst n.
  by econstructor.
Qed.

Lemma sample_quiet_waiters : exists v,
  waiters (sched (exec_acquire Yolo 8 sample_freed)) = [waiting_vlm; waiting_llm; v].
Proof. eexists. vm_compute. reflexivity. Qed.

Lemma no_lost_wakeup_witness : waiter_can_be_granted (sched sample_freed) 2 = true.
Proof.
  apply (no_lost_wakeup sample_cfg 5 sample_freed sample_cap (sample_bound 5 ltac:(lia))
    sample_freed_run _ waiting_llm sample_quiet_step).
  - rewrite sample_freed_waiters. right. left.
  - destruct sample_quiet_waiters as [v ->]. right. left.
  - vm_compute. reflexivity.
Defined.

Lemma queue_bounded_witness :
  Z.of_nat (queued_count_for_resource (waiters (sched sample_queue)) ResA100Cluster1) <= 2.
Proof.
  exact (proj1 (queue_bounded sample_cfg 4 sample_queue sample_cap (sample_bound 4 ltac:(lia))
    sample_queue_run ResA100Cluster1)).
Defined.

Lemma totals_balance_witness :
  r_acquired_total (metrics (res (sched sample_two) ResA100Cluster1)) = 1.
Proof.
  rewrite (totals_balance sample_cfg 2 sample_two sample_cap (sample_bound 2 ltac:(lia))
    sample_two_run ResA100Cluster1). vm_compute. reflexivity.
Defined.

Lemma deadline_ends_wait_witness : exists p ps st' r n,
  parked sample_queue = p :: ps
  /\ acquire_poll (sched sample_queue) (p_workload p) (p_ticket p) (p_deadline p) 6000000
     = (st', Returned r, n) /\ forall v, v ∈ waiters st' -> ticket v <> p_ticket p.
Proof.
  destruct (deadline_ends_wait sample_cfg 4 sample_queue sample_cap (sample_bound 4 ltac:(lia))
    sample_queue_run [] thread_llm [thread_vlm] 6000000) as (st' & r & n & H1 & H2).
  - vm_compute. reflexivity.
  - cbn. lia.
  - exists thread_llm, [thread_vlm], st', r, n. split; [vm_compute; reflexivity|].
    split; [exact H1|exact H2].
Defined.
