(* ===== verification/SchedulerSnapshot.v ===== *)
(** The JSON snapshots of the lease scheduler, the reporting half of
    [src/runtime/ai_resource_scheduler.rs]: [cluster_snapshot],
    [resource_domain_snapshot], [workload_snapshot] and
    [AiResourceScheduler::snapshot], as values of the JSON interface. [now] is
    the clock reading behind [lease_age_ms]. *)
From S2P Require Import Prelude RustString Json Scheduler.
Local Open Scope Z_scope.

Section snapshots.
Context `{SerdeJson}.

Definition json_opt {A} (f : A -> Value) (o : option A) : Value :=
  match o with Some a => f a | None => json_null end.

Definition all_workloads : list AiWorkload := [Yolo; Llm; CatRecordingVerifier; Vlm].

(** The [.filter(..).count()] of [waiting_by_workload]. *)
Definition waiting_count (st : SchedulerState) (r : AiResource) (w : AiWorkload) : nat :=
  count_if (fun v => bool_decide (waiter_workload v = w)
                     && negb (Z.land (waiter_mask v) (resource_mask_bit r) =? 0)) (waiters st).

Definition waiting_by_workload (st : SchedulerState) (r : AiResource) : Value :=
  json_obj ((fun w => (workload_as_str w, json_num (Z.of_nat (waiting_count st r w))))
            <$> all_workloads).

Definition holder_snapshot (now : Z) (h : LeaseHolder) : Value :=
  json_obj [("workload", json_str (workload_as_str (holder_workload h)));
            ("lease_age_ms", json_num (duration_millis (elapsed (holder_acquired_at h) now)))].

(** The entries that the two resource snapshots end with. *)
Definition resource_counters (m : ResourceMetrics) : list (string * Value) :=
  [("acquired_total", json_num (r_acquired_total m));
   ("released_total", json_num (r_released_total m));
   ("lease_quarantined_total", json_num (r_lease_quarantined_total m));
   ("queued_total", json_num (r_queued_total m));
   ("queue_full_total", json_num (r_queue_full_total m));
   ("timed_out_total", json_num (r_timed_out_total m));
   ("total_wait_ms", json_num (r_total_wait_ms m));
   ("max_wait_ms", json_num (r_max_wait_ms m))].

(** ... and the ones they share before them. *)
Definition resource_status (st : SchedulerState) (r : AiResource) (now : Z)
  : list (string * Value) :=
  [("busy", json_bool (match holder (res st r) with Some _ => true | None => false end));
   ("holder", json_opt (holder_snapshot now) (holder (res st r)));
   ("quarantined", json_bool (match quarantine_reason (res st r) with Some _ => true | None => false end));
   ("quarantine_reason", json_opt (fun q => json_str (reason_as_str q)) (quarantine_reason (res st r)));
   ("queue_depth", json_num (Z.of_nat (queued_count_for_resource (waiters st) r)));
   ("waiting_by_workload", waiting_by_workload st r)].

Definition cluster_snapshot (st : SchedulerState) (c : AiCluster) (now : Z) : Value :=
  let r := from_cluster c in
  json_obj ([("cluster_id", json_str (cluster_as_str c));
             ("core_ids", json_arr (json_num <$> core_ids c))]
            ++ resource_status st r now ++ resource_counters (metrics (res st r))).

Definition resource_domain_snapshot (st : SchedulerState) (r : AiResource) (now : Z) : Value :=
  json_obj ([("resource_id", json_str (resource_as_str r))]
            ++ resource_status st r now ++ resource_counters (metrics (res st r))).

Definition is_busy (st : SchedulerState) (r : AiResource) : bool :=
  match holder (res st r) with Some _ => true | None => false end.

Definition workload_snapshot (cfg : SchedulerConfig) (st : SchedulerState) (w : AiWorkload)
  : Value :=
  let m := wl st w in
  let r := from_cluster (cluster w) in
  json_obj
    [("workload", json_str (workload_as_str w));
     ("cluster_id", json_str (cluster_as_str (cluster w)));
     ("core_ids", json_arr (json_num <$> core_ids (cluster w)));
     ("busy", json_bool (is_busy st r));
     ("holder_workload",
        json_opt (fun h => json_str (workload_as_str (holder_workload h))) (holder (res st r)));
     ("queue_depth", json_num (Z.of_nat (queued_count_for_resource (waiters st) r)));
     ("required_resource_ids",
        json_arr ((fun r => json_str (resource_as_str r)) <$> required_resources w));
     ("blocked_resource_ids",
        json_arr ((fun r => json_str (resource_as_str r))
                  <$> List.filter (is_busy st) (required_resources w)));
     ("atomic_resource_lease", json_bool (1 <? Z.of_nat (length (required_resources w))));
     ("mode", json_str "bounded_priority_fifo_lease");
     ("queue_capacity", json_num (queue_capacity cfg));
     ("wait_timeout_ms", json_num (duration_millis (wait_timeout cfg)));
     ("started_total", json_num (w_acquired_total m));
     ("completed_total", json_num (w_released_total m));
     ("busy_total", json_num (wrap64 (wrap64 (w_queued_total m + w_queue_full_total m)
                                      + w_quarantine_rejected_total m)));
     ("failed_total", json_num (wrap64 (wrap64 (w_queue_full_total m + w_timed_out_total m)
                                        + w_quarantine_rejected_total m)));
     ("requested_total", json_num (w_requested_total m));
     ("cross_cluster_parallel_acquired_total",
        json_num (w_cross_cluster_parallel_acquired_total m));
     ("quarantine_rejected_total", json_num (w_quarantine_rejected_total m));
     ("queued_total", json_num (w_queued_total m));
     ("queue_full_total", json_num (w_queue_full_total m));
     ("timed_out_total", json_num (w_timed_out_total m));
     ("total_wait_ms", json_num (w_total_wait_ms m));
     ("max_wait_ms", json_num (w_max_wait_ms m));
     ("cpu_fallback_enabled", json_bool false);
     ("metadata_only", json_bool true);
     ("secret_scan", json_str "clean")].

Definition snapshot (cfg : SchedulerConfig) (st : SchedulerState) (now : Z) : Value :=
  json_obj
    [("kind", json_str "k3_ai_resource_scheduler_v2");
     ("mode", json_str "bounded_priority_fifo_lease");
     ("atomic_multi_resource_leases", json_bool true);
     ("queue_capacity_per_cluster", json_num (queue_capacity cfg));
     ("queue_capacity_per_resource", json_num (queue_capacity cfg));
     ("wait_timeout_ms", json_num (duration_millis (wait_timeout cfg)));
     ("cpu_fallback_enabled", json_bool false);
     ("clusters", json_arr [cluster_snapshot st A100Cluster0 now; cluster_snapshot st A100Cluster1 now]);
     ("resource_domains", json_obj
        [("spacemit_onnx_runtime_cluster_0",
            resource_domain_snapshot st SpacemitOnnxRuntimeCluster0 now);
         ("spacemit_onnx_runtime_cluster_1",
            resource_domain_snapshot st SpacemitOnnxRuntimeCluster1 now)]);
     ("workloads", json_obj
        [("yolo", workload_snapshot cfg st Yolo);
         ("llm", workload_snapshot cfg st Llm);
         ("cat_recording_verifier", workload_snapshot cfg st CatRecordingVerifier);
         ("vlm", workload_snapshot cfg st Vlm)]);
     ("metadata_only", json_bool true);
     ("secret_scan", json_str "clean")].

(** * Reading a snapshot *)

(** The number a snapshot reports under a key, and under a key of an object. *)
Definition get_u64 (v : Value) (k : string) : option Z := value_get v k ≫= as_u64.

Definition sum_Z (l : list Z) : Z := foldr Z.add 0 l.

End snapshots.

(** * The queue depth is the sum of its parts *)

Lemma waiting_count_sum st r :
  queued_count_for_resource (waiters st) r
  = (waiting_count st r Yolo + waiting_count st r Llm + waiting_count st r CatRecordingVerifier
     + waiting_count st r Vlm)%nat.
Proof.
  unfold waiting_count, queued_count_for_resource. induction (waiters st) as [|v ws IH]; [done|].
  rewrite !count_if_cons, IH. destruct (negb _); rewrite ?andb_true_r, ?andb_false_r; [|lia].
  repeat case_bool_decide; destruct (waiter_workload v); simplify_eq; lia.
Qed.

#[local] Arguments waiting_count : simpl never.

(** The snapshots do not contradict the queue: for every resource and any
    JSON library, [queue_depth] is the number of waiters that need the resource,
    and the four numbers of [waiting_by_workload] add up to it. *)
Theorem snapshot_queue_depth `{SerdeJson} `{!SerdeJsonLaws} st c now :
  Z.of_nat (length (waiters st)) <= u64_max ->
  exists w ns,
    get_u64 (cluster_snapshot st c now) "queue_depth" = Some (sum_Z ns)
    /\ sum_Z ns = Z.of_nat (queued_count_for_resource (waiters st) (from_cluster c))
    /\ value_get (cluster_snapshot st c now) "waiting_by_workload" = Some w
    /\ mapM (get_u64 w) (workload_as_str <$> all_workloads) = Some ns.
Proof.
  intros Hlen. exists (waiting_by_workload st (from_cluster c)).
  pose proof (waiting_count_sum st (from_cluster c)) as Hsum.
  assert (queued_count_for_resource (waiters st) (from_cluster c) <= length (waiters st))%nat as Hle
    by apply count_if_le.
  set (k w := Z.of_nat (waiting_count st (from_cluster c) w)).
  exists [k Yolo; k Llm; k CatRecordingVerifier; k Vlm].
  unfold get_u64, cluster_snapshot, waiting_by_workload. rewrite !get_obj. cbn. rewrite !get_obj. cbn.
  rewrite !as_u64_num by (unfold u64_range; subst k; cbn; lia). cbn. subst k. cbn.
  split_and!; [f_equal; lia|lia|done..].
Qed.

(** Two waiters of cluster one, one of each kind. *)
Lemma snapshot_queue_depth_witness :
  let st := set_waiters
    [{| ticket := 1; waiter_workload := Vlm; waiter_priority := 10; waiter_mask := 2; enqueued_at := 0 |};
     {| ticket := 2; waiter_workload := Llm; waiter_priority := 0; waiter_mask := 2; enqueued_at := 0 |}]
    scheduler_state_default in
  exists w ns,
    @get_u64 jv_json (@cluster_snapshot jv_json st A100Cluster1 5) "queue_depth" = Some (sum_Z ns)
    /\ sum_Z ns = 2
    /\ @value_get jv_json (@cluster_snapshot jv_json st A100Cluster1 5) "waiting_by_workload" = Some w
    /\ mapM (@get_u64 jv_json w) (workload_as_str <$> all_workloads) = Some ns.
Proof.
  intros st.
  apply (@snapshot_queue_depth jv_json jv_json_laws st A100Cluster1 5).
  vm_compute. discriminate.
Defined.
