(* ===== verification/Contracts.v ===== *)
(** The data the orchestrator's parts exchange, [src/orchestrator/contracts.rs]:
    actions, plans, execution results and their summaries. Fields that hold
    [serde_json::Value] are over the JSON interface. *)
From S2P Require Import Prelude RustString Json.

Inductive RiskLevel := Low | Medium | High | Critical.
Inductive StepStatus := Pending | Approved | Executing | Success | Failed | Skipped | Blocked.
Inductive Route := MiddlewareApi | Midcli | Browser | Mcp.

Global Instance RiskLevel_eq_dec : EqDecision RiskLevel.
Proof. solve_decision. Defined.
Global Instance StepStatus_eq_dec : EqDecision StepStatus.
Proof. solve_decision. Defined.
Global Instance Route_eq_dec : EqDecision Route.
Proof. solve_decision. Defined.

(** [#[derive(Debug)]] *)
Definition risk_debug (r : RiskLevel) : string :=
  match r with Low => "Low" | Medium => "Medium" | High => "High" | Critical => "Critical" end.

Definition status_debug (s : StepStatus) : string :=
  match s with
  | Pending => "Pending" | Approved => "Approved" | Executing => "Executing"
  | Success => "Success" | Failed => "Failed" | Skipped => "Skipped" | Blocked => "Blocked"
  end.

Definition route_as_str (r : Route) : string :=
  match r with
  | MiddlewareApi => "middleware_api"
  | Midcli => "midcli"
  | Browser => "browser"
  | Mcp => "mcp"
  end.

Definition ROUTE_PRIORITY : list Route := [MiddlewareApi; Midcli; Browser; Mcp].

Section contracts.
Context `{SerdeJson}.

Record Action := {
  domain : string;
  operation : string;
  resource : Value;
  args : Value;
  risk_level : RiskLevel;
  requires_approval : bool;
  dry_run : bool
}.

Record ExecutionResult := {
  er_task_id : string;
  er_step_id : string;
  executor_used : string;
  fallback_used : bool;
  status : StepStatus;
  duration_ms : Z;
  error_code : option string;
  error_message : option string;
  audit_ref : string;
  result_payload : Value
}.

Record TaskPlan := {
  plan_task_id : string;
  goal : string;
  steps : list Action
}.

Record TaskResult := {
  tr_task_id : string;
  results : list ExecutionResult
}.

Definition set_requires_approval (b : bool) (a : Action) : Action :=
  {| domain := domain a; operation := operation a; resource := resource a; args := args a;
     risk_level := risk_level a; requires_approval := b; dry_run := dry_run a |}.

Definition set_risk_level (r : RiskLevel) (a : Action) : Action :=
  {| domain := domain a; operation := operation a; resource := resource a; args := args a;
     risk_level := r; requires_approval := requires_approval a; dry_run := dry_run a |}.

Definition is_high (r : RiskLevel) : bool :=
  match r with High | Critical => true | _ => false end.

(** [Action::normalize] *)
Definition normalize (a : Action) : Action :=
  if is_high (risk_level a) then set_requires_approval true a else a.

(** [ExecutionResult::ok] *)
Definition result_ok (r : ExecutionResult) : bool := bool_decide (status r = Success).

(** [TaskPlan::from_json_str], after the parser: [parsed] is what
    [serde_json::from_str] gives. *)
Definition from_json_str (parsed : result string TaskPlan) : result string TaskPlan :=
  match parsed with
  | Err e => Err e
  | Ok p => Ok {| plan_task_id := plan_task_id p; goal := goal p;
                  steps := normalize <$> steps p |}
  end.

(** [TaskPlan::add] *)
Definition plan_add (p : TaskPlan) (a : Action) : TaskPlan :=
  {| plan_task_id := plan_task_id p; goal := goal p; steps := steps p ++ [normalize a] |}.

Definition task_result_new (task_id : string) : TaskResult :=
  {| tr_task_id := task_id; results := [] |}.

Definition push_result (t : TaskResult) (r : ExecutionResult) : TaskResult :=
  {| tr_task_id := tr_task_id t; results := results t ++ [r] |}.

(** [TaskResult::ok] *)
Definition task_result_ok (t : TaskResult) : bool := list_all result_ok (results t).

Definition count_status (s : StepStatus) (t : TaskResult) : nat :=
  count_if (fun r => bool_decide (status r = s)) (results t).

(** [TaskResult::summary] *)
Definition summary (t : TaskResult) : Value :=
  json_obj
    [("task_id", json_str (tr_task_id t));
     ("total_steps", json_num (Z.of_nat (length (results t))));
     ("succeeded", json_num (Z.of_nat (count_status Success t)));
     ("failed", json_num (Z.of_nat (count_status Failed t)));
     ("blocked", json_num (Z.of_nat (count_status Blocked t)));
     ("ok", json_bool (task_result_ok t))].

End contracts.
