(* ===== verification/Policy.v ===== *)
(** The policy gate every step of a plan passes, [src/orchestrator/policy.rs]. *)
From S2P Require Import Prelude RustString Json Contracts.
From Stdlib Require Import Btauto.

Definition SUPPORTED_SERVICE_OPS : list string := ["status"; "start"; "stop"; "restart"; "enable"].
Definition SUPPORTED_FILE_OPS : list string :=
  ["search"; "copy"; "move"; "archive"; "list"; "stat"; "read_text"].

Record ApprovalContext := {
  token : option string;
  required_token : option string;
  approver_id : option string
}.

Record PolicyViolation := {
  code : string;
  message : string
}.

Section policy.
Context `{SerdeJson} `{!UnicodeLower}.

Definition lowered (s : string) : string := to_lowercase (trim s).

Definition default_requires_approval (a : Action) : bool :=
  (lowered (domain a) =? "camera")%string && (lowered (operation a) =? "connect")%string.

(** [.args.get("overwrite").and_then(as_bool).unwrap_or(false)] *)
Definition wants_overwrite (a : Action) : bool :=
  default false (value_get (args a) "overwrite" ≫= as_bool).

Definition default_risk_level (a : Action) : RiskLevel :=
  let d := lowered (domain a) in
  let o := lowered (operation a) in
  if (d =? "service")%string then
    if (o =? "status")%string then Low
    else if (o =? "start")%string || (o =? "enable")%string then Medium
    else if (o =? "stop")%string || (o =? "restart")%string then High
    else Low
  else if (d =? "files")%string then
    if (o =? "search")%string || (o =? "list")%string || (o =? "stat")%string
       || (o =? "read_text")%string then Low
    else if (o =? "copy")%string then if wants_overwrite a then High else Medium
    else if (o =? "move")%string then High
    else if (o =? "archive")%string then Medium
    else Low
  else if (d =? "camera")%string && (o =? "connect")%string then Medium
  else Low.

Definition effective_risk_level (a : Action) : RiskLevel :=
  match risk_level a with
  | Low => default_risk_level a
  | other => other
  end.

Definition action_requires_approval (a : Action) : bool :=
  requires_approval a || is_high (effective_risk_level a) || default_requires_approval a.

Definition apply_governance_defaults (a : Action) : Action :=
  let a := set_risk_level (effective_risk_level a) a in
  let a := normalize a in
  set_requires_approval (action_requires_approval a) a.

Definition check_operation (a : Action) : result PolicyViolation unit :=
  if (domain a =? "service")%string then
    if str_in (operation a) SUPPORTED_SERVICE_OPS then Ok tt
    else Err {| code := "UNSUPPORTED_OPERATION";
                message := "Unsupported service operation: " +:+ operation a |}
  else if (domain a =? "files")%string then
    if str_in (operation a) SUPPORTED_FILE_OPS then Ok tt
    else Err {| code := "UNSUPPORTED_OPERATION";
                message := "Unsupported file operation: " +:+ operation a |}
  else Ok tt.

(** [ch.is_ascii_lowercase() || ch.is_ascii_digit() || ch == '_' || ch == '-']; no
    byte of a multi-byte [char] passes. *)
Definition service_name_char (c : Ascii.ascii) : bool :=
  is_ascii_lowercase c || is_ascii_digit c || (byte c =? 95)%N || (byte c =? 45)%N.

Definition check_service_name (a : Action) : result PolicyViolation unit :=
  if negb (domain a =? "service")%string then Ok tt else
  match value_get (resource a) "service_name" ≫= as_str with
  | None => Err {| code := "INVALID_SERVICE_NAME"; message := "service_name is required" |}
  | Some service_name =>
      if is_empty service_name || (64 <? Z.of_nat (str_len service_name))%Z then
        Err {| code := "INVALID_SERVICE_NAME";
               message := "Invalid service name: " +:+ service_name |}
      else if negb (str_forall service_name_char service_name) then
        Err {| code := "INVALID_SERVICE_NAME";
               message := "Invalid service name: " +:+ service_name |}
      else Ok tt
  end.

Definition approval_required (a : Action) : PolicyViolation :=
  {| code := "APPROVAL_REQUIRED";
     message := domain a +:+ "." +:+ operation a +:+ " (risk="
                +:+ risk_debug (effective_risk_level a) +:+ ") requires approval" |}.

Definition check_risk_gate (a : Action) (approval : option ApprovalContext)
  : result PolicyViolation unit :=
  if negb (action_requires_approval a) then Ok tt else
  match approval with
  | None => Err (approval_required a)
  | Some ctx =>
      match token ctx with
      | None => Err (approval_required a)
      | Some t =>
          match required_token ctx with
          | Some r =>
              if negb (t =? r)%string then
                Err {| code := "APPROVAL_TOKEN_MISMATCH";
                       message := "Approval token does not match for " +:+ domain a
                                  +:+ "." +:+ operation a |}
              else Ok tt
          | None => Ok tt
          end
      end
  end.

Local Open Scope rust_scope.

Definition enforce (a : Action) (approval : option ApprovalContext)
  : result PolicyViolation unit :=
  _ <-? check_operation a;
  _ <-? check_service_name a;
  _ <-? check_risk_gate a approval;
  Ok tt.

(** * Specification *)

(** An approval the gate accepts: a token, equal to the required one if any. *)
Definition valid_approval (approval : option ApprovalContext) : Prop :=
  exists ctx t, approval = Some ctx /\ token ctx = Some t
    /\ (required_token ctx = None \/ required_token ctx = Some t).

(** A name that is safe to hand to the service manager. *)
Definition safe_service_name (s : string) : Prop :=
  (1 <= String.length s <= 64)%nat /\ str_forall service_name_char s = true.

(** The action is one the policy knows. *)
Definition supported (a : Action) : Prop :=
  (domain a = "service" -> operation a ∈ SUPPORTED_SERVICE_OPS)
  /\ (domain a = "files" -> operation a ∈ SUPPORTED_FILE_OPS).

Definition risk_rank (r : RiskLevel) : nat :=
  match r with Low => 0 | Medium => 1 | High => 2 | Critical => 3 end.

(** * Lemmas *)

Lemma str_in_spec s l : str_in s l = true <-> s ∈ l.
Proof.
  unfold str_in. rewrite list_any_true. split.
  - intros (x & Hx & E). bool_facts. by subst.
  - intros Hs. exists s. by rewrite String.eqb_refl.
Qed.

Lemma check_operation_ok a : check_operation a = Ok tt <-> supported a.
Proof.
  unfold check_operation, supported.
  destruct (String.eqb_spec (domain a) "service") as [->|Hs];
    [|destruct (String.eqb_spec (domain a) "files") as [->|Hf]].
  - rewrite <-str_in_spec. destruct (str_in _ _); naive_solver.
  - rewrite <-(str_in_spec _ SUPPORTED_FILE_OPS). destruct (str_in _ _); naive_solver.
  - naive_solver.
Qed.

Lemma check_service_name_ok a :
  check_service_name a = Ok tt <->
  (domain a = "service" -> exists s, value_get (resource a) "service_name" ≫= as_str = Some s
                                     /\ safe_service_name s).
Proof.
  unfold check_service_name, safe_service_name.
  destruct (String.eqb_spec (domain a) "service") as [->|Hs]; cbn; [|naive_solver].
  destruct (_ ≫= as_str) as [s|]; [|naive_solver].
  unfold str_len. destruct s as [|c s]; [cbn; naive_solver lia|].
  destruct (64 <? Z.of_nat (String.length (String c s)))%Z eqn:El; cbn [is_empty orb]; bool_facts.
  - split; [done|]. intros Hx. destruct Hx as (s' & [= <-] & ? & _); [done|]. lia.
  - destruct (str_forall _ _) eqn:Ef; cbn [negb]; split; try done.
    + intros _ _. eexists. split_and!; [done|cbn; lia|lia|done].
    + intros Hx. destruct Hx as (s' & [= <-] & _ & E); [done|]. by rewrite E in Ef.
Qed.

Lemma check_risk_gate_ok a approval :
  check_risk_gate a approval = Ok tt <->
  (action_requires_approval a = true -> valid_approval approval).
Proof.
  unfold check_risk_gate, valid_approval. destruct (action_requires_approval a); cbn; [|naive_solver].
  destruct approval as [[[t|] [r|] i]|]; cbn; try naive_solver.
  destruct (String.eqb_spec t r) as [->|]; cbn; naive_solver.
Qed.

Lemma effective_risk_ge a : risk_rank (risk_level a) <= risk_rank (effective_risk_level a).
Proof. unfold effective_risk_level. destruct (risk_level a); cbn; lia. Qed.

(** Governance keeps everything the gate looks at. *)
Lemma governance_fields a :
  let g := apply_governance_defaults a in
  domain g = domain a /\ operation g = operation a /\ resource g = resource a
  /\ args g = args a /\ dry_run g = dry_run a /\ risk_level g = effective_risk_level a.
Proof.
  unfold apply_governance_defaults, normalize. cbn.
  by destruct (is_high _).
Qed.

Lemma default_risk_ext a b :
  domain a = domain b -> operation a = operation b -> args a = args b ->
  default_risk_level a = default_risk_level b.
Proof. unfold default_risk_level, wants_overwrite. by intros -> -> ->. Qed.

Lemma effective_ext a b :
  domain b = domain a -> operation b = operation a -> args b = args a ->
  risk_level b = effective_risk_level a -> effective_risk_level b = effective_risk_level a.
Proof.
  intros Hd Ho Ha Hr. unfold effective_risk_level at 1. rewrite Hr. unfold effective_risk_level.
  rewrite (default_risk_ext b a Hd Ho Ha). by destruct (risk_level a), (default_risk_level a).
Qed.

Lemma governance_effective a :
  effective_risk_level (apply_governance_defaults a) = effective_risk_level a.
Proof. by apply effective_ext; apply governance_fields. Qed.

Lemma governance_requires a :
  requires_approval (apply_governance_defaults a) = action_requires_approval a.
Proof.
  unfold apply_governance_defaults. cbn. set (b := normalize _).
  assert (domain b = domain a /\ operation b = operation a /\ args b = args a
    /\ risk_level b = effective_risk_level a
    /\ requires_approval b = requires_approval a || is_high (effective_risk_level a))
    as (Hd & Ho & Ha & Hr & Hq).
  { unfold b, normalize. cbn. destruct (is_high _); cbn; by rewrite ?orb_true_r, ?orb_false_r. }
  unfold action_requires_approval, default_requires_approval.
  rewrite (effective_ext a b), Hd, Ho, Hq by done. btauto.
Qed.

Lemma governance_action_requires a :
  action_requires_approval (apply_governance_defaults a) = action_requires_approval a.
Proof.
  unfold action_requires_approval at 1. rewrite governance_requires, governance_effective.
  destruct (governance_fields a) as (Hd & Ho & _).
  assert (default_requires_approval (apply_governance_defaults a) = default_requires_approval a) as ->
    by (unfold default_requires_approval; by rewrite Hd, Ho).
  unfold action_requires_approval. btauto.
Qed.

(** * Properties *)

(** The policy gate lets an action through exactly when its operation is
    supported, a service action names a service of 1 to 64 characters among
    [a-z0-9_-], and an action that needs approval comes with a token that equals
    the required token if there is one. *)
Theorem enforce_ok_iff a approval :
  enforce a approval = Ok tt <->
  supported a
  /\ (domain a = "service" -> exists s, value_get (resource a) "service_name" ≫= as_str = Some s
                                        /\ safe_service_name s)
  /\ (action_requires_approval a = true -> valid_approval approval).
Proof.
  rewrite <-check_operation_ok, <-check_service_name_ok, <-check_risk_gate_ok. unfold enforce.
  destruct (check_operation a) as [[]|]; cbn; [|naive_solver].
  destruct (check_service_name a) as [[]|]; cbn; [|naive_solver].
  destruct (check_risk_gate a approval) as [[]|]; cbn; naive_solver.
Qed.

(** Governance defaults are idempotent, never lower the risk, decide
    approval as the gate does, and do not change the gate's verdict on any
    action; an action they leave High or Critical always requires approval. *)
Theorem governance_sound a approval :
  let g := apply_governance_defaults a in
  apply_governance_defaults g = g
  /\ risk_rank (risk_level a) <= risk_rank (risk_level g)
  /\ requires_approval g = action_requires_approval a
  /\ (is_high (risk_level g) = true -> requires_approval g = true)
  /\ is_ok (enforce g approval) = is_ok (enforce a approval).
Proof.
  intros g. destruct (governance_fields a) as (Hd & Ho & Hs & Ha & Hdr & Hr).
  destruct (governance_fields g) as (Hd' & Ho' & Hs' & Ha' & Hdr' & Hr').
  split_and!.
  - assert (forall b c, domain b = domain c -> operation b = operation c -> resource b = resource c ->
      args b = args c -> dry_run b = dry_run c -> risk_level b = risk_level c ->
      requires_approval b = requires_approval c -> b = c) as Hext
      by (intros [] []; cbn; congruence).
    apply Hext; try done; rewrite ?governance_requires, ?Hr'; unfold g;
      by rewrite ?governance_action_requires, ?governance_requires, ?governance_effective, ?Hr.
  - unfold g. rewrite Hr. apply effective_risk_ge.
  - apply governance_requires.
  - unfold g. rewrite governance_requires, Hr. unfold action_requires_approval.
    intros ->. by rewrite orb_true_r.
  - unfold g, enforce, check_operation, check_service_name, check_risk_gate.
    rewrite governance_action_requires, Hd, Ho, Hs. cbn.
    by repeat (case_match; cbn).
Qed.

End policy.
