(* ===== verification/Approval.v ===== *)
(** The approval workflow of tool calls, [src/orchestrator/approval.rs]. *)
From S2P Require Import Prelude RustString Contracts.

Inductive AutonomyLevel := ReadOnly | Supervised | Full.
Inductive ApprovalResponse := Yes | No | Always.

Global Instance AutonomyLevel_eq_dec : EqDecision AutonomyLevel.
Proof. solve_decision. Defined.
Global Instance ApprovalResponse_eq_dec : EqDecision ApprovalResponse.
Proof. solve_decision. Defined.

Record AutonomyConfig := {
  level : AutonomyLevel;
  cfg_auto_approve : list string;
  cfg_always_ask : list string;
  cfg_non_cli_excluded : list string
}.

(** [Default for AutonomyConfig] *)
Definition autonomy_config_default : AutonomyConfig :=
  {| level := Supervised; cfg_auto_approve := []; cfg_always_ask := [];
     cfg_non_cli_excluded := [] |}.

Record ApprovalLogEntry := {
  tool_name : string;
  arguments_summary : string;
  decision : ApprovalResponse;
  channel : string
}.

Record ApprovalManager := {
  auto_approve : gset string;
  always_ask : gset string;
  autonomy_level : AutonomyLevel;
  non_interactive : bool;
  session_allowlist : gset string;
  audit_log : list ApprovalLogEntry
}.

Definition from_config (c : AutonomyConfig) : ApprovalManager :=
  {| auto_approve := list_to_set (cfg_auto_approve c);
     always_ask := list_to_set (cfg_always_ask c); autonomy_level := level c;
     non_interactive := false; session_allowlist := ∅; audit_log := [] |}.

Definition for_non_interactive (c : AutonomyConfig) : ApprovalManager :=
  {| auto_approve := list_to_set (cfg_auto_approve c);
     always_ask := list_to_set (cfg_always_ask c); autonomy_level := level c;
     non_interactive := true; session_allowlist := ∅; audit_log := [] |}.

Definition contains (s : gset string) (x : string) : bool := bool_decide (x ∈ s).

Definition needs_approval (m : ApprovalManager) (name : string) : bool :=
  if decide (autonomy_level m = Full) then false
  else if decide (autonomy_level m = ReadOnly) then false
  else if contains (always_ask m) "*" || contains (always_ask m) name then true
  else if non_interactive m && (name =? "shell")%string then false
  else if contains (auto_approve m) "*" || contains (auto_approve m) name then false
  else if contains (session_allowlist m) name then false
  else true.

Definition risk_allowed (m : ApprovalManager) (risk : RiskLevel) : bool :=
  match autonomy_level m with
  | ReadOnly => match risk with Low => true | _ => false end
  | Supervised => true
  | Full => true
  end.

Definition record_decision (m : ApprovalManager) (name args_summary : string)
    (d : ApprovalResponse) (ch : string) : ApprovalManager :=
  {| auto_approve := auto_approve m; always_ask := always_ask m;
     autonomy_level := autonomy_level m; non_interactive := non_interactive m;
     session_allowlist :=
       if decide (d = Always) then {[ name ]} ∪ session_allowlist m else session_allowlist m;
     audit_log := audit_log m ++ [{| tool_name := name; arguments_summary := args_summary;
                                     decision := d; channel := ch |}] |}.

(** The manager after a session's decisions. *)
Definition session (m : ApprovalManager) (l : list (string * string * ApprovalResponse * string))
  : ApprovalManager :=
  foldl (fun m '(n, a, d, c) => record_decision m n a d c) m l.

(** * Lemmas *)

(** Who is never asked about: the tools approved by configuration. *)
Definition approved_by_config (m : ApprovalManager) (name : string) : bool :=
  (non_interactive m && (name =? "shell")%string)
  || contains (auto_approve m) "*" || contains (auto_approve m) name.

Definition asked_by_config (m : ApprovalManager) (name : string) : bool :=
  contains (always_ask m) "*" || contains (always_ask m) name.

Lemma session_fields m l :
  let m' := session m l in
  auto_approve m' = auto_approve m /\ always_ask m' = always_ask m
  /\ autonomy_level m' = autonomy_level m /\ non_interactive m' = non_interactive m
  /\ audit_log m' = audit_log m ++ ((fun '(n, a, d, c) => {| tool_name := n;
       arguments_summary := a; decision := d; channel := c |}) <$> l)
  /\ forall x, x ∈ session_allowlist m' <->
       x ∈ session_allowlist m \/ exists a c, (x, a, Always, c) ∈ l.
Proof.
  cbv zeta. revert m. induction l as [|[[[n a] d] c] l IH]; intros m.
  { cbn. rewrite app_nil_r. split_and!; try done. intros x. split; [auto|].
    intros [?|(a & c & Hx)]; [done|]. by apply not_elem_of_nil in Hx. }
  change (session m ((n, a, d, c) :: l)) with (session (record_decision m n a d c) l).
  destruct (IH (record_decision m n a d c)) as (-> & -> & -> & -> & -> & Hs). cbn.
  split_and!; try done; [by rewrite <-app_assoc|]. intros x. rewrite Hs. cbn.
  setoid_rewrite elem_of_cons. case_decide as Hd; [subst d|]; [set_solver|].
  naive_solver.
Qed.

(** * Property *)

(** After any sequence of recorded decisions a supervised manager asks
    about a tool exactly when the configuration says to always ask about it, or
    the configuration does not approve it and no decision of the session was
    [Always] for it; the audit log has every decision in order; and the
    read-only and full levels never ask, the read-only one allowing low risk
    only. *)
Theorem needs_approval_after_session (c : AutonomyConfig) (ni : bool)
    (l : list (string * string * ApprovalResponse * string)) (name : string) :
  let m := session (if ni then for_non_interactive c else from_config c) l in
  audit_log m = (fun '(n, a, d, ch) => {| tool_name := n; arguments_summary := a;
                                          decision := d; channel := ch |}) <$> l
  /\ (level c = Supervised ->
      (needs_approval m name = true <->
      asked_by_config m name = true
      \/ (approved_by_config m name = false /\ ~ exists a ch, (name, a, Always, ch) ∈ l)))
  /\ (level c <> Supervised -> needs_approval m name = false)
  /\ (forall r, level c = ReadOnly -> risk_allowed m r = true -> r = Low).
Proof.
  set (m0 := if ni then _ else _). intros m.
  assert (session_allowlist m0 = ∅ /\ audit_log m0 = [] /\ autonomy_level m0 = level c)
    as (Hs0 & Ha0 & Hl0) by (by destruct ni).
  destruct (session_fields m0 l) as (_ & _ & Hl & _ & Ha & Hs). fold m in Hl, Ha, Hs.
  rewrite Hs0 in Hs. rewrite Ha0 in Ha. rewrite Hl0 in Hl.
  split_and!; [done| | |].
  - intros Hc. unfold needs_approval, approved_by_config, asked_by_config.
    rewrite Hl, Hc. cbn. destruct (_ || contains (always_ask m) name); [naive_solver|].
    destruct (non_interactive m && _); cbn; [naive_solver|].
    destruct (contains (auto_approve m) "*"); cbn; [naive_solver|].
    destruct (contains (auto_approve m) name); cbn; [naive_solver|].
    unfold contains. case_bool_decide as Hin; rewrite Hs in Hin; set_solver.
  - intros Hc. unfold needs_approval. rewrite Hl. destruct (level c); [|done|]; by vm_compute.
  - intros r Hc. unfold risk_allowed. rewrite Hl, Hc. by destruct r.
Qed.
