(* ===== verification/Runtime.v ===== *)
(** Plan execution: the router [src/orchestrator/router.rs], the audit log
    [src/orchestrator/audit.rs] and the runtime [src/orchestrator/runtime.rs].

    Executors are implementations of a trait with effects outside the program.
    They are records of functions over a state [W] of that outside world, which
    they read ([supports], [is_available]) and change ([execute]); the router and
    the runtime thread it in the order of the calls. The audit references, parts
    of random UUIDs, are given by the function [fresh] from event ids. *)
From S2P Require Import Prelude RustString Json Contracts Policy.

Definition ascii_upper (c : Ascii.ascii) : Ascii.ascii :=
  if is_ascii_lowercase c then Ascii.ascii_of_N (byte c - 32) else c.

(** [str::to_uppercase] on the ASCII names it is applied to. *)
Definition to_uppercase (s : string) : string := str_map ascii_upper s.

Section runtime.
Context `{SerdeJson} `{!UnicodeLower} `{!Codec Action} `{!Codec ExecutionResult}.
Context {W : Type}.

(** * Router *)

(** The trait [Executor]. *)
Record Executor := {
  route : Route;
  supports : W -> Action -> bool;
  is_available : W -> bool;
  execute : Action -> string -> string -> W -> W * result string ExecutionResult
}.

(** [HashMap<Route, Vec<Box<dyn Executor>>>], read by route only. *)
Record Router := { executors : Route -> option (list Executor) }.

Definition router_new : Router := {| executors := fun _ => None |}.

Definition register (rt : Router) (e : Executor) : Router :=
  {| executors := fun r => if decide (r = route e)
                           then Some (default [] (executors rt r) ++ [e])
                           else executors rt r |}.

Definition allowed_routes (a : Action) : list Route :=
  if (domain a =? "service")%string || (domain a =? "files")%string then
    List.filter (fun r => match r with MiddlewareApi | Midcli => true | _ => false end)
      ROUTE_PRIORITY
  else ROUTE_PRIORITY.

Definition set_fallback (r : Route) (fallback : bool) (x : ExecutionResult) : ExecutionResult :=
  {| er_task_id := er_task_id x; er_step_id := er_step_id x;
     executor_used := if is_empty (executor_used x) then route_as_str r else executor_used x;
     fallback_used := fallback; status := status x; duration_ms := duration_ms x;
     error_code := error_code x; error_message := error_message x; audit_ref := audit_ref x;
     result_payload := result_payload x |}.

(** The inner loop, over the executors of a route: a result, or the last error. *)
Fixpoint try_executors (a : Action) (task_id step_id : string) (es : list Executor)
    (last_error : option string) (w : W) : W * (ExecutionResult + option string) :=
  match es with
  | [] => (w, inr last_error)
  | e :: es =>
      if negb (supports e w a) then try_executors a task_id step_id es last_error w
      else if negb (is_available e w) then try_executors a task_id step_id es last_error w
      else match execute e a task_id step_id w with
           | (w, Ok x) => (w, inl x)
           | (w, Err err) => try_executors a task_id step_id es (Some err) w
           end
  end.

(** The outer loop, over the routes; [idx] counts them. *)
Fixpoint try_routes (rt : Router) (a : Action) (task_id step_id : string) (idx : nat)
    (routes : list Route) (last_error : option string) (fallback : bool) (w : W)
  : W * ExecutionResult :=
  match routes with
  | [] =>
      (w, {| er_task_id := task_id; er_step_id := step_id; executor_used := "none";
             fallback_used := fallback; status := Failed; duration_ms := 0;
             error_code := Some "NO_EXECUTOR_AVAILABLE";
             error_message := Some (default "No executor available for this action" last_error);
             audit_ref := ""; result_payload := json_obj [] |})
  | r :: routes =>
      match executors rt r with
      | None => try_routes rt a task_id step_id (S idx) routes last_error fallback w
      | Some es =>
          let fallback := if (0 <? idx)%nat then true else fallback in
          match try_executors a task_id step_id es last_error w with
          | (w, inl x) => (w, set_fallback r fallback x)
          | (w, inr last_error) =>
              try_routes rt a task_id step_id (S idx) routes last_error fallback w
          end
      end
  end.

Definition router_execute (rt : Router) (a : Action) (task_id step_id : string) (w : W)
  : W * ExecutionResult :=
  try_routes rt a task_id step_id 0 (allowed_routes a) None false w.

(** * Audit log *)

Record AuditEvent := {
  ev_audit_ref : string;
  ev_task_id : string;
  ev_step_id : string;
  ev_domain : string;
  ev_operation : string;
  ev_route_selected : string;
  ev_fallback_used : bool;
  ev_risk_level : string;
  ev_status : string;
  ev_duration_ms : Z;
  ev_error_code : option string;
  ev_error_message : option string;
  ev_dry_run : bool;
  ev_inputs : Value;
  ev_outputs : Value
}.

(** [serde_json::to_value(x).unwrap_or_else(|_| json!({}))] *)
Definition to_value_or_empty {A} `{!Codec A} (x : A) : Value :=
  match to_value x with Ok v => v | Err _ => json_obj [] end.

(** [AuditLog::record_start]: the log and the event's id. *)
Definition record_start (fresh : nat -> string) (log : list AuditEvent)
    (task_id step_id : string) (a : Action) : list AuditEvent * nat :=
  let event :=
    {| ev_audit_ref := fresh (length log); ev_task_id := task_id; ev_step_id := step_id;
       ev_domain := domain a; ev_operation := operation a; ev_route_selected := "";
       ev_fallback_used := false; ev_risk_level := to_uppercase (risk_debug (risk_level a));
       ev_status := "PENDING"; ev_duration_ms := 0; ev_error_code := None;
       ev_error_message := None; ev_dry_run := dry_run a; ev_inputs := to_value_or_empty a;
       ev_outputs := json_obj [] |} in
  (log ++ [event], length (log ++ [event]) - 1).

(** [AuditLog::audit_ref_for]; [None] is the panic of an index out of range. *)
Definition audit_ref_for (log : list AuditEvent) (id : nat) : option string :=
  ev_audit_ref <$> log !! id.

Definition complete_event (x : ExecutionResult) (e : AuditEvent) : AuditEvent :=
  {| ev_audit_ref := ev_audit_ref e; ev_task_id := ev_task_id e; ev_step_id := ev_step_id e;
     ev_domain := ev_domain e; ev_operation := ev_operation e;
     ev_route_selected := executor_used x; ev_fallback_used := fallback_used x;
     ev_risk_level := ev_risk_level e; ev_status := to_uppercase (status_debug (status x));
     ev_duration_ms := duration_ms x; ev_error_code := error_code x;
     ev_error_message := error_message x; ev_dry_run := ev_dry_run e;
     ev_inputs := ev_inputs e; ev_outputs := to_value_or_empty x |}.

(** [AuditLog::record_complete] *)
Definition record_complete (log : list AuditEvent) (id : nat) (x : ExecutionResult)
  : list AuditEvent := alter (complete_event x) id log.

Definition block_event (c m : string) (e : AuditEvent) : AuditEvent :=
  {| ev_audit_ref := ev_audit_ref e; ev_task_id := ev_task_id e; ev_step_id := ev_step_id e;
     ev_domain := ev_domain e; ev_operation := ev_operation e;
     ev_route_selected := ev_route_selected e; ev_fallback_used := ev_fallback_used e;
     ev_risk_level := ev_risk_level e; ev_status := to_uppercase (status_debug Blocked);
     ev_duration_ms := ev_duration_ms e; ev_error_code := Some c;
     ev_error_message := Some m; ev_dry_run := ev_dry_run e;
     ev_inputs := ev_inputs e; ev_outputs := ev_outputs e |}.

(** [AuditLog::record_policy_block] *)
Definition record_policy_block (log : list AuditEvent) (id : nat) (c m : string)
  : list AuditEvent := alter (block_event c m) id log.

(** * Runtime *)

Record Runtime := {
  router : Router;
  audit : list AuditEvent;
  approval : option ApprovalContext
}.

Definition runtime_new (rt : Router) (ap : option ApprovalContext) : Runtime :=
  {| router := rt; audit := []; approval := ap |}.

Definition set_audit (log : list AuditEvent) (rt : Runtime) : Runtime :=
  {| router := router rt; audit := log; approval := approval rt |}.

Definition blocked_result (task_id step_id c m ref : string) : ExecutionResult :=
  {| er_task_id := task_id; er_step_id := step_id; executor_used := "none";
     fallback_used := false; status := Blocked; duration_ms := 0; error_code := Some c;
     error_message := Some m; audit_ref := ref; result_payload := json_obj [] |}.

Definition dry_run_result (task_id step_id ref : string) (a : Action) : ExecutionResult :=
  {| er_task_id := task_id; er_step_id := step_id; executor_used := "dry_run";
     fallback_used := false; status := Success; duration_ms := 0; error_code := None;
     error_message := None; audit_ref := ref; result_payload := to_value_or_empty a |}.

Definition set_audit_ref (ref : string) (x : ExecutionResult) : ExecutionResult :=
  {| er_task_id := er_task_id x; er_step_id := er_step_id x; executor_used := executor_used x;
     fallback_used := fallback_used x; status := status x; duration_ms := duration_ms x;
     error_code := error_code x; error_message := error_message x; audit_ref := ref;
     result_payload := result_payload x |}.

Definition step_id_of (idx : nat) : string := "s" +:+ show_nat (idx + 1).

(** The body of the [for] loop of [execute_plan]. *)
Definition execute_step (fresh : nat -> string) (task_id : string) (rt : Runtime) (w : W)
    (idx : nat) (a : Action) : option (Runtime * W * ExecutionResult) :=
  let step_id := step_id_of idx in
  let '(log, event_id) := record_start fresh (audit rt) task_id step_id a in
  match audit_ref_for log event_id with
  | None => None
  | Some ref =>
      match enforce a (approval rt) with
      | Err pv =>
          Some (set_audit (record_policy_block log event_id (code pv) (message pv)) rt, w,
                blocked_result task_id step_id (code pv) (message pv) ref)
      | Ok _ =>
          if dry_run a then
            let x := dry_run_result task_id step_id ref a in
            Some (set_audit (record_complete log event_id x) rt, w, x)
          else
            let '(w, x) := router_execute (router rt) a task_id step_id w in
            let x := set_audit_ref ref x in
            Some (set_audit (record_complete log event_id x) rt, w, x)
      end
  end.

Fixpoint execute_steps (fresh : nat -> string) (task_id : string) (rt : Runtime) (w : W)
    (idx : nat) (l : list Action) (t : TaskResult) : option (Runtime * W * TaskResult) :=
  match l with
  | [] => Some (rt, w, t)
  | a :: l =>
      match execute_step fresh task_id rt w idx a with
      | None => None
      | Some (rt, w, x) => execute_steps fresh task_id rt w (S idx) l (push_result t x)
      end
  end.

(** [Runtime::execute_plan]; [None] stands for a panic. *)
Definition execute_plan (fresh : nat -> string) (rt : Runtime) (plan : TaskPlan) (w : W)
  : option (Runtime * W * TaskResult) :=
  execute_steps fresh (plan_task_id plan) rt w 0 (steps plan)
    (task_result_new (plan_task_id plan)).

End runtime.
Arguments Executor {_} W : assert.
Arguments Router {_} W : assert.
Arguments Runtime {_} W : assert.
