(* ===== verification/RuntimeTheorems.v ===== *)
(** What the router, the audit log and the runtime guarantee. *)
From S2P Require Import Prelude RustString Json Contracts Policy Runtime.

Section runtime_theorems.
Context `{SerdeJson} `{!UnicodeLower} `{!Codec Action} `{!Codec ExecutionResult}.
Context {W : Type}.

(** * Specifications *)

(** The executors an action may use, in the order they are tried. *)
Definition candidates (rt : Router W) (a : Action) : list (Route * Executor W) :=
  r ← allowed_routes a; pair r <$> default [] (executors rt r).

(** Whether an executor takes the action in the current world. *)
Definition takes (e : Executor W) (w : W) (a : Action) : bool :=
  supports e w a && is_available e w.

(** The first success among the candidates, or the last error. *)
Fixpoint first_success (a : Action) (task_id step_id : string) (cs : list (Route * Executor W))
    (last_error : option string) (w : W) : W * ((Route * ExecutionResult) + option string) :=
  match cs with
  | [] => (w, inr last_error)
  | (r, e) :: cs =>
      if takes e w a then
        match execute e a task_id step_id w with
        | (w, Ok x) => (w, inl (r, x))
        | (w, Err err) => first_success a task_id step_id cs (Some err) w
        end
      else first_success a task_id step_id cs last_error w
  end.

Definition no_executor (task_id step_id : string) (fallback : bool) (last_error : option string)
  : ExecutionResult :=
  {| er_task_id := task_id; er_step_id := step_id; executor_used := "none";
     fallback_used := fallback; status := Failed; duration_ms := 0;
     error_code := Some "NO_EXECUTOR_AVAILABLE";
     error_message := Some (default "No executor available for this action" last_error);
     audit_ref := ""; result_payload := json_obj [] |}.

(** Some allowed route but the first has executors registered. *)
Definition has_fallback (rt : Router W) (a : Action) : bool :=
  list_any (fun r => match executors rt r with Some _ => true | None => false end)
    (tail (allowed_routes a)).

(** What a step of a plan does to the world, its result and its audit event;
    [n] is the event's id, [idx] the step's. *)
Record step_spec (fresh : nat -> string) (rt : Router W) (ap : option ApprovalContext)
    (task_id : string) (n idx : nat) (a : Action) (w w' : W) (x : ExecutionResult)
    (e : AuditEvent) : Prop := {
  ss_effect :
    match enforce a ap with
    | Err pv => w' = w /\ x = blocked_result task_id (step_id_of idx) (code pv) (message pv) (fresh n)
    | Ok _ =>
        if dry_run a then w' = w /\ x = dry_run_result task_id (step_id_of idx) (fresh n) a
        else let '(w1, x1) := router_execute rt a task_id (step_id_of idx) w in
             w' = w1 /\ x = set_audit_ref (fresh n) x1
    end;
  ss_ref : audit_ref x = fresh n /\ ev_audit_ref e = fresh n;
  ss_event_ids : ev_task_id e = task_id /\ ev_step_id e = step_id_of idx;
  ss_event_action : ev_domain e = domain a /\ ev_operation e = operation a
    /\ ev_dry_run e = dry_run a;
  ss_event_outcome : ev_status e = to_uppercase (status_debug (status x))
    /\ ev_error_code e = error_code x /\ ev_error_message e = error_message x
    /\ ev_fallback_used e = fallback_used x
}.

(** The steps one after the other, each from the world the last one left. *)
Inductive plan_trace (fresh : nat -> string) (rt : Router W) (ap : option ApprovalContext)
    (task_id : string) : nat -> nat -> W -> list Action -> list ExecutionResult
    -> list AuditEvent -> W -> Prop :=
| trace_nil n idx w : plan_trace fresh rt ap task_id n idx w [] [] [] w
| trace_cons n idx w w1 w2 a l x xs e es :
    step_spec fresh rt ap task_id n idx a w w1 x e ->
    plan_trace fresh rt ap task_id (S n) (S idx) w1 l xs es w2 ->
    plan_trace fresh rt ap task_id n idx w (a :: l) (x :: xs) (e :: es) w2.

(** * Lemmas *)

Lemma try_executors_spec a tid sid r es last w :
  try_executors a tid sid es last w
  = let '(w, o) := first_success a tid sid (pair r <$> es) last w in
    (w, match o with inl (_, x) => inl x | inr e => inr e end).
Proof.
  revert last w. induction es as [|e es IH]; intros last w; cbn; [done|].
  unfold takes. destruct (supports e w a); cbn; [|apply IH].
  destruct (is_available e w); cbn; [|apply IH].
  destruct (execute e a tid sid w) as [w1 [x|err]]; [done|apply IH].
Qed.

Lemma first_success_route a tid sid r es last w w' r' x :
  first_success a tid sid (pair r <$> es) last w = (w', inl (r', x)) -> r' = r.
Proof.
  revert last w. induction es as [|e es IH]; intros last w; cbn; [done|].
  destruct (takes e w a); [|apply IH].
  destruct (execute e a tid sid w) as [w1 [y|err]]; [by intros [= _ -> _]|apply IH].
Qed.

Lemma first_success_app a tid sid c1 c2 last w :
  first_success a tid sid (c1 ++ c2) last w
  = match first_success a tid sid c1 last w with
    | (w, inl y) => (w, inl y)
    | (w, inr last) => first_success a tid sid c2 last w
    end.
Proof.
  revert last w. induction c1 as [|[r e] c1 IH]; intros last w; cbn; [done|].
  destruct (takes e w a); [|apply IH].
  destruct (execute e a tid sid w) as [w1 [y|err]]; [done|apply IH].
Qed.

(** The loop over the routes after the first. *)
Lemma try_routes_spec rt a tid sid idx rs last fb w :
  0 < idx ->
  try_routes rt a tid sid idx rs last fb w
  = match first_success a tid sid (r ← rs; pair r <$> default [] (executors rt r)) last w with
    | (w, inl (r, x)) => (w, set_fallback r true x)
    | (w, inr e) =>
        (w, no_executor tid sid
              (fb || list_any (fun r => match executors rt r with Some _ => true | None => false end) rs) e)
    end.
Proof.
  revert idx last fb w. induction rs as [|r rs IH]; intros idx last fb w Hidx.
  { cbn. by rewrite orb_false_r. }
  cbn [try_routes mbind list_bind]. rewrite list_any_cons.
  destruct (executors rt r) as [es|]; cbn [default].
  - assert ((0 <? idx)%nat = true) as -> by by apply Nat.ltb_lt.
    rewrite (try_executors_spec _ _ _ r), first_success_app. cbn [id].
    destruct (first_success _ _ _ (pair r <$> es) _ _) as [w1 [[r' y]|e]] eqn:E.
    + by apply first_success_route in E as ->.
    + rewrite IH by lia. cbn. by rewrite orb_true_r.
  - rewrite IH by lia. done.
Qed.

Lemma record_start_eq fresh log tid sid a :
  exists e, record_start fresh log tid sid a = (log ++ [e], length log)
    /\ ev_audit_ref e = fresh (length log) /\ ev_task_id e = tid /\ ev_step_id e = sid
    /\ ev_domain e = domain a /\ ev_operation e = operation a /\ ev_dry_run e = dry_run a
    /\ ev_fallback_used e = false.
Proof.
  eexists. unfold record_start. rewrite length_app. cbn.
  replace (length log + 1 - 1) with (length log) by lia. done.
Qed.

Lemma alter_snoc {A} (f : A -> A) (l : list A) x : alter f (length l) (l ++ [x]) = l ++ [f x].
Proof. induction l as [|y l IH]; cbn; [done|]. f_equal. exact IH. Qed.

Lemma execute_step_spec fresh tid rt w idx a :
  exists w' x e,
    execute_step fresh tid rt w idx a = Some (set_audit (audit rt ++ [e]) rt, w', x)
    /\ step_spec fresh (router rt) (approval rt) tid (length (audit rt)) idx a w w' x e.
Proof.
  unfold execute_step.
  destruct (record_start_eq fresh (audit rt) tid (step_id_of idx) a)
    as (e & -> & Hr & Ht & Hs & Hd & Ho & Hdr & Hfb).
  unfold audit_ref_for. rewrite list_lookup_middle by done. cbn [fmap option_fmap option_map]. rewrite Hr.
  destruct (enforce a (approval rt)) as [u|pv] eqn:Ee;
    [destruct (dry_run a) eqn:Edry; [|destruct (router_execute _ _ _ _ w) as [w1 x1] eqn:Er]|].
  all: unfold record_policy_block, record_complete; rewrite alter_snoc.
  all: do 3 eexists; split; [reflexivity|].
  all: split; rewrite ?Ee, ?Edry, ?Er; cbn -[step_id_of]; split_and?; congruence.
Qed.

Lemma execute_steps_spec fresh tid l rt w idx t :
  exists w' xs es,
    execute_steps fresh tid rt w idx l t
    = Some (set_audit (audit rt ++ es) rt, w',
            {| tr_task_id := tr_task_id t; results := results t ++ xs |})
    /\ plan_trace fresh (router rt) (approval rt) tid (length (audit rt)) idx w l xs es w'.
Proof.
  revert rt w idx t. induction l as [|a l IH]; intros rt w idx t.
  { exists w, [], []. rewrite !app_nil_r. destruct rt, t. split; [done|constructor]. }
  destruct (execute_step_spec fresh tid rt w idx a) as (w1 & x & e & Hs & Hspec).
  destruct (IH (set_audit (audit rt ++ [e]) rt) w1 (S idx) (push_result t x))
    as (w2 & xs & es & Hss & Htr).
  exists w2, (x :: xs), (e :: es). cbn [execute_steps]. rewrite Hs, Hss. cbn in *. split.
  - unfold set_audit. cbn. by rewrite <-!app_assoc.
  - econstructor; [exact Hspec|]. by rewrite length_app, Nat.add_comm in Htr.
Qed.

(** Steps that reach the executors without an approval: not dry runs, in no need of an
    approval, and passed by the gate of the policy. *)
Definition free_step (a : Action) : bool :=
  negb (dry_run a) && negb (action_requires_approval a) && is_ok (enforce a None).

(** The world after the free steps alone, each given to the router under its own number. *)
Fixpoint free_effects (rt : Router W) (task_id : string) (idx : nat) (l : list Action) (w : W) : W :=
  match l with
  | [] => w
  | a :: l =>
      free_effects rt task_id (S idx) l (if free_step a then (router_execute rt a task_id (step_id_of idx) w).1 else w)
  end.

(** Without a valid approval the gate lets through what it lets through without any. *)
Lemma enforce_unapproved a ap : ~ valid_approval ap ->
  is_ok (enforce a ap) = negb (action_requires_approval a) && is_ok (enforce a None).
Proof.
  intros Hap. unfold enforce. destruct (check_operation a), (check_service_name a); rewrite ?andb_false_r; try done.
  destruct (action_requires_approval a) eqn:Ha; cbn.
  - destruct (check_risk_gate a ap) as [[]|] eqn:Eg; [|done]. rewrite check_risk_gate_ok in Eg. by destruct (Hap (Eg Ha)).
  - assert (forall ap', check_risk_gate a ap' = Ok tt) as Hg; [|by rewrite !Hg].
    intros ap'. apply check_risk_gate_ok. by rewrite Ha.
Qed.

Lemma plan_trace_free fresh rt ap tid n idx w l xs es w' :
  ~ valid_approval ap -> plan_trace fresh rt ap tid n idx w l xs es w' ->
  w' = free_effects rt tid idx l w
  /\ Forall2 (fun a x => action_requires_approval a = true -> status x = Blocked) l xs.
Proof.
  intros Hap. induction 1 as [|n idx w w1 w2 a l x xs e es Hs _ [IHw IHb]]; [done|].
  pose proof (ss_effect _ _ _ _ _ _ _ _ _ _ _ Hs) as He. pose proof (enforce_unapproved a ap Hap) as Hok.
  cbn [free_effects]. unfold free_step. rewrite <- andb_assoc, <- Hok.
  destruct (enforce a ap) as [u|pv]; cbn [is_ok] in Hok |- *.
  - destruct (dry_run a); cbn [negb andb] in He |- *.
    + destruct He as [-> _]. split; [done|]. constructor; [|done]. intros Ha. by rewrite Ha in Hok.
    + destruct (router_execute rt a tid (step_id_of idx) w) as [w3 x3]. destruct He as [-> _].
      split; [done|]. constructor; [|done]. intros Ha. by rewrite Ha in Hok.
  - rewrite andb_false_r. destruct He as [-> ->]. split; [done|]. by constructor.
Qed.

(** * Properties *)

(** Routing: the router's nested loops give the first success among the
    executors of the allowed routes, in priority order, that support the action
    and are available when their turn comes, each tried once; the result is
    marked as a fallback unless it comes from the first route. When none
    succeeds the step has failed with the last error. *)
Theorem router_execute_first_success (rt : Router W) a tid sid (w : W) :
  router_execute rt a tid sid w
  = match first_success a tid sid (candidates rt a) None w with
    | (w', inl (r, x)) => (w', set_fallback r (negb (bool_decide (r = MiddlewareApi))) x)
    | (w', inr e) => (w', no_executor tid sid (has_fallback rt a) e)
    end.
Proof.
  unfold router_execute, candidates, has_fallback.
  assert (exists rs, allowed_routes a = MiddlewareApi :: rs /\ MiddlewareApi ∉ rs) as (rs & -> & Hrs).
  { unfold allowed_routes, ROUTE_PRIORITY. destruct (_ || _); eexists; (split; [reflexivity|]);
      rewrite !not_elem_of_cons; split_and?; try done; apply not_elem_of_nil. }
  cbn [try_routes mbind list_bind tail].
  assert (Hne : forall last w w' r x, first_success a tid sid (r ← rs; pair r <$> default [] (executors rt r)) last w
    = (w', inl (r, x)) -> r <> MiddlewareApi).
  { intros last w0 w' r x E ->. apply Hrs. clear Hrs. revert last w0 E.
    induction rs as [|r rs IH]; intros last w0; cbn [mbind list_bind]; [done|].
    rewrite first_success_app.
    destruct (first_success _ _ _ (pair r <$> _) _ _) as [w1 [[r1 y]|e]] eqn:E1.
    - intros [= _ E _]. apply first_success_route in E1. subst. left.
    - intros E2. right. by eapply IH. }
  destruct (executors rt MiddlewareApi) as [es|]; cbn [default id Nat.ltb Nat.leb].
  - rewrite (try_executors_spec _ _ _ MiddlewareApi), first_success_app.
    destruct (first_success _ _ _ (pair MiddlewareApi <$> es) _ _) as [w1 [[r' y]|e]] eqn:E.
    + by apply first_success_route in E as ->.
    + rewrite try_routes_spec by lia.
      destruct (first_success _ _ _ _ e w1) as [w2 [[r' y]|e2]] eqn:E2; [|done].
      apply Hne in E2. by rewrite bool_decide_eq_false_2.
  - rewrite try_routes_spec by lia. cbn [fmap list_fmap app].
    destruct (first_success _ _ _ _ None w) as [w2 [[r' y]|e2]] eqn:E2; [|done].
    apply Hne in E2. by rewrite bool_decide_eq_false_2.
Qed.

(** Confinement: what a service or file action does depends only on the
    middleware and command-line executors; the browser and MCP executors cannot
    affect it, whatever they are. *)
Theorem service_files_confined (rt1 rt2 : Router W) a tid sid (w : W) :
  domain a = "service" \/ domain a = "files" ->
  executors rt1 MiddlewareApi = executors rt2 MiddlewareApi ->
  executors rt1 Midcli = executors rt2 Midcli ->
  router_execute rt1 a tid sid w = router_execute rt2 a tid sid w.
Proof.
  intros Hd H1 H2. unfold router_execute.
  assert (allowed_routes a = [MiddlewareApi; Midcli]) as ->
    by (unfold allowed_routes; by destruct Hd as [-> | ->]).
  cbn [try_routes]. by rewrite H1, H2.
Qed.

(** C4. Execution of a plan: it always ends with one result and one new audit
    event per step, in order, and earlier events untouched. Each step is blocked
    without any effect when the policy gate refuses it, reported without any
    effect when it is a dry run, and given to the router otherwise; its audit
    event has the result's reference, status and error. *)
Theorem execute_plan_trace fresh (rt : Runtime W) plan w :
  exists w' xs es,
    execute_plan fresh rt plan w
    = Some ({| router := router rt; audit := audit rt ++ es; approval := approval rt |}, w',
            {| tr_task_id := plan_task_id plan; results := xs |})
    /\ length xs = length (steps plan) /\ length es = length (steps plan)
    /\ plan_trace fresh (router rt) (approval rt) (plan_task_id plan) (length (audit rt)) 0
         w (steps plan) xs es w'.
Proof.
  destruct (execute_steps_spec fresh (plan_task_id plan) (steps plan) rt w 0
    (task_result_new (plan_task_id plan))) as (w' & xs & es & He & Ht).
  exists w', xs, es. split; [exact He|].
  assert (length xs = length (steps plan) /\ length es = length (steps plan)) as [? ?]; [|done].
  clear He. induction Ht; cbn; naive_solver.
Qed.

(** C22. Without a valid approval, whatever the plan, the world becomes what its free
    steps alone make of it, each asked of the router under its own number: the steps
    that are dry runs, need an approval or break the policy change nothing, neither in
    the world nor in what the free ones meet; and every step that needs an approval is
    blocked. *)
Theorem unapproved_plan_has_no_effect fresh (rt : Runtime W) plan w rt' w' t :
  execute_plan fresh rt plan w = Some (rt', w', t) ->
  ~ valid_approval (approval rt) ->
  w' = free_effects (router rt) (plan_task_id plan) 0 (steps plan) w
  /\ Forall2 (fun a x => action_requires_approval a = true -> status x = Blocked)
       (steps plan) (results t).
Proof.
  intros He Hap. destruct (execute_steps_spec fresh (plan_task_id plan) (steps plan) rt w 0
    (task_result_new (plan_task_id plan))) as (w1 & xs & es & He1 & Ht).
  unfold execute_plan in He. rewrite He1 in He. injection He as <- <- <-. cbn.
  by eapply plan_trace_free.
Qed.

End runtime_theorems.

(** * The theorems at concrete values *)

(** The world counts the executions; both executors succeed. *)
Definition sample_executor (r : Route) : @Executor jv_json nat :=
  {| route := r; supports := fun _ _ => true; is_available := fun _ => true;
     execute := fun _ task_id step_id w =>
       (S w, Ok {| er_task_id := task_id; er_step_id := step_id; executor_used := "";
                   fallback_used := false; status := Success; duration_ms := 3;
                   error_code := None; error_message := None; audit_ref := "";
                   result_payload := (JNull : @Value jv_json) |}) |}.

Definition sample_router : @Router jv_json nat :=
  register router_new (sample_executor Midcli).

Definition sample_codec {A} : @Codec jv_json A :=
  @Build_Codec jv_json A (fun _ => Ok (JNull : @Value jv_json)) (fun _ => Err "unsupported").

Definition sample_action (d o : string) : @Action jv_json :=
  {| domain := d; operation := o;
     resource := (JObj [("service_name", JStr "nginx")] : @Value jv_json);
     args := (JNull : @Value jv_json);
     risk_level := Low; requires_approval := false; dry_run := false |}.

Lemma service_files_confined_witness :
  @router_execute jv_json nat sample_router (sample_action "service" "status") "t" "s1" 0
  = @router_execute jv_json nat (register sample_router (sample_executor Mcp))
      (sample_action "service" "status") "t" "s1" 0.
Proof.
  apply (@service_files_confined jv_json nat); [left; reflexivity|reflexivity|reflexivity].
Defined.

Definition sample_runtime : @Runtime jv_json nat := runtime_new sample_router None.

(** A restart, which needs an approval, between two questions that need none. *)
Definition sample_plan : @TaskPlan jv_json :=
  {| plan_task_id := "t"; goal := "";
     steps := [sample_action "service" "status"; sample_action "service" "restart"; sample_action "service" "status"] |}.

Definition sample_run : option (@Runtime jv_json nat * nat * @TaskResult jv_json) :=
  @execute_plan jv_json ascii_unicode_lower sample_codec sample_codec nat (fun _ => "ref")
    sample_runtime sample_plan 7.

Lemma unapproved_plan_has_no_effect_witness :
  exists rt' w' t, sample_run = Some (rt', w', t) /\ w' = 9.
Proof.
  assert (match sample_run with Some _ => true | None => false end = true) as Hs
    by (vm_compute; reflexivity).
  destruct sample_run as [[[rt' w'] t]|] eqn:E; [|discriminate Hs].
  exists rt', w', t. split; [reflexivity|].
  refine (proj1 (@unapproved_plan_has_no_effect jv_json ascii_unicode_lower sample_codec
    sample_codec nat (fun _ => "ref") sample_runtime sample_plan 7 rt' w' t E _)).
  intros (ctx & tok & Hc & _). discriminate Hc.
Defined.
