(* ===== verification/ToolLoop.v ===== *)
(** The tool loop, [src/orchestrator/tool_loop.rs], and the channels,
    [src/orchestrator/channel.rs].

    The planner ([resolve_fn]) and the tools act on the world [W], threaded in
    the order of the calls; [clock] is [Instant::now], in nanoseconds, which may
    find the world later than the last reading. *)
From S2P Require Import Prelude RustString Json.
Local Open Scope Z_scope.

Section tool_loop.
Context `{SerdeJson} {W : Type} (clock : W -> W * Z).

Inductive ToolCall :=
| Invoke (tool : string) (args : Value)
| FinalAnswer (answer : string).

Record ToolOutput := {
  out_tool : string;
  out_ok : bool;
  out_data : Value;
  out_error : option string;
  out_duration_ms : Z
}.

Record LoopStep := {
  iteration : nat;
  call : ToolCall;
  output : option ToolOutput
}.

Record ToolLoopTrace := {
  finished : bool;
  iterations_used : nat;
  total_duration_ms : Z;
  steps : list LoopStep;
  final_answer : option string
}.

(** The trait [Tool]. *)
Record Tool := {
  tool_name : string;
  description : string;
  parameters_schema : Value;
  invoke : Value -> W -> W * ToolOutput
}.

Record ToolRegistry := { tools : gmap string Tool }.

Definition registry_new : ToolRegistry := {| tools := ∅ |}.

Definition register (t : Tool) (r : ToolRegistry) : ToolRegistry :=
  {| tools := <[ tool_name t := t ]> (tools r) |}.

Definition registry_get (r : ToolRegistry) (name : string) : option Tool := tools r !! name.

(** The order of the schemas is the hash map's, any order. *)
Definition list_schemas (r : ToolRegistry) : list Value :=
  (fun kv => json_obj [("name", json_str (tool_name kv.2));
                       ("description", json_str (description kv.2));
                       ("parameters", parameters_schema kv.2)]) <$> map_to_list (tools r).

Record ToolLoopConfig := {
  max_iterations : nat;
  timeout_ms : Z
}.

(** [Default for ToolLoopConfig] *)
Definition tool_loop_config_default : ToolLoopConfig :=
  {| max_iterations := 8; timeout_ms := 30000 |}.

(** [elapsed().as_millis() as u64] *)
Definition elapsed_ms (since now : Z) : Z := wrap64 (Z.max 0 (now - since) / 1000000).

Definition set_duration (d : Z) (o : ToolOutput) : ToolOutput :=
  {| out_tool := out_tool o; out_ok := out_ok o; out_data := out_data o;
     out_error := out_error o; out_duration_ms := d |}.

Definition unknown_tool (tool : string) : ToolOutput :=
  {| out_tool := tool; out_ok := false; out_data := json_null;
     out_error := Some ("unknown tool: " +:+ tool); out_duration_ms := 0 |}.

(** The [Invoke] arm of the loop. *)
Definition run_tool (r : ToolRegistry) (tool : string) (args : Value) (w : W) : W * ToolOutput :=
  let '(w, t0) := clock w in
  match registry_get r tool with
  | Some t =>
      let '(w, out) := invoke t args w in
      let '(w, t1) := clock w in
      (w, set_duration (elapsed_ms t0 t1) out)
  | None => (w, unknown_tool tool)
  end.

(** The [for] loop: [n] iterations are left, and [i] have been started. *)
Fixpoint loop (r : ToolRegistry) (timeout start : Z) (resolve : list LoopStep -> W -> W * ToolCall)
    (n i : nat) (acc : list LoopStep) (w : W) : W * list LoopStep * option string :=
  match n with
  | O => (w, acc, None)
  | S n =>
      let '(w, now) := clock w in
      if timeout <=? Z.max 0 (now - start) then (w, acc, None) else
      let '(w, c) := resolve acc w in
      match c with
      | FinalAnswer answer =>
          (w, acc ++ [{| iteration := i; call := c; output := None |}], Some answer)
      | Invoke tool args =>
          let '(w, out) := run_tool r tool args w in
          loop r timeout start resolve n (S i)
            (acc ++ [{| iteration := i; call := c; output := Some out |}]) w
      end
  end.

(** [ToolLoopEngine::run] *)
Definition run (r : ToolRegistry) (cfg : ToolLoopConfig)
    (resolve : list LoopStep -> W -> W * ToolCall) (w : W) : W * ToolLoopTrace :=
  let '(w, start) := clock w in
  let timeout := timeout_ms cfg * 1000000 in
  let '(w, acc, answer) := loop r timeout start resolve (max_iterations cfg) 0 [] w in
  let '(w, now) := clock w in
  (w, {| finished := match answer with Some _ => true | None => false end;
         iterations_used := length acc; total_duration_ms := elapsed_ms start now;
         steps := acc; final_answer := answer |}).

(** * Specification *)

(** A step that is not the last one of a finished loop: an invocation with its
    output, an error if the tool is not registered. *)
Definition invocation_ok (r : ToolRegistry) (s : LoopStep) : Prop :=
  exists tool args out, call s = Invoke tool args /\ output s = Some out
    /\ (registry_get r tool = None -> out = unknown_tool tool).

Definition answer_step (s : LoopStep) (a : string) : Prop :=
  call s = FinalAnswer a /\ output s = None.

(** How the steps of a loop end: with the answer, with the iterations used up, or
    with a clock reading at which the budget was spent. *)
Definition loop_end (cfg : ToolLoopConfig) (start : Z) (l : list LoopStep) (a : option string) : Prop :=
  match a with
  | Some ans => exists s, last l = Some s /\ answer_step s ans
  | None => length l = max_iterations cfg
            \/ exists w, timeout_ms cfg * 1000000 <= Z.max 0 ((clock w).2 - start)
  end.

Lemma loop_spec r timeout start resolve n i acc w w' l a :
  loop r timeout start resolve n i acc w = (w', l, a) -> length acc = i ->
  exists new, l = acc ++ new /\ (length new <= n)%nat
    /\ (forall j s, new !! j = Some s -> iteration s = (i + j)%nat)
    /\ match a with
       | Some ans => exists invs s, new = invs ++ [s] /\ answer_step s ans
                       /\ Forall (invocation_ok r) invs
       | None => Forall (invocation_ok r) new
                 /\ (length new = n \/ exists w1, timeout <= Z.max 0 ((clock w1).2 - start))
       end.
Proof.
  revert i acc w. induction n as [|n IH]; intros i acc w; cbn [loop].
  { intros [= _ <- <-] _. exists []. rewrite app_nil_r. split_and!; try done; by left. }
  destruct (clock w) as [w1 now] eqn:Ec. destruct (Z.leb_spec timeout (Z.max 0 (now - start))) as [Hle|_].
  { intros [= _ <- <-] _. exists []. rewrite app_nil_r. split_and!; cbn; try done; [lia|].
    right. exists w. by rewrite Ec. }
  destruct (resolve acc w1) as [w2 [tool args|ans]].
  - destruct (run_tool r tool args w2) as [w3 out] eqn:Er. intros Hl Hi.
    apply IH in Hl as (new & -> & Hn & Hit & Ha); [|rewrite length_app; cbn; lia].
    set (s := {| iteration := i; call := _; output := _ |}).
    assert (invocation_ok r s) as Hs.
    { exists tool, args, out. split_and!; try done. intros Hg. unfold run_tool in Er.
      rewrite Hg in Er. destruct (clock w2). congruence. }
    exists (s :: new). rewrite <-app_assoc. split_and!; [done|cbn; lia| |].
    + intros [|j] s'; cbn; [intros [= <-]; cbn; lia|]. intros Hj. rewrite (Hit _ _ Hj). lia.
    + destruct a as [ans|].
      * destruct Ha as (invs & s' & -> & ? & ?). exists (s :: invs), s'. split_and!; try done. by constructor.
      * destruct Ha as [? [?|?]]; (split; [by constructor|]); [left; cbn; lia|by right].
  - intros [= _ <- <-] _. eexists [_]. split_and!; [done|cbn; lia| |].
    + intros [|j] s'; cbn; [intros [= <-]; cbn; lia|done].
    + by exists [], {| iteration := i; call := FinalAnswer ans; output := None |}.
Qed.

(** The tool loop always ends, within its iteration limit: its steps are
    numbered from zero, every one but a final answer is an invocation with its
    output (the error [unknown tool] when it is not registered), the trace is
    finished exactly when its last step is the final answer it reports, and a
    loop that is not finished used all its iterations or ran out of time. *)
Theorem run_trace_ok r cfg resolve w :
  let '(w', t) := run r cfg resolve w in
  iterations_used t = length (steps t) /\ (length (steps t) <= max_iterations cfg)%nat
  /\ (forall j s, steps t !! j = Some s -> iteration s = j)
  /\ (finished t = true <-> exists a, final_answer t = Some a)
  /\ loop_end cfg (clock w).2 (steps t) (final_answer t)
  /\ Forall (invocation_ok r) (if finished t then removelast (steps t) else steps t).
Proof.
  unfold run. destruct (clock w) as [w1 start]. cbn [snd].
  destruct (loop _ _ _ _ _ _ _ _) as [[w2 l] a] eqn:El. destruct (clock w2) as [w3 now].
  apply loop_spec in El as (new & -> & Hn & Hit & Ha); [|done]. cbn in *.
  split_and!; try done; [destruct a; naive_solver|..].
  - destruct a as [ans|]; cbn.
    + destruct Ha as (invs & s & -> & Hs & _). exists s. by rewrite last_snoc.
    + by destruct Ha.
  - destruct a as [ans|]; [|by destruct Ha].
    destruct Ha as (invs & s & -> & _ & Hf). by rewrite removelast_last.
Qed.

End tool_loop.

(** * Channels *)

Section channels.
Context `{SerdeJson}.

Record InboundMessage := {
  in_channel : string;
  sender : string;
  in_text : string;
  in_metadata : Value
}.

Record OutboundMessage := {
  out_channel : string;
  out_text : string;
  out_metadata : Value
}.

(** [HarborBeaconChannel], the buffers behind its two mutexes. *)
Record HarborBeaconChannel := {
  inbound_buf : list InboundMessage;
  outbound_buf : list OutboundMessage
}.

Definition channel_new : HarborBeaconChannel := {| inbound_buf := []; outbound_buf := [] |}.

Definition inject (m : InboundMessage) (c : HarborBeaconChannel) : HarborBeaconChannel :=
  {| inbound_buf := inbound_buf c ++ [m]; outbound_buf := outbound_buf c |}.

Definition drain_outbound (c : HarborBeaconChannel) : HarborBeaconChannel * list OutboundMessage :=
  ({| inbound_buf := inbound_buf c; outbound_buf := [] |}, outbound_buf c).

Definition recv (c : HarborBeaconChannel) : HarborBeaconChannel * option InboundMessage :=
  match inbound_buf c with
  | [] => (c, None)
  | m :: l => ({| inbound_buf := l; outbound_buf := outbound_buf c |}, Some m)
  end.

Definition send (m : OutboundMessage) (c : HarborBeaconChannel) : HarborBeaconChannel :=
  {| inbound_buf := inbound_buf c; outbound_buf := outbound_buf c ++ [m] |}.

(** [CliChannel::recv]: [read] is what [read_line] gives, the number of bytes and
    the buffer, or an error. *)
Definition cli_recv (sender_name : string) (read : result string (nat * string))
  : option InboundMessage :=
  match read with
  | Ok (0%nat, _) => None
  | Ok (_, buf) =>
      let text := trim buf in
      if is_empty text then None
      else Some {| in_channel := "cli"; sender := sender_name; in_text := text;
                   in_metadata := json_null |}
  | Err _ => None
  end.

(** The operations of a channel, as its threads interleave them. *)
Inductive ChannelOp :=
| OpInject (m : InboundMessage)
| OpSend (m : OutboundMessage)
| OpRecv
| OpDrain.

(** What was received and drained, in order. *)
Fixpoint run_channel (l : list ChannelOp) (c : HarborBeaconChannel)
  : HarborBeaconChannel * list InboundMessage * list OutboundMessage :=
  match l with
  | [] => (c, [], [])
  | OpInject m :: l => run_channel l (inject m c)
  | OpSend m :: l => run_channel l (send m c)
  | OpRecv :: l =>
      let '(c, m) := recv c in
      let '(c, ins, outs) := run_channel l c in
      (c, match m with Some m => m :: ins | None => ins end, outs)
  | OpDrain :: l =>
      let '(c, ms) := drain_outbound c in
      let '(c, ins, outs) := run_channel l c in
      (c, ins, ms ++ outs)
  end.

Definition injected (o : ChannelOp) : option InboundMessage :=
  match o with OpInject m => Some m | _ => None end.
Definition sent (o : ChannelOp) : option OutboundMessage :=
  match o with OpSend m => Some m | _ => None end.

(** The buffered channel is two queues: under any interleaving of its
    operations the messages received, then those still buffered, are the ones
    injected, each once and in order, and likewise the ones sent. *)
Theorem channel_fifo l c :
  let '(c', ins, outs) := run_channel l c in
  ins ++ inbound_buf c' = inbound_buf c ++ omap injected l
  /\ outs ++ outbound_buf c' = outbound_buf c ++ omap sent l.
Proof.
  revert c. induction l as [|[m|m| |] l IH]; intros c; cbn [run_channel omap list_omap injected sent].
  - cbn. by rewrite !app_nil_r.
  - specialize (IH (inject m c)). destruct (run_channel l _) as [[c' ins] outs]. cbn in *.
    by rewrite <-app_assoc in IH.
  - specialize (IH (send m c)). destruct (run_channel l _) as [[c' ins] outs]. cbn in *.
    by rewrite <-app_assoc in IH.
  - unfold recv. destruct (inbound_buf c) as [|m ms] eqn:Ec.
    + specialize (IH c). destruct (run_channel l c) as [[c' ins] outs]. by rewrite Ec in IH.
    + specialize (IH {| inbound_buf := ms; outbound_buf := outbound_buf c |}).
      destruct (run_channel l _) as [[c' ins] outs]. cbn in *. naive_solver congruence.
  - specialize (IH (drain_outbound c).1). cbn in *. destruct (run_channel l _) as [[c' ins] outs].
    cbn in *. destruct IH as [IH1 IH2]. split; [done|]. by rewrite <-app_assoc, IH2.
Qed.

End channels.
