(* ===== verification/Access.v ===== *)
(** Who may do what: permission bindings, [src/control_plane/access.rs], and the
    authorisation of requests, [src/runtime/access_control.rs], over the user
    data of [src/control_plane/users.rs] and [src/control_plane/auth.rs]. *)
From S2P Require Import Prelude RustString Json.
From Stdlib Require Import Ascii.

Inductive ScopeKind := ScopePlatform | ScopeWorkspace | ScopeRoom | ScopeResource.
Inductive PermissionEffect := Allow | Deny.
Inductive RoleKind := Owner | Admin | Operator | Member | Viewer | Guest.
Inductive WorkspaceType := Home | Lab | Managed.
Inductive WorkspaceStatus := WorkspaceActive | WorkspaceSuspended | WorkspaceArchived.
Inductive UserStatus := UserActive | UserInvited | UserDisabled.
Inductive MembershipStatus := MembershipActive | MembershipPending | MembershipRevoked.
Inductive AuthSource := Local | HarborOs | ImChannel.

Global Instance MembershipStatus_eq_dec : EqDecision MembershipStatus.
Proof. solve_decision. Defined.
Global Instance WorkspaceStatus_eq_dec : EqDecision WorkspaceStatus.
Proof. solve_decision. Defined.

Inductive AccessAction :=
| AdminReadState
| AdminManage
| CameraView
| CameraOperate
| ApprovalReview.

Definition permission_key (a : AccessAction) : string :=
  match a with
  | AdminReadState => "admin.read_state"
  | AdminManage => "admin.manage"
  | CameraView => "camera.view"
  | CameraOperate => "camera.operate"
  | ApprovalReview => "approval.review"
  end.

Definition label (a : AccessAction) : string :=
  match a with
  | AdminReadState => "查看控制台状态"
  | AdminManage => "修改控制台配置"
  | CameraView => "查看摄像头画面"
  | CameraOperate => "执行摄像头操作"
  | ApprovalReview => "处理审批任务"
  end.

Definition role_kind_key (r : RoleKind) : string :=
  match r with
  | Owner => "owner"
  | Admin => "admin"
  | Operator => "operator"
  | Member => "member"
  | Viewer => "viewer"
  | Guest => "guest"
  end.

Record Membership := {
  membership_id : string;
  m_workspace_id : string;
  m_user_id : string;
  m_role_kind : RoleKind;
  m_status : MembershipStatus;
  granted_by_user_id : option string;
  granted_at : option string
}.

Record AccessPrincipal := {
  p_workspace_id : string;
  p_user_id : string;
  p_display_name : string;
  p_role_kind : RoleKind
}.

Record AccessIdentityHints := {
  h_user_id : option string;
  h_open_id : option string;
  h_harboros_user_id : option string
}.

(** [.as_deref().map(str::trim).filter(|value| !value.is_empty())] *)
Definition hint (o : option string) : option string := o ≫= non_blank.

(** [AccessIdentityHints::is_empty] *)
Definition hints_is_empty (h : AccessIdentityHints) : bool :=
  match hint (h_user_id h), hint (h_open_id h), hint (h_harboros_user_id h) with
  | None, None, None => true
  | _, _, _ => false
  end.

Section access.
Context `{SerdeJson} `{!UnicodeLower}.

Record PermissionBinding := {
  permission_binding_id : string;
  b_workspace_id : string;
  b_role_kind : string;
  scope_kind : ScopeKind;
  resource_pattern : string;
  action_pattern : string;
  effect : PermissionEffect;
  constraints : Value
}.

Record Workspace := {
  workspace_id : string;
  workspace_type : WorkspaceType;
  w_display_name : string;
  timezone : string;
  locale : string;
  owner_user_id : string;
  w_status : WorkspaceStatus;
  settings : Value
}.

Record UserAccount := {
  user_id : string;
  display_name : string;
  email : option string;
  phone : option string;
  u_status : UserStatus;
  default_workspace_id : option string;
  preferences : Value
}.

Record IdentityBinding := {
  identity_id : string;
  i_user_id : string;
  auth_source : AuthSource;
  provider_key : string;
  external_user_id : string;
  external_union_id : option string;
  external_chat_id : option string;
  profile_snapshot : Value;
  last_seen_at : option string
}.

(** The part of [AdminConsoleState] authorisation reads, its [platform]. *)
Record Platform := {
  workspaces : list Workspace;
  users : list UserAccount;
  memberships : list Membership;
  identity_bindings : list IdentityBinding;
  permission_bindings : list PermissionBinding
}.

(** * Permission bindings *)

Definition normalize_token (s : string) : string :=
  replace_char " "%char "_"%char (replace_char "-"%char "_"%char (to_lowercase (trim s))).

Definition pattern_matches (pattern value : string) : bool :=
  let pattern := normalize_token pattern in
  if is_empty pattern || (pattern =? "*")%string then true else
  match strip_suffix_char "*"%char pattern with
  | Some prefix => starts_with prefix value
  | None => (pattern =? value)%string
  end.

(** The loop of [action_allowed] over the bindings that apply. *)
Fixpoint effects_allow (effects : list PermissionEffect) (allowed : bool) : bool :=
  match effects with
  | [] => allowed
  | Allow :: l => effects_allow l true
  | Deny :: _ => false
  end.

(** The filter of [action_allowed]. *)
Definition binding_applies (workspace_id role_kind resource action : string)
    (b : PermissionBinding) : bool :=
  (normalize_token (b_workspace_id b) =? workspace_id)%string
  && (normalize_token (b_role_kind b) =? role_kind)%string
  && pattern_matches (resource_pattern b) resource
  && pattern_matches (action_pattern b) action.

Definition action_allowed (bindings : list PermissionBinding)
    (workspace_id role_kind resource action : string) : bool :=
  effects_allow
    (effect <$> List.filter (binding_applies (normalize_token workspace_id)
       (normalize_token role_kind) (normalize_token resource) (normalize_token action)) bindings)
    false.

(** * Authorisation *)

Local Open Scope rust_scope.

Definition active_workspace (st : Platform) : result string Workspace :=
  match list_find (fun w => bool_decide (w_status w = WorkspaceActive)) (workspaces st) with
  | Some w => Ok w
  | None => ok_or "当前未配置可用 workspace。" (head (workspaces st))
  end.

Definition resolve_user_id (st : Platform) (w : Workspace) (hints : AccessIdentityHints)
    (allow_local_owner_fallback : bool) : result string string :=
  match hint (h_user_id hints) with
  | Some u => Ok u
  | None =>
      match hint (h_open_id hints) with
      | Some o =>
          ok_or ("未找到 open_id=" +:+ o +:+ " 对应的绑定身份。")
            (i_user_id <$> list_find (fun b => (external_user_id b =? o)%string)
                             (identity_bindings st))
      | None =>
          match hint (h_harboros_user_id hints) with
          | Some u => Ok u
          | None =>
              if allow_local_owner_fallback then Ok (owner_user_id w)
              else Err "当前请求缺少用户身份，无法校验访问权限。"
          end
      end
  end.

Definition display_name_for_user (us : list UserAccount) (uid : string) : string :=
  default uid (display_name <$> list_find (fun u => (user_id u =? uid)%string) us).

Definition no_permission (a : AccessAction) (role_key : string) : string :=
  "当前身份没有" +:+ label a +:+ "权限（role=" +:+ role_key +:+ "）。".

Definition is_membership (w : Workspace) (uid : string) (m : Membership) : bool :=
  (m_workspace_id m =? workspace_id w)%string && (m_user_id m =? uid)%string
  && bool_decide (m_status m = MembershipActive).

Definition role_allowed (st : Platform) (w : Workspace) (r : RoleKind) (a : AccessAction)
    (resource : string) : bool :=
  action_allowed (permission_bindings st) (workspace_id w) (role_kind_key r) resource
    (permission_key a).

Definition authorize_access (st : Platform) (hints : AccessIdentityHints) (a : AccessAction)
    (resource : string) (allow_local_owner_fallback : bool) : result string AccessPrincipal :=
  w <-? active_workspace st;
  uid <-? resolve_user_id st w hints allow_local_owner_fallback;
  m <-? ok_or ("当前身份尚未加入工作空间 " +:+ w_display_name w +:+ "。")
          (list_find (is_membership w uid) (memberships st));
  if negb (role_allowed st w (m_role_kind m) a resource) then
    Err (no_permission a (role_kind_key (m_role_kind m)))
  else Ok {| p_workspace_id := workspace_id w; p_user_id := m_user_id m;
             p_display_name := display_name_for_user (users st) (m_user_id m);
             p_role_kind := m_role_kind m |}.

Definition authorize_authenticated_principal (st : Platform) (p : AccessPrincipal)
    (a : AccessAction) (resource : string) : result string AccessPrincipal :=
  w <-? active_workspace st;
  if negb (p_workspace_id p =? workspace_id w)%string then
    Err ("当前身份不属于活动工作空间 " +:+ w_display_name w +:+ "。")
  else if negb (role_allowed st w (p_role_kind p) a resource) then
    Err (no_permission a (role_kind_key (p_role_kind p)))
  else Ok p.

(** * Specification *)

(** A binding speaks about a request: for the workspace and role, with patterns
    that cover the resource and the action. *)
Definition covers (ws role resource action : string) (b : PermissionBinding) : Prop :=
  normalize_token (b_workspace_id b) = normalize_token ws
  /\ normalize_token (b_role_kind b) = normalize_token role
  /\ pattern_matches (resource_pattern b) (normalize_token resource) = true
  /\ pattern_matches (action_pattern b) (normalize_token action) = true.

(** Deny overrides allow, and nothing is allowed by default. *)
Definition permitted (bs : list PermissionBinding) (ws role resource action : string) : Prop :=
  (exists b, b ∈ bs /\ covers ws role resource action b /\ effect b = Allow)
  /\ forall b, b ∈ bs -> covers ws role resource action b -> effect b <> Deny.

(** * Lemmas *)

Lemma effects_allow_true l b :
  effects_allow l b = true <-> (b = true \/ Allow ∈ l) /\ Deny ∉ l.
Proof.
  revert b. induction l as [|[] l IH]; intros b; cbn.
  - split; [intros ->; split; [auto|apply not_elem_of_nil]|].
    intros [[?|E] _]; [done|by apply not_elem_of_nil in E].
  - rewrite IH, elem_of_cons, not_elem_of_cons. naive_solver.
  - rewrite not_elem_of_cons. naive_solver.
Qed.

Lemma binding_applies_covers ws role r a b :
  binding_applies (normalize_token ws) (normalize_token role) (normalize_token r)
    (normalize_token a) b = true <-> covers ws role r a b.
Proof. unfold binding_applies, covers. rewrite !andb_true_iff, !String.eqb_eq. naive_solver. Qed.

Lemma permitted_spec bs ws role r a :
  action_allowed bs ws role r a = true <-> permitted bs ws role r a.
Proof.
  unfold action_allowed, permitted. rewrite effects_allow_true.
  setoid_rewrite list_elem_of_fmap. setoid_rewrite elem_of_list_filter.
  setoid_rewrite binding_applies_covers. split.
  - intros [[?|(b & E & Hb & Hc)] Hd]; [done|]. split; [by exists b|].
    intros b' Hb' Hc' E'. apply Hd. by exists b'.
  - intros [(b & Hb & Hc & E) Hd]. split; [right; by exists b|].
    intros (b' & E' & Hb' & Hc'). by apply (Hd b').
Qed.

Lemma active_workspace_in st w : active_workspace st = Ok w -> w ∈ workspaces st.
Proof.
  unfold active_workspace. destruct (list_find _ _) as [w'|] eqn:E.
  - intros [= <-]. by apply list_find_some in E as [? _].
  - destruct (workspaces st) as [|w' l]; [done|]. intros [= <-]. left.
Qed.

(** * Properties *)

(** Access decisions are deny-overrides and default-deny: an action is
    allowed exactly when some binding for the workspace and role that covers it
    allows it and none denies it; so the order of the bindings is irrelevant. *)
Theorem action_allowed_iff bs ws role r a :
  (action_allowed bs ws role r a = true <-> permitted bs ws role r a)
  /\ forall bs', bs ≡ₚ bs' -> action_allowed bs' ws role r a = action_allowed bs ws role r a.
Proof.
  split; [apply permitted_spec|]. intros bs' Hp.
  apply eq_true_iff_eq. rewrite !permitted_spec. unfold permitted. by setoid_rewrite Hp.
Qed.

(** C17. Authorisation is sound: a principal is returned only for an active
    membership of the selected workspace that belongs to the identity the hints
    resolve to, with that membership's role, and only when the bindings permit
    that role the action; with no usable hint and no fallback there is none. *)
Theorem authorize_access_sound st hints a resource fallback p :
  authorize_access st hints a resource fallback = Ok p ->
  exists w m, w ∈ workspaces st /\ m ∈ memberships st
  /\ resolve_user_id st w hints fallback = Ok (p_user_id p)
  /\ p_workspace_id p = workspace_id w /\ m_workspace_id m = workspace_id w
  /\ m_user_id m = p_user_id p /\ m_role_kind m = p_role_kind p /\ m_status m = MembershipActive
  /\ permitted (permission_bindings st) (workspace_id w) (role_kind_key (p_role_kind p)) resource
       (permission_key a)
  /\ (fallback = true \/ hints_is_empty hints = false).
Proof.
  unfold authorize_access. intros Ha. res_inv Ha.
  destruct (role_allowed _ _ _ _ _) eqn:Er; cbn in Ha; [|done]. injection Ha as <-. cbn.
  destruct (list_find _ _) as [m|] eqn:Em; [|done]. cbn in E1. injection E1 as <-.
  apply list_find_some in Em as [Hin Hm]. unfold is_membership in Hm. bool_facts. subst.
  exists a0, m. unfold role_allowed in Er. rewrite permitted_spec in Er.
  split_and!; try done; [by apply active_workspace_in|].
  unfold resolve_user_id in E0. unfold hints_is_empty.
  destruct (hint (h_user_id hints)); [by right|]. destruct (hint (h_open_id hints)); [by right|].
  destruct (hint (h_harboros_user_id hints)); [by right|]. destruct fallback; [by left|done].
Qed.

(** The two ways in agree: a principal that [authorize_access] returns
    passes [authorize_authenticated_principal] for an action and resource
    exactly when a fresh authorisation with the same hints does. *)
Theorem authorize_agree st hints a resource fallback p a' resource' :
  authorize_access st hints a resource fallback = Ok p ->
  authorize_authenticated_principal st p a' resource'
  = authorize_access st hints a' resource' fallback.
Proof.
  unfold authorize_access, authorize_authenticated_principal. intros Ha.
  destruct (active_workspace st) as [w|]; cbn in *; [|done].
  destruct (resolve_user_id st w hints fallback) as [uid|]; cbn in *; [|done].
  destruct (list_find _ _) as [m|]; cbn in *; [|done].
  destruct (role_allowed st w (m_role_kind m) a resource); cbn in Ha; [|done].
  injection Ha as <-. cbn. by rewrite String.eqb_refl.
Qed.

End access.

(** * At concrete values *)

Definition sample_platform : @Platform jv_json :=
  {| workspaces := [{| workspace_id := "home"; workspace_type := Home; w_display_name := "Home";
       timezone := "UTC"; locale := "en"; owner_user_id := "ada"; w_status := WorkspaceActive;
       settings := (JNull : @Value jv_json) |}];
     users := [];
     memberships := [{| membership_id := "m1"; m_workspace_id := "home"; m_user_id := "ada";
       m_role_kind := Owner; m_status := MembershipActive; granted_by_user_id := None;
       granted_at := None |}];
     identity_bindings := [];
     permission_bindings := [{| permission_binding_id := "b1"; b_workspace_id := "home";
       b_role_kind := "owner"; scope_kind := ScopeWorkspace; resource_pattern := "camera-*";
       action_pattern := "*"; effect := Allow; constraints := (JNull : @Value jv_json) |}] |}.

Definition sample_hints : AccessIdentityHints :=
  {| h_user_id := Some " ada "; h_open_id := None; h_harboros_user_id := None |}.

Definition sample_principal : AccessPrincipal :=
  {| p_workspace_id := "home"; p_user_id := "ada"; p_display_name := "ada";
     p_role_kind := Owner |}.

Lemma authorize_access_sound_witness : exists w m,
  w ∈ workspaces sample_platform /\ m ∈ memberships sample_platform
  /\ m_user_id m = "ada" /\ m_workspace_id m = workspace_id w.
Proof.
  destruct (@authorize_access_sound jv_json ascii_unicode_lower sample_platform sample_hints
    CameraView "Camera-7" false sample_principal) as (w & m & H1 & H2 & _ & _ & H3 & H4 & _).
  { vm_compute. reflexivity. }
  exists w, m. split; [exact H1|]. split; [exact H2|]. split; [exact H4|exact H3].
Defined.

Lemma authorize_agree_witness :
  @authorize_authenticated_principal jv_json ascii_unicode_lower sample_platform sample_principal
    AdminManage "door"
  = @authorize_access jv_json ascii_unicode_lower sample_platform sample_hints AdminManage "door"
      false.
Proof.
  apply (@authorize_agree jv_json ascii_unicode_lower sample_platform sample_hints CameraView
    "Camera-7" false sample_principal).
  vm_compute. reflexivity.
Defined.
