(* ===== verification/ServiceAuth.v ===== *)
(** Service credentials, [src/service_auth.rs]: where the tokens come from, which
    are accepted, and how a presented token is compared.

    The process environment, the file system and the constant-time comparison of
    the [constant_time_eq] crate are interfaces. *)
From S2P Require Import Prelude RustString.
From Stdlib Require Import Ascii.

Definition GATE_TO_BEACON_TOKEN_ENV : string := "HARBOR_GATE_TO_BEACON_TOKEN".
Definition GATE_TO_BEACON_TOKEN_FILE_ENV : string := "HARBOR_GATE_TO_BEACON_TOKEN_FILE".
Definition GATE_TO_BEACON_TOKEN_PREVIOUS_ENV : string := "HARBOR_GATE_TO_BEACON_TOKEN_PREVIOUS".
Definition GATE_TO_BEACON_TOKEN_PREVIOUS_FILE_ENV : string :=
  "HARBOR_GATE_TO_BEACON_TOKEN_PREVIOUS_FILE".
Definition BEACON_TO_GATE_TOKEN_ENV : string := "HARBOR_BEACON_TO_GATE_TOKEN".
Definition BEACON_TO_GATE_TOKEN_FILE_ENV : string := "HARBOR_BEACON_TO_GATE_TOKEN_FILE".
Definition MODEL_API_TOKEN_ENV : string := "HARBOR_MODEL_API_TOKEN".
Definition MIN_TOKEN_LEN : nat := 32.
Definition CREDENTIALS_DIRECTORY_ENV : string := "CREDENTIALS_DIRECTORY".
Definition GATE_TO_BEACON_CURRENT_CREDENTIAL : string := "gate-to-beacon-accept-current".
Definition GATE_TO_BEACON_PREVIOUS_CREDENTIAL : string := "gate-to-beacon-accept-previous".
Definition BEACON_TO_GATE_SEND_CREDENTIAL : string := "beacon-to-gate-send".
Definition LEGACY_GATE_TO_BEACON_TOKEN_ENVS : list string := ["HARBORBEACON_WEB_API_TOKEN"].
Definition LEGACY_BEACON_TO_GATE_TOKEN_ENVS : list string :=
  ["HARBORGATE_BEARER_TOKEN"; "HARBOR_IM_GATEWAY_BEARER_TOKEN"; "IM_AGENT_SERVICE_TOKEN"].

(** The process environment and the file system. *)
Record Host := {
  env_var : string -> option string;
  read_to_string : string -> result string string
}.

(** The function of the [constant_time_eq] crate, on the strings' bytes. *)
Class ConstantTimeEq := {
  constant_time_eq : string -> string -> bool;
  constant_time_eq_spec a b : constant_time_eq a b = true <-> a = b
}.

Record VerifierTokens := {
  current : string;
  previous : option string
}.

(** [byte.is_ascii_alphanumeric() || matches!(byte, b'_' | b'-')] *)
Definition token_byte (c : ascii) : bool :=
  is_ascii_alphanumeric c || (byte c =? 95)%N || (byte c =? 45)%N.

Definition validate_configured_token (value source : string) : result string string :=
  if (str_len value <? MIN_TOKEN_LEN)%nat || negb (str_forall token_byte value) then
    Err (source +:+ " is invalid")
  else Ok value.

(** [Path::join] of a relative name to a non-empty directory. *)
Definition path_join (dir name : string) : string :=
  match strip_suffix_char "/"%char dir with
  | Some _ => dir +:+ name
  | None => dir +:+ "/" +:+ name
  end.

Definition credential_file_path_from_values (credentials_directory configured_file
    credential_name : string) : option string :=
  match non_blank credentials_directory with
  | Some dir => Some (path_join dir credential_name)
  | None => non_blank configured_file
  end.

Section service_auth.
Context `{!ConstantTimeEq} (h : Host).
Local Open Scope rust_scope.

Definition constant_time_token_eq (actual expected : string) : bool :=
  constant_time_eq actual expected.

(** [VerifierTokens::matches] *)
Definition matches (v : VerifierTokens) (actual : string) : bool :=
  let current_matches := constant_time_token_eq actual (current v) in
  let previous_matches :=
    default false (constant_time_token_eq actual <$> previous v) in
  negb (is_empty (current v)) && (current_matches || previous_matches).

(** [VerifierTokens::current_only] *)
Definition current_only (c : string) : result string VerifierTokens :=
  c <-? validate_configured_token c "bearer token";
  Ok {| current := c; previous := None |}.

Definition token_from_env (key : string) : option string := env_var h key ≫= non_blank.

Definition configured_file_path (file_env : string) : option string :=
  env_var h file_env ≫= non_blank.

Definition credential_name_of (file_env : string) : option string :=
  if (file_env =? GATE_TO_BEACON_TOKEN_FILE_ENV)%string then Some GATE_TO_BEACON_CURRENT_CREDENTIAL
  else if (file_env =? GATE_TO_BEACON_TOKEN_PREVIOUS_FILE_ENV)%string
       then Some GATE_TO_BEACON_PREVIOUS_CREDENTIAL
  else if (file_env =? BEACON_TO_GATE_TOKEN_FILE_ENV)%string
       then Some BEACON_TO_GATE_SEND_CREDENTIAL
  else None.

Definition credential_file_path (file_env : string) : option string :=
  match credential_name_of file_env with
  | Some name =>
      credential_file_path_from_values (default "" (env_var h CREDENTIALS_DIRECTORY_ENV))
        (default "" (env_var h file_env)) name
  | None => configured_file_path file_env
  end.

Definition read_credential (file_env path : string) : result string string :=
  trim <$> map_err (fun e => "failed to read service credential configured by "
                             +:+ file_env +:+ ": " +:+ e) (read_to_string h path).

Definition token_from_file_env (file_env : string) : result string (option string) :=
  match credential_file_path file_env with
  | None => Ok None
  | Some path =>
      value <-? read_credential file_env path;
      if is_empty value then
        Err ("service credential configured by " +:+ file_env +:+ " is empty")
      else Ok (Some value)
  end.

(** The loop of [required_token] over the deprecated variables. *)
Fixpoint first_legacy (primary_env : string) (legacy_envs : list string) : result string string :=
  match legacy_envs with
  | [] => Err ("missing required service credential " +:+ primary_env)
  | e :: l =>
      match token_from_env e with
      | Some value => validate_configured_token value e
      | None => first_legacy primary_env l
      end
  end.

Definition required_token (file_env primary_env : string) (legacy_envs : list string)
  : result string string :=
  o <-? token_from_file_env file_env;
  match o with
  | Some value => validate_configured_token value file_env
  | None =>
      match token_from_env primary_env with
      | Some value => validate_configured_token value primary_env
      | None => first_legacy primary_env legacy_envs
      end
  end.

Definition optional_token (file_env primary_env : string) : result string (option string) :=
  match credential_file_path file_env with
  | Some path =>
      value <-? read_credential file_env path;
      if is_empty value then Ok None
      else Some <$> validate_configured_token value file_env
  | None =>
      match token_from_env primary_env with
      | Some value => Some <$> validate_configured_token value primary_env
      | None => Ok None
      end
  end.

Definition required_file_token (file_env : string) : result string string :=
  o <-? token_from_file_env file_env;
  value <-? ok_or ("missing required service credential file setting " +:+ file_env) o;
  validate_configured_token value file_env.

Definition optional_file_token (file_env : string) : result string (option string) :=
  path <-? ok_or ("missing required service credential file setting " +:+ file_env)
             (credential_file_path file_env);
  value <-? read_credential file_env path;
  if is_empty value then Ok None else Some <$> validate_configured_token value file_env.

Definition gate_to_beacon_file_verifier_tokens : result string VerifierTokens :=
  c <-? required_file_token GATE_TO_BEACON_TOKEN_FILE_ENV;
  p <-? optional_file_token GATE_TO_BEACON_TOKEN_PREVIOUS_FILE_ENV;
  Ok {| current := c; previous := p |}.

Definition model_api_verifier_token : result string VerifierTokens :=
  token <-? ok_or (MODEL_API_TOKEN_ENV +:+ " is not configured") (token_from_env MODEL_API_TOKEN_ENV);
  token <-? validate_configured_token token MODEL_API_TOKEN_ENV;
  Ok {| current := token; previous := None |}.

Definition gate_to_beacon_verifier_tokens : result string VerifierTokens :=
  c <-? required_token GATE_TO_BEACON_TOKEN_FILE_ENV GATE_TO_BEACON_TOKEN_ENV
          LEGACY_GATE_TO_BEACON_TOKEN_ENVS;
  p <-? optional_token GATE_TO_BEACON_TOKEN_PREVIOUS_FILE_ENV GATE_TO_BEACON_TOKEN_PREVIOUS_ENV;
  Ok {| current := c; previous := p |}.

Definition beacon_to_gate_sender_token : result string string :=
  required_token BEACON_TO_GATE_TOKEN_FILE_ENV BEACON_TO_GATE_TOKEN_ENV
    LEGACY_BEACON_TO_GATE_TOKEN_ENVS.

Definition validate_required_service_auth : result string unit :=
  _ <-? gate_to_beacon_verifier_tokens;
  _ <-? beacon_to_gate_sender_token;
  Ok tt.

(** * Specification *)

Definition valid_token (t : string) : Prop :=
  MIN_TOKEN_LEN <= String.length t /\ str_forall token_byte t = true.

Definition valid_verifier (v : VerifierTokens) : Prop :=
  valid_token (current v) /\ forall p, previous v = Some p -> valid_token p.

(** * Lemmas *)

Lemma validate_ok value source t :
  validate_configured_token value source = Ok t <-> t = value /\ valid_token value.
Proof.
  unfold validate_configured_token, valid_token, str_len.
  destruct (Nat.ltb_spec (String.length value) MIN_TOKEN_LEN); cbn [orb].
  { split; [done|]. intros (_ & ? & _). lia. }
  destruct (str_forall _ _); cbn; naive_solver.
Qed.

Lemma valid_token_not_empty t : valid_token t -> t <> "".
Proof. intros [Hl _] ->. cbn in Hl. unfold MIN_TOKEN_LEN in Hl. lia. Qed.

Lemma first_legacy_valid p l t : first_legacy p l = Ok t -> valid_token t.
Proof.
  induction l as [|e l IH]; cbn; [done|]. destruct (token_from_env e); [|done].
  rewrite validate_ok. by intros [-> ?].
Qed.

Lemma required_token_valid f p l t : required_token f p l = Ok t -> valid_token t.
Proof.
  unfold required_token. destruct (token_from_file_env f) as [[v|]|]; cbn; [| |done].
  - rewrite validate_ok. by intros [-> ?].
  - destruct (token_from_env p); [|apply first_legacy_valid].
    rewrite validate_ok. by intros [-> ?].
Qed.

Lemma some_validate_valid v s t : Some <$> validate_configured_token v s = Ok (Some t) -> valid_token t.
Proof.
  destruct (validate_configured_token v s) as [x|] eqn:E; cbn; [|done].
  apply validate_ok in E as [-> ?]. by intros [= <-].
Qed.

Lemma optional_token_valid f p t : optional_token f p = Ok (Some t) -> valid_token t.
Proof.
  unfold optional_token. destruct (credential_file_path f) as [path|].
  - destruct (read_credential f path) as [v|]; cbn; [|done].
    destruct (is_empty v); [done|]. apply some_validate_valid.
  - destruct (token_from_env p); [|done]. apply some_validate_valid.
Qed.

Lemma optional_file_token_valid f t : optional_file_token f = Ok (Some t) -> valid_token t.
Proof.
  unfold optional_file_token. destruct (credential_file_path f) as [path|]; cbn; [|done].
  destruct (read_credential f path) as [v|]; cbn; [|done].
  destruct (is_empty v); [done|]. apply some_validate_valid.
Qed.

Lemma required_file_token_valid f t : required_file_token f = Ok t -> valid_token t.
Proof.
  unfold required_file_token. destruct (token_from_file_env f) as [[v|]|]; cbn; [|done..].
  rewrite validate_ok. by intros [-> ?].
Qed.

Lemma matches_spec v actual :
  matches v actual = true <->
  current v <> "" /\ (actual = current v \/ previous v = Some actual).
Proof.
  unfold matches, constant_time_token_eq. rewrite andb_true_iff, orb_true_iff, negb_true_iff.
  rewrite is_empty_false, constant_time_eq_spec.
  destruct (previous v) as [p|]; cbn; [rewrite constant_time_eq_spec|]; naive_solver.
Qed.

(** The configurations that build a verifier. *)
Definition configured_verifier (v : VerifierTokens) : Prop :=
  gate_to_beacon_verifier_tokens = Ok v \/ gate_to_beacon_file_verifier_tokens = Ok v
  \/ model_api_verifier_token = Ok v \/ exists c, current_only c = Ok v.

Lemma configured_valid v : configured_verifier v -> valid_verifier v.
Proof.
  unfold valid_verifier. intros [E|[E|[E|[c E]]]].
  - unfold gate_to_beacon_verifier_tokens in E. res_inv E. subst v. cbn. split.
    + by eapply required_token_valid.
    + intros p ->. by eapply optional_token_valid.
  - unfold gate_to_beacon_file_verifier_tokens in E. res_inv E. subst v. cbn. split.
    + by eapply required_file_token_valid.
    + intros p ->. by eapply optional_file_token_valid.
  - unfold model_api_verifier_token in E. res_inv E. subst v. cbn.
    apply validate_ok in E1 as [-> ?]. by split.
  - unfold current_only in E. res_inv E. subst v. cbn. apply validate_ok in E0 as [-> ?]. by split.
Qed.

(** * Properties *)

(** What a verifier accepts: whichever configuration it was built from, it
    accepts exactly its current token and its previous token if it has one, and
    these are tokens of at least 32 characters among [A-Za-z0-9_-]; so no
    configuration accepts an empty or malformed token. *)
Theorem configured_verifier_accepts v actual :
  configured_verifier v ->
  (matches v actual = true <-> actual = current v \/ previous v = Some actual)
  /\ (matches v actual = true -> valid_token actual).
Proof.
  intros Hv%configured_valid. pose proof (valid_token_not_empty _ (proj1 Hv)) as Hne.
  rewrite matches_spec. split; [naive_solver|].
  intros [_ [-> | Hp]]; [exact (proj1 Hv)|exact (proj2 Hv _ Hp)].
Qed.

End service_auth.

(** A configured credential file is authoritative: when a path is configured
    for a required token, by the credentials directory or by its own variable,
    the token variables, current and deprecated, have no influence, even if the
    file cannot be read or holds a bad token. *)
Theorem file_credential_authoritative h h' file_env primary legacy path :
  credential_file_path h file_env = Some path ->
  env_var h' CREDENTIALS_DIRECTORY_ENV = env_var h CREDENTIALS_DIRECTORY_ENV ->
  env_var h' file_env = env_var h file_env ->
  read_to_string h' path = read_to_string h path ->
  required_token h' file_env primary legacy = required_token h file_env primary legacy
  /\ forall t, required_token h file_env primary legacy = Ok t ->
       exists text, read_to_string h path = Ok text /\ t = trim text.
Proof.
  intros Hp Hd Hf Hr.
  assert (credential_file_path h' file_env = Some path) as Hp'.
  { rewrite <-Hp. unfold credential_file_path, configured_file_path. by rewrite Hd, Hf. }
  unfold required_token, token_from_file_env. rewrite Hp, Hp'. unfold read_credential. rewrite Hr.
  destruct (read_to_string h path) as [text|e]; cbn; [|done].
  destruct (is_empty (trim text)); cbn; [done|]. split; [done|].
  intros t. rewrite validate_ok. intros [-> _]. eauto.
Qed.

(** * At concrete values *)

Definition string_eq_ct : ConstantTimeEq :=
  {| constant_time_eq := String.eqb; constant_time_eq_spec := String.eqb_eq |}.

Definition sample_token : string := "0123456789abcdef0123456789ABCDEF".

Definition sample_host : Host :=
  {| env_var k := if (k =? MODEL_API_TOKEN_ENV)%string then Some (" " +:+ sample_token)
                  else if (k =? CREDENTIALS_DIRECTORY_ENV)%string then Some "/run/creds" else None;
     read_to_string _ := Ok sample_token |}.

Lemma configured_verifier_accepts_witness :
  @matches string_eq_ct {| current := sample_token; previous := None |} sample_token = true
  /\ valid_token sample_token.
Proof.
  destruct (@configured_verifier_accepts string_eq_ct sample_host
    {| current := sample_token; previous := None |} sample_token) as [H1 H2].
  - right. right. left. vm_compute. reflexivity.
  - split; [apply H1; left; reflexivity|apply H2, H1; left; reflexivity].
Defined.

Lemma file_credential_authoritative_witness :
  required_token {| env_var k := if (k =? "HARBORGATE_BEARER_TOKEN")%string then Some "stale"
                                 else env_var sample_host k;
                    read_to_string := read_to_string sample_host |}
    BEACON_TO_GATE_TOKEN_FILE_ENV BEACON_TO_GATE_TOKEN_ENV LEGACY_BEACON_TO_GATE_TOKEN_ENVS
  = required_token sample_host BEACON_TO_GATE_TOKEN_FILE_ENV BEACON_TO_GATE_TOKEN_ENV
      LEGACY_BEACON_TO_GATE_TOKEN_ENVS.
Proof.
  apply (file_credential_authoritative sample_host _ BEACON_TO_GATE_TOKEN_FILE_ENV
    BEACON_TO_GATE_TOKEN_ENV LEGACY_BEACON_TO_GATE_TOKEN_ENVS "/run/creds/beacon-to-gate-send");
    vm_compute; reflexivity.
Defined.
