(* ===== verification/TaskRecords.v ===== *)
(** The records of conversations, tasks, media and events:
    [src/control_plane/tasks.rs], [src/control_plane/approvals.rs],
    [src/control_plane/events.rs] and [src/control_plane/media.rs]. Field names
    carry a prefix for their record; an enumeration's constructors its name where
    they would clash. *)
From S2P Require Import Prelude RustString Json Contracts.
Local Open Scope Z_scope.

Inductive TaskRunStatus := RunQueued | RunRunning | RunNeedsInput | RunBlocked | RunCompleted | RunFailed.

Inductive ExecutionRoute := ExecLocal | ExecCloud | ExecMiddlewareApi | ExecMidcli | ExecBrowser | ExecMcp.

Inductive TaskStepRunStatus := StepPending | StepApproved | StepExecuting | StepSuccess | StepFailed | StepSkipped | StepBlocked.

Inductive ArtifactKind := ArtifactText | ArtifactImage | ArtifactVideo | ArtifactLink | ArtifactCard | ArtifactJson.

Inductive ApprovalStatus := ApprovalPending | ApprovalApproved | ApprovalRejected | ApprovalExpired | ApprovalCancelled.

Inductive EventSourceKind := SourceDevice | SourceMedia | SourceTask | SourceAutomation | SourceSystem | SourceInference.

Inductive EventSeverity := SeverityInfo | SeverityWarning | SeverityError | SeverityCritical.

Inductive StreamTransport := StreamRtsp | StreamHls | StreamWebrtc | StreamFile | StreamUnknown.

Inductive RecordingTriggerMode := TriggerContinuous | TriggerEvent | TriggerManual | TriggerSchedule.

Inductive StorageTargetKind := StorageNas | StorageLocalDisk | StorageHarborOsPool | StorageObjectStorage.

Inductive MediaAssetKind := AssetSnapshot | AssetClip | AssetRecording | AssetReplay | AssetDerived | AssetReport.

Inductive MediaSessionKind := KindLiveView | KindReplay | KindShare | KindProxy.

Inductive MediaDeliveryMode := DeliveryLocalPlayer | DeliveryWebrtc | DeliveryHls | DeliveryDownload.

Inductive MediaSessionStatus := MediaOpening | MediaActive | MediaClosed | MediaFailed.

Inductive ShareAccessScope := SharePublicLink | ShareWorkspace | ShareInviteOnly.

Global Instance ApprovalStatus_eq_dec : EqDecision ApprovalStatus.
Proof. solve_decision. Defined.

Section records.
Context `{SerdeJson}.

Record ConversationSession := {
  cs_session_id : string;
  cs_workspace_id : string;
  cs_channel : string;
  cs_surface : string;
  cs_conversation_id : string;
  cs_user_id : string;
  cs_route_key : string;
  cs_last_message_id : string;
  cs_chat_type : string;
  cs_state : Value;
  cs_resume_token : option string;
  cs_expires_at : option string
}.

Record TaskRun := {
  run_task_id : string;
  run_workspace_id : string;
  run_session_id : string;
  run_source_channel : string;
  run_domain : string;
  run_action : string;
  run_intent_text : string;
  run_entity_refs : Value;
  run_args : Value;
  run_autonomy_level : string;
  run_status : TaskRunStatus;
  run_risk_level : RiskLevel;
  run_requires_approval : bool;
  run_started_at : option string;
  run_completed_at : option string;
  run_metadata : Value
}.

Record TaskStepRun := {
  step_step_id : string;
  step_task_id : string;
  step_trace_id : string;
  step_route_key : string;
  step_domain : string;
  step_operation : string;
  step_route : ExecutionRoute;
  step_executor_used : string;
  step_status : TaskStepRunStatus;
  step_input_payload : Value;
  step_output_payload : Value;
  step_error_code : option string;
  step_error_message : option string;
  step_audit_ref : option string;
  step_started_at : option string;
  step_ended_at : option string
}.

Record ArtifactRecord := {
  art_artifact_id : string;
  art_task_id : string;
  art_trace_id : string;
  art_step_id : option string;
  art_route_key : string;
  art_artifact_kind : ArtifactKind;
  art_label : string;
  art_mime_type : string;
  art_media_asset_id : option string;
  art_path : option string;
  art_url : option string;
  art_metadata : Value
}.

Record ApprovalTicket := {
  ap_approval_id : string;
  ap_task_id : string;
  ap_trace_id : string;
  ap_route_key : string;
  ap_policy_ref : string;
  ap_requester_user_id : string;
  ap_approver_user_id : option string;
  ap_status : ApprovalStatus;
  ap_reason : string;
  ap_requested_at : option string;
  ap_decided_at : option string
}.

Record EventRecord := {
  ev_event_id : string;
  ev_workspace_id : string;
  ev_source_kind : EventSourceKind;
  ev_source_id : string;
  ev_event_type : string;
  ev_severity : EventSeverity;
  ev_payload : Value;
  ev_correlation_id : option string;
  ev_causation_id : option string;
  ev_occurred_at : option string;
  ev_ingested_at : option string
}.

Record CameraProfile := {
  cam_device_id : string;
  cam_default_stream_profile_id : option string;
  cam_audio_supported : bool;
  cam_ptz_supported : bool;
  cam_privacy_supported : bool;
  cam_playback_supported : bool;
  cam_recording_policy_id : option string;
  cam_vendor_features : Value
}.

Record RecordingPolicy := {
  rp_recording_policy_id : string;
  rp_workspace_id : string;
  rp_device_id : option string;
  rp_trigger_mode : RecordingTriggerMode;
  rp_pre_event_seconds : Z;
  rp_post_event_seconds : Z;
  rp_clip_length_seconds : Z;
  rp_retention_days : Z;
  rp_storage_target : StorageTargetKind;
  rp_metadata : Value
}.

Record MediaAsset := {
  ma_asset_id : string;
  ma_workspace_id : string;
  ma_device_id : option string;
  ma_asset_kind : MediaAssetKind;
  ma_storage_target : StorageTargetKind;
  ma_storage_uri : string;
  ma_mime_type : string;
  ma_byte_size : Z;
  ma_checksum : option string;
  ma_captured_at : option string;
  ma_started_at : option string;
  ma_ended_at : option string;
  ma_derived_from_asset_id : option string;
  ma_tags : list string;
  ma_metadata : Value
}.

Record MediaSession := {
  ms_media_session_id : string;
  ms_device_id : string;
  ms_stream_profile_id : string;
  ms_session_kind : MediaSessionKind;
  ms_delivery_mode : MediaDeliveryMode;
  ms_opened_by_user_id : option string;
  ms_status : MediaSessionStatus;
  ms_share_link_id : option string;
  ms_started_at : option string;
  ms_ended_at : option string;
  ms_metadata : Value
}.

Record ShareLink := {
  sl_share_link_id : string;
  sl_media_session_id : string;
  sl_token_hash : string;
  sl_access_scope : ShareAccessScope;
  sl_expires_at : option string;
  sl_revoked_at : option string
}.

(** * Helpers of [CameraProfile] *)

Definition vendor_feature_str (c : CameraProfile) (key : string) : option string :=
  value_get (cam_vendor_features c) key ≫= as_str.

(** The pointer [/native_snapshot/url] is two look-ups by key. *)
Definition native_snapshot_url (c : CameraProfile) : option string :=
  match vendor_feature_str c "native_snapshot_url" with
  | Some u => Some u
  | None => (value_get (cam_vendor_features c) "native_snapshot"
               ≫= (fun v => value_get v "url")) ≫= as_str
  end.

Definition normalize_rtsp_candidate (value : string) : option string :=
  let trimmed := trim value in
  if is_empty trimmed then None
  else Some (if starts_with "/" trimmed then trimmed else "/" +:+ trimmed).

(** The loop of [rtsp_path_candidates], [candidates] being the vector built. *)
Fixpoint push_new (candidates l : list string) : list string :=
  match l with
  | [] => candidates
  | c :: l =>
      if list_any (fun e => (e =? c)%string) candidates then push_new candidates l
      else push_new (candidates ++ [c]) l
  end.

Definition rtsp_path_candidates (c : CameraProfile) : list string :=
  match value_get (cam_vendor_features c) "rtsp_path_candidates" ≫= as_array with
  | Some entries => push_new [] (omap normalize_rtsp_candidate (omap as_str entries))
  | None => []
  end.

(** * Helpers of [RecordingPolicy] *)

Definition or_else {A} (o p : option A) : option A :=
  match o with Some a => Some a | None => p end.

Definition metadata_str (p : RecordingPolicy) (key : string) : option string :=
  value_get (rp_metadata p) key ≫= as_str.

Definition metadata_u32 (p : RecordingPolicy) (key : string) : option Z :=
  (value_get (rp_metadata p) key ≫= as_u64)
    ≫= (fun v => if v <=? u32_max then Some v else None).

Definition capture_subdirectory (p : RecordingPolicy) : option string :=
  or_else (metadata_str p "capture_subdirectory") (metadata_str p "capture_folder_path").

Definition keyframe_count_hint (p : RecordingPolicy) : option Z :=
  or_else (metadata_u32 p "keyframe_count") (metadata_u32 p "keyframe_sample_count").

Definition keyframe_interval_seconds_hint (p : RecordingPolicy) : option Z :=
  or_else (metadata_u32 p "keyframe_interval_seconds") (metadata_u32 p "keyframe_interval").

Definition clip_length_seconds_hint (p : RecordingPolicy) : option Z :=
  if 0 <? rp_clip_length_seconds p then Some (rp_clip_length_seconds p)
  else metadata_u32 p "clip_length_seconds".

(** * Lemmas *)

Lemma push_new_spec cs l :
  NoDup cs -> NoDup (push_new cs l) /\ forall x, x ∈ push_new cs l <-> x ∈ cs \/ x ∈ l.
Proof.
  revert cs. induction l as [|c l IH]; intros cs Hn; cbn.
  { split; [done|]. intros x. rewrite elem_of_nil. naive_solver. }
  destruct (list_any _ cs) eqn:Ec.
  - apply list_any_true in Ec as (e & He & E). bool_facts. subst e.
    destruct (IH cs Hn) as [H1 H2]. split; [done|]. intros x. rewrite H2, elem_of_cons. naive_solver.
  - assert (c ∉ cs) as Hc.
    { intros Hin. rewrite list_any_false in Ec. specialize (Ec c Hin). by rewrite String.eqb_refl in Ec. }
    destruct (IH (cs ++ [c])) as [H1 H2].
    { apply NoDup_app. split_and!; [done| |apply NoDup_singleton].
      intros x Hx Hx'. apply list_elem_of_singleton in Hx' as ->. done. }
    split; [done|]. intros x. rewrite H2, elem_of_app, !elem_of_cons, elem_of_nil. naive_solver.
Qed.

(** The stream paths tried for a camera are distinct, absolute and trimmed,
    and are those of the vendor's list: each is a listed string, with a slash put
    in front when it has none, and each listed string that is not blank is tried. *)
Theorem rtsp_candidates_ok (c : CameraProfile) (entries : list Value) :
  value_get (cam_vendor_features c) "rtsp_path_candidates" ≫= as_array = Some entries ->
  NoDup (rtsp_path_candidates c)
  /\ (forall p, p ∈ rtsp_path_candidates c -> starts_with "/" p = true)
  /\ forall p, p ∈ rtsp_path_candidates c <->
       exists s, s ∈ omap as_str entries /\ normalize_rtsp_candidate s = Some p.
Proof.
  intros He. unfold rtsp_path_candidates. rewrite He.
  destruct (push_new_spec [] (omap normalize_rtsp_candidate (omap as_str entries))) as [Hn Hin];
    [apply NoDup_nil_2|].
  assert (Hs : forall p, p ∈ push_new [] (omap normalize_rtsp_candidate (omap as_str entries)) <->
       exists s, s ∈ omap as_str entries /\ normalize_rtsp_candidate s = Some p).
  { intros p. rewrite Hin, elem_of_nil, list_elem_of_omap. naive_solver. }
  split_and!; [done| |done].
  intros p (s & _ & E)%Hs. unfold normalize_rtsp_candidate in E.
  destruct (is_empty _); [done|]. destruct (starts_with "/" (trim s)) eqn:Es; injection E as <-; [done|].
  apply starts_with_spec. by exists (trim s).
Qed.

End records.

Definition sample_paths : list (@Value jv_json) :=
  [JStr "stream1"; JStr " /stream2 "; JNum 3; JStr "/stream2"].

Definition sample_camera : @CameraProfile jv_json :=
  {| cam_device_id := "cam-1"; cam_default_stream_profile_id := None;
     cam_audio_supported := false; cam_ptz_supported := false; cam_privacy_supported := false;
     cam_playback_supported := false; cam_recording_policy_id := None;
     cam_vendor_features := JObj [("rtsp_path_candidates", JArr sample_paths)] : @Value jv_json |}.

Lemma rtsp_candidates_ok_witness :
  @rtsp_path_candidates jv_json sample_camera = ["/stream1"; "/stream2"]
  /\ NoDup (@rtsp_path_candidates jv_json sample_camera).
Proof.
  split; [vm_compute; reflexivity|].
  exact (proj1 (@rtsp_candidates_ok jv_json sample_camera sample_paths
    ltac:(vm_compute; reflexivity))).
Defined.
