(* ===== verification/Conversation.v ===== *)
(** Conversation state of the task API, the first half of
    [src/runtime/task_session.rs]: what a multi-step flow remembers between
    messages, its two representations (the generic pending selection and resume
    slots, and the older camera fields they replaced), and the envelope that
    stores it in a session. [serde]'s conversions are [Codec]s. *)
From S2P Require Import Prelude RustString Json Contracts TaskRecords.
Local Open Scope Z_scope.

Definition CAMERA_CONNECT_OPERATION : string := "camera.connect".
Definition CAMERA_RECORD_CLIP_CONFIRMATION_OPERATION : string := "camera.record_clip_confirmation".
Definition GENERAL_MESSAGE_LOOP_OPERATION : string := "general.message_loop".

Section conversation.
Context `{SerdeJson}.

Record PendingTaskCandidate := {
  cand_candidate_id : string;
  cand_name : string;
  cand_ip : string;
  cand_room : option string;
  cand_port : Z;
  cand_rtsp_paths : list string;
  cand_requires_auth : bool;
  cand_vendor : option string;
  cand_model : option string
}.

Record PendingTaskConnect := {
  conn_resume_token : string;
  conn_name : string;
  conn_ip : string;
  conn_room : option string;
  conn_port : Z;
  conn_snapshot_url : option string;
  conn_rtsp_paths : list string;
  conn_requires_auth : bool;
  conn_vendor : option string;
  conn_model : option string
}.

Definition set_conn_resume_token (x : string) (r : PendingTaskConnect) : PendingTaskConnect :=
  {| conn_resume_token := x; conn_name := conn_name r; conn_ip := conn_ip r; conn_room :=
     conn_room r; conn_port := conn_port r; conn_snapshot_url := conn_snapshot_url r;
     conn_rtsp_paths := conn_rtsp_paths r; conn_requires_auth := conn_requires_auth r;
     conn_vendor := conn_vendor r; conn_model := conn_model r |}.

Record PendingTaskClipConfirmation := {
  clip_resume_token : string;
  clip_clip_media_asset_id : string;
  clip_clip_path : string;
  clip_clip_mime_type : string;
  clip_cover_path : string;
  clip_display_name : string
}.

Definition set_clip_resume_token (x : string) (r : PendingTaskClipConfirmation) : PendingTaskClipConfirmation :=
  {| clip_resume_token := x; clip_clip_media_asset_id := clip_clip_media_asset_id r;
     clip_clip_path := clip_clip_path r; clip_clip_mime_type := clip_clip_mime_type r;
     clip_cover_path := clip_cover_path r; clip_display_name := clip_display_name r |}.

Record RecentClipPlaybackState := {
  play_clip_media_asset_id : string;
  play_clip_path : string;
  play_clip_mime_type : string;
  play_cover_path : string;
  play_display_name : string;
  play_captured_at_epoch_ms : Z
}.

Record RecentFamilyMemoryEventState := {
  fam_event_id : string;
  fam_camera_id : string;
  fam_event_type : string;
  fam_summary : string;
  fam_referenced_at_epoch_ms : Z
}.

Record RecentCatActivityQueryState := {
  cat_camera_hint : option string;
  cat_time_scope : string;
  cat_issued_artifact_ids : list string;
  cat_last_batch_artifact_ids : list string;
  cat_updated_at_epoch_ms : Z
}.

Record PendingTaskHomeAssistantCandidate := {
  hac_entity_id : string;
  hac_domain : string;
  hac_display_name : string;
  hac_state : string;
  hac_area_id : option string;
  hac_device_class : option string
}.

Record PendingTaskHomeAssistantClarification := {
  ha_domain : string;
  ha_service : string;
  ha_entity_hint : option string;
  ha_candidates : list PendingTaskHomeAssistantCandidate
}.

Record PendingTaskGeneralMessageLoop := {
  gml_resume_token : string;
  gml_original_goal : string;
  gml_latest_user_intent_text : string;
  gml_last_clarification_prompt : string;
  gml_selected_candidate_action : option string;
  gml_camera_hint : option string;
  gml_query : option string;
  gml_home_assistant : option PendingTaskHomeAssistantClarification
}.

Definition set_gml_resume_token (x : string) (r : PendingTaskGeneralMessageLoop) : PendingTaskGeneralMessageLoop :=
  {| gml_resume_token := x; gml_original_goal := gml_original_goal r;
     gml_latest_user_intent_text := gml_latest_user_intent_text r; gml_last_clarification_prompt
     := gml_last_clarification_prompt r; gml_selected_candidate_action :=
     gml_selected_candidate_action r; gml_camera_hint := gml_camera_hint r; gml_query :=
     gml_query r; gml_home_assistant := gml_home_assistant r |}.

Record PendingTaskSelectionItem := {
  item_item_id : string;
  item_payload : Value
}.

Record PendingTaskSelectionState := {
  sel_operation : string;
  sel_items : list PendingTaskSelectionItem
}.

Record PendingTaskResumeState := {
  res_operation : string;
  res_resume_token : string;
  res_payload : Value
}.

Record TaskConversationState := {
  key : string;
  pending_selection : option PendingTaskSelectionState;
  pending_resume : option PendingTaskResumeState;
  pending_candidates : list PendingTaskCandidate;
  pending_connect : option PendingTaskConnect;
  recent_clip_playback : option RecentClipPlaybackState;
  recent_family_memory_event : option RecentFamilyMemoryEventState;
  recent_cat_activity_query : option RecentCatActivityQueryState;
  last_scan_cidr : string
}.

Definition set_key (x : string) (r : TaskConversationState) : TaskConversationState :=
  {| key := x; pending_selection := pending_selection r; pending_resume := pending_resume r;
     pending_candidates := pending_candidates r; pending_connect := pending_connect r;
     recent_clip_playback := recent_clip_playback r; recent_family_memory_event :=
     recent_family_memory_event r; recent_cat_activity_query := recent_cat_activity_query r;
     last_scan_cidr := last_scan_cidr r |}.

Definition set_pending_selection (x : option PendingTaskSelectionState) (r : TaskConversationState) : TaskConversationState :=
  {| key := key r; pending_selection := x; pending_resume := pending_resume r;
     pending_candidates := pending_candidates r; pending_connect := pending_connect r;
     recent_clip_playback := recent_clip_playback r; recent_family_memory_event :=
     recent_family_memory_event r; recent_cat_activity_query := recent_cat_activity_query r;
     last_scan_cidr := last_scan_cidr r |}.

Definition set_pending_resume (x : option PendingTaskResumeState) (r : TaskConversationState) : TaskConversationState :=
  {| key := key r; pending_selection := pending_selection r; pending_resume := x;
     pending_candidates := pending_candidates r; pending_connect := pending_connect r;
     recent_clip_playback := recent_clip_playback r; recent_family_memory_event :=
     recent_family_memory_event r; recent_cat_activity_query := recent_cat_activity_query r;
     last_scan_cidr := last_scan_cidr r |}.

Definition set_pending_candidates (x : list PendingTaskCandidate) (r : TaskConversationState) : TaskConversationState :=
  {| key := key r; pending_selection := pending_selection r; pending_resume := pending_resume r;
     pending_candidates := x; pending_connect := pending_connect r; recent_clip_playback :=
     recent_clip_playback r; recent_family_memory_event := recent_family_memory_event r;
     recent_cat_activity_query := recent_cat_activity_query r; last_scan_cidr := last_scan_cidr
     r |}.

Definition set_pending_connect (x : option PendingTaskConnect) (r : TaskConversationState) : TaskConversationState :=
  {| key := key r; pending_selection := pending_selection r; pending_resume := pending_resume r;
     pending_candidates := pending_candidates r; pending_connect := x; recent_clip_playback :=
     recent_clip_playback r; recent_family_memory_event := recent_family_memory_event r;
     recent_cat_activity_query := recent_cat_activity_query r; last_scan_cidr := last_scan_cidr
     r |}.

Definition set_recent_clip_playback (x : option RecentClipPlaybackState) (r : TaskConversationState) : TaskConversationState :=
  {| key := key r; pending_selection := pending_selection r; pending_resume := pending_resume r;
     pending_candidates := pending_candidates r; pending_connect := pending_connect r;
     recent_clip_playback := x; recent_family_memory_event := recent_family_memory_event r;
     recent_cat_activity_query := recent_cat_activity_query r; last_scan_cidr := last_scan_cidr
     r |}.

Definition set_recent_family_memory_event (x : option RecentFamilyMemoryEventState) (r : TaskConversationState) : TaskConversationState :=
  {| key := key r; pending_selection := pending_selection r; pending_resume := pending_resume r;
     pending_candidates := pending_candidates r; pending_connect := pending_connect r;
     recent_clip_playback := recent_clip_playback r; recent_family_memory_event := x;
     recent_cat_activity_query := recent_cat_activity_query r; last_scan_cidr := last_scan_cidr
     r |}.

Definition set_recent_cat_activity_query (x : option RecentCatActivityQueryState) (r : TaskConversationState) : TaskConversationState :=
  {| key := key r; pending_selection := pending_selection r; pending_resume := pending_resume r;
     pending_candidates := pending_candidates r; pending_connect := pending_connect r;
     recent_clip_playback := recent_clip_playback r; recent_family_memory_event :=
     recent_family_memory_event r; recent_cat_activity_query := x; last_scan_cidr :=
     last_scan_cidr r |}.

Definition set_last_scan_cidr (x : string) (r : TaskConversationState) : TaskConversationState :=
  {| key := key r; pending_selection := pending_selection r; pending_resume := pending_resume r;
     pending_candidates := pending_candidates r; pending_connect := pending_connect r;
     recent_clip_playback := recent_clip_playback r; recent_family_memory_event :=
     recent_family_memory_event r; recent_cat_activity_query := recent_cat_activity_query r;
     last_scan_cidr := x |}.

Record TaskSessionStateEnvelope := {
  env_schema_version : Z;
  env_namespace : string;
  env_flow_type : string;
  env_flow_state : Value
}.

Definition conversation_state_default : TaskConversationState :=
  {| key := ""; pending_selection := None; pending_resume := None; pending_candidates := [];
     pending_connect := None; recent_clip_playback := None; recent_family_memory_event := None;
     recent_cat_activity_query := None; last_scan_cidr := "" |}.

Context `{!Codec PendingTaskCandidate} `{!Codec PendingTaskConnect}
  `{!Codec PendingTaskClipConfirmation} `{!Codec PendingTaskGeneralMessageLoop}
  `{!Codec TaskConversationState} `{!Codec TaskSessionStateEnvelope}.

(** [serde_json::to_value(x).unwrap_or(Value::Null)] *)
Definition to_value_or_null {A} `{!Codec A} (x : A) : Value :=
  match to_value x with Ok v => v | Err _ => json_null end.

(** * The selection and resume slots *)

Definition pending_selection_from_camera_candidates (cs : list PendingTaskCandidate)
  : PendingTaskSelectionState :=
  {| sel_operation := CAMERA_CONNECT_OPERATION;
     sel_items := (fun c => {| item_item_id := cand_candidate_id c;
                               item_payload := to_value_or_null c |}) <$> cs |}.

Definition camera_candidates_from_selection (selection : option PendingTaskSelectionState)
  : option (list PendingTaskCandidate) :=
  match selection with
  | None => None
  | Some s =>
      if negb (sel_operation s =? CAMERA_CONNECT_OPERATION)%string then None
      else Some (omap (fun i => res_ok (from_value (item_payload i))) (sel_items s))
  end.

Definition pending_resume_from_camera_connect (p : PendingTaskConnect) : PendingTaskResumeState :=
  {| res_operation := CAMERA_CONNECT_OPERATION; res_resume_token := conn_resume_token p;
     res_payload := to_value_or_null p |}.

Definition pending_resume_from_clip_confirmation (p : PendingTaskClipConfirmation)
  : PendingTaskResumeState :=
  {| res_operation := CAMERA_RECORD_CLIP_CONFIRMATION_OPERATION;
     res_resume_token := clip_resume_token p; res_payload := to_value_or_null p |}.

Definition pending_resume_from_general_message_loop (p : PendingTaskGeneralMessageLoop)
  : PendingTaskResumeState :=
  {| res_operation := GENERAL_MESSAGE_LOOP_OPERATION; res_resume_token := gml_resume_token p;
     res_payload := to_value_or_null p |}.

Definition pending_connect_from_resume (r : option PendingTaskResumeState)
  : option PendingTaskConnect :=
  match r with
  | None => None
  | Some r =>
      if negb (res_operation r =? CAMERA_CONNECT_OPERATION)%string then None else
      match from_value (res_payload r) with
      | Ok p => Some (if is_blank (conn_resume_token p)
                      then set_conn_resume_token (res_resume_token r) p else p)
      | Err _ => None
      end
  end.

Definition pending_clip_confirmation_from_resume (r : option PendingTaskResumeState)
  : option PendingTaskClipConfirmation :=
  match r with
  | None => None
  | Some r =>
      if negb (res_operation r =? CAMERA_RECORD_CLIP_CONFIRMATION_OPERATION)%string then None else
      match from_value (res_payload r) with
      | Ok p => Some (if is_blank (clip_resume_token p)
                      then set_clip_resume_token (res_resume_token r) p else p)
      | Err _ => None
      end
  end.

Definition pending_general_message_loop_from_resume (r : option PendingTaskResumeState)
  : option PendingTaskGeneralMessageLoop :=
  match r with
  | None => None
  | Some r =>
      if negb (res_operation r =? GENERAL_MESSAGE_LOOP_OPERATION)%string then None else
      match from_value (res_payload r) with
      | Ok p => Some (if is_blank (gml_resume_token p)
                      then set_gml_resume_token (res_resume_token r) p else p)
      | Err _ => None
      end
  end.

(** * Methods of [TaskConversationState] *)

Definition camera_pending_candidates (s : TaskConversationState) : list PendingTaskCandidate :=
  default (pending_candidates s) (camera_candidates_from_selection (pending_selection s)).

Definition set_camera_pending_candidates (cs : list PendingTaskCandidate)
    (s : TaskConversationState) : TaskConversationState :=
  let sel := match cs with [] => None | _ => Some (pending_selection_from_camera_candidates cs) end in
  set_pending_candidates [] (set_pending_selection sel s).

Definition retain_camera_pending_candidates (retain : PendingTaskCandidate -> bool)
    (s : TaskConversationState) : TaskConversationState :=
  set_camera_pending_candidates (List.filter retain (camera_pending_candidates s)) s.

Definition camera_pending_connect (s : TaskConversationState) : option PendingTaskConnect :=
  or_else (pending_connect_from_resume (pending_resume s)) (pending_connect s).

Definition set_camera_pending_connect (p : option PendingTaskConnect) (s : TaskConversationState)
  : TaskConversationState :=
  set_pending_connect None
    (set_pending_resume (pending_resume_from_camera_connect <$> p) s).

Definition clip_pending_confirmation (s : TaskConversationState)
  : option PendingTaskClipConfirmation :=
  pending_clip_confirmation_from_resume (pending_resume s).

(** [matches!(self.pending_resume.as_ref(), Some(current) if current.operation == op)] *)
Definition resumes (op : string) (s : TaskConversationState) : bool :=
  match pending_resume s with
  | Some current => (res_operation current =? op)%string
  | None => false
  end.

Definition set_clip_pending_confirmation (p : option PendingTaskClipConfirmation)
    (s : TaskConversationState) : TaskConversationState :=
  if (match p with Some _ => true | None => false end)
     || resumes CAMERA_RECORD_CLIP_CONFIRMATION_OPERATION s
  then set_pending_resume (pending_resume_from_clip_confirmation <$> p) s
  else s.

Definition general_message_loop (s : TaskConversationState)
  : option PendingTaskGeneralMessageLoop :=
  pending_general_message_loop_from_resume (pending_resume s).

Definition set_general_message_loop (p : option PendingTaskGeneralMessageLoop)
    (s : TaskConversationState) : TaskConversationState :=
  if (match p with Some _ => true | None => false end) || resumes GENERAL_MESSAGE_LOOP_OPERATION s
  then set_pending_resume (pending_resume_from_general_message_loop <$> p) s
  else s.

(** * Normalisation and the session envelope *)

Definition normalize_task_conversation_state (s : TaskConversationState) : TaskConversationState :=
  let s :=
    match pending_selection s, pending_candidates s with
    | None, (_ :: _) as cs =>
        set_pending_selection (Some (pending_selection_from_camera_candidates cs)) s
    | _, _ => s
    end in
  let s :=
    match pending_resume s, pending_connect s with
    | None, Some p => set_pending_resume (Some (pending_resume_from_camera_connect p)) s
    | _, _ => s
    end in
  set_pending_connect None (set_pending_candidates [] s).

Definition persisted_task_conversation_state (s : TaskConversationState) : TaskConversationState :=
  normalize_task_conversation_state s.

(** [non_empty_string] *)
Definition non_empty_string (o : option string) : option string := o ≫= non_blank.

Definition default_task_session_schema_version : Z := 1.
Definition default_task_session_namespace : string := "task_api".
Definition default_task_session_flow_type : string := "camera_onboarding".

(** [non_empty_string(Some(id)).map(|value| value == key).unwrap_or(false)] *)
Definition matches_key (id k : string) : bool :=
  default false ((fun v => (v =? k)%string) <$> non_blank id).

(** Whether the envelope leaves the key out. *)
Definition drops_key (k : string) (session : option ConversationSession) : bool :=
  if is_blank k then true else
  match session with
  | Some s => matches_key (cs_conversation_id s) k || matches_key (cs_session_id s) k
              || matches_key (cs_user_id s) k
  | None => false
  end.

Definition envelope_from_conversation_state (s : TaskConversationState)
    (session : option ConversationSession) : result string TaskSessionStateEnvelope :=
  let stored := persisted_task_conversation_state s in
  match map_err (fun e => "failed to serialize Task conversation flow state: " +:+ e)
          (to_value stored) with
  | Err e => Err e
  | Ok v =>
      Ok {| env_schema_version := default_task_session_schema_version;
            env_namespace := default_task_session_namespace;
            env_flow_type := default_task_session_flow_type;
            env_flow_state := if drops_key (key stored) session then value_remove "key" v else v |}
  end.

Definition session_state_value_from_conversation (s : TaskConversationState)
    (session : option ConversationSession) : result string Value :=
  match envelope_from_conversation_state s session with
  | Err e => Err e
  | Ok env => map_err (fun e => "failed to serialize Task conversation session state: " +:+ e)
                (to_value env)
  end.

Definition backfill_conversation_key (session : ConversationSession) (key_hint : option string)
    (s : TaskConversationState) : TaskConversationState :=
  if is_blank (key s) then
    set_key (default "" (or_else (non_empty_string key_hint)
               (or_else (non_blank (cs_conversation_id session))
               (or_else (non_blank (cs_session_id session)) (non_blank (cs_user_id session)))))) s
  else s.

Definition conversation_state_from_session (session : ConversationSession)
    (key_hint : option string) : option TaskConversationState :=
  if is_null (cs_state session) then None else
  let from_envelope :=
    match from_value (cs_state session) with
    | Ok envelope =>
        if is_null (env_flow_state envelope) then None
        else res_ok (from_value (env_flow_state envelope))
    | Err _ => None
    end in
  match from_envelope with
  | Some s =>
      Some (normalize_task_conversation_state (backfill_conversation_key session key_hint s))
  | None =>
      match from_value (cs_state session) with
      | Ok s =>
          Some (normalize_task_conversation_state (backfill_conversation_key session key_hint s))
      | Err _ => None
      end
  end.

(** * Laws of the conversions *)

(** The conversions of the pending records, which hold only strings, flags and
    16-bit numbers, always succeed; so do those of states without over-long
    timestamps, which the laws therefore only speak about when they do. *)
Class ConversationCodecs : Prop := {
  candidate_law :: CodecLaws PendingTaskCandidate;
  connect_law :: CodecLaws PendingTaskConnect;
  clip_law :: CodecLaws PendingTaskClipConfirmation;
  gml_law :: CodecLaws PendingTaskGeneralMessageLoop;
  state_law :: CodecLaws TaskConversationState;
  envelope_law :: CodecLaws TaskSessionStateEnvelope;
  candidate_ok (c : PendingTaskCandidate) : exists v, to_value c = Ok v;
  connect_ok (c : PendingTaskConnect) : exists v, to_value c = Ok v;
  clip_ok (c : PendingTaskClipConfirmation) : exists v, to_value c = Ok v;
  gml_ok (c : PendingTaskGeneralMessageLoop) : exists v, to_value c = Ok v;
  state_not_null (s : TaskConversationState) v : to_value s = Ok v -> is_null v = false;
  envelope_not_null (e : TaskSessionStateEnvelope) v : to_value e = Ok v -> is_null v = false;
  remove_not_null k v : is_null (value_remove k v) = is_null v;
  state_without_key (s : TaskConversationState) v :
    to_value s = Ok v -> from_value (value_remove "key" v) = Ok (set_key "" s)
}.

(** * Lemmas *)

Lemma normalize_fields s :
  let n := normalize_task_conversation_state s in
  key n = key s /\ pending_candidates n = [] /\ pending_connect n = None
  /\ recent_clip_playback n = recent_clip_playback s
  /\ recent_family_memory_event n = recent_family_memory_event s
  /\ recent_cat_activity_query n = recent_cat_activity_query s
  /\ last_scan_cidr n = last_scan_cidr s.
Proof.
  unfold normalize_task_conversation_state.
  by destruct s as [? [] [] [] [] ????].
Qed.

Lemma normalize_id s :
  pending_candidates s = [] -> pending_connect s = None -> normalize_task_conversation_state s = s.
Proof.
  unfold normalize_task_conversation_state.
  destruct s as [? [] [] ? ? ????]; cbn; by intros -> ->.
Qed.

Lemma normalize_idem s :
  normalize_task_conversation_state (normalize_task_conversation_state s)
  = normalize_task_conversation_state s.
Proof. apply normalize_id; apply normalize_fields. Qed.

Lemma to_value_or_null_ok {A} `{!Codec A, !CodecLaws A} (x : A) :
  (exists v, to_value x = Ok v) -> from_value (to_value_or_null x) = Ok x.
Proof. intros [v E]. unfold to_value_or_null. rewrite E. by apply from_to_value. Qed.

Section laws.
Context `{!ConversationCodecs}.

Lemma selection_candidates cs :
  camera_candidates_from_selection (Some (pending_selection_from_camera_candidates cs)) = Some cs.
Proof.
  cbn. f_equal. induction cs as [|c cs IH]; [done|]. cbn.
  rewrite to_value_or_null_ok by apply candidate_ok. cbn. by rewrite IH.
Qed.

Lemma resume_connect p :
  pending_connect_from_resume (Some (pending_resume_from_camera_connect p)) = Some p.
Proof.
  cbn. rewrite to_value_or_null_ok by apply connect_ok. by destruct p, (is_blank _).
Qed.

Lemma resume_clip p :
  pending_clip_confirmation_from_resume (Some (pending_resume_from_clip_confirmation p)) = Some p.
Proof.
  cbn. rewrite to_value_or_null_ok by apply clip_ok. by destruct p, (is_blank _).
Qed.

Lemma resume_gml p :
  pending_general_message_loop_from_resume (Some (pending_resume_from_general_message_loop p))
  = Some p.
Proof.
  cbn. rewrite to_value_or_null_ok by apply gml_ok. by destruct p, (is_blank _).
Qed.

(** Setting and reading the pending flows: each setter is read back by its
    getter; the resume slot holds one flow at a time, so putting one flow in it
    takes the other two out of it; and clearing a flow that does not hold the
    slot changes nothing. *)
Theorem pending_flows_get_set s cs conn clip gml :
  camera_pending_candidates (set_camera_pending_candidates cs s) = cs
  /\ camera_pending_connect (set_camera_pending_connect conn s) = conn
  /\ clip_pending_confirmation (set_clip_pending_confirmation clip s) = clip
  /\ general_message_loop (set_general_message_loop gml s) = gml
  /\ (clip <> None -> general_message_loop (set_clip_pending_confirmation clip s) = None
      /\ pending_connect_from_resume (pending_resume (set_clip_pending_confirmation clip s)) = None)
  /\ (gml <> None -> clip_pending_confirmation (set_general_message_loop gml s) = None
      /\ pending_connect_from_resume (pending_resume (set_general_message_loop gml s)) = None)
  /\ (resumes CAMERA_RECORD_CLIP_CONFIRMATION_OPERATION s = false ->
      set_clip_pending_confirmation None s = s)
  /\ (resumes GENERAL_MESSAGE_LOOP_OPERATION s = false -> set_general_message_loop None s = s).
Proof.
  split_and!.
  - unfold camera_pending_candidates, set_camera_pending_candidates. cbn.
    destruct cs as [|c cs]; [done|]. by rewrite selection_candidates.
  - unfold camera_pending_connect, set_camera_pending_connect. cbn.
    destruct conn as [p|]; [|done]. change (fmap ?f (Some p)) with (Some (f p)).
    by rewrite resume_connect.
  - unfold clip_pending_confirmation, set_clip_pending_confirmation. destruct clip as [p|]; cbn -[pending_resume_from_clip_confirmation].
    + apply resume_clip.
    + unfold resumes, pending_clip_confirmation_from_resume.
      destruct (pending_resume s) as [r|] eqn:E; [|by rewrite E].
      destruct (res_operation r =? _)%string eqn:Eo; [done|]. by rewrite E, Eo.
  - unfold general_message_loop, set_general_message_loop. destruct gml as [p|]; cbn -[pending_resume_from_general_message_loop].
    + apply resume_gml.
    + unfold resumes, pending_general_message_loop_from_resume.
      destruct (pending_resume s) as [r|] eqn:E; [|by rewrite E].
      destruct (res_operation r =? _)%string eqn:Eo; [done|]. by rewrite E, Eo.
  - destruct clip; done.
  - destruct gml; done.
  - unfold set_clip_pending_confirmation. by intros ->.
  - unfold set_general_message_loop. by intros ->.
Qed.

(** Migration of the older camera fields: normalising is idempotent, empties
    them, keeps everything else, and does not change what the flow sees, as long
    as another flow does not already hold the slot the field moves to. *)
Theorem normalize_preserves_view s :
  let n := normalize_task_conversation_state s in
  normalize_task_conversation_state n = n
  /\ pending_candidates n = [] /\ pending_connect n = None /\ key n = key s
  /\ recent_clip_playback n = recent_clip_playback s
  /\ recent_family_memory_event n = recent_family_memory_event s
  /\ recent_cat_activity_query n = recent_cat_activity_query s
  /\ last_scan_cidr n = last_scan_cidr s
  /\ (pending_candidates s = [] \/ pending_selection s = None ->
      camera_pending_candidates n = camera_pending_candidates s)
  /\ (pending_connect s = None \/ pending_resume s = None ->
      camera_pending_connect n = camera_pending_connect s)
  /\ (pending_resume s <> None \/ pending_connect s = None ->
      clip_pending_confirmation n = clip_pending_confirmation s
      /\ general_message_loop n = general_message_loop s).
Proof.
  intros n. split_and!; try apply normalize_fields; [apply normalize_idem|..];
    unfold n, normalize_task_conversation_state, camera_pending_candidates, camera_pending_connect,
      clip_pending_confirmation, general_message_loop.
  - destruct s as [? [sel|] [r|] [|c cs] [p|] ????]; cbn -[pending_selection_from_camera_candidates camera_candidates_from_selection];
      intros [|]; try done; by rewrite selection_candidates.
  - destruct s as [? [sel|] [r|] [|c cs] [p|] ????]; cbn -[pending_resume_from_camera_connect pending_connect_from_resume];
      intros [|]; try done; by rewrite resume_connect.
  - destruct s as [? [sel|] [r|] [|c cs] [p|] ????]; cbn; intros [|]; done.
Qed.

(** The session envelope: a conversation state written into a session's
    state is read back normalised, with its own key unless the envelope left the
    key out, in which case the key is the first usable one among the caller's
    hint and the session's conversation, session and user ids; so the round trip
    is exact for a caller that passes the key as its hint. *)
Theorem session_state_roundtrip s session v hint0 :
  session_state_value_from_conversation s (Some session) = Ok v -> cs_state session = v ->
  exists s', conversation_state_from_session session hint0 = Some s'
  /\ set_key "" s' = set_key "" (normalize_task_conversation_state s)
  /\ (drops_key (key s) (Some session) = false -> key s' = key s)
  /\ (hint0 = Some (key s) -> trim (key s) = key s -> is_blank (key s) = false ->
      s' = normalize_task_conversation_state s).
Proof.
  unfold session_state_value_from_conversation, envelope_from_conversation_state,
    persisted_task_conversation_state.
  set (n := normalize_task_conversation_state s).
  assert (key n = key s /\ pending_candidates n = [] /\ pending_connect n = None)
    as (Hk & Hpc & Hpn) by (split_and!; apply normalize_fields).
  clearbody n. destruct (to_value n) as [fv|] eqn:Ef; cbn; [|done].
  set (fs := if drops_key (key n) (Some session) then value_remove "key" fv else fv).
  destruct (to_value (A:=TaskSessionStateEnvelope) _) as [ev|] eqn:Ee; cbn; [|done].
  intros [= ->] Hs.
  unfold conversation_state_from_session. rewrite Hs, (envelope_not_null _ _ Ee).
  rewrite (from_to_value _ _ Ee). cbn [env_flow_state].
  assert (is_null fs = false) as ->.
  { unfold fs. destruct (drops_key _ _); rewrite ?remove_not_null; by apply (state_not_null _ _ Ef). }
  assert (from_value fs = Ok (if drops_key (key n) (Some session) then set_key "" n else n)) as ->.
  { unfold fs. destruct (drops_key _ _); [by apply state_without_key|by apply from_to_value]. }
  cbn [res_ok]. eexists. split; [done|]. rewrite Hk.
  assert (Hn : forall x, normalize_task_conversation_state (set_key x n) = set_key x n)
    by (intros x; by apply normalize_id).
  assert (normalize_task_conversation_state n = n) as Hnn by by apply normalize_id.
  destruct (drops_key (key s) (Some session)) eqn:Ed.
  - unfold backfill_conversation_key. change (is_blank (key (set_key "" n))) with true. cbv iota.
    match goal with |- context [set_key ?x (set_key "" n)] =>
      change (set_key x (set_key "" n)) with (set_key x n) end.
    rewrite Hn. split_and!; [done|done|]. intros -> Ht Hb.
    unfold non_empty_string; cbn [mbind option_bind].
    unfold non_blank at 1. unfold is_blank in Hb. rewrite Hb, Ht. cbn.
    rewrite <-Hk. by destruct n.
  - assert (is_blank (key n) = false) as Hb.
    { rewrite Hk. unfold drops_key in Ed. by destruct (is_blank (key s)). }
    unfold backfill_conversation_key. rewrite Hb, Hnn. done.
Qed.

End laws.
End conversation.

Global Arguments normalize_task_conversation_state : simpl never.
Global Arguments persisted_task_conversation_state : simpl never.
