(* ===== verification/ConversationSample.v ===== *)
(** A concrete instance of the conversation conversions, for the witnesses: a
    small library of encodings into [jv] with their round trips, and the pending
    records encoded by it. The theorems hold for any conversions with the laws of
    [ConversationCodecs]; this file shows that there are some. *)
From S2P Require Import Prelude RustString Json Contracts TaskRecords Conversation.

(** * Encodings *)

Class Enc (A : Type) := {
  enc : A -> jv;
  dec : jv -> option A;
  dec_enc a : dec (enc a) = Some a
}.

Global Instance enc_string : Enc string :=
  {| enc := JStr; dec v := match v with JStr s => Some s | _ => None end; dec_enc _ := eq_refl |}.
Global Instance enc_bool : Enc bool :=
  {| enc := JBool; dec v := match v with JBool s => Some s | _ => None end; dec_enc _ := eq_refl |}.
Global Instance enc_Z : Enc Z :=
  {| enc := JNum; dec v := match v with JNum s => Some s | _ => None end; dec_enc _ := eq_refl |}.
Global Instance enc_jv : Enc jv := {| enc v := v; dec := Some; dec_enc _ := eq_refl |}.

Global Instance enc_prod {A B} `{Enc A, Enc B} : Enc (A * B).
Proof.
  refine {| enc ab := JArr [enc ab.1; enc ab.2];
            dec v := match v with
                     | JArr [a; b] => match dec a, dec b with
                                      | Some a, Some b => Some (a, b) | _, _ => None end
                     | _ => None end |}.
  abstract (intros [a b]; cbn; by rewrite !dec_enc).
Defined.

Global Instance enc_option {A} `{Enc A} : Enc (option A).
Proof.
  refine {| enc o := match o with Some a => JArr [enc a] | None => JNull end;
            dec v := match v with
                     | JNull => Some None
                     | JArr [a] => match dec a with Some a => Some (Some a) | None => None end
                     | _ => None end |}.
  abstract (intros [a|]; cbn; by rewrite ?dec_enc).
Defined.

Lemma mapM_dec_enc {A} `{Enc A} (l : list A) : mapM dec (enc <$> l) = Some l.
Proof.
  induction l as [|a l IH]; [done|]. rewrite fmap_cons. cbn [mapM]. by rewrite dec_enc, IH.
Qed.

Global Instance enc_list {A} `{Enc A} : Enc (list A).
Proof.
  refine {| enc l := JArr (enc <$> l);
            dec v := match v with JArr l => mapM dec l | _ => None end |}.
  exact mapM_dec_enc.
Defined.

(** Through an isomorphism. *)
Definition enc_iso {A B} `{Enc B} (f : A -> B) (g : B -> A) (Hgf : forall a, g (f a) = a) : Enc A.
Proof.
  refine {| enc a := enc (f a); dec v := match dec v with Some b => Some (g b) | None => None end |}.
  abstract (intros a; by rewrite dec_enc, Hgf).
Defined.

Definition enc_codec {A} `{Enc A} : @Codec jv_json A :=
  @Build_Codec jv_json A (fun a => Ok (enc a : @Value jv_json))
    (fun v => match dec v with Some a => Ok a | None => Err "invalid value" end).

Lemma enc_codec_laws {A} `{Enc A} : @CodecLaws jv_json A enc_codec.
Proof. split. intros a v [= <-]. cbn. by rewrite dec_enc. Qed.

(** * The records *)

#[local] Existing Instance jv_json.

Definition enc_cand_rec : Enc PendingTaskCandidate.
Proof.
  refine (enc_iso (B := string * (string * (string * ((option string) * (Z * ((list string) * (bool * ((option string) * ((option string))))))))))
    (fun r => (cand_candidate_id r, (cand_name r, (cand_ip r, (cand_room r, (cand_port r, (cand_rtsp_paths r, (cand_requires_auth r, (cand_vendor r, cand_model r)))))))))
    (fun '(x0, (x1, (x2, (x3, (x4, (x5, (x6, (x7, x8)))))))) => {| cand_candidate_id := x0; cand_name := x1; cand_ip := x2; cand_room := x3; cand_port := x4; cand_rtsp_paths := x5; cand_requires_auth := x6; cand_vendor := x7; cand_model := x8 |}) _).
  intros []; reflexivity.
Defined.
#[export] Existing Instance enc_cand_rec.

Definition enc_conn_rec : Enc PendingTaskConnect.
Proof.
  refine (enc_iso (B := string * (string * (string * ((option string) * (Z * ((option string) * ((list string) * (bool * ((option string) * ((option string)))))))))))
    (fun r => (conn_resume_token r, (conn_name r, (conn_ip r, (conn_room r, (conn_port r, (conn_snapshot_url r, (conn_rtsp_paths r, (conn_requires_auth r, (conn_vendor r, conn_model r))))))))))
    (fun '(x0, (x1, (x2, (x3, (x4, (x5, (x6, (x7, (x8, x9))))))))) => {| conn_resume_token := x0; conn_name := x1; conn_ip := x2; conn_room := x3; conn_port := x4; conn_snapshot_url := x5; conn_rtsp_paths := x6; conn_requires_auth := x7; conn_vendor := x8; conn_model := x9 |}) _).
  intros []; reflexivity.
Defined.
#[export] Existing Instance enc_conn_rec.

Definition enc_clip_rec : Enc PendingTaskClipConfirmation.
Proof.
  refine (enc_iso (B := string * (string * (string * (string * (string * (string))))))
    (fun r => (clip_resume_token r, (clip_clip_media_asset_id r, (clip_clip_path r, (clip_clip_mime_type r, (clip_cover_path r, clip_display_name r))))))
    (fun '(x0, (x1, (x2, (x3, (x4, x5))))) => {| clip_resume_token := x0; clip_clip_media_asset_id := x1; clip_clip_path := x2; clip_clip_mime_type := x3; clip_cover_path := x4; clip_display_name := x5 |}) _).
  intros []; reflexivity.
Defined.
#[export] Existing Instance enc_clip_rec.

Definition enc_play_rec : Enc RecentClipPlaybackState.
Proof.
  refine (enc_iso (B := string * (string * (string * (string * (string * (Z))))))
    (fun r => (play_clip_media_asset_id r, (play_clip_path r, (play_clip_mime_type r, (play_cover_path r, (play_display_name r, play_captured_at_epoch_ms r))))))
    (fun '(x0, (x1, (x2, (x3, (x4, x5))))) => {| play_clip_media_asset_id := x0; play_clip_path := x1; play_clip_mime_type := x2; play_cover_path := x3; play_display_name := x4; play_captured_at_epoch_ms := x5 |}) _).
  intros []; reflexivity.
Defined.
#[export] Existing Instance enc_play_rec.

Definition enc_fam_rec : Enc RecentFamilyMemoryEventState.
Proof.
  refine (enc_iso (B := string * (string * (string * (string * (Z)))))
    (fun r => (fam_event_id r, (fam_camera_id r, (fam_event_type r, (fam_summary r, fam_referenced_at_epoch_ms r)))))
    (fun '(x0, (x1, (x2, (x3, x4)))) => {| fam_event_id := x0; fam_camera_id := x1; fam_event_type := x2; fam_summary := x3; fam_referenced_at_epoch_ms := x4 |}) _).
  intros []; reflexivity.
Defined.
#[export] Existing Instance enc_fam_rec.

Definition enc_cat_rec : Enc RecentCatActivityQueryState.
Proof.
  refine (enc_iso (B := (option string) * (string * ((list string) * ((list string) * (Z)))))
    (fun r => (cat_camera_hint r, (cat_time_scope r, (cat_issued_artifact_ids r, (cat_last_batch_artifact_ids r, cat_updated_at_epoch_ms r)))))
    (fun '(x0, (x1, (x2, (x3, x4)))) => {| cat_camera_hint := x0; cat_time_scope := x1; cat_issued_artifact_ids := x2; cat_last_batch_artifact_ids := x3; cat_updated_at_epoch_ms := x4 |}) _).
  intros []; reflexivity.
Defined.
#[export] Existing Instance enc_cat_rec.

Definition enc_hac_rec : Enc PendingTaskHomeAssistantCandidate.
Proof.
  refine (enc_iso (B := string * (string * (string * (string * ((option string) * ((option string)))))))
    (fun r => (hac_entity_id r, (hac_domain r, (hac_display_name r, (hac_state r, (hac_area_id r, hac_device_class r))))))
    (fun '(x0, (x1, (x2, (x3, (x4, x5))))) => {| hac_entity_id := x0; hac_domain := x1; hac_display_name := x2; hac_state := x3; hac_area_id := x4; hac_device_class := x5 |}) _).
  intros []; reflexivity.
Defined.
#[export] Existing Instance enc_hac_rec.

Definition enc_ha_rec : Enc PendingTaskHomeAssistantClarification.
Proof.
  refine (enc_iso (B := string * (string * ((option string) * ((list PendingTaskHomeAssistantCandidate)))))
    (fun r => (ha_domain r, (ha_service r, (ha_entity_hint r, ha_candidates r))))
    (fun '(x0, (x1, (x2, x3))) => {| ha_domain := x0; ha_service := x1; ha_entity_hint := x2; ha_candidates := x3 |}) _).
  intros []; reflexivity.
Defined.
#[export] Existing Instance enc_ha_rec.

Definition enc_gml_rec : Enc PendingTaskGeneralMessageLoop.
Proof.
  refine (enc_iso (B := string * (string * (string * (string * ((option string) * ((option string) * ((option string) * ((option PendingTaskHomeAssistantClarification)))))))))
    (fun r => (gml_resume_token r, (gml_original_goal r, (gml_latest_user_intent_text r, (gml_last_clarification_prompt r, (gml_selected_candidate_action r, (gml_camera_hint r, (gml_query r, gml_home_assistant r))))))))
    (fun '(x0, (x1, (x2, (x3, (x4, (x5, (x6, x7))))))) => {| gml_resume_token := x0; gml_original_goal := x1; gml_latest_user_intent_text := x2; gml_last_clarification_prompt := x3; gml_selected_candidate_action := x4; gml_camera_hint := x5; gml_query := x6; gml_home_assistant := x7 |}) _).
  intros []; reflexivity.
Defined.
#[export] Existing Instance enc_gml_rec.

Definition enc_item_rec : Enc PendingTaskSelectionItem.
Proof.
  refine (enc_iso (B := string * (jv))
    (fun r => (item_item_id r, item_payload r))
    (fun '(x0, x1) => {| item_item_id := x0; item_payload := x1 |}) _).
  intros []; reflexivity.
Defined.
#[export] Existing Instance enc_item_rec.

Definition enc_sel_rec : Enc PendingTaskSelectionState.
Proof.
  refine (enc_iso (B := string * ((list PendingTaskSelectionItem)))
    (fun r => (sel_operation r, sel_items r))
    (fun '(x0, x1) => {| sel_operation := x0; sel_items := x1 |}) _).
  intros []; reflexivity.
Defined.
#[export] Existing Instance enc_sel_rec.

Definition enc_res_rec : Enc PendingTaskResumeState.
Proof.
  refine (enc_iso (B := string * (string * (jv)))
    (fun r => (res_operation r, (res_resume_token r, res_payload r)))
    (fun '(x0, (x1, x2)) => {| res_operation := x0; res_resume_token := x1; res_payload := x2 |}) _).
  intros []; reflexivity.
Defined.
#[export] Existing Instance enc_res_rec.

Definition enc_env_rec : Enc TaskSessionStateEnvelope.
Proof.
  refine (enc_iso (B := Z * (string * (string * (jv))))
    (fun r => (env_schema_version r, (env_namespace r, (env_flow_type r, env_flow_state r))))
    (fun '(x0, (x1, (x2, x3))) => {| env_schema_version := x0; env_namespace := x1; env_flow_type := x2; env_flow_state := x3 |}) _).
  intros []; reflexivity.
Defined.
#[export] Existing Instance enc_env_rec.
(** A state is an object with its key and the rest, read with an empty key when
    the key is missing, as [#\[serde(default)\]] says. *)
Definition state_rest (s : TaskConversationState) :=
  ((pending_selection s, pending_resume s), ((pending_candidates s, pending_connect s),
    ((recent_clip_playback s, recent_family_memory_event s),
     (recent_cat_activity_query s, last_scan_cidr s)))).

Definition state_codec : Codec TaskConversationState :=
  @Build_Codec jv_json TaskConversationState
    (fun s => Ok (JObj [("key", JStr (key s)); ("rest", enc (state_rest s))] : @Value jv_json))
    (fun v =>
       let k := match jv_get v "key" with Some (JStr k) => k | _ => "" end in
       match jv_get v "rest" ≫= dec with
       | Some ((a, b), ((c, d), ((e, f), (g, h)))) =>
           Ok {| key := k; pending_selection := a; pending_resume := b; pending_candidates := c;
                 pending_connect := d; recent_clip_playback := e; recent_family_memory_event := f;
                 recent_cat_activity_query := g; last_scan_cidr := h |}
       | None => Err "invalid state"
       end).

#[local] Existing Instance enc_codec.
#[local] Existing Instance state_codec | 0.

Lemma state_codec_key k (v : jv) (s : TaskConversationState) :
  v = enc (state_rest s) ->
  from_value (JObj [("key", JStr k); ("rest", v)] : @Value jv_json) = Ok (set_key k s)
  /\ from_value (JObj [("rest", v)] : @Value jv_json) = Ok (set_key "" s).
Proof.
  intros E. assert (dec v = Some (state_rest s)) as Hd by (rewrite E; apply dec_enc).
  clear E. cbn [from_value state_codec].
  change (jv_get (JObj [("key", JStr k); ("rest", v)]) "rest") with (Some v).
  change (jv_get (JObj [("rest", v)]) "rest") with (Some v).
  cbn [mbind option_bind]. rewrite Hd. by destruct s.
Qed.

Lemma sample_codecs :
  @ConversationCodecs jv_json enc_codec enc_codec enc_codec enc_codec state_codec enc_codec.
Proof.
  split; try apply enc_codec_laws; try (intros c; by eexists).
  - split. intros s v [= <-]. refine (eq_trans (proj1 (state_codec_key (key s) _ s eq_refl)) _).
    by destruct s.
  - intros s v [= <-]. done.
  - intros e v [= <-]. done.
  - by intros k [].
  - intros s v [= <-]. exact (proj2 (state_codec_key "" _ s eq_refl)).
Qed.

(** A user-keyed state with a pending camera connection in the older field. *)
Definition sample_state : TaskConversationState :=
  set_pending_connect
    (Some {| conn_resume_token := "tok"; conn_name := "door"; conn_ip := "10.0.0.2";
             conn_room := None; conn_port := 554; conn_snapshot_url := None;
             conn_rtsp_paths := ["/stream1"]; conn_requires_auth := true; conn_vendor := None;
             conn_model := None |})
    (set_key "user-1" conversation_state_default).

Definition sample_session : ConversationSession :=
  {| cs_session_id := "s-1"; cs_workspace_id := "home"; cs_channel := "im"; cs_surface := "chat";
     cs_conversation_id := "c-1"; cs_user_id := "user-1"; cs_route_key := "";
     cs_last_message_id := ""; cs_chat_type := "";
     cs_state := (match session_state_value_from_conversation sample_state
         (Some {| cs_session_id := "s-1"; cs_workspace_id := "home"; cs_channel := "im";
            cs_surface := "chat"; cs_conversation_id := "c-1"; cs_user_id := "user-1";
            cs_route_key := ""; cs_last_message_id := ""; cs_chat_type := "";
            cs_state := (JNull : @Value jv_json); cs_resume_token := None; cs_expires_at := None |})
       with Ok v => v | Err _ => (JNull : @Value jv_json) end);
     cs_resume_token := None; cs_expires_at := None |}.

Lemma pending_flows_get_set_witness :
  camera_pending_connect (set_camera_pending_connect (pending_connect sample_state) sample_state)
  = pending_connect sample_state.
Proof.
  exact (proj1 (proj2 (@pending_flows_get_set jv_json _ _ _ _ state_codec _ sample_codecs
    sample_state [] (pending_connect sample_state) None None))).
Defined.

Lemma normalize_preserves_view_witness :
  camera_pending_connect (normalize_task_conversation_state sample_state)
  = pending_connect sample_state.
Proof.
  destruct (@normalize_preserves_view jv_json _ _ _ _ state_codec _ sample_codecs sample_state)
    as (_ & _ & _ & _ & _ & _ & _ & _ & _ & H & _).
  rewrite H by (right; reflexivity). vm_compute. reflexivity.
Defined.

Lemma session_state_roundtrip_witness :
  conversation_state_from_session sample_session (Some "user-1")
  = Some (normalize_task_conversation_state sample_state).
Proof.
  destruct (@session_state_roundtrip jv_json _ _ _ _ state_codec _ sample_codecs sample_state
    sample_session (cs_state sample_session) (Some "user-1")) as (s' & -> & _ & _ & H).
  - vm_compute. reflexivity.
  - reflexivity.
  - rewrite H; [reflexivity|reflexivity|vm_compute; reflexivity|vm_compute; reflexivity].
Defined.

(** Without the hint the key comes back as the conversation's id: the envelope
    leaves out a key equal to any of the session's three ids, and puts back the
    first that is not blank. *)
Lemma session_state_key_changes :
  key sample_state = "user-1"
  /\ key <$> conversation_state_from_session sample_session None = Some "c-1".
Proof. split; vm_compute; reflexivity. Qed.
