(* ===== verification/TaskStore.v ===== *)
(** The task conversation store, the second half of
    [src/runtime/task_session.rs]: one JSON file of ten maps, which every
    operation reads whole and, when it changes it, writes whole.

    The disk is the content of the file, if it exists; [Io] says which system
    calls of an operation fail and what a failed write leaves. An operation is a
    function of the two to the disk it leaves and its result. The text of the
    file is an abstract type with the two conversions of [FileCodec]; the order in
    which a hash map lists its values is the interface [HashOrder]. *)
From S2P Require Import Prelude RustString Json Contracts TaskRecords Conversation.
Local Open Scope Z_scope.

(** [HashMap::values]: the values in some order. *)
Class HashOrder := {
  values {A} : gmap string A -> list A;
  values_perm {A} (m : gmap string A) : values m ≡ₚ (map_to_list m).*2
}.

Section store.
Context `{SerdeJson} `{!HashOrder}.
Context `{!Codec PendingTaskCandidate} `{!Codec PendingTaskConnect}
  `{!Codec PendingTaskClipConfirmation} `{!Codec PendingTaskGeneralMessageLoop}
  `{!Codec TaskConversationState} `{!Codec TaskSessionStateEnvelope}.

(** * State *)

Record TaskConversationFile := {
  conversations : gmap string TaskConversationState;
  sessions : gmap string ConversationSession;
  task_runs : gmap string TaskRun;
  task_steps : gmap string TaskStepRun;
  artifacts : gmap string ArtifactRecord;
  media_assets : gmap string MediaAsset;
  approvals : gmap string ApprovalTicket;
  events : gmap string EventRecord;
  media_sessions : gmap string MediaSession;
  share_links : gmap string ShareLink
}.

Definition set_conversations (x : gmap string TaskConversationState) (f : TaskConversationFile) : TaskConversationFile :=
  {| conversations := x; sessions := sessions f; task_runs := task_runs f;
     task_steps := task_steps f; artifacts := artifacts f; media_assets := media_assets f;
     approvals := approvals f; events := events f; media_sessions := media_sessions f;
     share_links := share_links f |}.

Definition set_sessions (x : gmap string ConversationSession) (f : TaskConversationFile) : TaskConversationFile :=
  {| conversations := conversations f; sessions := x; task_runs := task_runs f;
     task_steps := task_steps f; artifacts := artifacts f; media_assets := media_assets f;
     approvals := approvals f; events := events f; media_sessions := media_sessions f;
     share_links := share_links f |}.

Definition set_task_runs (x : gmap string TaskRun) (f : TaskConversationFile) : TaskConversationFile :=
  {| conversations := conversations f; sessions := sessions f; task_runs := x;
     task_steps := task_steps f; artifacts := artifacts f; media_assets := media_assets f;
     approvals := approvals f; events := events f; media_sessions := media_sessions f;
     share_links := share_links f |}.

Definition set_task_steps (x : gmap string TaskStepRun) (f : TaskConversationFile) : TaskConversationFile :=
  {| conversations := conversations f; sessions := sessions f; task_runs := task_runs f;
     task_steps := x; artifacts := artifacts f; media_assets := media_assets f;
     approvals := approvals f; events := events f; media_sessions := media_sessions f;
     share_links := share_links f |}.

Definition set_artifacts (x : gmap string ArtifactRecord) (f : TaskConversationFile) : TaskConversationFile :=
  {| conversations := conversations f; sessions := sessions f; task_runs := task_runs f;
     task_steps := task_steps f; artifacts := x; media_assets := media_assets f;
     approvals := approvals f; events := events f; media_sessions := media_sessions f;
     share_links := share_links f |}.

Definition set_media_assets (x : gmap string MediaAsset) (f : TaskConversationFile) : TaskConversationFile :=
  {| conversations := conversations f; sessions := sessions f; task_runs := task_runs f;
     task_steps := task_steps f; artifacts := artifacts f; media_assets := x;
     approvals := approvals f; events := events f; media_sessions := media_sessions f;
     share_links := share_links f |}.

Definition set_approvals (x : gmap string ApprovalTicket) (f : TaskConversationFile) : TaskConversationFile :=
  {| conversations := conversations f; sessions := sessions f; task_runs := task_runs f;
     task_steps := task_steps f; artifacts := artifacts f; media_assets := media_assets f;
     approvals := x; events := events f; media_sessions := media_sessions f;
     share_links := share_links f |}.

Definition set_events (x : gmap string EventRecord) (f : TaskConversationFile) : TaskConversationFile :=
  {| conversations := conversations f; sessions := sessions f; task_runs := task_runs f;
     task_steps := task_steps f; artifacts := artifacts f; media_assets := media_assets f;
     approvals := approvals f; events := x; media_sessions := media_sessions f;
     share_links := share_links f |}.

Definition set_media_sessions (x : gmap string MediaSession) (f : TaskConversationFile) : TaskConversationFile :=
  {| conversations := conversations f; sessions := sessions f; task_runs := task_runs f;
     task_steps := task_steps f; artifacts := artifacts f; media_assets := media_assets f;
     approvals := approvals f; events := events f; media_sessions := x;
     share_links := share_links f |}.

Definition set_share_links (x : gmap string ShareLink) (f : TaskConversationFile) : TaskConversationFile :=
  {| conversations := conversations f; sessions := sessions f; task_runs := task_runs f;
     task_steps := task_steps f; artifacts := artifacts f; media_assets := media_assets f;
     approvals := approvals f; events := events f; media_sessions := media_sessions f;
     share_links := x |}.

Definition file_default : TaskConversationFile :=
  {| conversations := ∅; sessions := ∅; task_runs := ∅; task_steps := ∅; artifacts := ∅;
     media_assets := ∅; approvals := ∅; events := ∅; media_sessions := ∅; share_links := ∅ |}.

Definition set_ap_status (x : ApprovalStatus) (r : ApprovalTicket) : ApprovalTicket :=
  {| ap_approval_id := ap_approval_id r; ap_task_id := ap_task_id r;
     ap_trace_id := ap_trace_id r; ap_route_key := ap_route_key r;
     ap_policy_ref := ap_policy_ref r; ap_requester_user_id := ap_requester_user_id r;
     ap_approver_user_id := ap_approver_user_id r; ap_status := x; ap_reason := ap_reason r;
     ap_requested_at := ap_requested_at r; ap_decided_at := ap_decided_at r |}.

Definition set_ap_approver_user_id (x : option string) (r : ApprovalTicket) : ApprovalTicket :=
  {| ap_approval_id := ap_approval_id r; ap_task_id := ap_task_id r;
     ap_trace_id := ap_trace_id r; ap_route_key := ap_route_key r;
     ap_policy_ref := ap_policy_ref r; ap_requester_user_id := ap_requester_user_id r;
     ap_approver_user_id := x; ap_status := ap_status r; ap_reason := ap_reason r;
     ap_requested_at := ap_requested_at r; ap_decided_at := ap_decided_at r |}.

Definition set_ap_decided_at (x : option string) (r : ApprovalTicket) : ApprovalTicket :=
  {| ap_approval_id := ap_approval_id r; ap_task_id := ap_task_id r;
     ap_trace_id := ap_trace_id r; ap_route_key := ap_route_key r;
     ap_policy_ref := ap_policy_ref r; ap_requester_user_id := ap_requester_user_id r;
     ap_approver_user_id := ap_approver_user_id r; ap_status := ap_status r;
     ap_reason := ap_reason r; ap_requested_at := ap_requested_at r; ap_decided_at := x |}.

Definition set_sl_revoked_at (x : option string) (r : ShareLink) : ShareLink :=
  {| sl_share_link_id := sl_share_link_id r; sl_media_session_id := sl_media_session_id r;
     sl_token_hash := sl_token_hash r; sl_access_scope := sl_access_scope r;
     sl_expires_at := sl_expires_at r; sl_revoked_at := x |}.

Definition set_ms_status (x : MediaSessionStatus) (r : MediaSession) : MediaSession :=
  {| ms_media_session_id := ms_media_session_id r; ms_device_id := ms_device_id r;
     ms_stream_profile_id := ms_stream_profile_id r; ms_session_kind := ms_session_kind r;
     ms_delivery_mode := ms_delivery_mode r; ms_opened_by_user_id := ms_opened_by_user_id r;
     ms_status := x; ms_share_link_id := ms_share_link_id r; ms_started_at := ms_started_at r;
     ms_ended_at := ms_ended_at r; ms_metadata := ms_metadata r |}.

Definition set_ms_ended_at (x : option string) (r : MediaSession) : MediaSession :=
  {| ms_media_session_id := ms_media_session_id r; ms_device_id := ms_device_id r;
     ms_stream_profile_id := ms_stream_profile_id r; ms_session_kind := ms_session_kind r;
     ms_delivery_mode := ms_delivery_mode r; ms_opened_by_user_id := ms_opened_by_user_id r;
     ms_status := ms_status r; ms_share_link_id := ms_share_link_id r;
     ms_started_at := ms_started_at r; ms_ended_at := x; ms_metadata := ms_metadata r |}.

Definition set_cs_state (x : Value) (r : ConversationSession) : ConversationSession :=
  {| cs_session_id := cs_session_id r; cs_workspace_id := cs_workspace_id r;
     cs_channel := cs_channel r; cs_surface := cs_surface r;
     cs_conversation_id := cs_conversation_id r; cs_user_id := cs_user_id r;
     cs_route_key := cs_route_key r; cs_last_message_id := cs_last_message_id r;
     cs_chat_type := cs_chat_type r; cs_state := x; cs_resume_token := cs_resume_token r;
     cs_expires_at := cs_expires_at r |}.

Definition set_cs_resume_token (x : option string) (r : ConversationSession) : ConversationSession :=
  {| cs_session_id := cs_session_id r; cs_workspace_id := cs_workspace_id r;
     cs_channel := cs_channel r; cs_surface := cs_surface r;
     cs_conversation_id := cs_conversation_id r; cs_user_id := cs_user_id r;
     cs_route_key := cs_route_key r; cs_last_message_id := cs_last_message_id r;
     cs_chat_type := cs_chat_type r; cs_state := cs_state r; cs_resume_token := x;
     cs_expires_at := cs_expires_at r |}.
(** * The file *)

Context {Text : Type}.

(** [serde_json::to_string_pretty] and [serde_json::from_str] at the file's type. *)
Class FileCodec := {
  to_string_pretty : TaskConversationFile -> result string Text;
  from_str : Text -> result string TaskConversationFile;
  from_to_string f t : to_string_pretty f = Ok t -> from_str t = Ok f
}.
Context `{!FileCodec}.

(** [TaskConversationStore]: its path and the path's parent, displayed. *)
Record TaskConversationStore := {
  path : string;
  parent : option string
}.

(** The content of the file at the path. *)
Definition Disk : Type := option Text.

(** The failures of one operation's system calls: [stat_fault], the file exists
    but [exists] cannot tell; the errors of reading and of making the directory;
    and that of writing, with the content a failed write leaves. *)
Record Io := {
  stat_fault : bool;
  read_fault : option string;
  mkdir_fault : option string;
  write_fault : option (string * Disk)
}.

Definition io_ok : Io :=
  {| stat_fault := false; read_fault := None; mkdir_fault := None; write_fault := None |}.

Context (store : TaskConversationStore).

Definition load_file (io : Io) (d : Disk) : result string TaskConversationFile :=
  match d with
  | None => Ok file_default
  | Some text =>
      if stat_fault io then Ok file_default else
      match read_fault io with
      | Some error => Err ("failed to read Task conversation state " +:+ path store +:+ ": " +:+ error)
      | None =>
          map_err (fun error => "failed to parse Task conversation state " +:+ path store
                                +:+ ": " +:+ error) (from_str text)
      end
  end.

Definition save_file (f : TaskConversationFile) (io : Io) (d : Disk) : Disk * result string unit :=
  match parent store, mkdir_fault io with
  | Some p, Some error =>
      (d, Err ("failed to create Task conversation directory " +:+ p +:+ ": " +:+ error))
  | _, _ =>
      match to_string_pretty f with
      | Err error =>
          (d, Err ("failed to serialize Task conversation state " +:+ path store +:+ ": " +:+ error))
      | Ok text =>
          match write_fault io with
          | Some (error, remains) =>
              (remains, Err ("failed to write Task conversation state " +:+ path store +:+ ": " +:+ error))
          | None => (Some text, Ok tt)
          end
      end
  end.

(** What the operations share: a reading one, and one that loads the file, may
    change it, and saves it if it did. *)
Definition query {A} (f : TaskConversationFile -> A) (io : Io) (d : Disk) : result string A :=
  f <$> load_file io d.

Definition update {A} (f : TaskConversationFile -> result string (option TaskConversationFile * A))
    (io : Io) (d : Disk) : Disk * result string A :=
  match load_file io d with
  | Err e => (d, Err e)
  | Ok file =>
      match f file with
      | Err e => (d, Err e)
      | Ok (None, a) => (d, Ok a)
      | Ok (Some file, a) =>
          match save_file file io d with
          | (d, Ok _) => (d, Ok a)
          | (d, Err e) => (d, Err e)
          end
      end
  end.

(** The operations that only insert. *)
Definition insert_with (f : TaskConversationFile -> TaskConversationFile) (io : Io) (d : Disk)
  : Disk * result string unit :=
  update (fun file => Ok (Some (f file), tt)) io d.

(** * Conversations and sessions *)

Definition load (k : string) : Io -> Disk -> result string TaskConversationState :=
  query (fun f => normalize_task_conversation_state
    (default (set_key k conversation_state_default) (conversations f !! k))).

Definition put_conversation (s : TaskConversationState) (f : TaskConversationFile)
  : TaskConversationFile :=
  set_conversations (<[ key s := s ]> (conversations f)) f.

Definition save (s : TaskConversationState) (io : Io) (d : Disk) : Disk * result string unit :=
  if is_blank (key s) then (d, Err "conversation key 不能为空")
  else insert_with (put_conversation (persisted_task_conversation_state s)) io d.

Definition remove_conversation (k : string) (f : TaskConversationFile) : TaskConversationFile :=
  set_conversations (delete k (conversations f)) f.

Definition clear (k : string) : Io -> Disk -> Disk * result string unit :=
  insert_with (remove_conversation k).

Definition load_for_session (session_id : string) (key_hint : option string)
  : Io -> Disk -> result string (option TaskConversationState) :=
  query (fun f =>
    match sessions f !! session_id ≫= (fun s => conversation_state_from_session s key_hint) with
    | Some s => Some s
    | None =>
        match non_empty_string key_hint with
        | None => None
        | Some k =>
            (fun s => normalize_task_conversation_state (if is_blank (key s) then set_key k s else s))
            <$> conversations f !! k
        end
    end).

Definition put_session (s : ConversationSession) (f : TaskConversationFile) : TaskConversationFile :=
  set_sessions (<[ cs_session_id s := s ]> (sessions f)) f.

Definition save_for_session (session : ConversationSession) (s : TaskConversationState)
    (io : Io) (d : Disk) : Disk * result string unit :=
  if is_blank (cs_session_id session) then (d, Err "session_id 不能为空")
  else if is_blank (key s) then (d, Err "conversation key 不能为空")
  else update (fun f =>
    let stored := persisted_task_conversation_state s in
    match envelope_from_conversation_state stored (Some session) with
    | Err e => Err e
    | Ok envelope =>
        match map_err (fun error => "failed to serialize Task conversation session state "
                                    +:+ path store +:+ ": " +:+ error) (to_value envelope) with
        | Err e => Err e
        | Ok v => Ok (Some (put_conversation stored (put_session (set_cs_state v session) f)), tt)
        end
    end) io d.

Definition clear_for_session (session_id : string) (key_hint : option string)
  : Io -> Disk -> Disk * result string unit :=
  insert_with (fun f =>
    let f := set_sessions
      (alter (fun s => set_cs_resume_token None (set_cs_state json_null s)) session_id (sessions f)) f in
    match non_empty_string key_hint with
    | Some k => remove_conversation k f
    | None => f
    end).

Definition load_session (session_id : string) : Io -> Disk -> result string (option ConversationSession) :=
  query (fun f => sessions f !! session_id).

Definition save_session (s : ConversationSession) (io : Io) (d : Disk) : Disk * result string unit :=
  if is_blank (cs_session_id s) then (d, Err "session_id 不能为空")
  else insert_with (put_session s) io d.

(** ** Listings *)

(** [Iterator::max] of strings. *)
Definition str_max (l : list string) : option string :=
  foldl (fun acc x => match acc with
                      | None => Some x
                      | Some a => match String.compare x a with Lt => Some a | _ => Some x end
                      end) None l.

(** When the last run of a session started. *)
Definition last_started (f : TaskConversationFile) (session_id : string) : option string :=
  str_max (omap run_started_at
    (List.filter (fun r => (run_session_id r =? session_id)%string) (values (task_runs f)))).

Definition opt_cmp : option string -> option string -> comparison := option_compare String.compare.

Definition newer_session (f : TaskConversationFile) (left right : ConversationSession) : comparison :=
  then_with (opt_cmp (last_started f (cs_session_id right)) (last_started f (cs_session_id left)))
    (String.compare (cs_session_id right) (cs_session_id left)).

Definition user_surface_sessions (user_id surface : string) (f : TaskConversationFile)
  : list ConversationSession :=
  sort_by (newer_session f)
    (List.filter (fun s => (cs_user_id s =? user_id)%string && (cs_surface s =? surface)%string)
      (values (sessions f))).

Definition sessions_for_user_surface (user_id surface : string)
  : Io -> Disk -> result string (list ConversationSession) :=
  query (user_surface_sessions user_id surface).

(** ** Deletion *)

Definition ids {A} (f : A -> string) (l : list A) : gset string := list_to_set (f <$> l).

Definition str_in (x : string) (s : gset string) : bool := bool_decide (x ∈ s).

(** [option.is_some_and(|id| task_ids.contains(id) || step_ids.contains(id))] *)
Definition refers (tasks steps : gset string) (o : option string) : bool :=
  match o with Some id => str_in id tasks || str_in id steps | None => false end.

Definition session_task_ids (session_id : string) (f : TaskConversationFile) : gset string :=
  ids run_task_id
    (List.filter (fun r => (run_session_id r =? session_id)%string) (values (task_runs f))).

Definition session_step_ids (tasks : gset string) (f : TaskConversationFile) : gset string :=
  ids step_step_id (List.filter (fun s => str_in (step_task_id s) tasks) (values (task_steps f))).

(** [HashMap::retain] *)
Definition retain {A} (p : string -> A -> bool) (m : gmap string A) : gmap string A :=
  filter (fun kv => p kv.1 kv.2 = true) m.

Definition remove_session_with_tasks (session_id : string) (f : TaskConversationFile)
  : TaskConversationFile :=
  let f := set_sessions (delete session_id (sessions f)) f in
  let tasks := session_task_ids session_id f in
  let steps := session_step_ids tasks f in
  let f := set_task_runs (retain (fun k _ => negb (str_in k tasks)) (task_runs f)) f in
  let f := set_task_steps (retain (fun k _ => negb (str_in k steps)) (task_steps f)) f in
  let f := set_artifacts (retain (fun _ a => negb (str_in (art_task_id a) tasks)) (artifacts f)) f in
  set_events (retain (fun _ e =>
    negb (str_in (ev_source_id e) tasks) && negb (str_in (ev_source_id e) steps)
    && negb (refers tasks steps (ev_correlation_id e))
    && negb (refers tasks steps (ev_causation_id e))) (events f)) f.

Definition delete_session_with_tasks (session_id : string) (io : Io) (d : Disk)
  : Disk * result string bool :=
  if is_blank session_id then (d, Ok false)
  else update (fun f =>
    match sessions f !! session_id with
    | None => Ok (None, false)
    | Some _ => Ok (Some (remove_session_with_tasks session_id f), true)
    end) io d.

(** The loop of [prune_sessions_for_user_surface]; each deletion is an operation
    with system calls of its own. *)
Fixpoint delete_sessions (l : list ConversationSession) (ios : nat -> Io) (removed : list string)
    (d : Disk) : Disk * result string (list string) :=
  match l with
  | [] => (d, Ok removed)
  | s :: l =>
      match delete_session_with_tasks (cs_session_id s) (ios 0%nat) d with
      | (d, Err e) => (d, Err e)
      | (d, Ok b) =>
          delete_sessions l (fun n => ios (S n))
            (if b then removed ++ [cs_session_id s] else removed) d
      end
  end.

Definition prune_sessions_for_user_surface (user_id surface : string) (limit : nat) (io : Io)
    (ios : nat -> Io) (d : Disk) : Disk * result string (list string) :=
  match sessions_for_user_surface user_id surface io d with
  | Err e => (d, Err e)
  | Ok l => delete_sessions (drop (Nat.max limit 1) l) ios [] d
  end.

(** * Task runs and steps *)

Definition load_task_run (task_id : string) : Io -> Disk -> result string (option TaskRun) :=
  query (fun f => task_runs f !! task_id).

Definition put_task_run (r : TaskRun) (f : TaskConversationFile) : TaskConversationFile :=
  set_task_runs (<[ run_task_id r := r ]> (task_runs f)) f.

Definition save_task_run (r : TaskRun) (io : Io) (d : Disk) : Disk * result string unit :=
  if is_blank (run_task_id r) then (d, Err "task_id 不能为空") else insert_with (put_task_run r) io d.

Definition newer_run (left right : TaskRun) : comparison :=
  then_with (opt_cmp (run_started_at right) (run_started_at left))
    (String.compare (run_task_id right) (run_task_id left)).

Definition recent_task_runs_for_session (session_id : string) (limit : nat) (io : Io) (d : Disk)
  : result string (list TaskRun) :=
  if is_blank session_id || (limit =? 0)%nat then Ok []
  else query (fun f => take limit (sort_by newer_run
    (List.filter (fun r => (run_session_id r =? session_id)%string) (values (task_runs f))))) io d.

Definition load_task_step (step_id : string) : Io -> Disk -> result string (option TaskStepRun) :=
  query (fun f => task_steps f !! step_id).

Definition step_cmp (left right : TaskStepRun) : comparison :=
  then_with (then_with (opt_cmp (step_ended_at left) (step_ended_at right))
                       (opt_cmp (step_started_at left) (step_started_at right)))
    (String.compare (step_step_id left) (step_step_id right)).

(** [if l.len() > limit { l = l.split_off(l.len() - limit) }] *)
Definition keep_last {A} (limit : nat) (l : list A) : list A :=
  if (limit <? length l)%nat then drop (length l - limit) l else l.

Definition recent_task_steps (limit : nat) (io : Io) (d : Disk) : result string (list TaskStepRun) :=
  if (limit =? 0)%nat then Ok []
  else query (fun f => keep_last limit (sort_by step_cmp (values (task_steps f)))) io d.

Definition put_task_step (s : TaskStepRun) (f : TaskConversationFile) : TaskConversationFile :=
  set_task_steps (<[ step_step_id s := s ]> (task_steps f)) f.

Definition save_task_step (s : TaskStepRun) (io : Io) (d : Disk) : Disk * result string unit :=
  if is_blank (step_step_id s) then (d, Err "step_id 不能为空") else insert_with (put_task_step s) io d.

(** * Media *)

Definition load_media_asset (asset_id : string) : Io -> Disk -> result string (option MediaAsset) :=
  query (fun f => media_assets f !! asset_id).

Definition asset_cmp (left right : MediaAsset) : comparison :=
  then_with (opt_cmp (ma_captured_at left) (ma_captured_at right))
    (String.compare (ma_asset_id left) (ma_asset_id right)).

Definition list_media_assets : Io -> Disk -> result string (list MediaAsset) :=
  query (fun f => sort_by asset_cmp (values (media_assets f))).

Definition put_media_asset (a : MediaAsset) (f : TaskConversationFile) : TaskConversationFile :=
  set_media_assets (<[ ma_asset_id a := a ]> (media_assets f)) f.

Definition save_media_asset (a : MediaAsset) (io : Io) (d : Disk) : Disk * result string unit :=
  if is_blank (ma_asset_id a) then (d, Err "asset_id 不能为空") else insert_with (put_media_asset a) io d.

Definition load_media_session (id : string) : Io -> Disk -> result string (option MediaSession) :=
  query (fun f => media_sessions f !! id).

Definition media_session_cmp (left right : MediaSession) : comparison :=
  then_with (opt_cmp (ms_started_at left) (ms_started_at right))
    (String.compare (ms_media_session_id left) (ms_media_session_id right)).

Definition list_media_sessions : Io -> Disk -> result string (list MediaSession) :=
  query (fun f => sort_by media_session_cmp (values (media_sessions f))).

Definition put_media_session (m : MediaSession) (f : TaskConversationFile) : TaskConversationFile :=
  set_media_sessions (<[ ms_media_session_id m := m ]> (media_sessions f)) f.

Definition save_media_session (m : MediaSession) (io : Io) (d : Disk) : Disk * result string unit :=
  if is_blank (ms_media_session_id m) then (d, Err "media_session_id 不能为空")
  else insert_with (put_media_session m) io d.

(** [if new.is_some() { field = new }] *)
Definition some_or {A} (new old : option A) : option A :=
  match new with Some _ => new | None => old end.

(** The operations that change one record of a map, if it is there, and return
    it; they store it under the key it was found at. *)
Definition update_record {A} (m : TaskConversationFile -> gmap string A)
    (set : gmap string A -> TaskConversationFile -> TaskConversationFile) (k : string) (g : A -> A)
  : Io -> Disk -> Disk * result string (option A) :=
  update (fun f =>
    match m f !! k with
    | None => Ok (None, None)
    | Some x => Ok (Some (set (<[ k := g x ]> (m f)) f), Some (g x))
    end).

Definition close_media_session (id : string) (ended_at : option string)
  : Io -> Disk -> Disk * result string (option MediaSession) :=
  update_record media_sessions set_media_sessions id (fun m =>
    set_ms_ended_at (some_or ended_at (ms_ended_at m)) (set_ms_status MediaClosed m)).

Definition load_share_link (id : string) : Io -> Disk -> result string (option ShareLink) :=
  query (fun f => share_links f !! id).

Definition share_link_cmp (left right : ShareLink) : comparison :=
  then_with (opt_cmp (sl_expires_at left) (sl_expires_at right))
    (String.compare (sl_share_link_id left) (sl_share_link_id right)).

Definition list_share_links : Io -> Disk -> result string (list ShareLink) :=
  query (fun f => sort_by share_link_cmp (values (share_links f))).

Definition find_share_link_by_token_hash (token_hash : string)
  : Io -> Disk -> result string (option ShareLink) :=
  query (fun f => list_find (fun l => (sl_token_hash l =? token_hash)%string) (values (share_links f))).

Definition put_share_link (l : ShareLink) (f : TaskConversationFile) : TaskConversationFile :=
  set_share_links (<[ sl_share_link_id l := l ]> (share_links f)) f.

Definition save_share_link (l : ShareLink) (io : Io) (d : Disk) : Disk * result string unit :=
  if is_blank (sl_share_link_id l) then (d, Err "share_link_id 不能为空")
  else insert_with (put_share_link l) io d.

Definition save_share_link_bundle (m : MediaSession) (l : ShareLink) (io : Io) (d : Disk)
  : Disk * result string unit :=
  if is_blank (ms_media_session_id m) then (d, Err "media_session_id 不能为空")
  else if is_blank (sl_share_link_id l) then (d, Err "share_link_id 不能为空")
  else if negb (sl_media_session_id l =? ms_media_session_id m)%string then
    (d, Err "share_link.media_session_id 必须匹配 media_session_id")
  else insert_with (fun f => put_share_link l (put_media_session m f)) io d.

Definition revoke_share_link (id : string) (revoked_at : option string)
  : Io -> Disk -> Disk * result string (option ShareLink) :=
  update_record share_links set_share_links id (fun l =>
    set_sl_revoked_at (some_or revoked_at (sl_revoked_at l)) l).

(** * Artifacts *)

Definition artifact_cmp (left right : ArtifactRecord) : comparison :=
  String.compare (art_artifact_id left) (art_artifact_id right).

Definition artifacts_for_task (task_id : string) : Io -> Disk -> result string (list ArtifactRecord) :=
  query (fun f => sort_by artifact_cmp
    (List.filter (fun a => (art_task_id a =? task_id)%string) (values (artifacts f)))).

Definition opt_str_eqb (a b : option string) : bool := bool_decide (a = b).

(** The loop of the two [replace_.._for_step]: insert each record, or stop at the
    first with a blank id, before anything is saved. *)
Fixpoint insert_all {A} (id : A -> string) (error : string) (l : list A) (m : gmap string A)
  : result string (gmap string A) :=
  match l with
  | [] => Ok m
  | x :: l => if is_blank (id x) then Err error else insert_all id error l (<[ id x := x ]> m)
  end.

Definition replace_artifacts_for_step (task_id : string) (step_id : option string)
    (l : list ArtifactRecord) : Io -> Disk -> Disk * result string unit :=
  update (fun f =>
    let m := retain (fun _ a => negb ((art_task_id a =? task_id)%string
                                      && opt_str_eqb (art_step_id a) step_id)) (artifacts f) in
    match insert_all art_artifact_id "artifact_id 不能为空" l m with
    | Err e => Err e
    | Ok m => Ok (Some (set_artifacts m f), tt)
    end).

(** * Approvals *)

Definition approval_cmp (left right : ApprovalTicket) : comparison :=
  then_with (opt_cmp (ap_requested_at left) (ap_requested_at right))
    (String.compare (ap_approval_id left) (ap_approval_id right)).

Definition is_pending (a : ApprovalTicket) : bool := bool_decide (ap_status a = ApprovalPending).

Definition approvals_for_task (task_id : string) : Io -> Disk -> result string (list ApprovalTicket) :=
  query (fun f => sort_by approval_cmp
    (List.filter (fun a => (ap_task_id a =? task_id)%string) (values (approvals f)))).

Definition pending_approvals : Io -> Disk -> result string (list ApprovalTicket) :=
  query (fun f => sort_by approval_cmp (List.filter is_pending (values (approvals f)))).

Definition load_approval (id : string) : Io -> Disk -> result string (option ApprovalTicket) :=
  query (fun f => approvals f !! id).

Definition put_approval (a : ApprovalTicket) (f : TaskConversationFile) : TaskConversationFile :=
  set_approvals (<[ ap_approval_id a := a ]> (approvals f)) f.

Definition save_approval (a : ApprovalTicket) (io : Io) (d : Disk) : Disk * result string unit :=
  if is_blank (ap_approval_id a) then (d, Err "approval_id 不能为空")
  else insert_with (put_approval a) io d.

Definition decide_ticket (status : ApprovalStatus) (approver decided_at : option string)
    (a : ApprovalTicket) : ApprovalTicket :=
  set_ap_decided_at (some_or decided_at (ap_decided_at a))
    (set_ap_approver_user_id (some_or approver (ap_approver_user_id a)) (set_ap_status status a)).

Definition is_pending_of (task_id : string) (a : ApprovalTicket) : bool :=
  (ap_task_id a =? task_id)%string && is_pending a.

Definition resolve_pending_approvals (task_id : string) (approver decided_at : option string)
  : Io -> Disk -> Disk * result string (list ApprovalTicket) :=
  update (fun f =>
    let g := decide_ticket ApprovalApproved approver decided_at in
    Ok (Some (set_approvals ((fun a => if is_pending_of task_id a then g a else a) <$> approvals f) f),
        g <$> List.filter (is_pending_of task_id) (values (approvals f)))).

Definition update_approval_status (id : string) (status : ApprovalStatus)
    (approver decided_at : option string)
  : Io -> Disk -> Disk * result string (option ApprovalTicket) :=
  update_record approvals set_approvals id (decide_ticket status approver decided_at).

(** * Events *)

Definition event_cmp (left right : EventRecord) : comparison :=
  then_with (opt_cmp (ev_occurred_at left) (ev_occurred_at right))
    (String.compare (ev_event_id left) (ev_event_id right)).

Definition events_for_task (task_id : string) : Io -> Disk -> result string (list EventRecord) :=
  query (fun f => sort_by event_cmp
    (List.filter (fun e => (ev_source_id e =? task_id)%string) (values (events f)))).

Definition recent_events (limit : nat) (io : Io) (d : Disk) : result string (list EventRecord) :=
  if (limit =? 0)%nat then Ok []
  else query (fun f => keep_last limit (sort_by event_cmp (values (events f)))) io d.

Definition replace_events_for_step (task_id : string) (step_id : option string)
    (l : list EventRecord) : Io -> Disk -> Disk * result string unit :=
  update (fun f =>
    let m := retain (fun _ e => negb ((ev_source_id e =? task_id)%string
                                      && opt_str_eqb (ev_causation_id e) step_id)) (events f) in
    match insert_all ev_event_id "event_id 不能为空" l m with
    | Err e => Err e
    | Ok m => Ok (Some (set_events m f), tt)
    end).

End store.
Arguments FileCodec {_} Text : assert.
Arguments Disk Text : clear implicits.
Arguments Io Text : clear implicits.
