(* ===== verification/TaskStoreTheorems.v ===== *)
(** What the task conversation store guarantees. *)
From S2P Require Import Prelude RustString Json Contracts TaskRecords Conversation TaskStore.
Local Open Scope Z_scope.

(** * Maps whose keys are their records' ids *)

Definition keyed_map {A} (id : A -> string) (m : gmap string A) : Prop :=
  forall k x, m !! k = Some x -> id x = k.

Lemma keyed_empty {A} (id : A -> string) : keyed_map id ∅.
Proof. intros k x. by rewrite lookup_empty. Qed.

Lemma keyed_insert {A} (id : A -> string) m x :
  keyed_map id m -> keyed_map id (<[ id x := x ]> m).
Proof. intros Hm k y [[<- <-]|[_ Hy]]%lookup_insert_Some; [done|by apply Hm]. Qed.

Lemma keyed_insert_same {A} (id : A -> string) m k x y :
  keyed_map id m -> m !! k = Some x -> id y = id x -> keyed_map id (<[ k := y ]> m).
Proof.
  intros Hm Hx E k' z [[<- <-]|[_ Hy]]%lookup_insert_Some; [|by apply Hm].
  rewrite E. by apply Hm.
Qed.

Lemma keyed_delete {A} (id : A -> string) m k : keyed_map id m -> keyed_map id (delete k m).
Proof. intros Hm k' x [_ Hx]%lookup_delete_Some. by apply Hm. Qed.

Lemma lookup_retain {A} p (m : gmap string A) k x :
  retain p m !! k = Some x <-> m !! k = Some x /\ p k x = true.
Proof. unfold retain. by rewrite map_lookup_filter_Some. Qed.

Lemma keyed_retain {A} (id : A -> string) p m : keyed_map id m -> keyed_map id (retain p m).
Proof. intros Hm k x [? _]%lookup_retain. by apply Hm. Qed.

Lemma keyed_fmap {A} (id : A -> string) (g : A -> A) m :
  (forall x, id (g x) = id x) -> keyed_map id m -> keyed_map id (g <$> m).
Proof.
  intros Hg Hm k x. rewrite lookup_fmap_Some. intros (y & <- & Hy). rewrite Hg. by apply Hm.
Qed.

Lemma keyed_alter {A} (id : A -> string) (g : A -> A) m k :
  (forall x, id (g x) = id x) -> keyed_map id m -> keyed_map id (alter g k m).
Proof.
  intros Hg Hm k' x. rewrite lookup_alter_Some. intros [(<- & y & Hy & ->)|[_ Hx]]; [|by apply Hm].
  rewrite Hg. by apply Hm.
Qed.

Lemma keyed_insert_all {A} (id : A -> string) e l m m' :
  keyed_map id m -> insert_all id e l m = Ok m' -> keyed_map id m'.
Proof.
  revert m. induction l as [|x l IH]; intros m Hm; cbn; [by intros [= <-]|].
  destruct (is_blank (id x)); [done|]. by apply IH, keyed_insert.
Qed.

Section values.
Context `{!HashOrder}.

Lemma elem_of_values {A} (m : gmap string A) x : x ∈ values m <-> exists k, m !! k = Some x.
Proof.
  rewrite values_perm, list_elem_of_fmap. split.
  - intros ([k y] & -> & Hy%elem_of_map_to_list). by exists k.
  - intros [k Hk]. exists (k, x). by rewrite elem_of_map_to_list.
Qed.

Lemma keyed_values {A} (id : A -> string) m x :
  keyed_map id m -> x ∈ values m <-> m !! id x = Some x.
Proof.
  intros Hm. rewrite elem_of_values. split; [|eauto].
  intros [k Hk]. by rewrite (Hm k x Hk).
Qed.

Lemma keyed_inj {A} (id : A -> string) m x y :
  keyed_map id m -> x ∈ values m -> y ∈ values m -> id x = id y -> x = y.
Proof. intros Hm. rewrite !(keyed_values id m) by done. congruence. Qed.
End values.

(** Listings do not depend on the order of the hash map. *)
Lemma filter_values_perm {A} (h1 h2 : HashOrder) (p : A -> bool) (m : gmap string A) :
  List.filter p (@values h1 A m) ≡ₚ List.filter p (@values h2 A m).
Proof. apply list_filter_perm. by rewrite !values_perm. Qed.

Lemma sort_values_eq {A} (h1 h2 : HashOrder) (id : A -> string) (p : A -> bool) cmp
    `{!TotalCmp cmp} (m : gmap string A) :
  keyed_map id m -> (forall x y, cmp x y = Eq -> id x = id y) ->
  sort_by cmp (List.filter p (@values h1 A m)) = sort_by cmp (List.filter p (@values h2 A m)).
Proof.
  intros Hm Hc. apply sort_by_perm_eq; [done| |apply filter_values_perm].
  intros x y [Hx _]%elem_of_list_filter [Hy _]%elem_of_list_filter E%Hc.
  exact (@keyed_inj h1 A id m x y Hm Hx Hy E).
Qed.

(** * Comparison functions *)

Lemma opt_cmp_total : TotalCmp opt_cmp.
Proof. unfold opt_cmp. total_cmp. Qed.
#[export] Hint Resolve opt_cmp_total : total_cmp.

Lemma string_compare_eq a b : String.compare a b = Eq -> a = b.
Proof. apply String.compare_eq_iff. Qed.

Lemma then_with_eq c d : then_with c d = Eq -> d = Eq.
Proof. by destruct c. Qed.

Section cmps.
Context `{SerdeJson}.

Global Instance newer_run_total : TotalCmp newer_run.
Proof. unfold newer_run. total_cmp. Qed.
Global Instance newer_session_total `{!HashOrder} f : TotalCmp (newer_session f).
Proof. unfold newer_session. total_cmp. Qed.
Global Instance step_cmp_total : TotalCmp step_cmp.
Proof. unfold step_cmp. total_cmp. Qed.
Global Instance asset_cmp_total : TotalCmp asset_cmp.
Proof. unfold asset_cmp. total_cmp. Qed.
Global Instance media_session_cmp_total : TotalCmp media_session_cmp.
Proof. unfold media_session_cmp. total_cmp. Qed.
Global Instance event_cmp_total : TotalCmp event_cmp.
Proof. unfold event_cmp. total_cmp. Qed.
Global Instance artifact_cmp_total : TotalCmp artifact_cmp.
Proof. unfold artifact_cmp. total_cmp. Qed.
End cmps.

Global Instance share_link_cmp_total : TotalCmp share_link_cmp.
Proof. unfold share_link_cmp. total_cmp. Qed.
Global Instance approval_cmp_total : TotalCmp approval_cmp.
Proof. unfold approval_cmp. total_cmp. Qed.

(** * The operations as steps *)

Section store_theorems.
Context `{SerdeJson} `{!HashOrder}.
Context `{!Codec PendingTaskCandidate} `{!Codec PendingTaskConnect}
  `{!Codec PendingTaskClipConfirmation} `{!Codec PendingTaskGeneralMessageLoop}
  `{!Codec TaskConversationState} `{!Codec TaskSessionStateEnvelope}.
Context {Text : Type} `{!FileCodec Text} (store : TaskConversationStore).

(** Every operation that may write the file. *)
Inductive StoreOp :=
| OpSave (s : TaskConversationState)
| OpClear (k : string)
| OpSaveForSession (session : ConversationSession) (s : TaskConversationState)
| OpClearForSession (session_id : string) (hint : option string)
| OpSaveSession (s : ConversationSession)
| OpDeleteSession (session_id : string)
| OpSaveTaskRun (r : TaskRun)
| OpSaveTaskStep (s : TaskStepRun)
| OpSaveMediaAsset (a : MediaAsset)
| OpSaveMediaSession (m : MediaSession)
| OpCloseMediaSession (id : string) (ended_at : option string)
| OpSaveShareLink (l : ShareLink)
| OpSaveShareLinkBundle (m : MediaSession) (l : ShareLink)
| OpRevokeShareLink (id : string) (revoked_at : option string)
| OpReplaceArtifacts (task_id : string) (step_id : option string) (l : list ArtifactRecord)
| OpSaveApproval (a : ApprovalTicket)
| OpResolveApprovals (task_id : string) (approver decided_at : option string)
| OpUpdateApproval (id : string) (status : ApprovalStatus) (approver decided_at : option string)
| OpReplaceEvents (task_id : string) (step_id : option string) (l : list EventRecord).

Definition drop_result {A} (r : Disk Text * result string A) : Disk Text * option string :=
  (r.1, match r.2 with Ok _ => None | Err e => Some e end).

(** The disk an operation leaves, and its error. *)
Definition exec (op : StoreOp) (io : Io Text) (d : Disk Text) : Disk Text * option string :=
  match op with
  | OpSave s => drop_result (save store s io d)
  | OpClear k => drop_result (clear store k io d)
  | OpSaveForSession x s => drop_result (save_for_session store x s io d)
  | OpClearForSession i h => drop_result (clear_for_session store i h io d)
  | OpSaveSession s => drop_result (save_session store s io d)
  | OpDeleteSession i => drop_result (delete_session_with_tasks store i io d)
  | OpSaveTaskRun r => drop_result (save_task_run store r io d)
  | OpSaveTaskStep s => drop_result (save_task_step store s io d)
  | OpSaveMediaAsset a => drop_result (save_media_asset store a io d)
  | OpSaveMediaSession m => drop_result (save_media_session store m io d)
  | OpCloseMediaSession i e => drop_result (close_media_session store i e io d)
  | OpSaveShareLink l => drop_result (save_share_link store l io d)
  | OpSaveShareLinkBundle m l => drop_result (save_share_link_bundle store m l io d)
  | OpRevokeShareLink i r => drop_result (revoke_share_link store i r io d)
  | OpReplaceArtifacts t s l => drop_result (replace_artifacts_for_step store t s l io d)
  | OpSaveApproval a => drop_result (save_approval store a io d)
  | OpResolveApprovals t a e => drop_result (resolve_pending_approvals store t a e io d)
  | OpUpdateApproval i s a e => drop_result (update_approval_status store i s a e io d)
  | OpReplaceEvents t s l => drop_result (replace_events_for_step store t s l io d)
  end.

(** * The invariant: keys are ids, and sessions' ids are usable *)

Record keyed (f : TaskConversationFile) : Prop := {
  k_conversations : keyed_map key (conversations f);
  k_sessions : keyed_map cs_session_id (sessions f);
  k_task_runs : keyed_map run_task_id (task_runs f);
  k_task_steps : keyed_map step_step_id (task_steps f);
  k_artifacts : keyed_map art_artifact_id (artifacts f);
  k_media_assets : keyed_map ma_asset_id (media_assets f);
  k_approvals : keyed_map ap_approval_id (approvals f);
  k_events : keyed_map ev_event_id (events f);
  k_media_sessions : keyed_map ms_media_session_id (media_sessions f);
  k_share_links : keyed_map sl_share_link_id (share_links f);
  k_session_ids k s : sessions f !! k = Some s -> is_blank k = false
}.

(** The disk holds no file, or a readable one with the invariant. *)
Definition disk_keyed (d : Disk Text) : Prop :=
  match d with
  | None => True
  | Some t => exists f, from_str t = Ok f /\ keyed f
  end.

Lemma keyed_default : keyed file_default.
Proof. split; try apply keyed_empty. done. Qed.

(** An update that keeps the invariant of the file keeps it on the disk. *)
Lemma update_keyed {A} (g : TaskConversationFile -> result string (option TaskConversationFile * A)) io d :
  (forall f f' a, keyed f -> g f = Ok (Some f', a) -> keyed f') ->
  write_fault io = None -> disk_keyed d -> disk_keyed (update store g io d).1.
Proof.
  intros Hg Hw Hd. unfold update.
  destruct (load_file store io d) as [f|e] eqn:El; [|done].
  assert (keyed f) as Hf.
  { unfold load_file in El. destruct d as [t|]; [|injection El as <-; apply keyed_default].
    destruct (stat_fault io); [injection El as <-; apply keyed_default|].
    destruct (read_fault io); [done|]. destruct Hd as (f' & E & Hf). rewrite E in El. cbn in El.
    by injection El as <-. }
  destruct (g f) as [[[f'|] a]|e] eqn:Eg; [|done..].
  unfold save_file. destruct (parent store), (mkdir_fault io); cbn; try done;
    destruct (to_string_pretty f') as [t|] eqn:Et; cbn; try done;
    rewrite Hw; cbn; exists f'; eauto using from_to_string.
Qed.

Lemma insert_keyed g io d :
  (forall f, keyed f -> keyed (g f)) -> write_fault io = None -> disk_keyed d ->
  disk_keyed (insert_with store g io d).1.
Proof. intros Hg. apply update_keyed. intros f f' a Hf [= <- _]. by apply Hg. Qed.

(** One map of the file is replaced by another with the invariant. *)
Ltac set_field := intros []; split; cbn; try done.

Lemma keyed_set_conversations m f : keyed_map key m -> keyed f -> keyed (set_conversations m f).
Proof. intros ?. set_field. Qed.
Lemma keyed_set_sessions m f :
  keyed_map cs_session_id m -> (forall k s, m !! k = Some s -> is_blank k = false) ->
  keyed f -> keyed (set_sessions m f).
Proof. intros ??. set_field. Qed.
Lemma keyed_set_task_runs m f : keyed_map run_task_id m -> keyed f -> keyed (set_task_runs m f).
Proof. intros ?. set_field. Qed.
Lemma keyed_set_task_steps m f : keyed_map step_step_id m -> keyed f -> keyed (set_task_steps m f).
Proof. intros ?. set_field. Qed.
Lemma keyed_set_artifacts m f : keyed_map art_artifact_id m -> keyed f -> keyed (set_artifacts m f).
Proof. intros ?. set_field. Qed.
Lemma keyed_set_media_assets m f : keyed_map ma_asset_id m -> keyed f -> keyed (set_media_assets m f).
Proof. intros ?. set_field. Qed.
Lemma keyed_set_approvals m f : keyed_map ap_approval_id m -> keyed f -> keyed (set_approvals m f).
Proof. intros ?. set_field. Qed.
Lemma keyed_set_events m f : keyed_map ev_event_id m -> keyed f -> keyed (set_events m f).
Proof. intros ?. set_field. Qed.
Lemma keyed_set_media_sessions m f :
  keyed_map ms_media_session_id m -> keyed f -> keyed (set_media_sessions m f).
Proof. intros ?. set_field. Qed.
Lemma keyed_set_share_links m f : keyed_map sl_share_link_id m -> keyed f -> keyed (set_share_links m f).
Proof. intros ?. set_field. Qed.

Lemma keyed_put_conversation s f : keyed f -> keyed (put_conversation s f).
Proof. intros Hf. by apply keyed_set_conversations; [apply keyed_insert, Hf|]. Qed.

Lemma keyed_remove_conversation k f : keyed f -> keyed (remove_conversation k f).
Proof. intros Hf. by apply keyed_set_conversations; [apply keyed_delete, Hf|]. Qed.

Lemma keyed_put_session s f : is_blank (cs_session_id s) = false -> keyed f -> keyed (put_session s f).
Proof.
  intros Hs Hf. apply keyed_set_sessions; [apply keyed_insert, Hf| |done].
  intros k x [[<- _]|[_ Hx]]%lookup_insert_Some; [done|]. by apply (k_session_ids f Hf k x).
Qed.

Lemma keyed_remove_session i f : keyed f -> keyed (remove_session_with_tasks i f).
Proof.
  intros Hf. unfold remove_session_with_tasks.
  apply keyed_set_events; [apply keyed_retain, Hf|].
  apply keyed_set_artifacts; [apply keyed_retain, Hf|].
  apply keyed_set_task_steps; [apply keyed_retain, Hf|].
  apply keyed_set_task_runs; [apply keyed_retain, Hf|].
  apply keyed_set_sessions; [apply keyed_delete, Hf| |done].
  intros k x [_ Hx]%lookup_delete_Some. by apply (k_session_ids f Hf k x).
Qed.

Lemma update_record_keyed {A} (m : TaskConversationFile -> gmap string A) set (id : A -> string) k g io d :
  (forall f x, keyed f -> keyed_map id x -> keyed (set x f)) ->
  (forall f, keyed f -> keyed_map id (m f)) -> (forall x, id (g x) = id x) ->
  write_fault io = None -> disk_keyed d -> disk_keyed (update_record store m set k g io d).1.
Proof.
  intros Hset Hm Hg. apply update_keyed. intros f f' a Hf.
  destruct (m f !! k) as [x|] eqn:Ex; [|done]. intros [= <- _].
  apply Hset; [done|]. by eapply keyed_insert_same; [apply Hm|exact Ex|apply Hg].
Qed.

Lemma exec_keyed op io d : write_fault io = None -> disk_keyed d -> disk_keyed (exec op io d).1.
Proof.
  intros Hw Hd. destruct op; cbn [exec drop_result fst].
  - unfold save. destruct (is_blank _); [done|]. apply insert_keyed; auto using keyed_put_conversation.
  - apply insert_keyed; auto using keyed_remove_conversation.
  - unfold save_for_session. destruct (is_blank (cs_session_id session)) eqn:Eb; [done|].
    destruct (is_blank (key s)); [done|]. apply update_keyed; [|done..]. intros f f' a Hf.
    destruct (envelope_from_conversation_state _ _) as [env|]; [|done].
    destruct (map_err _ _); [|done]. intros [= <- _].
    by apply keyed_put_conversation, keyed_put_session.
  - apply insert_keyed; [|done..]. intros f Hf.
    assert (keyed (set_sessions (alter (fun s => set_cs_resume_token None (set_cs_state json_null s))
      session_id (sessions f)) f)) as Hf'.
    { apply keyed_set_sessions; [by apply keyed_alter, Hf| |done].
      intros k x [(<- & y & Hy & _)|[_ Hy]]%lookup_alter_Some; by apply (k_session_ids f Hf _ _ Hy). }
    destruct (non_empty_string hint); [by apply keyed_remove_conversation|done].
  - unfold save_session. destruct (is_blank _) eqn:Eb; [done|]. apply insert_keyed; auto using keyed_put_session.
  - unfold delete_session_with_tasks. destruct (is_blank _); [done|]. apply update_keyed; [|done..].
    intros f f' a Hf. destruct (sessions f !! session_id); [|done]. intros [= <- _].
    by apply keyed_remove_session.
  - unfold save_task_run. destruct (is_blank _); [done|]. apply insert_keyed; [|done..].
    intros f Hf. apply keyed_set_task_runs; [apply keyed_insert, Hf|done].
  - unfold save_task_step. destruct (is_blank _); [done|]. apply insert_keyed; [|done..].
    intros f Hf. apply keyed_set_task_steps; [apply keyed_insert, Hf|done].
  - unfold save_media_asset. destruct (is_blank _); [done|]. apply insert_keyed; [|done..].
    intros f Hf. apply keyed_set_media_assets; [apply keyed_insert, Hf|done].
  - unfold save_media_session. destruct (is_blank _); [done|]. apply insert_keyed; [|done..].
    intros f Hf. apply keyed_set_media_sessions; [apply keyed_insert, Hf|done].
  - eapply update_record_keyed; [intros; by apply keyed_set_media_sessions|apply k_media_sessions|done..].
  - unfold save_share_link. destruct (is_blank _); [done|]. apply insert_keyed; [|done..].
    intros f Hf. apply keyed_set_share_links; [apply keyed_insert, Hf|done].
  - unfold save_share_link_bundle. repeat (case_match; [done|]). apply insert_keyed; [|done..].
    intros f Hf. apply keyed_set_share_links; [apply keyed_insert, Hf|].
    apply keyed_set_media_sessions; [apply keyed_insert, Hf|done].
  - eapply update_record_keyed; [intros; by apply keyed_set_share_links|apply k_share_links|done..].
  - apply update_keyed; [|done..]. intros f f' a Hf.
    cbv beta zeta. destruct (insert_all art_artifact_id _ _ _) eqn:E; [|done]. intros [= <- _].
    apply keyed_set_artifacts; [|done]. eapply keyed_insert_all, E. apply keyed_retain, Hf.
  - unfold save_approval. destruct (is_blank _); [done|]. apply insert_keyed; [|done..].
    intros f Hf. apply keyed_set_approvals; [apply keyed_insert, Hf|done].
  - apply update_keyed; [|done..]. intros f f' a Hf [= <- _]. apply keyed_set_approvals; [|done].
    apply keyed_fmap; [|apply Hf]. intros x. by destruct (is_pending_of task_id x).
  - eapply update_record_keyed; [intros; by apply keyed_set_approvals|apply k_approvals|done..].
  - apply update_keyed; [|done..]. intros f f' a Hf.
    cbv beta zeta. destruct (insert_all ev_event_id _ _ _) eqn:E; [|done]. intros [= <- _].
    apply keyed_set_events; [|done]. eapply keyed_insert_all, E. apply keyed_retain, Hf.
Qed.

(** The store's invariant: after any sequence of operations, from no file or one
    with the invariant, whatever system calls other than writes fail, the file can be read, every
    record is stored under its own id, and no session id is blank. *)
Theorem store_stays_keyed ops d :
  disk_keyed d -> (forall op io, (op, io) ∈ ops -> write_fault io = None) ->
  disk_keyed (foldl (fun d '(op, io) => (exec op io d).1) d ops).
Proof.
  revert d. induction ops as [|[op io] ops IH]; intros d Hd Hw; [done|]. cbn.
  apply IH; [|intros o i Hi; eapply Hw; by right].
  apply exec_keyed; [|done]. eapply Hw. by left.
Qed.

(** What an operation that answered [e] left, when it was writing that failed. *)
Definition write_failed (io : Io Text) (d' : Disk Text) (e : string) : Prop :=
  exists error, write_fault io = Some (error, d')
    /\ e = "failed to write Task conversation state " +:+ path store +:+ ": " +:+ error.

Lemma update_failed {A} (g : TaskConversationFile -> result string (option TaskConversationFile * A)) io d e :
  (update store g io d).2 = Err e -> (update store g io d).1 = d \/ write_failed io (update store g io d).1 e.
Proof.
  unfold update. destruct (load_file store io d) as [f|]; [|by left].
  destruct (g f) as [[[f'|] a]|]; [|by left..].
  unfold save_file. destruct (parent store), (mkdir_fault io); cbn; try (by left);
    (destruct (to_string_pretty f'); cbn; [|by left]);
    (destruct (write_fault io) as [[error remains]|] eqn:E; cbn; [|done]);
    intros [= <-]; right; by exists error.
Qed.

Lemma exec_failed op io d e : (exec op io d).2 = Some e -> (exec op io d).1 = d \/ write_failed io (exec op io d).1 e.
Proof.
  assert (Hg : forall A (g : _ -> result string (option TaskConversationFile * A)),
    (drop_result (update store g io d)).2 = Some e ->
    (drop_result (update store g io d)).1 = d \/ write_failed io (drop_result (update store g io d)).1 e).
  { intros A g. unfold drop_result. cbn.
    destruct (update store g io d).2 as [|e'] eqn:E; [done|]. intros [= ->]. by apply update_failed. }
  destruct op; cbn [exec];
    unfold save, save_for_session, save_session, delete_session_with_tasks, save_task_run,
      save_task_step, save_media_asset, save_media_session, save_share_link,
      save_share_link_bundle, save_approval;
    repeat (case_match; [by left|]); apply Hg.
Qed.

(** What is left after deleting these sessions, each with its system calls. *)
Fixpoint after_deletions (l : list ConversationSession) (ios : nat -> Io Text) (d : Disk Text) : Disk Text :=
  match l with
  | [] => d
  | s :: l => after_deletions l (fun n => ios (S n)) (exec (OpDeleteSession (cs_session_id s)) (ios 0%nat) d).1
  end.

Lemma delete_sessions_failed l ios removed d d' e :
  delete_sessions store l ios removed d = (d', Err e) ->
  exists deleted s rest, l = deleted ++ s :: rest
    /\ (d' = after_deletions deleted ios d \/ write_failed (ios (length deleted)) d' e).
Proof.
  revert ios removed d. induction l as [|s l IH]; intros ios removed d; cbn [delete_sessions]; [done|].
  pose proof (exec_failed (OpDeleteSession (cs_session_id s)) (ios 0%nat) d) as Hf. cbn [exec] in Hf.
  destruct (delete_session_with_tasks store (cs_session_id s) (ios 0%nat) d) as [d1 [b|e1]] eqn:E.
  - intros (deleted & s' & rest & -> & Hd)%IH. exists (s :: deleted), s', rest. split; [done|].
    cbn [after_deletions exec length]. by rewrite E.
  - intros [= <- <-]. exists [], s, l. split; [done|]. destruct (Hf e1 eq_refl) as [Hd|Hw]; [by left|by right].
Qed.

(** C40. What a failed operation leaves. One that returns an error has left the file as
    it was, whether it failed in its checks, on reading, on a bad record, on making the
    directory or on serializing; unless the error is that of writing, and then the file
    is what the failed write left of it. Pruning is a sequence of deletions: when it
    fails, those before the failing one stay, and that one left the file as it was or
    is such a write. *)
Theorem failed_operation_leaves_file :
  (forall op io d e, (exec op io d).2 = Some e ->
     (exec op io d).1 = d \/ write_failed io (exec op io d).1 e)
  /\ (forall user surface limit io ios d d' e,
     prune_sessions_for_user_surface store user surface limit io ios d = (d', Err e) ->
     d' = d
     \/ exists l deleted s rest, sessions_for_user_surface store user surface io d = Ok l
          /\ drop (Nat.max limit 1) l = deleted ++ s :: rest
          /\ (d' = after_deletions deleted ios d \/ write_failed (ios (length deleted)) d' e)).
Proof.
  split; [apply exec_failed|]. intros user surface limit io ios d d' e. unfold prune_sessions_for_user_surface.
  destruct (sessions_for_user_surface store user surface io d) as [l|e']; [|intros [= <- _]; by left].
  intros (deleted & s & rest & Hl & Hd)%delete_sessions_failed. right. by exists l, deleted, s, rest.
Qed.

End store_theorems.
