(* ===== verification/TaskStoreQueries.v ===== *)
(** What the task conversation store's operations compute: reads after writes,
    deletion with its cascade, pruning (of old sessions, and of a user's on a
    surface), approvals, and the order of listings. *)
From S2P Require Import Prelude RustString Json Contracts TaskRecords Conversation TaskStore TaskStoreTheorems ConversationSample.
Local Open Scope Z_scope.

(** * Strings and maxima *)

Lemma string_cmp_total_le a b : String.compare a b <> Gt -> String.compare b a <> Gt -> a = b.
Proof.
  intros H1 H2. apply string_compare_eq. by apply (cmp_le_antisym String.compare).
Qed.

Definition is_max (l : list string) (m : option string) : Prop :=
  match m with
  | None => l = []
  | Some x => x ∈ l /\ forall y, y ∈ l -> String.compare y x <> Gt
  end.

Lemma str_max_fold l acc :
  match foldl (fun acc x => match acc with
              | None => Some x
              | Some a => match String.compare x a with Lt => Some a | _ => Some x end
              end) (Some acc) l with
  | None => False
  | Some x => (x = acc \/ x ∈ l) /\ String.compare acc x <> Gt
              /\ forall y, y ∈ l -> String.compare y x <> Gt
  end.
Proof.
  revert acc. induction l as [|z l IH]; intros acc; cbn.
  { split_and!; [by left|by rewrite (cmp_refl String.compare)|]. intros y Hy. by apply not_elem_of_nil in Hy. }
  assert (Hz : exists w, (match String.compare z acc with Lt => Some acc | _ => Some z end) = Some w
    /\ (w = acc \/ w = z) /\ String.compare acc w <> Gt /\ String.compare z w <> Gt).
  { destruct (String.compare z acc) eqn:E; eexists; (split; [done|]);
      rewrite ?(cmp_refl String.compare), ?E; split_and!; auto; try done;
      rewrite (cmp_flip (cmp:=String.compare) z acc), E; done. }
  destruct Hz as (w & -> & Hw & H1 & H2). specialize (IH w). destruct (foldl _ _ _) as [x|]; [|done].
  destruct IH as (Hx & H3 & H4). split_and!.
  - rewrite elem_of_cons. naive_solver.
  - by apply (cmp_trans (cmp:=String.compare) acc w x).
  - intros y [->|Hy]%elem_of_cons; [|by apply H4]. by apply (cmp_trans (cmp:=String.compare) z w x).
Qed.

Lemma str_max_spec l : is_max l (str_max l).
Proof.
  unfold str_max. destruct l as [|a l]; cbn; [done|]. pose proof (str_max_fold l a) as Hm.
  destruct (foldl _ _ _) as [x|]; [|done]. destruct Hm as (Hx & H1 & H2). split.
  - rewrite elem_of_cons. naive_solver.
  - intros y [->|Hy]%elem_of_cons; [done|by apply H2].
Qed.

Lemma is_max_unique l l' m m' : (forall x, x ∈ l <-> x ∈ l') -> is_max l m -> is_max l' m' -> m = m'.
Proof.
  intros Hl. destruct m as [x|], m' as [y|]; cbn.
  - intros [Hx H1] [Hy H2]. f_equal. apply string_cmp_total_le; [apply H2, Hl, Hx|apply H1, Hl, Hy].
  - intros [Hx _] ->. apply Hl in Hx. by apply not_elem_of_nil in Hx.
  - intros -> [Hy _]. apply Hl in Hy. by apply not_elem_of_nil in Hy.
  - done.
Qed.

Lemma str_max_ext l l' : (forall x, x ∈ l <-> x ∈ l') -> str_max l = str_max l'.
Proof. intros Hl. eapply is_max_unique; [exact Hl|apply str_max_spec..]. Qed.

Lemma last_started_ext `{SerdeJson} (h1 h2 : HashOrder) f1 f2 sid :
  (forall r, run_session_id r = sid ->
     (exists k, task_runs f1 !! k = Some r) <-> exists k, task_runs f2 !! k = Some r) ->
  @last_started _ h1 f1 sid = @last_started _ h2 f2 sid.
Proof.
  intros Hr. apply str_max_ext. intros x. rewrite !list_elem_of_omap.
  setoid_rewrite elem_of_list_filter. setoid_rewrite (@elem_of_values h1).
  setoid_rewrite (@elem_of_values h2). setoid_rewrite String.eqb_eq. naive_solver.
Qed.

(** * Listings *)

(** A query of the store whose answer is the same for every order in which the
    program's hash maps may be iterated. *)
Definition order_free `{SerdeJson} {Text} `{!FileCodec Text} {A} (io : Io Text) (d : Disk Text)
    (q : HashOrder -> Io Text -> Disk Text -> result string A) : Prop :=
  forall h1 h2, q h1 io d = q h2 io d.

Lemma query_eq `{SerdeJson} {Text} `{!FileCodec Text} {A} store (io : Io Text) (d : Disk Text) f
    (g1 g2 : TaskConversationFile -> A) :
  load_file store io d = Ok f -> g1 f = g2 f -> query store g1 io d = query store g2 io d.
Proof. intros Hl Hg. unfold query. rewrite Hl. cbn. by rewrite Hg. Qed.

Lemma sort_all_eq {A} (h1 h2 : HashOrder) (id : A -> string) cmp `{!TotalCmp cmp} m :
  keyed_map id m -> (forall a b, cmp a b = Eq -> id a = id b) ->
  sort_by cmp (@values h1 _ m) = sort_by cmp (@values h2 _ m).
Proof.
  intros Hm Hc. pose proof (sort_values_eq h1 h2 id (fun _ => true) cmp m Hm Hc) as E.
  assert (forall l : list A, List.filter (fun _ => true) l = l) as F
    by (intros l; induction l as [|x l IH]; cbn; congruence).
  by rewrite !F in E.
Qed.

(** A sorted listing of the records with the given id. *)
Ltac listing id Hf :=
  first [apply (sort_values_eq _ _ id)|apply (sort_all_eq _ _ id)]; [apply _|apply Hf|];
  intros a b E;
  first [exact (string_compare_eq _ _ (then_with_eq _ _ E))
        |exact (eq_sym (string_compare_eq _ _ (then_with_eq _ _ E)))
        |exact (string_compare_eq _ _ E)].

Lemma user_surface_sessions_order `{SerdeJson} (h1 h2 : HashOrder) user surface f :
  keyed f ->
  @user_surface_sessions _ h1 user surface f = @user_surface_sessions _ h2 user surface f.
Proof.
  intros Hf. unfold user_surface_sessions. etransitivity.
  - apply (sort_by_ext _ (@newer_session _ h2 f)). intros x y _ _. unfold newer_session.
    f_equal. f_equal; by apply last_started_ext.
  - listing cs_session_id Hf.
Qed.

(** Listings are determined by the store's content: for a file with the
    invariant no listing depends on the order in which hash maps yield their
    values, so every run of the program lists the same records in the same order. *)
Theorem listings_deterministic `{SerdeJson} {Text} `{!FileCodec Text} store
    (io : Io Text) (d : Disk Text) f :
  load_file store io d = Ok f -> keyed f ->
  (forall user surface, order_free io d (fun h => sessions_for_user_surface store user surface))
  /\ (forall session limit, order_free io d (fun h => recent_task_runs_for_session store session limit))
  /\ (forall limit, order_free io d (fun h => recent_task_steps store limit))
  /\ (forall task, order_free io d (fun h => events_for_task store task))
  /\ (forall limit, order_free io d (fun h => recent_events store limit))
  /\ (forall task, order_free io d (fun h => approvals_for_task store task))
  /\ order_free io d (fun h => pending_approvals store)
  /\ (forall task, order_free io d (fun h => artifacts_for_task store task))
  /\ order_free io d (fun h => list_media_assets store)
  /\ order_free io d (fun h => list_media_sessions store)
  /\ order_free io d (fun h => list_share_links store).
Proof.
  intros Hl Hf. split_and!; intros *; intros h1 h2;
    unfold recent_task_runs_for_session, recent_task_steps, recent_events;
    try case_match; try reflexivity; apply (query_eq store io d f); try done;
    lazymatch goal with
    | |- take _ _ = _ => f_equal
    | |- keep_last _ _ = _ => f_equal
    | _ => idtac
    end.
  - by apply user_surface_sessions_order.
  - listing run_task_id Hf.
  - listing step_step_id Hf.
  - listing ev_event_id Hf.
  - listing ev_event_id Hf.
  - listing ap_approval_id Hf.
  - listing ap_approval_id Hf.
  - listing art_artifact_id Hf.
  - listing ma_asset_id Hf.
  - listing ms_media_session_id Hf.
  - listing sl_share_link_id Hf.
Qed.

(** * Effects *)

Section effects.
Context `{SerdeJson} `{!HashOrder}.
Context `{!Codec PendingTaskCandidate} `{!Codec PendingTaskConnect}
  `{!Codec PendingTaskClipConfirmation} `{!Codec PendingTaskGeneralMessageLoop}
  `{!Codec TaskConversationState} `{!Codec TaskSessionStateEnvelope}.
Context {Text : Type} `{!FileCodec Text} (store : TaskConversationStore).

(** The disk holds this file. *)
Definition holds (d : Disk Text) (f : TaskConversationFile) : Prop :=
  match d with None => f = file_default | Some t => from_str t = Ok f end.

Lemma holds_load d f : holds d f -> load_file store io_ok d = Ok f.
Proof. destruct d as [t|]; cbn; [by intros ->|by intros ->]. Qed.

Lemma load_holds io d f : stat_fault io = false -> load_file store io d = Ok f -> holds d f.
Proof.
  destruct d as [t|]; cbn; [|by intros _ [= <-]]. intros ->. destruct (read_fault io); [done|].
  destruct (from_str t); cbn; [by intros [= ->]|done].
Qed.

Lemma update_ok {A} (g : TaskConversationFile -> result string (option TaskConversationFile * A))
    io d d' a :
  update store g io d = (d', Ok a) ->
  exists f o, load_file store io d = Ok f /\ g f = Ok (o, a)
    /\ match o with None => d' = d | Some f' => holds d' f' end.
Proof.
  unfold update. destruct (load_file store io d) as [f|]; [|done].
  destruct (g f) as [[[f'|] a']|] eqn:Eg; [| |done].
  - unfold save_file. intros Hs. exists f, (Some f').
    destruct (parent store), (mkdir_fault io); cbn in Hs; try done;
      destruct (to_string_pretty f') as [t|] eqn:Et; cbn in Hs; try done;
      destruct (write_fault io) as [[]|]; cbn in Hs; try done; injection Hs as <- <-;
      (split_and!; [done|done|]); by apply from_to_string.
  - intros [= <- <-]. by exists f, None.
Qed.

Lemma insert_ok g io d d' :
  insert_with store g io d = (d', Ok tt) ->
  exists f, load_file store io d = Ok f /\ holds d' (g f).
Proof. intros (f & o & Hf & [= <-] & Hd)%update_ok. eauto. Qed.

Lemma query_holds {A} (h : TaskConversationFile -> A) d f : holds d f -> query store h io_ok d = Ok (h f).
Proof. unfold query. intros ->%holds_load. done. Qed.

(** Reads after writes: what was saved successfully is what the next load of
    its id returns (a conversation normalised), and loads of other ids return
    what they returned before. *)
Theorem read_your_writes io d d' f :
  stat_fault io = false -> holds d f ->
  (forall s, save store s io d = (d', Ok tt) ->
     load store (key s) io_ok d' = Ok (normalize_task_conversation_state s)
     /\ forall k, k <> key s -> load store k io_ok d' = load store k io_ok d)
  /\ (forall s, save_session store s io d = (d', Ok tt) ->
     load_session store (cs_session_id s) io_ok d' = Ok (Some s)
     /\ forall k, k <> cs_session_id s -> load_session store k io_ok d' = load_session store k io_ok d)
  /\ (forall r, save_task_run store r io d = (d', Ok tt) ->
     load_task_run store (run_task_id r) io_ok d' = Ok (Some r)
     /\ forall k, k <> run_task_id r -> load_task_run store k io_ok d' = load_task_run store k io_ok d)
  /\ (forall a, save_approval store a io d = (d', Ok tt) ->
     load_approval store (ap_approval_id a) io_ok d' = Ok (Some a)
     /\ forall k, k <> ap_approval_id a -> load_approval store k io_ok d' = load_approval store k io_ok d)
  /\ (forall m l, save_share_link_bundle store m l io d = (d', Ok tt) ->
     sl_media_session_id l = ms_media_session_id m
     /\ load_share_link store (sl_share_link_id l) io_ok d' = Ok (Some l)
     /\ load_media_session store (ms_media_session_id m) io_ok d' = Ok (Some m)).
Proof.
  intros Hst Hf.
  assert (Hins : forall g, insert_with store g io d = (d', Ok tt) -> holds d' (g f)).
  { intros g (f0 & Hl & Hd)%insert_ok. apply load_holds in Hl; [|done].
    destruct d as [t|]; cbn in Hl, Hf; congruence. }
  split_and!.
  - intros s. unfold save. destruct (is_blank _); [done|]. intros Hd%Hins.
    assert (key (persisted_task_conversation_state s) = key s) as Hk by apply normalize_fields.
    unfold load. rewrite (query_holds _ _ _ Hd). cbn. rewrite Hk. split.
    + rewrite lookup_insert_eq. cbn. unfold persisted_task_conversation_state.
      by rewrite normalize_idem.
    + intros k Hne. rewrite (query_holds _ _ _ Hd), (query_holds _ _ _ Hf). cbn.
      by rewrite Hk, lookup_insert_ne.
  - intros s. unfold save_session. destruct (is_blank _); [done|]. intros Hd%Hins.
    unfold load_session. rewrite (query_holds _ _ _ Hd). cbn. split; [by rewrite lookup_insert_eq|].
    intros k Hne. rewrite (query_holds _ _ _ Hd), (query_holds _ _ _ Hf). cbn.
    by rewrite lookup_insert_ne.
  - intros r. unfold save_task_run. destruct (is_blank _); [done|]. intros Hd%Hins.
    unfold load_task_run. rewrite (query_holds _ _ _ Hd). cbn. split; [by rewrite lookup_insert_eq|].
    intros k Hne. rewrite (query_holds _ _ _ Hd), (query_holds _ _ _ Hf). cbn.
    by rewrite lookup_insert_ne.
  - intros a. unfold save_approval. destruct (is_blank _); [done|]. intros Hd%Hins.
    unfold load_approval. rewrite (query_holds _ _ _ Hd). cbn. split; [by rewrite lookup_insert_eq|].
    intros k Hne. rewrite (query_holds _ _ _ Hd), (query_holds _ _ _ Hf). cbn.
    by rewrite lookup_insert_ne.
  - intros m l. unfold save_share_link_bundle. do 2 (destruct (is_blank _); [done|]).
    destruct (String.eqb_spec (sl_media_session_id l) (ms_media_session_id m)); [|done].
    cbn [negb]. intros Hd%Hins. split; [done|]. unfold load_share_link, load_media_session.
    rewrite !(query_holds _ _ _ Hd). cbn. by rewrite !lookup_insert_eq.
Qed.

(** * Deletion *)

Definition deleted_task (f : TaskConversationFile) (sid t : string) : Prop :=
  exists r, task_runs f !! t = Some r /\ run_session_id r = sid.

Definition deleted_step (f : TaskConversationFile) (sid s : string) : Prop :=
  exists x, task_steps f !! s = Some x /\ deleted_task f sid (step_task_id x).

Definition deleted_id f sid i : Prop := deleted_task f sid i \/ deleted_step f sid i.

Lemma elem_of_ids {A} (id : A -> string) (l : list A) i :
  i ∈ ids id l <-> exists x, x ∈ l /\ id x = i.
Proof. unfold ids. rewrite elem_of_list_to_set, list_elem_of_fmap. naive_solver. Qed.

Lemma session_task_ids_spec f sid t : keyed f -> t ∈ session_task_ids sid f <-> deleted_task f sid t.
Proof.
  intros Hf. unfold session_task_ids, deleted_task. rewrite elem_of_ids.
  setoid_rewrite elem_of_list_filter. setoid_rewrite (keyed_values run_task_id); [|apply Hf].
  setoid_rewrite String.eqb_eq. split.
  - intros (r & [Hr Hs] & <-). eauto.
  - intros (r & Hr & Hs). exists r. by rewrite (k_task_runs f Hf t r Hr).
Qed.

Lemma session_step_ids_spec f sid tasks s :
  keyed f -> (forall t, t ∈ tasks <-> deleted_task f sid t) ->
  s ∈ session_step_ids tasks f <-> deleted_step f sid s.
Proof.
  intros Hf Ht. unfold session_step_ids, deleted_step, str_in. rewrite elem_of_ids.
  setoid_rewrite elem_of_list_filter. setoid_rewrite (keyed_values step_step_id); [|apply Hf].
  setoid_rewrite bool_decide_eq_true. setoid_rewrite Ht. split.
  - intros (x & [Hx Hd] & <-). eauto.
  - intros (x & Hx & Hd). exists x. by rewrite (k_task_steps f Hf s x Hx).
Qed.

(** The file after the cascade, for a session that is there. *)
Record cascade (sid : string) (f f' : TaskConversationFile) : Prop := {
  c_sessions : sessions f' = delete sid (sessions f);
  c_runs k r : task_runs f' !! k = Some r <-> task_runs f !! k = Some r /\ run_session_id r <> sid;
  c_steps k s : task_steps f' !! k = Some s <->
    task_steps f !! k = Some s /\ ~ deleted_task f sid (step_task_id s);
  c_artifacts k a : artifacts f' !! k = Some a <->
    artifacts f !! k = Some a /\ ~ deleted_task f sid (art_task_id a);
  c_events k e : events f' !! k = Some e <->
    events f !! k = Some e /\ ~ deleted_id f sid (ev_source_id e)
    /\ (forall i, ev_correlation_id e = Some i -> ~ deleted_id f sid i)
    /\ (forall i, ev_causation_id e = Some i -> ~ deleted_id f sid i);
  c_conversations : conversations f' = conversations f;
  c_media_assets : media_assets f' = media_assets f;
  c_approvals : approvals f' = approvals f;
  c_media_sessions : media_sessions f' = media_sessions f;
  c_share_links : share_links f' = share_links f
}.

Lemma remove_session_cascade sid f : keyed f -> cascade sid f (remove_session_with_tasks sid f).
Proof.
  intros Hf. unfold remove_session_with_tasks.
  set (f1 := set_sessions (delete sid (sessions f)) f).
  assert (forall t, t ∈ session_task_ids sid f1 <-> deleted_task f sid t) as Ht
    by (intros t; exact (session_task_ids_spec f sid t Hf)).
  set (tasks := session_task_ids sid f1) in *.
  assert (forall s, s ∈ session_step_ids tasks f1 <-> deleted_step f sid s) as Hs
    by (intros s; exact (session_step_ids_spec f sid tasks s Hf Ht)).
  set (steps := session_step_ids tasks f1) in *. clearbody tasks steps.
  assert (Hr : forall o, refers tasks steps o = false <->
    forall i, o = Some i -> ~ deleted_id f sid i).
  { intros [i|]; cbn; [|naive_solver]. unfold str_in, deleted_id.
    rewrite orb_false_iff, !bool_decide_eq_false, Ht, Hs. naive_solver. }
  split; try done; cbn; unfold str_in; intros k x; rewrite lookup_retain.
  - rewrite negb_true_iff, bool_decide_eq_false, Ht. unfold deleted_task. split.
    + intros [Hk Hn]. split; [done|]. intros E. apply Hn. eauto.
    + intros [Hk Hn]. split; [done|]. intros (r & Hr' & E). congruence.
  - rewrite negb_true_iff, bool_decide_eq_false, Hs. unfold deleted_step. split.
    + intros [Hk Hn]. split; [done|]. intros E. apply Hn. eauto.
    + intros [Hk Hn]. split; [done|]. intros (r & Hr' & E). congruence.
  - by rewrite negb_true_iff, bool_decide_eq_false, Ht.
  - rewrite !andb_true_iff, !negb_true_iff, !bool_decide_eq_false, Ht, Hs, !Hr.
    unfold deleted_id. naive_solver.
Qed.

(** Deleting a session cascades: on success with [true], exactly the session,
    its task runs, their steps and artifacts, and every event that comes from,
    correlates with or was caused by one of those tasks or steps are gone, and
    nothing else changed; it answers [false], changing nothing, exactly when
    there is no such session. *)
Theorem delete_session_cascades io d d' f sid b :
  load_file store io d = Ok f -> keyed f ->
  delete_session_with_tasks store sid io d = (d', Ok b) ->
  if b then is_Some (sessions f !! sid) /\ exists f', holds d' f' /\ cascade sid f f'
  else sessions f !! sid = None /\ d' = d.
Proof.
  intros Hl Hf. unfold delete_session_with_tasks. destruct (is_blank sid) eqn:Eb.
  { intros [= <- <-]. split; [|done]. destruct (sessions f !! sid) as [s|] eqn:Es; [|done].
    by rewrite (k_session_ids f Hf _ _ Es) in Eb. }
  intros (f0 & o & Hl0 & Hg & Ho)%update_ok. rewrite Hl in Hl0. injection Hl0 as <-.
  destruct (sessions f !! sid) as [s|] eqn:Es; injection Hg as <- <-; [|done].
  split; [eauto|]. eexists. split; [exact Ho|]. by apply remove_session_cascade.
Qed.

(** * Approvals *)

(** Resolving a task's approvals approves exactly its pending tickets, with
    the given approver and time where they are given, leaves every other ticket
    and every other record as it was, and returns the tickets it changed; after
    it none of the task's tickets is pending. *)
Theorem resolve_approves_pending io d d' f task approver at_time l :
  load_file store io d = Ok f -> keyed f ->
  resolve_pending_approvals store task approver at_time io d = (d', Ok l) ->
  exists f', holds d' f' /\ f' = set_approvals (approvals f') f
  /\ (forall k a, approvals f !! k = Some a ->
        approvals f' !! k = Some (if is_pending_of task a
          then decide_ticket ApprovalApproved approver at_time a else a))
  /\ (forall k, approvals f !! k = None -> approvals f' !! k = None)
  /\ (forall a, a ∈ l <-> exists b, approvals f !! ap_approval_id b = Some b
        /\ is_pending_of task b = true /\ a = decide_ticket ApprovalApproved approver at_time b)
  /\ (forall k a, approvals f' !! k = Some a -> is_pending_of task a = false).
Proof.
  intros Hl Hf (f0 & o & Hl0 & Hg & Ho)%update_ok. rewrite Hl in Hl0. injection Hl0 as <-.
  injection Hg as <- <-. eexists. split; [exact Ho|]. cbn.
  split_and!; [by destruct f|..].
  - intros k a Hk. by rewrite lookup_fmap, Hk.
  - intros k Hk. by rewrite lookup_fmap, Hk.
  - intros a. rewrite list_elem_of_fmap. setoid_rewrite elem_of_list_filter.
    setoid_rewrite (keyed_values ap_approval_id); [|apply Hf]. naive_solver.
  - intros k a. rewrite lookup_fmap_Some. intros (b & <- & Hb).
    destruct (is_pending_of task b) eqn:E; [|done].
    unfold is_pending_of, is_pending, decide_ticket. cbn. by rewrite andb_false_r.
Qed.

End effects.

(** * Pruning a surface *)

Lemma keyed_values_nodup `{!HashOrder} {A} (id : A -> string) (m : gmap string A) :
  keyed_map id m -> NoDup (id <$> values m).
Proof.
  intros Hm. rewrite values_perm. rewrite <-list_fmap_compose.
  assert (id ∘ snd <$> map_to_list m = (map_to_list m).*1) as ->.
  { apply list_fmap_ext. intros i [k x] Hk%list_elem_of_lookup_2. cbn. apply Hm.
    by apply elem_of_map_to_list in Hk. }
  apply NoDup_fst_map_to_list.
Qed.

Lemma NoDup_filter_fmap {A B} (g : A -> B) (p : A -> bool) l :
  NoDup (g <$> l) -> NoDup (g <$> List.filter p l).
Proof.
  induction l as [|x l IH]; cbn; [done|]. intros [Hx Hn]%NoDup_cons.
  destruct (p x); cbn; [|by apply IH]. constructor; [|by apply IH].
  rewrite list_elem_of_fmap. intros (y & E & Hy). apply elem_of_list_filter in Hy as [Hy _].
  apply Hx. rewrite E. by apply list_elem_of_fmap_2.
Qed.

Section prune.
Context `{SerdeJson} `{!HashOrder}.
Context `{!Codec PendingTaskCandidate} `{!Codec PendingTaskConnect}
  `{!Codec PendingTaskClipConfirmation} `{!Codec PendingTaskGeneralMessageLoop}
  `{!Codec TaskConversationState} `{!Codec TaskSessionStateEnvelope}.
Context {Text : Type} `{!FileCodec Text} (store : TaskConversationStore).

(** The sessions and the task runs that survive the deletion of some sessions. *)
Record survives (gone : list string) (f f' : TaskConversationFile) : Prop := {
  sv_keyed : keyed f';
  sv_sessions k s : sessions f' !! k = Some s <-> sessions f !! k = Some s /\ k ∉ gone;
  sv_runs k r : task_runs f' !! k = Some r <->
    task_runs f !! k = Some r /\ run_session_id r ∉ gone
}.

Lemma survives_refl f : keyed f -> survives [] f f.
Proof. intros Hf. split; [done|..]; intros; rewrite elem_of_nil; naive_solver. Qed.

Lemma survives_step gone f f' sid :
  survives gone f f' -> survives (sid :: gone) f (remove_session_with_tasks sid f').
Proof.
  intros Hs. pose proof (sv_keyed _ _ _ Hs) as Hk.
  pose proof (remove_session_cascade sid f' Hk) as Hc. split.
  - by apply keyed_remove_session.
  - intros k s. rewrite (c_sessions _ _ _ Hc), lookup_delete_Some, (sv_sessions _ _ _ Hs),
      not_elem_of_cons. naive_solver.
  - intros k r. rewrite (c_runs _ _ _ Hc), (sv_runs _ _ _ Hs), not_elem_of_cons. naive_solver.
Qed.

Lemma delete_sessions_ok f l gone removed d f' d' removed' :
  holds d f' -> survives gone f f' ->
  (forall s, s ∈ l -> sessions f !! cs_session_id s = Some s /\ cs_session_id s ∉ gone) ->
  NoDup (cs_session_id <$> l) -> (forall s, s ∈ l -> is_blank (cs_session_id s) = false) ->
  delete_sessions store l (fun _ => io_ok) removed d = (d', Ok removed') ->
  removed' = removed ++ (cs_session_id <$> l)
  /\ exists f'', holds d' f'' /\ survives (rev (cs_session_id <$> l) ++ gone) f f''.
Proof.
  revert gone removed d f'. induction l as [|s l IH]; intros gone removed d f' Hd Hsv Hl Hn Hb; cbn.
  { intros [= <- <-]. rewrite app_nil_r. eauto. }
  apply NoDup_cons in Hn as [Hs Hn].
  destruct (delete_session_with_tasks store (cs_session_id s) io_ok d) as [d1 [b|e]] eqn:Ed; [|done].
  pose proof (delete_session_cascades store io_ok d d1 f' (cs_session_id s) b (holds_load store d f' Hd)
    (sv_keyed _ _ _ Hsv) Ed) as Hc.
  assert (sessions f' !! cs_session_id s = Some s) as Hin.
  { apply (sv_sessions _ _ _ Hsv). apply Hl. by left. }
  destruct b; [|destruct Hc; congruence].
  assert (holds d1 (remove_session_with_tasks (cs_session_id s) f')) as Hd1.
  { unfold delete_session_with_tasks in Ed. rewrite Hb in Ed by left.
    apply update_ok in Ed as (f0 & o & Hl0 & Hg & Ho). rewrite (holds_load store d f' Hd) in Hl0.
    injection Hl0 as <-. rewrite Hin in Hg. injection Hg as <-. exact Ho. }
  intros Hdel. eapply IH in Hdel as [-> (f'' & Hf'' & Hsv'')]; [|exact Hd1|by apply survives_step|..].
  - split; [by rewrite <-app_assoc|]. exists f''. by rewrite <-app_assoc.
  - intros x Hx. split; [apply Hl; by right|]. rewrite not_elem_of_cons. split; [|apply Hl; by right].
    intros E. apply Hs. rewrite <-E. by apply list_elem_of_fmap_2.
  - done.
  - intros x Hx. apply Hb. by right.
Qed.

Lemma newer_session_survives gone f f' (s1 s2 : ConversationSession) :
  survives gone f f' -> cs_session_id s1 ∉ gone -> cs_session_id s2 ∉ gone ->
  newer_session f' s1 s2 = newer_session f s1 s2.
Proof.
  intros Hs H1 H2. unfold newer_session.
  assert (forall s : ConversationSession, cs_session_id s ∉ gone ->
    last_started f' (cs_session_id s) = last_started f (cs_session_id s)) as Hl.
  { intros s Hn. apply last_started_ext. intros r Er. setoid_rewrite (sv_runs _ _ _ Hs).
    rewrite Er. naive_solver. }
  by rewrite !Hl.
Qed.

(** The listing of the survivors is the listing without the ones that are gone. *)
Lemma survivors_listing f f' u sf n :
  let L := user_surface_sessions u sf f in
  keyed f -> survives (rev (cs_session_id <$> drop n L)) f f' ->
  user_surface_sessions u sf f' = take n L.
Proof.
  intros L Hf Hs. set (gone := rev _) in Hs.
  assert (Hgone : forall x, x ∈ gone <-> x ∈ cs_session_id <$> drop n L)
    by (intros x; unfold gone; by rewrite <-Permutation_rev).
  set (p := fun s : ConversationSession => (cs_user_id s =? u)%string && (cs_surface s =? sf)%string).
  assert (HinL : forall s, s ∈ L <-> sessions f !! cs_session_id s = Some s /\ p s = true).
  { intros s. unfold L, user_surface_sessions. rewrite elem_of_sort_by, elem_of_list_filter.
    by rewrite (keyed_values cs_session_id) by apply Hf. }
  assert (HnL : NoDup (cs_session_id <$> L)).
  { unfold L, user_surface_sessions. rewrite sort_by_perm. apply NoDup_filter_fmap.
    apply keyed_values_nodup, Hf. }
  assert (Hdis : forall s, s ∈ take n L -> cs_session_id s ∉ gone).
  { intros s Hin. rewrite Hgone. rewrite <-(take_drop n L), fmap_app in HnL.
    apply NoDup_app in HnL as (_ & Hd & _). apply Hd. by apply list_elem_of_fmap_2. }
  assert (Hin' : forall s, s ∈ List.filter p (values (sessions f')) <-> s ∈ take n L).
  { intros s. rewrite elem_of_list_filter, (keyed_values cs_session_id) by apply Hs.
    rewrite (sv_sessions _ _ _ Hs). split.
    - intros [[Hin Hng] Hp]. assert (s ∈ L) as HL by by apply HinL.
      rewrite <-(take_drop n L), elem_of_app in HL. destruct HL as [|Hd]; [done|].
      destruct Hng. apply Hgone. by apply list_elem_of_fmap_2.
    - intros Ht. assert (s ∈ L) as HL by (rewrite <-(take_drop n L); apply elem_of_app; by left).
      apply HinL in HL as [? ?]. split; [|done]. split; [done|]. by apply Hdis. }
  transitivity (sort_by (newer_session f) (List.filter p (values (sessions f')))).
  { apply sort_by_ext. intros x y Hx Hy. apply Hin' in Hx, Hy.
    eapply newer_session_survives; [exact Hs|by apply Hdis..]. }
  rewrite (sort_by_perm_eq _ _ (take n L)).
  - apply sort_by_id. pose proof (sort_by_sorted (newer_session f)
      (List.filter p (values (sessions f)))) as Hsort. fold L in Hsort.
    change (sort_by _ _) with L in Hsort. rewrite <-(take_drop n L) in Hsort.
    by apply StronglySorted_app in Hsort as (_ & ? & _).
  - intros x y Hx Hy E. apply then_with_eq, string_compare_eq in E.
    apply elem_of_list_filter in Hx as [Hx _], Hy as [Hy _].
    eapply (keyed_inj cs_session_id); [apply Hs|done|done|done].
  - apply NoDup_Permutation; [| |exact Hin'].
    + apply (NoDup_fmap_1 cs_session_id), NoDup_filter_fmap, keyed_values_nodup, Hs.
    + apply (NoDup_fmap_1 cs_session_id). rewrite <-(take_drop n L), fmap_app in HnL.
      by apply NoDup_app in HnL as (? & _).
Qed.

(** Pruning keeps the newest: when no system call fails, pruning a user's
    sessions on a surface to a limit removes exactly the sessions after the
    first [max(limit, 1)] of the listing, answers their ids in order, and leaves
    the listing cut to that length. *)
Theorem prune_keeps_newest d d' f user surface limit removed :
  holds d f -> keyed f ->
  prune_sessions_for_user_surface store user surface limit io_ok (fun _ => io_ok) d
    = (d', Ok removed) ->
  let L := user_surface_sessions user surface f in
  let n := Nat.max limit 1 in
  removed = cs_session_id <$> drop n L
  /\ sessions_for_user_surface store user surface io_ok d' = Ok (take n L).
Proof.
  intros Hd Hf. unfold prune_sessions_for_user_surface, sessions_for_user_surface.
  rewrite (query_holds store _ d f Hd). intros Hp. cbv zeta.
  set (L := user_surface_sessions user surface f) in *. set (n := Nat.max limit 1) in *.
  assert (HinL : forall s, s ∈ L -> sessions f !! cs_session_id s = Some s).
  { intros s. unfold L, user_surface_sessions. rewrite elem_of_sort_by, elem_of_list_filter.
    rewrite (keyed_values cs_session_id) by apply Hf. by intros [? _]. }
  assert (HnL : NoDup (cs_session_id <$> L)).
  { unfold L, user_surface_sessions. rewrite sort_by_perm. apply NoDup_filter_fmap.
    apply keyed_values_nodup, Hf. }
  assert (Hdrop : forall s, s ∈ drop n L -> s ∈ L).
  { intros s Hs. rewrite <-(take_drop n L). apply elem_of_app. by right. }
  eapply (delete_sessions_ok f) in Hp as [Hr (f' & Hd' & Hsv)];
    [|exact Hd|by apply survives_refl|..].
  - split; [exact Hr|]. rewrite (query_holds store _ d' f' Hd'). f_equal.
    rewrite app_nil_r in Hsv. exact (survivors_listing f f' user surface n Hf Hsv).
  - intros s Hs. split; [by apply HinL, Hdrop|]. apply not_elem_of_nil.
  - rewrite <-(take_drop n L), fmap_app in HnL. by apply NoDup_app in HnL as (_ & _ & ?).
  - intros s Hs. apply (k_session_ids f Hf (cs_session_id s) s). by apply HinL, Hdrop.
Qed.

End prune.
