(* ===== verification/Models.v ===== *)
(** The model registry's records, [src/control_plane/models.rs], as far as the
    privacy gateway and the routing projections use them. The cost limit of a
    policy, a floating-point number nothing here reads, is left out. *)
From S2P Require Import Prelude RustString Json.

Inductive ModelKind := Llm | Vlm | Ocr | Asr | Detector | Embedder | Reranker.
Inductive ModelEndpointKind := KindLocal | KindSidecar | KindCloud.
Inductive ModelEndpointStatus := EndpointActive | EndpointDegraded | EndpointDisabled.
Inductive PrivacyLevel := StrictLocal | AllowRedactedCloud | AllowCloud.

#[global] Instance ModelEndpointKind_eq_dec : EqDecision ModelEndpointKind.
Proof. solve_decision. Defined.
#[global] Instance ModelEndpointStatus_eq_dec : EqDecision ModelEndpointStatus.
Proof. solve_decision. Defined.
#[global] Instance PrivacyLevel_eq_dec : EqDecision PrivacyLevel.
Proof. solve_decision. Defined.

Definition model_kind_as_str (k : ModelKind) : string :=
  match k with
  | Llm => "llm" | Vlm => "vlm" | Ocr => "ocr" | Asr => "asr"
  | Detector => "detector" | Embedder => "embedder" | Reranker => "reranker"
  end.

Definition endpoint_kind_as_str (k : ModelEndpointKind) : string :=
  match k with KindLocal => "local" | KindSidecar => "sidecar" | KindCloud => "cloud" end.

Section models.
Context `{SerdeJson}.

Record ModelEndpoint := {
  model_endpoint_id : string;
  workspace_id : option string;
  provider_account_id : option string;
  model_kind : ModelKind;
  endpoint_kind : ModelEndpointKind;
  provider_key : string;
  model_name : string;
  capability_tags : list string;
  cost_policy : Value;
  status : ModelEndpointStatus;
  metadata : Value
}.

Record ModelRoutePolicy := {
  route_policy_id : string;
  pol_workspace_id : string;
  domain_scope : string;
  modality : string;
  privacy_level : PrivacyLevel;
  local_preferred : bool;
  fallback_order : list string;
  pol_status : string;
  pol_metadata : Value
}.

Record PrivacyTransformRecord := {
  privacy_transform_id : string;
  pt_workspace_id : string;
  source_kind : string;
  pt_source_ref : string;
  pt_transform_steps : Value;
  output_ref : Value;
  pt_policy_version : string;
  created_at : option string
}.
End models.
