(* ===== verification/Privacy.v ===== *)
(** The privacy gateway, [src/runtime/privacy_gateway.rs]: what of a question and
    its citations may go to a cloud model, and in which form.

    SHA-256 is an interface, and so are the conversions to JSON text the built-in
    evaluation searches for leaks. A [BTreeSet<String>] is the sorted list of its
    elements. *)
From Stdlib Require Import Ascii.
From S2P Require Import Prelude RustString Json Models.
Local Open Scope Z_scope.

(** * Sets of strings *)

Fixpoint btree_insert (x : string) (l : list string) : list string :=
  match l with
  | [] => [x]
  | y :: l' =>
      match String.compare x y with
      | Lt => x :: l
      | Eq => l
      | Gt => y :: btree_insert x l'
      end
  end.

(** [extend], and [collect] into a set. *)
Definition btree_extend (s l : list string) : list string := foldl (fun s x => btree_insert x s) s l.
Definition btree_of (l : list string) : list string := btree_extend [] l.

(** * Data *)

Definition PRIVACY_GATEWAY_POLICY_VERSION : string := "harbor_privacy_gateway_ci_v1".
Definition FACT_MAX_CHARS : nat := 360.
Definition TASK_MAX_CHARS : nat := 180.

(** The floating-point scores are left out: nothing here reads them. *)
Record KnowledgeSearchCitation := {
  kc_title : string;
  kc_path : string;
  kc_modality : string;
  kc_chunk_id : option string;
  kc_line_start : option Z;
  kc_line_end : option Z;
  kc_preview : option string;
  kc_answer_context : string;
  kc_score : Z;
  kc_provenance : option string;
  kc_source_path : option string
}.

Record SanitizedCitation := {
  citation_ref : nat;
  sc_modality : string;
  source_hash : string;
  chunk_hash : string;
  line_range : option string;
  fact : string;
  risk_tags : list string
}.

Record SemanticCapsule := {
  capsule_id : string;
  task : string;
  facts : list SanitizedCitation;
  source_hashes : list string;
  transform_steps : list string;
  redacted : bool;
  cap_policy_version : string
}.

Record PrivacyFlowRecord := {
  sender_role : string;
  subject_role : string;
  recipient_kind : string;
  information_types : list string;
  purpose : string;
  consent_basis : string;
  destination : string;
  flow_privacy_level : PrivacyLevel;
  flow_decision : string;
  flow_policy_version : string
}.

Record PrivacyGatewayDecision := {
  decision : string;
  cloud_allowed : bool;
  risk_level : string;
  reason : string;
  warnings : list string
}.

(** * Redaction *)

(** What makes a token unfit to leave: how it begins, and what it contains. *)
Definition REDACT_PREFIXES : list string := ["http://"; "https://"; "rtsp://"].
Definition REDACT_PARTS : list string :=
  ["token="; "secret="; "api_key"; "apikey"; "password"; "passwd"; "bearer";
   "\\"; "c:\"; "/mnt/"; "/home/"; ".harborbeacon/"].

Definition should_redact_token (token : string) : bool :=
  let lower := to_ascii_lowercase token in
  list_any (fun p => starts_with p lower) REDACT_PREFIXES
  || list_any (fun p => str_contains p lower) REDACT_PARTS.

Definition redact (token : string) : string :=
  if should_redact_token token then "[redacted]" else token.

Definition sanitize_free_text (value : string) (max_chars : nat) : option string :=
  let text := join " " (redact <$> split_whitespace value) in
  if is_blank text then None
  else Some (if (max_chars <? chars_count text)%nat then chars_take max_chars text else text).

(** * Classification *)

Definition tag_if (b : bool) (tag : string) (tags : list string) : list string :=
  if b then btree_insert tag tags else tags.

(** [contains_any(&lower, words) || value.contains(p) || ..] *)
Definition mentions (words phrases : list string) (value : string) : bool :=
  contains_any words (to_ascii_lowercase value) || list_any (fun p => str_contains p value) phrases.

Definition CREDENTIAL_WORDS : list string :=
  ["password"; "passwd"; "api_key"; "apikey"; "token"; "credential"; "secret"].
Definition CHILD_WORDS : list string := ["child"; "kid"; "minor"; "location"].
Definition HEALTH_WORDS : list string :=
  ["health"; "medical"; "medicine"; "hospital"; "diagnosis"; "elderly"].
Definition HOME_WORDS : list string := ["camera"; "lock"; "unlock"; "visitor"; "garage"; "door"].
Definition IDENTITY_WORDS : list string := ["phone"; "email"; "address"; "passport"].

Definition classify_text (value : string) : list string :=
  let tags := tag_if (mentions CREDENTIAL_WORDS ["密码"; "凭据"; "密钥"] value) "credential" [] in
  let tags :=
    if mentions CHILD_WORDS ["孩子"; "儿童"; "位置"; "在哪"] value
    then tag_if (mentions CHILD_WORDS ["孩子"; "儿童"] value) "child_location" tags
    else tags in
  let tags := tag_if (mentions HEALTH_WORDS ["健康"; "生病"; "药"; "老人"] value)
                "health_status" tags in
  let tags := tag_if (mentions HOME_WORDS ["摄像头"; "门锁"; "访客"; "车库"; "门口"] value)
                "home_security" tags in
  tag_if (mentions IDENTITY_WORDS ["手机号"; "地址"; "身份证"] value) "personal_identity" tags.

(** The texts of a citation that are classified. *)
Definition citation_texts (c : KnowledgeSearchCitation) : list string :=
  [default "" (kc_preview c); kc_title c; kc_modality c].

Definition classify_information_types (query : string) (citations : list KnowledgeSearchCitation)
    (facts : list SanitizedCitation) : list string :=
  let tags := btree_of (classify_text query) in
  let tags := foldl (fun s c => foldl (fun s t => btree_extend s (classify_text t)) s (citation_texts c))
                tags citations in
  let tags := foldl (fun s f => btree_extend s (risk_tags f)) tags facts in
  match tags with [] => btree_insert "knowledge_context" [] | _ => tags end.

Definition risk_level_for_types (types : list string) : string :=
  if list_any (String.eqb "credential") types then "high"
  else if list_any (fun kind => list_any (String.eqb kind)
         ["child_location"; "health_status"; "home_security"; "personal_identity"]) types
  then "medium" else "low".

Definition consent_basis_for_level (level : PrivacyLevel) : string :=
  match level with
  | StrictLocal => "none"
  | AllowRedactedCloud => "workspace_policy_redacted_cloud"
  | AllowCloud => "workspace_policy_cloud"
  end.

Definition destination_for_level (level : PrivacyLevel) : string :=
  match level with
  | StrictLocal => "local_only"
  | AllowRedactedCloud | AllowCloud => "cloud_model"
  end.

Definition normalize_role (value default_role : string) : string :=
  let value := trim value in
  if is_empty value then default_role else default default_role (sanitize_free_text value 64).

Section privacy.
Context `{SerdeJson} `{!Sha256}.

Definition sanitize_citation (ref : nat) (c : KnowledgeSearchCitation) : option SanitizedCitation :=
  let preview := default "" (kc_preview c) in
  match sanitize_free_text preview FACT_MAX_CHARS with
  | None => None
  | Some text =>
      if is_blank text then None else
      Some {|
        citation_ref := ref;
        sc_modality := kc_modality c;
        source_hash := short_sha256 (kc_title c +:+ ":" +:+ kc_path c +:+ ":"
                                     +:+ default "" (kc_source_path c));
        chunk_hash := short_sha256 (kc_path c +:+ ":" +:+ default "chunk" (kc_chunk_id c)
                                    +:+ ":" +:+ show_nat ref);
        line_range :=
          match kc_line_start c, kc_line_end c with
          | Some s, Some e => Some (show_Z s +:+ "-" +:+ show_Z e)
          | Some s, None => Some (show_Z s)
          | _, _ => None
          end;
        fact := text;
        risk_tags := classify_text (preview +:+ " " +:+ kc_title c +:+ " " +:+ kc_modality c)
      |}
  end.

(** [citations.iter().enumerate().filter_map(..)], from a given index. *)
Fixpoint sanitize_citations (index : nat) (l : list KnowledgeSearchCitation)
  : list SanitizedCitation :=
  match l with
  | [] => []
  | c :: l =>
      match sanitize_citation (S index) c with
      | Some f => f :: sanitize_citations (S index) l
      | None => sanitize_citations (S index) l
      end
  end.

(** * Evaluation *)

Record PrivacyGatewayEvaluation := {
  flow : PrivacyFlowRecord;
  ev_decision : PrivacyGatewayDecision;
  semantic_capsule : option SemanticCapsule;
  privacy_transform : PrivacyTransformRecord
}.

Definition decide_cloud (level : PrivacyLevel) (fs : list SanitizedCitation) (types : list string)
    (risk : string) : PrivacyGatewayDecision :=
  match level with
  | StrictLocal =>
      {| decision := "blocked_or_degraded"; cloud_allowed := false; risk_level := risk;
         reason := "strict_local blocks cloud execution"; warnings := [] |}
  | AllowRedactedCloud =>
      match fs with
      | [] =>
          {| decision := "blocked_or_degraded"; cloud_allowed := false; risk_level := risk;
             reason := "semantic capsule has no sanitized facts";
             warnings := ["privacy gateway did not emit a cloud-safe capsule"] |}
      | _ =>
          if list_any (String.eqb "credential") types then
            {| decision := "blocked_or_degraded"; cloud_allowed := false; risk_level := "high";
               reason := "credential-like material is not allowed in redacted cloud mode";
               warnings :=
                 ["credential-like material was detected and cloud execution was skipped"] |}
          else
            {| decision := "allow_redacted_cloud"; cloud_allowed := true; risk_level := risk;
               reason := "redacted semantic capsule generated"; warnings := [] |}
      end
  | AllowCloud =>
      {| decision := "allow_cloud"; cloud_allowed := true; risk_level := risk;
         reason := "workspace policy allows cloud; contextual integrity evidence recorded";
         warnings := [] |}
  end.

Definition json_strings (l : list string) : Value := json_arr (json_str <$> l).
Definition json_opt_str (o : option string) : Value :=
  match o with Some s => json_str s | None => json_null end.

Definition cloud_task (query : string) : string :=
  match sanitize_free_text query TASK_MAX_CHARS with
  | Some t => if is_blank t then "answer from provided citations" else t
  | None => "answer from provided citations"
  end.

Definition make_capsule (source_ref task : string) (fs : list SanitizedCitation)
    (hashes : list string) : option SemanticCapsule :=
  match fs with
  | [] => None
  | _ => Some {|
      capsule_id := "capsule-" +:+ short_sha256 (source_ref +:+ ":" +:+ task);
      task := task; facts := fs; source_hashes := hashes;
      transform_steps :=
        ["hash_source_refs"; "redact_paths_urls_credentials";
         "truncate_facts_to_" +:+ show_nat FACT_MAX_CHARS +:+ "_chars";
         "emit_task_minimal_semantic_capsule"];
      redacted := true; cap_policy_version := PRIVACY_GATEWAY_POLICY_VERSION |}
  end.

(** [now] is the time in seconds since the epoch. *)
Definition evaluate_rag_answer_cloud_context (now : Z) (query : string)
    (citations : list KnowledgeSearchCitation) (level : PrivacyLevel)
    (workspace_id source_ref role : string) : PrivacyGatewayEvaluation :=
  let task := cloud_task query in
  let fs := sanitize_citations 0 citations in
  let hashes := btree_of (source_hash <$> fs) in
  let types := classify_information_types query citations fs in
  let d := decide_cloud level fs types (risk_level_for_types types) in
  let capsule := make_capsule source_ref task fs hashes in
  {| flow := {|
       sender_role := normalize_role role "user"; subject_role := "household_context";
       recipient_kind := "cloud_model"; information_types := types;
       purpose := "retrieval.answer"; consent_basis := consent_basis_for_level level;
       destination := destination_for_level level; flow_privacy_level := level;
       flow_decision := decision d; flow_policy_version := PRIVACY_GATEWAY_POLICY_VERSION |};
     ev_decision := d;
     semantic_capsule := capsule;
     privacy_transform := {|
       privacy_transform_id :=
         "privacy-transform-" +:+ short_sha256 (source_ref +:+ ":" +:+ decision d);
       pt_workspace_id := workspace_id; source_kind := "rag_answer_context";
       pt_source_ref := source_ref;
       pt_transform_steps :=
         match capsule with
         | Some c => json_strings (transform_steps c)
         | None => json_strings ["cloud_blocked_no_capsule"]
         end;
       output_ref := json_obj
         [("capsule_id", json_opt_str (capsule_id <$> capsule));
          ("source_hashes", json_strings hashes);
          ("redacted", json_bool true); ("metadata_only", json_bool true)];
       pt_policy_version := PRIVACY_GATEWAY_POLICY_VERSION;
       created_at := Some (show_Z now) |} |}.

(** * Renderings *)

Definition prompt_line (f : SanitizedCitation) : string :=
  "[" +:+ show_nat (citation_ref f) +:+ "] modality=" +:+ sc_modality f +:+ " chunk_hash="
  +:+ chunk_hash f +:+ " risk_tags="
  +:+ (match risk_tags f with [] => "none" | _ => join "," (risk_tags f) end)
  +:+ " fact=" +:+ fact f.

Definition newline : string := String (ascii_of_nat 10) "".

Definition to_cloud_prompt (c : SemanticCapsule) : string :=
  join newline
    (["Harbor Privacy Gateway capsule: " +:+ capsule_id c;
      "Answer only from the numbered facts below.";
      "Do not infer identities, locations, credentials, file paths, or extra household details beyond the facts.";
      "Every substantive statement must include a [n] citation marker.";
      "";
      "Task: " +:+ task c;
      "";
      "Facts:"] ++ (prompt_line <$> facts c)).

Definition evidence_value (e : PrivacyGatewayEvaluation) (capsule_prompt_used : bool) : Value :=
  let d := ev_decision e in
  json_obj
    [("kind", json_str "privacy_gateway.rag_answer");
     ("decision", json_str (decision d)); ("reason", json_str (reason d));
     ("risk_level", json_str (risk_level d)); ("cloud_allowed", json_bool (cloud_allowed d));
     ("capsule_prompt_used", json_bool capsule_prompt_used);
     ("policy_version", json_str (flow_policy_version (flow e)));
     ("privacy_transform_id", json_str (privacy_transform_id (privacy_transform e)));
     ("information_types", json_strings (information_types (flow e)));
     ("redacted", json_bool true); ("metadata_only", json_bool true);
     ("capsule_fact_count",
      json_num (Z.of_nat (from_option (fun c => length (facts c)) 0%nat (semantic_capsule e))));
     ("source_hashes", json_strings (from_option source_hashes [] (semantic_capsule e)));
     ("warnings", json_strings (warnings d))].

(** * The built-in evaluation *)

Record PrivacyGatewayEvalCase := {
  case_id : string;
  query : string;
  case_privacy_level : PrivacyLevel;
  citations : list KnowledgeSearchCitation;
  expected_decision : string;
  expected_information_types : list string;
  expected_risk_level : option string;
  expected_capsule : option bool;
  leak_markers : list string
}.

Record PrivacyGatewayEvalCaseResult := {
  r_case_id : string;
  passed : bool;
  r_decision : string;
  r_expected_decision : string;
  r_risk_level : string;
  source_leak_count : nat;
  blocked_or_degraded : bool;
  high_risk : bool;
  missing_information_types : list string;
  failures : list string
}.

Record PrivacyGatewayEvalReport := {
  kind : string;
  rep_policy_version : string;
  total_cases : nat;
  passed_cases : nat;
  failed_cases : nat;
  rep_source_leak_count : nat;
  blocked_or_degraded_count : nat;
  high_risk_count : nat;
  rep_passed : bool;
  cases : list PrivacyGatewayEvalCaseResult
}.

(** ** The cases *)

Definition eval_citation (title path preview : string) (source_path : option string)
  : KnowledgeSearchCitation :=
  {| kc_title := title; kc_path := path; kc_modality := "document";
     kc_chunk_id := Some "chunk-1"; kc_line_start := Some 1; kc_line_end := Some 1;
     kc_preview := Some preview; kc_answer_context := preview; kc_score := 100;
     kc_provenance := Some "document"; kc_source_path := source_path |}.

Definition privacy_gateway_eval_cases : list PrivacyGatewayEvalCase :=
  [{| case_id := "strict_local_blocks_cloud"; query := "summarize the family note";
      case_privacy_level := StrictLocal;
      citations := [eval_citation "family-note.md" "C:\Users\Bean\family-note.md"
                      "The family garden plan is ready." (Some "C:\Users\Bean\family-note.md")];
      expected_decision := "blocked_or_degraded";
      expected_information_types := ["knowledge_context"]; expected_risk_level := Some "low";
      expected_capsule := Some true; leak_markers := ["C:\Users\Bean"; "family-note.md"] |};
   {| case_id := "redacted_cloud_generates_capsule"; query := "what does the garden plan say";
      case_privacy_level := AllowRedactedCloud;
      citations := [eval_citation "garden-plan.md" "C:\Users\Bean\garden-plan.md"
        "The garden plan is ready. Raw source C:\Users\Bean\garden-plan.md https://example.test/private"
        (Some "https://example.test/private")];
      expected_decision := "allow_redacted_cloud";
      expected_information_types := ["knowledge_context"]; expected_risk_level := Some "low";
      expected_capsule := Some true;
      leak_markers := ["C:\Users\Bean"; "garden-plan.md"; "https://example.test/private"] |};
   {| case_id := "credential_blocks_redacted_cloud"; query := "what is the garage api key";
      case_privacy_level := AllowRedactedCloud;
      citations := [eval_citation "garage-secret.md" "C:\Users\Bean\garage-secret.md"
        "The garage integration api_key=secret-123 should never leave the home."
        (Some "C:\Users\Bean\garage-secret.md")];
      expected_decision := "blocked_or_degraded";
      expected_information_types := ["credential"; "home_security"];
      expected_risk_level := Some "high"; expected_capsule := Some true;
      leak_markers := ["api_key=secret-123"; "secret-123"; "C:\Users\Bean"; "garage-secret.md"] |};
   {| case_id := "child_health_home_security_risk_tags"; query := "child health and camera status";
      case_privacy_level := AllowRedactedCloud;
      citations := [eval_citation "home-status.md" "C:\Users\Bean\home-status.md"
        "Child location, health status, home camera, and front door status are in this note."
        (Some "C:\Users\Bean\home-status.md")];
      expected_decision := "allow_redacted_cloud";
      expected_information_types := ["child_location"; "health_status"; "home_security"];
      expected_risk_level := Some "medium"; expected_capsule := Some true;
      leak_markers := ["C:\Users\Bean"; "home-status.md"] |};
   {| case_id := "allow_cloud_records_evidence_only"; query := "summarize the device note";
      case_privacy_level := AllowCloud;
      citations := [eval_citation "device-note.md" "C:\Users\Bean\device-note.md"
        "Harbor can answer from controlled cloud fallback." (Some "C:\Users\Bean\device-note.md")];
      expected_decision := "allow_cloud";
      expected_information_types := ["knowledge_context"]; expected_risk_level := Some "low";
      expected_capsule := Some true; leak_markers := ["C:\Users\Bean"; "device-note.md"] |}].

(** [serde_json::to_string] at the two types. *)
Context (capsule_to_string : option SemanticCapsule -> result string string)
  (value_to_string : Value -> result string string).

Definition text_or_empty (r : result string string) : string :=
  match r with Ok s => s | Err _ => "" end.

Definition evaluate_case (now : Z) (c : PrivacyGatewayEvalCase) : PrivacyGatewayEvaluation :=
  evaluate_rag_answer_cloud_context now (query c) (citations c) (case_privacy_level c)
    "home-1" (case_id c) "owner".

Definition leaks (now : Z) (c : PrivacyGatewayEvalCase) : list string :=
  let e := evaluate_case now c in
  let capsule := text_or_empty (capsule_to_string (semantic_capsule e)) in
  let evidence := text_or_empty
    (value_to_string (evidence_value e (default false (expected_capsule c)))) in
  List.filter (fun m => negb (is_blank m) && (str_contains m capsule || str_contains m evidence))
    (leak_markers c).

Definition missing_types (now : Z) (c : PrivacyGatewayEvalCase) : list string :=
  List.filter (fun x => negb (list_any (String.eqb x)
      (information_types (flow (evaluate_case now c))))) (expected_information_types c).

Definition is_some_b {A} (o : option A) : bool := match o with Some _ => true | None => false end.

Definition case_failures (now : Z) (c : PrivacyGatewayEvalCase) : list string :=
  let e := evaluate_case now c in
  let d := ev_decision e in
  (if negb (decision d =? expected_decision c)%string
   then ["decision expected " +:+ expected_decision c +:+ " but got " +:+ decision d] else [])
  ++ (match expected_risk_level c with
      | Some r => if negb (risk_level d =? r)%string
                  then ["risk_level expected " +:+ r +:+ " but got " +:+ risk_level d] else []
      | None => []
      end)
  ++ (match expected_capsule c with
      | Some b => if negb (Bool.eqb (is_some_b (semantic_capsule e)) b)
                  then ["semantic_capsule expected " +:+ show_bool b +:+ " but got "
                        +:+ show_bool (is_some_b (semantic_capsule e))] else []
      | None => []
      end)
  ++ (match missing_types now c with
      | [] => []
      | l => ["missing information_types: " +:+ join "," l]
      end)
  ++ (if (0 <? length (leaks now c))%nat
      then [show_nat (length (leaks now c)) +:+ " source leak marker(s) found"] else []).

Definition case_result (now : Z) (c : PrivacyGatewayEvalCase) : PrivacyGatewayEvalCaseResult :=
  let d := ev_decision (evaluate_case now c) in
  {| r_case_id := case_id c;
     passed := match case_failures now c with [] => true | _ => false end;
     r_decision := decision d; r_expected_decision := expected_decision c;
     r_risk_level := risk_level d; source_leak_count := length (leaks now c);
     blocked_or_degraded := (decision d =? "blocked_or_degraded")%string;
     high_risk := (risk_level d =? "high")%string;
     missing_information_types := missing_types now c; failures := case_failures now c |}.

(** [times i] is the clock at the [i]-th case. *)
Definition evaluate_privacy_gateway_cases (times : nat -> Z) (l : list PrivacyGatewayEvalCase)
  : PrivacyGatewayEvalReport :=
  let results := imap (fun i c => case_result (times i) c) l in
  let leak_count := sum_list (source_leak_count <$> results) in
  let passed_cases := count_if passed results in
  let total_cases := length results in
  let failed_cases := (total_cases - passed_cases)%nat in
  {| kind := "privacy_gateway_eval_report"; rep_policy_version := PRIVACY_GATEWAY_POLICY_VERSION;
     total_cases := total_cases; passed_cases := passed_cases; failed_cases := failed_cases;
     rep_source_leak_count := leak_count;
     blocked_or_degraded_count := count_if blocked_or_degraded results;
     high_risk_count := count_if high_risk results;
     rep_passed := (failed_cases =? 0)%nat && (leak_count =? 0)%nat;
     cases := results |}.

End privacy.
