(* ===== verification/PrivacyTheorems.v ===== *)
(** What the privacy gateway guarantees: which requests reach a cloud model, what
    a capsule cannot contain, and what the risk tags mean. *)
From Stdlib Require Import Ascii.
From S2P Require Import Prelude RustString Json Models Privacy.
Local Open Scope Z_scope.

(** * Sets of strings *)

Definition string_lt (a b : string) : Prop := String.compare a b = Lt.

(** A [BTreeSet<String>], listed: strictly increasing. *)
Definition btree (l : list string) : Prop := StronglySorted string_lt l.

Lemma elem_of_btree_insert x y l : x ∈ btree_insert y l <-> x = y \/ x ∈ l.
Proof.
  induction l as [|z l IH]; cbn; [set_solver|]. destruct (String.compare y z) eqn:E; [|set_solver..].
  apply String.compare_eq_iff in E as ->. set_solver.
Qed.

Lemma btree_insert_sorted x l : btree l -> btree (btree_insert x l).
Proof.
  unfold btree. induction 1 as [|y l Hl IH Hy]; cbn; [by repeat constructor|].
  destruct (String.compare x y) eqn:E; [by constructor| |].
  - constructor; [by constructor|]. constructor; [done|]. rewrite Forall_forall in Hy |- *.
    intros z Hz. eapply string_compare_lt_trans; [exact E|by apply Hy].
  - constructor; [done|]. apply Forall_forall. intros z [->|Hz]%elem_of_btree_insert.
    + unfold string_lt. by rewrite String.compare_antisym, E.
    + rewrite Forall_forall in Hy. by apply Hy.
Qed.

Lemma elem_of_btree_extend x s l : x ∈ btree_extend s l <-> x ∈ s \/ x ∈ l.
Proof.
  unfold btree_extend. revert s. induction l as [|y l IH]; intros s; cbn; [set_solver|].
  rewrite IH, elem_of_btree_insert. set_solver.
Qed.

Lemma btree_extend_sorted s l : btree s -> btree (btree_extend s l).
Proof.
  unfold btree_extend. revert s. induction l as [|y l IH]; intros s Hs; cbn; [done|].
  by apply IH, btree_insert_sorted.
Qed.

Lemma elem_of_btree_of x l : x ∈ btree_of l <-> x ∈ l.
Proof. unfold btree_of. rewrite elem_of_btree_extend. set_solver. Qed.

Lemma btree_of_sorted l : btree (btree_of l).
Proof. apply btree_extend_sorted. constructor. Qed.

Lemma elem_of_tag_if x b tag s : x ∈ tag_if b tag s <-> (b = true /\ x = tag) \/ x ∈ s.
Proof. unfold tag_if. destruct b; rewrite ?elem_of_btree_insert; naive_solver. Qed.

Create HintDb btree.
#[export] Hint Resolve btree_insert_sorted btree_extend_sorted btree_of_sorted : btree.

(** A fold that only extends. *)
Lemma elem_of_foldl_extend {A} (f : A -> list string) (g : list string -> A -> list string) x s l :
  (forall s a, x ∈ g s a <-> x ∈ s \/ x ∈ f a) ->
  x ∈ foldl g s l <-> x ∈ s \/ exists a, a ∈ l /\ x ∈ f a.
Proof.
  intros Hg. revert s. induction l as [|a l IH]; intros s; cbn; [set_solver|].
  rewrite IH, Hg. set_solver.
Qed.

Lemma foldl_btree {A} (g : list string -> A -> list string) s l :
  (forall s a, btree s -> btree (g s a)) -> btree s -> btree (foldl g s l).
Proof. intros Hg. revert s. induction l as [|a l IH]; intros s Hs; cbn; auto. Qed.

(** * Words in joined texts *)

Definition no_space (p : string) : bool := str_forall (fun c => negb (Ascii.eqb c " "%char)) p.

(** A word without spaces is in two texts joined by a space when it is in one. *)
Lemma starts_with_space p a b :
  no_space p = true -> starts_with p (a +:+ String " " b) = true -> starts_with p a = true.
Proof.
  revert a. induction p as [|c p IH]; intros a Hp H; [by destruct a|]. cbn in Hp. bool_facts.
  destruct a as [|d a]; cbn in *.
  - destruct (ascii_dec c " ") as [->|]; done.
  - destruct (ascii_dec c d); [|done]. by apply IH.
Qed.

Lemma str_contains_space p a b : no_space p = true ->
  str_contains p (a +:+ String " " b) = str_contains p a || str_contains p b.
Proof.
  intros Hp. apply eq_true_iff_eq. rewrite orb_true_iff. split.
  - induction a as [|d a IH].
    + change ("" +:+ String " " b) with (String " " b). rewrite str_contains_cons, orb_true_iff.
      intros [Hs|Hc]; [|by right]. left. apply (starts_with_space p "" b) in Hs; [|done].
      destruct p; [reflexivity|discriminate].
    + change (String d a +:+ String " " b) with (String d (a +:+ String " " b)).
      rewrite !str_contains_cons, !orb_true_iff. intros [Hs|Hc]; [|naive_solver].
      left; left. by apply (starts_with_space p (String d a) b).
  - intros [H|H].
    + by apply str_contains_app_l.
    + apply str_contains_spec in H as (u & v & ->). apply str_contains_spec.
      exists (a +:+ String " " u), v. rewrite !str_app_assoc. cbn. by rewrite ?str_app_assoc.
Qed.

Lemma contains_any_space ws a b : forallb no_space ws = true ->
  contains_any ws (a +:+ String " " b) = contains_any ws a || contains_any ws b.
Proof.
  intros Hw. rewrite forallb_forall in Hw. apply eq_true_iff_eq.
  unfold contains_any. rewrite orb_true_iff, !list_any_true. split.
  - intros (p & Hp & H). rewrite str_contains_space in H by (by apply Hw, list_elem_of_In).
    apply orb_true_iff in H as [H|H]; [left|right]; eauto.
  - intros [(p & Hp & H)|(p & Hp & H)]; exists p; (split; [done|]);
      rewrite str_contains_space by (by apply Hw, list_elem_of_In); rewrite H; by rewrite ?orb_true_r.
Qed.

Lemma mentions_space ws ps a b : forallb no_space (ws ++ ps) = true ->
  mentions ws ps (a +:+ String " " b) = mentions ws ps a || mentions ws ps b.
Proof.
  rewrite forallb_app. intros [Hw Hp]%andb_prop. unfold mentions, to_ascii_lowercase.
  rewrite str_map_app. change (str_map ascii_lower (String " " b)) with (String " " (str_map ascii_lower b)).
  rewrite contains_any_space by done. fold (contains_any ps (a +:+ String " " b)).
  fold (contains_any ps a) (contains_any ps b). rewrite contains_any_space by done.
  destruct (contains_any ws _), (contains_any ws _), (contains_any ps a), (contains_any ps b); done.
Qed.

(** * Information types *)

(** The tags, and what of a text they stand for. *)
Definition tag_tests : list (string * (string -> bool)) :=
  [("credential", mentions CREDENTIAL_WORDS ["密码"; "凭据"; "密钥"]);
   ("child_location", mentions CHILD_WORDS ["孩子"; "儿童"]);
   ("health_status", mentions HEALTH_WORDS ["健康"; "生病"; "药"; "老人"]);
   ("home_security", mentions HOME_WORDS ["摄像头"; "门锁"; "访客"; "车库"; "门口"]);
   ("personal_identity", mentions IDENTITY_WORDS ["手机号"; "地址"; "身份证"])].

Definition text_has_tag (tag t : string) : Prop := exists p, (tag, p) ∈ tag_tests /\ p t = true.

Lemma mentions_mono ws ps qs t : ps ⊆ qs -> mentions ws ps t = true -> mentions ws qs t = true.
Proof.
  intros Hs. unfold mentions. rewrite !orb_true_iff, !list_any_true. set_solver.
Qed.

Lemma elem_of_classify_text tag t : tag ∈ classify_text t <-> text_has_tag tag t.
Proof.
  assert (Hc : forall s,
    tag ∈ (if mentions CHILD_WORDS ["孩子"; "儿童"; "位置"; "在哪"] t
           then tag_if (mentions CHILD_WORDS ["孩子"; "儿童"] t) "child_location" s else s)
    <-> (mentions CHILD_WORDS ["孩子"; "儿童"] t = true /\ tag = "child_location") \/ tag ∈ s).
  { intros s. destruct (mentions CHILD_WORDS ["孩子"; "儿童"; "位置"; "在哪"] t) eqn:E;
      [apply elem_of_tag_if|]. split; [by right|]. intros [[H _]|H]; [|done].
    eapply mentions_mono in H; [rewrite E in H; done|set_solver]. }
  unfold classify_text, text_has_tag. cbv zeta. rewrite !elem_of_tag_if, Hc, elem_of_tag_if.
  unfold tag_tests. setoid_rewrite elem_of_cons. setoid_rewrite elem_of_cons.
  setoid_rewrite elem_of_cons. setoid_rewrite elem_of_cons. setoid_rewrite list_elem_of_singleton.
  setoid_rewrite pair_equal_spec. set_solver.
Qed.

Lemma classify_text_sorted t : btree (classify_text t).
Proof.
  assert (H : forall b tag s, btree s -> btree (tag_if b tag s))
    by (intros [] tag s Hs; cbn; auto with btree).
  unfold classify_text. cbv zeta. repeat apply H.
  destruct (mentions _ _ _); repeat apply H; constructor.
Qed.

(** A text of several words has the tags of its words. *)
Lemma text_has_tag_space tag a b :
  text_has_tag tag (a +:+ String " " b) <-> text_has_tag tag a \/ text_has_tag tag b.
Proof.
  assert (H : forall p, (tag, p) ∈ tag_tests -> p (a +:+ String " " b) = p a || p b).
  { intros p. unfold tag_tests. rewrite !elem_of_cons, elem_of_nil, !pair_equal_spec.
    intros [[_ ->]|[[_ ->]|[[_ ->]|[[_ ->]|[[_ ->]|[]]]]]]; by apply mentions_space. }
  unfold text_has_tag. split.
  - intros (p & Hp & Ht). rewrite H in Ht by done. apply orb_true_iff in Ht as [?|?]; eauto.
  - intros [(p & Hp & Ht)|(p & Hp & Ht)]; exists p; (split; [done|]); rewrite H, Ht by done;
      by rewrite ?orb_true_r.
Qed.

(** * The parts of an evaluation *)

Section evaluation.
Context `{SerdeJson} `{!Sha256}.

Lemma elem_of_sanitize_citations f i cs :
  f ∈ sanitize_citations i cs ->
  exists c, c ∈ cs /\ (i < citation_ref f <= i + length cs)%nat
            /\ sanitize_citation (citation_ref f) c = Some f.
Proof.
  revert i. induction cs as [|c cs IH]; intros i; cbn; [set_solver|].
  destruct (sanitize_citation (S i) c) as [g|] eqn:E.
  - intros [->|Hf]%elem_of_cons.
    + assert (citation_ref g = S i) as Hr.
      { unfold sanitize_citation in E. repeat (case_match; try done); by injection E as <-. }
      exists c. rewrite Hr. split_and!; [set_solver|lia..|done].
    + destruct (IH (S i) Hf) as (c' & Hc & Hr & Es). exists c'. split_and!; [set_solver|lia..|done].
  - intros Hf. destruct (IH (S i) Hf) as (c' & Hc & Hr & Es). exists c'.
    split_and!; [set_solver|lia..|done].
Qed.

(** The texts whose content decides the tags. *)
Definition texts (query : string) (cs : list KnowledgeSearchCitation) : list string :=
  query :: (cs ≫= citation_texts).

Definition mentioned (query : string) (cs : list KnowledgeSearchCitation) (tag : string) : Prop :=
  exists t, t ∈ texts query cs /\ text_has_tag tag t.

(** A fact's tags are those of its citation's texts. *)
Lemma risk_tags_mentioned f ref c tag :
  sanitize_citation ref c = Some f -> tag ∈ risk_tags f ->
  exists t, t ∈ citation_texts c /\ text_has_tag tag t.
Proof.
  intros E. assert (risk_tags f = classify_text (default "" (kc_preview c) +:+ " " +:+ kc_title c
    +:+ " " +:+ kc_modality c)) as ->.
  { unfold sanitize_citation in E. repeat (case_match; try done); by injection E as <-. }
  rewrite elem_of_classify_text. unfold citation_texts.
  change (" " +:+ kc_modality c) with (String " " (kc_modality c)).
  change (" " +:+ ?x) with (String " " x). rewrite !text_has_tag_space.
  intros [Ht|[Ht|Ht]]; (eexists; split; [|exact Ht]; set_solver).
Qed.

Lemma types_raw tag query cs fs :
  (forall f, f ∈ fs -> exists c ref, c ∈ cs /\ sanitize_citation ref c = Some f) ->
  tag ∈ foldl (fun s f => btree_extend s (risk_tags f))
          (foldl (fun s c => foldl (fun s t => btree_extend s (classify_text t)) s (citation_texts c))
             (btree_of (classify_text query)) cs) fs
  <-> mentioned query cs tag.
Proof.
  intros Hfs. rewrite (elem_of_foldl_extend risk_tags) by (intros; apply elem_of_btree_extend).
  rewrite (elem_of_foldl_extend (fun c => citation_texts c ≫= classify_text)).
  2: { intros s c. rewrite (elem_of_foldl_extend classify_text) by (intros; apply elem_of_btree_extend).
       rewrite list_elem_of_bind. set_solver. }
  rewrite elem_of_btree_of, elem_of_classify_text. unfold mentioned, texts.
  setoid_rewrite elem_of_cons. setoid_rewrite list_elem_of_bind.
  setoid_rewrite elem_of_classify_text. split.
  - intros [[Hq|(c & Hc & t & Ht & Hin)]|(f & Hf & Ht)]; [eauto|eauto 8|].
    destruct (Hfs f Hf) as (c & ref & Hc & E). destruct (risk_tags_mentioned _ _ _ _ E Ht) as (t & ? & ?).
    eauto 8.
  - intros (t & [->|(c & Ht & Hc)] & Hx); [eauto|]. left. right. eauto.
Qed.

Lemma information_types_elem tag query cs :
  tag ∈ classify_information_types query cs (sanitize_citations 0 cs) <->
  mentioned query cs tag
  \/ tag = "knowledge_context" /\ forall x, ~ mentioned query cs x.
Proof.
  pose proof (fun tag => types_raw tag query cs (sanitize_citations 0 cs)) as Hraw.
  unfold classify_information_types. cbv zeta.
  set (l := foldl _ _ (sanitize_citations 0 cs)) in *. clearbody l.
  assert (He : forall x, x ∈ l <-> mentioned query cs x).
  { intros x. apply Hraw. intros f Hf.
    destruct (elem_of_sanitize_citations f 0 cs Hf) as (c & ? & _ & ?). eauto. }
  destruct l as [|x l].
  - rewrite elem_of_btree_insert, <-He. setoid_rewrite <-He. set_solver.
  - rewrite He. split; [by left|]. intros [?|[_ Hn]]; [done|]. destruct (Hn x). apply He. left.
Qed.

Lemma information_types_sorted query cs fs :
  (forall f, f ∈ fs -> btree (risk_tags f)) -> btree (classify_information_types query cs fs).
Proof.
  intros Hfs. unfold classify_information_types. cbv zeta.
  assert (btree (foldl (fun s f => btree_extend s (risk_tags f))
          (foldl (fun s c => foldl (fun s t => btree_extend s (classify_text t)) s (citation_texts c))
             (btree_of (classify_text query)) cs) fs)) as Hs.
  { apply foldl_btree; [auto with btree|]. apply foldl_btree; [|auto with btree].
    intros s c Hs. apply foldl_btree; auto with btree. }
  destruct (foldl _ _ fs); [repeat constructor|done].
Qed.

(** * Redaction *)

Definition safe_text (max : nat) (s : string) : Prop :=
  (chars_count s <= max)%nat
  /\ forall t, t ∈ split_whitespace s -> should_redact_token t = false.

(** Cutting a token that may leave gives one that may leave. *)
Lemma redact_prefix t w : should_redact_token (t +:+ w) = false -> should_redact_token t = false.
Proof.
  unfold should_redact_token. rewrite <-!not_true_iff_false, !orb_true_iff, !list_any_true.
  unfold to_ascii_lowercase. rewrite str_map_app. intros Hn Ht. apply Hn.
  destruct Ht as [(p & ? & ?)|(p & ? & ?)]; [left|right]; exists p; (split; [done|]);
    eauto using starts_with_app_l, str_contains_app_l.
Qed.

Lemma redacted_token_safe t : should_redact_token (redact t) = false.
Proof. unfold redact. by destruct (should_redact_token t) eqn:E. Qed.

Lemma redacted_token_token t : is_token t /\ t <> "" -> is_token (redact t) /\ redact t <> "".
Proof. intros [? ?]. unfold redact. by destruct (should_redact_token t). Qed.

Lemma sanitize_free_text_safe value max s :
  sanitize_free_text value max = Some s -> safe_text max s.
Proof.
  unfold sanitize_free_text. cbv zeta. set (ts := redact <$> split_whitespace value).
  assert (Hts : forall t, t ∈ ts -> (is_token t /\ t <> "") /\ should_redact_token t = false).
  { intros t (u & -> & Hu)%list_elem_of_fmap. split; [|apply redacted_token_safe].
    by apply redacted_token_token, (split_whitespace_tokens value). }
  destruct (is_blank _); [done|].
  destruct (max <? chars_count _)%nat eqn:E; intros [= <-].
  - split; [apply chars_count_take|]. intros t Ht.
    destruct (chars_take_prefix max (join " " ts)) as [r Hr].
    destruct (split_whitespace_join_prefix ts _ r t (fun u Hu => proj1 (Hts u Hu)) Hr Ht)
      as (u & w & Hu & ->).
    by apply (redact_prefix t w), Hts.
  - apply Nat.ltb_ge in E. split; [done|]. intros t Ht.
    rewrite split_whitespace_join in Ht by (intros; by apply Hts). by apply Hts.
Qed.

Lemma sanitize_citation_spec ref c f :
  sanitize_citation ref c = Some f ->
  safe_text FACT_MAX_CHARS (fact f) /\ is_blank (fact f) = false /\ btree (risk_tags f).
Proof.
  unfold sanitize_citation. destruct (sanitize_free_text _ _) as [s|] eqn:Es; [|done].
  destruct (is_blank s) eqn:Eb; [done|]. intros [= <-]. cbn [fact risk_tags].
  split_and!; [by eapply sanitize_free_text_safe|done|apply classify_text_sorted].
Qed.

Lemma cloud_task_safe query : safe_text TASK_MAX_CHARS (cloud_task query).
Proof.
  assert (safe_text TASK_MAX_CHARS "answer from provided citations") as Hd.
  { split; [vm_compute; lia|].
    assert (split_whitespace "answer from provided citations"
            = ["answer"; "from"; "provided"; "citations"]) as -> by reflexivity.
    intros t. rewrite !elem_of_cons, elem_of_nil.
    intros [->|[->|[->|[->|[]]]]]; reflexivity. }
  unfold cloud_task. destruct (sanitize_free_text query _) as [s|] eqn:E; [|done].
  destruct (is_blank s); [done|]. by eapply sanitize_free_text_safe.
Qed.

(** * Decisions *)

Lemma has_credential types : list_any (String.eqb "credential") types = true <-> "credential" ∈ types.
Proof.
  rewrite list_any_true. setoid_rewrite String.eqb_eq. naive_solver.
Qed.

(** The tags that raise the risk. *)
Definition RISKY : list string := tag_tests.*1.

Lemma risk_high types : risk_level_for_types types = "high" <-> "credential" ∈ types.
Proof.
  rewrite <-has_credential. unfold risk_level_for_types.
  destruct (list_any (String.eqb "credential") types); [done|].
  destruct (list_any _ types); done.
Qed.

Lemma risk_low types : risk_level_for_types types = "low" <-> forall x, x ∈ RISKY -> x ∉ types.
Proof.
  unfold risk_level_for_types. split.
  - destruct (list_any (String.eqb "credential") types) eqn:E1; [done|].
    match goal with |- context [list_any ?p types] => destruct (list_any p types) eqn:E2 end;
      [done|]. intros _ x Hx Hin.
    pose proof (proj1 (list_any_false _ _) E1 x Hin) as H1.
    pose proof (proj1 (list_any_false _ _) (proj1 (list_any_false _ _) E2 x Hin)) as H2.
    apply elem_of_cons in Hx as [->|Hx]; [done|].
    specialize (H2 x Hx). by rewrite String.eqb_refl in H2.
  - intros Hx. rewrite (proj2 (list_any_false _ _)).
    + rewrite (proj2 (list_any_false _ _)); [done|]. intros y Hy. apply list_any_false.
      intros z Hz. apply String.eqb_neq. intros ->. apply (Hx z); [by right|done].
    + intros y Hy. apply String.eqb_neq. intros <-. apply (Hx "credential"); [left|done].
Qed.

Lemma mentioned_known query cs x : mentioned query cs x -> x ∈ RISKY.
Proof. intros (t & _ & p & Hp & _). apply list_elem_of_fmap. by exists (x, p). Qed.

(** C30. The gate to the cloud: an evaluation allows a cloud model exactly when
    the policy allows the cloud outright, or allows redacted context, something
    survived redaction, and nothing credential-like is in the question or in any
    citation, used or not; the recorded decision, flow and destination say the
    same, and context leaves under the redacting policy as a capsule. *)
Theorem cloud_gate now query citations level workspace ref role :
  let e := evaluate_rag_answer_cloud_context now query citations level workspace ref role in
  let d := ev_decision e in
  (cloud_allowed d = true <->
     level = AllowCloud
     \/ level = AllowRedactedCloud /\ sanitize_citations 0 citations <> []
        /\ ~ mentioned query citations "credential")
  /\ (decision d = "blocked_or_degraded" <-> cloud_allowed d = false)
  /\ (decision d = "allow_redacted_cloud" -> is_Some (semantic_capsule e))
  /\ flow_decision (flow e) = decision d
  /\ (destination (flow e) = "local_only" <-> level = StrictLocal)
  /\ risk_level d = risk_level_for_types (information_types (flow e)).
Proof.
  cbv zeta. unfold evaluate_rag_answer_cloud_context. cbn -[classify_information_types].
  set (types := classify_information_types _ _ _).
  assert (mentioned query citations "credential" <-> "credential" ∈ types) as ->.
  { unfold types. rewrite information_types_elem. naive_solver. }
  rewrite <-has_credential. unfold decide_cloud, make_capsule.
  destruct level; cbn -[risk_level_for_types]; [naive_solver| |naive_solver].
  destruct (sanitize_citations 0 citations); cbn -[risk_level_for_types]; [naive_solver|].
  destruct (list_any _ types) eqn:E; cbn -[risk_level_for_types]; [|naive_solver].
  apply has_credential, risk_high in E. naive_solver.
Qed.

Lemma make_capsule_some ref t fs hs c :
  make_capsule ref t fs hs = Some c ->
  fs <> [] /\ task c = t /\ facts c = fs /\ source_hashes c = hs.
Proof. unfold make_capsule. destruct fs; [done|]. by intros [= <-]. Qed.

(** What a capsule can contain: its task and facts are within their lengths
    and hold no word that looks like a link, a credential or a path, not even
    where they were cut; each fact comes from a citation, numbered by its place;
    there is at least one; and sources appear as hashes, without repetition. *)
Theorem capsule_redacted now query citations level workspace ref role c :
  semantic_capsule (evaluate_rag_answer_cloud_context now query citations level workspace ref role)
    = Some c ->
  safe_text TASK_MAX_CHARS (task c)
  /\ facts c <> []
  /\ (forall f, f ∈ facts c ->
        safe_text FACT_MAX_CHARS (fact f) /\ is_blank (fact f) = false
        /\ exists k, k ∈ citations /\ (1 <= citation_ref f <= length citations)%nat
                     /\ sanitize_citation (citation_ref f) k = Some f)
  /\ btree (source_hashes c)
  /\ (forall h, h ∈ source_hashes c <-> exists f, f ∈ facts c /\ h = source_hash f).
Proof.
  intros (Hne & -> & -> & ->)%make_capsule_some. split_and!.
  - apply cloud_task_safe.
  - done.
  - intros f Hf. destruct (elem_of_sanitize_citations f 0 citations Hf) as (k & Hk & Hr & Es).
    destruct (sanitize_citation_spec _ _ _ Es) as (? & ? & _). eauto 8 with lia.
  - apply btree_of_sorted.
  - intros h. rewrite elem_of_btree_of, list_elem_of_fmap. naive_solver.
Qed.

(** The information types of a flow: the sorted set of the tags of which the
    question or a citation's preview, title or modality speaks, or
    [knowledge_context] when there is none; never empty; and the risk level is
    high with a credential, medium with another tag, low otherwise. *)
Theorem information_types_spec now query citations level workspace ref role :
  let fl := flow (evaluate_rag_answer_cloud_context now query citations level workspace ref role) in
  let types := information_types fl in
  let risk := risk_level_for_types types in
  btree types /\ types <> []
  /\ (forall tag, tag ∈ types <-> mentioned query citations tag
        \/ tag = "knowledge_context" /\ forall x, ~ mentioned query citations x)
  /\ (risk = "high" <-> mentioned query citations "credential")
  /\ (risk = "low" <-> forall x, ~ mentioned query citations x).
Proof.
  cbv zeta. unfold evaluate_rag_answer_cloud_context. cbn -[classify_information_types].
  pose proof (fun tag => information_types_elem tag query citations) as Hel.
  assert (btree (classify_information_types query citations (sanitize_citations 0 citations))) as Hs.
  { apply information_types_sorted. intros f (c & _ & _ & Ec)%elem_of_sanitize_citations.
    by apply sanitize_citation_spec in Ec as (_ & _ & ?). }
  set (types := classify_information_types _ _ _) in *. clearbody types.
  split_and!; [done| |done|..].
  - intros ->. destruct (Hel "knowledge_context") as [_ Hk]. apply not_elem_of_nil in Hk as [].
    right. split; [done|]. intros x Hx. by apply (not_elem_of_nil x), Hel; left.
  - rewrite risk_high, Hel. naive_solver.
  - rewrite risk_low. split.
    + intros Hl x Hx. apply (Hl x); [by eapply mentioned_known|]. apply Hel. by left.
    + intros Hn x Hx Hin. apply Hel in Hin as [Hm|[-> _]]; [by apply (Hn x)|].
      unfold RISKY in Hx. set_solver.
Qed.

(** * The built-in evaluation *)

Context (capsule_to_string : option SemanticCapsule -> result string string)
  (value_to_string : Value -> result string string).

(** What a case asks for. *)
Definition as_expected (now : Z) (c : PrivacyGatewayEvalCase) : Prop :=
  let e := evaluate_case now c in
  let d := ev_decision e in
  decision d = expected_decision c
  /\ (forall r, expected_risk_level c = Some r -> risk_level d = r)
  /\ (forall b, expected_capsule c = Some b -> is_some_b (semantic_capsule e) = b)
  /\ (forall t, t ∈ expected_information_types c -> t ∈ information_types (flow e))
  /\ (forall m, m ∈ leak_markers c -> is_blank m = false ->
        str_contains m (text_or_empty (capsule_to_string (semantic_capsule e))) = false
        /\ str_contains m (text_or_empty (value_to_string
             (evidence_value e (default false (expected_capsule c))))) = false).

Lemma filter_nil {A} (p : A -> bool) l : List.filter p l = [] <-> forall x, x ∈ l -> p x = false.
Proof.
  induction l as [|x l IH]; cbn; [set_solver|]. destruct (p x) eqn:E.
  - split; [done|]. intros Hx. rewrite (Hx x) in E; [done|left].
  - rewrite IH. setoid_rewrite elem_of_cons. naive_solver.
Qed.

Lemma if_nil {A} (b : bool) (l : list A) : l <> [] -> (if b then l else []) = [] <-> b = false.
Proof. by destruct b. Qed.

Lemma leaks_nil now c : leaks capsule_to_string value_to_string now c = [] <->
  forall m, m ∈ leak_markers c -> is_blank m = false ->
    str_contains m (text_or_empty (capsule_to_string (semantic_capsule (evaluate_case now c)))) = false
    /\ str_contains m (text_or_empty (value_to_string
         (evidence_value (evaluate_case now c) (default false (expected_capsule c))))) = false.
Proof.
  unfold leaks. cbv zeta. rewrite filter_nil.
  setoid_rewrite andb_false_iff. setoid_rewrite orb_false_iff. setoid_rewrite negb_false_iff.
  split; intros Hm m Hin; specialize (Hm m Hin); destruct (is_blank m); naive_solver.
Qed.

Lemma missing_types_nil now c : missing_types now c = [] <->
  forall t, t ∈ expected_information_types c -> t ∈ information_types (flow (evaluate_case now c)).
Proof.
  unfold missing_types. rewrite filter_nil. setoid_rewrite negb_false_iff.
  setoid_rewrite list_any_true. setoid_rewrite String.eqb_eq. naive_solver.
Qed.

Lemma case_failures_nil now c :
  case_failures capsule_to_string value_to_string now c = [] <-> as_expected now c.
Proof.
  unfold case_failures, as_expected. cbv zeta. rewrite !app_nil, <-leaks_nil, <-missing_types_nil.
  rewrite !if_nil by done. rewrite negb_false_iff, String.eqb_eq. do 2 f_equiv; [|f_equiv; [|f_equiv]].
  - destruct (expected_risk_level c); [|naive_solver].
    rewrite if_nil, negb_false_iff, String.eqb_eq by done. naive_solver.
  - destruct (expected_capsule c); [|naive_solver].
    rewrite if_nil, negb_false_iff, eqb_true_iff by done. naive_solver.
  - by destruct (missing_types now c).
  - by destruct (leaks _ _ now c).
Qed.

Lemma count_if_all {A} (p : A -> bool) l : count_if p l = length l <-> forall x, x ∈ l -> p x = true.
Proof.
  induction l as [|x l IH]; [set_solver|]. rewrite count_if_cons. cbn [length].
  pose proof (count_if_le p l). setoid_rewrite elem_of_cons. destruct (p x) eqn:E; [naive_solver lia|].
  split; [cbn; lia|]. intros Hx. rewrite (Hx x) in E; [done|by left].
Qed.

(** The gateway's own evaluation: it counts every case once, and reports that
    it passed exactly when every case got the decision, risk, capsule and
    information types it expects and none of its markers occurs in the text of
    the capsule or of the evidence. *)
Theorem report_sound times l :
  let r := evaluate_privacy_gateway_cases capsule_to_string value_to_string times l in
  total_cases r = length l
  /\ (passed_cases r + failed_cases r = total_cases r)%nat
  /\ (rep_passed r = true <-> forall i c, l !! i = Some c -> as_expected (times i) c).
Proof.
  cbv zeta. unfold evaluate_privacy_gateway_cases. cbn [total_cases passed_cases failed_cases rep_passed].
  set (rs := imap _ _).
  assert (Hrs : forall r, r ∈ rs <-> exists i c, l !! i = Some c
            /\ r = case_result capsule_to_string value_to_string (times i) c).
  { intros r. unfold rs. rewrite list_elem_of_lookup. setoid_rewrite list_lookup_imap_Some.
    naive_solver. }
  pose proof (count_if_le passed rs). split_and!; [apply length_imap|lia|].
  rewrite andb_true_iff, !Nat.eqb_eq. split.
  - intros [Hc _] i c Hi. apply case_failures_nil.
    assert (Hall : count_if passed rs = length rs) by lia. rewrite count_if_all in Hall.
    specialize (Hall _ (proj2 (Hrs _) (ex_intro _ i (ex_intro _ c (conj Hi eq_refl))))).
    cbn in Hall. by destruct (case_failures _ _ _ _).
  - intros He. assert (Hall : forall r, r ∈ rs -> passed r = true /\ source_leak_count r = 0%nat).
    { intros r (i & c & Hi & ->)%Hrs. specialize (He i c Hi). split.
      - cbn. by apply case_failures_nil in He as ->.
      - cbn. destruct He as (_ & _ & _ & _ & Hl). by apply leaks_nil in Hl as ->. }
    split.
    + assert (count_if passed rs = length rs) as -> by (apply count_if_all; naive_solver). lia.
    + clear -Hall. induction rs as [|r rs IH]; cbn; [done|].
      rewrite (proj2 (Hall r ltac:(left))), IH; [done|]. intros. apply Hall. by right.
Qed.

End evaluation.

(** * Samples *)

(** A constant digest: the theorems hold for any, and the sample needs one. *)
Definition sample_sha : Sha256 := {| sha256 _ := replicate 32 171; sha256_length _ := eq_refl |}.
#[local] Existing Instance jv_json.
#[local] Existing Instance sample_sha.

(** The first case of the built-in evaluation with a redacted capsule. *)
Definition sample_case : PrivacyGatewayEvalCase :=
  nth 1 privacy_gateway_eval_cases
    {| case_id := ""; query := ""; case_privacy_level := StrictLocal; citations := [];
       expected_decision := ""; expected_information_types := []; expected_risk_level := None;
       expected_capsule := None; leak_markers := [] |}.

(** The decision, types and risk the code expects of its own cases. *)
Example eval_cases_decided :
  Forall (fun c => let e := evaluate_case 0 c in
    (decision (ev_decision e) = expected_decision c
     /\ Some (risk_level (ev_decision e)) = expected_risk_level c
     /\ Some (is_some_b (semantic_capsule e)) = expected_capsule c
     /\ missing_types 0 c = [])) privacy_gateway_eval_cases.
Proof. repeat constructor. Qed.

(** The two phrases that only the outer test of the child tag lists tag nothing. *)
Example location_phrases_untagged :
  mentions CHILD_WORDS ["孩子"; "儿童"; "位置"; "在哪"] "我的位置在哪" = true
  /\ classify_text "我的位置在哪" = [].
Proof. split; reflexivity. Qed.

Lemma capsule_redacted_witness :
  match semantic_capsule (evaluate_case 0 sample_case) with
  | Some c => safe_text TASK_MAX_CHARS (task c)
  | None => False
  end.
Proof.
  assert (Hs : is_some_b (semantic_capsule (evaluate_case 0 sample_case)) = true) by reflexivity.
  destruct (semantic_capsule (evaluate_case 0 sample_case)) as [c|] eqn:E; [|discriminate Hs].
  exact (proj1 (capsule_redacted 0 (query sample_case) (citations sample_case)
    (case_privacy_level sample_case) "home-1" (case_id sample_case) "owner" c E)).
Defined.
