(* ===== verification/Routing.v ===== *)
(** Model routing, [src/control_plane/routing.rs]: which endpoint a route policy
    selects, and the status report built from the selections. *)
From Stdlib Require Import Ascii.
From S2P Require Import Prelude RustString Json Models.
Local Open Scope string_scope.

(** * Data *)

Record RoutingRuntimeProjection := {
  runtime_id : string;
  rt_status : string;
  enabled : bool;
  capabilities : list string
}.

Record DomainRouteProjection := {
  domain_id : string;
  display_name : string;
  dr_owner_lane : string;
  preferred_order : list string;
  boundary : string;
  dr_status : string
}.

Record EndpointKindCounts := {
  local : nat;
  sidecar : nat;
  cloud : nat;
  disabled : nat
}.

Record ModelRoutePolicyProjection := {
  p_route_policy_id : string;
  p_domain_scope : string;
  p_modality : string;
  p_privacy_level : PrivacyLevel;
  p_local_preferred : bool;
  p_fallback_order : list string;
  p_status : string;
  cloud_allowed : bool;
  cloud_fallback_allowed : bool;
  endpoint_counts : EndpointKindCounts;
  selected_endpoint_id : option string;
  selected_endpoint_kind : option string;
  blockers : list string
}.

Record RoutingCapabilityProjection := {
  capability_id : string;
  c_route_policy_id : string;
  readiness : string;
  local_only : bool;
  c_selected_endpoint_id : option string;
  c_blockers : list string
}.

Record RoutingBoundaryProjection := {
  boundary_id : string;
  b_owner_lane : string;
  b_status : string;
  note : string
}.

Record RoutingStatus := {
  kind : string;
  generated_at : string;
  metadata_only : bool;
  scope : string;
  execution_routes : list DomainRouteProjection;
  model_route_policies : list ModelRoutePolicyProjection;
  capability_readiness : list RoutingCapabilityProjection;
  runtimes : list RoutingRuntimeProjection;
  boundaries : list RoutingBoundaryProjection;
  fallback_blockers : list string;
  secret_scan : string
}.

Definition default_execution_routes : list DomainRouteProjection :=
  [{| domain_id := "harboros_system"; display_name := "HarborOS System Domain";
      dr_owner_lane := "harbor-hos-control";
      preferred_order := ["middleware_api"; "midcli"; "browser"; "mcp"];
      boundary := "system control stays separate from AIoT device-native control";
      dr_status := "active" |};
   {| domain_id := "home_device"; display_name := "Home Device Domain";
      dr_owner_lane := "harbor-aiot";
      preferred_order := ["native_adapter"; "lan_bridge"; "harboros_connector"; "cloud_or_mcp"];
      boundary := "device-native work does not default to HarborOS CLI";
      dr_status := "active" |}].

Definition default_routing_boundaries : list RoutingBoundaryProjection :=
  [{| boundary_id := "im_gateway_route_registry"; b_owner_lane := "harbor-im-gateway";
      b_status := "external";
      note := "Beacon treats transport route handles as opaque delivery metadata." |};
   {| boundary_id := "beacon_business_routing"; b_owner_lane := "harbor-framework";
      b_status := "beacon_owned";
      note := "Planner, model route policy, approval, artifact, and audit truth stay in Beacon." |}].

(** * Selection *)

Section routing.
Context `{SerdeJson}.

Definition has_tag (e : ModelEndpoint) (tag : string) : bool :=
  list_any (fun t => eq_ignore_ascii_case t tag) (capability_tags e).

Definition endpoint_matches_policy (e : ModelEndpoint) (p : ModelRoutePolicy) : bool :=
  let policy_key := replace_char "."%char "_"%char (route_policy_id p) in
  if list_any (fun t => eq_ignore_ascii_case t (route_policy_id p) || (t =? policy_key))
       (capability_tags e) then true
  else match value_get (pol_metadata p) "capability" ≫= as_str with
       | Some capability => has_tag e capability
       | None =>
           let k := model_kind_as_str (model_kind e) in
           eq_ignore_ascii_case k (modality p)
           || eq_ignore_ascii_case (modality p) "text" && eq_ignore_ascii_case k "llm"
           || eq_ignore_ascii_case (modality p) "multimodal" && ((k =? "llm") || (k =? "vlm"))
       end.

Definition normalized_fallback_order (p : ModelRoutePolicy) : list string :=
  match fallback_order p with
  | [] => ["local"; "sidecar"; "cloud"]
  | l => List.filter (fun v => negb (is_empty v)) ((fun v => to_ascii_lowercase (trim v)) <$> l)
  end.

Definition endpoint_order (e : ModelEndpoint) (order : list string) : nat :=
  default (length order) (position (fun k => k =? endpoint_kind_as_str (endpoint_kind e)) order).

Definition endpoint_status_order (s : ModelEndpointStatus) : nat :=
  match s with EndpointActive => 0 | EndpointDegraded => 1 | EndpointDisabled => 2 end.

Definition candidate_cmp (order : list string) (left right : ModelEndpoint) : comparison :=
  then_with (then_with (Nat.compare (endpoint_order left order) (endpoint_order right order))
               (Nat.compare (endpoint_status_order (status left)) (endpoint_status_order (status right))))
    (String.compare (model_endpoint_id left) (model_endpoint_id right)).

Definition policy_cloud_allowed (p : ModelRoutePolicy) : bool :=
  negb (bool_decide (privacy_level p = StrictLocal)).

(** The three [filter]s of the candidates. *)
Definition is_candidate (p : ModelRoutePolicy) (e : ModelEndpoint) : bool :=
  negb (bool_decide (status e = EndpointDisabled))
  && (policy_cloud_allowed p || negb (bool_decide (endpoint_kind e = KindCloud)))
  && endpoint_matches_policy e p.

Definition model_route_candidates (p : ModelRoutePolicy) (l : list ModelEndpoint)
  : list ModelEndpoint :=
  sort_by (candidate_cmp (normalized_fallback_order p)) (List.filter (is_candidate p) l).

(** The loop body of [endpoint_kind_counts]. *)
Definition count_endpoint (c : EndpointKindCounts) (e : ModelEndpoint) : EndpointKindCounts :=
  if bool_decide (status e = EndpointDisabled) then
    {| local := local c; sidecar := sidecar c; cloud := cloud c; disabled := disabled c + 1 |}
  else match endpoint_kind e with
  | KindLocal =>
      {| local := local c + 1; sidecar := sidecar c; cloud := cloud c; disabled := disabled c |}
  | KindSidecar =>
      {| local := local c; sidecar := sidecar c + 1; cloud := cloud c; disabled := disabled c |}
  | KindCloud =>
      {| local := local c; sidecar := sidecar c; cloud := cloud c + 1; disabled := disabled c |}
  end.

Definition endpoint_kind_counts (p : ModelRoutePolicy) (l : list ModelEndpoint)
  : EndpointKindCounts :=
  foldl count_endpoint {| local := 0; sidecar := 0; cloud := 0; disabled := 0 |}
    (List.filter (fun e => endpoint_matches_policy e p) l).

Definition project_model_route_policy (p : ModelRoutePolicy) (l : list ModelEndpoint)
  : ModelRoutePolicyProjection :=
  let cloud_fallback :=
    policy_cloud_allowed p
    && list_any (fun k => eq_ignore_ascii_case k "cloud") (fallback_order p) in
  let candidates := model_route_candidates p l in
  let selected := head candidates in
  {| p_route_policy_id := route_policy_id p; p_domain_scope := domain_scope p;
     p_modality := modality p; p_privacy_level := privacy_level p;
     p_local_preferred := local_preferred p; p_fallback_order := normalized_fallback_order p;
     p_status := pol_status p; cloud_allowed := policy_cloud_allowed p;
     cloud_fallback_allowed := cloud_fallback; endpoint_counts := endpoint_kind_counts p l;
     selected_endpoint_id := model_endpoint_id <$> selected;
     selected_endpoint_kind := (fun e => endpoint_kind_as_str (endpoint_kind e)) <$> selected;
     blockers :=
       (match candidates with
        | [] => ["route_policy=" +:+ route_policy_id p +:+ " has no enabled endpoint candidates"]
        | _ => []
        end)
       ++ (if (route_policy_id p =? "semantic.router") && cloud_fallback
           then ["semantic.router must remain local-only"] else []) |}.

Definition capability_id_for_policy (p : ModelRoutePolicyProjection) : string :=
  let id := p_route_policy_id p in
  if id =? "semantic.router" then "semantic_router"
  else if id =? "retrieval.answer" then "retrieval_answer"
  else if id =? "retrieval.embed" then "retrieval_embed"
  else if id =? "retrieval.ocr" then "retrieval_ocr"
  else if id =? "retrieval.vision_summary" then "retrieval_vision_summary"
  else replace_char "."%char "_"%char id.

Definition capability_projection (p : ModelRoutePolicyProjection) : RoutingCapabilityProjection :=
  {| capability_id := capability_id_for_policy p; c_route_policy_id := p_route_policy_id p;
     readiness :=
       match selected_endpoint_id p, blockers p with
       | Some _, [] => "ready"
       | Some _, _ => "degraded"
       | None, _ => "blocked"
       end;
     local_only := negb (cloud_allowed p) || negb (cloud_fallback_allowed p);
     c_selected_endpoint_id := selected_endpoint_id p; c_blockers := blockers p |}.

Definition build_capability_readiness (l : list ModelRoutePolicyProjection)
  : list RoutingCapabilityProjection := capability_projection <$> l.

Definition build_routing_status (endpoints : list ModelEndpoint) (policies : list ModelRoutePolicy)
    (runtimes0 : list RoutingRuntimeProjection) (generated : string) : RoutingStatus :=
  let projections := (fun p => project_model_route_policy p endpoints) <$> policies in
  {| kind := "harborbeacon.routing_status.v1"; generated_at := generated; metadata_only := true;
     scope := "beacon_internal_orchestration"; execution_routes := default_execution_routes;
     model_route_policies := projections;
     capability_readiness := build_capability_readiness projections;
     runtimes := runtimes0; boundaries := default_routing_boundaries;
     fallback_blockers := projections ≫= blockers; secret_scan := "clean" |}.

(** * Properties *)

Lemma candidate_cmp_total order : TotalCmp (candidate_cmp order).
Proof. unfold candidate_cmp. total_cmp. Qed.

Lemma elem_of_candidates p l e :
  e ∈ model_route_candidates p l <-> e ∈ l /\ is_candidate p e = true.
Proof.
  pose proof (candidate_cmp_total (normalized_fallback_order p)).
  unfold model_route_candidates. by rewrite elem_of_sort_by, elem_of_list_filter.
Qed.

Lemma candidates_nil p l :
  model_route_candidates p l = [] <-> forall e, e ∈ l -> is_candidate p e = false.
Proof.
  split.
  - intros E e He. apply not_true_iff_false. intros Hc.
    assert (e ∈ model_route_candidates p l) as Hin by (by apply elem_of_candidates).
    rewrite E in Hin. by apply not_elem_of_nil in Hin.
  - intros Hn. destruct (model_route_candidates p l) as [|e l'] eqn:E; [done|].
    assert (e ∈ model_route_candidates p l) as [He Hc]%elem_of_candidates by (rewrite E; left).
    by rewrite (Hn e He) in Hc.
Qed.

(** The first candidate is the least. *)
Lemma candidates_head p l e l' :
  model_route_candidates p l = e :: l' ->
  forall e', e' ∈ l -> is_candidate p e' = true ->
    candidate_cmp (normalized_fallback_order p) e e' <> Gt.
Proof.
  pose proof (candidate_cmp_total (normalized_fallback_order p)) as Ht.
  intros E e' He Hc.
  assert (e' ∈ model_route_candidates p l) as Hin by (by apply elem_of_candidates).
  pose proof (sort_by_sorted (candidate_cmp (normalized_fallback_order p))
    (List.filter (is_candidate p) l)) as Hs.
  fold (model_route_candidates p l) in Hs. rewrite E in Hin, Hs.
  apply StronglySorted_inv in Hs as [_ Hf].
  apply elem_of_cons in Hin as [->|Hin]; [by rewrite (cmp_refl (candidate_cmp _))|].
  rewrite Forall_forall in Hf. by apply Hf.
Qed.

Lemma candidates_perm p l1 l2 :
  NoDup (model_endpoint_id <$> l1) -> l1 ≡ₚ l2 ->
  model_route_candidates p l1 = model_route_candidates p l2.
Proof.
  pose proof (candidate_cmp_total (normalized_fallback_order p)).
  intros Hn Hp. unfold model_route_candidates. apply sort_by_perm_eq; [done| |by apply list_filter_perm].
  intros x y [Hx _]%elem_of_list_filter [Hy _]%elem_of_list_filter E.
  apply (NoDup_fmap_inj model_endpoint_id l1); [done..|].
  unfold candidate_cmp in E. destruct (then_with (Nat.compare _ _) _); try done.
  by apply String.compare_eq_iff.
Qed.

Lemma counts_foldl c l :
  let r := foldl count_endpoint c l in
  (local r + sidecar r + cloud r + disabled r
   = local c + sidecar c + cloud c + disabled c + length l)%nat.
Proof.
  revert c. induction l as [|e l IH]; intros c; cbn; [lia|].
  pose proof (IH (count_endpoint c e)) as IH'. cbv zeta in IH'. rewrite IH'.
  unfold count_endpoint. destruct (bool_decide _), (endpoint_kind e); cbn; lia.
Qed.

Lemma counts_perm c l1 l2 : l1 ≡ₚ l2 -> foldl count_endpoint c l1 = foldl count_endpoint c l2.
Proof.
  intros Hp. revert c. induction Hp; intros c; cbn; [done|auto| |congruence].
  f_equal. unfold count_endpoint.
  destruct (bool_decide _) eqn:?, (bool_decide (status y = _)) eqn:?; try done;
    destruct (endpoint_kind x), (endpoint_kind y); done.
Qed.

(** Route selection: the endpoint reported for a policy is the least enabled
    one it accepts, by the place of its kind in the policy's fallback order, then
    health, then id, and none is reported exactly when there is none; a policy
    restricted to local execution never selects a cloud endpoint; every endpoint
    that matches is counted once; and nothing depends on the order in which the
    registry lists its endpoints. *)
Theorem model_selection (p : ModelRoutePolicy) (l : list ModelEndpoint) :
  let r := project_model_route_policy p l in
  let c := endpoint_counts r in
  (forall id, selected_endpoint_id r = Some id ->
     exists e, e ∈ l /\ is_candidate p e = true /\ id = model_endpoint_id e
     /\ selected_endpoint_kind r = Some (endpoint_kind_as_str (endpoint_kind e))
     /\ forall e', e' ∈ l -> is_candidate p e' = true ->
          candidate_cmp (p_fallback_order r) e e' <> Gt)
  /\ (selected_endpoint_id r = None <-> forall e, e ∈ l -> is_candidate p e = false)
  /\ (privacy_level p = StrictLocal -> selected_endpoint_kind r <> Some "cloud")
  /\ (local c + sidecar c + cloud c + disabled c
      = count_if (fun e => endpoint_matches_policy e p) l)%nat
  /\ (forall l', NoDup (model_endpoint_id <$> l) -> l ≡ₚ l' -> project_model_route_policy p l' = r)
  /\ (readiness (capability_projection r) = "blocked" <-> selected_endpoint_id r = None).
Proof.
  cbv zeta. split_and!.
  - cbn. destruct (model_route_candidates p l) as [|e l'] eqn:E; [done|]. intros id [= <-].
    assert (e ∈ model_route_candidates p l) as [He Hc]%elem_of_candidates by (rewrite E; left).
    exists e. split_and!; try done. by eapply candidates_head.
  - cbn. rewrite <-candidates_nil. by destruct (model_route_candidates p l).
  - cbn. intros Hs. destruct (model_route_candidates p l) as [|e l'] eqn:E; [done|].
    assert (e ∈ model_route_candidates p l) as [_ Hc]%elem_of_candidates by (rewrite E; left).
    unfold is_candidate, policy_cloud_allowed in Hc. rewrite Hs in Hc.
    apply andb_prop in Hc as [[_ Hk]%andb_prop _].
    rewrite bool_decide_true in Hk by done. cbn in Hk. apply negb_true_iff, bool_decide_eq_false in Hk.
    revert Hk. cbn. by destruct (endpoint_kind e).
  - cbn. unfold endpoint_kind_counts. by rewrite counts_foldl.
  - intros l' Hn Hp. unfold project_model_route_policy, endpoint_kind_counts.
    rewrite (candidates_perm p l l' Hn Hp). f_equal.
    by apply counts_perm, list_filter_perm, symmetry.
  - cbn. destruct (model_route_candidates p l); cbn; [done|].
    destruct (route_policy_id p =? "semantic.router"); cbn; [|done].
    by destruct (policy_cloud_allowed p && _).
Qed.

End routing.

(** * Samples *)

#[local] Existing Instance jv_json.

Definition sample_endpoint (id : string) (k : ModelEndpointKind) : ModelEndpoint :=
  {| model_endpoint_id := id; workspace_id := Some "home-1"; provider_account_id := None;
     model_kind := Llm; endpoint_kind := k; provider_key := "openai_compatible";
     model_name := "qwen"; capability_tags := []; cost_policy := JObj [];
     status := EndpointActive; metadata := JObj [] |}.

Definition sample_policy (level : PrivacyLevel) (order : list string) : ModelRoutePolicy :=
  {| route_policy_id := "retrieval.answer"; pol_workspace_id := "home-1";
     domain_scope := "assistant"; modality := "text"; privacy_level := level;
     local_preferred := true; fallback_order := order; pol_status := "active";
     pol_metadata := JObj [] |}.

(** A capability reported as local only whose selected endpoint is in the cloud:
    [cloud_fallback_allowed] looks for the word in the order as it is written,
    while an empty order stands for one that ends in the cloud, and a kind the
    order does not list is tried last. *)
Example local_only_selects_cloud :
  let r := project_model_route_policy (sample_policy AllowCloud [])
             [sample_endpoint "remote" KindCloud] in
  local_only (capability_projection r) = true
  /\ readiness (capability_projection r) = "ready"
  /\ selected_endpoint_kind r = Some "cloud"
  /\ p_fallback_order r = ["local"; "sidecar"; "cloud"].
Proof. split_and!; reflexivity. Qed.

Lemma model_selection_witness :
  project_model_route_policy (sample_policy AllowCloud ["local"; "cloud"])
    [sample_endpoint "b" KindCloud; sample_endpoint "a" KindLocal]
  = project_model_route_policy (sample_policy AllowCloud ["local"; "cloud"])
    [sample_endpoint "a" KindLocal; sample_endpoint "b" KindCloud].
Proof.
  destruct (model_selection (sample_policy AllowCloud ["local"; "cloud"])
    [sample_endpoint "a" KindLocal; sample_endpoint "b" KindCloud]) as (_ & _ & _ & _ & Hp & _).
  apply Hp; [|by apply Permutation_swap].
  cbn. apply NoDup_cons. split; [set_solver|apply NoDup_singleton].
Defined.
