(* ===== verification/Workflow.v ===== *)
(** The workflow compiler, [src/orchestrator/workflow_compiler.rs]: a frozen
    specification of phrases and keywords, matched against what a person wrote,
    proposes a read-only procedure or nothing.

    Parsing a specification is [serde_json]'s; the embedded one is written here as
    the value its text denotes. The ratio [accuracy] of the report, a floating-point
    number, is left out. *)
From Stdlib Require Import Ascii.
From S2P Require Import Prelude RustString Json Contracts.
Local Open Scope rust_scope.
Local Open Scope Z_scope.

(** * Normalisation *)

(** [char::to_lowercase] of a scalar value beyond ASCII, given as its bytes. What
    the code relies on: it changes no ideograph, that is no scalar value from
    U+4000 to U+9FFF, whose three bytes begin with E4 to E9. *)
Class CharLower := {
  char_lower : string -> string;
  char_lower_ideograph a b c :
    byte_in 228 233 a = true -> char_lower (String a (String b (String c ""))) = String a (String b (String c ""))
}.

(** [chars().flat_map(char::to_lowercase)]: the scalar values are told apart by
    their first bytes. *)
Fixpoint lower_chars `{CharLower} (s : string) : string :=
  match s with
  | EmptyString => EmptyString
  | String a r1 =>
      if byte_in 0 127 a then String (ascii_lower a) (lower_chars r1) else
      match r1 with
      | EmptyString => s
      | String b r2 =>
          if byte_in 192 223 a then char_lower (String a (String b "")) +:+ lower_chars r2 else
          match r2 with
          | EmptyString => s
          | String c r3 =>
              if byte_in 224 239 a
              then char_lower (String a (String b (String c ""))) +:+ lower_chars r3 else
              match r3 with
              | EmptyString => s
              | String d r4 =>
                  char_lower (String a (String b (String c (String d "")))) +:+ lower_chars r4
              end
          end
      end
  end.

(** The separators: the ASCII ones, and the full-width colon, U+FF1A. *)
Definition sep1 (a : ascii) : bool :=
  (byte a =? 58)%N || (byte a =? 45)%N || (byte a =? 95)%N || (byte a =? 47)%N || (byte a =? 92)%N.
Definition sep3 (a b c : ascii) : bool :=
  (byte a =? 239)%N && (byte b =? 188)%N && (byte c =? 154)%N.

(** [filter(|ch| !ch.is_whitespace() && !matches!(ch, ..))] *)
Fixpoint remove_separators (s : string) : string :=
  match s with
  | EmptyString => EmptyString
  | String a r1 =>
      if ws1 a || sep1 a then remove_separators r1 else
      match r1 with
      | EmptyString => s
      | String b r2 =>
          if ws2 a b then remove_separators r2 else
          match r2 with
          | EmptyString => String a (remove_separators r1)
          | String c r3 =>
              if ws3 a b c || sep3 a b c then remove_separators r3
              else String a (remove_separators r1)
          end
      end
  end.

Definition normalize_workflow_text `{CharLower} (input : string) : string :=
  remove_separators (lower_chars (trim input)).

(** * Data *)

Definition SYSTEM_DIAGNOSTICS_WORKFLOW_ID : string := "system_diagnostics_v1".
Definition WORKFLOW_COMPILER_MIN_CONFIDENCE : Z := 60.

Definition ALLOWED_GENERAL_MESSAGE_CANDIDATES : list string :=
  ["capability_summary"; "clarify"; "conversation_continue"; "conversation_boundary";
   "conversation_repair"; "conversation_cancel"; "conversation_clarify_continue";
   "camera_replay_recent_clip"; "camera_snapshot"; "camera_record_clip"; "knowledge_search";
   "rag_answer"; "ha_service_action"; "vision_event_summary"; "vision_event_notify_latest";
   "vlm_describe_latest_event"; "vlm_describe_event"; "family_memory_summary";
   "system_readiness"; "evt_readiness"; "evt_preflight"; "evt_evidence_bundle";
   "family_timeline_summary"; "family_timeline_query"; "guardian_rule_proposal";
   "guardian_rule_list"; "guardian_rule_enable"; "guardian_rule_pause"; "guardian_status";
   "family_memory_confirm"; "family_memory_favorite"; "family_memory_hide"].

Section workflow.
Context `{SerdeJson} `{!CharLower}.

(** [confidence] and [min_confidence] are [u8]. *)
Record WorkflowNode := {
  wn_id : string;
  wn_candidate_kind : string;
  phrases : list string;
  keywords_any : list string;
  keywords_all : list string;
  wn_read_only : bool;
  wn_action : option Action;
  wn_confidence : Z;
  wn_reason : string
}.

Record WorkflowSpec := {
  ws_id : string;
  ws_version : string;
  ws_summary : string;
  min_confidence : Z;
  deny_phrases : list string;
  nodes : list WorkflowNode
}.

Record WorkflowCandidate := {
  workflow_id : string;
  node_id : string;
  candidate_kind : string;
  confidence : Z;
  reason : string;
  read_only : bool;
  action : option Action
}.

Definition workflow_action_is_read_only (a : Action) : bool :=
  if negb (bool_decide (risk_level a = Low)) || requires_approval a then false else
  let d := to_ascii_lowercase (trim (domain a)) in
  let o := to_ascii_lowercase (trim (operation a)) in
  ((d =? "service") && (o =? "status")
   || (d =? "files") && ((o =? "search") || (o =? "list") || (o =? "stat") || (o =? "read_text"))
   || (d =? "diagnostics") && (o =? "read"))%string.

Definition is_none_or {A} (p : A -> bool) (o : option A) : bool := from_option p true o.
Definition is_some_and {A} (p : A -> bool) (o : option A) : bool := from_option p false o.

Definition has_unsafe_action (c : WorkflowCandidate) : bool :=
  is_some_and (fun a => negb (workflow_action_is_read_only a)) (action c).

(** * Validation *)

(** The body of the loop over the nodes; [ids] are the ids seen so far. *)
Definition check_node (ids : list string) (n : WorkflowNode) : result string unit :=
  if is_blank (wn_id n) then Err "INVALID_WORKFLOW_SPEC: node id is required"
  else if list_any (String.eqb (wn_id n)) ids then
    Err ("INVALID_WORKFLOW_SPEC: duplicate node id " +:+ wn_id n)
  else if negb (list_any (String.eqb (wn_candidate_kind n)) ALLOWED_GENERAL_MESSAGE_CANDIDATES) then
    Err ("INVALID_WORKFLOW_SPEC: unsupported candidate kind " +:+ wn_candidate_kind n)
  else match phrases n, keywords_any n, keywords_all n with
  | [], [], [] => Err ("INVALID_WORKFLOW_SPEC: node " +:+ wn_id n +:+ " has no match criteria")
  | _, _, _ =>
      if is_some_and (fun a => negb (workflow_action_is_read_only a)) (wn_action n) then
        Err ("UNSAFE_WORKFLOW_ACTION: node " +:+ wn_id n +:+ " contains a non-read-only action")
      else Ok tt
  end.

Fixpoint check_nodes (ids : list string) (l : list WorkflowNode) : result string unit :=
  match l with
  | [] => Ok tt
  | n :: l => _ <-? check_node ids n; check_nodes (wn_id n :: ids) l
  end.

Definition validate_workflow_spec (s : WorkflowSpec) : result string WorkflowSpec :=
  if is_blank (ws_id s) then Err "INVALID_WORKFLOW_SPEC: id is required"
  else match nodes s with
  | [] => Err "INVALID_WORKFLOW_SPEC: at least one node is required"
  | l => _ <-? check_nodes [] l; Ok s
  end.

(** [parsed] is what [serde_json::from_str] gives. *)
Definition parse_workflow_spec (parsed : result string WorkflowSpec) : result string WorkflowSpec :=
  match parsed with
  | Err error => Err ("INVALID_WORKFLOW_SPEC_JSON: " +:+ error)
  | Ok spec => validate_workflow_spec spec
  end.

(** * Matching *)

(** [u8] arithmetic. *)
Definition u8_saturating_add (x y : Z) : Z := Z.min 255 (x + y).
Definition u8_saturating_sub (x y : Z) : Z := Z.max 0 (x - y).

(** The body of the loop over a node's phrases. *)
Definition score_phrase (n : WorkflowNode) (text : string) (score : Z) (phrase : string) : Z :=
  let p := normalize_workflow_text phrase in
  if is_empty p then score
  else if (text =? p)%string then Z.max score (Z.min (u8_saturating_add (wn_confidence n) 5) 100)
  else if str_contains p text then Z.max score (wn_confidence n)
  else score.

Definition has_keyword (text keyword : string) : bool :=
  str_contains (normalize_workflow_text keyword) text.

Definition node_score (n : WorkflowNode) (text : string) : option Z :=
  let score := foldl (score_phrase n text) 0 (phrases n) in
  let has_all := match keywords_all n with [] => false | _ => true end in
  let has_any := match keywords_any n with [] => false | _ => true end in
  let all_match := has_all && list_all (has_keyword text) (keywords_all n) in
  let any_match := has_any && list_any (has_keyword text) (keywords_any n) in
  let score :=
    match has_all, has_any with
    | true, true =>
        if all_match && any_match then Z.max score (u8_saturating_sub (wn_confidence n) 5) else score
    | true, false =>
        if all_match then Z.max score (u8_saturating_sub (wn_confidence n) 5) else score
    | false, true =>
        if any_match then Z.max score (u8_saturating_sub (wn_confidence n) 15) else score
    | false, false => score
    end in
  if 0 <? score then Some score else None.

(** The body of the loop of [best_node_match]. *)
Definition better (text : string) (best : option (WorkflowNode * Z)) (n : WorkflowNode)
  : option (WorkflowNode * Z) :=
  match node_score n text with
  | None => best
  | Some score => if is_none_or (fun b => b.2 <? score) best then Some (n, score) else best
  end.

Definition best_node_match (s : WorkflowSpec) (text : string) : option (WorkflowNode * Z) :=
  foldl (better text) None (nodes s).

Definition deny_phrase_matches (text : string) (l : list string) : bool :=
  list_any (fun phrase =>
    let p := normalize_workflow_text phrase in negb (is_empty p) && str_contains p text) l.

Definition compile_workflow_candidate (s : WorkflowSpec) (raw_text : string)
  : option WorkflowCandidate :=
  let text := normalize_workflow_text raw_text in
  if is_empty text || deny_phrase_matches text (deny_phrases s) then None else
  match best_node_match s text with
  | None => None
  | Some (n, score) =>
      if score <? min_confidence s then None else
      Some {| workflow_id := ws_id s; node_id := wn_id n; candidate_kind := wn_candidate_kind n;
              confidence := Z.min score 100; reason := wn_reason n;
              read_only := wn_read_only n && is_none_or workflow_action_is_read_only (wn_action n);
              action := wn_action n |}
  end.

(** * Evaluation *)

Record WorkflowEvalCase := {
  case_id : string;
  input : string;
  expected_candidate_kind : option string;
  case_min_confidence : Z
}.

Record WorkflowEvalCaseResult := {
  r_id : string;
  r_input : string;
  r_expected_candidate_kind : option string;
  r_candidate_kind : option string;
  r_confidence : option Z;
  correct : bool;
  low_confidence_rejection : bool;
  unsafe_action : bool;
  r_reason : string
}.

Record WorkflowEvalReport := {
  rep_workflow_id : string;
  total_cases : nat;
  correct_cases : nat;
  low_confidence_rejections : nat;
  unauthorized_action_count : nat;
  passed : bool;
  cases : list WorkflowEvalCaseResult
}.

Definition best_score (s : WorkflowSpec) (raw_text : string) : option Z :=
  let text := normalize_workflow_text raw_text in
  if deny_phrase_matches text (deny_phrases s) then None else snd <$> best_node_match s text.

(** The match on the expected and the actual kind. *)
Definition kinds_agree (expected actual : option string) (ok : bool) : bool :=
  match expected, actual with
  | Some x, Some y => (x =? y)%string && ok
  | None, None => true
  | _, _ => false
  end.

Definition rejected_low (s : WorkflowSpec) (c : WorkflowEvalCase)
    (candidate : option WorkflowCandidate) : bool :=
  is_some_and (fun _ => true) (expected_candidate_kind c)
  && is_none_or (fun _ => false) candidate
  && is_some_and (fun x => x <? min_confidence s) (best_score s (input c)).

Definition evaluate_case (s : WorkflowSpec) (c : WorkflowEvalCase) : WorkflowEvalCaseResult :=
  let candidate := compile_workflow_candidate s (input c) in
  let unsafe := is_some_and has_unsafe_action candidate in
  let kind := candidate_kind <$> candidate in
  let conf := confidence <$> candidate in
  {| r_id := case_id c; r_input := input c;
     r_expected_candidate_kind := expected_candidate_kind c;
     r_candidate_kind := kind; r_confidence := conf;
     correct := kinds_agree (expected_candidate_kind c) kind
                  (case_min_confidence c <=? default 0 conf) && negb unsafe;
     low_confidence_rejection := rejected_low s c candidate;
     unsafe_action := unsafe;
     r_reason := from_option reason "no workflow candidate" candidate |}.

Definition evaluate_workflow (s : WorkflowSpec) (l : list WorkflowEvalCase) : WorkflowEvalReport :=
  let results := evaluate_case s <$> l in
  let correct_cases := count_if correct results in
  let unauthorized := count_if unsafe_action results in
  {| rep_workflow_id := ws_id s; total_cases := length l; correct_cases := correct_cases;
     low_confidence_rejections := count_if low_confidence_rejection results;
     unauthorized_action_count := unauthorized;
     passed := (correct_cases =? length l)%nat && (unauthorized =? 0)%nat;
     cases := results |}.

(** * Shadow evidence *)

Context `{!Sha256}.

Record WorkflowShadowEvidenceCase := {
  e_case_id : string;
  input_sha256_12 : string;
  input_redacted : bool;
  current_plan_kind : option string;
  compiler_candidate_kind : option string;
  compiler_confidence : option Z;
  matched_current_plan : bool;
  e_read_only : bool;
  e_unsafe_action : bool;
  e_low_confidence_rejection : bool;
  outcome : string
}.

Record WorkflowShadowEvidenceReport := {
  kind : string;
  sh_workflow_id : string;
  source : string;
  redacted : bool;
  sh_total_cases : nat;
  matched_current_plan_cases : nat;
  sh_low_confidence_rejections : nat;
  sh_unauthorized_action_count : nat;
  sh_passed : bool;
  sh_cases : list WorkflowShadowEvidenceCase
}.

Definition evidence_case (s : WorkflowSpec) (c : WorkflowEvalCase) : WorkflowShadowEvidenceCase :=
  let candidate := compile_workflow_candidate s (input c) in
  let kind := candidate_kind <$> candidate in
  let matched := kinds_agree (expected_candidate_kind c) kind true in
  let unsafe := is_some_and has_unsafe_action candidate in
  let low := rejected_low s c candidate in
  {| e_case_id := case_id c; input_sha256_12 := short_sha256 (input c); input_redacted := true;
     current_plan_kind := expected_candidate_kind c; compiler_candidate_kind := kind;
     compiler_confidence := confidence <$> candidate; matched_current_plan := matched;
     e_read_only := from_option read_only true candidate; e_unsafe_action := unsafe;
     e_low_confidence_rejection := low;
     outcome := if unsafe then "unsafe_action" else if matched then "matched_current_plan"
                else if low then "low_confidence_rejection" else "mismatch" |}.

Definition build_workflow_shadow_evidence_report (s : WorkflowSpec) (l : list WorkflowEvalCase)
  : WorkflowShadowEvidenceReport :=
  let report := evaluate_workflow s l in
  {| kind := "workflow_compiler_shadow_evidence_v1"; sh_workflow_id := ws_id s;
     source := "embedded_system_diagnostics_eval_cases"; redacted := true;
     sh_total_cases := total_cases report; matched_current_plan_cases := correct_cases report;
     sh_low_confidence_rejections := low_confidence_rejections report;
     sh_unauthorized_action_count := unauthorized_action_count report;
     sh_passed := passed report; sh_cases := evidence_case s <$> l |}.

End workflow.

(** * The embedded specification and its cases *)

Definition system_diagnostics_workflow_spec `{SerdeJson} : WorkflowSpec :=
  {| ws_id := "system_diagnostics_v1"; ws_version := "1.0.0";
     ws_summary := "Shadow workflow for HarborBeacon system diagnostics and readiness routing.";
     min_confidence := 60;
     deny_phrases :=
       ["重启"; "启动"; "停止"; "启动服务"; "停止服务"; "删除"; "移动文件"; "复制文件"; "写入"; "连接摄像头"; "接入摄像头";
        "开灯"; "关灯"; "天气"; "新闻"; "股票"; "行情"; "门锁"; "开锁"; "解锁"; "restart";
        "stop service"; "start service"; "delete"; "remove"; "move file"; "copy file";
        "write file"; "connect camera"; "weather"; "news"; "stock"; "unlock"; "lock"];
     nodes :=
      [{| wn_id := "evt_preflight"; wn_candidate_kind := "evt_preflight";
          phrases := ["EVT预检"; "压测预检"; "做一下EVT预检"; "运行EVTpreflight"; "preflight"; "stress preflight";
            "pre-stress check"];
          keywords_any := [];
          keywords_all := ["预检"];
          wn_read_only := true; wn_action := None; wn_confidence := 96;
          wn_reason := "system diagnostics workflow matched an EVT preflight request" |};
       {| wn_id := "evt_evidence_bundle"; wn_candidate_kind := "evt_evidence_bundle";
          phrases := ["生成压测证据"; "生成EVT证据"; "EVT证据包"; "压测证据包"; "evidence bundle"];
          keywords_any := [];
          keywords_all := ["证据"];
          wn_read_only := true; wn_action := None; wn_confidence := 95;
          wn_reason := "system diagnostics workflow matched an EVT evidence bundle request" |};
       {| wn_id := "evt_readiness"; wn_candidate_kind := "evt_readiness";
          phrases := ["EVT就绪"; "EVT状态"; "EVT好了吗"; "压测前状态"; "压测状态"; "压测ready了吗"; "K3压测readiness";
            "K3 readiness"; "stress readiness"];
          keywords_any := ["EVT"; "evt"; "压测"; "stress"];
          keywords_all := ["状态"];
          wn_read_only := true; wn_action := None; wn_confidence := 94;
          wn_reason := "system diagnostics workflow matched an EVT readiness request" |};
       {| wn_id := "weixin_status"; wn_candidate_kind := "system_readiness";
          phrases := ["微信状态"; "微信通了吗"; "微信连了吗"; "微信能用吗"; "WeChat status"; "Weixin status";
            "weixin connected"];
          keywords_any := [];
          keywords_all := ["微信"];
          wn_read_only := true; wn_action := None; wn_confidence := 91;
          wn_reason := "system diagnostics workflow matched a Weixin status request" |};
       {| wn_id := "home_assistant_status"; wn_candidate_kind := "system_readiness";
          phrases := ["HA状态"; "HA正常吗"; "HA实体同步了吗"; "Home Assistant状态"; "Home Assistant ready";
            "home assistant health"];
          keywords_any := ["HA"; "homeassistant"];
          keywords_all := [];
          wn_read_only := true; wn_action := None; wn_confidence := 90;
          wn_reason := "system diagnostics workflow matched a Home Assistant status request" |};
       {| wn_id := "semantic_router_status"; wn_candidate_kind := "system_readiness";
          phrases := ["semantic router状态"; "semantic-router health"; "语义路由状态"; "语义路由正常吗";
            "semantic router ready"];
          keywords_any := ["semanticrouter"; "语义路由"];
          keywords_all := [];
          wn_read_only := true; wn_action := None; wn_confidence := 89;
          wn_reason := "system diagnostics workflow matched a semantic router status request" |};
       {| wn_id := "system_readiness"; wn_candidate_kind := "system_readiness";
          phrases := ["状态"; "诊断"; "系统状态"; "当前状态"; "健康状态"; "现在K3好了吗"; "K3好了没"; "Harbor状态"; "网关状态";
            "默认通知目标状态"; "readiness"; "diagnostics"; "health status"; "gateway status"];
          keywords_any := ["状态"; "诊断"; "健康"; "ready"; "readiness"; "diagnostics"; "health"; "K3"; "k3";
            "gateway"; "网关"; "通知目标"];
          keywords_all := [];
          wn_read_only := true; wn_action := None; wn_confidence := 84;
          wn_reason := "system diagnostics workflow matched a general system readiness request" |}] |}.

Definition eval_case (id input0 : string) (expected : option string) : WorkflowEvalCase :=
  {| case_id := id; input := input0; expected_candidate_kind := expected;
     case_min_confidence := WORKFLOW_COMPILER_MIN_CONFIDENCE |}.

Definition system_diagnostics_eval_cases : list WorkflowEvalCase :=
  [eval_case "status" "状态" (Some "system_readiness");
   eval_case "diagnostics" "诊断" (Some "system_readiness");
   eval_case "system_status" "系统状态" (Some "system_readiness");
   eval_case "current_status" "当前状态" (Some "system_readiness");
   eval_case "health_status" "健康状态" (Some "system_readiness");
   eval_case "system_health" "系统健康怎么样" (Some "system_readiness");
   eval_case "k3_ready" "现在 K3 好了吗" (Some "system_readiness");
   eval_case "k3_status" "K3 状态怎么样" (Some "system_readiness");
   eval_case "k3_health" "K3 当前健康状态" (Some "system_readiness");
   eval_case "k3_ok" "K3好了没" (Some "system_readiness");
   eval_case "harbor_status" "Harbor 状态" (Some "system_readiness");
   eval_case "harbor_diagnostics" "Harbor 系统诊断" (Some "system_readiness");
   eval_case "gateway_status" "网关状态" (Some "system_readiness");
   eval_case "gateway_ok" "网关通了吗" (Some "system_readiness");
   eval_case "gateway_english" "gateway status" (Some "system_readiness");
   eval_case "default_target_status" "默认通知目标状态" (Some "system_readiness");
   eval_case "weixin_status" "微信通了吗" (Some "system_readiness");
   eval_case "weixin_state" "微信状态" (Some "system_readiness");
   eval_case "weixin_connected" "微信连了吗" (Some "system_readiness");
   eval_case "weixin_available" "微信能用吗" (Some "system_readiness");
   eval_case "weixin_robot" "微信机器人正常吗" (Some "system_readiness");
   eval_case "wechat_status" "WeChat status" (Some "system_readiness");
   eval_case "weixin_status_en" "Weixin status" (Some "system_readiness");
   eval_case "weixin_connected_en" "weixin connected?" (Some "system_readiness");
   eval_case "ha_status" "HA 正常吗" (Some "system_readiness");
   eval_case "ha_state" "HA 状态" (Some "system_readiness");
   eval_case "ha_entity_sync" "HA 实体同步了吗" (Some "system_readiness");
   eval_case "home_assistant_status" "Home Assistant 状态" (Some "system_readiness");
   eval_case "home_assistant_ready" "Home Assistant ready?" (Some "system_readiness");
   eval_case "home_assistant_health" "home assistant health" (Some "system_readiness");
   eval_case "homeassistant_ready" "homeassistant ready" (Some "system_readiness");
   eval_case "ha_short_ready" "HA ready 了吗" (Some "system_readiness");
   eval_case "semantic_router_status" "semantic router 状态怎么样" (Some "system_readiness");
   eval_case "semantic_router_ready" "semantic router ready" (Some "system_readiness");
   eval_case "semantic_router_health" "semantic-router health" (Some "system_readiness");
   eval_case "semantic_router_cn_status" "语义路由状态" (Some "system_readiness");
   eval_case "semantic_router_cn_ok" "语义路由正常吗" (Some "system_readiness");
   eval_case "semantic_router_policy" "semantic router 的本地状态" (Some "system_readiness");
   eval_case "evt_ready" "压测前状态怎么样" (Some "evt_readiness");
   eval_case "evt_status" "EVT 状态" (Some "evt_readiness");
   eval_case "evt_ok" "EVT 好了吗" (Some "evt_readiness");
   eval_case "evt_readiness" "EVT 就绪了吗" (Some "evt_readiness");
   eval_case "stress_status" "压测状态" (Some "evt_readiness");
   eval_case "stress_ready" "压测 ready 了吗" (Some "evt_readiness");
   eval_case "k3_stress_readiness" "K3 压测 readiness" (Some "evt_readiness");
   eval_case "stress_readiness_en" "stress readiness" (Some "evt_readiness");
   eval_case "evt_preflight" "帮我做一下 EVT 预检" (Some "evt_preflight");
   eval_case "stress_preflight" "做一下压测预检" (Some "evt_preflight");
   eval_case "run_evt_preflight" "运行 EVT preflight" (Some "evt_preflight");
   eval_case "preflight" "preflight" (Some "evt_preflight");
   eval_case "pre_stress_check" "pre-stress check" (Some "evt_preflight");
   eval_case "evt_evidence" "生成压测证据包" (Some "evt_evidence_bundle");
   eval_case "evt_evidence_bundle" "EVT 证据包" (Some "evt_evidence_bundle");
   eval_case "stress_evidence" "生成压测证据" (Some "evt_evidence_bundle");
   eval_case "evt_evidence_cn" "生成 EVT 证据" (Some "evt_evidence_bundle");
   eval_case "evidence_bundle_en" "evidence bundle" (Some "evt_evidence_bundle");
   eval_case "restart_ssh" "重启 SSH" None;
   eval_case "restart_beacon_service" "帮我重启 harboros-beacon.service" None;
   eval_case "start_service" "启动服务" None;
   eval_case "stop_service" "停止 semantic router service" None;
   eval_case "connect_camera" "连接摄像头" None;
   eval_case "add_camera" "接入摄像头" None;
   eval_case "delete_file" "删除这个文件" None;
   eval_case "move_file" "移动这个文件" None;
   eval_case "copy_file" "复制文件" None;
   eval_case "write_config" "写入配置" None;
   eval_case "turn_on_light" "开灯" None;
   eval_case "turn_off_light" "关灯" None;
   eval_case "weather_status" "天气状态怎么样" None;
   eval_case "news" "今天新闻" None;
   eval_case "stock" "股票行情" None;
   eval_case "unlock_door" "解锁门锁" None;
   eval_case "knowledge_search" "查一下樱花计划" None;
   eval_case "camera_snapshot" "看一下门口摄像头" None].

Definition compile_system_diagnostics_candidate `{SerdeJson} `{!CharLower} (raw_text : string)
  : option WorkflowCandidate :=
  compile_workflow_candidate system_diagnostics_workflow_spec raw_text.
