(* ===== verification/WorkflowTheorems.v ===== *)
(** What the workflow compiler guarantees: which specifications it accepts, what
    a candidate is, that a candidate can only read, and that the embedded
    specification answers its own cases. *)
From Stdlib Require Import Ascii.
From S2P Require Import Prelude RustString Json Contracts Policy Workflow.
Local Open Scope rust_scope.
Local Open Scope Z_scope.

Section workflow.
Context `{SerdeJson} `{!CharLower}.

(** * Validation *)

Definition node_wf (n : WorkflowNode) : Prop :=
  is_blank (wn_id n) = false
  /\ wn_candidate_kind n ∈ ALLOWED_GENERAL_MESSAGE_CANDIDATES
  /\ (phrases n <> [] \/ keywords_any n <> [] \/ keywords_all n <> [])
  /\ (forall a, wn_action n = Some a -> workflow_action_is_read_only a = true).

Definition spec_wf (s : WorkflowSpec) : Prop :=
  is_blank (ws_id s) = false /\ nodes s <> []
  /\ NoDup (wn_id <$> nodes s) /\ (forall n, n ∈ nodes s -> node_wf n).

Lemma eqb_elem x l : list_any (String.eqb x) l = true <-> x ∈ l.
Proof. rewrite list_any_true. setoid_rewrite String.eqb_eq. naive_solver. Qed.

Lemma check_node_ok ids n : (check_node ids n = Ok tt) <-> (wn_id n ∉ ids) /\ node_wf n.
Proof.
  unfold check_node, node_wf. rewrite <-(eqb_elem (wn_id n)), <-(eqb_elem (wn_candidate_kind n)).
  destruct (is_blank (wn_id n)); [naive_solver|].
  destruct (list_any (String.eqb (wn_id n)) ids); [naive_solver|].
  destruct (list_any _ ALLOWED_GENERAL_MESSAGE_CANDIDATES); cbn [negb]; [|naive_solver].
  assert (Ha : is_some_and (fun a => negb (workflow_action_is_read_only a)) (wn_action n) = false
    <-> forall a, wn_action n = Some a -> workflow_action_is_read_only a = true).
  { destruct (wn_action n) as [a|]; cbn; [|naive_solver]. rewrite negb_false_iff. naive_solver. }
  rewrite <-Ha. destruct (is_some_and _ _), (phrases n), (keywords_any n), (keywords_all n); naive_solver.
Qed.

Lemma check_nodes_ok ids l :
  (check_nodes ids l = Ok tt) <->
  NoDup (wn_id <$> l) /\ (forall n, n ∈ l -> (wn_id n ∉ ids) /\ node_wf n).
Proof.
  revert ids. induction l as [|n l IH]; intros ids; cbn.
  { split; [|done]. intros _. split; [apply NoDup_nil_2|]. intros n Hn. by apply not_elem_of_nil in Hn. }
  rewrite NoDup_cons. setoid_rewrite elem_of_cons.
  destruct (check_node ids n) as [[]|e] eqn:E.
  - apply check_node_ok in E as [Hi Hw]. cbn. rewrite IH. split.
    + intros [Hn Hall]. split_and!; [|done|].
      * intros (m & Em & Hm)%list_elem_of_fmap. destruct (Hall m Hm) as [Hm' _].
        apply Hm'. rewrite Em. left.
      * intros m [->|Hm]; [done|]. destruct (Hall m Hm) as [Hm' ?]. split; [|done].
        intros Hin. apply Hm'. by right.
    + intros [[Hn Hd] Hall]. split; [done|]. intros m Hm.
      destruct (Hall m (or_intror Hm)) as [Hm' ?]. split; [|done].
      intros [Em|Hin]%elem_of_cons; [|done]. apply Hn. rewrite <-Em. by apply list_elem_of_fmap_2.
  - split; [done|]. intros [_ Hall]. by rewrite (proj2 (check_node_ok ids n) (Hall n (or_introl eq_refl))) in E.
Qed.

Lemma validate_spec s s' :
  (validate_workflow_spec s = Ok s') <-> s' = s /\ spec_wf s.
Proof.
  unfold validate_workflow_spec, spec_wf. destruct (is_blank (ws_id s)); [naive_solver|].
  pose proof (check_nodes_ok [] (nodes s)) as Hc.
  destruct (nodes s) as [|n l]; [naive_solver|].
  destruct (check_nodes [] (n :: l)) as [[]|e]; cbn.
  - destruct Hc as [Hc _]. destruct (Hc eq_refl) as [Hn Hw].
    split; [intros [= <-]; split_and!; try done; intros m Hm; by apply Hw|by intros [-> _]].
  - split; [done|]. intros (_ & _ & _ & Hn & Hw). destruct Hc as [_ Hc].
    discriminate Hc. split; [done|]. intros m Hm. split; [apply not_elem_of_nil|by apply Hw].
Qed.
(** Validation accepts exactly the well-formed specifications, unchanged: an id, at
    least one node, distinct and non-blank node ids, known candidate kinds, some
    way to match, and no action that is not read-only. *)
Theorem validate_ok_iff s s' :
  (validate_workflow_spec s = Ok s') <-> s' = s /\ spec_wf s.
Proof. apply validate_spec. Qed.

(** * Matching *)

(** [n], of score [score], is the first node of [l] with the greatest score. *)
Definition first_best (l : list WorkflowNode) (text : string) (n : WorkflowNode) (score : Z) : Prop :=
  exists before after, l = before ++ n :: after
  /\ node_score n text = Some score
  /\ (forall m x, m ∈ before -> node_score m text = Some x -> x < score)
  /\ (forall m x, m ∈ after -> node_score m text = Some x -> x <= score).

Lemma best_node_match_spec s text :
  match best_node_match s text with
  | Some (n, score) => first_best (nodes s) text n score
  | None => forall m, m ∈ nodes s -> node_score m text = None
  end.
Proof.
  unfold best_node_match. induction (nodes s) as [|x l IH] using rev_ind.
  { intros m Hm. by apply not_elem_of_nil in Hm. }
  rewrite foldl_app. cbn [foldl]. destruct (foldl (better text) None l) as [[n score]|].
  - destruct IH as (before & after & -> & Hn & Hb & Ha). unfold better.
    destruct (node_score x text) as [y|] eqn:Ex; cbn.
    + destruct (score <? y) eqn:E; bool_facts.
      * exists (before ++ n :: after), []. split_and!; [done|done| |].
        -- intros m z [Hm|[->|Hm]%elem_of_cons]%elem_of_app Hz.
           ++ specialize (Hb m z Hm Hz). lia.
           ++ rewrite Hn in Hz. injection Hz as <-. lia.
           ++ specialize (Ha m z Hm Hz). lia.
        -- intros m z Hm. by apply not_elem_of_nil in Hm.
      * exists before, (after ++ [x]). rewrite <-app_assoc. split_and!; [done..|].
        intros m z [Hm|Hm%list_elem_of_singleton]%elem_of_app Hz; [by eapply Ha|].
        subst m. rewrite Ex in Hz. injection Hz as <-. lia.
    + exists before, (after ++ [x]). rewrite <-app_assoc. split_and!; [done..|].
      intros m z [Hm|Hm%list_elem_of_singleton]%elem_of_app Hz; [by eapply Ha|]. congruence.
  - unfold better. destruct (node_score x text) as [y|] eqn:Ex; cbn.
    + exists l, []. split_and!; [done|done| |].
      * intros m z Hm Hz. rewrite (IH m Hm) in Hz. done.
      * intros m z Hm. by apply not_elem_of_nil in Hm.
    + intros m [Hm|Hm%list_elem_of_singleton]%elem_of_app; [by apply IH|congruence].
Qed.

Lemma first_best_max l text n score m x :
  first_best l text n score -> m ∈ l -> node_score m text = Some x -> x <= score.
Proof.
  intros (before & after & -> & Hn & Hb & Ha) [Hm|[->|Hm]%elem_of_cons]%elem_of_app Hx.
  - specialize (Hb m x Hm Hx). lia.
  - rewrite Hn in Hx. injection Hx as <-. lia.
  - by apply (Ha m).
Qed.

(** The candidate a node stands for. *)
Definition candidate_of (s : WorkflowSpec) (n : WorkflowNode) (score : Z) : WorkflowCandidate :=
  {| workflow_id := ws_id s; node_id := wn_id n; candidate_kind := wn_candidate_kind n;
     confidence := Z.min score 100; reason := wn_reason n;
     read_only := wn_read_only n && is_none_or workflow_action_is_read_only (wn_action n);
     action := wn_action n |}.

(** What is compiled: a text that is not empty and says nothing denied gets the
    candidate of the first node with the greatest score, when that score reaches
    the specification's minimum, and nothing in any other case. *)
Theorem compile_spec s raw :
  let text := normalize_workflow_text raw in
  match compile_workflow_candidate s raw with
  | Some c => text <> "" /\ deny_phrase_matches text (deny_phrases s) = false
      /\ exists n score, first_best (nodes s) text n score /\ min_confidence s <= score
         /\ c = candidate_of s n score
  | None => text = "" \/ deny_phrase_matches text (deny_phrases s) = true
      \/ forall n score, n ∈ nodes s -> node_score n text = Some score -> score < min_confidence s
  end.
Proof.
  cbv zeta. unfold compile_workflow_candidate.
  destruct (is_empty (normalize_workflow_text raw)) eqn:Ee; cbn [orb].
  { left. by apply is_empty_true. }
  destruct (deny_phrase_matches _ _) eqn:Ed; cbn [orb]; [by right; left|].
  pose proof (best_node_match_spec s (normalize_workflow_text raw)) as Hb.
  destruct (best_node_match s _) as [[n score]|].
  - destruct (score <? min_confidence s) eqn:E; bool_facts.
    + right; right. intros m x Hm Hx.
      assert (x <= score) by (by eapply first_best_max). lia.
    + apply is_empty_false in Ee. split_and!; [done|done|]. exists n, score. done.
  - right; right. intros n x Hn Hx. by rewrite (Hb n Hn) in Hx.
Qed.

Lemma compile_some s raw c :
  compile_workflow_candidate s raw = Some c ->
  deny_phrase_matches (normalize_workflow_text raw) (deny_phrases s) = false
  /\ exists n score, n ∈ nodes s /\ c = candidate_of s n score.
Proof.
  unfold compile_workflow_candidate. destruct (is_empty _); [done|].
  destruct (deny_phrase_matches _ _); [done|]. cbn [orb].
  pose proof (best_node_match_spec s (normalize_workflow_text raw)) as Hb.
  destruct (best_node_match s _) as [[n score]|]; [|done].
  destruct (score <? min_confidence s); [done|]. intros [= <-].
  destruct Hb as (before & after & E & _). split; [done|]. exists n, score. split; [|done].
  rewrite E. apply elem_of_app. right. left.
Qed.

(** Lowering only ASCII letters, a text that becomes an ASCII word was ASCII. *)
Lemma ascii_of_lower t : is_ascii (to_ascii_lowercase t) = true -> is_ascii t = true.
Proof.
  unfold is_ascii, to_ascii_lowercase. induction t as [|c t IH]; cbn; [done|].
  intros [Hc Ht]%andb_prop. rewrite (IH Ht), andb_true_r. revert Hc. unfold ascii_lower.
  destruct (is_ascii_uppercase c) eqn:E; [|done]. intros _. revert E.
  unfold is_ascii_uppercase, byte_in. rewrite !andb_true_iff, !N.leb_le. lia.
Qed.

Lemma lowered_of_ascii `{!UnicodeLower} t w :
  is_ascii w = true -> to_ascii_lowercase (trim t) = w -> lowered t = w.
Proof.
  intros Hw E. unfold lowered. rewrite to_lowercase_ascii; [done|]. apply ascii_of_lower. by rewrite E.
Qed.

(** A read-only action is one the policy lets through without an approval. *)
Lemma read_only_unapproved `{!UnicodeLower} a :
  workflow_action_is_read_only a = true ->
  action_requires_approval a = false /\ effective_risk_level a = Low
  /\ check_risk_gate a None = Ok tt.
Proof.
  unfold workflow_action_is_read_only. destruct (bool_decide _) eqn:Er; [|done].
  apply bool_decide_eq_true in Er. cbn [negb orb]. destruct (requires_approval a) eqn:Ea; [done|].
  intros Hm. assert (Hd : default_risk_level a = Low /\ default_requires_approval a = false).
  { rewrite !orb_true_iff, !andb_true_iff, !orb_true_iff, !String.eqb_eq in Hm.
    unfold default_risk_level, default_requires_approval. cbv zeta.
    destruct Hm as [[[Hd Ho]|[Hd Ho]]|[Hd Ho]];
      apply (lowered_of_ascii (domain a)) in Hd; try done; rewrite Hd; cbn; [| |done].
    - apply (lowered_of_ascii (operation a)) in Ho; [|done]. by rewrite Ho.
    - destruct Ho as [[[Ho|Ho]|Ho]|Ho];
        (apply (lowered_of_ascii (operation a)) in Ho; [|done]); by rewrite Ho. }
  destruct Hd as [Hl Hc].
  assert (effective_risk_level a = Low) as He by (unfold effective_risk_level; by rewrite Er).
  assert (action_requires_approval a = false) as Hn
    by (unfold action_requires_approval; by rewrite Ea, He, Hc).
  split_and!; [done|done|]. unfold check_risk_gate. by rewrite Hn.
Qed.

(** The compiler cannot bypass the gate: a candidate of a validated specification is
    of a known kind, carries no action that is not read-only, and the action it
    carries, if any, is low risk in the policy's eyes and passes its risk gate
    without an approval; and no phrase the specification denies occurs in the
    text. *)
Theorem candidate_safe `{!UnicodeLower} parsed s raw c :
  parse_workflow_spec parsed = Ok s -> compile_workflow_candidate s raw = Some c ->
  candidate_kind c ∈ ALLOWED_GENERAL_MESSAGE_CANDIDATES
  /\ has_unsafe_action c = false
  /\ (forall a, action c = Some a ->
        effective_risk_level a = Low /\ check_risk_gate a None = Ok tt)
  /\ (forall p, p ∈ deny_phrases s -> normalize_workflow_text p <> "" ->
        str_contains (normalize_workflow_text p) (normalize_workflow_text raw) = false)
  /\ confidence c <= 100.
Proof.
  unfold parse_workflow_spec. destruct parsed as [s0|]; [|done].
  cbn. intros [-> Hs]%validate_spec Hc.
  assert (Hx := compile_some _ _ _ Hc). destruct Hx as (Hd & n & score & Hin & ->).
  destruct Hs as (_ & _ & _ & Hw). destruct (Hw n Hin) as (_ & Hk & _ & Ha).
  split_and!; cbn; [done| | | |lia].
  - unfold has_unsafe_action. cbn. destruct (wn_action n) as [a|]; [|done]. cbn.
    by rewrite Ha.
  - intros a E. by apply read_only_unapproved, Ha.
  - intros p Hp Hne. unfold deny_phrase_matches in Hd.
    pose proof (proj1 (list_any_false _ _) Hd p Hp) as E. cbn beta zeta in E.
    apply is_empty_false in Hne. rewrite Hne in E. done.
Qed.
End workflow.

(** * The embedded specification *)

(** Texts of ASCII characters and ideographs: any two conversions agree on them. *)
Fixpoint plain (s : string) : bool :=
  match s with
  | EmptyString => true
  | String a r1 =>
      if byte_in 0 127 a then plain r1 else
      match r1 with
      | String b (String c r3) => byte_in 228 233 a && plain r3
      | _ => false
      end
  end.

Definition same_text (i1 i2 : CharLower) (s : string) : Prop :=
  @normalize_workflow_text i1 s = @normalize_workflow_text i2 s.

Lemma lower_chars_plain (i1 i2 : CharLower) s :
  plain s = true -> @lower_chars i1 s = @lower_chars i2 s.
Proof.
  induction s as [s IH] using string_length_ind. destruct s as [|a r1]; [done|]. cbn.
  destruct (byte_in 0 127 a); [intros Hp; by rewrite (IH r1 (Nat.lt_succ_diag_r _) Hp)|].
  destruct r1 as [|b [|c r3]]; [done..|]. intros [Ha Hp]%andb_prop.
  assert (byte_in 192 223 a = false /\ byte_in 224 239 a = true) as [-> ->].
  { revert Ha. unfold byte_in. rewrite !andb_true_iff, andb_false_iff, !N.leb_le, !N.leb_gt. lia. }
  rewrite !char_lower_ideograph by done. cbn. do 3 f_equal. apply IH; [cbn; lia|done].
Qed.

Lemma same_text_plain i1 i2 s : plain (trim s) = true -> same_text i1 i2 s.
Proof. intros Hp. unfold same_text, normalize_workflow_text. by rewrite (lower_chars_plain i1 i2). Qed.

Lemma foldl_ext_in {A B} (f g : A -> B -> A) l a :
  (forall a b, b ∈ l -> f a b = g a b) -> foldl f a l = foldl g a l.
Proof.
  revert a. induction l as [|b l IH]; intros a Hf; cbn; [done|].
  rewrite Hf by left. apply IH. intros. apply Hf. by right.
Qed.

Section agreement.
Context `{SerdeJson} (i1 i2 : CharLower).

Definition node_texts (n : WorkflowNode) : list string := phrases n ++ keywords_any n ++ keywords_all n.
Definition spec_texts (s : WorkflowSpec) : list string := deny_phrases s ++ (nodes s ≫= node_texts).

Lemma node_score_same n text :
  (forall p, p ∈ node_texts n -> same_text i1 i2 p) ->
  @node_score _ i1 n text = @node_score _ i2 n text.
Proof.
  unfold node_texts, same_text. intros Hn.
  assert (Hk : forall p, p ∈ node_texts n -> @has_keyword i1 text p = @has_keyword i2 text p)
    by (intros p Hp; unfold has_keyword; by rewrite Hn).
  unfold node_score, node_texts in *.
  rewrite (foldl_ext_in _ (@score_phrase _ i2 n text)).
  2: { intros x p Hp. unfold score_phrase. rewrite Hn; [done|]. rewrite !elem_of_app. by left. }
  rewrite (list_all_ext _ (@has_keyword i2 text)) by (intros; apply Hk; rewrite !elem_of_app; auto).
  rewrite (list_any_ext _ (@has_keyword i2 text)) by (intros; apply Hk; rewrite !elem_of_app; auto).
  done.
Qed.

Context (s : WorkflowSpec) (Hs : forall p, p ∈ spec_texts s -> same_text i1 i2 p).

Lemma deny_same text :
  @deny_phrase_matches i1 text (deny_phrases s) = @deny_phrase_matches i2 text (deny_phrases s).
Proof.
  apply list_any_ext. intros p Hp. assert (E : same_text i1 i2 p).
  { apply Hs, elem_of_app. by left. }
  unfold same_text in E. cbv zeta. by rewrite E.
Qed.

Lemma best_same text : @best_node_match _ i1 s text = @best_node_match _ i2 s text.
Proof.
  apply foldl_ext_in. intros b n Hn. unfold better. rewrite node_score_same; [done|].
  intros p Hp. apply Hs, elem_of_app. right. apply list_elem_of_bind. eauto.
Qed.

Lemma compile_same raw : same_text i1 i2 raw ->
  @compile_workflow_candidate _ i1 s raw = @compile_workflow_candidate _ i2 s raw.
Proof.
  unfold same_text. intros E. unfold compile_workflow_candidate. by rewrite E, deny_same, best_same.
Qed.

Lemma evaluate_same l : (forall c, c ∈ l -> same_text i1 i2 (input c)) ->
  @evaluate_workflow _ i1 s l = @evaluate_workflow _ i2 s l.
Proof.
  intros Hl. unfold evaluate_workflow.
  assert (@evaluate_case _ i1 s <$> l = @evaluate_case _ i2 s <$> l) as ->; [|done].
  apply list_fmap_ext. intros k c Hc%list_elem_of_lookup_2. specialize (Hl c Hc).
  unfold evaluate_case, rejected_low, best_score.
  rewrite compile_same by done. unfold same_text in Hl. by rewrite Hl, deny_same, best_same.
Qed.
End agreement.

Definition ascii_char_lower : CharLower :=
  {| char_lower s := s; char_lower_ideograph _ _ _ _ := eq_refl |}.

(** The embedded specification is valid, so reading it never panics, and its compiler
    passes its own evaluation: every case gets the kind it expects, or no
    candidate where none is expected, and no candidate carries an unsafe action,
    whatever lower case is beyond ASCII and ideographs. *)
Theorem embedded_spec_passes `{SerdeJson} `{!CharLower} :
  validate_workflow_spec system_diagnostics_workflow_spec = Ok system_diagnostics_workflow_spec
  /\ let r := evaluate_workflow system_diagnostics_workflow_spec system_diagnostics_eval_cases in
     passed r = true /\ correct_cases r = 74%nat /\ unauthorized_action_count r = 0%nat.
Proof.
  split; [reflexivity|]. cbv zeta.
  rewrite (evaluate_same _ ascii_char_lower).
  - vm_compute. done.
  - assert (Hall : forallb (fun p => plain (trim p)) (spec_texts system_diagnostics_workflow_spec) = true)
      by (vm_compute; done).
    rewrite forallb_forall in Hall. intros p Hp%list_elem_of_In. by apply same_text_plain, Hall.
  - assert (Hall : forallb (fun c => plain (trim (input c))) system_diagnostics_eval_cases = true)
      by (vm_compute; done).
    rewrite forallb_forall in Hall. intros c Hc%list_elem_of_In. by apply same_text_plain, Hall.
Qed.

(** * Samples *)

#[local] Existing Instance jv_json.
#[local] Existing Instance ascii_char_lower.
#[local] Existing Instance ascii_unicode_lower.

Definition sample_action : Action :=
  {| domain := "service"; operation := "status"; resource := JNull; args := JObj [];
     risk_level := Low; requires_approval := false; dry_run := false |}.

Definition sample_node : WorkflowNode :=
  {| wn_id := "ssh"; wn_candidate_kind := "system_readiness"; phrases := ["SSH status"];
     keywords_any := ["ssh"]; keywords_all := []; wn_read_only := true;
     wn_action := Some sample_action; wn_confidence := 98; wn_reason := "asked about ssh" |}.

Definition sample_spec : WorkflowSpec :=
  {| ws_id := "sample"; ws_version := "1"; ws_summary := ""; min_confidence := 60;
     deny_phrases := ["restart"]; nodes := [sample_node] |}.

Lemma candidate_safe_witness :
  compile_workflow_candidate sample_spec "ssh - Status" = Some (candidate_of sample_spec sample_node 100)
  /\ check_risk_gate sample_action None = Ok tt.
Proof.
  assert (Hc : compile_workflow_candidate sample_spec "ssh - Status"
               = Some (candidate_of sample_spec sample_node 100)) by reflexivity.
  split; [exact Hc|].
  destruct (candidate_safe (Ok sample_spec) sample_spec "ssh - Status" _ eq_refl Hc)
    as (_ & _ & Ha & _).
  exact (proj2 (Ha sample_action eq_refl)).
Defined.
