(* ===== verification/AdminAudit.v ===== *)
(** The audit stream of the admin console, [src/control_plane/audit.rs]: what is
    recorded is redacted first, the stream is bounded, and it is read in pages.

    Redaction goes through a value by its constructors, so values are [jv], the
    data type of [serde_json] (numbers are passed through; floating-point ones are
    not represented). The crate's maps are ordered by key: an object is its
    entries in that order, [obj_insert] keeps it. [uuid] and [now] stand for the
    identifier a call to [Uuid::new_v4] draws and for the clock.

    The theorems: redacted values hold nothing sensitive and redacting is settled
    after once; the stream is the latest records, at most 500; following the cursors
    reads each matching record once. *)
From Stdlib Require Import Ascii.
From S2P Require Import Prelude RustString Json.
Local Open Scope string_scope.

Definition MAX_ADMIN_AUDIT_RECORDS : nat := 500.

(** * Data *)

Record AuditActor := {
  aa_user_id : string;
  aa_source : string
}.

Inductive AuditActorKind := ActorUser | ActorSystem | ActorModel | ActorProvider.

Record AuditRecord := {
  audit_id : string;
  workspace_id : string;
  entity_kind : string;
  entity_id : string;
  action : string;
  actor_kind : AuditActorKind;
  actor_id : string;
  request_snapshot : jv;
  result_snapshot : jv;
  created_at : option string
}.

Record AuditRecordQuery := {
  q_limit : option nat;
  q_cursor : option nat;
  q_entity_kind : option string;
  q_entity_id : option string;
  q_action : option string
}.

Record AuditRecordPage := {
  records : list AuditRecord;
  total : nat;
  limit : nat;
  cursor : option string;
  next_cursor : option string;
  pg_metadata_only : bool;
  pg_secret_scan : string
}.

Record AuditSummary := {
  su_total : nat;
  window : string;
  by_entity_kind : gmap string nat;
  by_action : gmap string nat;
  by_actor_kind : gmap string nat;
  su_metadata_only : bool;
  su_secret_scan : string
}.

(** * Redaction *)


Definition sensitive_audit_key (key : string) : bool :=
  str_contains "secret" key || str_contains "token" key || str_contains "password" key
  || str_contains "api_key" key || str_contains "authorization" key
  || str_contains "credential" key || (key =? "raw_path") || (key =? "path")
  || ends_with "_path" key || (key =? "url") || ends_with "_url" key || (key =? "uri")
  || ends_with "_uri" key || str_contains "session" key.

Definition AUDIT_MARKERS : list string :=
  ["rtsp://"; "token="; "secret="; "api_key"; "bearer "; "\\"; "c:\"; "/mnt/"; ".harborbeacon/"].

Definition redact_audit_string (value : string) : string :=
  if contains_any AUDIT_MARKERS (to_ascii_lowercase value) then "[redacted]" else value.

Definition normalized_key (key : string) : string := to_ascii_lowercase (trim key).

Global Arguments normalized_key : simpl never.
Global Arguments sensitive_audit_key : simpl never.
Global Arguments redact_audit_string : simpl never.

Fixpoint redact_audit_value (value : jv) : jv :=
  match value with
  | JObj l =>
      JObj ((fix go l redacted :=
        match l with
        | [] => redacted
        | (key, value) :: l =>
            if normalized_key key =? "route_key" then
              go l (obj_insert "opaque_delivery_route_present" (JBool true) redacted)
            else if sensitive_audit_key (normalized_key key) then
              go l (obj_insert key (JStr "[redacted]") redacted)
            else go l (obj_insert key (redact_audit_value value) redacted)
        end) l [])
  | JArr l => JArr (redact_audit_value <$> l)
  | JStr s => JStr (redact_audit_string s)
  | other => other
  end.

Definition mark_metadata_only (value : jv) : jv :=
  let object := match value with JObj l => l | other => obj_insert "value" other [] end in
  let object := obj_insert "metadata_only" (JBool true) object in
  let object := obj_insert "redacted" (JBool true) object in
  JObj (obj_insert "secret_scan" (JStr "clean") object).

(** * Records *)

Definition trim_or_generated (uuid value prefix : string) : string :=
  default (prefix +:+ "-" +:+ uuid) (non_blank value).

Definition trim_or_default (value d : string) : string := default d (non_blank value).

Definition sanitize_audit_record (uuid now : string) (r : AuditRecord) : AuditRecord :=
  {| audit_id := trim_or_generated uuid (audit_id r) "audit";
     workspace_id := trim_or_default (workspace_id r) "home-1";
     entity_kind := trim_or_default (entity_kind r) "unknown";
     entity_id := trim_or_default (entity_id r) "unknown";
     action := trim_or_default (action r) "unknown";
     actor_kind := actor_kind r;
     actor_id := trim_or_default (actor_id r) "system";
     request_snapshot := mark_metadata_only (redact_audit_value (request_snapshot r));
     result_snapshot := mark_metadata_only (redact_audit_value (result_snapshot r));
     created_at :=
       match created_at r ≫= non_blank with Some t => Some t | None => Some now end |}.

Definition build_metadata_audit_record (uuid now : string)
    (workspace_id0 entity_kind0 entity_id0 action0 : string) (kind : AuditActorKind)
    (actor_id0 : string) (request result : jv) : AuditRecord :=
  {| audit_id := "audit-" +:+ uuid; workspace_id := workspace_id0; entity_kind := entity_kind0;
     entity_id := entity_id0; action := action0; actor_kind := kind; actor_id := actor_id0;
     request_snapshot := mark_metadata_only (redact_audit_value request);
     result_snapshot := mark_metadata_only (redact_audit_value result);
     created_at := Some now |}.

(** What a call draws for the [i]-th record it sanitises. *)
Definition Draws : Type := nat -> string * string.

Definition sanitize_all (d : Draws) (l : list AuditRecord) : list AuditRecord :=
  imap (fun i r => sanitize_audit_record (d i).1 (d i).2 r) l.

Definition sanitize_audit_stream (d : Draws) (l : list AuditRecord) : list AuditRecord :=
  sanitize_all d (drop (length l - MAX_ADMIN_AUDIT_RECORDS) l).

(** [first] is what is drawn for the new record. *)
Definition append_bounded_audit_record (first : string * string) (d : Draws)
    (l : list AuditRecord) (r : AuditRecord) : list AuditRecord :=
  sanitize_audit_stream d (l ++ [sanitize_audit_record first.1 first.2 r]).

(** * Reading *)

Definition asks (q : option string) (field : string) : bool :=
  match q with Some v => field =? v | None => true end.

Definition audit_record_matches (r : AuditRecord) (q : AuditRecordQuery) : bool :=
  asks (q_entity_kind q) (entity_kind r) && asks (q_entity_id q) (entity_id r)
  && asks (q_action q) (action r).

Definition query_audit_records (d : Draws) (l : list AuditRecord) (q : AuditRecordQuery)
  : AuditRecordPage :=
  let lim := Nat.min (Nat.max (default 50%nat (q_limit q)) 1) 200 in
  let cur := default 0%nat (q_cursor q) in
  let filtered := List.filter (fun r => audit_record_matches r q) (rev l) in
  let tot := length filtered in
  let page := sanitize_all d (take lim (drop cur filtered)) in
  let next_offset := (cur + length page)%nat in
  {| records := page; total := tot; limit := lim;
     cursor := if (0 <? cur)%nat then Some (show_nat cur) else None;
     next_cursor := if (next_offset <? tot)%nat then Some (show_nat next_offset) else None;
     pg_metadata_only := true; pg_secret_scan := "clean" |}.

Definition actor_kind_key (k : AuditActorKind) : string :=
  match k with
  | ActorUser => "user" | ActorSystem => "system" | ActorModel => "model" | ActorProvider => "provider"
  end.

(** [*map.entry(key).or_insert(0) += 1] *)
Definition count_key (m : gmap string nat) (key : string) : gmap string nat :=
  <[ key := S (default 0%nat (m !! key)) ]> m.

Definition build_audit_summary (l : list AuditRecord) (window0 : string) : AuditSummary :=
  {| su_total := length l; window := window0;
     by_entity_kind := foldl (fun m r => count_key m (entity_kind r)) ∅ l;
     by_action := foldl (fun m r => count_key m (action r)) ∅ l;
     by_actor_kind := foldl (fun m r => count_key m (actor_kind_key (actor_kind r))) ∅ l;
     su_metadata_only := true; su_secret_scan := "clean" |}.

Local Open Scope list_scope.

(** * Values *)

(** Values without sensitive parts: strings with no marker, objects without a
    route key whose sensitive keys hold the replacement. *)
Inductive clean : jv -> Prop :=
| clean_null : clean JNull
| clean_bool b : clean (JBool b)
| clean_num n : clean (JNum n)
| clean_float x : clean (JFloat x)
| clean_str s : contains_any AUDIT_MARKERS (to_ascii_lowercase s) = false -> clean (JStr s)
| clean_arr l : Forall clean l -> clean (JArr l)
| clean_obj l :
    Forall (fun kv => normalized_key kv.1 <> "route_key"
      /\ (sensitive_audit_key (normalized_key kv.1) = true /\ kv.2 = JStr "[redacted]"
          \/ sensitive_audit_key (normalized_key kv.1) = false /\ clean kv.2)) l ->
    clean (JObj l).

#[export] Hint Constructors clean : json.

(** * Redaction *)

(** What becomes of one entry. *)
Definition redact_entry (kv : string * jv) : string * jv :=
  if normalized_key kv.1 =? "route_key" then ("opaque_delivery_route_present", JBool true)
  else if sensitive_audit_key (normalized_key kv.1) then (kv.1, JStr "[redacted]")
  else (kv.1, redact_audit_value kv.2).

Lemma redact_obj l :
  redact_audit_value (JObj l) = JObj (foldl insert_entry [] (redact_entry <$> l)).
Proof.
  cbn. f_equal. generalize (@nil (string * jv)). induction l as [|[k v] l IH]; intros acc; cbn; [done|].
  rewrite <-IH. unfold insert_entry, redact_entry. cbn.
  destruct (normalized_key k =? "route_key"); [done|]. by destruct (sensitive_audit_key _).
Qed.

Lemma redacted_ordered v : ordered (redact_audit_value v).
Proof.
  induction v as [| | | | |l IH|l IH] using jv_nested_ind; try (cbn; by auto with json).
  - cbn. constructor. apply Forall_fmap. eapply Forall_impl; [exact IH|done].
  - rewrite redact_obj. constructor; [apply foldl_insert_ordered; constructor|].
    apply Forall_forall. intros kv [Hk|Hk]%elem_of_foldl_insert; [by apply not_elem_of_nil in Hk|].
    apply list_elem_of_fmap in Hk as (x & -> & Hx). rewrite Forall_forall in IH.
    unfold redact_entry. destruct (String.eqb _ _); [by constructor|].
    destruct (sensitive_audit_key _); [by constructor|]. by apply IH.
Qed.

Lemma redacted_string_clean s :
  contains_any AUDIT_MARKERS (to_ascii_lowercase (redact_audit_string s)) = false.
Proof.
  unfold redact_audit_string.
  by destruct (contains_any AUDIT_MARKERS (to_ascii_lowercase s)) eqn:E.
Qed.

Lemma redacted_clean v : clean (redact_audit_value v).
Proof.
  induction v as [| | | |s|l IH|l IH] using jv_nested_ind; try (cbn; by auto with json).
  - cbn. constructor. apply redacted_string_clean.
  - cbn. constructor. apply Forall_fmap. eapply Forall_impl; [exact IH|done].
  - rewrite redact_obj. constructor. apply Forall_forall.
    intros kv [Hk|Hk]%elem_of_foldl_insert; [by apply not_elem_of_nil in Hk|].
    apply list_elem_of_fmap in Hk as (x & -> & Hx). rewrite Forall_forall in IH.
    unfold redact_entry. destruct (String.eqb_spec (normalized_key x.1) "route_key") as [|Hr].
    { split; [done|]. right. split; [reflexivity|constructor]. }
    destruct (sensitive_audit_key (normalized_key x.1)) eqn:Es; cbn; (split; [done|]); [by left|].
    right. split; [done|]. by apply IH.
Qed.

Lemma redact_clean_id v : ordered v -> clean v -> redact_audit_value v = v.
Proof.
  induction v as [| | | |s|l IH|l IH] using jv_nested_ind; try done.
  - intros _ Hc. inversion_clear Hc as [| | | |? Hs| |]. cbn. unfold redact_audit_string. by rewrite Hs.
  - intros Ho Hc. inversion_clear Ho as [| | | | |? Ho'|]. inversion_clear Hc as [| | | | |? Hc'|]. cbn. f_equal.
    induction l as [|v l IHl]; cbn; [done|].
    apply Forall_cons in IH as [? ?], Ho' as [? ?], Hc' as [? ?]. f_equal; auto.
  - intros Ho Hc. inversion_clear Ho as [| | | | | |? Hk Ho']. inversion_clear Hc as [| | | | | |? Hc'].
    rewrite redact_obj. f_equal.
    assert (redact_entry <$> l = l) as ->; [|by apply foldl_insert_app].
    clear Hk. induction l as [|[k v] l IHl]; cbn; [done|].
    apply Forall_cons in IH as [IHv ?], Ho' as [Hov ?], Hc' as [[Hr Hv] ?]. cbn in *.
    f_equal; [|by auto]. unfold redact_entry. cbn.
    apply String.eqb_neq in Hr. rewrite Hr.
    destruct Hv as [[-> ->]|[-> Hv]]; [done|]. by rewrite IHv.
Qed.

(** C26. Redaction makes values clean: what it returns is an ordinary value that has no
    route key, whose sensitive keys hold only the replacement, and none of whose
    strings has a marker of a stream, a token or a path; values that are clean
    already are not touched, so redacting twice is redacting once. *)
Theorem redaction_sound v :
  ordered (redact_audit_value v) /\ clean (redact_audit_value v)
  /\ redact_audit_value (redact_audit_value v) = redact_audit_value v
  /\ (ordered v -> redact_audit_value v = v <-> clean v).
Proof.
  pose proof (redacted_ordered v). pose proof (redacted_clean v).
  split_and!; [done|done|by apply redact_clean_id|].
  intros Ho. split; [by intros <-|by apply redact_clean_id].
Qed.

(** * Records *)

(** Without route keys, redacting an object is redacting its entries in place. *)
Lemma redact_obj_in_place l :
  keys_ordered l -> Forall (fun kv => normalized_key kv.1 <> "route_key") l ->
  redact_audit_value (JObj l) = JObj (redact_entry <$> l).
Proof.
  intros Ho Hr. rewrite redact_obj. f_equal. apply foldl_insert_app.
  apply fmap_keys_ordered; [|done]. eapply Forall_impl; [exact Hr|]. intros [k v] Hk. cbn in *.
  unfold redact_entry. apply String.eqb_neq in Hk. cbn. rewrite Hk. by destruct (sensitive_audit_key _).
Qed.

(** The entries [mark_metadata_only] adds to. *)
Definition snapshot_object (v : jv) : list (string * jv) :=
  match v with JObj l => l | other => [("value", other)] end.

Lemma mark_eq v :
  mark_metadata_only v
  = JObj (obj_insert "secret_scan" (JStr "clean") (obj_insert "redacted" (JBool true)
      (obj_insert "metadata_only" (JBool true) (snapshot_object v)))).
Proof. by destruct v. Qed.

Lemma snapshot_object_spec v : ordered v -> clean v ->
  keys_ordered (snapshot_object v)
  /\ Forall (fun kv => normalized_key kv.1 <> "route_key" /\ redact_entry kv = kv) (snapshot_object v).
Proof.
  assert (Hv : forall v, ordered v -> clean v -> keys_ordered [("value", v)] /\
    Forall (fun kv => normalized_key kv.1 <> "route_key" /\ redact_entry kv = kv) [("value", v)]).
  { intros w Ho Hc. split; [by repeat constructor|]. apply Forall_singleton. split; [done|].
    unfold redact_entry. cbn. by rewrite redact_clean_id. }
  intros Ho Hc. destruct v as [| | | | | |l]; try by apply Hv.
  inversion_clear Ho as [| | | | | |? Hk Ho']. inversion_clear Hc as [| | | | | |? Hc']. split; [done|]. cbn.
  rewrite Forall_forall in Ho', Hc' |- *. intros [k w] Hx. specialize (Ho' _ Hx).
  destruct (Hc' _ Hx) as [Hr Hs]. cbn in *. split; [done|]. unfold redact_entry. cbn.
  apply String.eqb_neq in Hr. rewrite Hr.
  destruct Hs as [[-> ->]|[-> Hw]]; [done|]. by rewrite redact_clean_id.
Qed.

Lemma snapshot_settled v :
  mark_metadata_only (redact_audit_value (mark_metadata_only (redact_audit_value v)))
  = mark_metadata_only (redact_audit_value v).
Proof.
  rewrite (mark_eq (redact_audit_value v)).
  destruct (snapshot_object_spec _ (redacted_ordered v) (redacted_clean v)) as [Ho Hc].
  set (o := snapshot_object _) in *. clearbody o.
  set (l := obj_insert "secret_scan" _ _).
  assert (Hl : keys_ordered l) by (by repeat apply obj_insert_ordered).
  assert (Hr : Forall (fun kv => normalized_key kv.1 <> "route_key") l).
  { apply Forall_forall. intros kv.
    intros [->|[->|[->|Hx]%elem_of_obj_insert]%elem_of_obj_insert]%elem_of_obj_insert; try done.
    rewrite Forall_forall in Hc. by apply Hc. }
  rewrite redact_obj_in_place, mark_eq by done. cbn [snapshot_object]. f_equal.
  assert (Hf : Forall (fun kv => (redact_entry kv).1 = kv.1) l).
  { eapply Forall_impl; [exact Hr|]. intros [k w] Hk. unfold redact_entry. cbn in *.
    apply String.eqb_neq in Hk. rewrite Hk. by destruct (sensitive_audit_key _). }
  pose proof (fmap_keys_ordered _ _ Hf Hl) as Hm.
  apply ordered_ext; [by repeat apply obj_insert_ordered|done|]. intros k.
  rewrite !entry_obj_insert by (repeat apply obj_insert_ordered; done).
  rewrite entry_fmap by done. unfold l. rewrite !entry_obj_insert by (repeat apply obj_insert_ordered; done).
  destruct ("secret_scan" =? k); [done|]. destruct ("redacted" =? k); [done|].
  destruct ("metadata_only" =? k); [done|].
  destruct (entry k o) as [w|] eqn:E; [|done]. cbn. apply entry_elem in E.
  rewrite Forall_forall in Hc. destruct (Hc _ E) as [_ ->]. done.
Qed.

(** Drawn values as the program draws them: an identifier in hexadecimal, and the
    time in digits. *)
Definition proper_draw (d : string * string) : Prop :=
  trim ("audit-" +:+ d.1) = "audit-" +:+ d.1 /\ trim d.2 = d.2 /\ d.2 <> "".

(** A record that sanitising again leaves alone, whatever is drawn. *)
Definition settled (r : AuditRecord) : Prop := forall uuid now, sanitize_audit_record uuid now r = r.

Lemma non_blank_trimmed s : trim s = s -> s <> "" -> non_blank s = Some s.
Proof. intros Ht Hs. apply non_blank_some. by rewrite Ht. Qed.

Lemma trim_or_default_settled v d :
  trim d = d -> d <> "" -> trim_or_default (trim_or_default v d) d = trim_or_default v d.
Proof.
  intros Ht Hd. unfold trim_or_default. destruct (non_blank v) as [t|] eqn:E; cbn.
  - apply non_blank_some in E as [-> Hne]. by rewrite non_blank_trimmed by (rewrite ?trim_fixed; done).
  - by rewrite non_blank_trimmed.
Qed.

Lemma sanitize_settled d r : proper_draw d -> settled (sanitize_audit_record d.1 d.2 r).
Proof.
  intros (Hi & Hn & Hne) uuid now. unfold sanitize_audit_record at 1. cbn [audit_id workspace_id
    entity_kind entity_id action actor_kind actor_id request_snapshot result_snapshot created_at
    sanitize_audit_record].
  rewrite !trim_or_default_settled, !snapshot_settled by (by vm_compute).
  unfold sanitize_audit_record. f_equal.
  - unfold trim_or_generated. destruct (non_blank (audit_id r)) as [t|] eqn:E; cbn.
    + apply non_blank_some in E as [-> ?]. by rewrite non_blank_trimmed by (rewrite ?trim_fixed; done).
    + change ("audit" +:+ "-" +:+ d.1) with ("audit-" +:+ d.1). by rewrite non_blank_trimmed.
  - destruct (created_at r ≫= non_blank) as [t|] eqn:E; cbn.
    + apply bind_Some in E as (s & _ & E). apply non_blank_some in E as [-> ?].
      by rewrite non_blank_trimmed by (rewrite ?trim_fixed; done).
    + by rewrite non_blank_trimmed.
Qed.

(** * The stream *)

Lemma sanitize_all_settled d l : Forall settled l -> sanitize_all d l = l.
Proof.
  unfold sanitize_all. intros Hl. revert d. induction Hl as [|r l Hr Hl IH]; intros d; cbn; [done|].
  rewrite Hr. f_equal. exact (IH (fun i => d (S i))).
Qed.

(** The latest records. *)
Definition latest (l : list AuditRecord) : list AuditRecord :=
  drop (length l - MAX_ADMIN_AUDIT_RECORDS) l.

Lemma latest_snoc l r : latest (latest l ++ [r]) = latest (l ++ [r]).
Proof.
  unfold latest. rewrite <-drop_app_le by lia. rewrite drop_drop. f_equal.
  rewrite length_drop, !length_app. cbn. lia.
Qed.

Lemma latest_length l : (length (latest l) <= MAX_ADMIN_AUDIT_RECORDS)%nat.
Proof. unfold latest. rewrite length_drop. lia. Qed.

Definition append_step (l : list AuditRecord) (a : (string * string) * Draws * AuditRecord)
  : list AuditRecord := append_bounded_audit_record a.1.1 a.1.2 l a.2.

(** The stream after any appends is the latest of what it held and what was
    appended, each new record sanitised once as it came, in order, and never more
    than the maximum; nothing in it changes when it is sanitised again. *)
Theorem stream_is_latest l appends :
  Forall settled l -> (length l <= MAX_ADMIN_AUDIT_RECORDS)%nat ->
  Forall (fun a => proper_draw a.1.1) appends ->
  let after := foldl append_step l appends in
  after = latest (l ++ ((fun a => sanitize_audit_record a.1.1.1 a.1.1.2 a.2) <$> appends))
  /\ (length after <= MAX_ADMIN_AUDIT_RECORDS)%nat
  /\ Forall settled after.
Proof.
  intros Hl Hn Ha. cbv zeta.
  assert (Hall : Forall settled (l ++ ((fun a => sanitize_audit_record a.1.1.1 a.1.1.2 a.2) <$> appends))).
  { apply Forall_app. split; [done|]. apply Forall_fmap. eapply Forall_impl; [exact Ha|].
    intros a Hd. by apply sanitize_settled. }
  assert (Hs : foldl append_step l appends
    = latest (l ++ ((fun a => sanitize_audit_record a.1.1.1 a.1.1.2 a.2) <$> appends))).
  { clear Hall. induction appends as [|a appends IH] using rev_ind.
    { cbn. unfold latest. rewrite app_nil_r. by replace (length l - MAX_ADMIN_AUDIT_RECORDS)%nat with 0%nat by lia. }
    apply Forall_app in Ha as [Ha Hd]. rewrite foldl_app, fmap_app, app_assoc.
    change (?f <$> [a]) with [f a]. cbn beta. specialize (IH Ha).
    rewrite <-latest_snoc, <-IH. cbn [foldl]. set (x := foldl append_step l appends) in *. clearbody x.
    unfold append_step, append_bounded_audit_record, sanitize_audit_stream.
    apply sanitize_all_settled, Forall_drop, Forall_app. split.
    - subst x. apply Forall_drop, Forall_app. split; [done|]. apply Forall_fmap.
      eapply Forall_impl; [exact Ha|]. intros b Hb. by apply sanitize_settled.
    - apply Forall_singleton, sanitize_settled. exact (Forall_inv Hd). }
  rewrite Hs. split_and!; [done|apply latest_length|by apply Forall_drop].
Qed.

(** * Pages *)

Definition at_cursor (c : nat) (q : AuditRecordQuery) : AuditRecordQuery :=
  {| q_limit := q_limit q; q_cursor := Some c; q_entity_kind := q_entity_kind q;
     q_entity_id := q_entity_id q; q_action := q_action q |}.

(** The pages a client reads from a cursor, asking for the next cursor as long as
    a page names one. *)
Inductive reads (d : Draws) (l : list AuditRecord) (q : AuditRecordQuery)
  : nat -> list AuditRecordPage -> Prop :=
| reads_last c :
    next_cursor (query_audit_records d l (at_cursor c q)) = None ->
    reads d l q c [query_audit_records d l (at_cursor c q)]
| reads_next c c' pages :
    next_cursor (query_audit_records d l (at_cursor c q)) = Some (show_nat c') ->
    reads d l q c' pages ->
    reads d l q c (query_audit_records d l (at_cursor c q) :: pages).

Definition matching (l : list AuditRecord) (q : AuditRecordQuery) : list AuditRecord :=
  List.filter (fun r => audit_record_matches r q) (rev l).

Definition page_limit (q : AuditRecordQuery) : nat :=
  Nat.min (Nat.max (default 50%nat (q_limit q)) 1) 200.

Lemma query_spec d l q c : Forall settled l ->
  let p := query_audit_records d l (at_cursor c q) in
  records p = take (page_limit q) (drop c (matching l q))
  /\ next_cursor p = if (c + page_limit q <? length (matching l q))%nat
                     then Some (show_nat (c + page_limit q)) else None.
Proof.
  intros Hl. cbv zeta. unfold query_audit_records. cbv zeta. cbn [records next_cursor].
  change (Nat.min (Nat.max (default 50 (q_limit (at_cursor c q))) 1) 200)%nat with (page_limit q).
  change (default 0%nat (q_cursor (at_cursor c q))) with c.
  change (fun r => audit_record_matches r (at_cursor c q))
    with (fun r => audit_record_matches r q). fold (matching l q).
  rewrite sanitize_all_settled.
  2: { apply Forall_take, Forall_drop. apply Forall_forall. intros r [Hr _]%elem_of_list_filter.
       rewrite Forall_forall in Hl. apply Hl. by apply list_elem_of_In, in_rev, list_elem_of_In. }
  split; [done|]. rewrite length_take, length_drop.
  assert (1 <= page_limit q)%nat by (unfold page_limit; lia).
  destruct (c + page_limit q <? length (matching l q))%nat eqn:E; bool_facts.
  - match goal with |- context [Nat.min ?a ?b] => replace (Nat.min a b) with (page_limit q) by lia end.
    by rewrite (proj2 (Nat.ltb_lt _ _) E).
  - by rewrite (proj2 (Nat.ltb_ge _ _)) by lia.
Qed.

Lemma reads_spec d l q c pages : Forall settled l -> reads d l q c pages ->
  mjoin (records <$> pages) = drop c (matching l q).
Proof.
  intros Hl. induction 1 as [c Hn|c c' pages Hn Hr IH].
  - destruct (query_spec d l q c Hl) as [Hp Hc]. rewrite Hc in Hn.
    change (mjoin (records <$> [?p])) with (records p ++ []). rewrite Hp, app_nil_r.
    destruct (_ <? _)%nat eqn:E; bool_facts; [done|]. apply take_ge. rewrite length_drop. lia.
  - destruct (query_spec d l q c Hl) as [Hp Hc]. rewrite Hc in Hn.
    change (mjoin (records <$> ?p :: pages)) with (records p ++ mjoin (records <$> pages)).
    rewrite Hp, IH.
    destruct (_ <? _)%nat; [|done]. injection Hn as Hn. apply (inj pretty) in Hn as <-.
    by rewrite <-drop_drop, take_drop.
Qed.

Lemma reads_total d l q c : Forall settled l -> exists pages, reads d l q c pages.
Proof.
  intros Hl. remember (length (matching l q) - c)%nat as n eqn:En. revert c En.
  induction (lt_wf n) as [n _ IH]. intros c ->.
  destruct (query_spec d l q c Hl) as [_ Hc].
  destruct (c + page_limit q <? length (matching l q))%nat eqn:E; bool_facts.
  - assert (1 <= page_limit q)%nat by (unfold page_limit; lia).
    destruct (IH (length (matching l q) - (c + page_limit q))%nat ltac:(lia) (c + page_limit q)%nat eq_refl)
      as (pages & Hp). eexists. by eapply reads_next.
  - eexists. by apply reads_last.
Qed.

(** C39. Reading page by page: from the start, following the cursors ends, and the
    pages put together are the matching records, each once, the newest first; a
    page has at most 200 records, whatever limit was asked for. *)
Theorem pages_enumerate d l q :
  Forall settled l ->
  (exists pages, reads d l q 0 pages)
  /\ (forall pages, reads d l q 0 pages -> mjoin (records <$> pages) = matching l q)
  /\ (length (records (query_audit_records d l q)) <= 200)%nat.
Proof.
  intros Hl. split_and!; [by apply reads_total|intros pages Hr; by apply (reads_spec d l q 0)|].
  unfold query_audit_records, sanitize_all. cbv zeta. cbn [records]. rewrite length_imap, length_take.
  etransitivity; [apply Nat.le_min_l|apply Nat.le_min_r].
Qed.

(** * Summaries *)

Lemma count_keys {A} (f : A -> string) l m k :
  default 0%nat (foldl (fun m r => count_key m (f r)) m l !! k)
  = (default 0%nat (m !! k) + count_if (fun r => String.eqb (f r) k) l)%nat.
Proof.
  revert m. induction l as [|r l IH]; intros m; [cbn [foldl]; unfold count_if; cbn; by rewrite Nat.add_0_r|]. cbn [foldl].
  rewrite IH, count_if_cons. unfold count_key. destruct (String.eqb_spec (f r) k) as [->|Hne].
  - rewrite lookup_insert_eq. cbn. lia.
  - by rewrite lookup_insert_ne.
Qed.

(** * Samples *)

Definition sample_value : jv :=
  JObj [("path", JStr "/mnt/pool/frame.jpg"); ("route_key", JStr "gw_route_1");
        ("steps", JArr [JStr "ok"; JStr "rtsp://10.0.0.2/stream1"])].

Lemma redaction_sound_witness :
  redact_audit_value sample_value
  = JObj [("opaque_delivery_route_present", JBool true); ("path", JStr "[redacted]");
          ("steps", JArr [JStr "ok"; JStr "[redacted]"])]
  /\ ~ clean sample_value.
Proof.
  assert (Ho : ordered sample_value) by (repeat constructor).
  assert (E : redact_audit_value sample_value
    = JObj [("opaque_delivery_route_present", JBool true); ("path", JStr "[redacted]");
            ("steps", JArr [JStr "ok"; JStr "[redacted]"])]) by reflexivity.
  split; [exact E|]. destruct (redaction_sound sample_value) as (_ & _ & _ & H).
  intros Hc%(proj2 (H Ho)). rewrite E in Hc. discriminate Hc.
Defined.

Definition sample_record (id : string) : AuditRecord :=
  {| audit_id := id; workspace_id := "home-1"; entity_kind := "task"; entity_id := "t-1";
     action := "task.run"; actor_kind := ActorUser; actor_id := " "; request_snapshot := sample_value;
     result_snapshot := JNull; created_at := None |}.

Definition sample_draw : string * string := ("5f0c9a", "1700000000").

Lemma sample_draw_proper : proper_draw sample_draw.
Proof. split_and!; [reflexivity|reflexivity|discriminate]. Qed.

Definition sample_appends : list ((string * string) * Draws * AuditRecord) :=
  [(sample_draw, fun _ => sample_draw, sample_record "audit-1");
   (sample_draw, fun _ => sample_draw, sample_record " ")].

Definition sample_stream : list AuditRecord :=
  [sanitize_audit_record "5f0c9a" "1700000000" (sample_record "audit-1");
   sanitize_audit_record "5f0c9a" "1700000000" (sample_record " ")].

Lemma stream_is_latest_witness : foldl append_step [] sample_appends = sample_stream.
Proof.
  destruct (stream_is_latest [] sample_appends) as [H _]; [constructor|cbn; lia| |].
  { repeat constructor; apply sample_draw_proper. }
  rewrite H. reflexivity.
Defined.

Definition one_at_a_time : AuditRecordQuery :=
  {| q_limit := Some 0%nat; q_cursor := None; q_entity_kind := Some "task"; q_entity_id := None;
     q_action := None |}.

Lemma pages_enumerate_witness :
  exists pages, reads (fun _ => sample_draw) sample_stream one_at_a_time 0 pages
  /\ mjoin (records <$> pages) = rev sample_stream.
Proof.
  assert (Hs : Forall settled sample_stream).
  { repeat constructor; exact (sanitize_settled sample_draw _ sample_draw_proper). }
  destruct (pages_enumerate (fun _ => sample_draw) sample_stream one_at_a_time Hs) as ((pages & Hr) & H & _).
  exists pages. split; [exact Hr|]. rewrite (H pages Hr). reflexivity.
Defined.
