(* ===== verification/TaskRequests.v ===== *)
(** The requests and responses of the task service and what the code reads off
    them: the types and free functions of [src/runtime/task_api.rs]. JSON values
    are [jv], because identities and approval arguments are built by the shape of
    the value. A field carries a prefix for its record. *)
From S2P Require Import Prelude RustString Json Contracts Policy Approval TaskRecords.
Local Open Scope string_scope.
Local Open Scope list_scope.

#[local] Existing Instance jv_json.

(** * Requests *)

Record TaskSource := {
  src_channel : string;
  src_surface : string;
  src_conversation_id : string;
  src_user_id : string;
  src_session_id : string;
  src_route_key : string
}.

Record TaskMessageMention := { men_id : string; men_name : string }.

Record TaskMessageAttachmentDownload := {
  dl_mode : string;
  dl_url : string;
  dl_method : string;
  dl_headers : jv;
  dl_auth : option string;
  dl_expires_at : string;
  dl_max_size_bytes : option Z
}.

Record TaskMessageAttachment := {
  att_attachment_id : string;
  att_attachment_type : string;
  att_name : string;
  att_mime_type : string;
  att_size_bytes : option Z;
  att_download : option TaskMessageAttachmentDownload;
  att_metadata : jv
}.

Record TaskMessage := {
  msg_message_id : string;
  msg_chat_type : string;
  msg_mentions : list TaskMessageMention;
  msg_attachments : list TaskMessageAttachment
}.

Record TaskIntent := {
  int_domain : string;
  int_action : string;
  int_raw_text : string
}.

(** [TaskAutonomy] has the one field [level]. *)
Record TaskRequest := {
  rq_task_id : string;
  rq_trace_id : string;
  rq_step_id : string;
  rq_source : TaskSource;
  rq_intent : TaskIntent;
  rq_entity_refs : jv;
  rq_args : jv;
  rq_autonomy_level : string;
  rq_message : option TaskMessage
}.

(** * Responses *)

Inductive TaskStatus := Completed | NeedsInput | TaskFailed.

Record TaskArtifact := {
  ta_kind : string;
  ta_artifact_id : option string;
  ta_label : string;
  ta_mime_type : string;
  ta_media_asset_id : option string;
  ta_path : option string;
  ta_url : option string;
  ta_metadata : jv
}.

Record TaskResultEnvelope := {
  en_message : string;
  en_data : jv;
  en_artifacts : list TaskArtifact;
  en_events : list jv;
  en_next_actions : list string
}.

Record TaskResponse := {
  rs_task_id : string;
  rs_trace_id : string;
  rs_status : TaskStatus;
  rs_executor_used : string;
  rs_risk_level : RiskLevel;
  rs_result : TaskResultEnvelope;
  rs_audit_ref : string;
  rs_missing_fields : list string;
  rs_prompt : option string;
  rs_resume_token : option string
}.

(** * Look-ups by path *)

Definition trimmed_at (path : list string) (v : jv) : option string :=
  (pointer path v ≫= jv_str) ≫= non_blank.

Definition string_at_paths (v : jv) (paths : list (list string)) : option string :=
  find_map (fun path => trimmed_at path v) paths.

Definition first_string (vs : list jv) (paths : list (list string)) : option string :=
  find_map (fun v => string_at_paths v paths) vs.

Definition string_vec_at_paths (v : jv) (paths : list (list string)) : list string :=
  default [] (find_map (fun path =>
    match pointer path v ≫= jv_array with
    | Some items => Some (omap non_blank (omap jv_str items))
    | None => None
    end) paths).

Definition u64_at_paths (v : jv) (paths : list (list string)) : option Z :=
  find_map (fun path =>
    item ← pointer path v;
    match jv_u64 item with
    | Some n => Some n
    | None => s ← jv_str item; parse_uint u64_max (trim s)
    end) paths.

(** [values.iter().copied().find(|value| !value.trim().is_empty())] *)
Definition first_non_empty (l : list string) : option string :=
  list_find (fun s => negb (is_blank s)) l.

Section lower.
Context `{!UnicodeLower}.

Definition bool_at_paths (v : jv) (paths : list (list string)) : option bool :=
  find_map (fun path =>
    item ← pointer path v;
    match jv_bool item with
    | Some b => Some b
    | None =>
        s ← jv_str item;
        let s := to_lowercase (trim s) in
        if (s =? "true") || (s =? "1") || (s =? "yes") then Some true
        else if (s =? "false") || (s =? "0") || (s =? "no") then Some false
        else None
    end) paths.

(** * What a request says *)

Definition looks_like_turn_local_step_id (s : string) : bool :=
  starts_with "step_" s
  && let suffix := String.substring 5 (str_len s - 5) s in
     negb (is_empty suffix) && str_forall is_ascii_digit suffix.

Definition step_id_for_request (r : TaskRequest) : string :=
  match first_non_empty [rq_step_id r] with
  | Some s => if looks_like_turn_local_step_id s then rq_task_id r +:+ ":" +:+ s else s
  | None => rq_task_id r +:+ ":s1"
  end.

Definition workspace_id_for_request (r : TaskRequest) : string :=
  default "home-1" (first_string [rq_entity_refs r; rq_args r] [["workspace_id"]]).

Definition conversation_handle_for_request (r : TaskRequest) : string :=
  let s := rq_source r in
  default ("task-" +:+ rq_task_id r)
    (first_non_empty [src_session_id s; src_conversation_id s; src_user_id s]).

Definition conversation_key (r : TaskRequest) : option string :=
  let s := rq_source r in
  first_non_empty [src_conversation_id s; src_session_id s; src_user_id s].

Definition task_message_id (r : TaskRequest) : string :=
  default "" (rq_message r ≫= (fun m => non_blank (msg_message_id m))).

Definition task_chat_type (r : TaskRequest) : string :=
  default "" (rq_message r ≫= (fun m => non_blank (msg_chat_type m))).

Definition effective_autonomy_level (r : TaskRequest) : AutonomyLevel :=
  let s := to_lowercase (trim (rq_autonomy_level r)) in
  if (s =? "") || (s =? "supervised") then Supervised
  else if (s =? "readonly") || (s =? "read_only") || (s =? "read-only") then ReadOnly
  else if s =? "full" then Full
  else Supervised.

Definition autonomy_level_label (l : AutonomyLevel) : string :=
  match l with ReadOnly => "readonly" | Supervised => "supervised" | Full => "full" end.

Definition effective_autonomy_level_for_task_run (r : TaskRequest) : string :=
  autonomy_level_label (effective_autonomy_level r).

Definition normalize_task_autonomy_level (level : string) : string :=
  let s := to_lowercase (trim level) in
  if s =? "" then "supervised"
  else if (s =? "readonly") || (s =? "read_only") || (s =? "read-only") then "readonly"
  else if s =? "full" then "full"
  else "supervised".

Definition approval_manager_for_level (l : AutonomyLevel) : ApprovalManager :=
  for_non_interactive
    {| level := l; cfg_auto_approve := cfg_auto_approve autonomy_config_default;
       cfg_always_ask := cfg_always_ask autonomy_config_default;
       cfg_non_cli_excluded := cfg_non_cli_excluded autonomy_config_default |}.

Definition request_requires_approval (r : TaskRequest) : bool :=
  default false (bool_at_paths (rq_args r) [["approval"; "required"]; ["requires_approval"]]).

Definition request_approval_token (r : TaskRequest) : option string :=
  first_string [rq_args r; rq_entity_refs r] [["approval"; "token"]; ["approval_token"]].

Definition request_approver_id (r : TaskRequest) : option string :=
  first_string [rq_args r; rq_entity_refs r] [["approval"; "approver_id"]; ["approver_id"]].

Definition approval_context_for_request (r : TaskRequest) (pending : option ApprovalTicket)
  : option ApprovalContext :=
  let token := request_approval_token r in
  let required := ap_approval_id <$> pending in
  let approver := request_approver_id r in
  match token, required, approver with
  | None, None, None => None
  | _, _, _ => Some {| token := token; required_token := required; approver_id := approver |}
  end.

(** The action a request's intent names, at the lowest risk. *)
Definition intent_action (r : TaskRequest) : Action :=
  {| domain := to_lowercase (trim (int_domain (rq_intent r)));
     operation := to_lowercase (trim (int_action (rq_intent r)));
     resource := JNull; args := rq_args r; risk_level := Low;
     requires_approval := request_requires_approval r; dry_run := false |}.

Definition expected_risk_level (r : TaskRequest) : RiskLevel :=
  effective_risk_level (intent_action r).

Definition effective_requires_approval (r : TaskRequest) : bool :=
  requires_approval (apply_governance_defaults (intent_action r)).

(** * HarborOS actions *)

Definition is_supported_harbor_task (domain action : string) : bool :=
  ((domain =? "service")
   && list_any (String.eqb action) ["status"; "start"; "stop"; "restart"; "enable"])
  || ((domain =? "files") && list_any (String.eqb action) ["list"; "copy"; "move"]).

(** [bool_at_paths] on the arguments, then on the entity references. *)
Definition flag (r : TaskRequest) (paths : list (list string)) : option bool :=
  match bool_at_paths (rq_args r) paths with
  | Some b => Some b
  | None => bool_at_paths (rq_entity_refs r) paths
  end.

Definition request_preview_flag (r : TaskRequest) : bool :=
  default false (flag r [["dry_run"]; ["preview"]; ["resource"; "dry_run"]; ["resource"; "preview"]]).

Definition build_harbor_service_action (r : TaskRequest) (operation : string)
  : result string Action :=
  match first_string [rq_args r; rq_entity_refs r]
          [["service_name"]; ["resource"; "service_name"]; ["service"; "name"];
           ["service"; "id_or_name"]; ["service"]; ["resource"; "id_or_name"];
           ["resource"; "name"]; ["id_or_name"]; ["name"]] with
  | None => Err "service action requires service_name or resource.id_or_name"
  | Some service_name =>
      Ok (apply_governance_defaults
        {| domain := "service"; operation := operation;
           resource := json_object [("service_name", JStr service_name)];
           args := json_object (if operation =? "enable"
                                then [("enable", JBool (default true (flag r [["enable"]; ["resource"; "enable"]])))]
                                else []);
           risk_level := Low; requires_approval := request_requires_approval r;
           dry_run := request_preview_flag r |})
  end.

(** Where a files action's source may be given; [list] and the other operations
    try the names in a different order. *)
Definition source_paths : list (list string) :=
  [["source"]; ["resource"; "source"]; ["src"]; ["resource"; "src"]; ["paths"; "0"];
   ["resource"; "paths"; "0"]; ["path"]; ["resource"; "path"]].

Definition files_resource (r : TaskRequest) (operation : string) : result string jv :=
  let given := first_string [rq_args r; rq_entity_refs r] in
  if operation =? "list" then
    match given [["path"]; ["resource"; "path"]; ["paths"; "0"]; ["resource"; "paths"; "0"];
                 ["source"]; ["resource"; "source"]; ["src"]; ["resource"; "src"]] with
    | None => Err "files.list requires path or resource.path"
    | Some path => Ok (json_object [("path", JStr path); ("paths", JArr [JStr path])])
    end
  else if (operation =? "copy") || (operation =? "move") then
    match given source_paths with
    | None => Err "files action requires source or resource.paths[0]"
    | Some source =>
        match given [["target"]; ["resource"; "target"]; ["destination"];
                     ["resource"; "destination"]; ["dst"]; ["resource"; "dst"];
                     ["paths"; "1"]; ["resource"; "paths"; "1"]] with
        | None => Err "files action requires target or resource.destination"
        | Some target =>
            Ok (json_object [("source", JStr source); ("target", JStr target);
                             ("paths", JArr [JStr source])])
        end
    end
  else Err ("unsupported HarborOS files operation: " +:+ operation).

Definition build_harbor_files_action (r : TaskRequest) (operation : string)
  : result string Action :=
  let recursive := default false (flag r [["recursive"]; ["resource"; "recursive"]]) in
  let overwrite := default false (flag r [["overwrite"]; ["resource"; "overwrite"]]) in
  let paths := [["max_bytes"]; ["resource"; "max_bytes"]] in
  let max_bytes := match u64_at_paths (rq_args r) paths with
                   | Some n => Some n
                   | None => u64_at_paths (rq_entity_refs r) paths
                   end in
  match files_resource r operation with
  | Err e => Err e
  | Ok resource =>
      Ok (apply_governance_defaults
        {| domain := "files"; operation := operation; resource := resource;
           args := json_object
             ((if recursive then [("recursive", JBool true)] else [])
              ++ (if overwrite then [("overwrite", JBool true)] else [])
              ++ match max_bytes with Some n => [("max_bytes", JNum n)] | None => [] end);
           risk_level := Low; requires_approval := request_requires_approval r;
           dry_run := request_preview_flag r |})
  end.

Definition build_harbor_action_from_request (r : TaskRequest) : result string Action :=
  let domain := to_lowercase (trim (int_domain (rq_intent r))) in
  let operation := to_lowercase (trim (int_action (rq_intent r))) in
  if domain =? "service" then build_harbor_service_action r operation
  else if domain =? "files" then build_harbor_files_action r operation
  else Err ("unsupported HarborOS task action: " +:+ domain +:+ "." +:+ operation).

Definition harbor_execution_is_preview (payload : jv) : bool :=
  default false (bool_at_paths payload [["dry_run"]])
  || match pointer ["passthrough"] payload with Some (JBool false) => true | _ => false end
  || match string_at_paths payload [["note"]] with
     | Some s => str_contains "preview" (to_ascii_lowercase s)
     | None => false
     end.

(** * Identity *)

Fixpoint normalized_contract_value (v : jv) : jv :=
  match v with
  | JNull => json_object []
  | JArr items => JArr (normalized_contract_value <$> items)
  | JObj l => JObj (foldl insert_entry []
                ((fun kv => (kv.1, normalized_contract_value kv.2)) <$> l))
  | JStr s => JStr (trim s)
  | v => v
  end.

Definition task_request_identity (r : TaskRequest) : jv :=
  json_object
    [("route_key", JStr (trim (src_route_key (rq_source r))));
     ("conversation_id", JStr (trim (src_conversation_id (rq_source r))));
     ("message_id", JStr (task_message_id r));
     ("intent", json_object
        [("domain", JStr (trim (int_domain (rq_intent r))));
         ("action", JStr (trim (int_action (rq_intent r))));
         ("raw_text", JStr (trim (int_raw_text (rq_intent r))))]);
     ("entity_refs", normalized_contract_value (rq_entity_refs r));
     ("args", normalized_contract_value (rq_args r))].

Definition text_at (path : list string) (v : jv) : string := default "" (pointer path v ≫= jv_str).

Definition persisted_task_request_identity (run : TaskRun) : jv :=
  match pointer ["request_identity"] (run_metadata run) with
  | Some identity => identity
  | None =>
      json_object
        [("route_key", JStr (text_at ["route_key"] (run_metadata run)));
         ("conversation_id", JStr (text_at ["conversation_id"] (run_metadata run)));
         ("message_id", JStr (text_at ["message_id"] (run_metadata run)));
         ("intent", json_object
            [("domain", JStr (trim (run_domain run)));
             ("action", JStr (trim (run_action run)));
             ("raw_text", JStr (trim (run_intent_text run)))]);
         ("entity_refs", normalized_contract_value (run_entity_refs run));
         ("args", normalized_contract_value (run_args run))]
  end.

Definition task_attachment_transport_contract (r : TaskRequest) : jv :=
  match rq_message r with
  | None => JArr []
  | Some message =>
      JArr ((fun a =>
        let download := json_option (fun d =>
          json_object
            [("mode", JStr (trim (dl_mode d))); ("url", JStr (trim (dl_url d)));
             ("method", JStr (trim (dl_method d)));
             ("headers", normalized_contract_value (dl_headers d));
             ("auth", json_option (fun kind => json_object [("type", JStr (trim kind))]) (dl_auth d));
             ("expires_at", JStr (trim (dl_expires_at d)));
             ("max_size_bytes", json_option JNum (dl_max_size_bytes d))]) (att_download a) in
        json_object
          [("attachment_id", JStr (trim (att_attachment_id a)));
           ("type", JStr (trim (att_attachment_type a)));
           ("name", JStr (trim (att_name a)));
           ("mime_type", JStr (trim (att_mime_type a)));
           ("size_bytes", json_option JNum (att_size_bytes a));
           ("download", download);
           ("metadata", normalized_contract_value (att_metadata a))]) <$> msg_attachments message)
  end.

Definition build_task_run_metadata (r : TaskRequest) (step_id : string) : jv :=
  json_object
    [("trace_id", JStr (rq_trace_id r));
     ("step_id", JStr step_id);
     ("surface", JStr (src_surface (rq_source r)));
     ("conversation_id", JStr (src_conversation_id (rq_source r)));
     ("route_key", JStr (src_route_key (rq_source r)));
     ("message_id", JStr (default "" (msg_message_id <$> rq_message r)));
     ("chat_type", JStr (default "" (msg_chat_type <$> rq_message r)));
     ("attachments", task_attachment_transport_contract r);
     ("request_identity", task_request_identity r)].
End lower.
