(* ===== verification/TaskApi.v ===== *)
(** The task service, [TaskApiService] of [src/runtime/task_api.rs]: the record
    kept of a task, replay of a task already run, the approval gate every action
    passes, the decisions on approvals, and the dispatch of a request.

    The service's state is the conversation store's file. A method is a function
    of the file to the file it leaves and a result, [M]; [Env] gives what a method
    reads besides: the clock, the identifiers [Uuid::new_v4] draws and the
    failures of each store operation, each indexed in the order of the calls.
    [W] is the state of the outside world the handlers change. *)
From S2P Require Import Prelude RustString Json Contracts Policy Approval Runtime.
From S2P Require Import TaskRecords Conversation TaskStore TaskRequests.
Local Open Scope string_scope.
Local Open Scope list_scope.

#[local] Existing Instance jv_json.

(** * Serialised forms *)

Definition risk_value (r : RiskLevel) : jv :=
  JStr match r with Low => "LOW" | Medium => "MEDIUM" | High => "HIGH" | Critical => "CRITICAL" end.

Definition approval_status_value (s : ApprovalStatus) : jv :=
  JStr match s with
       | ApprovalPending => "pending" | ApprovalApproved => "approved"
       | ApprovalRejected => "rejected" | ApprovalExpired => "expired"
       | ApprovalCancelled => "cancelled"
       end.

Definition ticket_value (a : ApprovalTicket) : jv :=
  json_object
    [("approval_id", JStr (ap_approval_id a)); ("task_id", JStr (ap_task_id a));
     ("trace_id", JStr (ap_trace_id a)); ("route_key", JStr (ap_route_key a));
     ("policy_ref", JStr (ap_policy_ref a));
     ("requester_user_id", JStr (ap_requester_user_id a));
     ("approver_user_id", json_option JStr (ap_approver_user_id a));
     ("status", approval_status_value (ap_status a)); ("reason", JStr (ap_reason a));
     ("requested_at", json_option JStr (ap_requested_at a));
     ("decided_at", json_option JStr (ap_decided_at a))].

Definition source_value (s : TaskSource) : jv :=
  json_object
    [("channel", JStr (src_channel s)); ("surface", JStr (src_surface s));
     ("conversation_id", JStr (src_conversation_id s)); ("user_id", JStr (src_user_id s));
     ("session_id", JStr (src_session_id s)); ("route_key", JStr (src_route_key s))].

Definition intent_value (i : TaskIntent) : jv :=
  json_object [("domain", JStr (int_domain i)); ("action", JStr (int_action i));
               ("raw_text", JStr (int_raw_text i))].

Definition download_value (d : TaskMessageAttachmentDownload) : jv :=
  json_object
    [("mode", JStr (dl_mode d)); ("url", JStr (dl_url d)); ("method", JStr (dl_method d));
     ("headers", dl_headers d);
     ("auth", json_option (fun kind => json_object [("type", JStr kind)]) (dl_auth d));
     ("expires_at", JStr (dl_expires_at d));
     ("max_size_bytes", json_option JNum (dl_max_size_bytes d))].

Definition attachment_value (a : TaskMessageAttachment) : jv :=
  json_object
    [("attachment_id", JStr (att_attachment_id a)); ("type", JStr (att_attachment_type a));
     ("name", JStr (att_name a)); ("mime_type", JStr (att_mime_type a));
     ("size_bytes", json_option JNum (att_size_bytes a));
     ("download", json_option download_value (att_download a)); ("metadata", att_metadata a)].

Definition message_value (m : TaskMessage) : jv :=
  json_object
    [("message_id", JStr (msg_message_id m)); ("chat_type", JStr (msg_chat_type m));
     ("mentions", JArr ((fun x => json_object [("id", JStr (men_id x)); ("name", JStr (men_name x))])
                          <$> msg_mentions m));
     ("attachments", JArr (attachment_value <$> msg_attachments m))].

Definition build_step_input_payload (r : TaskRequest) : jv :=
  json_object
    [("trace_id", JStr (rq_trace_id r)); ("source", source_value (rq_source r));
     ("intent", intent_value (rq_intent r)); ("entity_refs", rq_entity_refs r);
     ("args", rq_args r); ("message", json_option message_value (rq_message r))].

Definition CONTINUATION_TOKEN_KEY : string := "continuation_token".
Definition LEGACY_RESUME_TOKEN_KEY : string := "resume_token".

Definition build_step_output_payload (x : TaskResponse) : jv :=
  json_object
    [("message", JStr (en_message (rs_result x))); ("data", en_data (rs_result x));
     ("events", JArr (en_events (rs_result x)));
     ("next_actions", JArr (JStr <$> en_next_actions (rs_result x)));
     ("missing_fields", JArr (JStr <$> rs_missing_fields x));
     ("prompt", json_option JStr (rs_prompt x));
     (CONTINUATION_TOKEN_KEY, json_option JStr (rs_resume_token x));
     (LEGACY_RESUME_TOKEN_KEY, json_option JStr (rs_resume_token x))].

(** * Statuses, artifacts and events *)

Definition task_run_status_from_response (s : TaskStatus) : TaskRunStatus :=
  match s with Completed => RunCompleted | NeedsInput => RunNeedsInput | TaskFailed => RunFailed end.

Definition task_step_status_from_response (s : TaskStatus) : TaskStepRunStatus :=
  match s with Completed => StepSuccess | NeedsInput => StepBlocked | TaskFailed => StepFailed end.

Definition task_status_from_task_run_status (s : TaskRunStatus) : TaskStatus :=
  match s with
  | RunCompleted => Completed
  | RunNeedsInput | RunBlocked => NeedsInput
  | RunQueued | RunRunning | RunFailed => TaskFailed
  end.

Definition task_run_completed_at (s : TaskStatus) (finished_at : string) : option string :=
  match s with Completed | TaskFailed => Some finished_at | NeedsInput => None end.

Definition response_error_code (x : TaskResponse) : option string :=
  string_at_paths (en_data (rs_result x))
    [["error_code"]; ["error"; "code"]; ["result"; "error_code"]; ["result"; "error"; "code"]].

Definition step_identity (r : TaskRequest) (x : TaskResponse) : string * string :=
  if rs_executor_used x =? "vision_executor" then ("vision", "analyze_camera")
  else (int_domain (rq_intent r), int_action (rq_intent r)).

Definition task_artifact_kind_name (k : ArtifactKind) : string :=
  match k with
  | ArtifactText => "text" | ArtifactImage => "image" | ArtifactVideo => "video"
  | ArtifactLink => "link" | ArtifactCard => "card" | ArtifactJson => "json"
  end.

Definition task_artifact_from_record (a : ArtifactRecord) : TaskArtifact :=
  {| ta_kind := task_artifact_kind_name (art_artifact_kind a);
     ta_artifact_id := Some (art_artifact_id a); ta_label := art_label a;
     ta_mime_type := art_mime_type a; ta_media_asset_id := art_media_asset_id a;
     ta_path := art_path a; ta_url := art_url a; ta_metadata := art_metadata a |}.

Definition set_events_of (events : list jv) (x : TaskResponse) : TaskResponse :=
  {| rs_task_id := rs_task_id x; rs_trace_id := rs_trace_id x; rs_status := rs_status x;
     rs_executor_used := rs_executor_used x; rs_risk_level := rs_risk_level x;
     rs_result := {| en_message := en_message (rs_result x); en_data := en_data (rs_result x);
                     en_artifacts := en_artifacts (rs_result x); en_events := events;
                     en_next_actions := en_next_actions (rs_result x) |};
     rs_audit_ref := rs_audit_ref x; rs_missing_fields := rs_missing_fields x;
     rs_prompt := rs_prompt x; rs_resume_token := rs_resume_token x |}.

(** [SystemTime::now().as_secs().to_string()] *)
Definition timestamp (now : Z) : string := show_Z now.

(** The first twelve characters of an identifier. *)
Definition audit_ref_of (uuid : string) : string := String.substring 0 12 uuid.

Section service.
Context `{!UnicodeLower} `{!HashOrder}.
Context `{!Codec PendingTaskCandidate} `{!Codec PendingTaskConnect}
  `{!Codec PendingTaskClipConfirmation} `{!Codec PendingTaskGeneralMessageLoop}
  `{!Codec TaskConversationState} `{!Codec TaskSessionStateEnvelope}.
Context `{!Codec EventRecord} `{!Codec Action} `{!Codec ExecutionResult}.
Context {Text : Type} `{!FileCodec Text} (store : TaskConversationStore).

(** * Methods *)

Record Env := {
  clock : nat -> Z;
  uuid : nat -> string;
  ios : nat -> Io Text
}.

(** What is left of an environment after a call that used [k] of each. *)
Definition later (k : nat) (e : Env) : Env :=
  {| clock n := clock e (k + n)%nat; uuid n := uuid e (k + n)%nat; ios n := ios e (k + n)%nat |}.

Definition M (E A : Type) : Type := Disk Text -> Disk Text * result E A.

Definition mret {E A} (a : A) : M E A := fun d => (d, Ok a).
Definition merr {E A} (e : E) : M E A := fun d => (d, Err e).
Definition mthen {E A B} (m : M E A) (k : A -> M E B) : M E B :=
  fun d => match m d with (d, Ok a) => k a d | (d, Err e) => (d, Err e) end.

(** A query, and [let _ = ...;]. *)
Definition asking {E A} (q : Disk Text -> result E A) : M E A := fun d => (d, q d).
Definition ignoring {E E' A} (m : M E' A) : M E unit := fun d => ((m d).1, Ok tt).

Local Notation "x <-! m ; k" := (mthen m (fun x => k)) (at level 100, m at next level, right associativity).

(** [.ok().flatten()] of a look-up. *)
Definition found {A} (q : result string (option A)) : option A := mjoin (res_ok q).

(** [self.serialize_event_record] *)
Definition serialize_event_record (ev : EventRecord) : jv := to_value_or_null ev.

(** * Responses *)

Definition completed_with_context (uuid : string) (r : TaskRequest) (executor_used : string)
    (risk : RiskLevel) (message : string) (data : jv) (artifacts : list TaskArtifact)
    (events : list jv) (next_actions : list string) : TaskResponse :=
  {| rs_task_id := rq_task_id r; rs_trace_id := rq_trace_id r; rs_status := Completed;
     rs_executor_used := executor_used; rs_risk_level := risk;
     rs_result := {| en_message := message; en_data := data; en_artifacts := artifacts;
                     en_events := events; en_next_actions := next_actions |};
     rs_audit_ref := audit_ref_of uuid; rs_missing_fields := []; rs_prompt := None;
     rs_resume_token := None |}.

Definition needs_input_with_context (uuid : string) (r : TaskRequest) (executor_used : string)
    (risk : RiskLevel) (prompt : string) (missing_fields : list string) (resume_token : string)
    (data : jv) (events : list jv) (next_actions : list string) : TaskResponse :=
  {| rs_task_id := rq_task_id r; rs_trace_id := rq_trace_id r; rs_status := NeedsInput;
     rs_executor_used := executor_used; rs_risk_level := risk;
     rs_result := {| en_message := prompt; en_data := data; en_artifacts := [];
                     en_events := events; en_next_actions := next_actions |};
     rs_audit_ref := audit_ref_of uuid; rs_missing_fields := missing_fields;
     rs_prompt := Some prompt; rs_resume_token := Some resume_token |}.

Definition failed_with_context (uuid : string) (r : TaskRequest) (executor_used : string)
    (risk : RiskLevel) (message : string) (data : jv) (events : list jv) : TaskResponse :=
  {| rs_task_id := rq_task_id r; rs_trace_id := rq_trace_id r; rs_status := TaskFailed;
     rs_executor_used := executor_used; rs_risk_level := risk;
     rs_result := {| en_message := message; en_data := data; en_artifacts := [];
                     en_events := events; en_next_actions := [] |};
     rs_audit_ref := audit_ref_of uuid; rs_missing_fields := []; rs_prompt := None;
     rs_resume_token := None |}.

Definition failed (uuid : string) (r : TaskRequest) (executor_used : string) (risk : RiskLevel)
    (message : string) : TaskResponse :=
  failed_with_context uuid r executor_used risk message JNull [].

Definition build_task_event_record (uuid : string) (now : Z) (r : TaskRequest)
    (step_id event_type : string) (severity : EventSeverity) (payload : jv) : EventRecord :=
  {| ev_event_id := uuid; ev_workspace_id := workspace_id_for_request r;
     ev_source_kind := SourceTask; ev_source_id := rq_task_id r; ev_event_type := event_type;
     ev_severity := severity; ev_payload := (payload : @Value jv_json);
     ev_correlation_id := if is_blank (rq_trace_id r) then None else Some (rq_trace_id r);
     ev_causation_id := Some step_id; ev_occurred_at := Some (timestamp now);
     ev_ingested_at := Some (timestamp now) |}.

(** * The approval gate *)

Definition policy_ref_of (a : Action) : string := domain a +:+ "." +:+ operation a.

(** The ticket the gate stores: with the id of the pending one, if there is one. *)
Definition gate_ticket (e : Env) (r : TaskRequest) (a : Action) (violation : PolicyViolation)
    (pending : option ApprovalTicket) : ApprovalTicket :=
  {| ap_approval_id := match pending with Some p => ap_approval_id p | None => uuid e 0 end;
     ap_task_id := rq_task_id r; ap_trace_id := rq_trace_id r;
     ap_route_key := src_route_key (rq_source r); ap_policy_ref := policy_ref_of a;
     ap_requester_user_id := src_user_id (rq_source r); ap_approver_user_id := None;
     ap_status := ApprovalPending; ap_reason := message violation;
     ap_requested_at := Some (timestamp (clock e 0)); ap_decided_at := None |}.

Definition ensure_action_allowed (e : Env) (r : TaskRequest) (a : Action) (executor_used : string)
  : M TaskResponse unit :=
  let level := effective_autonomy_level r in
  if negb (risk_allowed (approval_manager_for_level level) (effective_risk_level a)) then
    let event := serialize_event_record
      (build_task_event_record (uuid e 0) (clock e 0) r (step_id_for_request r)
        "task.autonomy_blocked" SeverityWarning
        (json_object [("executor_used", JStr executor_used);
                      ("autonomy_level", JStr (autonomy_level_label level));
                      ("policy_ref", JStr (policy_ref_of a));
                      ("risk_level", risk_value (effective_risk_level a))])) in
    merr (failed_with_context (uuid e 1) r executor_used (effective_risk_level a)
      ("当前任务处于 " +:+ autonomy_level_label level +:+ " 模式，无法执行需要写入或变更的操作。")
      (json_object [("error", JStr "AUTONOMY_BLOCKED");
                    ("autonomy_level", JStr (autonomy_level_label level));
                    ("policy_ref", JStr (policy_ref_of a))]) [event])
  else fun d =>
    let tickets := default [] (res_ok (approvals_for_task store (rq_task_id r) (ios e 0) d)) in
    let pending := list_find is_pending tickets in
    match enforce a (approval_context_for_request r pending) with
    | Err violation =>
        let ticket := gate_ticket e r a violation pending in
        let d := (save_approval store ticket (ios e 1) d).1 in
        let event := serialize_event_record
          (build_task_event_record (uuid e 1) (clock e 1) r (step_id_for_request r)
            "task.approval_required" SeverityWarning
            (json_object [("executor_used", JStr executor_used);
                          ("policy_violation",
                            json_object [("code", JStr (code violation));
                                         ("message", JStr (message violation))]);
                          ("approval_ticket", ticket_value ticket)])) in
        (d, Err (needs_input_with_context (uuid e 2) r executor_used (risk_level a)
          "这个操作需要审批，请带 approval_token 重新提交。" ["approval_token"]
          (ap_approval_id ticket)
          (json_object [("approval_ticket", ticket_value ticket);
                        ("policy_ref", JStr (policy_ref_of a))])
          [event] ["approval_token " +:+ ap_approval_id ticket]))
    | Ok _ =>
        if (action_requires_approval a || bool_decide (is_Some pending))
           && bool_decide (is_Some (request_approval_token r))
        then ((resolve_pending_approvals store (rq_task_id r) (request_approver_id r)
                 (Some (timestamp (clock e 0))) (ios e 1) d).1, Ok tt)
        else (d, Ok tt)
    end.

(** * The record of a task *)

Record TaskRuntimeTracking := {
  tk_session_id : string;
  tk_step_id : string;
  tk_started_at : string
}.

Definition load_conversation (e : Env) (r : TaskRequest) (d : Disk Text)
  : option TaskConversationState :=
  let session_id := conversation_handle_for_request r in
  found (load_for_session store session_id (Some (default session_id (conversation_key r)))
           (ios e 0) d).

(** A field kept unless the request gives a new value. *)
Definition non_empty_or (new old : string) : string := if is_empty new then old else new.

(** The session before its state is computed. *)
Definition session_fields (r : TaskRequest) (tr : TaskRuntimeTracking)
    (old : option ConversationSession) : ConversationSession :=
  let s := rq_source r in
  {| cs_session_id := default (tk_session_id tr) (cs_session_id <$> old);
     cs_workspace_id := workspace_id_for_request r; cs_channel := src_channel s;
     cs_surface := src_surface s; cs_conversation_id := src_conversation_id s;
     cs_user_id := src_user_id s;
     cs_route_key := if is_blank (src_route_key s)
                     then default (src_route_key s) (cs_route_key <$> old) else src_route_key s;
     cs_last_message_id := non_empty_or (task_message_id r) (default "" (cs_last_message_id <$> old));
     cs_chat_type := non_empty_or (task_chat_type r) (default "" (cs_chat_type <$> old));
     cs_state := default (JNull : @Value jv_json) (cs_state <$> old);
     cs_resume_token := old ≫= cs_resume_token; cs_expires_at := old ≫= cs_expires_at |}.

Definition build_session_record (e : Env) (r : TaskRequest) (tr : TaskRuntimeTracking)
    (resume_token : option string) (d : Disk Text) : ConversationSession :=
  let session := session_fields r tr (found (load_session store (tk_session_id tr) (ios e 0) d)) in
  let state := default (JNull : @Value jv_json)
    (load_conversation (later 1 e) r d
       ≫= (fun c => res_ok (session_state_value_from_conversation c (Some session)))) in
  {| cs_session_id := cs_session_id session; cs_workspace_id := cs_workspace_id session;
     cs_channel := cs_channel session; cs_surface := cs_surface session;
     cs_conversation_id := cs_conversation_id session; cs_user_id := cs_user_id session;
     cs_route_key := cs_route_key session; cs_last_message_id := cs_last_message_id session;
     cs_chat_type := cs_chat_type session; cs_state := state; cs_resume_token := resume_token;
     cs_expires_at := None |}.

(** The run and the step, as the two ends of tracking write them over what is
    stored: only the identifier and the start of an older record are kept. *)
Definition tracked_run (r : TaskRequest) (tr : TaskRuntimeTracking) (status : TaskRunStatus)
    (risk : RiskLevel) (completed_at : option string) (old : option TaskRun) : TaskRun :=
  {| run_task_id := default (rq_task_id r) (run_task_id <$> old);
     run_workspace_id := workspace_id_for_request r; run_session_id := tk_session_id tr;
     run_source_channel := src_channel (rq_source r); run_domain := int_domain (rq_intent r);
     run_action := int_action (rq_intent r); run_intent_text := int_raw_text (rq_intent r);
     run_entity_refs := (rq_entity_refs r : @Value jv_json);
     run_args := (rq_args r : @Value jv_json);
     run_autonomy_level := effective_autonomy_level_for_task_run r; run_status := status;
     run_risk_level := risk; run_requires_approval := effective_requires_approval r;
     run_started_at := Some (default (tk_started_at tr) (old ≫= run_started_at));
     run_completed_at := completed_at;
     run_metadata := (build_task_run_metadata r (tk_step_id tr) : @Value jv_json) |}.

Definition tracked_step (r : TaskRequest) (tr : TaskRuntimeTracking) (domain operation : string)
    (route : ExecutionRoute) (executor_used : string) (status : TaskStepRunStatus)
    (output : jv) (error_code error_message audit_ref ended_at : option string)
    (old : option TaskStepRun) : TaskStepRun :=
  {| step_step_id := default (tk_step_id tr) (step_step_id <$> old);
     step_task_id := rq_task_id r; step_trace_id := rq_trace_id r;
     step_route_key := src_route_key (rq_source r); step_domain := domain;
     step_operation := operation; step_route := route; step_executor_used := executor_used;
     step_status := status; step_input_payload := (build_step_input_payload r : @Value jv_json);
     step_output_payload := (output : @Value jv_json); step_error_code := error_code;
     step_error_message := error_message; step_audit_ref := audit_ref;
     step_started_at := Some (default (tk_started_at tr) (old ≫= step_started_at));
     step_ended_at := ended_at |}.

Definition begin_task_tracking (e : Env) (r : TaskRequest) (d : Disk Text)
  : Disk Text * TaskRuntimeTracking :=
  let tr := {| tk_session_id := conversation_handle_for_request r;
               tk_step_id := step_id_for_request r;
               tk_started_at := timestamp (clock e 0) |} in
  let session := build_session_record e r tr None d in
  let d := (save_session store session (ios e 2) d).1 in
  let run := tracked_run r tr RunRunning (expected_risk_level r) None
    (found (load_task_run store (rq_task_id r) (ios e 3) d)) in
  let d := (save_task_run store run (ios e 4) d).1 in
  let step := tracked_step r tr (int_domain (rq_intent r)) (int_action (rq_intent r)) ExecLocal
    "task_api_dispatch" StepExecuting JNull None None None None
    (found (load_task_step store (tk_step_id tr) (ios e 5) d)) in
  let d := (save_task_step store step (ios e 6) d).1 in
  (d, tr).

Definition execution_route_for_executor (executor_used : string) : ExecutionRoute :=
  let s := to_lowercase (trim executor_used) in
  if s =? "middleware_api" then ExecMiddlewareApi
  else if s =? "midcli" then ExecMidcli
  else if s =? "browser" then ExecBrowser
  else if s =? "mcp" then ExecMcp
  else ExecLocal.

Definition artifact_kind_from_name (kind : string) : ArtifactKind :=
  let s := to_lowercase (trim kind) in
  if s =? "image" then ArtifactImage
  else if s =? "video" then ArtifactVideo
  else if s =? "link" then ArtifactLink
  else if s =? "card" then ArtifactCard
  else if s =? "json" then ArtifactJson
  else ArtifactText.

Definition artifact_record (r : TaskRequest) (step_id : string) (index : nat) (a : TaskArtifact)
  : ArtifactRecord :=
  {| art_artifact_id := rq_task_id r +:+ ":" +:+ step_id +:+ ":artifact-" +:+ show_nat (index + 1);
     art_task_id := rq_task_id r; art_trace_id := rq_trace_id r; art_step_id := Some step_id;
     art_route_key := src_route_key (rq_source r);
     art_artifact_kind := artifact_kind_from_name (ta_kind a); art_label := ta_label a;
     art_mime_type := ta_mime_type a; art_media_asset_id := ta_media_asset_id a;
     art_path := ta_path a; art_url := ta_url a;
     art_metadata := (ta_metadata a : @Value jv_json) |}.

Definition build_artifact_records (r : TaskRequest) (step_id : string) (l : list TaskArtifact)
  : list ArtifactRecord :=
  imap (artifact_record r step_id) l.

(** An event as it is stored; [now] is the clock for an event without a time. *)
Definition event_record (now : Z) (r : TaskRequest) (step_id : string) (ev : EventRecord)
  : EventRecord :=
  let occurred := default (timestamp now) (ev_occurred_at ev) in
  {| ev_event_id := ev_event_id ev;
     ev_workspace_id := if is_blank (ev_workspace_id ev) then workspace_id_for_request r
                        else ev_workspace_id ev;
     ev_source_kind := ev_source_kind ev;
     ev_source_id := if is_blank (ev_source_id ev) then rq_task_id r else ev_source_id ev;
     ev_event_type := ev_event_type ev; ev_severity := ev_severity ev;
     ev_payload := ev_payload ev;
     ev_correlation_id := match ev_correlation_id ev with
                          | Some c => Some c
                          | None => if is_blank (rq_trace_id r) then None else Some (rq_trace_id r)
                          end;
     ev_causation_id := Some (default step_id (ev_causation_id ev));
     ev_occurred_at := Some occurred;
     ev_ingested_at := Some (default occurred (ev_ingested_at ev)) |}.

Definition build_event_records (e : Env) (r : TaskRequest) (step_id : string) (l : list jv)
  : list EventRecord :=
  imap (fun i ev => event_record (clock e i) r step_id ev)
    (omap (fun v : jv => res_ok (from_value (A := EventRecord) (v : @Value jv_json))) l).

Definition finished_run (r : TaskRequest) (tr : TaskRuntimeTracking) (x : TaskResponse)
    (finished_at : string) (old : option TaskRun) : TaskRun :=
  tracked_run r tr (task_run_status_from_response (rs_status x)) (rs_risk_level x)
    (task_run_completed_at (rs_status x) finished_at) old.

Definition finished_step (r : TaskRequest) (tr : TaskRuntimeTracking) (x : TaskResponse)
    (finished_at : string) (old : option TaskStepRun) : TaskStepRun :=
  tracked_step r tr (step_identity r x).1 (step_identity r x).2
    (execution_route_for_executor (rs_executor_used x)) (rs_executor_used x)
    (task_step_status_from_response (rs_status x)) (build_step_output_payload x)
    match rs_status x with
    | TaskFailed => Some (default (rs_executor_used x +:+ "_failed") (response_error_code x))
    | _ => None
    end
    match rs_status x with TaskFailed => Some (en_message (rs_result x)) | _ => None end
    (Some (rs_audit_ref x)) (Some finished_at) old.

Definition finish_task_tracking (e : Env) (r : TaskRequest) (x : TaskResponse)
    (tr : TaskRuntimeTracking) : M string unit :=
  let finished_at := timestamp (clock e 0) in
  old <-! asking (load_task_run store (rq_task_id r) (ios e 0));
  _ <-! save_task_run store (finished_run r tr x finished_at old) (ios e 1);
  old <-! asking (load_task_step store (tk_step_id tr) (ios e 2));
  _ <-! save_task_step store (finished_step r tr x finished_at old) (ios e 3);
  _ <-! replace_artifacts_for_step store (rq_task_id r) (Some (tk_step_id tr))
          (build_artifact_records r (tk_step_id tr) (en_artifacts (rs_result x))) (ios e 4);
  _ <-! replace_events_for_step store (rq_task_id r) (Some (tk_step_id tr))
          (build_event_records (later 1 e) r (tk_step_id tr) (en_events (rs_result x))) (ios e 5);
  fun d => save_session store (build_session_record (later 6 e) r tr (rs_resume_token x) d)
             (ios e 8) d.

Definition append_task_lifecycle_event (e : Env) (r : TaskRequest) (tr : TaskRuntimeTracking)
    (x : TaskResponse) : TaskResponse :=
  let '(event_type, severity) :=
    match rs_status x with
    | Completed => ("task.completed", SeverityInfo)
    | NeedsInput => ("task.needs_input", SeverityWarning)
    | TaskFailed => ("task.failed", SeverityError)
    end in
  set_events_of (en_events (rs_result x) ++
    [serialize_event_record
       (build_task_event_record (uuid e 0) (clock e 0) r (tk_step_id tr) event_type severity
         (json_object
           [("executor_used", JStr (rs_executor_used x)); ("risk_level", risk_value (rs_risk_level x));
            ("message", JStr (en_message (rs_result x)));
            ("missing_fields", JArr (JStr <$> rs_missing_fields x));
            ("continuation_token", json_option JStr (rs_resume_token x));
            ("audit_ref", JStr (rs_audit_ref x))]))]) x.

(** * Replay *)

Inductive TaskRequestAcceptance :=
| Accept
| Replay (x : TaskResponse)
| Conflict (message : string).

(** A string of the run's metadata, unless it is blank. *)
Definition metadata_text (run : TaskRun) (field : string) : option string :=
  (pointer [field] (run_metadata run) ≫= jv_str)
    ≫= (fun s => if is_blank s then None else Some s).

Definition opt_eqb (a b : option string) : bool := bool_decide (a = b).

Definition replay_task_response (e : Env) (run : TaskRun) (d : Disk Text)
  : result string TaskResponse :=
  let trace_id := default (run_task_id run) (metadata_text run "trace_id") in
  let step_id := metadata_text run "step_id" in
  let of_step (id : option string) := bool_decide (step_id = None) || opt_eqb id step_id in
  match (match step_id with
         | Some s => load_task_step store s (ios e 0) d
         | None => Ok None
         end) with
  | Err err => Err err
  | Ok step =>
  match artifacts_for_task store (run_task_id run) (ios e 1) d with
  | Err err => Err err
  | Ok artifacts =>
  match events_for_task store (run_task_id run) (ios e 2) d with
  | Err err => Err err
  | Ok events =>
      let '(executor_used, audit_ref, output) :=
        match step with
        | Some s => (step_executor_used s, default "" (step_audit_ref s), step_output_payload s : jv)
        | None => ("task_api_dispatch", "", JNull)
        end in
      Ok {| rs_task_id := run_task_id run; rs_trace_id := trace_id;
            rs_status := task_status_from_task_run_status (run_status run);
            rs_executor_used := executor_used; rs_risk_level := run_risk_level run;
            rs_result :=
              {| en_message := default "" (string_at_paths output [["message"]]);
                 en_data := default (json_object []) (pointer ["data"] output);
                 en_artifacts := task_artifact_from_record <$>
                   List.filter (fun a => of_step (art_step_id a)) artifacts;
                 en_events := serialize_event_record <$>
                   List.filter (fun ev => of_step (ev_causation_id ev)) events;
                 en_next_actions := string_vec_at_paths output [["next_actions"]] |};
            rs_audit_ref := audit_ref;
            rs_missing_fields := string_vec_at_paths output [["missing_fields"]];
            rs_prompt := string_at_paths output [["prompt"]];
            rs_resume_token :=
              string_at_paths output [[CONTINUATION_TOKEN_KEY]; [LEGACY_RESUME_TOKEN_KEY]] |}
  end end end.

Definition accept_or_replay_task (e : Env) (r : TaskRequest) (d : Disk Text)
  : result string TaskRequestAcceptance :=
  if is_blank (rq_task_id r) then Ok Accept else
  match load_task_run store (rq_task_id r) (ios e 0) d with
  | Err err => Err err
  | Ok None => Ok Accept
  | Ok (Some run) =>
      if bool_decide (persisted_task_request_identity run = task_request_identity r)
      then Replay <$> replay_task_response (later 1 e) run d
      else Ok (Conflict "task_id already exists with a different request identity")
  end.

(** * Decisions on approvals *)

Definition load_approval_context (e : Env) (approval_id : string) (d : Disk Text)
  : result string (ApprovalTicket * TaskRun * option ConversationSession) :=
  match load_approval store approval_id (ios e 0) d with
  | Err err => Err err
  | Ok None => Err ("approval not found: " +:+ approval_id)
  | Ok (Some approval) =>
      match load_task_run store (ap_task_id approval) (ios e 1) d with
      | Err err => Err err
      | Ok None => Err ("task run not found for approval: " +:+ ap_task_id approval)
      | Ok (Some run) =>
          if is_blank (run_session_id run) then Ok (approval, run, None)
          else match load_session store (run_session_id run) (ios e 2) d with
               | Err err => Err err
               | Ok session => Ok (approval, run, session)
               end
      end
  end.

Record TaskApprovalSummary := {
  sum_approval_ticket : ApprovalTicket;
  sum_source_channel : string;
  sum_surface : string;
  sum_conversation_id : string;
  sum_user_id : string;
  sum_session_id : string;
  sum_domain : string;
  sum_action : string;
  sum_intent_text : string;
  sum_autonomy_level : string;
  sum_risk_level : RiskLevel
}.

(** The surface, conversation and user an approval concerns: the session's, or
    what the run and the ticket say. *)
Definition surface_of (run : TaskRun) (session : option ConversationSession) : string :=
  default (default "task_api" (pointer ["surface"] (run_metadata run) ≫= jv_str))
    (cs_surface <$> session).

Definition conversation_of (session : option ConversationSession) : string :=
  default "" (cs_conversation_id <$> session).

Definition user_of (approval : ApprovalTicket) (session : option ConversationSession) : string :=
  default (ap_requester_user_id approval) (cs_user_id <$> session).

Definition build_approval_summary (approval : ApprovalTicket) (run : TaskRun)
    (session : option ConversationSession) : TaskApprovalSummary :=
  {| sum_approval_ticket := approval; sum_source_channel := run_source_channel run;
     sum_surface := surface_of run session; sum_conversation_id := conversation_of session;
     sum_user_id := user_of approval session; sum_session_id := run_session_id run;
     sum_domain := run_domain run; sum_action := run_action run;
     sum_intent_text := run_intent_text run;
     sum_autonomy_level := normalize_task_autonomy_level (run_autonomy_level run);
     sum_risk_level := run_risk_level run |}.

Definition load_approval_summary (e : Env) (approval : ApprovalTicket) (d : Disk Text)
  : result string TaskApprovalSummary :=
  match load_task_run store (ap_task_id approval) (ios e 0) d with
  | Err err => Err err
  | Ok None => Err ("task run not found for approval: " +:+ ap_task_id approval)
  | Ok (Some run) =>
      if is_blank (run_session_id run) then Ok (build_approval_summary approval run None)
      else match load_session store (run_session_id run) (ios e 1) d with
           | Err err => Err err
           | Ok session => Ok (build_approval_summary approval run session)
           end
  end.

(** The object a value is, or an empty one. *)
Definition entries_or_empty (v : jv) : list (string * jv) :=
  match v with JObj l => l | _ => [] end.

Definition inject_approval_args (args : jv) (approval_id : string) (approver : option string) : jv :=
  let object := entries_or_empty args in
  let approval := default [] (entries_or_empty <$> entry "approval" object) in
  let approval := obj_insert "token" (JStr approval_id) approval in
  let approval := match approver with
                  | Some u => obj_insert "approver_id" (JStr u) approval
                  | None => approval
                  end in
  JObj (obj_insert "approval" (JObj approval) object).

Definition approval_resume_step_id (approval_id : string) : string :=
  "approval:" +:+ approval_id +:+ ":resume".
Definition approval_event_step_id (approval_id : string) : string :=
  "approval:" +:+ approval_id +:+ ":event".

(** The first of the session's and the run's route key that is not blank. *)
Definition source_route_key_from_context (run : TaskRun) (session : option ConversationSession)
  : string :=
  match session ≫= (fun s => non_blank (cs_route_key s)) with
  | Some k => k
  | None => default "" (trimmed_at ["route_key"] (run_metadata run))
  end.

(** The request of a run, resumed under another step, with other arguments. *)
Definition request_of_run (approval : ApprovalTicket) (run : TaskRun)
    (session : option ConversationSession) (trace_id step_id surface : string) (args : jv)
  : TaskRequest :=
  {| rq_task_id := run_task_id run; rq_trace_id := trace_id; rq_step_id := step_id;
     rq_source :=
       {| src_channel := run_source_channel run; src_surface := surface;
          src_conversation_id := conversation_of session; src_user_id := user_of approval session;
          src_session_id := run_session_id run;
          src_route_key := source_route_key_from_context run session |};
     rq_intent := {| int_domain := run_domain run; int_action := run_action run;
                     int_raw_text := run_intent_text run |};
     rq_entity_refs := run_entity_refs run; rq_args := args;
     rq_autonomy_level := normalize_task_autonomy_level (run_autonomy_level run);
     rq_message := None |}.

Definition build_approval_resume_request (approval : ApprovalTicket) (run : TaskRun)
    (session : option ConversationSession) (approver : option string) : TaskRequest :=
  let surface :=
    match session ≫= (fun s => non_blank (cs_surface s)) with
    | Some s => s
    | None => default "task_api" (trimmed_at ["surface"] (run_metadata run))
    end in
  request_of_run approval run session (default (run_task_id run) (metadata_text run "trace_id"))
    (approval_resume_step_id (ap_approval_id approval)) surface
    (inject_approval_args (run_args run) (ap_approval_id approval) approver).

Definition record_approval_decision_event (e : Env) (approval : ApprovalTicket) (run : TaskRun)
    (session : option ConversationSession) (event_type : string) (severity : EventSeverity)
    (approver : option string) : M string unit :=
  let step_id := approval_event_step_id (ap_approval_id approval) in
  let trace_id := default (run_task_id run) (pointer ["trace_id"] (run_metadata run) ≫= jv_str) in
  let r := request_of_run approval run session trace_id step_id (surface_of run session)
             (run_args run) in
  let event := build_task_event_record (uuid e 0) (clock e 0) r step_id event_type severity
    (json_object [("approval_ticket", ticket_value approval);
                  ("approver_user_id", json_option JStr approver);
                  ("policy_ref", JStr (ap_policy_ref approval))]) in
  replace_events_for_step store (run_task_id run) (Some step_id) [event] (ios e 0).

Definition not_pending {A} (approval : ApprovalTicket) : M string A :=
  merr ("approval is not pending: " +:+ ap_approval_id approval).

Definition reject_pending_approval (e : Env) (approval_id : string) (approver : option string)
  : M string TaskApprovalSummary :=
  ctx <-! asking (load_approval_context e approval_id);
  let '(approval, run, session) := ctx in
  if negb (is_pending approval) then not_pending approval else
  let decided_at := Some (timestamp (clock e 0)) in
  updated <-! update_approval_status store approval_id ApprovalRejected approver decided_at (ios e 3);
  match updated with
  | None => merr ("approval not found: " +:+ approval_id)
  | Some updated =>
      let run := {| run_task_id := run_task_id run; run_workspace_id := run_workspace_id run;
                    run_session_id := run_session_id run;
                    run_source_channel := run_source_channel run; run_domain := run_domain run;
                    run_action := run_action run; run_intent_text := run_intent_text run;
                    run_entity_refs := run_entity_refs run; run_args := run_args run;
                    run_autonomy_level := run_autonomy_level run; run_status := RunFailed;
                    run_risk_level := run_risk_level run;
                    run_requires_approval := run_requires_approval run;
                    run_started_at := run_started_at run; run_completed_at := decided_at;
                    run_metadata := run_metadata run |} in
      _ <-! save_task_run store run (ios e 4);
      _ <-! match session with
            | Some s => save_session store (set_cs_resume_token None s) (ios e 5)
            | None => mret tt
            end;
      _ <-! record_approval_decision_event (later 6 e) updated run session
              "task.approval_rejected" SeverityWarning approver;
      asking (load_approval_summary (later 7 e) updated)
  end.

(** * Dispatch *)

Context {W : Type}.

(** What a handler does to the outside world and the file. *)
Definition Handler : Type := Env -> TaskRequest -> W -> Disk Text -> W * Disk Text * TaskResponse.

(** The handlers whose work is outside the parts modelled, and the record the
    admin store keeps of the surface a member used. *)
Record Handlers := {
  knowledge_search : Handler;
  rag_answer : Handler;
  general_message : Handler;
  camera_scan : Handler;
  camera_connect : Handler;
  camera_snapshot : Handler;
  camera_share_link : Handler;
  camera_analyze : Handler;
  record_surface : string -> string -> option string -> W -> W
}.

(** [HarborExecutorConfig::from_env] and [register_harbor_executors]. *)
Context (harbor_router : result string (Router W)).

Definition harbor_response_from_execution (e : Env) (r : TaskRequest) (a : Action)
    (x : ExecutionResult) : TaskResponse :=
  let data := json_object
    [("domain", JStr (domain a)); ("operation", JStr (operation a)); ("resource", resource a : jv);
     ("executor_used", JStr (executor_used x)); ("route_fallback_used", JBool (fallback_used x));
     ("duration_ms", JNum (duration_ms x));
     ("preview", JBool (harbor_execution_is_preview (result_payload x)));
     ("result", result_payload x : jv); ("error_code", json_option JStr (error_code x));
     ("error_message", json_option JStr (error_message x))] in
  let '(status, event_type, severity, message) :=
    if result_ok x then
      (Completed, "task.harboros_dispatched", SeverityInfo,
       "HarborOS " +:+ domain a +:+ "." +:+ operation a +:+ " 已通过 " +:+ executor_used x +:+ " 执行")
    else
      (TaskFailed, "task.harboros_failed", SeverityError,
       "HarborOS " +:+ domain a +:+ "." +:+ operation a +:+ " 执行失败: "
         +:+ default "unknown error" (error_message x)) in
  let event := serialize_event_record
    (build_task_event_record (uuid e 0) (clock e 0) r (step_id_for_request r) event_type severity data) in
  {| rs_task_id := rq_task_id r; rs_trace_id := rq_trace_id r; rs_status := status;
     rs_executor_used := executor_used x; rs_risk_level := risk_level a;
     rs_result := {| en_message := message; en_data := data; en_artifacts := [];
                     en_events := [event]; en_next_actions := [] |};
     rs_audit_ref := default (audit_ref_of (uuid e 1)) (non_blank (audit_ref x));
     rs_missing_fields := []; rs_prompt := None; rs_resume_token := None |}.

Definition handle_harbor_system_action : Handler := fun e r w d =>
  match build_harbor_action_from_request r with
  | Err error => (w, d, failed (uuid e 0) r "harboros_router" (expected_risk_level r) error)
  | Ok a =>
      match ensure_action_allowed e r a "harboros_router" d with
      | (d, Err response) => (w, d, response)
      | (d, Ok _) =>
          match harbor_router with
          | Err error =>
              let data := json_object
                [("domain", JStr (domain a)); ("operation", JStr (operation a));
                 ("resource", resource a : jv); ("executor_used", JStr "harboros_router");
                 ("route_fallback_used", JBool false);
                 ("error_code", JStr "EXECUTOR_CONFIG_ERROR"); ("error_message", JStr error)] in
              let event := serialize_event_record
                (build_task_event_record (uuid e 3) (clock e 2) r (step_id_for_request r)
                  "task.harboros_failed" SeverityError data) in
              (w, d, failed_with_context (uuid e 4) r "harboros_router" (risk_level a)
                       ("HarborOS executor configuration error: " +:+ error) data [event])
          | Ok rt =>
              let '(w, x) := router_execute rt a (rq_task_id r) (step_id_for_request r) w in
              (w, d, harbor_response_from_execution (later 3 e) r a x)
          end
      end
  end.

Context (handlers : Handlers).

Definition dispatch : Handler := fun e r =>
  let domain := to_lowercase (trim (int_domain (rq_intent r))) in
  let action := to_lowercase (trim (int_action (rq_intent r))) in
  if (domain =? "knowledge") && (action =? "search") then knowledge_search handlers e r
  else if ((domain =? "rag") && (action =? "answer")) || (action =? "rag.answer") then
    rag_answer handlers e r
  else if (domain =? "general") && (action =? "message") then general_message handlers e r
  else if is_supported_harbor_task domain action then handle_harbor_system_action e r
  else if (domain =? "camera") && (action =? "scan") then camera_scan handlers e r
  else if (domain =? "camera") && (action =? "connect") then camera_connect handlers e r
  else if (domain =? "camera") && (action =? "snapshot") then camera_snapshot handlers e r
  else if (domain =? "camera") && ((action =? "share_link") || (action =? "live_view")) then
    camera_share_link handlers e r
  else if (domain =? "camera") && (action =? "analyze") then camera_analyze handlers e r
  else fun w d => (w, d, failed (uuid e 0) r "task_api" Low
                    ("unsupported task action: " +:+ domain +:+ "." +:+ action)).

(** The request with the identifiers it may lack. *)
Definition identified (e : Env) (r : TaskRequest) : TaskRequest :=
  let task_id := if is_blank (rq_task_id r) then uuid e 0 else rq_task_id r in
  {| rq_task_id := task_id;
     rq_trace_id := if is_blank (rq_trace_id r) then task_id else rq_trace_id r;
     rq_step_id := rq_step_id r; rq_source := rq_source r; rq_intent := rq_intent r;
     rq_entity_refs := rq_entity_refs r; rq_args := rq_args r;
     rq_autonomy_level := rq_autonomy_level r; rq_message := rq_message r |}.

(** [handle_task]. A handler's own calls come after those of the methods around
    it: they are given the environment [hd e], which is no other call's. *)
Definition handle_task (hd : Env -> Env) : Handler := fun e r w d =>
  let r := identified e r in
  let w := record_surface handlers (src_user_id (rq_source r)) (src_channel (rq_source r))
             (Some (src_route_key (rq_source r))) w in
  let '(d, tr) := begin_task_tracking (later 1 e) r d in
  let '(w, d, x) := dispatch (hd e) r w d in
  let x := append_task_lifecycle_event (later 8 e) r tr x in
  let d := (finish_task_tracking (later 9 e) r x tr d).1 in
  (w, d, x).

Definition approve_pending_approval (hd : Env -> Env) (e : Env) (approval_id : string)
    (approver : option string) (w : W) (d : Disk Text)
  : W * Disk Text * result string (TaskApprovalSummary * TaskResponse) :=
  match load_approval_context e approval_id d with
  | Err err => (w, d, Err err)
  | Ok (approval, run, session) =>
      if negb (is_pending approval)
      then (w, d, Err ("approval is not pending: " +:+ ap_approval_id approval))
      else
        let r := build_approval_resume_request approval run session approver in
        let '(w, d, response) := handle_task hd (later 3 e) r w d in
        let '(d, x) :=
          (updated <-! asking (load_approval store approval_id (ios e 24));
           let updated := default approval updated in
           _ <-! record_approval_decision_event (later 25 e) updated run session
                   "task.approval_approved" SeverityInfo approver;
           asking (load_approval_summary (later 26 e) updated)) d in
        (w, d, (fun s => (s, response)) <$> x)
  end.
End service.
