(* ===== verification/TaskGateTheorems.v ===== *)
(** The approval gate of the task service: what opens it, what it does to the
    store, and that a HarborOS action reaches an executor only through it. *)
From S2P Require Import Prelude RustString Json Contracts Policy Approval Runtime.
From S2P Require Import TaskRecords Conversation TaskStore TaskStoreTheorems TaskStoreQueries.
From S2P Require Import TaskRequests TaskApi.
Local Open Scope string_scope.
Local Open Scope list_scope.

#[local] Existing Instance jv_json.

Section gate.
Context `{!UnicodeLower} `{!HashOrder}.
Context `{!Codec PendingTaskCandidate} `{!Codec PendingTaskConnect}
  `{!Codec PendingTaskClipConfirmation} `{!Codec PendingTaskGeneralMessageLoop}
  `{!Codec TaskConversationState} `{!Codec TaskSessionStateEnvelope}.
Context `{!Codec EventRecord} `{!Codec Action} `{!Codec ExecutionResult}.
Context {Text : Type} `{!FileCodec Text} (store : TaskConversationStore).

(** * Operations of the store that cannot fail *)

(** No system call fails, and every file can be serialised. *)
Definition calm (e : Env (Text := Text)) : Prop := forall n, ios e n = io_ok.
Definition writable : Prop := forall f, exists t : Text, to_string_pretty f = Ok t.

Lemma update_run {A} (g : TaskConversationFile -> result string (option TaskConversationFile * A))
    d f f' a :
  writable -> holds d f -> g f = Ok (Some f', a) ->
  exists d', update store g io_ok d = (d', Ok a) /\ holds d' f'.
Proof.
  intros Hw Hd Hg. destruct (Hw f') as [t Ht]. exists (Some t).
  unfold update. rewrite (holds_load store d f Hd), Hg. unfold save_file. cbn.
  rewrite Ht. destruct (parent store); (split; [done|]); by apply from_to_string.
Qed.

Lemma insert_run g d f :
  writable -> holds d f ->
  exists d', insert_with store g io_ok d = (d', Ok tt) /\ holds d' (g f).
Proof. intros Hw Hd. by apply (update_run _ d f). Qed.

(** * What opens the gate *)

(** The first pending ticket of a task in a file, and the one the gate sees. *)
Definition first_pending (f : TaskConversationFile) (task : string) : option ApprovalTicket :=
  list_find is_pending (sort_by approval_cmp
    (List.filter (fun a => (ap_task_id a =? task)) (values (approvals f)))).

Definition seen_pending (e : Env) (r : TaskRequest) (d : Disk Text) : option ApprovalTicket :=
  list_find is_pending (default [] (res_ok (approvals_for_task store (rq_task_id r) (ios e 0) d))).

Lemma seen_holds e r d f : calm e -> holds d f -> seen_pending e r d = first_pending f (rq_task_id r).
Proof.
  intros He Hd. unfold seen_pending, approvals_for_task. by rewrite He, (query_holds store _ d f Hd).
Qed.

(** What the request's autonomy and the policy ask, approval apart. *)
Record permitted (r : TaskRequest) (a : Action) : Prop := {
  permitted_risk : effective_autonomy_level r = ReadOnly -> effective_risk_level a = Low;
  permitted_operation : supported a;
  permitted_service : domain a = "service" ->
    exists s, value_get (resource a) "service_name" ≫= as_str = Some s /\ safe_service_name s
}.

Record allowed (r : TaskRequest) (a : Action) (pending : option ApprovalTicket) : Prop := {
  allowed_permitted : permitted r a;
  allowed_token : action_requires_approval a = true ->
    exists t, request_approval_token r = Some t
      /\ forall p, pending = Some p -> ap_approval_id p = t
}.

Lemma context_valid r pending :
  valid_approval (approval_context_for_request r pending) <->
  exists t, request_approval_token r = Some t /\ forall p, pending = Some p -> ap_approval_id p = t.
Proof.
  unfold valid_approval, approval_context_for_request.
  destruct (request_approval_token r) as [t|]; [|split].
  - split.
    + intros (ctx & t' & [= <-] & [= <-] & Hr). exists t. split; [done|].
      intros p ->. cbn in Hr. destruct Hr as [Hr|Hr]; [done|]. by injection Hr.
    + intros (t' & [= <-] & Hp). eexists _, t. split; [done|]. split; [done|].
      destruct pending as [p|]; [right; cbn; by rewrite (Hp p eq_refl)|by left].
  - destruct pending, (request_approver_id r); cbn; intros (ctx & t & Hc & Ht & _); try done;
      injection Hc as <-; done.
  - by intros (t & Ht & _).
Qed.

Lemma risk_allowed_iff l risk :
  risk_allowed (approval_manager_for_level l) risk = true <-> (l = ReadOnly -> risk = Low).
Proof. destruct l, risk; cbn; split; try done; intros Hx; discriminate (Hx eq_refl). Qed.

Lemma allowed_iff r a pending :
  allowed r a pending <->
  risk_allowed (approval_manager_for_level (effective_autonomy_level r)) (effective_risk_level a) = true
  /\ enforce a (approval_context_for_request r pending) = Ok tt.
Proof.
  rewrite risk_allowed_iff, enforce_ok_iff, context_valid. split.
  - intros [[] ?]. naive_solver.
  - intros (Hr & Ho & Hn & Ht). split; [by split|done].
Qed.

Lemma gate_result e r a ex d :
  is_ok (ensure_action_allowed store e r a ex d).2 = true <-> allowed r a (seen_pending e r d).
Proof.
  rewrite allowed_iff. unfold ensure_action_allowed.
  destruct (risk_allowed _ _); cbn [negb]; [|naive_solver].
  fold (seen_pending e r d).
  destruct (enforce a _) as [[]|v]; cbn; [|naive_solver].
  by destruct (_ && _).
Qed.

(** C18. The gate passes a request's action exactly when the request's autonomy
    allows the action's risk (read-only: the lowest only), the policy supports the
    action, a service action names a safe service, and an action that needs
    approval comes with a token: the identifier of the task's pending ticket, or
    any token when the gate sees none. *)
Theorem gate_opens_iff e r a ex d :
  (exists d', ensure_action_allowed store e r a ex d = (d', Ok tt))
  <-> allowed r a (seen_pending e r d).
Proof.
  rewrite <-(gate_result e r a ex d).
  destruct (ensure_action_allowed store e r a ex d) as [d' [[]|x]]; cbn; naive_solver.
Qed.

(** * Pending tickets *)

Lemma first_pending_some f task p :
  keyed f -> first_pending f task = Some p ->
  approvals f !! ap_approval_id p = Some p /\ is_pending_of task p = true.
Proof.
  intros Hf (Hp & Hpend)%list_find_some. apply elem_of_sort_by in Hp.
  apply elem_of_list_filter in Hp as [Hp Ht]. rewrite (keyed_values ap_approval_id) in Hp by apply Hf.
  split; [done|]. unfold is_pending_of. by rewrite Ht.
Qed.

Lemma first_pending_none f task :
  keyed f -> first_pending f task = None <->
  forall k a, approvals f !! k = Some a -> is_pending_of task a = false.
Proof.
  intros Hf. unfold first_pending. rewrite list_find_none. split.
  - intros Hn k a Ha. unfold is_pending_of. destruct (ap_task_id a =? task) eqn:Et; [|done].
    apply Hn. apply elem_of_sort_by, elem_of_list_filter. split; [|done].
    apply elem_of_values. by exists k.
  - intros Hn a Ha. apply elem_of_sort_by, elem_of_list_filter in Ha as [Ha Ht].
    apply elem_of_values in Ha as [k Hk]. specialize (Hn k a Hk). unfold is_pending_of in Hn.
    by rewrite Ht in Hn.
Qed.

Lemma first_pending_only f task p :
  keyed f -> approvals f !! ap_approval_id p = Some p -> is_pending_of task p = true ->
  (forall k a, approvals f !! k = Some a -> is_pending_of task a = true -> a = p) ->
  first_pending f task = Some p.
Proof.
  intros Hf Hp Ht Hu. destruct (first_pending f task) as [q|] eqn:E.
  - apply first_pending_some in E as [Hq Hqt]; [|done]. f_equal. by eapply Hu.
  - rewrite first_pending_none in E by done. by rewrite (E _ _ Hp) in Ht.
Qed.

(** A new ticket of a task without pending ones. *)
Lemma first_pending_put f task p :
  keyed f -> first_pending f task = None -> is_pending_of task p = true ->
  first_pending (put_approval p f) task = Some p.
Proof.
  intros Hf Hn Hp. rewrite first_pending_none in Hn by done. apply first_pending_only; [|cbn|done|].
  - apply keyed_set_approvals; [|done]. apply keyed_insert, Hf.
  - by rewrite lookup_insert_eq.
  - cbn. intros k a. rewrite lookup_insert_Some. intros [[_ <-]|[_ Ha]]; [done|].
    intros E. by rewrite (Hn k a Ha) in E.
Qed.

(** The file after a task's pending tickets are approved. *)
Definition approve_all (task : string) (approver at_time : option string)
    (f : TaskConversationFile) : TaskConversationFile :=
  set_approvals ((fun a => if is_pending_of task a
                           then decide_ticket ApprovalApproved approver at_time a else a)
                   <$> approvals f) f.

Lemma approve_all_keyed task u t f : keyed f -> keyed (approve_all task u t f).
Proof.
  intros Hf. apply keyed_set_approvals; [|done]. apply keyed_fmap; [|apply Hf].
  intros a. by destruct (is_pending_of task a).
Qed.

Lemma approve_all_settles task u t f : keyed f -> first_pending (approve_all task u t f) task = None.
Proof.
  intros Hf. apply first_pending_none; [by apply approve_all_keyed|]. intros k a. cbn.
  rewrite lookup_fmap_Some. intros (b & <- & _). destruct (is_pending_of task b) eqn:E; [|done].
  unfold is_pending_of, is_pending, decide_ticket. cbn. by rewrite andb_false_r.
Qed.

Lemma resolve_run task u t d f :
  writable -> holds d f ->
  exists d' l, resolve_pending_approvals store task u t io_ok d = (d', Ok l)
    /\ holds d' (approve_all task u t f).
Proof.
  intros Hw Hd. unfold resolve_pending_approvals.
  destruct (update_run (A := list ApprovalTicket) (fun f => Ok (Some (approve_all task u t f),
      decide_ticket ApprovalApproved u t <$> List.filter (is_pending_of task) (values (approvals f))))
    d f _ _ Hw Hd eq_refl) as (d' & Hu & Hd').
  by exists d', (decide_ticket ApprovalApproved u t <$> List.filter (is_pending_of task) (values (approvals f))).
Qed.

(** * What the gate does to the store *)

(** The file the gate leaves when it passes an action. *)
Definition passed_file (e : Env (Text := Text)) (r : TaskRequest) (a : Action)
    (f : TaskConversationFile) : TaskConversationFile :=
  if (action_requires_approval a || bool_decide (is_Some (first_pending f (rq_task_id r))))
     && bool_decide (is_Some (request_approval_token r))
  then approve_all (rq_task_id r) (request_approver_id r) (Some (timestamp (clock e 0))) f
  else f.

Lemma gate_passes e r a ex d f :
  calm e -> writable -> holds d f -> allowed r a (first_pending f (rq_task_id r)) ->
  exists d', ensure_action_allowed store e r a ex d = (d', Ok tt) /\ holds d' (passed_file e r a f).
Proof.
  intros He Hw Hd Ha. pose proof (seen_holds e r d f He Hd) as Hs.
  apply allowed_iff in Ha as [Hrisk Henf]. unfold ensure_action_allowed, passed_file.
  rewrite Hrisk. cbn [negb]. fold (seen_pending e r d). rewrite Hs, Henf.
  destruct (_ && _); [|by exists d].
  rewrite He. destruct (resolve_run (rq_task_id r) (request_approver_id r)
    (Some (timestamp (clock e 0))) d f Hw Hd) as (d' & l & Hu & Hd').
  exists d'. rewrite Hu. by split.
Qed.

Lemma gate_asks e r a ex d f v :
  calm e -> writable -> holds d f ->
  risk_allowed (approval_manager_for_level (effective_autonomy_level r)) (effective_risk_level a) = true ->
  let pending := first_pending f (rq_task_id r) in
  enforce a (approval_context_for_request r pending) = Err v ->
  let ticket := gate_ticket e r a v pending in
  is_blank (ap_approval_id ticket) = false ->
  exists d' x, ensure_action_allowed store e r a ex d = (d', Err x)
    /\ rs_status x = NeedsInput /\ rs_resume_token x = Some (ap_approval_id ticket)
    /\ holds d' (put_approval ticket f).
Proof.
  intros He Hw Hd Hrisk pending Henf ticket Hb. pose proof (seen_holds e r d f He Hd) as Hs.
  unfold ensure_action_allowed. rewrite Hrisk. cbn [negb]. fold (seen_pending e r d).
  rewrite Hs. fold pending. rewrite Henf. cbv zeta. fold ticket. rewrite He. unfold save_approval.
  rewrite Hb. edestruct (insert_run (put_approval ticket) d f) as (d' & Hu & Hd'); [done..|].
  rewrite Hu. eexists d', _. by split_and!.
Qed.

Lemma refused_without_token r a pending :
  permitted r a -> action_requires_approval a = true ->
  (forall t, request_approval_token r = Some t -> exists p, pending = Some p /\ ap_approval_id p <> t) ->
  risk_allowed (approval_manager_for_level (effective_autonomy_level r)) (effective_risk_level a) = true
  /\ exists v, enforce a (approval_context_for_request r pending) = Err v.
Proof.
  intros Hp Ha Ht. pose proof (proj2 (risk_allowed_iff _ _) (permitted_risk r a Hp)) as Hr.
  split; [done|]. destruct (enforce a _) as [[]|v] eqn:E; [|by exists v]. exfalso.
  assert (allowed r a pending) as [_ Hal] by (by apply allowed_iff).
  destruct (Hal Ha) as (t & Hrt & Hpt). destruct (Ht t Hrt) as (p & -> & Hne). by apply Hne, Hpt.
Qed.

(** The gate of a task whose only pending ticket is this one. *)
Lemma gate_with_ticket e r a ex d f ticket :
  calm e -> writable -> holds d (put_approval ticket f) -> keyed f ->
  permitted r a -> action_requires_approval a = true ->
  first_pending f (rq_task_id r) = None -> is_pending_of (rq_task_id r) ticket = true ->
  let id := ap_approval_id ticket in
  ((exists d2, ensure_action_allowed store e r a ex d = (d2, Ok tt))
   <-> request_approval_token r = Some id)
  /\ (request_approval_token r = Some id ->
      exists d2 f2, ensure_action_allowed store e r a ex d = (d2, Ok tt) /\ holds d2 f2
        /\ approvals f2 !! id = Some (decide_ticket ApprovalApproved
             (request_approver_id r) (Some (timestamp (clock e 0))) ticket)
        /\ first_pending f2 (rq_task_id r) = None
        /\ forall k, k <> id -> approvals f2 !! k = approvals f !! k).
Proof.
  intros He Hw Hd Hf Hp Ha Hn Hpend id.
  pose proof (first_pending_put f _ ticket Hf Hn Hpend) as Hfp.
  assert (request_approval_token r = Some id ->
    exists d2, ensure_action_allowed store e r a ex d = (d2, Ok tt)
      /\ holds d2 (passed_file e r a (put_approval ticket f))) as Hpass.
  { intros Hrt. apply gate_passes; [done..|]. rewrite Hfp. split; [done|]. intros _.
    exists id. split; [done|]. by intros p [= <-]. }
  split; [split|].
  - intros [d2 Hg]. assert (allowed r a (seen_pending e r d)) as [_ Hok].
    { apply (gate_result e r a ex d). by rewrite Hg. }
    rewrite (seen_holds e r d _ He Hd), Hfp in Hok. destruct (Hok Ha) as (t & -> & Hpt).
    f_equal. symmetry. by apply Hpt.
  - intros (d2 & Hg & _)%Hpass. by exists d2.
  - intros Hrt. destruct (Hpass Hrt) as (d2 & Hg & Hd2). eexists d2, _. do 2 (split; [done|]).
    unfold passed_file. rewrite Ha, Hrt. cbn [orb bool_decide andb]. split_and!.
    + cbn. rewrite lookup_fmap, lookup_insert_eq. cbn. by rewrite Hpend.
    + apply approve_all_settles, keyed_set_approvals; [|done]. apply keyed_insert, Hf.
    + intros k Hk. cbn. rewrite lookup_fmap, lookup_insert_ne by done.
      destruct (approvals f !! k) as [b|] eqn:Eb; cbn; [|done].
      rewrite first_pending_none in Hn by done. by rewrite (Hn k b Eb).
Qed.


(** * HarborOS actions *)

Section harbor.
Context {W : Type} (harbor_router : result string (Router W)).

(** C10. A HarborOS request changes the outside world only through the router,
    with the action its fields describe, and only if the gate allows the action:
    in particular a high-risk action only with an approval token. The response
    then reports the router's result. *)
Theorem harbor_action_gated e r w d w' d' x :
  handle_harbor_system_action store harbor_router e r w d = (w', d', x) -> w' <> w ->
  exists a rt y, build_harbor_action_from_request r = Ok a
    /\ allowed r a (seen_pending e r d)
    /\ (is_high (risk_level a) = true -> exists t, request_approval_token r = Some t)
    /\ harbor_router = Ok rt
    /\ router_execute rt a (rq_task_id r) (step_id_for_request r) w = (w', y)
    /\ rs_status x = if result_ok y then Completed else TaskFailed.
Proof.
  unfold handle_harbor_system_action.
  destruct (build_harbor_action_from_request r) as [a|]; [|by intros [= -> _ _]].
  destruct (ensure_action_allowed store e r a "harboros_router" d) as [d0 [[]|y]] eqn:Eg;
    [|by intros [= -> _ _]].
  destruct harbor_router as [rt|]; [|by intros [= -> _ _]].
  destruct (router_execute rt a _ _ w) as [w1 y] eqn:Er. intros [= -> _ <-] _.
  assert (allowed r a (seen_pending e r d)) as Hal by (apply (gate_result e r a "harboros_router" d); by rewrite Eg).
  exists a, rt, y. split_and!; try done.
  - intros Hh. destruct (allowed_token _ _ _ Hal) as (t & Ht & _); [|by exists t].
    unfold action_requires_approval. assert (is_high (effective_risk_level a) = true) as ->.
    { unfold effective_risk_level. by destruct (risk_level a). }
    by rewrite orb_true_r.
  - unfold harbor_response_from_execution. by destruct (result_ok y).
Qed.
End harbor.
End gate.
