(* ===== verification/TaskDecisionTheorems.v ===== *)
(** What rejecting an approval does, and what it does not. *)
From S2P Require Import Prelude RustString Json Contracts Policy Approval Runtime.
From S2P Require Import TaskRecords Conversation TaskStore TaskStoreTheorems TaskStoreQueries.
From S2P Require Import TaskRequests TaskApi TaskGateTheorems.
Local Open Scope string_scope.
Local Open Scope list_scope.

#[local] Existing Instance jv_json.

Section decisions.
Context `{!UnicodeLower} `{!HashOrder}.
Context `{!Codec PendingTaskCandidate} `{!Codec PendingTaskConnect}
  `{!Codec PendingTaskClipConfirmation} `{!Codec PendingTaskGeneralMessageLoop}
  `{!Codec TaskConversationState} `{!Codec TaskSessionStateEnvelope}.
Context `{!Codec EventRecord} `{!Codec Action} `{!Codec ExecutionResult}.
Context {Text : Type} `{!FileCodec Text} (store : TaskConversationStore).

Lemma mthen_ok {E A B} (m : M (Text := Text) E A) (k : A -> M E B) d d1 a :
  m d = (d1, Ok a) -> mthen m k d = k a d1.
Proof. unfold mthen. by intros ->. Qed.

Lemma calm_later e k : calm e -> calm (later (Text := Text) k e).
Proof. intros He n. apply He. Qed.

(** Saves that succeed, with the file they leave. *)
Lemma save_run_run r d f :
  writable -> holds d f -> is_blank (run_task_id r) = false ->
  exists d', save_task_run store r io_ok d = (d', Ok tt) /\ holds d' (put_task_run r f).
Proof. intros Hw Hd Hb. unfold save_task_run. rewrite Hb. by apply insert_run. Qed.

Lemma save_session_run s d f :
  writable -> holds d f -> is_blank (cs_session_id s) = false ->
  exists d', save_session store s io_ok d = (d', Ok tt) /\ holds d' (put_session s f).
Proof. intros Hw Hd Hb. unfold save_session. rewrite Hb. by apply insert_run. Qed.

Lemma update_approval_run id st u t d f p :
  writable -> holds d f -> approvals f !! id = Some p ->
  exists d', update_approval_status store id st u t io_ok d = (d', Ok (Some (decide_ticket st u t p)))
    /\ holds d' (set_approvals (<[id := decide_ticket st u t p]> (approvals f)) f).
Proof.
  intros Hw Hd Hp. unfold update_approval_status, update_record.
  by apply (update_run store _ d f); [..|rewrite Hp].
Qed.

(** A session's resume token is cleared, if there is a session. *)
Lemma clear_token_run session d f :
  writable -> holds d f -> (forall s, session = Some s -> is_blank (cs_session_id s) = false) ->
  exists d', (match session with
              | Some s => save_session store (set_cs_resume_token None s) io_ok
              | None => mret tt
              end) d = (d', Ok tt)
    /\ exists f', holds d' f' /\ approvals f' = approvals f /\ task_runs f' = task_runs f
      /\ sessions f' = match session with
                       | Some s => <[cs_session_id s := set_cs_resume_token None s]> (sessions f)
                       | None => sessions f
                       end.
Proof.
  intros Hw Hd Hs. destruct session as [s|]; [|exists d; split; [done|]; by exists f].
  destruct (save_session_run (set_cs_resume_token None s) d f Hw Hd (Hs s eq_refl)) as (d' & E & Hd').
  exists d'. split; [done|]. by exists (put_session (set_cs_resume_token None s) f).
Qed.

(** The events of a step, replaced by one with an identifier. *)
Definition with_event (task step : string) (ev : EventRecord) (f : TaskConversationFile)
  : TaskConversationFile :=
  set_events (<[ ev_event_id ev := ev ]>
    (retain (fun _ x => negb ((ev_source_id x =? task)
                              && opt_str_eqb (ev_causation_id x) (Some step))) (events f))) f.

Lemma replace_event_run task step ev d f :
  writable -> holds d f -> is_blank (ev_event_id ev) = false ->
  exists d', replace_events_for_step store task (Some step) [ev] io_ok d = (d', Ok tt)
    /\ holds d' (with_event task step ev f).
Proof.
  intros Hw Hd Hb. unfold replace_events_for_step.
  apply (update_run store _ d f); [done..|]. cbn [insert_all]. by rewrite Hb.
Qed.

(** The session a run belongs to, as [load_approval_context] finds it. *)
Definition run_session (f : TaskConversationFile) (run : TaskRun) : option ConversationSession :=
  if is_blank (run_session_id run) then None else sessions f !! run_session_id run.

Lemma context_holds e id d f p run :
  calm e -> holds d f -> approvals f !! id = Some p -> task_runs f !! ap_task_id p = Some run ->
  load_approval_context store e id d = Ok (p, run, run_session f run).
Proof.
  intros He Hd Hp Hr. unfold load_approval_context, load_approval, load_task_run, load_session.
  rewrite He, (query_holds store _ d f Hd), Hp. cbv beta iota. rewrite He, (query_holds store _ d f Hd), Hr.
  cbv beta iota. unfold run_session. destruct (is_blank _); [done|].
  by rewrite He, (query_holds store _ d f Hd).
Qed.

Lemma summary_holds e p run d f :
  calm e -> holds d f -> task_runs f !! ap_task_id p = Some run ->
  exists s, load_approval_summary store e p d = Ok s /\ sum_approval_ticket s = p.
Proof.
  intros He Hd Hr. unfold load_approval_summary, load_task_run, load_session.
  rewrite He, (query_holds store _ d f Hd), Hr. cbv beta iota.
  destruct (is_blank _); [eexists; by split|]. rewrite He, (query_holds store _ d f Hd). eexists; by split.
Qed.

(** What a rejection leaves of a file. *)
Record rejected (f f' : TaskConversationFile) (p : ApprovalTicket) (run : TaskRun)
    (approver : option string) (now : string) : Prop := {
  rej_approvals : approvals f' =
    <[ap_approval_id p := decide_ticket ApprovalRejected approver (Some now) p]> (approvals f);
  rej_run : exists run', task_runs f' = <[ap_task_id p := run']> (task_runs f)
    /\ run_status run' = RunFailed /\ run_completed_at run' = Some now;
  rej_sessions : sessions f' = match run_session f run with
    | Some s => <[cs_session_id s := set_cs_resume_token None s]> (sessions f)
    | None => sessions f
    end
}.

Lemma reject_run e id approver d f p run :
  calm e -> writable -> holds d f -> keyed f ->
  approvals f !! id = Some p -> is_pending p = true -> task_runs f !! ap_task_id p = Some run ->
  is_blank (ap_task_id p) = false -> is_blank (uuid e 6) = false ->
  exists d' f' s, reject_pending_approval store e id approver d = (d', Ok s) /\ holds d' f'
    /\ sum_approval_ticket s = decide_ticket ApprovalRejected approver (Some (timestamp (clock e 0))) p
    /\ rejected f f' p run approver (timestamp (clock e 0)).
Proof.
  intros He Hw Hd Hf Hp Hpend Hr Hbt Hbe. set (now := timestamp (clock e 0)).
  pose proof (k_approvals _ Hf _ _ Hp) as Hid. cbn in Hid.
  pose proof (k_task_runs _ Hf _ _ Hr) as Hrid. cbn in Hrid.
  unfold reject_pending_approval.
  erewrite mthen_ok by (unfold asking; by rewrite (context_holds e id d f p run)).
  cbv beta iota. rewrite Hpend. cbn [negb]. cbv zeta. fold now. rewrite He.
  destruct (update_approval_run id ApprovalRejected approver (Some now) d f p Hw Hd Hp) as (d1 & E1 & Hd1).
  rewrite (mthen_ok _ _ _ _ _ E1).
  match goal with |- context [save_task_run store ?r' _] => set (run' := r') end.
  rewrite He. destruct (save_run_run run' d1 _ Hw Hd1) as (d2 & E2 & Hd2); [cbn; by rewrite Hrid|].
  rewrite (mthen_ok _ _ _ _ _ E2).
  destruct (clear_token_run (run_session f run) d2 _ Hw Hd2) as (d3 & E3 & f3 & Hd3 & Ha3 & Hr3 & Hs3).
  { intros s. unfold run_session. destruct (is_blank (run_session_id run)) eqn:Eb; [done|].
    intros Es. by rewrite (k_sessions _ Hf _ _ Es). }
  rewrite He.
  rewrite (mthen_ok _ _ _ _ _ E3). unfold record_approval_decision_event. cbv zeta.
  change (ios (later 6 e) 0) with (ios e 6). rewrite He.
  match goal with |- context [replace_events_for_step store ?t (Some ?st) [?ev] _] =>
    destruct (replace_event_run t st ev d3 f3 Hw Hd3 Hbe) as (d4 & E4 & Hd4) end.
  rewrite (mthen_ok _ _ _ _ _ E4). unfold asking.
  destruct (summary_holds (later 7 e) (decide_ticket ApprovalRejected approver (Some now) p) run' d4 _
    (calm_later e 7 He) Hd4) as (s & Es & Hs).
  { cbn. rewrite Hr3. cbn. by rewrite Hrid, lookup_insert_eq. }
  exists d4. eexists _, s.
  rewrite Es. split; [done|]. split; [exact Hd4|]. split; [done|]. split; cbn.
  - by rewrite Ha3, Hid.
  - exists run'. rewrite Hr3. cbn. by rewrite Hrid.
  - by rewrite Hs3.
Qed.

(** The ticket is not pending any more, so deciding it again is refused. *)
Lemma decided_refused e id approver d f p run :
  calm e -> holds d f -> approvals f !! id = Some p -> is_pending p = false ->
  task_runs f !! ap_task_id p = Some run ->
  reject_pending_approval store e id approver d = (d, Err ("approval is not pending: " +:+ ap_approval_id p)).
Proof.
  intros He Hd Hp Hpend Hr. unfold reject_pending_approval.
  erewrite mthen_ok by (unfold asking; by rewrite (context_holds e id d f p run)).
  cbv beta iota. by rewrite Hpend.
Qed.

(** Rejecting a pending approval always succeeds when the store works: the
    ticket is rejected with the approver and the time, its run failed at that
    time, the session's continuation token cleared, and no other ticket, run or
    session changed; a second decision on it is refused and changes nothing.
    It does not close the gate for good: if no other ticket of the task is
    pending, any permitted action of the task passes with any token at all. *)
Theorem reject_decides e id approver d f p run :
  calm e -> writable -> holds d f -> keyed f ->
  approvals f !! id = Some p -> is_pending p = true -> task_runs f !! ap_task_id p = Some run ->
  is_blank (ap_task_id p) = false -> is_blank (uuid e 6) = false ->
  exists d' f' s, reject_pending_approval store e id approver d = (d', Ok s) /\ holds d' f'
    /\ sum_approval_ticket s = decide_ticket ApprovalRejected approver (Some (timestamp (clock e 0))) p
    /\ rejected f f' p run approver (timestamp (clock e 0))
    /\ (forall e2 u, calm e2 -> exists err, reject_pending_approval store e2 id u d' = (d', Err err))
    /\ ((forall k q, approvals f !! k = Some q -> is_pending_of (ap_task_id p) q = true -> k = id) ->
        forall e2 r a ex t, calm e2 -> rq_task_id r = ap_task_id p -> permitted r a ->
          request_approval_token r = Some t ->
          exists d2, ensure_action_allowed store e2 r a ex d' = (d2, Ok tt)).
Proof.
  intros He Hw Hd Hf Hp Hpend Hr Hbt Hbe.
  destruct (reject_run e id approver d f p run) as (d' & f' & s & E & Hd' & Hs & Hrej); [done..|].
  pose proof (k_approvals _ Hf _ _ Hp) as Hid. cbn in Hid.
  destruct Hrej as [Ha (run' & Hr' & Hst & Hco) Hss] eqn:Erej; clear Erej.
  exists d', f', s. do 4 (split; [done|]). split.
  - intros e2 u He2. eexists. eapply (decided_refused e2 id u d' f'
      (decide_ticket ApprovalRejected approver (Some (timestamp (clock e 0))) p) run'); try done.
    + by rewrite Ha, Hid, lookup_insert_eq.
    + cbn. by rewrite Hr', lookup_insert_eq.
  - intros Honly e2 r a ex t He2 Htask Hperm Ht.
    destruct (gate_passes store e2 r a ex d' f' He2 Hw Hd') as (d2 & Hg & _); [|by exists d2].
    split; [done|]. intros _. exists t. split; [done|]. intros q Hq. exfalso.
    unfold first_pending in Hq. apply list_find_some in Hq as [Hq Hqp].
    apply elem_of_sort_by, elem_of_list_filter in Hq as [Hq Hqt].
    apply elem_of_values in Hq as [k Hk]. rewrite Ha, Hid in Hk.
    apply lookup_insert_Some in Hk as [[_ <-]|[Hne Hk]]; [done|]. apply Hne. symmetry.
    eapply (Honly k q Hk). unfold is_pending_of. by rewrite <-Htask, Hqt, Hqp.
Qed.
End decisions.
