(* ===== verification/TaskReplayTheorems.v ===== *)
(** A finished task is remembered: replaying its request gives the response back,
    another request under its identifier is refused. *)
From S2P Require Import Prelude RustString Json Contracts Policy Approval Runtime.
From S2P Require Import TaskRecords Conversation TaskStore TaskStoreTheorems TaskStoreQueries.
From S2P Require Import TaskRequests TaskApi TaskGateTheorems TaskDecisionTheorems.
Local Open Scope string_scope.
Local Open Scope list_scope.

#[local] Existing Instance jv_json.

(** * Records replaced for a step *)

Section replace.
Context `{!HashOrder} {A : Type} (id : A -> string).

Lemma insert_all_outside err l m m' k :
  insert_all id err l m = Ok m' -> k ∉ id <$> l -> m' !! k = m !! k.
Proof.
  revert m. induction l as [|x l IH]; cbn; intros m; [by intros [= <-]|].
  destruct (is_blank (id x)); [done|]. intros Hm Hk%not_elem_of_cons.
  rewrite (IH _ Hm) by apply Hk. rewrite lookup_insert_ne; [done|]. apply not_eq_sym, Hk.
Qed.

Lemma insert_all_inside err l m m' x :
  NoDup (id <$> l) -> insert_all id err l m = Ok m' -> x ∈ l -> m' !! id x = Some x.
Proof.
  revert m. induction l as [|y l IH]; cbn; intros m; [by intros _ _ Hx%not_elem_of_nil|].
  intros [Hy Hl]%NoDup_cons. destruct (is_blank (id y)); [done|]. intros Hm [->|Hx]%elem_of_cons.
  - by rewrite (insert_all_outside _ _ _ _ _ Hm Hy), lookup_insert_eq.
  - by eapply IH.
Qed.

Lemma insert_all_total err l m :
  Forall (fun x => is_blank (id x) = false) l -> exists m', insert_all id err l m = Ok m'.
Proof.
  intros Hl. revert m. induction Hl as [|x l Hx Hl IH]; intros m; cbn; [by eexists|]. rewrite Hx. apply IH.
Qed.

(** If none of the records kept satisfies a test the new ones all satisfy, the
    records that satisfy it are the new ones. *)
Lemma replaced_values err l m m' p :
  keyed_map id m -> NoDup (id <$> l) -> insert_all id err l m = Ok m' ->
  Forall (fun x => p x = true) l -> (forall k x, m !! k = Some x -> p x = false) ->
  List.filter p (values m') ≡ₚ l.
Proof.
  intros Hk Hn Hm Hl Hp. pose proof (keyed_insert_all _ _ _ _ _ Hk Hm) as Hk'.
  apply NoDup_Permutation.
  - apply (NoDup_fmap_1 id), NoDup_filter_fmap. by apply keyed_values_nodup.
  - by apply (NoDup_fmap_1 id).
  - intros x. rewrite elem_of_list_filter, (keyed_values id) by done. split.
    + intros [Hx Hpx]. destruct (decide (id x ∈ id <$> l)) as [Hi|Hi].
      * apply list_elem_of_fmap in Hi as (y & E & Hy).
        rewrite E, (insert_all_inside _ _ _ _ _ Hn Hm Hy) in Hx. by injection Hx as <-.
      * rewrite (insert_all_outside _ _ _ _ _ Hm Hi) in Hx. by rewrite (Hp _ _ Hx) in Hpx.
    + intros Hx. split; [by eapply insert_all_inside|]. rewrite Forall_forall in Hl. by apply Hl.
Qed.
End replace.

(** A listing that filters and sorts gives the sorted new records. *)
Lemma filter_sorted {A} (R : A -> A -> Prop) (p : A -> bool) l :
  StronglySorted R l -> StronglySorted R (List.filter p l).
Proof.
  induction 1 as [|x l Hl IH Hx]; cbn; [constructor|]. destruct (p x); [|done].
  constructor; [done|]. apply Forall_forall. intros y [Hy _]%elem_of_list_filter.
  rewrite Forall_forall in Hx. by apply Hx.
Qed.

Lemma filter_sort_eq {A} (id : A -> string) (cmp : A -> A -> comparison) `{!TotalCmp cmp} p l l' :
  List.filter p l ≡ₚ l' -> NoDup (id <$> l') -> (forall x y, cmp x y = Eq -> id x = id y) ->
  List.filter p (sort_by cmp l) = sort_by cmp l'.
Proof.
  intros Hp Hn Hc. rewrite <-(sort_by_id cmp (List.filter p _)) by (by apply filter_sorted, sort_by_sorted).
  apply sort_by_perm_eq; [done| |].
  - assert (List.filter p (sort_by cmp l) ≡ₚ l') as E.
    { rewrite <-Hp. apply list_filter_perm, sort_by_perm. }
    intros x y Hx Hy Hxy%Hc. rewrite E in Hx, Hy. by eapply NoDup_fmap_inj.
  - rewrite <-Hp. apply list_filter_perm, sort_by_perm.
Qed.

Lemma filter_filter {A} (p q : A -> bool) l :
  List.filter p (List.filter q l) = List.filter (fun x => q x && p x) l.
Proof.
  induction l as [|x l IH]; cbn; [done|]. destruct (q x); cbn; [|done].
  destruct (p x); by rewrite IH.
Qed.

(** * What the store remembers *)

Section replay.
Context `{!UnicodeLower} `{!HashOrder}.
Context `{!Codec PendingTaskCandidate} `{!Codec PendingTaskConnect}
  `{!Codec PendingTaskClipConfirmation} `{!Codec PendingTaskGeneralMessageLoop}
  `{!Codec TaskConversationState} `{!Codec TaskSessionStateEnvelope}.
Context `{!Codec EventRecord} `{!Codec Action} `{!Codec ExecutionResult}.
Context {Text : Type} `{!FileCodec Text} (store : TaskConversationStore).

Lemma trace_of_metadata r s run :
  run_metadata run = build_task_run_metadata r s ->
  metadata_text run "trace_id" = if is_blank (rq_trace_id r) then None else Some (rq_trace_id r).
Proof. unfold metadata_text. by intros ->. Qed.

Lemma step_of_metadata r s run :
  run_metadata run = build_task_run_metadata r s ->
  metadata_text run "step_id" = if is_blank s then None else Some s.
Proof. unfold metadata_text. by intros ->. Qed.

Lemma identity_of_metadata r s run :
  run_metadata run = build_task_run_metadata r s ->
  persisted_task_request_identity run = task_request_identity r.
Proof. unfold persisted_task_request_identity. by intros ->. Qed.

Lemma artifact_ids_nodup r s l :
  NoDup (art_artifact_id <$> build_artifact_records r s l).
Proof.
  apply NoDup_alt. intros i j k Hi Hj. unfold build_artifact_records in *.
  rewrite list_lookup_fmap, list_lookup_imap in Hi, Hj.
  destruct (l !! i), (l !! j); cbn in Hi, Hj; try done. injection Hi as <-. injection Hj as E.
  apply (inj (String.append _)) in E. injection E as E. apply (inj (String.append _)) in E.
  injection E as E. apply (inj (pretty (A := nat))) in E. lia.
Qed.

Lemma artifact_ids_ok r s l :
  Forall (fun a => is_blank (art_artifact_id a) = false) (build_artifact_records r s l).
Proof.
  apply Forall_forall. intros a Ha. apply list_elem_of_lookup in Ha as [i Hi].
  unfold build_artifact_records in Hi. rewrite list_lookup_imap in Hi.
  destruct (l !! i); [|done]. injection Hi as <-. cbn [artifact_record art_artifact_id]. apply is_blank_colon.
Qed.

(** The events of a response belong to its step, under identifiers of their own. *)
Definition own_events (r : TaskRequest) (tr : TaskRuntimeTracking) (l : list EventRecord) : Prop :=
  NoDup (ev_event_id <$> l)
  /\ Forall (fun ev => ev_source_id ev = rq_task_id r /\ ev_causation_id ev = Some (tk_step_id tr)
                       /\ is_blank (ev_event_id ev) = false) l.

(** The test a step's artifacts or events pass. *)
Definition of_step {A} (task_of : A -> string) (step_of : A -> option string)
    (r : TaskRequest) (tr : TaskRuntimeTracking) (a : A) : bool :=
  (task_of a =? rq_task_id r) && opt_str_eqb (step_of a) (Some (tk_step_id tr)).

Lemma replaced_step {A} (id : A -> string) task_of step_of err r tr l (m : gmap string A) :
  keyed_map id m -> NoDup (id <$> l) -> Forall (fun x => is_blank (id x) = false) l ->
  Forall (fun x => of_step task_of step_of r tr x = true) l ->
  exists m', insert_all id err l (retain (fun _ x => negb (of_step task_of step_of r tr x)) m) = Ok m'
    /\ List.filter (of_step task_of step_of r tr) (values m') ≡ₚ l.
Proof.
  intros Hk Hn Hb Hl. edestruct (insert_all_total id err l) as [m' Hm]; [done|].
  exists m'. split; [exact Hm|]. eapply (replaced_values id); [|done|exact Hm|done|].
  - by apply keyed_retain.
  - intros k x [_ Hx]%lookup_retain. by apply negb_true_iff in Hx.
Qed.

Lemma save_step_run st d f :
  writable -> holds d f -> is_blank (step_step_id st) = false ->
  exists d', save_task_step store st io_ok d = (d', Ok tt) /\ holds d' (put_task_step st f).
Proof. intros Hw Hd Hb. unfold save_task_step. rewrite Hb. by apply insert_run. Qed.

Lemma replace_artifacts_run r tr d f :
  writable -> holds d f -> keyed_map art_artifact_id (artifacts f) -> forall l,
  let recs := build_artifact_records r (tk_step_id tr) l in
  exists d' m, replace_artifacts_for_step store (rq_task_id r) (Some (tk_step_id tr)) recs io_ok d = (d', Ok tt)
    /\ holds d' (set_artifacts m f)
    /\ List.filter (of_step art_task_id art_step_id r tr) (values m) ≡ₚ recs.
Proof.
  intros Hw Hd Hk l recs.
  destruct (replaced_step art_artifact_id art_task_id art_step_id "artifact_id 不能为空" r tr recs
    (artifacts f) Hk (artifact_ids_nodup _ _ _) (artifact_ids_ok _ _ _)) as (m & Hm & Hp).
  { apply Forall_forall. intros a Ha. apply list_elem_of_lookup in Ha as [i Hi].
    unfold recs, build_artifact_records in Hi. rewrite list_lookup_imap in Hi.
    destruct (l !! i); [|done]. injection Hi as <-. unfold of_step, opt_str_eqb. cbn.
    by rewrite String.eqb_refl, bool_decide_true. }
  edestruct (update_run store (A := unit)) as (d' & E & Hd'); [done|exact Hd| |].
  2: { exists d', m. split; [exact E|]. split; [exact Hd'|done]. }
  cbv beta zeta. unfold of_step in Hm. by rewrite Hm.
Qed.

Lemma replace_events_run r tr d f evs :
  writable -> holds d f -> keyed_map ev_event_id (events f) -> own_events r tr evs ->
  exists d' m, replace_events_for_step store (rq_task_id r) (Some (tk_step_id tr)) evs io_ok d = (d', Ok tt)
    /\ holds d' (set_events m f)
    /\ List.filter (of_step ev_source_id ev_causation_id r tr) (values m) ≡ₚ evs.
Proof.
  intros Hw Hd Hk [Hn Ho].
  destruct (replaced_step ev_event_id ev_source_id ev_causation_id "event_id 不能为空" r tr evs
    (events f) Hk Hn) as (m & Hm & Hp).
  { eapply Forall_impl; [exact Ho|]. by intros ev (_ & _ & ?). }
  { eapply Forall_impl; [exact Ho|]. intros ev (Hs & Hc & _). unfold of_step, opt_str_eqb.
    by rewrite Hs, Hc, String.eqb_refl, bool_decide_true. }
  edestruct (update_run store (A := unit)) as (d' & E & Hd'); [done|exact Hd| |].
  2: { exists d', m. split; [exact E|]. split; [exact Hd'|done]. }
  cbv beta zeta. unfold of_step in Hm. by rewrite Hm.
Qed.

Lemma session_record_id e r tr token d f :
  calm e -> holds d f -> keyed_map cs_session_id (sessions f) ->
  cs_session_id (build_session_record store e r tr token d) = tk_session_id tr.
Proof.
  intros He Hd Hf. unfold build_session_record. cbn [cs_session_id session_fields].
  unfold load_session. rewrite He, (query_holds store _ d f Hd). unfold found. cbn.
  destruct (sessions f !! tk_session_id tr) as [s|] eqn:Es; [|done]. cbn. by apply Hf.
Qed.

(** What a finished task leaves in the file. *)
Record remembers (f : TaskConversationFile) (r : TaskRequest) (tr : TaskRuntimeTracking)
    (x : TaskResponse) (evs : list EventRecord) : Prop := {
  rem_run : exists now old, task_runs f !! rq_task_id r = Some (finished_run r tr x now old)
    /\ run_task_id (finished_run r tr x now old) = rq_task_id r;
  rem_step : exists now old, task_steps f !! tk_step_id tr = Some (finished_step r tr x now old);
  rem_artifacts : List.filter (of_step art_task_id art_step_id r tr) (values (artifacts f))
    ≡ₚ build_artifact_records r (tk_step_id tr) (en_artifacts (rs_result x));
  rem_events : List.filter (of_step ev_source_id ev_causation_id r tr) (values (events f)) ≡ₚ evs
}.

Lemma finish_run e r x tr d f :
  calm e -> writable -> holds d f -> keyed f ->
  is_blank (rq_task_id r) = false -> is_blank (tk_step_id tr) = false ->
  is_blank (tk_session_id tr) = false ->
  let evs := build_event_records (later 1 e) r (tk_step_id tr) (en_events (rs_result x)) in
  own_events r tr evs ->
  exists d' f', finish_task_tracking store e r x tr d = (d', Ok tt) /\ holds d' f'
    /\ remembers f' r tr x evs.
Proof.
  intros He Hw Hd Hf Hbt Hbs Hbn evs Hev. unfold finish_task_tracking. cbv zeta.
  set (now := timestamp (clock e 0)).
  assert (forall old, task_runs f !! rq_task_id r = old ->
    run_task_id (finished_run r tr x now old) = rq_task_id r) as Hrid.
  { intros [old|] Ho; cbn; [|done]. by apply (k_task_runs _ Hf). }
  assert (forall old, task_steps f !! tk_step_id tr = old ->
    step_step_id (finished_step r tr x now old) = tk_step_id tr) as Hsid.
  { intros [old|] Ho; cbn; [|done]. by apply (k_task_steps _ Hf). }
  specialize (Hrid _ eq_refl). specialize (Hsid _ eq_refl). revert Hrid Hsid.
  set (run := finished_run r tr x now _). set (st := finished_step r tr x now _). intros Hrid Hsid.
  rewrite (mthen_ok _ _ d d (task_runs f !! rq_task_id r))
    by (unfold asking, load_task_run; by rewrite He, (query_holds store _ d f Hd)).
  fold now run. rewrite He. destruct (save_run_run store run d f Hw Hd) as (d1 & E1 & Hd1); [by rewrite Hrid|].
  rewrite (mthen_ok _ _ _ _ _ E1).
  rewrite (mthen_ok _ _ d1 d1 (task_steps f !! tk_step_id tr))
    by (unfold asking, load_task_step; by rewrite He, (query_holds store _ d1 _ Hd1)).
  fold now st. rewrite He. destruct (save_step_run st d1 _ Hw Hd1) as (d2 & E2 & Hd2); [by rewrite Hsid|].
  rewrite (mthen_ok _ _ _ _ _ E2), He.
  edestruct (replace_artifacts_run r tr d2) as (d3 & ma & E3 & Hd3 & Hpa); [done|exact Hd2|apply Hf|].
  rewrite (mthen_ok _ _ _ _ _ E3), He.
  edestruct (replace_events_run r tr d3) as (d4 & me & E4 & Hd4 & Hpe); [done|exact Hd3|apply Hf|exact Hev|].
  rewrite (mthen_ok _ _ _ _ _ E4), He.
  set (session := build_session_record store (later 6 e) r tr (rs_resume_token x) d4).
  assert (cs_session_id session = tk_session_id tr) as Hs.
  { apply (session_record_id _ _ _ _ _ _ (calm_later e 6 He) Hd4), Hf. }
  destruct (save_session_run store session d4 _ Hw Hd4) as (d5 & E5 & Hd5); [by rewrite Hs|].
  exists d5. eexists. split; [exact E5|]. split; [exact Hd5|]. split; cbn.
  - exists now, (task_runs f !! rq_task_id r). fold run. split; [|done]. by rewrite <-Hrid at 1; rewrite lookup_insert_eq.
  - exists now, (task_steps f !! tk_step_id tr). fold st. by rewrite <-Hsid at 1; rewrite lookup_insert_eq.
  - exact Hpa.
  - exact Hpe.
Qed.

(** * Replay *)

(** The response as a replay gives it: texts trimmed, blank ones dropped,
    artifacts numbered and events in the order of their time. *)
Definition replayed (r : TaskRequest) (tr : TaskRuntimeTracking) (x : TaskResponse)
    (evs : list EventRecord) : TaskResponse :=
  {| rs_task_id := rq_task_id r;
     rs_trace_id := if is_blank (rq_trace_id r) then rq_task_id r else rq_trace_id r;
     rs_status := rs_status x; rs_executor_used := rs_executor_used x;
     rs_risk_level := rs_risk_level x;
     rs_result :=
       {| en_message := trim (en_message (rs_result x)); en_data := en_data (rs_result x);
          en_artifacts := task_artifact_from_record <$> sort_by artifact_cmp
            (build_artifact_records r (tk_step_id tr) (en_artifacts (rs_result x)));
          en_events := serialize_event_record <$> sort_by event_cmp evs;
          en_next_actions := omap non_blank (en_next_actions (rs_result x)) |};
     rs_audit_ref := rs_audit_ref x; rs_missing_fields := omap non_blank (rs_missing_fields x);
     rs_prompt := rs_prompt x ≫= non_blank; rs_resume_token := rs_resume_token x ≫= non_blank |}.

Lemma omap_jv_str (l : list string) : omap jv_str (JStr <$> l) = l.
Proof. induction l as [|s l IH]; cbn; [done|]. by rewrite IH. Qed.

Lemma default_non_blank s : default "" (non_blank s) = trim s.
Proof. unfold non_blank. destruct (is_empty (trim s)) eqn:E; [|done]. by apply is_empty_true in E. Qed.

(** Reading the output payload back. *)
Ltac payload_field name v :=
  unfold string_at_paths, string_vec_at_paths; cbn [find_map]; unfold trimmed_at;
  repeat match goal with
  | |- context [pointer [name] (build_step_output_payload ?x)] =>
      change (pointer [name] (build_step_output_payload x)) with (Some (v x)); cbv beta
  end.

Lemma payload_text x :
  string_at_paths (build_step_output_payload x) [["message"]] = non_blank (en_message (rs_result x)).
Proof. payload_field "message" (fun x => JStr (en_message (rs_result x))). cbn. by destruct (non_blank _). Qed.

Lemma payload_prompt x :
  string_at_paths (build_step_output_payload x) [["prompt"]] = rs_prompt x ≫= non_blank.
Proof.
  payload_field "prompt" (fun x => json_option JStr (rs_prompt x)).
  destruct (rs_prompt x) as [p|]; cbn; [|done]. by destruct (non_blank p).
Qed.

Lemma payload_token x :
  string_at_paths (build_step_output_payload x) [[CONTINUATION_TOKEN_KEY]; [LEGACY_RESUME_TOKEN_KEY]]
  = rs_resume_token x ≫= non_blank.
Proof.
  payload_field CONTINUATION_TOKEN_KEY (fun x => json_option JStr (rs_resume_token x)).
  payload_field LEGACY_RESUME_TOKEN_KEY (fun x => json_option JStr (rs_resume_token x)).
  destruct (rs_resume_token x) as [p|]; cbn; [|done]. by destruct (non_blank p).
Qed.

Lemma payload_next x :
  string_vec_at_paths (build_step_output_payload x) [["next_actions"]]
  = omap non_blank (en_next_actions (rs_result x)).
Proof.
  payload_field "next_actions" (fun x => JArr (JStr <$> en_next_actions (rs_result x))).
  cbn -[omap]. by rewrite omap_jv_str.
Qed.

Lemma payload_missing x :
  string_vec_at_paths (build_step_output_payload x) [["missing_fields"]]
  = omap non_blank (rs_missing_fields x).
Proof.
  payload_field "missing_fields" (fun x => JArr (JStr <$> rs_missing_fields x)).
  cbn -[omap]. by rewrite omap_jv_str.
Qed.

Lemma replay_remembered e f d r tr x evs run now old :
  calm e -> holds d f -> remembers f r tr x evs -> own_events r tr evs ->
  is_blank (tk_step_id tr) = false ->
  run = finished_run r tr x now old -> run_task_id run = rq_task_id r ->
  replay_task_response store e run d = Ok (replayed r tr x evs).
Proof.
  intros He Hd [_ (now' & old' & Hst) Hpa Hpe] [Hn Ho] Hbs Hrun Hid.
  assert (run_metadata run = build_task_run_metadata r (tk_step_id tr)) as Hmeta by by rewrite Hrun.
  unfold replay_task_response. rewrite (step_of_metadata _ _ _ Hmeta), Hbs. cbv beta iota zeta.
  unfold load_task_step, artifacts_for_task, events_for_task.
  rewrite !He, !(query_holds store _ d f Hd), Hst, Hid. cbv beta iota zeta.
  unfold replayed. f_equal. f_equal; try by rewrite Hrun.
  - rewrite (trace_of_metadata _ _ _ Hmeta). by destruct (is_blank (rq_trace_id r)).
  - rewrite Hrun. cbn. by destruct (rs_status x).
  - cbn [finished_step tracked_step step_output_payload]. rewrite payload_text, payload_next, default_non_blank.
    f_equal.
    + apply f_equal. apply filter_sort_eq with (id := art_artifact_id); [apply _| |apply artifact_ids_nodup|].
      * rewrite filter_filter. rewrite <-Hpa. apply reflexive_eq, List.filter_ext. intros a.
        unfold of_step, opt_eqb, opt_str_eqb. by rewrite bool_decide_false.
      * intros a b. apply string_compare_eq.
    + apply f_equal. apply filter_sort_eq with (id := ev_event_id); [apply _| |done|].
      * rewrite filter_filter. rewrite <-Hpe. apply reflexive_eq, List.filter_ext. intros a.
        unfold of_step, opt_eqb, opt_str_eqb. by rewrite bool_decide_false.
      * intros a b E%then_with_eq. by apply string_compare_eq.
  - cbn [finished_step tracked_step step_output_payload]. apply payload_missing.
  - cbn [finished_step tracked_step step_output_payload]. apply payload_prompt.
  - cbn [finished_step tracked_step step_output_payload]. apply payload_token.
Qed.

(** C14. Recording a response and replaying its request are inverse. When the
    store works and the response's events belong to the step, finishing a task
    succeeds; then its request is answered by a replay of the recorded response,
    with its texts trimmed, its artifacts under their stored identifiers and its
    events in the order of their time, and any request under the same identifier
    with another identity is refused as a conflict. *)
Theorem replay_roundtrip e r x tr d f :
  calm e -> writable -> holds d f -> keyed f ->
  is_blank (rq_task_id r) = false -> is_blank (tk_step_id tr) = false ->
  is_blank (tk_session_id tr) = false ->
  let evs := build_event_records (later 1 e) r (tk_step_id tr) (en_events (rs_result x)) in
  own_events r tr evs ->
  exists d', finish_task_tracking store e r x tr d = (d', Ok tt)
    /\ forall e', calm e' ->
       accept_or_replay_task store e' r d' = Ok (Replay (replayed r tr x evs))
       /\ forall r', rq_task_id r' = rq_task_id r ->
            task_request_identity r' <> task_request_identity r ->
            accept_or_replay_task store e' r' d'
            = Ok (Conflict "task_id already exists with a different request identity").
Proof.
  intros He Hw Hd Hf Hbt Hbs Hbn evs Hev.
  destruct (finish_run e r x tr d f) as (d' & f' & E & Hd' & Hrem); [done..|].
  exists d'. split; [exact E|]. intros e' He'.
  destruct (rem_run _ _ _ _ _ Hrem) as (now & old & Hrun & Hid).
  assert (forall r', rq_task_id r' = rq_task_id r ->
    load_task_run store (rq_task_id r') (ios e' 0) d' = Ok (Some (finished_run r tr x now old))) as Hload.
  { intros r' ->. unfold load_task_run. by rewrite He', (query_holds store _ d' f' Hd'), Hrun. }
  assert (persisted_task_request_identity (finished_run r tr x now old) = task_request_identity r) as Hper
    by by apply (identity_of_metadata r (tk_step_id tr)).
  unfold accept_or_replay_task. split.
  - rewrite Hbt, (Hload r eq_refl), Hper, bool_decide_true by done.
    by rewrite (replay_remembered (later 1 e') f' d' r tr x evs _ now old (calm_later e' 1 He') Hd').
  - intros r' Ht Hne. rewrite (Hload r' Ht), Ht, Hbt, Hper, bool_decide_false; [done|]. by intros E'.
Qed.

(** * Approval and replay *)

Lemma normalized_entry k v :
  jv_index (normalized_contract_value v) k = normalized_contract_value <$> jv_index v k.
Proof.
  destruct v as [| | | | |l|l]; cbn; try done.
  - destruct (parse_index k) as [i|]; cbn; [|done]. by rewrite list_lookup_fmap.
  - rewrite entry_json_object. rewrite (entry_fmap (fun kv => (kv.1, normalized_contract_value kv.2))); [done|].
    by apply Forall_forall.
Qed.

Lemma normalized_pointer path v :
  pointer path (normalized_contract_value v) = normalized_contract_value <$> pointer path v.
Proof.
  revert v. induction path as [|k path IH]; intros v; cbn; [done|].
  rewrite normalized_entry. destruct (jv_index v k) as [u|]; cbn; [apply IH|done].
Qed.

Lemma injected_token args id u :
  keys_ordered (entries_or_empty args) ->
  keys_ordered (default [] (entries_or_empty <$> entry "approval" (entries_or_empty args))) ->
  pointer ["approval"; "token"] (inject_approval_args args id u) = Some (JStr id).
Proof.
  intros Ho Ha. unfold inject_approval_args. cbn [pointer jv_index].
  rewrite entry_obj_insert by done. rewrite String.eqb_refl. cbn [mbind option_bind pointer jv_index].
  assert (entry "token" (obj_insert "token" (JStr id)
    (default [] (entries_or_empty <$> entry "approval" (entries_or_empty args)))) = Some (JStr id)) as Ht.
  { rewrite entry_obj_insert by done. by rewrite String.eqb_refl. }
  destruct u as [u|]; [|by rewrite Ht]. rewrite entry_obj_insert by by apply obj_insert_ordered.
  destruct (String.eqb_spec "approver_id" "token"); [done|]. by rewrite Ht.
Qed.

(** After an approval the original request is no longer a retry. The request
    the approval resumes runs under the same task identifier with the approval
    in its arguments, and the run remembers it; so, once it has finished, a
    repetition of the original request, which has no approval token, is refused
    as a conflict and not answered by a replay. *)
Theorem approved_request_conflicts e p run session u x tr d f r :
  calm e -> writable -> holds d f -> keyed f ->
  rq_task_id r = run_task_id run -> rq_args r = run_args run ->
  keys_ordered (entries_or_empty (rq_args r)) ->
  keys_ordered (default [] (entries_or_empty <$> entry "approval" (entries_or_empty (rq_args r)))) ->
  trimmed_at ["approval"; "token"] (rq_args r) = None -> is_blank (ap_approval_id p) = false ->
  is_blank (rq_task_id r) = false -> is_blank (tk_step_id tr) = false ->
  is_blank (tk_session_id tr) = false ->
  let resumed := build_approval_resume_request p run session u in
  own_events resumed tr
    (build_event_records (later 1 e) resumed (tk_step_id tr) (en_events (rs_result x))) ->
  exists d', finish_task_tracking store e resumed x tr d = (d', Ok tt)
    /\ forall e', calm e' -> accept_or_replay_task store e' r d'
         = Ok (Conflict "task_id already exists with a different request identity").
Proof.
  intros He Hw Hd Hf Ht Ha Ho1 Ho2 Htok Hid Hbt Hbs Hbn resumed Hev.
  destruct (finish_run e resumed x tr d f) as (d' & f' & E & Hd' & Hrem); try done.
  { change (is_blank (run_task_id run) = false). by rewrite <-Ht. }
  exists d'. split; [exact E|]. intros e' He'.
  destruct (rem_run _ _ _ _ _ Hrem) as (now & old & Hrun & _).
  unfold accept_or_replay_task, load_task_run. rewrite Hbt, He', (query_holds store _ d' f' Hd').
  rewrite Ht. change (run_task_id run) with (rq_task_id resumed). rewrite Hrun.
  rewrite (identity_of_metadata resumed (tk_step_id tr)) by done.
  rewrite bool_decide_false; [done|]. intros Hi.
  apply (f_equal (pointer ["args"; "approval"; "token"])) in Hi.
  change (pointer ["approval"; "token"] (normalized_contract_value (rq_args resumed))
    = pointer ["approval"; "token"] (normalized_contract_value (rq_args r))) in Hi.
  rewrite !normalized_pointer in Hi. cbn [resumed build_approval_resume_request request_of_run rq_args] in Hi.
  rewrite <-Ha, injected_token in Hi by done. unfold trimmed_at in Htok.
  destruct (pointer ["approval"; "token"] (rq_args r)) as [[| | | |s| |]|]; cbn in Hi, Htok; try done.
  injection Hi as Hi. unfold non_blank in Htok. rewrite <-Hi in Htok. unfold is_blank in Hid.
  by rewrite Hid in Htok.
Qed.
End replay.
