(* ===== verification/RemoteView.v ===== *)
(** Signed share links for live camera pages, [src/runtime/remote_view.rs], and
    the settings they are issued with, of [src/runtime/admin_console.rs]. A token
    is the claims and their keyed hash, both as URL-safe text, around a dot. *)
From Stdlib Require Import Ascii.
From S2P Require Import Prelude RustString.
Local Open Scope Z_scope.

Record CameraShareClaims := {
  v : Z;
  kind : string;
  device_id : string;
  exp : Z
}.

Record IssuedCameraShareToken := {
  token : string;
  expires_at_unix_secs : Z;
  ttl_minutes : Z
}.

Record RemoteViewConfig := {
  share_secret : string;
  share_link_ttl_minutes : Z
}.

(** [serde_json::to_vec] and [serde_json::from_slice] at the claims: what is
    written is read back, and no value is read from no bytes. *)
Class ClaimsCodec := {
  to_vec : CameraShareClaims -> result string string;
  from_slice : string -> result string CameraShareClaims;
  from_slice_to_vec c s : to_vec c = Ok s -> from_slice s = Ok c;
  from_slice_empty c : from_slice "" <> Ok c
}.

Section remote_view.
Context `{!Sha256} `{!HmacSha256} `{!Base64Url} `{!ClaimsCodec}.

(** [new_hmac] takes a key of any length; [sign_payload] is the keyed hash as text. *)
Definition sign_payload (secret payload_b64 : string) : string :=
  b64_encode (hmac secret payload_b64).

(** [now] is [now_unix_secs()]. *)
Definition issue_camera_share_token (now : Z) (secret device : string) (ttl : Z)
  : result string IssuedCameraShareToken :=
  if is_blank secret then Err "share secret is empty"
  else if is_blank device then Err "device_id is empty"
  else
    let ttl := z_clamp ttl 1 (24 * 60) in
    match u64_checked_add now (ttl * 60) with
    | None => Err "share token expiration overflowed"
    | Some expires =>
        let claims := {| v := 1; kind := "camera_live"; device_id := device; exp := expires |} in
        match to_vec claims with
        | Err error => Err ("failed to serialize camera share claims: " +:+ error)
        | Ok payload =>
            let payload_b64 := b64_encode payload in
            Ok {| token := payload_b64 +:+ "." +:+ sign_payload secret payload_b64;
                  expires_at_unix_secs := expires; ttl_minutes := ttl |}
        end
    end.

(** [Mac::verify_slice] *)
Definition verify_slice (secret message tag : string) : bool := (tag =? hmac secret message)%string.

Definition verify_camera_share_token (now : Z) (secret tok : string)
  : result string CameraShareClaims :=
  if is_blank secret then Err "share secret is empty" else
  match split_once "." tok with
  | None => Err "share token format is invalid"
  | Some (payload_b64, signature_b64) =>
      if is_empty payload_b64 || is_empty signature_b64 then Err "share token format is invalid" else
      match b64_decode signature_b64 with
      | Err error => Err ("share token signature is invalid: " +:+ error)
      | Ok provided =>
      match b64_decode (sign_payload secret payload_b64) with
      | Err error => Err ("expected share signature is invalid: " +:+ error)
      | Ok expected =>
          if negb (str_len expected =? str_len provided)%nat then Err "share token signature mismatch"
          else if negb (verify_slice secret payload_b64 provided) then Err "share token signature mismatch"
          else
          match b64_decode payload_b64 with
          | Err error => Err ("share token payload is invalid: " +:+ error)
          | Ok payload =>
          match from_slice payload with
          | Err error => Err ("share token payload parse failed: " +:+ error)
          | Ok claims =>
              if negb (v claims =? 1) || negb (kind claims =? "camera_live")%string
              then Err "share token scope is invalid"
              else if is_blank (device_id claims) then Err "share token missing device_id"
              else if exp claims <? now then Err "share token expired"
              else Ok claims
          end end
      end end
  end.

Definition camera_share_token_hash (tok : string) : string := join "" (hex_byte <$> sha256 tok).
End remote_view.

(** * Settings *)

(** [default_share_secret()] is a secret drawn at the call. *)
Definition sanitize_remote_view_config (drawn : string) (c : RemoteViewConfig) : RemoteViewConfig :=
  {| share_secret := if is_blank (share_secret c) then drawn else share_secret c;
     share_link_ttl_minutes := z_clamp (share_link_ttl_minutes c) 5 (24 * 60) |}.

(** * Lemmas *)

Lemma split_once_app c p s :
  str_forall (fun a => negb (Ascii.eqb a c)) p = true ->
  split_once c (p +:+ String c s) = Some (p, s).
Proof.
  induction p as [|a p IH]; cbn; [by rewrite Ascii.eqb_refl|].
  intros [Ha Hp]%andb_true_iff. apply negb_true_iff in Ha. by rewrite Ha, IH.
Qed.

Lemma str_forall_impl (p q : ascii -> bool) s :
  (forall a, p a = true -> q a = true) -> str_forall p s = true -> str_forall q s = true.
Proof.
  intros Hpq. induction s as [|a s IH]; cbn; [done|]. intros [Ha Hs]%andb_true_iff.
  by rewrite (Hpq a Ha), IH.
Qed.

Lemma url_safe_not_dot a : url_safe a = true -> negb (Ascii.eqb a ".") = true.
Proof. destruct (Ascii.eqb_spec a ".") as [->|]; [by cbn|done]. Qed.
