(* ===== verification/UrlPath.v ===== *)
(** Path segments of the admin service's URLs: the percent encoding of
    [src/runtime/task_api.rs] and [src/bin/agent_hub_admin_api.rs], which the two
    files define alike, its decoding, and the shared-link paths that use them. *)
From Stdlib Require Import Ascii.
From S2P Require Import Prelude RustString.
Local Open Scope string_scope.

(** * Encoding *)

(** [u8::is_ascii_alphanumeric], or one of [-_.~]. *)
Definition unreserved (c : ascii) : bool :=
  is_ascii_alphanumeric c || Ascii.eqb c "-" || Ascii.eqb c "_" || Ascii.eqb c "." || Ascii.eqb c "~".

Definition upper_hex_digit (n : N) : ascii :=
  ascii_of_N (if (n <? 10)%N then 48 + n else 55 + n).

(** [write!("%{byte:02X}")] *)
Definition escape (c : ascii) : string :=
  String "%" (String (upper_hex_digit (byte c / 16)) (String (upper_hex_digit (byte c mod 16)) "")).

Fixpoint url_encode_path_segment (value : string) : string :=
  match value with
  | EmptyString => EmptyString
  | String c r => (if unreserved c then String c "" else escape c) +:+ url_encode_path_segment r
  end.

(** * Decoding *)

Definition decode_hex (c : ascii) : option N :=
  if byte_in 48 57 c then Some (byte c - 48)%N
  else if byte_in 97 102 c then Some (byte c - 97 + 10)%N
  else if byte_in 65 70 c then Some (byte c - 65 + 10)%N
  else None.

(** The loop of [percent_decode_path_segment], on the bytes from [index]. *)
Fixpoint decode_bytes (s : string) : result string string :=
  match s with
  | EmptyString => Ok EmptyString
  | String c r =>
      if Ascii.eqb c "%" then
        match r with
        | String h (String l rest) =>
            match decode_hex h with
            | None => Err "invalid hex digit"
            | Some hi =>
                match decode_hex l with
                | None => Err "invalid hex digit"
                | Some lo => String (ascii_of_N (hi * 16 + lo)) <$> decode_bytes rest
                end
            end
        | _ => Err "incomplete percent escape"
        end
      else String c <$> decode_bytes r
  end.

(** [String::from_utf8]: the well-formed byte sequences of the Unicode standard.
    [error] is its message. *)
Fixpoint valid_utf8 (s : string) : bool :=
  match s with
  | EmptyString => true
  | String a r1 =>
      if byte_in 0 127 a then valid_utf8 r1 else
      match r1 with
      | EmptyString => false
      | String b r2 =>
          if byte_in 194 223 a then is_continuation b && valid_utf8 r2 else
          match r2 with
          | EmptyString => false
          | String c r3 =>
              if byte_in 224 239 a then
                (if (byte a =? 224)%N then byte_in 160 191 b
                 else if (byte a =? 237)%N then byte_in 128 159 b else is_continuation b)
                && is_continuation c && valid_utf8 r3
              else
              match r3 with
              | EmptyString => false
              | String d r4 =>
                  byte_in 240 244 a
                  && (if (byte a =? 240)%N then byte_in 144 191 b
                      else if (byte a =? 244)%N then byte_in 128 143 b else is_continuation b)
                  && is_continuation c && is_continuation d && valid_utf8 r4
              end
          end
      end
  end.

Definition percent_decode_path_segment (error value : string) : result string string :=
  match decode_bytes value with
  | Err e => Err e
  | Ok decoded =>
      if valid_utf8 decoded then Ok decoded
      else Err ("invalid utf-8 path segment: " +:+ error)
  end.

(** * Paths *)

Fixpoint strip_prefix (p s : string) : option string :=
  match p, s with
  | EmptyString, _ => Some s
  | String a p, String b s => if Ascii.eqb a b then strip_prefix p s else None
  | _, EmptyString => None
  end.

Definition strip_suffix (p s : string) : option string :=
  str_rev <$> strip_prefix (str_rev p) (str_rev s).

Definition share_token_of (error segment : string) : option string :=
  if is_empty segment || str_contains "/" segment then None
  else res_ok (percent_decode_path_segment error segment).

Definition parse_shared_camera_live_page_path (error path : string) : option string :=
  strip_prefix "/shared/cameras/" path ≫= share_token_of error.

Definition parse_shared_camera_live_stream_path (error path : string) : option string :=
  trimmed ← strip_prefix "/shared/cameras/" path;
  strip_suffix "/live.mjpeg" trimmed ≫= share_token_of error.

Definition parse_share_link_revoke_path (error path : string) : option string :=
  trimmed ← strip_prefix "/api/share-links/" path;
  segment ← strip_suffix "/revoke" trimmed;
  if is_empty segment then None else res_ok (percent_decode_path_segment error segment).

(** * Lemmas *)

Lemma byte_lt c : (byte c < 256)%N.
Proof. apply N_ascii_bounded. Qed.

Lemma decode_hex_digit n : (n < 16)%N -> decode_hex (upper_hex_digit n) = Some n.
Proof.
  intros Hn. assert (n ∈ [0;1;2;3;4;5;6;7;8;9;10;11;12;13;14;15]%N) as H.
  { rewrite !elem_of_cons, elem_of_nil. lia. }
  repeat (apply elem_of_cons in H as [->|H]; [done|]). by apply not_elem_of_nil in H.
Qed.

Lemma decode_escape c s : decode_bytes (escape c +:+ s) = String c <$> decode_bytes s.
Proof.
  pose proof (byte_lt c). cbn -[N.div N.modulo].
  rewrite decode_hex_digit by (apply N.Div0.div_lt_upper_bound; lia).
  rewrite decode_hex_digit by (apply N.mod_lt; lia).
  replace (byte c / 16 * 16 + byte c mod 16)%N with (byte c)
    by (rewrite (N.div_mod (byte c) 16) at 1; lia).
  by rewrite ascii_N_embedding.
Qed.

Lemma unreserved_not c : unreserved c = true -> Ascii.eqb c "%" = false /\ Ascii.eqb c "/" = false.
Proof.
  intros Hc. split; apply Ascii.eqb_neq; intros ->; by vm_compute in Hc.
Qed.

Lemma decode_encode_bytes s : decode_bytes (url_encode_path_segment s) = Ok s.
Proof.
  induction s as [|c s IH]; [done|]. cbn [url_encode_path_segment].
  destruct (unreserved c) eqn:E.
  - cbn. apply unreserved_not in E as [-> _]. by rewrite IH.
  - by rewrite decode_escape, IH.
Qed.

(** An encoded segment holds no slash. *)
Lemma encode_no_slash s : str_forall (fun c => negb (Ascii.eqb c "/")) (url_encode_path_segment s) = true.
Proof.
  induction s as [|c s IH]; [done|]. cbn [url_encode_path_segment].
  destruct (unreserved c) eqn:E; cbn -[upper_hex_digit N.div N.modulo].
  - apply unreserved_not in E as [_ ->]. by rewrite IH.
  - assert (forall n, (n < 16)%N -> Ascii.eqb (upper_hex_digit n) "/" = false) as Hd.
    { intros n Hn. assert (n ∈ [0;1;2;3;4;5;6;7;8;9;10;11;12;13;14;15]%N) as H.
      { rewrite !elem_of_cons, elem_of_nil. lia. }
      repeat (apply elem_of_cons in H as [->|H]; [done|]). by apply not_elem_of_nil in H. }
    pose proof (byte_lt c). rewrite !Hd, IH; [done|apply N.mod_lt; lia|].
    apply N.Div0.div_lt_upper_bound; lia.
Qed.

Lemma no_char_contains c s :
  str_forall (fun a => negb (Ascii.eqb a c)) s = true -> str_contains (String c "") s = false.
Proof.
  induction s as [|a s IH]; [done|]. cbn [str_forall]. intros [Ha Hs]%andb_true_iff.
  rewrite str_contains_cons, IH by done. rewrite orb_false_r.
  unfold starts_with. cbn. apply negb_true_iff, Ascii.eqb_neq in Ha.
  destruct (ascii_dec c a) as [->|]; [done|done].
Qed.

Lemma encode_empty s : is_empty (url_encode_path_segment s) = is_empty s.
Proof. destruct s as [|c s]; [done|]. cbn. by destruct (unreserved c). Qed.

Lemma strip_prefix_app p s : strip_prefix p (p +:+ s) = Some s.
Proof. induction p as [|a p IH]; [by destruct s|]. cbn. by rewrite Ascii.eqb_refl. Qed.

Lemma strip_suffix_app p s : strip_suffix p (s +:+ p) = Some s.
Proof. unfold strip_suffix. by rewrite str_rev_app, strip_prefix_app; cbn; rewrite str_rev_involutive. Qed.

Lemma share_token_encoded error t :
  valid_utf8 t = true -> t <> "" -> share_token_of error (url_encode_path_segment t) = Some t.
Proof.
  intros Hv Hne. unfold share_token_of.
  rewrite encode_empty, (no_char_contains "/") by apply encode_no_slash.
  apply is_empty_false in Hne as ->. cbn. unfold percent_decode_path_segment.
  by rewrite decode_encode_bytes, Hv.
Qed.
