(* ===== verification/Devices.v ===== *)
(** The data of the device registry: the records of [src/control_plane/devices.rs]
    and the provider kinds of [credentials.rs], and the cameras, registry
    snapshots and Home Assistant entities of [src/runtime/registry.rs]. JSON
    values are [jv]. *)
From S2P Require Import Prelude RustString Json TaskRecords.
Local Open Scope Z_scope.

(** * Platform records *)

Inductive DeviceKind :=
| DevCamera | DevLight | DevSensor | DevLock | DevGateway | DevNas | DevService | DevUnknown.

Inductive DeviceLifecycleState := LifeDiscovered | LifeRegistered | LifeActive | LifeDisabled | LifeRetired.

Record DeviceRecord := {
  dv_device_id : string;
  dv_workspace_id : string;
  dv_kind : DeviceKind;
  dv_subtype : option string;
  dv_display_name : string;
  dv_aliases : list string;
  dv_vendor : option string;
  dv_model : option string;
  dv_serial_number : option string;
  dv_mac_address : option string;
  dv_primary_room_id : option string;
  dv_lifecycle_state : DeviceLifecycleState;
  dv_source : string;
  dv_metadata : jv
}.

Inductive DeviceEndpointKind :=
| EndpointIpv4 | EndpointIpv6 | EndpointMac | EndpointRtsp | EndpointOnvif | EndpointMatter
| EndpointHttp | EndpointWebsocket.

Inductive ReachabilityStatus := ReachOnline | ReachOffline | ReachDegraded | ReachUnknown.

Record DeviceEndpoint := {
  ep_endpoint_id : string;
  ep_device_id : string;
  ep_endpoint_kind : DeviceEndpointKind;
  ep_scheme : string;
  ep_host : string;
  ep_port : option Z;
  ep_path : option string;
  ep_requires_auth : bool;
  ep_reachability_status : ReachabilityStatus;
  ep_last_seen_at : option string;
  ep_metadata : jv
}.

Inductive DeviceSupportMode := SupportNative | SupportCloud | SupportBridge | SupportLab | SupportUnsupported.

Inductive ProviderBindingStatus := BindingActive | BindingInvalid | BindingPending | BindingRevoked.

Inductive ProviderKind :=
| ProviderAiCloud | ProviderVendorCloud | ProviderVendorLocal | ProviderBridge | ProviderHarborOs
| ProviderStandard.

Record ProviderBinding := {
  pb_binding_id : string;
  pb_device_id : string;
  pb_provider_account_id : option string;
  pb_provider_key : string;
  pb_provider_kind : ProviderKind;
  pb_remote_device_id : option string;
  pb_credential_ref : option string;
  pb_binding_status : ProviderBindingStatus;
  pb_support_mode : DeviceSupportMode;
  pb_metadata : jv;
  pb_last_sync_at : option string
}.

Inductive CapabilityCategory :=
| CategoryState | CategoryControl | CategoryStream | CategoryMedia | CategoryEvent.

Inductive CapabilityAccessMode := AccessRead | AccessWrite | AccessInvoke | AccessSubscribe.

Inductive CapabilityAvailability := CapAvailable | CapUnavailable | CapDegraded.

Record CapabilityRecord := {
  cr_capability_id : string;
  cr_device_id : string;
  cr_capability_code : string;
  cr_category : CapabilityCategory;
  cr_access_mode : CapabilityAccessMode;
  cr_support_mode : DeviceSupportMode;
  cr_availability : CapabilityAvailability;
  cr_source_binding_id : option string;
  cr_metadata : jv
}.

Inductive ConnectivityState := ConnOnline | ConnOffline | ConnDegraded | ConnUnknown.

Record DeviceTwin := {
  tw_device_id : string;
  tw_connectivity_state : ConnectivityState;
  tw_reported_state : jv;
  tw_desired_state : jv;
  tw_health_state : jv;
  tw_last_event_id : option string;
  tw_last_seen_at : option string
}.

(** [fps] is the 32 bits of the number. *)
Record StreamProfile := {
  sp_stream_profile_id : string;
  sp_device_id : string;
  sp_profile_name : string;
  sp_transport : StreamTransport;
  sp_endpoint_id : string;
  sp_video_codec : option string;
  sp_audio_codec : option string;
  sp_width : option Z;
  sp_height : option Z;
  sp_fps : option Z;
  sp_bitrate_kbps : option Z;
  sp_is_default : bool
}.

(** * Cameras *)

(** The kinds of the registry's cameras; [DeviceKind] is the platform's. *)
Inductive CameraKind := LegacyCamera | LegacyLight | LegacySensor | LegacyLock | LegacyGateway | LegacyUnknown.

Inductive DeviceStatus := DeviceOnline | DeviceOffline | DeviceDegraded | DeviceUnknown.

(** The transports of the registry; [StreamTransport] is the media catalogue's. *)
Inductive CameraTransport := TransportRtsp | TransportHls | TransportWebrtc | TransportUnknown.

Record CameraStreamRef := {
  cs_transport : CameraTransport;
  cs_url : string;
  cs_requires_auth : bool
}.

Record CameraCapabilities := {
  cap_snapshot : bool;
  cap_stream : bool;
  cap_ptz : bool;
  cap_audio : bool
}.

Record CameraDevice := {
  cd_device_id : string;
  cd_name : string;
  cd_kind : CameraKind;
  cd_status : DeviceStatus;
  cd_room : option string;
  cd_vendor : option string;
  cd_model : option string;
  cd_ip_address : option string;
  cd_mac_address : option string;
  cd_discovery_source : string;
  cd_primary_stream : CameraStreamRef;
  cd_snapshot_url : option string;
  cd_onvif_device_service_url : option string;
  cd_ezviz_device_serial : option string;
  cd_ezviz_camera_no : option Z;
  cd_capabilities : CameraCapabilities;
  cd_last_seen_at : option string
}.

Definition no_capabilities : CameraCapabilities :=
  {| cap_snapshot := false; cap_stream := false; cap_ptz := false; cap_audio := false |}.

Definition camera_new (device_id name url : string) : CameraDevice :=
  {| cd_device_id := device_id; cd_name := name; cd_kind := LegacyCamera; cd_status := DeviceUnknown;
     cd_room := None; cd_vendor := None; cd_model := None; cd_ip_address := None;
     cd_mac_address := None; cd_discovery_source := "unknown";
     cd_primary_stream := {| cs_transport := TransportRtsp; cs_url := url; cs_requires_auth := false |};
     cd_snapshot_url := None; cd_onvif_device_service_url := None; cd_ezviz_device_serial := None;
     cd_ezviz_camera_no := None; cd_capabilities := no_capabilities; cd_last_seen_at := None |}.

Record ResolvedCameraTarget := {
  ct_device_id : string;
  ct_display_name : string;
  ct_status : DeviceStatus;
  ct_room_name : option string;
  ct_vendor : option string;
  ct_model : option string;
  ct_ip_address : option string;
  ct_mac_address : option string;
  ct_discovery_source : string;
  ct_primary_stream : CameraStreamRef;
  ct_snapshot_url : option string;
  ct_onvif_device_service_url : option string;
  ct_ezviz_device_serial : option string;
  ct_ezviz_camera_no : option Z;
  ct_capabilities : CameraCapabilities;
  ct_last_seen_at : option string
}.

Definition camera_of_target (t : ResolvedCameraTarget) : CameraDevice :=
  {| cd_device_id := ct_device_id t; cd_name := ct_display_name t; cd_kind := LegacyCamera;
     cd_status := ct_status t; cd_room := ct_room_name t; cd_vendor := ct_vendor t;
     cd_model := ct_model t; cd_ip_address := ct_ip_address t; cd_mac_address := ct_mac_address t;
     cd_discovery_source := ct_discovery_source t; cd_primary_stream := ct_primary_stream t;
     cd_snapshot_url := ct_snapshot_url t;
     cd_onvif_device_service_url := ct_onvif_device_service_url t;
     cd_ezviz_device_serial := ct_ezviz_device_serial t; cd_ezviz_camera_no := ct_ezviz_camera_no t;
     cd_capabilities := ct_capabilities t; cd_last_seen_at := ct_last_seen_at t |}.

Record HomeAssistantRegistryEntity := {
  ha_entity_id : string;
  ha_domain : string;
  ha_display_name : string;
  ha_state : string;
  ha_area_id : option string;
  ha_device_class : option string;
  ha_last_changed : option string;
  ha_last_updated : option string;
  ha_attributes : jv
}.

(** * Snapshots *)

(** Camera profiles with values as data. *)
Definition CameraProfile : Type := @TaskRecords.CameraProfile jv_json.

Record DeviceRegistrySnapshot := {
  schema_version : Z;
  devices : list DeviceRecord;
  device_endpoints : list DeviceEndpoint;
  provider_bindings : list ProviderBinding;
  capabilities : list CapabilityRecord;
  device_twins : list DeviceTwin;
  camera_profiles : list CameraProfile;
  stream_profiles : list StreamProfile
}.

Definition default_registry_schema_version : Z := 1.

Definition empty_registry_snapshot : DeviceRegistrySnapshot :=
  {| schema_version := default_registry_schema_version; devices := []; device_endpoints := [];
     provider_bindings := []; capabilities := []; device_twins := []; camera_profiles := [];
     stream_profiles := [] |}.

Definition set_devices x (s : DeviceRegistrySnapshot) : DeviceRegistrySnapshot :=
  {| schema_version := schema_version s; devices := x; device_endpoints := device_endpoints s;
     provider_bindings := provider_bindings s; capabilities := capabilities s;
     device_twins := device_twins s; camera_profiles := camera_profiles s;
     stream_profiles := stream_profiles s |}.

Definition set_device_endpoints x (s : DeviceRegistrySnapshot) : DeviceRegistrySnapshot :=
  {| schema_version := schema_version s; devices := devices s; device_endpoints := x;
     provider_bindings := provider_bindings s; capabilities := capabilities s;
     device_twins := device_twins s; camera_profiles := camera_profiles s;
     stream_profiles := stream_profiles s |}.

Definition set_provider_bindings x (s : DeviceRegistrySnapshot) : DeviceRegistrySnapshot :=
  {| schema_version := schema_version s; devices := devices s; device_endpoints := device_endpoints s;
     provider_bindings := x; capabilities := capabilities s;
     device_twins := device_twins s; camera_profiles := camera_profiles s;
     stream_profiles := stream_profiles s |}.

Definition set_capabilities x (s : DeviceRegistrySnapshot) : DeviceRegistrySnapshot :=
  {| schema_version := schema_version s; devices := devices s; device_endpoints := device_endpoints s;
     provider_bindings := provider_bindings s; capabilities := x;
     device_twins := device_twins s; camera_profiles := camera_profiles s;
     stream_profiles := stream_profiles s |}.

Definition set_device_twins x (s : DeviceRegistrySnapshot) : DeviceRegistrySnapshot :=
  {| schema_version := schema_version s; devices := devices s; device_endpoints := device_endpoints s;
     provider_bindings := provider_bindings s; capabilities := capabilities s;
     device_twins := x; camera_profiles := camera_profiles s;
     stream_profiles := stream_profiles s |}.

Definition set_camera_profiles x (s : DeviceRegistrySnapshot) : DeviceRegistrySnapshot :=
  {| schema_version := schema_version s; devices := devices s; device_endpoints := device_endpoints s;
     provider_bindings := provider_bindings s; capabilities := capabilities s;
     device_twins := device_twins s; camera_profiles := x;
     stream_profiles := stream_profiles s |}.

Definition set_stream_profiles x (s : DeviceRegistrySnapshot) : DeviceRegistrySnapshot :=
  {| schema_version := schema_version s; devices := devices s; device_endpoints := device_endpoints s;
     provider_bindings := provider_bindings s; capabilities := capabilities s;
     device_twins := device_twins s; camera_profiles := camera_profiles s;
     stream_profiles := x |}.

Definition set_schema_version x (s : DeviceRegistrySnapshot) : DeviceRegistrySnapshot :=
  {| schema_version := x; devices := devices s; device_endpoints := device_endpoints s;
     provider_bindings := provider_bindings s; capabilities := capabilities s;
     device_twins := device_twins s; camera_profiles := camera_profiles s;
     stream_profiles := stream_profiles s |}.

(** * Conversions *)

Definition legacy_device_kind_to_control (k : CameraKind) : DeviceKind :=
  match k with
  | LegacyCamera => DevCamera | LegacyLight => DevLight | LegacySensor => DevSensor
  | LegacyLock => DevLock | LegacyGateway => DevGateway | LegacyUnknown => DevUnknown
  end.

Definition legacy_status_to_connectivity (s : DeviceStatus) : ConnectivityState :=
  match s with
  | DeviceOnline => ConnOnline | DeviceOffline => ConnOffline
  | DeviceDegraded => ConnDegraded | DeviceUnknown => ConnUnknown
  end.

Definition connectivity_to_legacy_status (c : ConnectivityState) : DeviceStatus :=
  match c with
  | ConnOnline => DeviceOnline | ConnOffline => DeviceOffline
  | ConnDegraded => DeviceDegraded | ConnUnknown => DeviceUnknown
  end.

Definition legacy_status_to_reachability (s : DeviceStatus) : ReachabilityStatus :=
  match s with
  | DeviceOnline => ReachOnline | DeviceOffline => ReachOffline
  | DeviceDegraded => ReachDegraded | DeviceUnknown => ReachUnknown
  end.

Definition legacy_stream_transport_to_control (t : CameraTransport) : StreamTransport :=
  match t with
  | TransportRtsp => StreamRtsp | TransportHls => StreamHls
  | TransportWebrtc => StreamWebrtc | TransportUnknown => StreamUnknown
  end.

Definition control_stream_transport_to_legacy (t : StreamTransport) : CameraTransport :=
  match t with
  | StreamRtsp => TransportRtsp | StreamHls => TransportHls | StreamWebrtc => TransportWebrtc
  | StreamFile | StreamUnknown => TransportUnknown
  end.

Definition legacy_stream_transport_scheme (t : CameraTransport) : string :=
  match t with
  | TransportRtsp => "rtsp" | TransportHls => "hls" | TransportWebrtc => "webrtc"
  | TransportUnknown => "unknown"
  end.
