(* ===== verification/Registry.v ===== *)
(** The device registry, [src/runtime/registry.rs]: the platform's records, the
    cameras read from them and written to them, Home Assistant's entities, and
    the file they are kept in, which holds a snapshot, or the list of cameras that
    older versions wrote. The file and the failures of system calls are those of
    [TaskStore].

    [Vec::retain] is [List.filter]. *)
From Stdlib Require Import Ascii.
From S2P Require Import Prelude TaskStore RustString Json TaskRecords Devices.
Local Open Scope string_scope.
Local Open Scope list_scope.

#[local] Existing Instance jv_json.

(** * Vendor features *)

Definition is_tp_link_tapo_vendor (vendor model : option string) : bool :=
  let vendor := to_ascii_lowercase (default "" vendor) in
  let model := to_ascii_lowercase (default "" model) in
  str_contains "tapo" vendor || str_contains "tp-link" vendor || str_contains "tplink" vendor
  || str_contains "tapo" model.

Definition normalize_optional_string (value : option string) : option string := value ≫= non_blank.

(** The vector of the source is [push_new]'s first argument. *)
Definition merge_tapo_rtsp_path_candidates (existing : option jv) : jv :=
  let candidates := push_new [] (omap normalize_rtsp_candidate ["/stream1"; "/stream2"]) in
  let candidates :=
    match (existing ≫= (fun v => jv_get v "rtsp_path_candidates")) ≫= jv_array with
    | Some entries => push_new candidates (omap normalize_rtsp_candidate (omap jv_str entries))
    | None => candidates
    end in
  JArr (JStr <$> candidates).

Definition tapo_vendor_features (camera : CameraDevice) (existing : option jv) : jv :=
  let features := match existing with Some (JObj l) => l | _ => [] end in
  let features :=
    if is_tp_link_tapo_vendor (cd_vendor camera) (cd_model camera) then
      obj_insert "rtsp_path_candidates" (merge_tapo_rtsp_path_candidates existing)
        (obj_insert "profile" (JStr "tp-link/tapo") features)
    else features in
  JObj match normalize_optional_string (cd_snapshot_url camera) with
       | Some snapshot_url => obj_insert "native_snapshot_url" (JStr snapshot_url) features
       | None => features
       end.

Definition native_snapshot_url_from_camera_profile (profile : option CameraProfile) : option string :=
  p ← profile;
  match jv_get (cam_vendor_features p : jv) "native_snapshot_url" ≫= jv_str with
  | Some url => Some url
  | None => pointer ["native_snapshot"; "url"] (cam_vendor_features p : jv) ≫= jv_str
  end.

(** * Identifiers *)

Definition managed_camera_ipv4_endpoint_id (device_id : string) : string :=
  device_id +:+ "::endpoint::ipv4".
Definition managed_camera_primary_stream_endpoint_id (device_id : string) : string :=
  device_id +:+ "::endpoint::primary_stream".
Definition managed_camera_primary_stream_profile_id (device_id : string) : string :=
  device_id +:+ "::stream::primary".
Definition managed_camera_endpoint_ids (device_id : string) : list string :=
  [managed_camera_ipv4_endpoint_id device_id; managed_camera_primary_stream_endpoint_id device_id].
Definition managed_provider_binding_ids (device_id : string) : list string :=
  [device_id +:+ "::binding::stream"; device_id +:+ "::binding::onvif";
   device_id +:+ "::binding::ezviz"].

(** * Records of a camera *)

Definition normalize_discovery_source (value : string) : string :=
  if value =? "rtspprobe" then "rtsp_probe" else value.

Definition set_stream_transport (t : CameraTransport) (s : CameraStreamRef) : CameraStreamRef :=
  {| cs_transport := t; cs_url := cs_url s; cs_requires_auth := cs_requires_auth s |}.

Definition normalize_camera_metadata (d : CameraDevice) : CameraDevice :=
  {| cd_device_id := cd_device_id d; cd_name := cd_name d; cd_kind := cd_kind d;
     cd_status := cd_status d; cd_room := cd_room d; cd_vendor := cd_vendor d;
     cd_model := cd_model d; cd_ip_address := cd_ip_address d; cd_mac_address := cd_mac_address d;
     cd_discovery_source := normalize_discovery_source (cd_discovery_source d);
     cd_primary_stream :=
       match cs_transport (cd_primary_stream d) with
       | TransportUnknown => set_stream_transport TransportRtsp (cd_primary_stream d)
       | _ => cd_primary_stream d
       end;
     cd_snapshot_url := cd_snapshot_url d ≫= non_blank;
     cd_onvif_device_service_url := cd_onvif_device_service_url d;
     cd_ezviz_device_serial := cd_ezviz_device_serial d; cd_ezviz_camera_no := cd_ezviz_camera_no d;
     cd_capabilities := cd_capabilities d; cd_last_seen_at := cd_last_seen_at d |}.

Definition set_camera_device_id (id : string) (d : CameraDevice) : CameraDevice :=
  {| cd_device_id := id; cd_name := cd_name d; cd_kind := cd_kind d;
     cd_status := cd_status d; cd_room := cd_room d; cd_vendor := cd_vendor d;
     cd_model := cd_model d; cd_ip_address := cd_ip_address d; cd_mac_address := cd_mac_address d;
     cd_discovery_source := cd_discovery_source d; cd_primary_stream := cd_primary_stream d;
     cd_snapshot_url := cd_snapshot_url d;
     cd_onvif_device_service_url := cd_onvif_device_service_url d;
     cd_ezviz_device_serial := cd_ezviz_device_serial d; cd_ezviz_camera_no := cd_ezviz_camera_no d;
     cd_capabilities := cd_capabilities d; cd_last_seen_at := cd_last_seen_at d |}.

Definition same_camera_view (existing incoming : CameraDevice) : bool :=
  (cd_device_id existing =? cd_device_id incoming)
  || (cs_url (cd_primary_stream existing) =? cs_url (cd_primary_stream incoming)).

(** [reqwest::Url::parse], and what the code reads of a URL. *)
Record Url := {
  url_scheme : string;
  url_host_str : option string;
  url_port_or_known_default : option Z;
  url_path : string;
  url_query : option string
}.

Class UrlParser := { url_parse : string -> option Url }.

Definition camera_record (source : string) (c : CameraDevice) : DeviceRecord :=
  {| dv_device_id := cd_device_id c; dv_workspace_id := "";
     dv_kind := legacy_device_kind_to_control (cd_kind c);
     dv_subtype := if cap_ptz (cd_capabilities c) then Some "ptz_camera" else None;
     dv_display_name := cd_name c; dv_aliases := []; dv_vendor := cd_vendor c;
     dv_model := cd_model c; dv_serial_number := None; dv_mac_address := cd_mac_address c;
     dv_primary_room_id := cd_room c; dv_lifecycle_state := LifeRegistered; dv_source := source;
     dv_metadata := JObj [] |}.

Definition camera_twin (c : CameraDevice) : DeviceTwin :=
  {| tw_device_id := cd_device_id c;
     tw_connectivity_state := legacy_status_to_connectivity (cd_status c);
     tw_reported_state := JObj []; tw_desired_state := JObj []; tw_health_state := JObj [];
     tw_last_event_id := None; tw_last_seen_at := cd_last_seen_at c |}.

Definition ipv4_endpoint (c : CameraDevice) (ip_address : string) : DeviceEndpoint :=
  {| ep_endpoint_id := managed_camera_ipv4_endpoint_id (cd_device_id c);
     ep_device_id := cd_device_id c; ep_endpoint_kind := EndpointIpv4; ep_scheme := "ipv4";
     ep_host := ip_address; ep_port := None; ep_path := None; ep_requires_auth := false;
     ep_reachability_status := legacy_status_to_reachability (cd_status c);
     ep_last_seen_at := cd_last_seen_at c; ep_metadata := JObj [] |}.

Definition primary_stream_profile (c : CameraDevice) : StreamProfile :=
  {| sp_stream_profile_id := managed_camera_primary_stream_profile_id (cd_device_id c);
     sp_device_id := cd_device_id c; sp_profile_name := "primary";
     sp_transport := legacy_stream_transport_to_control (cs_transport (cd_primary_stream c));
     sp_endpoint_id := managed_camera_primary_stream_endpoint_id (cd_device_id c);
     sp_video_codec := None;
     sp_audio_codec := if cap_audio (cd_capabilities c) then Some "unknown" else None;
     sp_width := None; sp_height := None; sp_fps := None; sp_bitrate_kbps := None;
     sp_is_default := true |}.

Definition new_camera_profile (c : CameraDevice) : CameraProfile :=
  {| cam_device_id := cd_device_id c;
     cam_default_stream_profile_id := Some (managed_camera_primary_stream_profile_id (cd_device_id c));
     cam_audio_supported := cap_audio (cd_capabilities c);
     cam_ptz_supported := cap_ptz (cd_capabilities c); cam_privacy_supported := false;
     cam_playback_supported := false; cam_recording_policy_id := None;
     cam_vendor_features := (tapo_vendor_features c None : @Value jv_json) |}.

Definition stream_binding (c : CameraDevice) : ProviderBinding :=
  {| pb_binding_id := cd_device_id c +:+ "::binding::stream"; pb_device_id := cd_device_id c;
     pb_provider_account_id := None;
     pb_provider_key := match cs_transport (cd_primary_stream c) with
                        | TransportRtsp => "rtsp" | TransportHls => "hls"
                        | TransportWebrtc => "webrtc" | TransportUnknown => "stream"
                        end;
     pb_provider_kind := ProviderStandard; pb_remote_device_id := None; pb_credential_ref := None;
     pb_binding_status := BindingActive; pb_support_mode := SupportNative;
     pb_metadata := json_object
       [("discovery_source", JStr (cd_discovery_source c));
        ("transport", JStr (legacy_stream_transport_scheme (cs_transport (cd_primary_stream c))));
        ("snapshot_url", json_option JStr (cd_snapshot_url c))];
     pb_last_sync_at := cd_last_seen_at c |}.

Definition onvif_binding (c : CameraDevice) (device_service_url : string) : ProviderBinding :=
  {| pb_binding_id := cd_device_id c +:+ "::binding::onvif"; pb_device_id := cd_device_id c;
     pb_provider_account_id := None; pb_provider_key := "onvif"; pb_provider_kind := ProviderStandard;
     pb_remote_device_id := None; pb_credential_ref := None; pb_binding_status := BindingActive;
     pb_support_mode := SupportNative;
     pb_metadata := json_object [("device_service_url", JStr device_service_url);
                                 ("discovery_source", JStr (cd_discovery_source c))];
     pb_last_sync_at := cd_last_seen_at c |}.

Definition ezviz_binding (c : CameraDevice) (device_serial : string) : ProviderBinding :=
  {| pb_binding_id := cd_device_id c +:+ "::binding::ezviz"; pb_device_id := cd_device_id c;
     pb_provider_account_id := None; pb_provider_key := "ezviz";
     pb_provider_kind := ProviderVendorCloud; pb_remote_device_id := Some device_serial;
     pb_credential_ref := None; pb_binding_status := BindingActive; pb_support_mode := SupportCloud;
     pb_metadata := json_object [("camera_no", json_option JNum (cd_ezviz_camera_no c))];
     pb_last_sync_at := cd_last_seen_at c |}.

Definition provider_bindings_from_camera (c : CameraDevice) : list ProviderBinding :=
  stream_binding c :: option_list (onvif_binding c <$> cd_onvif_device_service_url c)
  ++ option_list (ezviz_binding c <$> cd_ezviz_device_serial c).

Definition capability_record (c : CameraDevice) (code : string) (category : CapabilityCategory)
  : CapabilityRecord :=
  {| cr_capability_id := cd_device_id c +:+ "::capability::" +:+ code;
     cr_device_id := cd_device_id c; cr_capability_code := code; cr_category := category;
     cr_access_mode := match category with
                       | CategoryState => AccessRead
                       | CategoryControl => AccessInvoke
                       | CategoryStream | CategoryMedia => AccessRead
                       | CategoryEvent => AccessSubscribe
                       end;
     cr_support_mode := SupportNative; cr_availability := CapAvailable;
     cr_source_binding_id := Some (cd_device_id c +:+ "::binding::stream");
     cr_metadata := JObj [] |}.

Definition capability_records_from_camera (c : CameraDevice) : list CapabilityRecord :=
  let when (b : bool) code category := if b then [capability_record c code category] else [] in
  let k := cd_capabilities c in
  when (cap_snapshot k) "snapshot" CategoryMedia ++ when (cap_stream k) "stream_live" CategoryStream
  ++ when (cap_ptz k) "ptz" CategoryControl ++ when (cap_audio k) "audio" CategoryMedia.

(** * Reading cameras *)

Definition is_camera (d : DeviceRecord) : bool := match dv_kind d with DevCamera => true | _ => false end.

Definition preferred_stream_profile (profiles : list StreamProfile) (device_id : string)
    (preferred : option string) : option StreamProfile :=
  match preferred ≫= (fun id => list_find (fun p => sp_stream_profile_id p =? id) profiles) with
  | Some p => Some p
  | None =>
      match list_find (fun p => (sp_device_id p =? device_id) && sp_is_default p) profiles with
      | Some p => Some p
      | None => list_find (fun p => sp_device_id p =? device_id) profiles
      end
  end.

Definition rebuild_url_from_endpoint (e : DeviceEndpoint) : string :=
  ep_scheme e +:+ "://" +:+ ep_host e
  +:+ match ep_port e with Some port => ":" +:+ show_Z port | None => "" end
  +:+ match ep_path e with
      | Some path => if is_empty path then ""
                     else if starts_with "/" path then path else "/" +:+ path
      | None => ""
      end.

Definition stream_url_from_endpoint (e : DeviceEndpoint) : string :=
  default (rebuild_url_from_endpoint e) (jv_get (ep_metadata e) "url" ≫= jv_str).

Definition has_code (code : string) (l : list CapabilityRecord) : bool :=
  list_any (fun r => cr_capability_code r =? code) l.

Definition camera_capabilities_from_records (l : list CapabilityRecord) : CameraCapabilities :=
  {| cap_snapshot := has_code "snapshot" l; cap_stream := has_code "stream_live" l;
     cap_ptz := has_code "ptz" l; cap_audio := has_code "audio" l |}.

Definition infer_discovery_source (l : list ProviderBinding) : string :=
  if list_any (fun b => pb_provider_key b =? "onvif") l then "onvif"
  else match l with b :: _ => pb_provider_key b | [] => "unknown" end.

Definition STREAM_KEYS : list string := ["rtsp"; "hls"; "webrtc"; "stream"].

Definition binding_with (key : string) (l : list ProviderBinding) : option ProviderBinding :=
  list_find (fun b => pb_provider_key b =? key) l.

(** [value as u32] *)
Definition as_u32 (z : Z) : Z := (z mod 4294967296)%Z.

Definition resolved_camera_target (s : DeviceRegistrySnapshot) (d : DeviceRecord)
  : option ResolvedCameraTarget :=
  if negb (is_camera d) then None else
  let id := dv_device_id d in
  let camera_profile := list_find (fun p => cam_device_id p =? id) (camera_profiles s) in
  stream_profile ← preferred_stream_profile (stream_profiles s) id
                     (camera_profile ≫= cam_default_stream_profile_id);
  endpoint ← list_find (fun e => ep_endpoint_id e =? sp_endpoint_id stream_profile) (device_endpoints s);
  let twin := list_find (fun t => tw_device_id t =? id) (device_twins s) in
  let binding_set := List.filter (fun b => pb_device_id b =? id) (provider_bindings s) in
  let capability_set := List.filter (fun r => cr_device_id r =? id) (capabilities s) in
  Some
    {| ct_device_id := id; ct_display_name := dv_display_name d;
       ct_status := match twin with
                    | Some t => connectivity_to_legacy_status (tw_connectivity_state t)
                    | None => DeviceUnknown
                    end;
       ct_room_name := dv_primary_room_id d; ct_vendor := dv_vendor d; ct_model := dv_model d;
       ct_ip_address :=
         ep_host <$> list_find (fun e => (ep_device_id e =? id)
                                 && match ep_endpoint_kind e with EndpointIpv4 => true | _ => false end)
                       (device_endpoints s);
       ct_mac_address := dv_mac_address d;
       ct_discovery_source :=
         if is_blank (dv_source d) then infer_discovery_source binding_set else dv_source d;
       ct_primary_stream :=
         {| cs_transport := control_stream_transport_to_legacy (sp_transport stream_profile);
            cs_url := stream_url_from_endpoint endpoint;
            cs_requires_auth := ep_requires_auth endpoint |};
       ct_snapshot_url :=
         match list_find (fun b => str_in (pb_provider_key b) STREAM_KEYS) binding_set
                 ≫= (fun b => jv_get (pb_metadata b) "snapshot_url" ≫= jv_str) with
         | Some url => Some url
         | None => native_snapshot_url_from_camera_profile camera_profile
         end;
       ct_onvif_device_service_url :=
         binding_with "onvif" binding_set
           ≫= (fun b => jv_get (pb_metadata b) "device_service_url" ≫= jv_str);
       ct_ezviz_device_serial := binding_with "ezviz" binding_set ≫= pb_remote_device_id;
       ct_ezviz_camera_no :=
         as_u32 <$> (binding_with "ezviz" binding_set
                       ≫= (fun b => jv_get (pb_metadata b) "camera_no" ≫= jv_u64));
       ct_capabilities := camera_capabilities_from_records capability_set;
       ct_last_seen_at := twin ≫= tw_last_seen_at |}.

Definition camera_target (s : DeviceRegistrySnapshot) (device_id : string) : option ResolvedCameraTarget :=
  list_find (fun d => (dv_device_id d =? device_id) && is_camera d) (devices s)
    ≫= resolved_camera_target s.

Definition camera_targets (s : DeviceRegistrySnapshot) : list ResolvedCameraTarget :=
  omap (resolved_camera_target s) (devices s).

Definition to_camera_devices (s : DeviceRegistrySnapshot) : list CameraDevice :=
  camera_of_target <$> camera_targets s.

(** * Writing cameras *)

Section registry.
Context `{!UrlParser}.

Definition stream_endpoint_from_camera (c : CameraDevice) (endpoint_id : string) : DeviceEndpoint :=
  let stream := cd_primary_stream c in
  let parsed := url_parse (cs_url stream) in
  {| ep_endpoint_id := endpoint_id; ep_device_id := cd_device_id c;
     ep_endpoint_kind := match cs_transport stream with
                         | TransportRtsp => EndpointRtsp
                         | TransportHls => EndpointHttp
                         | TransportWebrtc => EndpointWebsocket
                         | TransportUnknown => EndpointHttp
                         end;
     ep_scheme := match parsed with
                  | Some url => url_scheme url
                  | None => legacy_stream_transport_scheme (cs_transport stream)
                  end;
     ep_host := default (cs_url stream) (parsed ≫= url_host_str);
     ep_port := parsed ≫= url_port_or_known_default;
     ep_path := (fun url => url_path url +:+ match url_query url with
                                             | Some query => "?" +:+ query
                                             | None => ""
                                             end) <$> parsed;
     ep_requires_auth := cs_requires_auth stream;
     ep_reachability_status := legacy_status_to_reachability (cd_status c);
     ep_last_seen_at := cd_last_seen_at c;
     ep_metadata := json_object [("url", JStr (cs_url stream))] |}.

Definition managed_endpoints (c : CameraDevice) : list DeviceEndpoint :=
  option_list (ipv4_endpoint c <$> cd_ip_address c)
  ++ [stream_endpoint_from_camera c (managed_camera_primary_stream_endpoint_id (cd_device_id c))].

(** One round of the loop of [from_camera_devices]. *)
Definition push_camera (s : DeviceRegistrySnapshot) (c : CameraDevice) : DeviceRegistrySnapshot :=
  {| schema_version := schema_version s;
     devices := devices s ++ [camera_record (cd_discovery_source c) c];
     device_endpoints := device_endpoints s ++ managed_endpoints c;
     provider_bindings := provider_bindings s ++ provider_bindings_from_camera c;
     capabilities := capabilities s ++ capability_records_from_camera c;
     device_twins := device_twins s ++ [camera_twin c];
     camera_profiles := camera_profiles s ++ [new_camera_profile c];
     stream_profiles := stream_profiles s ++ [primary_stream_profile c] |}.

Definition from_camera_devices (l : list CameraDevice) : DeviceRegistrySnapshot :=
  foldl push_camera empty_registry_snapshot l.

(** ** One camera *)

Definition update_camera_record (c : CameraDevice) (d : DeviceRecord) : DeviceRecord :=
  let newer {A} (new old : option A) := if is_some new then new else old in
  {| dv_device_id := dv_device_id d; dv_workspace_id := dv_workspace_id d;
     dv_kind := legacy_device_kind_to_control (cd_kind c);
     dv_subtype := if cap_ptz (cd_capabilities c) && negb (is_some (dv_subtype d))
                   then Some "ptz_camera" else dv_subtype d;
     dv_display_name := if is_blank (cd_name c) then dv_display_name d else cd_name c;
     dv_aliases := dv_aliases d; dv_vendor := newer (cd_vendor c) (dv_vendor d);
     dv_model := newer (cd_model c) (dv_model d); dv_serial_number := dv_serial_number d;
     dv_mac_address := newer (cd_mac_address c) (dv_mac_address d);
     dv_primary_room_id := newer (cd_room c) (dv_primary_room_id d);
     dv_lifecycle_state := LifeRegistered;
     dv_source := if is_blank (cd_discovery_source c) then dv_source d
                  else normalize_discovery_source (cd_discovery_source c);
     dv_metadata := dv_metadata d |}.

Definition upsert_camera_record (c : CameraDevice) (s : DeviceRegistrySnapshot) : DeviceRegistrySnapshot :=
  set_devices
    (upsert_first (fun d => dv_device_id d =? cd_device_id c) (update_camera_record c)
       (camera_record (normalize_discovery_source (cd_discovery_source c)) c) (devices s)) s.

Definition update_camera_twin (c : CameraDevice) (t : DeviceTwin) : DeviceTwin :=
  {| tw_device_id := tw_device_id t;
     tw_connectivity_state := legacy_status_to_connectivity (cd_status c);
     tw_reported_state := tw_reported_state t; tw_desired_state := tw_desired_state t;
     tw_health_state := tw_health_state t; tw_last_event_id := tw_last_event_id t;
     tw_last_seen_at := if is_some (cd_last_seen_at c) then cd_last_seen_at c else tw_last_seen_at t |}.

Definition upsert_camera_twin (c : CameraDevice) (s : DeviceRegistrySnapshot) : DeviceRegistrySnapshot :=
  set_device_twins
    (upsert_first (fun t => tw_device_id t =? cd_device_id c) (update_camera_twin c) (camera_twin c)
       (device_twins s)) s.

Definition replace_managed_camera_endpoints (c : CameraDevice) (s : DeviceRegistrySnapshot)
  : DeviceRegistrySnapshot :=
  set_device_endpoints
    (List.filter (fun e => negb (str_in (ep_endpoint_id e) (managed_camera_endpoint_ids (cd_device_id c))))
       (device_endpoints s) ++ managed_endpoints c) s.

Definition replace_managed_camera_stream_profiles (c : CameraDevice) (s : DeviceRegistrySnapshot)
  : DeviceRegistrySnapshot :=
  set_stream_profiles
    (List.filter (fun p => negb ((sp_device_id p =? cd_device_id c)
         && (sp_stream_profile_id p =? managed_camera_primary_stream_profile_id (cd_device_id c))))
       (stream_profiles s) ++ [primary_stream_profile c]) s.

Definition update_camera_profile (c : CameraDevice) (p : CameraProfile) : CameraProfile :=
  {| cam_device_id := cam_device_id p;
     cam_default_stream_profile_id := Some (managed_camera_primary_stream_profile_id (cd_device_id c));
     cam_audio_supported := cam_audio_supported p || cap_audio (cd_capabilities c);
     cam_ptz_supported := cam_ptz_supported p || cap_ptz (cd_capabilities c);
     cam_privacy_supported := cam_privacy_supported p;
     cam_playback_supported := cam_playback_supported p;
     cam_recording_policy_id := cam_recording_policy_id p;
     cam_vendor_features := (tapo_vendor_features c (Some (cam_vendor_features p : jv)) : @Value jv_json) |}.

Definition upsert_camera_profile (c : CameraDevice) (s : DeviceRegistrySnapshot) : DeviceRegistrySnapshot :=
  set_camera_profiles
    (upsert_first (fun p => cam_device_id p =? cd_device_id c) (update_camera_profile c)
       (new_camera_profile c) (camera_profiles s)) s.

Definition MANAGED_CODES : list string := ["snapshot"; "stream_live"; "ptz"; "audio"].

Definition replace_managed_camera_capabilities (c : CameraDevice) (s : DeviceRegistrySnapshot)
  : DeviceRegistrySnapshot :=
  set_capabilities
    (List.filter (fun r => negb ((cr_device_id r =? cd_device_id c)
                                 && str_in (cr_capability_code r) MANAGED_CODES)) (capabilities s)
     ++ capability_records_from_camera c) s.

Definition replace_managed_provider_bindings (c : CameraDevice) (s : DeviceRegistrySnapshot)
  : DeviceRegistrySnapshot :=
  set_provider_bindings
    (List.filter (fun b => negb (str_in (pb_binding_id b) (managed_provider_binding_ids (cd_device_id c))))
       (provider_bindings s) ++ provider_bindings_from_camera c) s.

Definition upsert_camera_device (c : CameraDevice) (s : DeviceRegistrySnapshot) : DeviceRegistrySnapshot :=
  replace_managed_provider_bindings c
    (replace_managed_camera_capabilities c
      (upsert_camera_profile c
        (replace_managed_camera_stream_profiles c
          (replace_managed_camera_endpoints c
            (upsert_camera_twin c (upsert_camera_record c s)))))).

(** ** Lists of cameras *)

Definition find_matching_camera_device_id (s : DeviceRegistrySnapshot) (incoming : CameraDevice)
  : option string :=
  cd_device_id <$> list_find (fun existing => same_camera_view existing incoming) (to_camera_devices s).

Definition resolved_device_id (s : DeviceRegistrySnapshot) (incoming : CameraDevice) : string :=
  default (cd_device_id incoming) (find_matching_camera_device_id s incoming).

Definition upsert_matching (s : DeviceRegistrySnapshot) (incoming : CameraDevice) : DeviceRegistrySnapshot :=
  upsert_camera_device (set_camera_device_id (resolved_device_id s incoming) incoming) s.

Definition upsert_camera_devices_preserving_platform_records (l : list CameraDevice)
    (s : DeviceRegistrySnapshot) : DeviceRegistrySnapshot :=
  foldl upsert_matching s (normalize_camera_metadata <$> l).

(** The removal [prune_missing_camera_devices] and
    [prune_missing_home_assistant_entities] end with. *)
Definition remove_devices (ids : list string) (s : DeviceRegistrySnapshot) : DeviceRegistrySnapshot :=
  match ids with
  | [] => s
  | _ =>
      let keep {A} (id : A -> string) (l : list A) := List.filter (fun x => negb (str_in (id x) ids)) l in
      {| schema_version := schema_version s; devices := keep dv_device_id (devices s);
         device_endpoints := keep ep_device_id (device_endpoints s);
         provider_bindings := keep pb_device_id (provider_bindings s);
         capabilities := keep cr_device_id (capabilities s);
         device_twins := keep tw_device_id (device_twins s);
         camera_profiles := keep cam_device_id (camera_profiles s);
         stream_profiles := keep sp_device_id (stream_profiles s) |}
  end.

Definition prune_missing_camera_devices (keep : list string) (s : DeviceRegistrySnapshot)
  : DeviceRegistrySnapshot :=
  remove_devices (dv_device_id <$> List.filter (fun d => is_camera d && negb (str_in (dv_device_id d) keep))
                                     (devices s)) s.

Definition replace_camera_devices_preserving_platform_records (l : list CameraDevice)
    (s : DeviceRegistrySnapshot) : DeviceRegistrySnapshot :=
  let normalized := normalize_camera_metadata <$> l in
  let keep := resolved_device_id s <$> normalized in
  prune_missing_camera_devices keep (upsert_camera_devices_preserving_platform_records normalized s).

(** * Home Assistant *)

Fixpoint slug_from (ends_with_dash : bool) (s : string) : string :=
  match s with
  | EmptyString => EmptyString
  | String c r =>
      if is_ascii_alphanumeric c then String (ascii_lower c) (slug_from false r)
      else if ends_with_dash then slug_from true r else String "-" (slug_from true r)
  end.

Definition home_assistant_device_id (entity_id : string) : string :=
  let slug := trim_matches (Ascii.eqb "-") (slug_from false entity_id) in
  if is_empty slug then "ha-entity" else "ha-" +:+ slug.

Definition home_assistant_binding_id (device_id : string) : string :=
  device_id +:+ "::binding::home_assistant".

Definition home_assistant_device_kind (domain : string) : DeviceKind :=
  if domain =? "camera" then DevCamera
  else if domain =? "light" then DevLight
  else if str_in domain ["sensor"; "binary_sensor"] then DevSensor
  else if domain =? "lock" then DevLock
  else if str_in domain ["media_player"; "scene"; "script"; "automation"; "climate"; "cover"; "fan"; "switch"]
  then DevService
  else DevUnknown.

Definition home_assistant_connectivity_state (state : string) : ConnectivityState :=
  if state =? "unavailable" then ConnOffline else if state =? "unknown" then ConnUnknown else ConnOnline.

Definition home_assistant_capability_availability (state : string) : CapabilityAvailability :=
  if state =? "unavailable" then CapUnavailable else if state =? "unknown" then CapDegraded else CapAvailable.

Definition home_assistant_metadata (e : HomeAssistantRegistryEntity) : jv :=
  json_object
    [("provider_key", JStr "home_assistant"); ("provider_kind", JStr "bridge");
     ("remote_device_id", JStr (ha_entity_id e)); ("domain", JStr (ha_domain e));
     ("device_class", json_option JStr (ha_device_class e)); ("read_only_mvp", JBool true);
     ("camera_role", JStr (if ha_domain e =? "camera" then "discovery_status_fallback"
                           else "state_projection"))].

Definition upsert_home_assistant_record (device_id : string) (e : HomeAssistantRegistryEntity)
    (s : DeviceRegistrySnapshot) : DeviceRegistrySnapshot :=
  set_devices
    (upsert_first (fun d => dv_device_id d =? device_id)
       (fun d =>
          {| dv_device_id := dv_device_id d; dv_workspace_id := dv_workspace_id d;
             dv_kind := home_assistant_device_kind (ha_domain e); dv_subtype := dv_subtype d;
             dv_display_name := ha_display_name e; dv_aliases := dv_aliases d;
             dv_vendor := dv_vendor d; dv_model := dv_model d;
             dv_serial_number := dv_serial_number d; dv_mac_address := dv_mac_address d;
             dv_primary_room_id := ha_area_id e; dv_lifecycle_state := LifeRegistered;
             dv_source := "home_assistant"; dv_metadata := home_assistant_metadata e |})
       {| dv_device_id := device_id; dv_workspace_id := "";
          dv_kind := home_assistant_device_kind (ha_domain e); dv_subtype := Some (ha_domain e);
          dv_display_name := ha_display_name e; dv_aliases := []; dv_vendor := Some "Home Assistant";
          dv_model := ha_device_class e; dv_serial_number := None; dv_mac_address := None;
          dv_primary_room_id := ha_area_id e; dv_lifecycle_state := LifeRegistered;
          dv_source := "home_assistant"; dv_metadata := home_assistant_metadata e |} (devices s)) s.

Definition upsert_home_assistant_twin (device_id : string) (e : HomeAssistantRegistryEntity)
    (s : DeviceRegistrySnapshot) : DeviceRegistrySnapshot :=
  let connectivity_state := home_assistant_connectivity_state (ha_state e) in
  let reported_state := json_object
    [("state", JStr (ha_state e)); ("attributes", ha_attributes e); ("domain", JStr (ha_domain e));
     ("entity_id", JStr (ha_entity_id e))] in
  let last_seen_at := if is_some (ha_last_updated e) then ha_last_updated e else ha_last_changed e in
  set_device_twins
    (upsert_first (fun t => tw_device_id t =? device_id)
       (fun t =>
          {| tw_device_id := tw_device_id t; tw_connectivity_state := connectivity_state;
             tw_reported_state := reported_state; tw_desired_state := tw_desired_state t;
             tw_health_state := tw_health_state t; tw_last_event_id := tw_last_event_id t;
             tw_last_seen_at := last_seen_at |})
       {| tw_device_id := device_id; tw_connectivity_state := connectivity_state;
          tw_reported_state := reported_state; tw_desired_state := JObj []; tw_health_state := JObj [];
          tw_last_event_id := None; tw_last_seen_at := last_seen_at |} (device_twins s)) s.

Definition replace_home_assistant_binding (device_id : string) (e : HomeAssistantRegistryEntity)
    (sync_at : string) (s : DeviceRegistrySnapshot) : DeviceRegistrySnapshot :=
  set_provider_bindings
    (List.filter (fun b => negb ((pb_device_id b =? device_id) && (pb_provider_key b =? "home_assistant")))
       (provider_bindings s)
     ++ [{| pb_binding_id := home_assistant_binding_id device_id; pb_device_id := device_id;
            pb_provider_account_id := None; pb_provider_key := "home_assistant";
            pb_provider_kind := ProviderBridge; pb_remote_device_id := Some (ha_entity_id e);
            pb_credential_ref := None; pb_binding_status := BindingActive;
            pb_support_mode := SupportBridge;
            pb_metadata := json_object
              [("domain", JStr (ha_domain e)); ("device_class", json_option JStr (ha_device_class e));
               ("read_only_mvp", JBool true); ("service_calls_exposed", JBool false)];
            pb_last_sync_at := Some sync_at |}]) s.

Definition replace_home_assistant_capabilities (device_id : string) (e : HomeAssistantRegistryEntity)
    (s : DeviceRegistrySnapshot) : DeviceRegistrySnapshot :=
  set_capabilities
    (List.filter (fun r => negb ((cr_device_id r =? device_id)
         && match cr_source_binding_id r with
            | Some binding_id => binding_id =? home_assistant_binding_id device_id
            | None => false
            end)) (capabilities s)
     ++ [{| cr_capability_id := device_id +:+ "::capability::ha_state"; cr_device_id := device_id;
            cr_capability_code := "ha." +:+ ha_domain e +:+ ".state"; cr_category := CategoryState;
            cr_access_mode := AccessRead; cr_support_mode := SupportBridge;
            cr_availability := home_assistant_capability_availability (ha_state e);
            cr_source_binding_id := Some (home_assistant_binding_id device_id);
            cr_metadata := json_object
              [("entity_id", JStr (ha_entity_id e)); ("domain", JStr (ha_domain e));
               ("read_only_mvp", JBool true)] |}]) s.

Definition upsert_home_assistant_device (sync_at : string) (s : DeviceRegistrySnapshot)
    (e : HomeAssistantRegistryEntity) : DeviceRegistrySnapshot :=
  let device_id := home_assistant_device_id (ha_entity_id e) in
  replace_home_assistant_capabilities device_id e
    (replace_home_assistant_binding device_id e sync_at
      (upsert_home_assistant_twin device_id e (upsert_home_assistant_record device_id e s))).

Definition prune_missing_home_assistant_entities (keep : list string) (s : DeviceRegistrySnapshot)
  : DeviceRegistrySnapshot :=
  remove_devices
    (dv_device_id <$> List.filter (fun d => (dv_source d =? "home_assistant")
                                            && negb (str_in (dv_device_id d) keep)) (devices s)) s.

Definition upsert_home_assistant_entities (l : list HomeAssistantRegistryEntity) (sync_at : string)
    (s : DeviceRegistrySnapshot) : DeviceRegistrySnapshot :=
  prune_missing_home_assistant_entities
    ((fun e => home_assistant_device_id (ha_entity_id e)) <$> l)
    (foldl (upsert_home_assistant_device sync_at) s l).
End registry.

(** * The registry's file *)

Inductive DeviceRegistryPayload :=
| Legacy (l : list CameraDevice)
| Snapshot (s : DeviceRegistrySnapshot).

(** [serde_json::to_string_pretty] of a snapshot and [serde_json::from_str] at the
    payload: an object is read as a snapshot. *)
Class RegistryCodec (Text : Type) := {
  registry_to_string : DeviceRegistrySnapshot -> result string Text;
  registry_from_str : Text -> result string DeviceRegistryPayload;
  registry_from_to s t : registry_to_string s = Ok t -> registry_from_str t = Ok (Snapshot s)
}.

(** The path, and its parent, displayed. *)
Record DeviceRegistryStore := {
  registry_path : string;
  registry_parent : option string
}.

Section store.
Context `{!UrlParser} {Text : Type} `{!RegistryCodec Text} (store : DeviceRegistryStore).

Definition ensure_registry_parent (io : Io Text) : result string unit :=
  match registry_parent store, mkdir_fault io with
  | Some p, Some error => Err ("failed to create device registry directory " +:+ p +:+ ": " +:+ error)
  | _, _ => Ok tt
  end.

(** The text of an existing file. *)
Definition read_registry_text (io : Io Text) (text : Text) : result string Text :=
  match read_fault io with
  | Some error => Err ("failed to read device registry " +:+ registry_path store +:+ ": " +:+ error)
  | None => Ok text
  end.

Definition load_snapshot (io : Io Text) (d : Disk Text) : result string DeviceRegistrySnapshot :=
  match d with
  | None => Ok empty_registry_snapshot
  | Some text =>
      if stat_fault io then Ok empty_registry_snapshot else
      match read_registry_text io text with
      | Err error => Err error
      | Ok text =>
          match registry_from_str text with
          | Err error => Err ("failed to parse device registry " +:+ registry_path store +:+ ": " +:+ error)
          | Ok (Legacy l) => Ok (from_camera_devices l)
          | Ok (Snapshot s) => Ok s
          end
      end
  end.

Definition save_snapshot (s : DeviceRegistrySnapshot) (io : Io Text) (d : Disk Text)
  : Disk Text * result string unit :=
  match ensure_registry_parent io with
  | Err error => (d, Err error)
  | Ok _ =>
      match registry_to_string s with
      | Err error =>
          (d, Err ("failed to serialize device registry " +:+ registry_path store +:+ ": " +:+ error))
      | Ok payload =>
          match write_fault io with
          | Some (error, remains) =>
              (remains, Err ("failed to write device registry " +:+ registry_path store +:+ ": " +:+ error))
          | None => (Some payload, Ok tt)
          end
      end
  end.

Definition load_devices (io : Io Text) (d : Disk Text) : result string (list CameraDevice) :=
  to_camera_devices <$> load_snapshot io d.

Definition load_camera_targets (io : Io Text) (d : Disk Text) : result string (list ResolvedCameraTarget) :=
  camera_targets <$> load_snapshot io d.

Definition resolve_camera_target (device_id : string) (io : Io Text) (d : Disk Text)
  : result string ResolvedCameraTarget :=
  match load_snapshot io d with
  | Err error => Err error
  | Ok s => ok_or ("device not found in registry: " +:+ device_id) (camera_target s device_id)
  end.

Definition with_schema_version (s : DeviceRegistrySnapshot) : DeviceRegistrySnapshot :=
  if (schema_version s =? 0)%Z then set_schema_version default_registry_schema_version s else s.

Definition save_devices (l : list CameraDevice) (io : Io Text) (d : Disk Text)
  : Disk Text * result string unit :=
  match load_snapshot io d with
  | Err error => (d, Err error)
  | Ok s =>
      save_snapshot (replace_camera_devices_preserving_platform_records l (with_schema_version s)) io d
  end.

Definition upsert_devices (l : list CameraDevice) (io : Io Text) (d : Disk Text)
  : Disk Text * result string DeviceRegistrySnapshot :=
  match load_snapshot io d with
  | Err error => (d, Err error)
  | Ok s =>
      let s := upsert_camera_devices_preserving_platform_records l (with_schema_version s) in
      match save_snapshot s io d with
      | (d, Err error) => (d, Err error)
      | (d, Ok _) => (d, Ok s)
      end
  end.
End store.
