(* ===== verification/RegistryView.v ===== *)
(** The registry's invariant: identifiers are unique, every record belongs to a
    registered device, and a managed stream profile to the device its name says; and
    that every operation keeps it. Then what the registry's cameras are: a registry
    that cameras were only written to by its operations is, for the callers, the list
    of the cameras seen; upserting one changes the first that has its identifier or its
    stream's URL, or appends it. *)
From S2P Require Import Prelude RustString Json TaskRecords Devices Registry.
Local Open Scope string_scope.
Local Open Scope list_scope.

#[local] Existing Instance jv_json.

Lemma NoDup_list_filter {A B} (f : A -> B) (p : A -> bool) l :
  NoDup (f <$> l) -> NoDup (f <$> List.filter p l).
Proof.
  induction l as [|x l IH]; cbn; [done|]. intros [Hx Hl]%NoDup_cons. destruct (p x); cbn; [|by apply IH].
  constructor; [|by apply IH]. intros (y & E & Hy)%list_elem_of_fmap. apply Hx.
  apply list_elem_of_fmap. exists y. split; [done|]. by apply elem_of_list_filter in Hy as [? _].
Qed.

(** * Managed identifiers *)

Lemma str_app_inj_l (s t p : string) : s +:+ p = t +:+ p -> s = t.
Proof.
  intros E. apply (f_equal str_rev) in E. rewrite !str_rev_app in E.
  assert (forall q a b, q +:+ a = q +:+ b -> a = b) as Hq.
  { intros q a b. induction q as [|c q IH]; cbn; [done|]. intros [= Hc]. by apply IH. }
  apply Hq, (f_equal str_rev) in E. by rewrite !str_rev_involutive in E.
Qed.

(** Strings with different last characters. *)
Lemma str_last_ne s t a b : a <> b -> s +:+ String a "" <> t +:+ String b "".
Proof.
  intros Hab E. apply (f_equal str_rev) in E. rewrite !str_rev_app in E. cbn in E. congruence.
Qed.

Lemma stream_profile_id_inj i j :
  managed_camera_primary_stream_profile_id i = managed_camera_primary_stream_profile_id j -> i = j.
Proof. apply str_app_inj_l. Qed.

Lemma endpoint_ids_disjoint i j e :
  e ∈ managed_camera_endpoint_ids i -> e ∈ managed_camera_endpoint_ids j -> i = j.
Proof.
  unfold managed_camera_endpoint_ids, managed_camera_ipv4_endpoint_id,
    managed_camera_primary_stream_endpoint_id. rewrite !elem_of_cons, !elem_of_nil.
  intros [->|[->|[]]] [E|[E|[]]]; try (by apply str_app_inj_l in E).
  - change "::endpoint::ipv4" with ("::endpoint::ipv" +:+ "4") in E.
    change "::endpoint::primary_stream" with ("::endpoint::primary_strea" +:+ "m") in E.
    rewrite <-!str_app_assoc in E. by apply str_last_ne in E.
  - change "::endpoint::ipv4" with ("::endpoint::ipv" +:+ "4") in E.
    change "::endpoint::primary_stream" with ("::endpoint::primary_strea" +:+ "m") in E.
    rewrite <-!str_app_assoc in E. by apply str_last_ne in E.
Qed.

Lemma binding_ids_disjoint i j e :
  e ∈ managed_provider_binding_ids i -> e ∈ managed_provider_binding_ids j -> i = j.
Proof.
  unfold managed_provider_binding_ids. rewrite !elem_of_cons, !elem_of_nil.
  change "::binding::stream" with ("::binding::strea" +:+ "m").
  change "::binding::onvif" with ("::binding::onvi" +:+ "f").
  change "::binding::ezviz" with ("::binding::ezvi" +:+ "z").
  rewrite <-!str_app_assoc.
  intros [->|[->|[->|[]]]] [E|[E|[E|[]]]]; try (by apply str_last_ne in E);
    rewrite !str_app_assoc in E; by apply str_app_inj_l in E.
Qed.

(** * The invariant *)

Definition ids (s : DeviceRegistrySnapshot) : list string := dv_device_id <$> devices s.

(** Every record of the list belongs to one of the devices. *)
Definition owned {A} (device : A -> string) (known : list string) (l : list A) : Prop :=
  forall x, x ∈ l -> device x ∈ known.

Record registry_wf (s : DeviceRegistrySnapshot) : Prop := {
  w_devices : NoDup (ids s);
  w_twins : NoDup (tw_device_id <$> device_twins s);
  w_profiles : NoDup (cam_device_id <$> camera_profiles s);
  w_endpoints : NoDup (ep_endpoint_id <$> device_endpoints s);
  w_own_endpoints : owned ep_device_id (ids s) (device_endpoints s);
  w_own_bindings : owned pb_device_id (ids s) (provider_bindings s);
  w_own_capabilities : owned cr_device_id (ids s) (capabilities s);
  w_own_twins : owned tw_device_id (ids s) (device_twins s);
  w_own_profiles : owned cam_device_id (ids s) (camera_profiles s);
  w_own_streams : owned sp_device_id (ids s) (stream_profiles s);
  w_streams p i : p ∈ stream_profiles s ->
    sp_stream_profile_id p = managed_camera_primary_stream_profile_id i -> sp_device_id p = i
}.

Lemma owned_mono {A} (device : A -> string) known known' l :
  (forall i, i ∈ known -> i ∈ known') -> owned device known l -> owned device known' l.
Proof. unfold owned. naive_solver. Qed.

Lemma owned_app {A} (device : A -> string) known l1 l2 :
  owned device known l1 -> owned device known l2 -> owned device known (l1 ++ l2).
Proof. unfold owned. intros H1 H2 x [?|?]%elem_of_app; auto. Qed.

Lemma owned_filter {A} (device : A -> string) known p l :
  owned device known l -> owned device known (List.filter p l).
Proof. intros Hl x [Hx _]%elem_of_list_filter. by apply Hl. Qed.

Lemma owned_upsert {A} (device : A -> string) known k change new l :
  (forall x, device (change x) = device x) -> device new = k -> k ∈ known ->
  owned device known l -> owned device known (upsert_first (fun x => device x =? k) change new l).
Proof.
  intros Hc Hn Hk Hl x Hx. apply elem_of_upsert_first in Hx as [Hx|[->|(y & Hy & _ & ->)]].
  - by apply Hl.
  - by rewrite Hn.
  - rewrite Hc. by apply Hl.
Qed.

Lemma registry_wf_empty : registry_wf empty_registry_snapshot.
Proof.
  split; cbn; try apply NoDup_nil_2; try (by intros x Hx%not_elem_of_nil).
  by intros p i Hp%not_elem_of_nil.
Qed.

(** * Operations keep it *)

Section inv.
Context `{!UrlParser}.

Lemma ids_upsert c s :
  ids (upsert_camera_record c s)
  = if bool_decide (cd_device_id c ∈ ids s) then ids s else ids s ++ [cd_device_id c].
Proof. by apply (upsert_first_keys dv_device_id (cd_device_id c)). Qed.

Lemma ids_upsert_mono c s i : i ∈ ids s -> i ∈ ids (upsert_camera_record c s).
Proof. intros Hi. rewrite ids_upsert. destruct (bool_decide _); [done|]. rewrite elem_of_app. by left. Qed.

Lemma ids_upsert_in c s : cd_device_id c ∈ ids (upsert_camera_record c s).
Proof.
  rewrite ids_upsert. destruct (bool_decide_reflect (cd_device_id c ∈ ids s)); [done|].
  rewrite elem_of_app. right. by left.
Qed.

Lemma managed_endpoints_owned c : owned ep_device_id [cd_device_id c] (managed_endpoints c).
Proof.
  unfold managed_endpoints. intros e [He|He]%elem_of_app.
  - destruct (cd_ip_address c); cbn in He; [|by apply not_elem_of_nil in He].
    apply list_elem_of_singleton in He as ->. by left.
  - apply list_elem_of_singleton in He as ->. by left.
Qed.

Lemma managed_endpoints_ids c :
  (forall e, e ∈ managed_endpoints c -> ep_endpoint_id e ∈ managed_camera_endpoint_ids (cd_device_id c))
  /\ NoDup (ep_endpoint_id <$> managed_endpoints c).
Proof.
  unfold managed_endpoints, managed_camera_endpoint_ids. destruct (cd_ip_address c) as [a|]; cbn.
  - split.
    + intros e [->|[->|[]%not_elem_of_nil]%elem_of_cons]%elem_of_cons; cbn; [by left|right; by left].
    + constructor; [|apply NoDup_singleton]. intros E%list_elem_of_singleton.
      unfold managed_camera_ipv4_endpoint_id, managed_camera_primary_stream_endpoint_id in E.
      change "::endpoint::ipv4" with ("::endpoint::ipv" +:+ "4") in E.
      change "::endpoint::primary_stream" with ("::endpoint::primary_strea" +:+ "m") in E.
      rewrite <-!str_app_assoc in E. by apply str_last_ne in E.
  - split; [|apply NoDup_singleton]. intros e He%list_elem_of_singleton. rewrite He. cbn. right. by left.
Qed.

Lemma bindings_owned c : owned pb_device_id [cd_device_id c] (provider_bindings_from_camera c).
Proof.
  unfold provider_bindings_from_camera. intros b [->|[Hb|Hb]%elem_of_app]%elem_of_cons; [by left|..].
  - destruct (cd_onvif_device_service_url c); cbn in Hb; [|by apply not_elem_of_nil in Hb].
    apply list_elem_of_singleton in Hb as ->. by left.
  - destruct (cd_ezviz_device_serial c); cbn in Hb; [|by apply not_elem_of_nil in Hb].
    apply list_elem_of_singleton in Hb as ->. by left.
Qed.

Lemma capabilities_owned c : owned cr_device_id [cd_device_id c] (capability_records_from_camera c).
Proof.
  unfold capability_records_from_camera. intros r. rewrite !elem_of_app.
  intros [Hr|[Hr|[Hr|Hr]]]; (destruct (_ (cd_capabilities c)); [|by apply not_elem_of_nil in Hr]);
    apply list_elem_of_singleton in Hr as ->; by left.
Qed.

Lemma owned_one {A} (device : A -> string) i known l :
  i ∈ known -> owned device [i] l -> owned device known l.
Proof. intros Hi Hl x Hx%Hl. by apply list_elem_of_singleton in Hx as ->. Qed.

Lemma upsert_camera_device_wf c s : registry_wf s -> registry_wf (upsert_camera_device c s).
Proof.
  intros []. pose proof (ids_upsert_mono c s) as Hmono. pose proof (ids_upsert_in c s) as Hin.
  change (ids (upsert_camera_record c s)) with (ids (upsert_camera_device c s)) in Hmono, Hin.
  pose proof (managed_endpoints_ids c) as [Hep Hnd]. split.
  - apply (upsert_first_nodup dv_device_id (cd_device_id c)); done.
  - apply (upsert_first_nodup tw_device_id (cd_device_id c)); done.
  - apply (upsert_first_nodup cam_device_id (cd_device_id c)); done.
  - cbn. rewrite fmap_app. apply NoDup_app. split_and!; [by apply NoDup_list_filter| |done].
    intros i (e & -> & [_ He]%elem_of_list_filter)%list_elem_of_fmap (e' & E & He'%Hep)%list_elem_of_fmap.
    apply negb_true_iff, str_in_false in He. apply He. by rewrite E.
  - apply owned_app; [|by apply (owned_one _ _ _ _ Hin), managed_endpoints_owned].
    eapply owned_mono; [done|]. by apply owned_filter.
  - apply owned_app; [|by apply (owned_one _ _ _ _ Hin), bindings_owned].
    eapply owned_mono; [done|]. by apply owned_filter.
  - apply owned_app; [|by apply (owned_one _ _ _ _ Hin), capabilities_owned].
    eapply owned_mono; [done|]. by apply owned_filter.
  - apply owned_upsert; [done..|]. by eapply owned_mono.
  - apply owned_upsert; [done..|]. by eapply owned_mono.
  - apply owned_app; [eapply owned_mono; [done|]; by apply owned_filter|].
    intros p Hp%list_elem_of_singleton. by rewrite Hp.
  - cbn. intros p i [[Hp _]%elem_of_list_filter|Hp]%elem_of_app E; [by eapply w_streams0|].
    apply list_elem_of_singleton in Hp as ->. by apply stream_profile_id_inj in E.
Qed.

Lemma upsert_all_wf l s : registry_wf s -> registry_wf (foldl upsert_matching s l).
Proof.
  revert s. induction l as [|c l IH]; intros s Hs; cbn; [done|]. by apply IH, upsert_camera_device_wf.
Qed.

Lemma remove_devices_wf l s : registry_wf s -> registry_wf (remove_devices l s).
Proof.
  intros Hs. destruct l as [|i l]; [done|]. unfold remove_devices. cbv zeta. generalize (i :: l). intros rm.
  destruct Hs. assert (forall {A} (device : A -> string) (x : list A), owned device (ids s) x ->
    owned device (dv_device_id <$> List.filter (fun d => negb (str_in (dv_device_id d) rm)) (devices s))
      (List.filter (fun y => negb (str_in (device y) rm)) x)) as Hown.
  { intros A device x Hx y [Hy Hr]%elem_of_list_filter.
    apply Hx, list_elem_of_fmap in Hy as (d & E & Hd). apply list_elem_of_fmap. exists d.
    split; [done|]. apply elem_of_list_filter. by rewrite <-E. }
  split; cbn; try (by apply NoDup_list_filter); try (by apply Hown).
  intros p j [Hp _]%elem_of_list_filter. by apply w_streams0.
Qed.

Lemma upsert_home_assistant_device_wf at_time s e :
  registry_wf s -> registry_wf (upsert_home_assistant_device at_time s e).
Proof.
  intros []. set (i := home_assistant_device_id (ha_entity_id e)).
  assert (forall j, j ∈ ids s -> j ∈ ids (upsert_home_assistant_record i e s)) as Hmono.
  { intros j Hj. unfold ids. cbn. rewrite (upsert_first_keys dv_device_id i) by done.
    destruct (bool_decide _); [done|]. rewrite elem_of_app. by left. }
  assert (i ∈ ids (upsert_home_assistant_record i e s)) as Hin.
  { unfold ids. cbn. rewrite (upsert_first_keys dv_device_id i) by done.
    destruct (bool_decide_reflect (i ∈ dv_device_id <$> devices s)); [done|].
    rewrite elem_of_app. right. by left. }
  change (ids (upsert_home_assistant_record i e s))
    with (ids (upsert_home_assistant_device at_time s e)) in Hmono, Hin.
  split.
  - apply (upsert_first_nodup dv_device_id i); done.
  - apply (upsert_first_nodup tw_device_id i); done.
  - done.
  - done.
  - by eapply owned_mono.
  - apply owned_app; [eapply owned_mono; [done|]; by apply owned_filter|].
    intros p Hp%list_elem_of_singleton. by rewrite Hp.
  - apply owned_app; [eapply owned_mono; [done|]; by apply owned_filter|].
    intros p Hp%list_elem_of_singleton. by rewrite Hp.
  - apply owned_upsert; [done..|]. by eapply owned_mono.
  - by eapply owned_mono.
  - by eapply owned_mono.
  - done.
Qed.

(** The operations on a registry. *)
Inductive RegistryOp :=
| OpUpsert (l : list CameraDevice)
| OpReplace (l : list CameraDevice)
| OpSync (l : list HomeAssistantRegistryEntity) (sync_at : string).

Definition run_op (s : DeviceRegistrySnapshot) (op : RegistryOp) : DeviceRegistrySnapshot :=
  match op with
  | OpUpsert l => upsert_camera_devices_preserving_platform_records l s
  | OpReplace l => replace_camera_devices_preserving_platform_records l s
  | OpSync l sync_at => upsert_home_assistant_entities l sync_at s
  end.

Lemma run_op_wf s op : registry_wf s -> registry_wf (run_op s op).
Proof.
  intros Hs. destruct op as [l|l|l t]; cbn.
  - by apply upsert_all_wf.
  - by apply remove_devices_wf, upsert_all_wf.
  - apply remove_devices_wf. revert s Hs. induction l as [|e l IH]; intros s Hs; cbn; [done|].
    by apply IH, upsert_home_assistant_device_wf.
Qed.
End inv.

(** * The abstract registry *)

Definition newer {A} (new old : option A) : option A := if is_some new then new else old.

(** A camera as the registry gives it back. *)
Definition seen (c : CameraDevice) : CameraDevice :=
  {| cd_device_id := cd_device_id c; cd_name := cd_name c; cd_kind := LegacyCamera;
     cd_status := cd_status c; cd_room := cd_room c; cd_vendor := cd_vendor c; cd_model := cd_model c;
     cd_ip_address := cd_ip_address c; cd_mac_address := cd_mac_address c;
     cd_discovery_source := normalize_discovery_source (cd_discovery_source c);
     cd_primary_stream := cd_primary_stream c; cd_snapshot_url := cd_snapshot_url c;
     cd_onvif_device_service_url := cd_onvif_device_service_url c;
     cd_ezviz_device_serial := cd_ezviz_device_serial c;
     cd_ezviz_camera_no := if is_some (cd_ezviz_device_serial c) then cd_ezviz_camera_no c else None;
     cd_capabilities := cd_capabilities c; cd_last_seen_at := cd_last_seen_at c |}.

(** What is seen of a camera written over another: names, rooms, vendors, models,
    addresses, sources, snapshots and times that the new one does not have stay. *)
Definition merge_camera (old new : CameraDevice) : CameraDevice :=
  {| cd_device_id := cd_device_id old;
     cd_name := if is_blank (cd_name new) then cd_name old else cd_name new; cd_kind := LegacyCamera;
     cd_status := cd_status new; cd_room := newer (cd_room new) (cd_room old);
     cd_vendor := newer (cd_vendor new) (cd_vendor old);
     cd_model := newer (cd_model new) (cd_model old); cd_ip_address := cd_ip_address new;
     cd_mac_address := newer (cd_mac_address new) (cd_mac_address old);
     cd_discovery_source := if is_blank (cd_discovery_source new) then cd_discovery_source old
                            else normalize_discovery_source (cd_discovery_source new);
     cd_primary_stream := cd_primary_stream new;
     cd_snapshot_url := newer (cd_snapshot_url new) (cd_snapshot_url old);
     cd_onvif_device_service_url := cd_onvif_device_service_url new;
     cd_ezviz_device_serial := cd_ezviz_device_serial new;
     cd_ezviz_camera_no := if is_some (cd_ezviz_device_serial new) then cd_ezviz_camera_no new else None;
     cd_capabilities := cd_capabilities new;
     cd_last_seen_at := newer (cd_last_seen_at new) (cd_last_seen_at old) |}.

Definition spec_upsert (views : list CameraDevice) (c : CameraDevice) : list CameraDevice :=
  upsert_first (fun v => same_camera_view v c) (fun v => merge_camera v c) (seen c) views.

(** * Searches through lists that were replaced in part *)

Section searches.
Context {A : Type} (p q : A -> bool).

Lemma find_filter l : list_find p (List.filter q l) = list_find (fun x => q x && p x) l.
Proof.
  unfold list_find. induction l as [|x l IH]; cbn; [done|].
  destruct (q x); cbn; [by destruct (p x)|done].
Qed.

Lemma any_filter l : list_any p (List.filter q l) = list_any (fun x => q x && p x) l.
Proof.
  unfold list_any. induction l as [|x l IH]; cbn; [done|].
  destruct (q x); cbn; [by rewrite IH|done].
Qed.

Lemma find_kept l new :
  (forall x, x ∈ l -> p x = true -> q x = true) -> (forall x, x ∈ new -> p x = false) ->
  list_find p (List.filter q l ++ new) = list_find p l.
Proof.
  intros Hl Hn. rewrite list_find_app, (proj2 (list_find_none p new) Hn).
  assert (list_find p (List.filter q l) = list_find p l) as ->; [|by destruct (list_find p l)].
  revert Hl. unfold list_find. induction l as [|x l IH]; cbn; intros Hl; [done|].
  rewrite <-IH by (intros y Hy; apply Hl; by right). specialize (Hl x ltac:(left)).
  destruct (p x) eqn:E; [rewrite Hl by done; cbn; by rewrite E|]. destruct (q x); cbn; [by rewrite E|done].
Qed.

Lemma find_replaced l new :
  (forall x, x ∈ l -> p x = true -> q x = false) ->
  list_find p (List.filter q l ++ new) = list_find p new.
Proof.
  intros Hl. rewrite list_find_app. rewrite (proj2 (list_find_none p (List.filter q l))); [done|].
  intros x [Hx Hq]%elem_of_list_filter. destruct (p x) eqn:E; [|done]. by rewrite (Hl x Hx E) in Hq.
Qed.

Lemma any_kept l new :
  (forall x, x ∈ l -> p x = true -> q x = true) -> (forall x, x ∈ new -> p x = false) ->
  list_any p (List.filter q l ++ new) = list_any p l.
Proof.
  intros Hl Hn. apply eq_true_iff_eq. rewrite !list_any_true. setoid_rewrite elem_of_app.
  setoid_rewrite elem_of_list_filter. split.
  - intros (x & [[Hx _]|Hx] & Hp); [by exists x|]. by rewrite (Hn x Hx) in Hp.
  - intros (x & Hx & Hp). exists x. split; [left; split; [done|by apply Hl]|done].
Qed.

Lemma any_replaced l new :
  (forall x, x ∈ l -> p x = true -> q x = false) ->
  list_any p (List.filter q l ++ new) = list_any p new.
Proof.
  intros Hl. apply eq_true_iff_eq. rewrite !list_any_true. setoid_rewrite elem_of_app.
  setoid_rewrite elem_of_list_filter. split.
  - intros (x & [[Hx Hq]|Hx] & Hp); [|by exists x]. by rewrite (Hl x Hx Hp) in Hq.
  - intros (x & Hx & Hp). exists x. split; [by right|done].
Qed.
End searches.

(** * The snapshot a profile remembers *)

Definition features_ordered (p : CameraProfile) : Prop :=
  exists l, (cam_vendor_features p : jv) = JObj l /\ keys_ordered l.

Definition native_of (features : jv) : option string :=
  match jv_get features "native_snapshot_url" ≫= jv_str with
  | Some url => Some url
  | None => pointer ["native_snapshot"; "url"] features ≫= jv_str
  end.

Lemma native_of_profile (p : CameraProfile) :
  native_snapshot_url_from_camera_profile (Some p) = native_of (cam_vendor_features p).
Proof. done. Qed.

Lemma tapo_features_spec c existing l :
  match existing with Some (JObj l0) => l0 | _ => [] end = l -> keys_ordered l ->
  exists l', tapo_vendor_features c existing = JObj l' /\ keys_ordered l'
    /\ native_of (JObj l') = newer (normalize_optional_string (cd_snapshot_url c)) (native_of (JObj l)).
Proof.
  intros He Hl. unfold tapo_vendor_features. rewrite He.
  set (l1 := if is_tp_link_tapo_vendor _ _ then _ else _).
  assert (keys_ordered l1 /\ (forall k, k <> "rtsp_path_candidates" -> k <> "profile" -> entry k l1 = entry k l))
    as [H1 H2].
  { unfold l1. destruct (is_tp_link_tapo_vendor _ _); [|done]. split; [by repeat apply obj_insert_ordered|].
    intros k Hk1 Hk2. rewrite !entry_obj_insert by (done || by apply obj_insert_ordered).
    destruct (String.eqb_spec "rtsp_path_candidates" k); [congruence|].
    destruct (String.eqb_spec "profile" k); [congruence|done]. }
  destruct (normalize_optional_string (cd_snapshot_url c)) as [u|].
  - eexists. split; [done|]. split; [by apply obj_insert_ordered|]. unfold native_of. cbn.
    by rewrite entry_obj_insert.
  - eexists. split; [done|]. split; [done|]. unfold native_of. cbn. by rewrite !H2.
Qed.

(** * What is looked up for a device *)

Definition CAMERA_KEYS : list string := "onvif" :: "ezviz" :: STREAM_KEYS.

Definition is_ipv4 (e : DeviceEndpoint) : bool :=
  match ep_endpoint_kind e with EndpointIpv4 => true | _ => false end.

(** The device's IPv4 endpoints and camera bindings are the managed ones. *)
Record clean (s : DeviceRegistrySnapshot) (i : string) : Prop := {
  clean_ipv4 e : e ∈ device_endpoints s -> ep_device_id e = i -> is_ipv4 e = true ->
    ep_endpoint_id e = managed_camera_ipv4_endpoint_id i;
  clean_bindings b : b ∈ provider_bindings s -> pb_device_id b = i -> pb_provider_key b ∈ CAMERA_KEYS ->
    pb_binding_id b ∈ managed_provider_binding_ids i
}.

Definition profile_of (s : DeviceRegistrySnapshot) (i : string) : option CameraProfile :=
  list_find (fun p => cam_device_id p =? i) (camera_profiles s).
Definition twin_of (s : DeviceRegistrySnapshot) (i : string) : option DeviceTwin :=
  list_find (fun t => tw_device_id t =? i) (device_twins s).
Definition stream_of (s : DeviceRegistrySnapshot) (i : string) : option StreamProfile :=
  list_find (fun p => sp_stream_profile_id p =? managed_camera_primary_stream_profile_id i) (stream_profiles s).
Definition endpoint_of (s : DeviceRegistrySnapshot) (i : string) : option DeviceEndpoint :=
  list_find (fun e => ep_endpoint_id e =? managed_camera_primary_stream_endpoint_id i) (device_endpoints s).
Definition ip_of (s : DeviceRegistrySnapshot) (i : string) : option string :=
  ep_host <$> list_find (fun e => (ep_device_id e =? i) && is_ipv4 e) (device_endpoints s).
Definition binding_of (s : DeviceRegistrySnapshot) (i : string) (p : string -> bool) : option ProviderBinding :=
  list_find (fun b => (pb_device_id b =? i) && p (pb_provider_key b)) (provider_bindings s).
Definition code_of (s : DeviceRegistrySnapshot) (i code : string) : bool :=
  list_any (fun r => (cr_device_id r =? i) && (cr_capability_code r =? code)) (capabilities s).

(** The view these give. *)
Definition view_of (s : DeviceRegistrySnapshot) (d : DeviceRecord) (p : CameraProfile)
    (sp : StreamProfile) (e : DeviceEndpoint) : CameraDevice :=
  let i := dv_device_id d in
  {| cd_device_id := i; cd_name := dv_display_name d; cd_kind := LegacyCamera;
     cd_status := match twin_of s i with
                  | Some t => connectivity_to_legacy_status (tw_connectivity_state t)
                  | None => DeviceUnknown
                  end;
     cd_room := dv_primary_room_id d; cd_vendor := dv_vendor d; cd_model := dv_model d;
     cd_ip_address := ip_of s i; cd_mac_address := dv_mac_address d;
     cd_discovery_source := dv_source d;
     cd_primary_stream :=
       {| cs_transport := control_stream_transport_to_legacy (sp_transport sp);
          cs_url := stream_url_from_endpoint e; cs_requires_auth := ep_requires_auth e |};
     cd_snapshot_url :=
       match binding_of s i (fun k => str_in k STREAM_KEYS)
               ≫= (fun b => jv_get (pb_metadata b) "snapshot_url" ≫= jv_str) with
       | Some url => Some url
       | None => native_of (cam_vendor_features p)
       end;
     cd_onvif_device_service_url :=
       binding_of s i (fun k => k =? "onvif") ≫= (fun b => jv_get (pb_metadata b) "device_service_url" ≫= jv_str);
     cd_ezviz_device_serial := binding_of s i (fun k => k =? "ezviz") ≫= pb_remote_device_id;
     cd_ezviz_camera_no :=
       as_u32 <$> (binding_of s i (fun k => k =? "ezviz")
                     ≫= (fun b => jv_get (pb_metadata b) "camera_no" ≫= jv_u64));
     cd_capabilities :=
       {| cap_snapshot := code_of s i "snapshot"; cap_stream := code_of s i "stream_live";
          cap_ptz := code_of s i "ptz"; cap_audio := code_of s i "audio" |};
     cd_last_seen_at := twin_of s i ≫= tw_last_seen_at |}.

(** A device whose stream is the managed one. *)
Record streaming (s : DeviceRegistrySnapshot) (d : DeviceRecord) (p : CameraProfile)
    (sp : StreamProfile) (e : DeviceEndpoint) : Prop := {
  st_source : is_blank (dv_source d) = false;
  st_profile : profile_of s (dv_device_id d) = Some p;
  st_default : cam_default_stream_profile_id p
               = Some (managed_camera_primary_stream_profile_id (dv_device_id d));
  st_stream : stream_of s (dv_device_id d) = Some sp;
  st_stream_endpoint : sp_endpoint_id sp = managed_camera_primary_stream_endpoint_id (dv_device_id d);
  st_stream_device : sp_device_id sp = dv_device_id d;
  st_endpoint : endpoint_of s (dv_device_id d) = Some e;
  st_endpoint_device : ep_device_id e = dv_device_id d
}.

Lemma streaming_view s d p sp e :
  streaming s d p sp e -> is_camera d = true ->
  camera_of_target <$> resolved_camera_target s d = Some (view_of s d p sp e).
Proof.
  intros [Hs Hp Hd Hst Hse _ He _] Hc. unfold resolved_camera_target. rewrite Hc. cbn [negb].
  unfold profile_of in Hp. rewrite Hp. unfold preferred_stream_profile. cbn [mbind option_bind].
  rewrite Hd. cbn [mbind option_bind]. unfold stream_of in Hst. rewrite Hst. cbn [mbind option_bind].
  unfold endpoint_of in He. rewrite Hse, He, Hs. cbn [mbind option_bind].
  unfold binding_with. rewrite !find_filter. cbn. unfold camera_of_target, view_of. cbn. do 2 f_equal.
  unfold camera_capabilities_from_records, has_code. by rewrite !any_filter.
Qed.

(** * What writing a camera does to the look-ups *)

Section upsert.
Context `{!UrlParser} (c : CameraDevice) (s : DeviceRegistrySnapshot).
Hypothesis wf : registry_wf s.
Local Abbreviation s' := (upsert_camera_device c s).
Local Abbreviation k := (cd_device_id c).

Lemma stream_binding_key : str_in (pb_provider_key (stream_binding c)) STREAM_KEYS = true.
Proof.
  unfold str_in, stream_binding. cbn [pb_provider_key]. by destruct (cs_transport (cd_primary_stream c)).
Qed.

Lemma from_camera_bindings b :
  b ∈ provider_bindings_from_camera c ->
  pb_device_id b = k /\ pb_provider_key b ∈ CAMERA_KEYS /\ pb_binding_id b ∈ managed_provider_binding_ids k.
Proof.
  unfold provider_bindings_from_camera, managed_provider_binding_ids.
  intros [->|[Hb|Hb]%elem_of_app]%elem_of_cons.
  - split; [done|]. split; [|by left]. pose proof stream_binding_key as Hk. apply str_in_true in Hk.
    by do 2 right.
  - destruct (cd_onvif_device_service_url c); cbn in Hb; [|by apply not_elem_of_nil in Hb].
    apply list_elem_of_singleton in Hb as ->. split; [done|]. split; [by left|right; by left].
  - destruct (cd_ezviz_device_serial c); cbn in Hb; [|by apply not_elem_of_nil in Hb].
    apply list_elem_of_singleton in Hb as ->. split; [done|]. split; [right; by left|do 2 right; by left].
Qed.

Lemma managed_endpoint_ipv4 e :
  e ∈ managed_endpoints c -> ep_device_id e = k
  /\ (is_ipv4 e = true -> ep_endpoint_id e = managed_camera_ipv4_endpoint_id k).
Proof.
  unfold managed_endpoints. intros [He|He]%elem_of_app.
  - destruct (cd_ip_address c); cbn in He; [|by apply not_elem_of_nil in He].
    apply list_elem_of_singleton in He as ->. done.
  - apply list_elem_of_singleton in He as ->. split; [done|].
    unfold is_ipv4. cbn. by destruct (cs_transport (cd_primary_stream c)).
Qed.

(** Other devices. *)
Section other.
Context (i : string) (Hi : i <> k).

Lemma other_profile : profile_of s' i = profile_of s i.
Proof. by apply find_upsert_other. Qed.

Lemma other_twin : twin_of s' i = twin_of s i.
Proof. by apply find_upsert_other. Qed.

Lemma other_stream : stream_of s' i = stream_of s i.
Proof.
  apply find_kept.
  - intros p _ Hp%String.eqb_eq. apply negb_true_iff, andb_false_iff. right.
    apply String.eqb_neq. rewrite Hp. by intros E%stream_profile_id_inj.
  - intros p Hp%list_elem_of_singleton. rewrite Hp. cbn. apply String.eqb_neq.
    by intros E%stream_profile_id_inj.
Qed.

Lemma other_endpoint : endpoint_of s' i = endpoint_of s i.
Proof.
  apply find_kept.
  - intros e _ He%String.eqb_eq. apply negb_true_iff, str_in_false. rewrite He. intros Hm. apply Hi.
    eapply endpoint_ids_disjoint; [right; left|exact Hm].
  - intros e He%(proj1 (managed_endpoints_ids c)). apply String.eqb_neq. intros E. apply Hi.
    eapply endpoint_ids_disjoint; [right; left|]. by rewrite <-E.
Qed.

Lemma other_ip : clean s i -> ip_of s' i = ip_of s i.
Proof.
  intros Hc. unfold ip_of. f_equal. apply find_kept.
  - intros e He [Hd%String.eqb_eq H4]%andb_true_iff. apply negb_true_iff, str_in_false.
    rewrite (clean_ipv4 _ _ Hc e He Hd H4). intros Hm. apply Hi.
    eapply endpoint_ids_disjoint; [left|exact Hm].
  - intros e [He _]%managed_endpoint_ipv4. apply andb_false_iff. left. apply String.eqb_neq. congruence.
Qed.

Lemma other_binding p :
  (forall key, p key = true -> key ∈ CAMERA_KEYS) -> clean s i -> binding_of s' i p = binding_of s i p.
Proof.
  intros Hp Hc. apply find_kept.
  - intros b Hb [Hd%String.eqb_eq Hk%Hp]%andb_true_iff. apply negb_true_iff, str_in_false.
    intros Hm. apply Hi. eapply binding_ids_disjoint; [|exact Hm]. by apply Hc.
  - intros b (Hb & _ & _)%from_camera_bindings. apply andb_false_iff. left. apply String.eqb_neq. congruence.
Qed.

Lemma other_code code : code_of s' i code = code_of s i code.
Proof.
  apply any_kept.
  - intros r _ [Hd%String.eqb_eq _]%andb_true_iff. apply negb_true_iff, andb_false_iff. left.
    apply String.eqb_neq. congruence.
  - intros r Hr%capabilities_owned. apply list_elem_of_singleton in Hr. apply andb_false_iff. left.
    apply String.eqb_neq. congruence.
Qed.

Lemma other_clean : clean s i -> clean s' i.
Proof.
  intros Hc. split; cbn.
  - intros e [[He _]%elem_of_list_filter|[He _]%managed_endpoint_ipv4]%elem_of_app; [|congruence].
    by apply Hc.
  - intros b [[Hb _]%elem_of_list_filter|(Hb & _ & _)%from_camera_bindings]%elem_of_app; [|congruence].
    by apply Hc.
Qed.
End other.

(** The camera's own device. *)
Section own.
Hypothesis Hclean : clean s k.

Lemma own_profile : profile_of s' k = Some match profile_of s k with
  Some p => update_camera_profile c p | None => new_camera_profile c end.
Proof. by apply find_upsert_first. Qed.

Lemma own_twin : twin_of s' k = Some match twin_of s k with
  Some t => update_camera_twin c t | None => camera_twin c end.
Proof. by apply find_upsert_first. Qed.

Lemma own_stream : stream_of s' k = Some (primary_stream_profile c).
Proof.
  unfold stream_of. cbn -[list_find]. rewrite find_replaced.
  - unfold list_find. cbn. by rewrite String.eqb_refl.
  - intros p Hp E. apply negb_false_iff. rewrite E, andb_true_r. apply String.eqb_eq in E.
    apply String.eqb_eq. by apply (w_streams s wf).
Qed.

Lemma own_endpoint : endpoint_of s' k
  = Some (stream_endpoint_from_camera c (managed_camera_primary_stream_endpoint_id k)).
Proof.
  unfold endpoint_of. cbn -[list_find managed_endpoints]. rewrite find_replaced.
  - unfold managed_endpoints. rewrite list_find_app. rewrite (proj2 (list_find_none _ _)).
    + unfold list_find. cbn. by rewrite String.eqb_refl.
    + intros e He. destruct (cd_ip_address c); cbn in He; [|by apply not_elem_of_nil in He].
      apply list_elem_of_singleton in He as ->. cbn. apply String.eqb_neq.
      unfold managed_camera_ipv4_endpoint_id, managed_camera_primary_stream_endpoint_id.
      change "::endpoint::ipv4" with ("::endpoint::ipv" +:+ "4").
      change "::endpoint::primary_stream" with ("::endpoint::primary_strea" +:+ "m").
      rewrite <-!str_app_assoc. by apply str_last_ne.
  - intros e _ He%String.eqb_eq. apply negb_false_iff, str_in_true. rewrite He. right. by left.
Qed.

Lemma own_ip : ip_of s' k = cd_ip_address c.
Proof.
  unfold ip_of. cbn -[list_find managed_endpoints]. rewrite find_replaced.
  - unfold managed_endpoints. destruct (cd_ip_address c) as [a|]; unfold list_find, is_ipv4; cbn;
      rewrite String.eqb_refl; cbn; [done|]. by destruct (cs_transport (cd_primary_stream c)).
  - intros e He [Hd%String.eqb_eq H4]%andb_true_iff. apply negb_false_iff, str_in_true.
    rewrite (clean_ipv4 _ _ Hclean e He Hd H4). by left.
Qed.

Lemma own_binding p :
  (forall key, p key = true -> key ∈ CAMERA_KEYS) ->
  binding_of s' k p = list_find (fun b => p (pb_provider_key b)) (provider_bindings_from_camera c).
Proof.
  intros Hp. unfold binding_of. cbn -[list_find provider_bindings_from_camera]. rewrite find_replaced.
  - apply list_find_ext. intros b (Hb & _ & _)%from_camera_bindings. by rewrite Hb, String.eqb_refl.
  - intros b Hb [Hd%String.eqb_eq Hk%Hp]%andb_true_iff. apply negb_false_iff, str_in_true. by apply Hclean.
Qed.

Lemma own_code code : code ∈ MANAGED_CODES ->
  code_of s' k code = has_code code (capability_records_from_camera c).
Proof.
  intros Hc. unfold code_of. cbn -[capability_records_from_camera]. rewrite any_replaced.
  - apply list_any_ext. intros r Hr%capabilities_owned. apply list_elem_of_singleton in Hr.
    by rewrite Hr, String.eqb_refl.
  - intros r _ [Hd Hk%String.eqb_eq]%andb_true_iff. rewrite Hd. cbn. apply negb_false_iff, str_in_true.
    by rewrite Hk.
Qed.

Lemma own_clean : clean s' k.
Proof.
  split; cbn.
  - intros e [[He Hm]%elem_of_list_filter|He]%elem_of_app Hd H4; [|by apply managed_endpoint_ipv4].
    by apply (clean_ipv4 _ _ Hclean).
  - intros b [[Hb _]%elem_of_list_filter|Hb]%elem_of_app Hd Hk; [by apply Hclean|].
    by apply from_camera_bindings.
Qed.
End own.
End upsert.
