(* ===== verification/RegistryUpsert.v ===== *)
(** Writing a camera refines the abstract upsert: a registry whose cameras were all
    written by its operations gives, after one more, the views of [spec_upsert]. *)
From S2P Require Import Prelude RustString Json TaskRecords Devices Registry RegistryView.
Local Open Scope string_scope.
Local Open Scope list_scope.

#[local] Existing Instance jv_json.

(** * Managed registries *)

Definition view (s : DeviceRegistrySnapshot) (d : DeviceRecord) : option CameraDevice :=
  camera_of_target <$> resolved_camera_target s d.

Lemma to_camera_devices_view s : to_camera_devices s = omap (view s) (devices s).
Proof.
  unfold to_camera_devices, camera_targets. induction (devices s) as [|d l IH]; cbn; [done|].
  unfold view at 1. destruct (resolved_camera_target s d); cbn; by rewrite <-IH.
Qed.

(** A device with its managed stream, whose remembered snapshot is the one shown. *)
Definition tracked (s : DeviceRegistrySnapshot) (d : DeviceRecord) : Prop :=
  exists p sp e, streaming s d p sp e /\ clean s (dv_device_id d) /\ features_ordered p
    /\ native_of (cam_vendor_features p) = cd_snapshot_url (view_of s d p sp e).

(** A device without streams. *)
Definition untracked (s : DeviceRegistrySnapshot) (d : DeviceRecord) : Prop :=
  profile_of s (dv_device_id d) = None
  /\ forall p, p ∈ stream_profiles s -> sp_device_id p <> dv_device_id d.

(** The devices that are seen as cameras. *)
Definition watched (s : DeviceRegistrySnapshot) (d : DeviceRecord) : Prop :=
  tracked s d /\ is_camera d = true.

Definition managed_registry (s : DeviceRegistrySnapshot) : Prop :=
  registry_wf s /\ forall d, d ∈ devices s -> tracked s d \/ untracked s d.

Lemma managed_empty : managed_registry empty_registry_snapshot.
Proof. split; [apply registry_wf_empty|]. by intros d Hd%not_elem_of_nil. Qed.

Lemma untracked_view s d : untracked s d -> view s d = None.
Proof.
  unfold view, resolved_camera_target. intros [Hp Hs].
  destruct (negb (is_camera d)); [done|]. unfold profile_of in Hp. rewrite Hp.
  unfold preferred_stream_profile. cbn [mbind option_bind].
  assert (forall q, list_find (fun p => (sp_device_id p =? dv_device_id d) && q p) (stream_profiles s) = None)
    as Hnone.
  { intros q. apply list_find_none. intros p Hps. apply andb_false_iff. left. by apply String.eqb_neq, Hs. }
  rewrite Hnone. pose proof (Hnone (fun _ => true)) as Ht.
  rewrite (list_find_ext _ (fun p => sp_device_id p =? dv_device_id d)) in Ht
    by (intros; apply andb_true_r).
  by rewrite Ht.
Qed.

Lemma not_camera_view s d : is_camera d = false -> view s d = None.
Proof. unfold view, resolved_camera_target. by intros ->. Qed.

Lemma watched_view s d : watched s d ->
  exists p sp e, streaming s d p sp e /\ view s d = Some (view_of s d p sp e).
Proof. intros ((p & sp & e & Hs & _) & Hc). exists p, sp, e. split; [done|]. by apply streaming_view. Qed.

Lemma managed_view s d : managed_registry s -> d ∈ devices s ->
  match view s d with
  | Some v => watched s d /\ cd_device_id v = dv_device_id d
  | None => is_camera d = false \/ untracked s d
  end.
Proof.
  intros [_ Hm] Hd. destruct (is_camera d) eqn:Hc; [|rewrite not_camera_view by done; by left].
  destruct (Hm d Hd) as [Ht|Hu].
  - destruct (watched_view s d (conj Ht Hc)) as (p & sp & e & _ & ->). done.
  - rewrite untracked_view by done. by right.
Qed.

Lemma elem_of_views s v : managed_registry s ->
  v ∈ to_camera_devices s <-> exists d, d ∈ devices s /\ view s d = Some v.
Proof. intros _. rewrite to_camera_devices_view. apply list_elem_of_omap. Qed.

(** * Lists of views *)

Lemma upsert_first_ext {A} (p q : A -> bool) change new l v :
  list_find q l = Some v -> (forall x, x ∈ l -> p x = true <-> x = v) ->
  upsert_first q change new l = upsert_first p change new l.
Proof.
  unfold list_find. induction l as [|x l IH]; cbn; intros Hq Hp; [done|].
  destruct (q x) eqn:E.
  - simplify_eq. by rewrite (proj2 (Hp v ltac:(left)) eq_refl).
  - assert (p x = false) as ->.
    { apply not_true_iff_false. intros ->%Hp; [|left]. apply find_some in Hq as [_ Hq]. congruence. }
    f_equal. apply IH; [done|]. intros y Hy. apply Hp. by right.
Qed.

Lemma omap_upsert_first {A B} (f f' : A -> option B) (key : A -> string) k pB change new changeB newB l :
  NoDup (key <$> l) ->
  (forall x, x ∈ l -> key x <> k -> f' x = f x /\ forall v, f x = Some v -> pB v = false) ->
  (forall x, x ∈ l -> key x = k ->
     exists v, f x = Some v /\ pB v = true /\ f' (change x) = Some (changeB v)) ->
  (k ∉ key <$> l -> f' new = Some newB) ->
  omap f' (upsert_first (fun x => key x =? k) change new l) = upsert_first pB changeB newB (omap f l).
Proof.
  induction l as [|x l IH]; cbn; intros Hnd Hne Heq Hnew.
  - by rewrite Hnew by apply not_elem_of_nil.
  - apply NoDup_cons in Hnd as [Hx Hnd]. destruct (String.eqb_spec (key x) k) as [E|E]; cbn.
    + destruct (Heq x ltac:(left) E) as (v & -> & Hv & ->). cbn. rewrite Hv. f_equal.
      assert (forall y, y ∈ l -> f' y = f y) as Hl.
      { intros y Hy. apply Hne; [by right|]. intros E'. apply Hx. rewrite E, <-E'.
        by apply list_elem_of_fmap_2. }
      clear - Hl. induction l as [|y l IH]; cbn; [done|]. rewrite (Hl y) by left.
      rewrite IH; [done|]. intros z Hz. apply Hl. by right.
    + destruct (Hne x ltac:(left) E) as [-> Hv].
      assert (omap f' (upsert_first (fun x => key x =? k) change new l)
              = upsert_first pB changeB newB (omap f l)) as IH'.
      { apply IH; [done|..].
        - intros y Hy. apply Hne. by right.
        - intros y Hy. apply Heq. by right.
        - intros Hk. apply Hnew. intros [->|?]%elem_of_cons; done. }
      destruct (f x) as [v|]; [|done]. cbn. by rewrite Hv, IH'.
Qed.

(** * One camera *)

(** What the registry expects of a camera: [normalize_camera_metadata] provides the
    first, the type of the field the second. *)
Record well_formed (c : CameraDevice) : Prop := {
  cw_snapshot : normalize_optional_string (cd_snapshot_url c) = cd_snapshot_url c;
  cw_camera_no n : cd_ezviz_camera_no c = Some n -> (0 <= n < 4294967296)%Z
}.

Section one.
Context `{!UrlParser} (c : CameraDevice) (s : DeviceRegistrySnapshot).
Hypothesis Hm : managed_registry s.
Hypothesis Hc : well_formed c.
Hypothesis Hkind : cd_kind c = LegacyCamera.
Local Abbreviation s' := (upsert_camera_device c s).
Local Abbreviation k := (cd_device_id c).

Lemma other_view_of d p sp e :
  dv_device_id d <> k -> clean s (dv_device_id d) -> view_of s' d p sp e = view_of s d p sp e.
Proof.
  intros Hd Hcl. unfold view_of. cbv zeta. rewrite other_twin by done. rewrite other_ip by done.
  rewrite !other_binding; try done; [by rewrite !other_code|..]; intros key.
  - intros ->%String.eqb_eq. right. by left.
  - intros ->%String.eqb_eq. by left.
  - intros Hk%str_in_true. by do 2 right.
Qed.

Lemma other_tracked d : dv_device_id d <> k -> tracked s d -> tracked s' d.
Proof.
  intros Hd (p & sp & e & [] & Hcl & Hf & Hn). exists p, sp, e. split_and!.
  - split; try done; [by rewrite other_profile|by rewrite other_stream|by rewrite other_endpoint].
  - by apply other_clean.
  - done.
  - by rewrite other_view_of.
Qed.

Lemma other_untracked d : dv_device_id d <> k -> untracked s d -> untracked s' d.
Proof.
  intros Hd [Hp Hs]. unfold untracked. rewrite other_profile by done. split; [done|].
  intros p [[Hps _]%elem_of_list_filter|Hps%list_elem_of_singleton]%elem_of_app; [by apply Hs|].
  rewrite Hps. cbn. congruence.
Qed.

Lemma other_view d : dv_device_id d <> k -> d ∈ devices s -> view s' d = view s d.
Proof.
  intros Hd Hds. destruct (is_camera d) eqn:Hcam; [|by rewrite !not_camera_view].
  destruct (proj2 Hm d Hds) as [Ht|Hu].
  - destruct Ht as (p & sp & e & Hst & Hcl & Hr).
    pose proof (streaming_view _ _ _ _ _ Hst Hcam) as Hv. unfold view. rewrite Hv, <-other_view_of by done.
    apply streaming_view; [|done]. destruct Hst. split; try done.
    + by rewrite other_profile.
    + by rewrite other_stream.
    + by rewrite other_endpoint.
  - rewrite !untracked_view; [done..|]. by apply other_untracked.
Qed.

(** What is seen of a device [d] that the camera is written to. *)
Definition written (d : DeviceRecord) (snapshot last_seen : option string) : CameraDevice :=
  {| cd_device_id := k; cd_name := dv_display_name d; cd_kind := LegacyCamera;
     cd_status := cd_status c; cd_room := dv_primary_room_id d; cd_vendor := dv_vendor d;
     cd_model := dv_model d; cd_ip_address := cd_ip_address c; cd_mac_address := dv_mac_address d;
     cd_discovery_source := dv_source d; cd_primary_stream := cd_primary_stream c;
     cd_snapshot_url := newer (cd_snapshot_url c) snapshot;
     cd_onvif_device_service_url := cd_onvif_device_service_url c;
     cd_ezviz_device_serial := cd_ezviz_device_serial c;
     cd_ezviz_camera_no := if is_some (cd_ezviz_device_serial c) then cd_ezviz_camera_no c else None;
     cd_capabilities := cd_capabilities c; cd_last_seen_at := newer (cd_last_seen_at c) last_seen |}.

Definition written_profile : CameraProfile :=
  match profile_of s k with Some p => update_camera_profile c p | None => new_camera_profile c end.

Lemma binding_stream :
  list_find (fun b => str_in (pb_provider_key b) STREAM_KEYS) (provider_bindings_from_camera c)
  = Some (stream_binding c).
Proof.
  clear Hm Hc Hkind. unfold provider_bindings_from_camera, list_find. cbn [find].
  by rewrite (stream_binding_key c).
Qed.

Lemma binding_onvif :
  list_find (fun b => pb_provider_key b =? "onvif") (provider_bindings_from_camera c)
  = onvif_binding c <$> cd_onvif_device_service_url c.
Proof.
  clear Hm Hc Hkind. unfold provider_bindings_from_camera, list_find, stream_binding.
  by destruct (cs_transport _), (cd_onvif_device_service_url c), (cd_ezviz_device_serial c).
Qed.

Lemma binding_ezviz :
  list_find (fun b => pb_provider_key b =? "ezviz") (provider_bindings_from_camera c)
  = ezviz_binding c <$> cd_ezviz_device_serial c.
Proof.
  clear Hm Hc Hkind. unfold provider_bindings_from_camera, list_find, stream_binding.
  by destruct (cs_transport _), (cd_onvif_device_service_url c), (cd_ezviz_device_serial c).
Qed.

Lemma written_capabilities :
  camera_capabilities_from_records (capability_records_from_camera c) = cd_capabilities c.
Proof.
  clear Hm Hc Hkind. unfold camera_capabilities_from_records, capability_records_from_camera.
  by destruct (cd_capabilities c) as [[] [] [] []].
Qed.

Lemma written_camera_no :
  as_u32 <$> ((ezviz_binding c <$> cd_ezviz_device_serial c)
              ≫= (fun b => jv_get (pb_metadata b) "camera_no" ≫= jv_u64))
  = if is_some (cd_ezviz_device_serial c) then cd_ezviz_camera_no c else None.
Proof.
  destruct (cd_ezviz_device_serial c); [|done]. cbn.
  destruct (cd_ezviz_camera_no c) as [n|] eqn:E; [|done]. pose proof (cw_camera_no c Hc n E) as Hn.
  cbn. unfold u64_max, as_u32.
  rewrite (proj2 (andb_true_iff _ _)) by (split; apply Z.leb_le; lia). cbn. f_equal.
  apply Z.mod_small. lia.
Qed.

Lemma view_written d snapshot last_seen :
  clean s k -> dv_device_id d = k ->
  native_of (cam_vendor_features written_profile) = newer (cd_snapshot_url c) snapshot ->
  (twin_of s k ≫= tw_last_seen_at) = last_seen ->
  view_of s' d written_profile (primary_stream_profile c)
    (stream_endpoint_from_camera c (managed_camera_primary_stream_endpoint_id k))
  = written d snapshot last_seen.
Proof.
  intros Hcl Hd Hn Hlast. unfold view_of. cbv zeta. rewrite !Hd, own_twin, own_ip by done.
  rewrite !own_binding; try done; cycle 1.
  { by intros key ->%String.eqb_eq; right; left. } { by intros key ->%String.eqb_eq; left. }
  { intros key Hk%str_in_true. by do 2 right. }
  rewrite binding_stream, binding_onvif, binding_ezviz, written_camera_no.
  rewrite !own_code by (try done; unfold MANAGED_CODES; set_solver).
  fold (camera_capabilities_from_records (capability_records_from_camera c)).
  rewrite written_capabilities, Hn. unfold written. f_equal.
  - destruct (twin_of s k); cbn; by destruct (cd_status c).
  - cbn. destruct (cd_primary_stream c) as [t u a]. cbn. f_equal. by destruct t.
  - cbn. by destruct (cd_snapshot_url c).
  - by destruct (cd_onvif_device_service_url c).
  - by destruct (cd_ezviz_device_serial c).
  - rewrite <-Hlast. cbn. destruct (twin_of s k); cbn; by destruct (cd_last_seen_at c).
Qed.

Lemma streaming_written d :
  dv_device_id d = k -> is_blank (dv_source d) = false ->
  streaming s' d written_profile (primary_stream_profile c)
    (stream_endpoint_from_camera c (managed_camera_primary_stream_endpoint_id k)).
Proof.
  intros Hd Hs. split; rewrite ?Hd; try done.
  - by rewrite own_profile.
  - unfold written_profile. by destruct (profile_of s k).
  - apply own_stream. apply Hm.
  - apply own_endpoint.
Qed.

(** The result at the device, from the features it had. *)
Lemma tracked_written d l snapshot :
  clean s k -> dv_device_id d = k -> is_camera d = true -> is_blank (dv_source d) = false ->
  match profile_of s k with
  | Some p => (cam_vendor_features p : jv) = JObj l
  | None => l = []
  end -> keys_ordered l -> native_of (JObj l) = snapshot ->
  watched s' d /\ view s' d = Some (written d snapshot (twin_of s k ≫= tw_last_seen_at)).
Proof.
  intros Hcl Hd Hcam Hs Hl Hk Hn.
  assert (features_ordered written_profile /\
          native_of (cam_vendor_features written_profile) = newer (cd_snapshot_url c) snapshot) as [Hf Hnw].
  { assert (exists l', (cam_vendor_features written_profile : jv) = JObj l' /\ keys_ordered l'
        /\ native_of (JObj l') = newer (cd_snapshot_url c) snapshot) as (l' & E & Hk' & Hn').
    { rewrite <-Hn, <-(cw_snapshot c Hc). unfold written_profile. destruct (profile_of s k) as [p|].
      - apply (tapo_features_spec c (Some (cam_vendor_features p : jv)) l); [by rewrite Hl|done].
      - subst l. by apply (tapo_features_spec c None []). }
    split; [by exists l'|]. by rewrite <-Hn', <-E. }
  pose proof (view_written d snapshot _ Hcl Hd Hnw eq_refl) as Hv.
  pose proof (streaming_written d Hd Hs) as Hst. split.
  - split; [|done]. do 3 eexists. split; [exact Hst|]. rewrite Hd. split; [by apply own_clean|]. split; [done|].
    rewrite Hv. exact Hnw.
  - unfold view. by rewrite (streaming_view _ _ _ _ _ Hst Hcam), Hv.
Qed.
End one.

(** * A camera matched *)

(** The identifiers that are not those of cameras seen. *)
Definition taken (s : DeviceRegistrySnapshot) (i : string) : Prop :=
  exists d, d ∈ devices s /\ dv_device_id d = i /\ view s d = None.

Record acceptable (s : DeviceRegistrySnapshot) (c : CameraDevice) : Prop := {
  ac_kind : cd_kind c = LegacyCamera;
  ac_source : is_blank (cd_discovery_source c) = false;
  ac_formed : well_formed c;
  ac_free : ~ taken s (cd_device_id c)
}.

Lemma normalize_source_blank source : is_blank (normalize_discovery_source source) = is_blank source.
Proof. unfold normalize_discovery_source. by destruct (String.eqb_spec source "rtspprobe") as [->|]. Qed.

Lemma not_in_ids_clean s i : registry_wf s -> i ∉ ids s -> clean s i.
Proof.
  intros Hwf Hi. split.
  - intros e He Hd. destruct Hi. rewrite <-Hd. by apply (w_own_endpoints s Hwf).
  - intros b Hb Hd. destruct Hi. rewrite <-Hd. by apply (w_own_bindings s Hwf).
Qed.

Lemma not_in_ids_profile s i : registry_wf s -> i ∉ ids s -> profile_of s i = None.
Proof.
  intros Hwf Hi. apply list_find_none. intros p Hp. apply String.eqb_neq. intros Hd.
  destruct Hi. rewrite <-Hd. by apply (w_own_profiles s Hwf).
Qed.

Lemma not_in_ids_twin s i : registry_wf s -> i ∉ ids s -> twin_of s i = None.
Proof.
  intros Hwf Hi. apply list_find_none. intros p Hp. apply String.eqb_neq. intros Hd.
  destruct Hi. rewrite <-Hd. by apply (w_own_twins s Hwf).
Qed.

Section step.
Context `{!UrlParser} (c : CameraDevice) (s : DeviceRegistrySnapshot).
Hypothesis Hm : managed_registry s.
Hypothesis Ha : acceptable s c.

Lemma free_or_seen d : d ∈ devices s -> dv_device_id d = cd_device_id c -> watched s d.
Proof.
  intros Hd E. pose proof (managed_view s d Hm Hd) as Hv. destruct (view s d) as [v|] eqn:Ev; [by destruct Hv|].
  destruct (ac_free s c Ha). by exists d.
Qed.

(** Written over the device of a camera seen. *)
Lemma tracked_update d v c' :
  cd_kind c' = LegacyCamera -> well_formed c' ->
  d ∈ devices s -> watched s d -> view s d = Some v -> cd_device_id c' = dv_device_id d ->
  watched (upsert_camera_device c' s) (update_camera_record c' d)
  /\ view (upsert_camera_device c' s) (update_camera_record c' d) = Some (merge_camera v c').
Proof.
  clear Ha. intros Hkind Hf Hd ((p & sp & e & Hst & Hcl & (l & Hl & Hk) & Hn) & Hcam) Hv E.
  pose proof (streaming_view _ _ _ _ _ Hst Hcam) as Hv'. unfold view in Hv. rewrite Hv' in Hv. clear Hv'.
  simplify_eq. destruct (tracked_written c' s Hm Hf Hkind (update_camera_record c' d) l
    (cd_snapshot_url (view_of s d p sp e))) as [Ht Hw].
  - by rewrite E.
  - done.
  - unfold is_camera. cbn. by rewrite Hkind.
  - cbn. destruct (is_blank (cd_discovery_source c')) eqn:Eb; [apply Hst|by rewrite normalize_source_blank].
  - rewrite E, (st_profile _ _ _ _ _ Hst). done.
  - done.
  - by rewrite <-Hn, Hl.
  - split; [done|]. rewrite Hw. unfold written, merge_camera. cbn. by rewrite E.
Qed.

Lemma tracked_new c' :
  cd_kind c' = LegacyCamera -> well_formed c' -> is_blank (cd_discovery_source c') = false ->
  cd_device_id c' ∉ ids s ->
  let d := camera_record (normalize_discovery_source (cd_discovery_source c')) c' in
  watched (upsert_camera_device c' s) d /\ view (upsert_camera_device c' s) d = Some (seen c').
Proof.
  clear Ha. intros Hkind Hf Hb Hi d. pose proof (proj1 Hm) as Hwf.
  destruct (tracked_written c' s Hm Hf Hkind d [] None) as [Ht Hw].
  - by apply not_in_ids_clean.
  - done.
  - unfold is_camera. cbn. by rewrite Hkind.
  - cbn. by rewrite normalize_source_blank.
  - by rewrite not_in_ids_profile.
  - constructor.
  - done.
  - split; [done|]. rewrite Hw. unfold written, seen. rewrite not_in_ids_twin by done. cbn.
    f_equal. f_equal; [by destruct (cd_snapshot_url c')|by destruct (cd_last_seen_at c')].
Qed.

(** The camera written under its own identifier. *)
Section written.
Context (c' : CameraDevice).
Hypothesis Hkind : cd_kind c' = LegacyCamera.
Hypothesis Hf : well_formed c'.
Hypothesis Hb : is_blank (cd_discovery_source c') = false.
Hypothesis Ht : forall d, d ∈ devices s -> dv_device_id d = cd_device_id c' -> watched s d.
Local Abbreviation s' := (upsert_camera_device c' s).

Lemma elem_of_written d : d ∈ devices s' ->
  (d ∈ devices s /\ dv_device_id d <> cd_device_id c') \/ (watched s' d /\ dv_device_id d = cd_device_id c').
Proof.
  clear Ha. intros Hd.
  assert (forall d0, d0 ∈ devices s -> dv_device_id d0 = cd_device_id c' -> watched s' (update_camera_record c' d0))
    as Hupd.
  { intros d0 Hd0 E. pose proof (Ht d0 Hd0 E) as Htr.
    destruct (watched_view s d0 Htr) as (p & sp & e & _ & Hv).
    by apply (tracked_update d0 _ c' Hkind Hf Hd0 Htr Hv). }
  pose proof (w_devices s' (upsert_camera_device_wf c' s (proj1 Hm))) as Hnd.
  destruct (decide (dv_device_id d = cd_device_id c')) as [E|E].
  - right. split; [|done].
    destruct (list_find (fun x => dv_device_id x =? cd_device_id c') (devices s')) as [d1|] eqn:Hfind.
    2:{ pose proof (proj1 (list_find_none _ _) Hfind d Hd) as Hn. cbn in Hn. by apply String.eqb_neq in Hn. }
    assert (d = d1) as ->.
    { apply find_some in Hfind as [H1%list_elem_of_In E1%String.eqb_eq].
      eapply (NoDup_fmap_inj dv_device_id); [exact Hnd|done..|congruence]. }
    assert (list_find (fun x => dv_device_id x =? cd_device_id c') (devices s')
      = Some match list_find (fun x => dv_device_id x =? cd_device_id c') (devices s) with
             | Some x => update_camera_record c' x
             | None => camera_record (normalize_discovery_source (cd_discovery_source c')) c'
             end) as Hf' by by apply find_upsert_first.
    rewrite Hfind in Hf'. simplify_eq.
    destruct (list_find _ (devices s)) as [x|] eqn:Hx.
    + apply find_some in Hx as [Hx%list_elem_of_In Ex%String.eqb_eq]. by apply Hupd.
    + apply tracked_new; try done. intros (x & Ex & Hxs)%list_elem_of_fmap.
      pose proof (proj1 (list_find_none _ _) Hx x Hxs) as Hn. apply String.eqb_neq in Hn. congruence.
  - left. split; [|done]. apply elem_of_upsert_first in Hd as [Hd|[->|(x & Hx & Ex & ->)]]; done.
Qed.

Lemma written_managed : managed_registry s'.
Proof.
  split; [apply upsert_camera_device_wf, Hm|]. intros d [[Hd E]|[[Hd _] _]]%elem_of_written; [|by left].
  destruct (proj2 Hm d Hd); [left; by apply other_tracked|right; by apply other_untracked].
Qed.

Lemma written_taken i : taken s' i -> taken s i.
Proof.
  intros (d & [[Hd E]|[Hd _]]%elem_of_written & Hi & Hv).
  - exists d. split_and!; [done..|]. by rewrite <-(other_view c' s Hm d E Hd).
  - destruct (watched_view _ _ Hd) as (p & sp & e & _ & Hv'). congruence.
Qed.

Lemma written_stays d : d ∈ devices s -> view s d = None -> d ∈ devices s' /\ view s' d = None.
Proof.
  intros Hd Hv. assert (dv_device_id d <> cd_device_id c') as E.
  { intros E. destruct (watched_view s d (Ht d Hd E)) as (p & sp & e & _ & Hv'). congruence. }
  split; [by apply (upsert_first_keeps dv_device_id)|]. by rewrite other_view.
Qed.

Lemma written_views :
  to_camera_devices s' = upsert_first (fun v => cd_device_id v =? cd_device_id c')
                           (fun v => merge_camera v c') (seen c') (to_camera_devices s).
Proof.
  rewrite !to_camera_devices_view.
  apply (omap_upsert_first (view s) (view s') dv_device_id (cd_device_id c')).
  - apply (w_devices s), Hm.
  - intros d Hd E. split; [by apply other_view|]. intros v Hv. pose proof (managed_view s d Hm Hd) as Hmv.
    rewrite Hv in Hmv. destruct Hmv as [_ Hi]. apply String.eqb_neq. congruence.
  - intros d Hd E. pose proof (Ht d Hd E) as Htr. destruct (watched_view s d Htr) as (p & sp & e & _ & Hv).
    eexists. split; [exact Hv|]. split; [cbn; by rewrite E, String.eqb_refl|].
    by apply (tracked_update d _ c' Hkind Hf Hd Htr Hv).
  - intros Hi. by apply tracked_new.
Qed.
End written.
End step.
