(* ===== verification/RegistryRefinement.v ===== *)
(** Lists of cameras, Home Assistant's entities and removals over a managed registry:
    it stays managed, and what is seen is computed from what was seen. *)
From S2P Require Import Prelude RustString Json TaskRecords Devices Registry RegistryView.
From S2P Require Import RegistryUpsert.
Local Open Scope string_scope.
Local Open Scope list_scope.

#[local] Existing Instance jv_json.

(** * One camera of a list *)

Lemma upsert_first_new {A} (p : A -> bool) change new1 new2 l x :
  x ∈ l -> p x = true -> upsert_first p change new1 l = upsert_first p change new2 l.
Proof.
  induction l as [|y l IH]; cbn; [by intros ?%not_elem_of_nil|].
  intros [->|Hx]%elem_of_cons Hp; [by rewrite Hp|]. destruct (p y); [done|]. by rewrite IH.
Qed.

Lemma set_own_id c : set_camera_device_id (cd_device_id c) c = c.
Proof. by destruct c. Qed.

Lemma view_ids_inj s v w : managed_registry s ->
  v ∈ to_camera_devices s -> w ∈ to_camera_devices s -> cd_device_id v = cd_device_id w -> v = w.
Proof.
  intros Hm. rewrite !elem_of_views by done. intros (d & Hd & Hv) (d' & Hd' & Hw) E.
  pose proof (managed_view s d Hm Hd) as H1. pose proof (managed_view s d' Hm Hd') as H2.
  rewrite Hv in H1. rewrite Hw in H2. destruct H1 as [_ H1], H2 as [_ H2].
  assert (d = d') as <-; [|congruence].
  eapply (NoDup_fmap_inj dv_device_id); [apply (w_devices s), Hm|done..|congruence].
Qed.

Section step.
Context `{!UrlParser}.

Lemma set_id_formed i c : well_formed c -> well_formed (set_camera_device_id i c).
Proof. by intros []. Qed.

Lemma matching_step s c : managed_registry s -> acceptable s c ->
  managed_registry (upsert_matching s c)
  /\ to_camera_devices (upsert_matching s c) = spec_upsert (to_camera_devices s) c
  /\ (forall i, taken (upsert_matching s c) i -> taken s i)
  /\ forall d, d ∈ devices s -> view s d = None ->
       d ∈ devices (upsert_matching s c) /\ view (upsert_matching s c) d = None.
Proof.
  intros Hm Ha. unfold upsert_matching, resolved_device_id, find_matching_camera_device_id, spec_upsert.
  destruct (list_find (fun v => same_camera_view v c) (to_camera_devices s)) as [v|] eqn:E; cbn [fmap option_fmap option_map default from_option].
  - pose proof E as E'. apply find_some in E as [Hv%list_elem_of_In Hs].
    set (c' := set_camera_device_id (cd_device_id v) c).
    assert (forall d, d ∈ devices s -> dv_device_id d = cd_device_id c' -> watched s d) as Ht.
    { intros d Hd Ed. pose proof (proj1 (elem_of_views s v Hm) Hv) as (d0 & Hd0 & Hv0).
      pose proof (managed_view s d0 Hm Hd0) as Hmv. rewrite Hv0 in Hmv. destruct Hmv as [Htr Ei].
      assert (d = d0) as ->; [|done].
      eapply (NoDup_fmap_inj dv_device_id); [apply (w_devices s), Hm|done..|cbn in Ed; congruence]. }
    assert (well_formed c') as Hf by apply set_id_formed, (ac_formed s c Ha).
    pose proof (ac_kind s c Ha : cd_kind c' = _) as Hkind.
    pose proof (ac_source s c Ha : is_blank (cd_discovery_source c') = _) as Hb.
    split_and!.
    + by apply written_managed.
    + rewrite (written_views s Hm c' Hkind Hf Hb Ht).
      rewrite (upsert_first_ext (fun x => cd_device_id x =? cd_device_id v) _ _ _ _ _ E').
      * apply (upsert_first_new _ _ _ _ _ v Hv). cbn. apply String.eqb_refl.
      * intros x Hx. rewrite String.eqb_eq. split; [|by intros ->]. by apply (view_ids_inj s).
    + intros i. by apply written_taken.
    + intros d. by apply written_stays.
  - rewrite set_own_id. pose proof (proj1 (list_find_none _ _) E) as Hn.
    assert (forall d, d ∈ devices s -> dv_device_id d = cd_device_id c -> watched s d) as Ht
      by (intros d; by apply (free_or_seen c s Hm Ha)).
    destruct Ha as [Hkind Hb Hf _]. split_and!.
    + by apply written_managed.
    + rewrite (written_views s Hm c Hkind Hf Hb Ht).
      rewrite !upsert_first_absent; [done|done|]. intros v Hv. specialize (Hn v Hv). cbn in Hn.
      by apply orb_false_iff in Hn as [Hn _].
    + intros i. by apply written_taken.
    + intros d. by apply written_stays.
Qed.

(** What a list of cameras has to satisfy, one by one. *)
Lemma matching_steps l s : managed_registry s -> (forall c, c ∈ l -> acceptable s c) ->
  managed_registry (foldl upsert_matching s l)
  /\ to_camera_devices (foldl upsert_matching s l) = foldl spec_upsert (to_camera_devices s) l
  /\ (forall i, taken (foldl upsert_matching s l) i -> taken s i)
  /\ forall d, d ∈ devices s -> view s d = None -> d ∈ devices (foldl upsert_matching s l).
Proof.
  revert s. induction l as [|c l IH]; intros s Hm Ha; cbn; [done|].
  destruct (matching_step s c Hm (Ha c ltac:(left))) as (Hm' & Hv & Ht & Hd).
  destruct (IH (upsert_matching s c) Hm') as (Hm'' & Hv' & Ht' & Hd').
  - intros c' Hc'. destruct (Ha c' ltac:(by right)) as [? ? ? Hfree]. split; try done.
    intros Hc''. by apply Hfree, Ht.
  - split_and!; [done|by rewrite Hv', Hv|..].
    + intros i Hi. by apply Ht, Ht'.
    + intros d Hds Hdv. destruct (Hd d Hds Hdv). by apply Hd'.
Qed.
End step.

(** * Removals *)

Lemma find_filter_kept {A} (p q : A -> bool) l :
  (forall x, x ∈ l -> p x = true -> q x = true) -> list_find p (List.filter q l) = list_find p l.
Proof.
  intros Hl. rewrite <-(app_nil_r (List.filter q l)). apply find_kept; [done|]. by intros x Hx%not_elem_of_nil.
Qed.

Lemma find_filter_found {A} (p q : A -> bool) l x :
  list_find p l = Some x -> q x = true -> list_find p (List.filter q l) = Some x.
Proof.
  unfold list_find. induction l as [|y l IH]; cbn; [done|]. destruct (p y) eqn:E.
  - intros [= ->] ->. cbn. by rewrite E.
  - intros Hx Hq. destruct (q y); cbn; [rewrite E|]; by apply IH.
Qed.

Section remove.
Context (rm : list string) (s : DeviceRegistrySnapshot).
Hypothesis Hwf : registry_wf s.
Local Abbreviation s' := (remove_devices rm s).

Lemma remove_devices_filter : devices s' = List.filter (fun d => negb (str_in (dv_device_id d) rm)) (devices s).
Proof. clear Hwf. destruct rm; [|done]. cbn. induction (devices s) as [|d l IH]; cbn; [done|]. by rewrite <-IH. Qed.

Section kept.
Context (i : string) (Hi : i ∉ rm).

Lemma kept_id : negb (str_in i rm) = true.
Proof. clear Hwf. by apply negb_true_iff, str_in_false. Qed.

Lemma find_own {A} (device : A -> string) (p : A -> bool) (l : list A) :
  (forall x, x ∈ l -> p x = true -> device x = i) ->
  list_find p (List.filter (fun x => negb (str_in (device x) rm)) l) = list_find p l.
Proof. clear Hwf. intros Hp. apply find_filter_kept. intros x Hx Hpx. rewrite (Hp x Hx Hpx). apply kept_id. Qed.

Lemma kept_untracked d : dv_device_id d = i -> untracked s d -> untracked s' d.
Proof.
  intros Hd [Hp Hs]. clear Hwf. destruct rm as [|j l]; [done|]. split.
  - apply list_find_none. intros p [Hps _]%elem_of_list_filter. by apply (proj1 (list_find_none _ _) Hp).
  - intros p [Hps _]%elem_of_list_filter. by apply Hs.
Qed.

Lemma kept_streaming d p sp e : dv_device_id d = i -> streaming s d p sp e ->
  streaming s' d p sp e /\ view_of s' d p sp e = view_of s d p sp e /\ (clean s i -> clean s' i).
Proof.
  pose proof kept_id as Hk. pose proof @find_own as Hfind. revert Hk Hfind. destruct rm as [|j l]; [done|].
  intros Hk Hfind <- [].
  split_and!.
  - split; try done.
    + unfold profile_of. cbn -[list_find]. rewrite Hfind; [done..|]. by intros x _ ->%String.eqb_eq.
    + unfold stream_of. cbn -[list_find]. rewrite Hfind; [done..|]. intros x Hx E%String.eqb_eq.
      by apply (w_streams s Hwf).
    + unfold endpoint_of. cbn -[list_find]. apply find_filter_found; [done|]. by rewrite st_endpoint_device.
  - unfold view_of, twin_of, ip_of, binding_of, code_of. cbv zeta. cbn -[list_find].
    rewrite !Hfind; [|try done; by intros x _ [->%String.eqb_eq _]%andb_true_iff..|by intros x _ ->%String.eqb_eq].
    f_equal. f_equal; rewrite !any_filter; apply list_any_ext; intros r _;
      (destruct (String.eqb_spec (cr_device_id r) (dv_device_id d)) as [->|]; [by rewrite Hk|by rewrite andb_false_r]).
  - intros [H4 Hb]. split; cbn.
    + intros x [Hx _]%elem_of_list_filter. by apply H4.
    + intros x [Hx _]%elem_of_list_filter. by apply Hb.
Qed.
End kept.

Lemma removed_managed : managed_registry s -> managed_registry s'.
Proof.
  intros [_ Hm]. split; [by apply remove_devices_wf|]. rewrite remove_devices_filter.
  intros d [Hd Hk%negb_true_iff%str_in_false]%elem_of_list_filter.
  destruct (Hm d Hd) as [(p & sp & e & Hst & Hcl & Hf & Hn)|Hu].
  - destruct (kept_streaming _ Hk d p sp e eq_refl Hst) as (Hst' & Hv & Hc). left. exists p, sp, e.
    rewrite Hv. by auto.
  - right. by eapply kept_untracked.
Qed.

Lemma removed_view d : managed_registry s -> d ∈ devices s -> dv_device_id d ∉ rm -> view s' d = view s d.
Proof.
  intros [_ Hm] Hd Hk. destruct (is_camera d) eqn:Hcam; [|by rewrite !not_camera_view].
  destruct (Hm d Hd) as [(p & sp & e & Hst & _)|Hu].
  - destruct (kept_streaming _ Hk d p sp e eq_refl Hst) as (Hst' & Hv & _).
    unfold view. by rewrite !(streaming_view _ _ p sp e), Hv.
  - rewrite !untracked_view; [done..|]. by eapply kept_untracked.
Qed.

Lemma removed_views : managed_registry s ->
  to_camera_devices s' = List.filter (fun v => negb (str_in (cd_device_id v) rm)) (to_camera_devices s).
Proof.
  intros Hm. rewrite !to_camera_devices_view, remove_devices_filter.
  assert (forall l, (forall d, d ∈ l -> d ∈ devices s) ->
    omap (view s') (List.filter (fun d => negb (str_in (dv_device_id d) rm)) l)
    = List.filter (fun v => negb (str_in (cd_device_id v) rm)) (omap (view s) l)) as Hl; [|by apply Hl].
  induction l as [|d l IH]; intros Hall; [done|]. cbn [List.filter].
  specialize (IH ltac:(intros x Hx; apply Hall; by right)). specialize (Hall d ltac:(left)).
  pose proof (managed_view s d Hm Hall) as Hv.
  destruct (negb (str_in (dv_device_id d) rm)) eqn:Hk; cbn; rewrite IH.
  - rewrite removed_view by (done || by apply str_in_false, negb_true_iff).
    destruct (view s d) as [v|]; [|done]. cbn. destruct Hv as [_ ->]. by rewrite Hk.
  - destruct (view s d) as [v|]; [|done]. cbn. destruct Hv as [_ ->]. by rewrite Hk.
Qed.
End remove.

(** * Home Assistant *)

Section home_assistant.
Context (sync_at : string) (s : DeviceRegistrySnapshot) (e : HomeAssistantRegistryEntity).
Hypothesis Hm : managed_registry s.
Local Abbreviation s' := (upsert_home_assistant_device sync_at s e).
Local Abbreviation i := (home_assistant_device_id (ha_entity_id e)).

Lemma ha_binding_of j p : (forall key, p key = true -> key ∈ CAMERA_KEYS) -> binding_of s' j p = binding_of s j p.
Proof.
  clear Hm. intros Hp. assert (p "home_assistant" = false) as Hha.
  { apply not_true_iff_false. intros Hk%Hp. unfold CAMERA_KEYS, STREAM_KEYS in Hk. set_solver. }
  unfold binding_of. cbn -[list_find home_assistant_device_id]. apply find_kept.
  - intros b _ [_ Hk]%andb_true_iff. apply negb_true_iff, andb_false_iff. right.
    apply String.eqb_neq. congruence.
  - intros b Hb%list_elem_of_singleton. rewrite Hb. cbn [pb_provider_key]. by rewrite Hha, andb_false_r.
Qed.

Lemma ha_clean j : clean s j -> clean s' j.
Proof.
  clear Hm. intros [H4 Hb]. split; [done|]. intros b [[Hbs _]%elem_of_list_filter|Hbs]%elem_of_app; [by apply Hb|].
  apply list_elem_of_singleton in Hbs. rewrite Hbs. cbn [pb_provider_key]. intros _ Hk.
  unfold CAMERA_KEYS, STREAM_KEYS in Hk. set_solver.
Qed.

Lemma ha_streaming d d' p sp en :
  dv_device_id d' = dv_device_id d -> is_blank (dv_source d') = false ->
  streaming s d p sp en -> streaming s' d' p sp en.
Proof. clear Hm. intros Hd Hb []. by split; rewrite ?Hd. Qed.

Lemma ha_snapshot d d' p sp en :
  dv_device_id d' = dv_device_id d ->
  cd_snapshot_url (view_of s' d' p sp en) = cd_snapshot_url (view_of s d p sp en).
Proof.
  clear Hm. intros Hd. cbn -[binding_of home_assistant_device_id upsert_home_assistant_device].
  rewrite Hd, ha_binding_of; [done|]. intros key Hk%str_in_true. by do 2 right.
Qed.

Lemma ha_tracked d d' :
  dv_device_id d' = dv_device_id d -> is_blank (dv_source d') = false -> tracked s d -> tracked s' d'.
Proof.
  clear Hm. intros Hd Hb (p & sp & en & Hst & Hcl & Hf & Hn). exists p, sp, en. split_and!.
  - by eapply ha_streaming.
  - rewrite Hd. by apply ha_clean.
  - done.
  - by rewrite (ha_snapshot d).
Qed.

Lemma ha_untracked d d' : dv_device_id d' = dv_device_id d -> untracked s d -> untracked s' d'.
Proof. clear Hm. unfold untracked. by intros ->. Qed.

Lemma ha_managed : managed_registry s'.
Proof.
  split; [by apply upsert_home_assistant_device_wf, Hm|].
  intros d Hd. apply elem_of_upsert_first in Hd as [Hd|[Hd|(x & Hx & Ex & Hd)]].
  - destruct (proj2 Hm d Hd) as [Ht|Hu]; [left|right; by apply (ha_untracked d)].
    apply (ha_tracked d); [done| |done]. by destruct Ht as (p & sp & en & [] & _).
  - destruct (decide (i ∈ ids s)) as [Hi|Hi].
    + apply list_elem_of_fmap in Hi as (x & Ex & Hx). destruct (proj2 Hm x Hx) as [Ht|Hu].
      * left. apply (ha_tracked x); [by rewrite Hd, <-Ex|by rewrite Hd|done].
      * right. apply (ha_untracked x); [by rewrite Hd, <-Ex|done].
    + right. split; rewrite Hd; cbn -[home_assistant_device_id].
      * apply (not_in_ids_profile s); [apply Hm|done].
      * intros p Hp E. apply Hi. rewrite <-E. by apply (w_own_streams s (proj1 Hm)).
  - destruct (proj2 Hm x Hx) as [Ht|Hu].
    + left. by apply (ha_tracked x); rewrite ?Hd.
    + right. by apply (ha_untracked x); rewrite ?Hd.
Qed.

Lemma ha_view d : d ∈ devices s -> dv_device_id d <> i -> view s' d = view s d.
Proof.
  intros Hds Hd. destruct (is_camera d) eqn:Hcam; [|by rewrite !not_camera_view].
  destruct (proj2 Hm d Hds) as [(p & sp & en & Hst & _)|Hu].
  - assert (streaming s' d p sp en) as Hst' by (apply (ha_streaming d); [done|apply Hst|done]).
    unfold view. rewrite !(streaming_view _ _ p sp en) by done. f_equal. unfold view_of. cbv zeta.
    rewrite !ha_binding_of; try done; cycle 1.
    { by intros key ->%String.eqb_eq; right; left. } { by intros key ->%String.eqb_eq; left. }
    { intros key Hk%str_in_true. by do 2 right. }
    assert (twin_of s' (dv_device_id d) = twin_of s (dv_device_id d)) as -> by by apply find_upsert_other.
    assert (forall code, code_of s' (dv_device_id d) code = code_of s (dv_device_id d) code) as Hcode.
    { intros code. apply any_kept.
      - intros r _ [Hr%String.eqb_eq _]%andb_true_iff. apply negb_true_iff, andb_false_iff. left.
        apply String.eqb_neq. congruence.
      - intros r Hr%list_elem_of_singleton. rewrite Hr. apply andb_false_iff. left.
        apply String.eqb_neq. cbn -[home_assistant_device_id]. congruence. }
    by rewrite !Hcode.
  - rewrite !untracked_view; [done|done|]. by apply (ha_untracked d).
Qed.

(** An entity whose device has no camera profile. *)
Lemma ha_views : profile_of s i = None -> to_camera_devices s' = to_camera_devices s.
Proof.
  intros Hfree. rewrite !to_camera_devices_view.
  assert (forall d, dv_device_id d = i -> d ∈ devices s -> view s d = None) as Hold.
  { intros d E Hd. apply untracked_view. destruct (proj2 Hm d Hd) as [(p & sp & en & [] & _)|Hu]; congruence. }
  assert (forall d, dv_device_id d = i -> view s' d = None) as Hnew.
  { intros d E. apply untracked_view. destruct (decide (i ∈ ids s)) as [Hi|Hi].
    - apply list_elem_of_fmap in Hi as (x & Ex & Hx). apply (ha_untracked x); [congruence|].
      destruct (proj2 Hm x Hx) as [(p & sp & en & [] & _)|Hu]; congruence.
    - split; rewrite E; [done|]. intros p Hp Ep. apply Hi. rewrite <-Ep. by apply (w_own_streams s (proj1 Hm)). }
  assert (forall l change new, (forall d, d ∈ l -> d ∈ devices s) ->
    (forall d : DeviceRecord, dv_device_id (change d) = dv_device_id d) -> dv_device_id new = i ->
    omap (view s') (upsert_first (fun d => dv_device_id d =? i) change new l) = omap (view s) l) as Hl;
    [|by apply Hl].
  induction l as [|d l IH]; intros change new Hall Hc Hn; cbn -[home_assistant_device_id].
  - by rewrite Hnew.
  - pose proof (Hall d ltac:(left)) as Hd.
    specialize (IH change new ltac:(intros x Hx; apply Hall; by right) Hc Hn).
    destruct (String.eqb_spec (dv_device_id d) i) as [E|E]; cbn -[home_assistant_device_id].
    + rewrite Hold, Hnew by (done || by rewrite Hc).
      assert (forall l' : list DeviceRecord, (forall x, x ∈ l' -> x ∈ devices s) -> omap (view s') l' = omap (view s) l') as Hrest.
      { induction l' as [|x l' IH']; intros Hx; cbn -[home_assistant_device_id upsert_home_assistant_device]; [done|].
        rewrite IH' by (intros y Hy; apply Hx; by right). destruct (decide (dv_device_id x = i)) as [Ei|Ei].
        - rewrite Hold, Hnew; [done..|]. apply Hx. left.
        - rewrite ha_view; [done| |done]. apply Hx. left. }
      apply Hrest. intros x Hx. apply Hall. by right.
    + rewrite ha_view by done. by rewrite IH.
Qed.
End home_assistant.

(** * Operations *)

Lemma non_blank_again (o : option string) : (o ≫= non_blank) ≫= non_blank = o ≫= non_blank.
Proof.
  destruct o as [u|]; [|done]. cbn. destruct (non_blank u) as [v|] eqn:E; [|done]. cbn.
  apply non_blank_some in E as [-> Hne]. apply non_blank_some. by rewrite trim_fixed.
Qed.

Lemma normalize_source_again source :
  normalize_discovery_source (normalize_discovery_source source) = normalize_discovery_source source.
Proof. unfold normalize_discovery_source. by destruct (source =? "rtspprobe") eqn:E; [|rewrite E]. Qed.

Lemma normalize_again c : normalize_camera_metadata (normalize_camera_metadata c) = normalize_camera_metadata c.
Proof.
  unfold normalize_camera_metadata. cbn. rewrite normalize_source_again, non_blank_again.
  by destruct (cd_primary_stream c) as [[] u a].
Qed.

Lemma normalize_all_again (l : list CameraDevice) :
  normalize_camera_metadata <$> (normalize_camera_metadata <$> l) = normalize_camera_metadata <$> l.
Proof. rewrite <-list_fmap_compose. apply list_fmap_ext. intros _ c _. apply normalize_again. Qed.

(** What a caller gives. *)
Record writable (s : DeviceRegistrySnapshot) (c : CameraDevice) : Prop := {
  cw_kind : cd_kind c = LegacyCamera;
  cw_source : is_blank (cd_discovery_source c) = false;
  cw_u32 n : cd_ezviz_camera_no c = Some n -> (0 <= n < 4294967296)%Z;
  cw_free : ~ taken s (cd_device_id c)
}.

Lemma writable_acceptable s c : writable s c -> acceptable s (normalize_camera_metadata c).
Proof.
  intros [Hk Hs Hn Hf]. split; [done|cbn; by rewrite normalize_source_blank| |done].
  split; [|done]. apply non_blank_again.
Qed.

Lemma writable_list s (l : list CameraDevice) : (forall c, c ∈ l -> writable s c) ->
  forall c, c ∈ normalize_camera_metadata <$> l -> acceptable s c.
Proof. intros Hl c (c0 & -> & Hc)%list_elem_of_fmap. by apply writable_acceptable, Hl. Qed.

(** The views of the cameras that [keep] holds. *)
Definition retained (keep : list string) (l : list CameraDevice) : list CameraDevice :=
  List.filter (fun v => str_in (cd_device_id v) keep) l.

Lemma pruned_ids s keep i :
  i ∈ (dv_device_id <$> List.filter (fun d => is_camera d && negb (str_in (dv_device_id d) keep)) (devices s))
  <-> (i ∉ keep) /\ exists d, d ∈ devices s /\ dv_device_id d = i /\ is_camera d = true.
Proof.
  rewrite list_elem_of_fmap. setoid_rewrite elem_of_list_filter. setoid_rewrite andb_true_iff.
  setoid_rewrite negb_true_iff. setoid_rewrite str_in_false. naive_solver.
Qed.

Lemma pruned_views keep s : managed_registry s ->
  to_camera_devices (prune_missing_camera_devices keep s) = retained keep (to_camera_devices s).
Proof.
  intros Hm. unfold prune_missing_camera_devices. rewrite removed_views by (done || apply Hm).
  apply filter_ext_in. intros v Hv%list_elem_of_In. rewrite elem_of_views in Hv by done.
  destruct Hv as (d & Hd & Hv). pose proof (managed_view s d Hm Hd) as Hmv. rewrite Hv in Hmv.
  destruct Hmv as [[_ Hc] Hi]. apply eq_true_iff_eq. rewrite negb_true_iff, str_in_false, str_in_true, pruned_ids.
  split; [|intros Hk [Hk' _]; done]. intros Hk. destruct (decide (cd_device_id v ∈ keep)); [done|].
  destruct Hk. split; [done|]. by exists d.
Qed.

Lemma not_taken s i :
  list_any (fun d => (dv_device_id d =? i) && negb (is_some (view s d))) (devices s) = false -> ~ taken s i.
Proof.
  intros Hn (d & Hd & Hi & Hv). pose proof (proj1 (list_any_false _ _) Hn d Hd) as H. cbn in H.
  by rewrite Hi, Hv, String.eqb_refl in H.
Qed.
