(* ===== verification/RegistryTheorems.v ===== *)
(** What the device registry promises: its records stay consistent; saving cameras
    and Home Assistant's entities changes what is seen as the abstract registry
    says; what was saved is loaded. *)
From S2P Require Import Prelude RustString Json TaskRecords TaskStore Devices Registry RegistryView.
From S2P Require Import RegistryView RegistryUpsert RegistryRefinement.
Local Open Scope string_scope.
Local Open Scope list_scope.

#[local] Existing Instance jv_json.

(** * Views *)

(** A camera view as every write of the registry leaves it. *)
Record settled (v : CameraDevice) : Prop := {
  se_normal : normalize_camera_metadata v = v;
  se_camera_no : cd_ezviz_device_serial v = None -> cd_ezviz_camera_no v = None
}.

Definition stream_url (v : CameraDevice) : string := cs_url (cd_primary_stream v).

Lemma newer_self {A} (o : option A) : newer o o = o.
Proof. by destruct o. Qed.

Lemma merge_settled v : cd_kind v = LegacyCamera -> settled v -> merge_camera v v = v.
Proof.
  intros Hk [Hn Hno]. assert (normalize_discovery_source (cd_discovery_source v) = cd_discovery_source v) as Hs
    by by rewrite <-Hn at 2.
  unfold merge_camera. rewrite !newer_self, Hs. clear Hn Hs. destruct v. cbn in *. subst.
  f_equal; [by destruct (is_blank _)..|]. destruct cd_ezviz_device_serial; [done|]. cbn. by rewrite Hno.
Qed.

Lemma merged_again l v :
  v ∈ l -> cd_kind v = LegacyCamera -> settled v -> NoDup (cd_device_id <$> l) -> NoDup (stream_url <$> l) ->
  spec_upsert l v = l.
Proof.
  intros Hv Hk Hs. unfold spec_upsert. revert Hv.
  induction l as [|w l IH]; [by intros ?%not_elem_of_nil|]. cbn.
  intros [->|Hv]%elem_of_cons [Hi Hids]%NoDup_cons [Hu Hurls]%NoDup_cons.
  - unfold same_camera_view. by rewrite String.eqb_refl, merge_settled.
  - assert (same_camera_view w v = false) as ->; [|by rewrite IH].
    unfold same_camera_view. apply orb_false_iff. split; apply String.eqb_neq; intros E.
    + apply Hi. rewrite E. by apply list_elem_of_fmap_2.
    + apply Hu. apply list_elem_of_fmap. by exists v.
Qed.

Lemma all_merged_again l l' :
  (forall v, v ∈ l' -> v ∈ l /\ cd_kind v = LegacyCamera /\ settled v) ->
  NoDup (cd_device_id <$> l) -> NoDup (stream_url <$> l) -> foldl spec_upsert l l' = l.
Proof.
  intros Hl' Hi Hu. induction l' as [|v l' IH]; cbn; [done|].
  destruct (Hl' v ltac:(left)) as (Hv & Hk & Hs). rewrite merged_again by done.
  apply IH. intros w Hw. apply Hl'. by right.
Qed.

Lemma all_appended l acc :
  NoDup (cd_device_id <$> acc ++ l) -> NoDup (stream_url <$> acc ++ l) ->
  foldl spec_upsert (seen <$> acc) l = seen <$> acc ++ l.
Proof.
  revert acc. induction l as [|c l IH]; intros acc Hi Hu; cbn; [by rewrite app_nil_r|].
  assert (spec_upsert (seen <$> acc) c = seen <$> acc ++ [c]) as ->.
  { unfold spec_upsert. rewrite upsert_first_absent; [by rewrite fmap_app|].
    intros v (w & -> & Hw)%list_elem_of_fmap. unfold same_camera_view. apply orb_false_iff.
    rewrite !fmap_app in Hi, Hu. apply NoDup_app in Hi as (_ & Hi & _). apply NoDup_app in Hu as (_ & Hu & _).
    split; apply String.eqb_neq; cbn; intros E.
    - apply (Hi (cd_device_id w)); [by apply list_elem_of_fmap_2|]. rewrite E. by left.
    - apply (Hu (stream_url w)); [by apply list_elem_of_fmap_2|]. unfold stream_url at 1. rewrite E. by left. }
  replace (acc ++ c :: l) with ((acc ++ [c]) ++ l) by by rewrite <-app_assoc.
  apply IH; by rewrite <-app_assoc.
Qed.

Section theorems.
Context `{!UrlParser}.

(** * Identifiers and owners *)

(** C25. Over any sequence of camera upserts, camera saves and Home Assistant syncs,
    device identifiers, twins, camera profiles and endpoint identifiers stay unique,
    every endpoint, binding, capability, twin, camera profile and stream profile
    belongs to a registered device, and a managed stream profile to the device its
    identifier names. *)
Theorem registry_stays_consistent ops s : registry_wf s -> registry_wf (foldl run_op s ops).
Proof.
  revert s. induction ops as [|op ops IH]; intros s Hs; cbn; [done|]. by apply IH, run_op_wf.
Qed.

(** Looking one camera up finds what the list of all cameras holds: the target
    of a device identifier is the camera target of the list with that identifier. *)
Theorem camera_target_listed s i t :
  registry_wf s -> camera_target s i = Some t <-> t ∈ camera_targets s /\ ct_device_id t = i.
Proof.
  intros Hwf. unfold camera_target, camera_targets. rewrite list_elem_of_omap.
  assert (forall d t', resolved_camera_target s d = Some t' ->
    is_camera d = true /\ ct_device_id t' = dv_device_id d) as Hrt.
  { intros d t'. unfold resolved_camera_target. destruct (is_camera d); [|done]. cbn [negb].
    intros (sp & _ & (e & _ & [= <-])%bind_Some)%bind_Some. done. }
  split.
  - intros (d & Hd & Ht)%bind_Some. apply find_some in Hd as [Hd%list_elem_of_In [Hi%String.eqb_eq _]%andb_true_iff].
    split; [by exists d|]. destruct (Hrt d t Ht) as [_ ->]. done.
  - intros [(d & Hd & Ht) Hi]. destruct (Hrt d t Ht) as [Hc Hid]. apply bind_Some. exists d. split; [|done].
    destruct (list_find _ (devices s)) as [d'|] eqn:Hf.
    + apply find_some in Hf as [Hd'%list_elem_of_In [Hi'%String.eqb_eq _]%andb_true_iff]. f_equal.
      eapply (NoDup_fmap_inj dv_device_id); [apply (w_devices s Hwf)|done..|congruence].
    + pose proof (proj1 (list_find_none _ _) Hf d Hd) as Hn. cbn in Hn.
      rewrite Hc, andb_true_r in Hn. apply String.eqb_neq in Hn. congruence.
Qed.

(** * Cameras *)

(** C8. Upserting a list of cameras refines the abstract registry: the cameras seen
    afterwards are those seen before with each new one, in order, merged into the
    first that has its identifier or its stream's URL, or appended; and the registry
    stays one of managed cameras. *)
Theorem upserted_cameras_seen s l :
  managed_registry s -> (forall c, c ∈ l -> writable s c) ->
  managed_registry (upsert_camera_devices_preserving_platform_records l s)
  /\ to_camera_devices (upsert_camera_devices_preserving_platform_records l s)
     = foldl spec_upsert (to_camera_devices s) (normalize_camera_metadata <$> l).
Proof.
  intros Hm Hl. by destruct (matching_steps _ s Hm (writable_list s l Hl)) as (? & ? & _ & _).
Qed.

Lemma replaced_views s l :
  managed_registry s -> (forall c, c ∈ l -> writable s c) ->
  managed_registry (replace_camera_devices_preserving_platform_records l s)
  /\ to_camera_devices (replace_camera_devices_preserving_platform_records l s)
     = retained (resolved_device_id s <$> (normalize_camera_metadata <$> l))
         (foldl spec_upsert (to_camera_devices s) (normalize_camera_metadata <$> l)).
Proof.
  intros Hm Hl. unfold replace_camera_devices_preserving_platform_records,
    upsert_camera_devices_preserving_platform_records. cbv zeta.
  rewrite normalize_all_again.
  destruct (matching_steps _ s Hm (writable_list s l Hl)) as (Hm' & Hv & _ & _). split.
  - apply removed_managed; [apply Hm'|done].
  - by rewrite pruned_views, Hv.
Qed.

(** Devices that are no cameras stay, and of the cameras those of [keep]. *)
Lemma replaced_devices s l d :
  managed_registry s -> (forall c, c ∈ l -> writable s c) ->
  d ∈ devices s -> view s d = None ->
  d ∈ devices (replace_camera_devices_preserving_platform_records l s)
  <-> is_camera d = false \/ dv_device_id d ∈ resolved_device_id s <$> (normalize_camera_metadata <$> l).
Proof.
  intros Hm Hl Hd Hv. unfold replace_camera_devices_preserving_platform_records,
    upsert_camera_devices_preserving_platform_records, prune_missing_camera_devices. cbv zeta.
  rewrite normalize_all_again, remove_devices_filter.
  destruct (matching_steps _ s Hm (writable_list s l Hl)) as (Hm' & _ & _ & Hstay).
  specialize (Hstay d Hd Hv). rewrite elem_of_list_filter, negb_true_iff, str_in_false, pruned_ids.
  set (keep := resolved_device_id s <$> (normalize_camera_metadata <$> l)). split.
  - intros [_ Hn]. destruct (is_camera d) eqn:Hc; [right|by left].
    destruct (decide (dv_device_id d ∈ keep)); [done|]. destruct Hn. split; [done|]. by exists d.
  - intros Hor. split; [done|]. intros (Hk & x & Hx & Ex & Hc). destruct Hor as [Hnc|]; [|done].
    assert (x = d) as ->; [|congruence]. eapply (NoDup_fmap_inj dv_device_id); [|done..]. apply (w_devices _ (proj1 Hm')).
Qed.

Lemma view_writable s v : managed_registry s -> v ∈ to_camera_devices s -> writable s v /\ cd_kind v = LegacyCamera.
Proof.
  intros Hm Hv. pose proof Hv as Hin. rewrite elem_of_views in Hv by done. destruct Hv as (d & Hd & Hv).
  pose proof (managed_view s d Hm Hd) as Hmv. rewrite Hv in Hmv. destruct Hmv as [Hw Hi].
  destruct (watched_view s d Hw) as (p & sp & e & Hst & Hv'). rewrite Hv in Hv'. injection Hv' as ->.
  split; [|done]. split; [done|apply Hst|..].
  - cbn. intros n Hn. apply fmap_Some in Hn as (m & _ & ->). apply Z.mod_pos_bound. lia.
  - intros (d' & Hd' & Ei & Hnone). assert (d' = d) as ->; [|congruence].
    eapply (NoDup_fmap_inj dv_device_id); [apply (w_devices s (proj1 Hm))|done..].
Qed.

(** Saving the cameras that were loaded changes nothing of what is seen, and
    leaves the other devices that are no cameras; but a camera that is registered
    without a stream, such as one of Home Assistant, is removed. *)
Theorem loaded_cameras_saved s :
  managed_registry s -> (forall v, v ∈ to_camera_devices s -> settled v) ->
  NoDup (stream_url <$> to_camera_devices s) ->
  let s' := replace_camera_devices_preserving_platform_records (to_camera_devices s) s in
  to_camera_devices s' = to_camera_devices s
  /\ forall d, d ∈ devices s -> view s d = None -> d ∈ devices s' <-> is_camera d = false.
Proof.
  intros Hm Hset Hurl s'. set (l := to_camera_devices s) in *.
  assert (normalize_camera_metadata <$> l = l) as Hnorm.
  { rewrite <-(list_fmap_id l) at 2. apply list_fmap_ext. intros i v Hv. apply Hset. by eapply list_elem_of_lookup_2. }
  assert (forall v, v ∈ l -> writable s v) as Hw by (intros v Hv; by apply view_writable).
  assert (NoDup (cd_device_id <$> l)) as Hids.
  { apply NoDup_fmap_2_strong; [intros v w; by apply view_ids_inj|]. by apply NoDup_fmap_1 in Hurl. }
  assert (forall v, v ∈ l -> resolved_device_id s v = cd_device_id v) as Hres.
  { intros v Hv. unfold resolved_device_id, find_matching_camera_device_id. fold l.
    destruct (list_find _ l) as [w|] eqn:Hf; [|done]. cbn.
    apply find_some in Hf as [Hw'%list_elem_of_In [E%String.eqb_eq|E%String.eqb_eq]%orb_true_iff]; [done|].
    f_equal. by eapply (NoDup_fmap_inj stream_url). }
  assert (resolved_device_id s <$> l = cd_device_id <$> l) as Hkeep.
  { apply list_fmap_ext. intros i v Hv. apply Hres. by eapply list_elem_of_lookup_2. }
  split.
  - destruct (replaced_views s l Hm Hw) as [_ Hrep]. subst s'. rewrite Hrep. fold l. rewrite Hnorm, Hkeep, all_merged_again; [|..|done|done].
    + unfold retained. apply forallb_filter_id. apply forallb_forall. intros v Hv%list_elem_of_In.
      apply str_in_true. by apply list_elem_of_fmap_2.
    + intros v Hv. split; [done|]. split; [by apply (view_writable s v)|by apply Hset].
  - intros d Hd Hv. unfold s'. rewrite replaced_devices, Hnorm, Hkeep by done. split; [|by left].
    intros [?|Hk]; [done|]. apply list_elem_of_fmap in Hk as (v & Ei & Hvl).
    destruct (cw_free s v (Hw v Hvl)). by exists d.
Qed.

(** * Home Assistant *)

Local Abbreviation ha_id := (fun e => home_assistant_device_id (ha_entity_id e)).

Lemma entities_views at_time l s :
  managed_registry s -> (forall e, e ∈ l -> profile_of s (ha_id e) = None) ->
  managed_registry (foldl (upsert_home_assistant_device at_time) s l)
  /\ to_camera_devices (foldl (upsert_home_assistant_device at_time) s l) = to_camera_devices s
  /\ camera_profiles (foldl (upsert_home_assistant_device at_time) s l) = camera_profiles s.
Proof.
  revert s. induction l as [|e l IH]; intros s Hm Hp; cbn -[upsert_home_assistant_device]; [done|].
  destruct (IH (upsert_home_assistant_device at_time s e)) as (Hm' & Hv & Hc).
  - by apply ha_managed.
  - intros e' He'. apply Hp. by right.
  - split_and!; [done| |by rewrite Hc]. rewrite Hv. apply ha_views; [done|]. apply Hp. left.
Qed.

(** The source of a camera seen is that of its device. *)
Lemma view_source s d v : managed_registry s -> d ∈ devices s -> view s d = Some v ->
  cd_discovery_source v = dv_source d /\ cd_device_id v = dv_device_id d.
Proof.
  intros Hm Hd Hv. pose proof (managed_view s d Hm Hd) as Hmv. rewrite Hv in Hmv. destruct Hmv as [Hw Hi].
  destruct (watched_view s d Hw) as (p & sp & e & _ & Hv'). rewrite Hv in Hv'. by injection Hv' as ->.
Qed.

(** The cameras that a sync of Home Assistant leaves seen. *)
Definition not_from_home_assistant (v : CameraDevice) : bool :=
  negb (cd_discovery_source v =? "home_assistant").

(** Synchronising Home Assistant's entities does not touch the cameras: when no
    entity's device has a camera profile, the cameras seen afterwards are exactly
    those seen before, less those whose own source says they came from Home
    Assistant. *)
Theorem synced_cameras_seen at_time l s :
  managed_registry s -> (forall e, e ∈ l -> profile_of s (ha_id e) = None) ->
  managed_registry (upsert_home_assistant_entities l at_time s)
  /\ to_camera_devices (upsert_home_assistant_entities l at_time s)
     = List.filter not_from_home_assistant (to_camera_devices s).
Proof.
  intros Hm Hp. unfold upsert_home_assistant_entities, prune_missing_home_assistant_entities.
  destruct (entities_views at_time l s Hm Hp) as (Hm' & Hv & Hc).
  set (s1 := foldl (upsert_home_assistant_device at_time) s l) in *.
  split; [apply removed_managed; [apply Hm'|done]|].
  rewrite removed_views by (done || apply Hm'). rewrite <-Hv. apply filter_ext_in.
  intros v Hin%list_elem_of_In. rewrite elem_of_views in Hin by done. destruct Hin as (d & Hd & Hvd).
  destruct (view_source s1 d v Hm' Hd Hvd) as [Hs Hi]. unfold not_from_home_assistant.
  f_equal. apply eq_true_iff_eq. rewrite str_in_true, String.eqb_eq, list_elem_of_fmap.
  setoid_rewrite elem_of_list_filter. setoid_rewrite andb_true_iff. setoid_rewrite String.eqb_eq.
  setoid_rewrite negb_true_iff. setoid_rewrite str_in_false. split.
  - intros (x & Ex & Hx & Hsx & _). assert (x = d) as ->; [|congruence].
    eapply (NoDup_fmap_inj dv_device_id); [apply (w_devices s1 (proj1 Hm'))|done..|congruence].
  - intros Hha. exists d. split_and!; [congruence|done|congruence|].
    intros (e & Ee & He)%list_elem_of_fmap. pose proof (managed_view s1 d Hm' Hd) as Hmv. rewrite Hvd in Hmv.
    destruct Hmv as [[(p & sp & en & [] & _) _] _]. 
    assert (profile_of s (dv_device_id d) = None) as Hnone by (rewrite Ee; exact (Hp e He)).
    unfold profile_of in *. congruence.
Qed.

(** The device of an entity, and its twin, after a sync. *)
Definition shows_entity (s : DeviceRegistrySnapshot) (e : HomeAssistantRegistryEntity) : Prop :=
  (exists d, d ∈ devices s /\ dv_device_id d = ha_id e /\ dv_source d = "home_assistant"
     /\ dv_kind d = home_assistant_device_kind (ha_domain e) /\ dv_display_name d = ha_display_name e
     /\ dv_primary_room_id d = ha_area_id e /\ dv_metadata d = home_assistant_metadata e)
  /\ exists t, t ∈ device_twins s /\ tw_device_id t = ha_id e
     /\ tw_connectivity_state t = home_assistant_connectivity_state (ha_state e).

Lemma upsert_first_in {A} (key : A -> string) k change new l :
  exists x, x ∈ upsert_first (fun x => key x =? k) change new l
    /\ (x = new \/ exists y, y ∈ l /\ key y = k /\ x = change y).
Proof.
  induction l as [|y l (x & Hx & Hor)]; cbn; [exists new; split; [left|by left]|].
  destruct (String.eqb_spec (key y) k) as [E|E].
  - exists (change y). split; [left|]. right. exists y. split; [left|done].
  - exists x. split; [by right|]. destruct Hor as [?|(z & Hz & ?)]; [by left|]. right. exists z. split; [by right|done].
Qed.

Lemma entity_shown at_time s e : shows_entity (upsert_home_assistant_device at_time s e) e.
Proof.
  split.
  - unfold upsert_home_assistant_device. cbn -[home_assistant_device_id home_assistant_metadata].
    edestruct (upsert_first_in dv_device_id) as (d & Hd & Hor). exists d. split; [exact Hd|].
    destruct Hor as [->|(y & Hy & Ey & ->)]; done.
  - unfold upsert_home_assistant_device. cbn -[home_assistant_device_id home_assistant_metadata].
    edestruct (upsert_first_in tw_device_id) as (t & Ht & Hor). exists t. split; [exact Ht|].
    destruct Hor as [->|(y & Hy & Ey & ->)]; done.
Qed.

Lemma entity_still_shown at_time s e e' :
  ha_id e <> ha_id e' -> shows_entity s e -> shows_entity (upsert_home_assistant_device at_time s e') e.
Proof.
  intros Hne [(d & Hd & Hi & Hr) (t & Ht & Hti & Htr)]. split.
  - exists d. split; [|done]. apply (upsert_first_keeps dv_device_id); [done|by rewrite Hi].
  - exists t. split; [|done]. apply (upsert_first_keeps tw_device_id); [done|by rewrite Hti].
Qed.

Lemma entities_still_shown at_time l s e :
  (forall e', e' ∈ l -> ha_id e <> ha_id e') -> shows_entity s e ->
  shows_entity (foldl (upsert_home_assistant_device at_time) s l) e.
Proof.
  revert s. induction l as [|e' l IH]; intros s Hne Hs; [done|]. apply IH.
  - intros x Hx. apply Hne. by right.
  - apply entity_still_shown; [|done]. apply Hne. left.
Qed.

Lemma entities_shown at_time l s e : NoDup (ha_id <$> l) -> e ∈ l ->
  shows_entity (foldl (upsert_home_assistant_device at_time) s l) e.
Proof.
  revert s. induction l as [|e' l IH]; intros s Hnd; [by intros ?%not_elem_of_nil|].
  apply NoDup_cons in Hnd as [He' Hnd]. intros [->|He]%elem_of_cons; [|by apply IH].
  apply (entities_still_shown at_time l (upsert_home_assistant_device at_time s e')); [|apply entity_shown]. intros x Hx E. apply He'. rewrite E.
  by apply (list_elem_of_fmap_2 ha_id).
Qed.

(** After a sync of entities of distinct devices, every entity has its device,
    with the kind of its domain, its name, area and metadata and a twin of the
    connectivity its state tells; and the devices that came from Home Assistant are
    those of the entities, no others. *)
Theorem synced_entities at_time l s :
  NoDup (ha_id <$> l) ->
  let s' := upsert_home_assistant_entities l at_time s in
  (forall e, e ∈ l -> shows_entity s' e)
  /\ forall d, d ∈ devices s' -> dv_source d = "home_assistant" -> dv_device_id d ∈ (ha_id <$> l).
Proof.
  intros Hnd s'. unfold s', upsert_home_assistant_entities, prune_missing_home_assistant_entities.
  set (s1 := foldl (upsert_home_assistant_device at_time) s l).
  set (rm := dv_device_id <$> List.filter _ (devices s1)).
  assert (forall i, i ∈ rm <-> (i ∉ (ha_id <$> l)) /\
    exists d, d ∈ devices s1 /\ dv_device_id d = i /\ dv_source d = "home_assistant") as Hrm.
  { intros i. unfold rm. rewrite list_elem_of_fmap. setoid_rewrite elem_of_list_filter.
    setoid_rewrite andb_true_iff. setoid_rewrite String.eqb_eq. setoid_rewrite negb_true_iff.
    setoid_rewrite str_in_false. split; [|naive_solver].
    intros (d & -> & Hd & Hs & Hi). split; [done|]. by exists d. }
  clearbody rm. split.
  - intros e He. destruct (entities_shown at_time l s e Hnd He) as [(d & Hd & Hi & Hr) (t & Ht & Hti & Htr)].
    fold s1 in Hd, Ht. assert (ha_id e ∉ rm) as Hk.
    { intros [Hk _]%Hrm. apply Hk. by apply (list_elem_of_fmap_2 ha_id). }
    split.
    + exists d. split; [|done]. rewrite remove_devices_filter. apply elem_of_list_filter. split; [done|].
      apply negb_true_iff, str_in_false. congruence.
    + exists t. split; [|done]. destruct rm; [done|]. apply elem_of_list_filter. split; [done|].
      apply negb_true_iff, str_in_false. congruence.
  - rewrite remove_devices_filter.
    intros d [Hd Hk%negb_true_iff%str_in_false]%elem_of_list_filter Hs.
    destruct (decide (dv_device_id d ∈ (ha_id <$> l))); [done|]. destruct Hk. apply Hrm. split; [done|]. by exists d.
Qed.

(** * The file *)

Section file.
Context {Text : Type} `{!RegistryCodec Text} (store : DeviceRegistryStore).

(** The first save of cameras with distinct identifiers and stream URLs, when it
    succeeds, is read back as those cameras: normalised, of kind camera, and with a
    camera number only beside an EZVIZ serial. *)
Theorem saved_cameras_load (l : list CameraDevice) (io : Io Text) (d : Disk Text) :
  (forall c, c ∈ l -> writable empty_registry_snapshot c) ->
  NoDup (cd_device_id <$> l) -> NoDup (stream_url <$> l) ->
  save_devices store l io None = (d, Ok tt) ->
  load_devices store io_ok d = Ok (seen <$> (normalize_camera_metadata <$> l)).
Proof.
  intros Hw Hi Hu. unfold save_devices, save_snapshot. cbn [load_snapshot].
  change (with_schema_version empty_registry_snapshot) with empty_registry_snapshot.
  set (s' := replace_camera_devices_preserving_platform_records l empty_registry_snapshot).
  destruct (ensure_registry_parent store io); [|done].
  destruct (registry_to_string s') as [payload|] eqn:Ht; [|done].
  destruct (write_fault io) as [[error remains]|]; [done|]. intros [= <-].
  unfold load_devices. cbn. rewrite (registry_from_to s' payload Ht). cbn. f_equal.
  destruct (replaced_views empty_registry_snapshot l managed_empty Hw) as [_ Hv]. unfold s'. rewrite Hv.
  change (to_camera_devices empty_registry_snapshot) with (seen <$> []). rewrite all_appended.
  - cbn [app]. unfold retained. apply forallb_filter_id, forallb_forall.
    intros v (c & -> & Hc)%list_elem_of_In%list_elem_of_fmap. apply str_in_true. apply list_elem_of_fmap.
    by exists c.
  - cbn [app]. by rewrite <-list_fmap_compose.
  - cbn [app]. rewrite <-list_fmap_compose. erewrite list_fmap_ext; [exact Hu|].
    intros i c _. unfold compose, stream_url. cbn. by destruct (cs_transport (cd_primary_stream c)).
Qed.
End file.
End theorems.
