(* ===== verification/RegistrySample.v ===== *)
(** A registry of two cameras and two entities of Home Assistant, at which the
    registry's theorems are applied. *)
From S2P Require Import Prelude RustString Json TaskRecords TaskStore Devices Registry RegistryView.
From S2P Require Import RegistryView RegistryUpsert RegistryRefinement RegistryTheorems.
Local Open Scope string_scope.
Local Open Scope list_scope.

#[local] Existing Instance jv_json.

(** A parser of one host, and a file that holds the payload itself. *)
Definition sample_url (s : string) : option Url :=
  if starts_with "rtsp://" s
  then Some {| url_scheme := "rtsp"; url_host_str := Some "192.168.1.20"; url_port_or_known_default := Some 554%Z;
               url_path := "/stream1"; url_query := None |}
  else None.

#[local] Instance sample_parser : UrlParser := {| url_parse := sample_url |}.

#[local, program] Instance sample_codec : RegistryCodec DeviceRegistryPayload :=
  {| registry_to_string s := Ok (Snapshot s); registry_from_str t := Ok t |}.
Next Obligation. by intros s t [= <-]. Qed.

Definition sample_registry_store : DeviceRegistryStore :=
  {| registry_path := "/data/device-registry.json"; registry_parent := Some "/data" |}.

Definition camera_door : CameraDevice :=
  {| cd_device_id := "cam-door"; cd_name := "Front door"; cd_kind := LegacyCamera; cd_status := DeviceOnline;
     cd_room := Some "entry"; cd_vendor := Some "TP-Link"; cd_model := Some "Tapo C200";
     cd_ip_address := Some "192.168.1.20"; cd_mac_address := None; cd_discovery_source := "rtspprobe";
     cd_primary_stream := {| cs_transport := TransportUnknown; cs_url := "rtsp://192.168.1.20/stream1";
                             cs_requires_auth := true |};
     cd_snapshot_url := Some " http://192.168.1.20/snap "; cd_onvif_device_service_url := None;
     cd_ezviz_device_serial := Some "E1"; cd_ezviz_camera_no := Some 1%Z;
     cd_capabilities := {| cap_snapshot := true; cap_stream := true; cap_ptz := false; cap_audio := true |};
     cd_last_seen_at := Some "100" |}.

(** The same stream, found again under another identifier, and without a name. *)
Definition camera_found : CameraDevice :=
  {| cd_device_id := "scan-1"; cd_name := ""; cd_kind := LegacyCamera; cd_status := DeviceOffline;
     cd_room := None; cd_vendor := None; cd_model := None;
     cd_ip_address := Some "192.168.1.20"; cd_mac_address := Some "aa:bb"; cd_discovery_source := "onvif";
     cd_primary_stream := {| cs_transport := TransportRtsp; cs_url := "rtsp://192.168.1.20/stream1";
                             cs_requires_auth := false |};
     cd_snapshot_url := None; cd_onvif_device_service_url := Some "http://192.168.1.20/onvif";
     cd_ezviz_device_serial := None; cd_ezviz_camera_no := None;
     cd_capabilities := {| cap_snapshot := false; cap_stream := true; cap_ptz := true; cap_audio := false |};
     cd_last_seen_at := None |}.

Definition camera_yard : CameraDevice := camera_new "cam-yard" "Yard" "rtsp://192.168.1.21/main".

Definition entity (id domain name state : string) : HomeAssistantRegistryEntity :=
  {| ha_entity_id := id; ha_domain := domain; ha_display_name := name; ha_state := state; ha_area_id := None;
     ha_device_class := None; ha_last_changed := Some "90"; ha_last_updated := None; ha_attributes := JObj [] |}.

Definition entities : list HomeAssistantRegistryEntity :=
  [entity "camera.porch_cam" "camera" "Porch" "idle"; entity "light.hall" "light" "Hall" "unavailable"].

(** A camera, and the two entities. *)
Definition registry_sample : DeviceRegistrySnapshot :=
  upsert_home_assistant_entities entities "120"
    (upsert_camera_devices_preserving_platform_records [camera_door] empty_registry_snapshot).

Example porch_id : home_assistant_device_id "camera.porch_cam" = "ha-camera-porch-cam".
Proof. reflexivity. Qed.

Example sample_ids : ids registry_sample = ["cam-door"; "ha-camera-porch-cam"; "ha-light-hall"].
Proof. vm_compute. reflexivity. Qed.

Example sample_seen : to_camera_devices registry_sample = [seen (normalize_camera_metadata camera_door)].
Proof. vm_compute. reflexivity. Qed.

Example found_again :
  to_camera_devices (upsert_camera_devices_preserving_platform_records [camera_found] registry_sample)
  = [merge_camera (seen (normalize_camera_metadata camera_door)) camera_found].
Proof. vm_compute. reflexivity. Qed.

(** * The theorems at it *)

Lemma empty_writable c :
  cd_kind c = LegacyCamera -> is_blank (cd_discovery_source c) = false ->
  (forall n, cd_ezviz_camera_no c = Some n -> (0 <= n < 4294967296)%Z) -> writable empty_registry_snapshot c.
Proof. intros Hk Hs Hn. split; [done..|]. by apply not_taken. Qed.

Lemma door_writable : writable empty_registry_snapshot camera_door.
Proof. apply empty_writable; [done|by vm_compute|]. intros n [= <-]. done. Qed.

Lemma door_managed :
  managed_registry (upsert_camera_devices_preserving_platform_records [camera_door] empty_registry_snapshot).
Proof.
  destruct (matching_steps (normalize_camera_metadata <$> [camera_door]) empty_registry_snapshot managed_empty) as [Hm _].
  - apply writable_list. intros c ->%list_elem_of_singleton. apply door_writable.
  - exact Hm.
Qed.

Lemma sample_managed : managed_registry registry_sample.
Proof.
  apply removed_managed.
  - apply upsert_home_assistant_device_wf, upsert_home_assistant_device_wf, door_managed.
  - apply ha_managed, ha_managed, door_managed.
Qed.

Lemma found_writable c : c ∈ [camera_found; camera_yard] -> writable registry_sample c.
Proof.
  intros [->| ->%list_elem_of_singleton]%elem_of_cons;
    (split; [done|by vm_compute|by intros n [=]|]; apply not_taken; by vm_compute).
Qed.

Lemma registry_stays_consistent_witness :
  registry_wf empty_registry_snapshot
  /\ registry_wf (foldl run_op empty_registry_snapshot
                    [OpUpsert [camera_door]; OpSync entities "120"; OpReplace [camera_found; camera_yard]]).
Proof. split; [apply registry_wf_empty|]. apply registry_stays_consistent, registry_wf_empty. Defined.

Lemma camera_target_listed_witness :
  exists t, camera_target registry_sample "cam-door" = Some t /\ t ∈ camera_targets registry_sample.
Proof.
  destruct (camera_target registry_sample "cam-door") as [t|] eqn:E; [|by vm_compute in E].
  exists t. split; [done|]. by apply (camera_target_listed _ _ _ (proj1 sample_managed)) in E as [? _].
Defined.

Lemma upserted_cameras_seen_witness :
  to_camera_devices (upsert_camera_devices_preserving_platform_records [camera_found; camera_yard] registry_sample)
  = [merge_camera (seen (normalize_camera_metadata camera_door)) camera_found; camera_yard].
Proof.
  destruct (upserted_cameras_seen registry_sample [camera_found; camera_yard] sample_managed found_writable)
    as [_ ->]. vm_compute. reflexivity.
Defined.

Lemma sample_settled v : v ∈ to_camera_devices registry_sample -> settled v.
Proof. rewrite sample_seen. intros ->%list_elem_of_singleton. split; [by vm_compute|done]. Qed.

Lemma sample_urls : NoDup (stream_url <$> to_camera_devices registry_sample).
Proof. rewrite sample_seen. apply NoDup_singleton. Qed.

Lemma loaded_cameras_saved_witness :
  let s' := replace_camera_devices_preserving_platform_records (to_camera_devices registry_sample) registry_sample in
  to_camera_devices s' = to_camera_devices registry_sample /\ ids s' = ["cam-door"; "ha-light-hall"].
Proof.
  intros s'. split; [|vm_compute; reflexivity].
  exact (proj1 (loaded_cameras_saved registry_sample sample_managed sample_settled sample_urls)).
Defined.

Lemma porch_profile : is_some (profile_of registry_sample (home_assistant_device_id "camera.porch_cam")) = false.
Proof. vm_compute. reflexivity. Qed.

Lemma hall_profile : is_some (profile_of registry_sample (home_assistant_device_id "light.hall")) = false.
Proof. vm_compute. reflexivity. Qed.

Lemma entities_unprofiled e : e ∈ entities -> profile_of registry_sample (home_assistant_device_id (ha_entity_id e)) = None.
Proof.
  assert (forall A (o : option A), is_some o = false -> o = None) as Hnone by by intros A [].
  intros [->| ->%list_elem_of_singleton]%elem_of_cons; apply Hnone; [exact porch_profile|exact hall_profile].
Qed.

Lemma synced_cameras_seen_witness :
  to_camera_devices (upsert_home_assistant_entities entities "130" registry_sample)
  = to_camera_devices registry_sample.
Proof.
  destruct (synced_cameras_seen "130" entities registry_sample sample_managed entities_unprofiled) as [_ ->].
  rewrite sample_seen. reflexivity.
Defined.

Lemma entities_distinct : NoDup ((fun e => home_assistant_device_id (ha_entity_id e)) <$> entities).
Proof. apply (bool_decide_unpack _). by vm_compute. Qed.

Lemma synced_entities_witness :
  shows_entity (upsert_home_assistant_entities entities "130" registry_sample)
    (entity "light.hall" "light" "Hall" "unavailable").
Proof. destruct (synced_entities "130" entities registry_sample entities_distinct) as [Hs _]. apply Hs. right. left. Defined.

Definition sample_file_saved : Disk DeviceRegistryPayload :=
  fst (save_devices sample_registry_store [camera_door; camera_yard] io_ok None).

Lemma sample_saves :
  save_devices sample_registry_store [camera_door; camera_yard] io_ok None = (sample_file_saved, Ok tt).
Proof. vm_compute. reflexivity. Qed.

Lemma both_writable c : c ∈ [camera_door; camera_yard] -> writable empty_registry_snapshot c.
Proof.
  intros [->| ->%list_elem_of_singleton]%elem_of_cons; [apply door_writable|].
  apply empty_writable; [done|by vm_compute|by intros n [=]].
Qed.

Lemma distinct_ids : NoDup (cd_device_id <$> [camera_door; camera_yard]).
Proof. apply (bool_decide_unpack _). by vm_compute. Qed.

Lemma distinct_urls : NoDup (stream_url <$> [camera_door; camera_yard]).
Proof. apply (bool_decide_unpack _). by vm_compute. Qed.

Lemma saved_cameras_load_witness :
  exists d, save_devices sample_registry_store [camera_door; camera_yard] io_ok None = (d, Ok tt)
  /\ load_devices sample_registry_store io_ok d
     = Ok (seen <$> (normalize_camera_metadata <$> [camera_door; camera_yard])).
Proof.
  exists sample_file_saved. split; [exact sample_saves|].
  exact (saved_cameras_load sample_registry_store _ io_ok _ both_writable distinct_ids distinct_urls sample_saves).
Defined.
