(* ===== verification/ShareLinks.v ===== *)
(** Shared live views end to end: the task that issues a link, of
    [src/runtime/task_api.rs]; its verification, listing and revocation, of
    [src/bin/agent_hub_admin_api.rs]; over the signed tokens of [RemoteView], the
    conversation store, the approval gate and the URL paths. *)
From S2P Require Import Prelude RustString Json Contracts Policy.
From S2P Require Import TaskRecords Devices Conversation TaskStore TaskRequests TaskApi RemoteView UrlPath.
Local Open Scope string_scope.
Local Open Scope list_scope.

#[local] Existing Instance jv_json.

(** * Serialised forms *)

Definition device_status_value (s : DeviceStatus) : jv :=
  JStr match s with
       | DeviceOnline => "online" | DeviceOffline => "offline"
       | DeviceDegraded => "degraded" | DeviceUnknown => "unknown"
       end.

Definition transport_value (t : CameraTransport) : jv :=
  JStr match t with
       | TransportRtsp => "rtsp" | TransportHls => "hls"
       | TransportWebrtc => "webrtc" | TransportUnknown => "unknown"
       end.

Definition target_value (t : ResolvedCameraTarget) : jv :=
  json_object
    [("device_id", JStr (ct_device_id t)); ("display_name", JStr (ct_display_name t));
     ("status", device_status_value (ct_status t)); ("room_name", json_option JStr (ct_room_name t));
     ("vendor", json_option JStr (ct_vendor t)); ("model", json_option JStr (ct_model t));
     ("ip_address", json_option JStr (ct_ip_address t));
     ("mac_address", json_option JStr (ct_mac_address t));
     ("discovery_source", JStr (ct_discovery_source t));
     ("primary_stream", json_object
        [("transport", transport_value (cs_transport (ct_primary_stream t)));
         ("url", JStr (cs_url (ct_primary_stream t)));
         ("requires_auth", JBool (cs_requires_auth (ct_primary_stream t)))]);
     ("snapshot_url", json_option JStr (ct_snapshot_url t));
     ("onvif_device_service_url", json_option JStr (ct_onvif_device_service_url t));
     ("ezviz_device_serial", json_option JStr (ct_ezviz_device_serial t));
     ("ezviz_camera_no", json_option JNum (ct_ezviz_camera_no t));
     ("capabilities", json_object
        [("snapshot", JBool (cap_snapshot (ct_capabilities t)));
         ("stream", JBool (cap_stream (ct_capabilities t)));
         ("ptz", JBool (cap_ptz (ct_capabilities t)));
         ("audio", JBool (cap_audio (ct_capabilities t)))]);
     ("last_seen_at", json_option JStr (ct_last_seen_at t))].

Definition scope_value (s : ShareAccessScope) : jv :=
  JStr match s with
       | SharePublicLink => "public_link" | ShareWorkspace => "workspace"
       | ShareInviteOnly => "invite_only"
       end.

Definition share_delivery_mode (t : ResolvedCameraTarget) : MediaDeliveryMode :=
  match cs_transport (ct_primary_stream t) with
  | TransportWebrtc => DeliveryWebrtc
  | TransportHls => DeliveryHls
  | TransportRtsp | TransportUnknown => DeliveryHls
  end.

Section share_links.
Context `{!UnicodeLower} `{!HashOrder} `{!Sha256} `{!HmacSha256} `{!Base64Url} `{!ClaimsCodec}.
Context `{!Codec EventRecord}.
Context {Text : Type} `{!FileCodec Text} (store : TaskConversationStore).

(** * Issuing *)

Definition build_share_media_session (now : Z) (r : TaskRequest) (t : ResolvedCameraTarget)
    (media_session_id share_link_id : string) : MediaSession :=
  {| ms_media_session_id := media_session_id; ms_device_id := ct_device_id t;
     ms_stream_profile_id := ct_device_id t +:+ "::stream::primary";
     ms_session_kind := KindShare; ms_delivery_mode := share_delivery_mode t;
     ms_opened_by_user_id := if is_blank (src_user_id (rq_source r)) then None
                             else Some (src_user_id (rq_source r));
     ms_status := MediaActive; ms_share_link_id := Some share_link_id;
     ms_started_at := Some (timestamp now); ms_ended_at := None;
     ms_metadata := (json_object
       [("task_id", JStr (rq_task_id r)); ("step_id", JStr (step_id_for_request r));
        ("source_channel", JStr (src_channel (rq_source r)));
        ("source_surface", JStr (src_surface (rq_source r)));
        ("conversation_id", JStr (src_conversation_id (rq_source r)));
        ("delivery_proxy", JStr "mjpeg");
        ("stream_transport", transport_value (cs_transport (ct_primary_stream t)))] : @Value jv_json) |}.

Definition build_share_link_record (x : IssuedCameraShareToken)
    (media_session_id share_link_id : string) : ShareLink :=
  {| sl_share_link_id := share_link_id; sl_media_session_id := media_session_id;
     sl_token_hash := camera_share_token_hash (token x); sl_access_scope := SharePublicLink;
     sl_expires_at := Some (show_Z (expires_at_unix_secs x)); sl_revoked_at := None |}.

(** The path of the page a token opens. *)
Definition share_url (tok : string) : string := "/shared/cameras/" +:+ url_encode_path_segment tok.

Definition build_share_link_payload (t : ResolvedCameraTarget) (x : IssuedCameraShareToken)
    (m : MediaSession) (l : ShareLink) : jv :=
  json_object
    [("share_link_id", JStr (sl_share_link_id l));
     ("media_session_id", JStr (ms_media_session_id m));
     ("device_id", JStr (ct_device_id t)); ("display_name", JStr (ct_display_name t));
     ("url", JStr (share_url (token x)));
     ("stream_url", JStr (share_url (token x) +:+ "/live.mjpeg"));
     ("access_scope", scope_value (sl_access_scope l));
     ("expires_at_unix_secs", JNum (expires_at_unix_secs x)); ("ttl_minutes", JNum (ttl_minutes x))].

Definition field_or_null (v : jv) (k : string) : jv := default JNull (jv_get v k).

Definition build_share_link_artifact (payload : jv) : TaskArtifact :=
  {| ta_kind := "link"; ta_artifact_id := None; ta_label := "共享观看链接";
     ta_mime_type := "text/uri-list"; ta_media_asset_id := None; ta_path := None;
     ta_url := jv_get payload "url" ≫= jv_str;
     ta_metadata := json_object
       ((fun k => (k, field_or_null payload k)) <$>
         ["share_link_id"; "media_session_id"; "access_scope"; "stream_url";
          "expires_at_unix_secs"; "ttl_minutes"]) |}.

Definition share_action (r : TaskRequest) (t : ResolvedCameraTarget) : Action :=
  let device := json_object [("device_id", JStr (ct_device_id t))] in
  apply_governance_defaults
    {| domain := "camera"; operation := "share_link"; resource := device; args := device;
       risk_level := Medium; requires_approval := request_requires_approval r; dry_run := false |}.

(** [handle_camera_share_link]. [resolve] is [resolve_camera_target], a look-up in
    the device registry and the admin state; [config] is
    [load_remote_view_config], both of the outside world [W]. *)
Definition handle_camera_share_link {W : Type} (resolve : TaskRequest -> W -> result string ResolvedCameraTarget)
    (config : W -> result string RemoteViewConfig) : Handler (Text := Text) (W := W) := fun e r w d =>
  let fail error := failed (uuid e 6) r "camera_hub_service" Medium error in
  match resolve r w with
  | Err error => (w, d, fail error)
  | Ok t =>
  match ensure_action_allowed store e r (share_action r t) "camera_hub_service" d with
  | (d, Err response) => (w, d, response)
  | (d, Ok _) =>
  match config w with
  | Err error => (w, d, fail error)
  | Ok c =>
  match issue_camera_share_token (clock e 2) (share_secret c) (ct_device_id t)
          (share_link_ttl_minutes c) with
  | Err error => (w, d, fail error)
  | Ok x =>
      let share_link_id := "share-link-" +:+ uuid e 3 in
      let media_session_id := "media-session-" +:+ uuid e 4 in
      let m := build_share_media_session (clock e 3) r t media_session_id share_link_id in
      let l := build_share_link_record x media_session_id share_link_id in
      match save_share_link_bundle store m l (ios e 2) d with
      | (d, Err error) => (w, d, fail error)
      | (d, Ok _) =>
          let payload := build_share_link_payload t x m l in
          let event := serialize_event_record
            (build_task_event_record (uuid e 5) (clock e 4) r (step_id_for_request r)
              "task.share_link_issued" SeverityInfo payload) in
          (w, d, completed_with_context (uuid e 6) r "camera_hub_service" Medium
            ("已为 " +:+ ct_display_name t +:+ " 生成 " +:+ show_Z (ttl_minutes x) +:+ " 分钟共享观看链接。")
            (json_object [("camera_target", target_value t); ("share_link", payload)])
            [build_share_link_artifact payload] [event] ["打开共享观看页"])
      end
  end end end end.

(** * Verification *)

(** [revoked_at.as_deref().map(str::trim).filter(|value| !value.is_empty()).is_some()] *)
Definition is_revoked (l : ShareLink) : bool := bool_decide (is_Some (sl_revoked_at l ≫= non_blank)).

Definition expiry_check (now : Z) (l : ShareLink) : result string unit :=
  match sl_expires_at l with
  | None => Ok tt
  | Some s =>
      match parse_uint u64_max (trim s) with
      | None => Err "share token expiry is invalid"
      | Some expires => if (expires <? now)%Z then Err "share token expired" else Ok tt
      end
  end.

Definition is_live (m : MediaSession) : bool :=
  match ms_status m with MediaOpening | MediaActive => true | _ => false end.

(** [verify_shared_camera_token], with the settings loaded: the clock is read for
    the token and again for the link. *)
Definition verify_shared_camera_token (e : Env (Text := Text)) (c : RemoteViewConfig) (tok : string)
    (d : Disk Text) : result string CameraShareClaims :=
  match verify_camera_share_token (clock e 0) (share_secret c) tok with
  | Err error => Err error
  | Ok claims =>
  match find_share_link_by_token_hash store (camera_share_token_hash tok) (ios e 0) d with
  | Err error => Err error
  | Ok None => Err "share token is not registered"
  | Ok (Some l) =>
      if is_revoked l then Err "share token revoked" else
      match expiry_check (clock e 1) l with
      | Err error => Err error
      | Ok _ =>
      match load_media_session store (sl_media_session_id l) (ios e 1) d with
      | Err error => Err error
      | Ok None => Err ("share media session not found: " +:+ sl_media_session_id l)
      | Ok (Some m) =>
          if negb (ms_device_id m =? device_id claims) then Err "share token device mismatch"
          else if negb (opt_eqb (ms_share_link_id m) (Some (sl_share_link_id l)))
          then Err "share token session mismatch"
          else if negb (is_live m) then Err "share session is no longer active"
          else Ok claims
      end end
  end end.

(** * Listing *)

Definition share_link_status (l : ShareLink) (m : MediaSession) (now : Z) : string :=
  if is_revoked l then "revoked"
  else if match sl_expires_at l ≫= (fun s => parse_uint u64_max (trim s)) with
          | Some expires => (expires <? now)%Z
          | None => false
          end then "expired"
  else match ms_status m with
       | MediaOpening | MediaActive => "active"
       | MediaClosed => "closed"
       | MediaFailed => "failed"
       end.

(** * Revocation *)

(** [handle_revoke_share_link] from the caller's authorisation to the answer: the
    link and the session changed, or the HTTP status of the error. *)
Definition revoke_shared_link (e : Env (Text := Text)) (share_link_id : string)
  : M (Text := Text) (Z * string) (ShareLink * MediaSession) := fun d =>
  match load_share_link store share_link_id (ios e 0) d with
  | Err error => (d, Err (500%Z, error))
  | Ok None => (d, Err (404%Z, "share link not found"))
  | Ok (Some l) =>
      let revoked_at := show_Z (clock e 0) in
      match revoke_share_link store share_link_id (Some revoked_at) (ios e 1) d with
      | (d, Err error) => (d, Err (500%Z, error))
      | (d, Ok None) => (d, Err (404%Z, "share link not found"))
      | (d, Ok (Some revoked)) =>
          match close_media_session store (sl_media_session_id l) (Some revoked_at) (ios e 2) d with
          | (d, Err error) => (d, Err (500%Z, error))
          | (d, Ok None) => (d, Err (404%Z, "media session not found"))
          | (d, Ok (Some m)) => (d, Ok (revoked, m))
          end
      end
  end.
End share_links.
