(* ===== verification/ShareLinkTheorems.v ===== *)
(** What a share link promises: a token is exactly what the secret signs, opens the
    camera it was issued for until it expires, and nothing once it is revoked. *)
From Stdlib Require Import Ascii.
From S2P Require Import Prelude RustString Json Contracts Policy Approval Runtime.
From S2P Require Import TaskRecords Conversation TaskStore TaskStoreTheorems TaskStoreQueries.
From S2P Require Import TaskRequests TaskApi TaskGateTheorems TaskDecisionTheorems RemoteView UrlPath Devices ShareLinks.
Local Open Scope string_scope.
Local Open Scope list_scope.

#[local] Existing Instance jv_json.

(** * Tokens *)

Section tokens.
Context `{!Sha256} `{!HmacSha256} `{!Base64Url} `{!ClaimsCodec}.

Local Ltac refused :=
  split; [done|intros (? & ? & ? & ? & ? & ? & ? & ? & ? & ? & ? & ? & ? & ?); simplify_eq;
               first [congruence | lia]].

(** A token is accepted exactly when it is two parts around its first dot,
    neither empty, of which the second is the keyed hash of the first under the
    secret, and the first holds claims of version 1 for a live camera, for a
    device, that have not expired. *)
Theorem verify_token_iff now secret tok c :
  verify_camera_share_token now secret tok = Ok c <->
  is_blank secret = false
  /\ exists p s payload, split_once "." tok = Some (p, s) /\ p <> "" /\ s <> ""
     /\ b64_decode s = Ok (hmac secret p) /\ b64_decode p = Ok payload /\ from_slice payload = Ok c
     /\ v c = 1%Z /\ kind c = "camera_live" /\ is_blank (device_id c) = false /\ (now <= exp c)%Z.
Proof.
  unfold verify_camera_share_token. destruct (is_blank secret); [refused|].
  destruct (split_once "." tok) as [[p s]|]; [|refused].
  destruct (is_empty p) eqn:Ep; [apply is_empty_true in Ep; refused|].
  destruct (is_empty s) eqn:Es; [apply is_empty_true in Es; refused|].
  apply is_empty_false in Ep, Es. cbn [orb].
  destruct (b64_decode s) as [m|] eqn:Em; [|refused]. unfold sign_payload.
  rewrite b64_decode_encode. unfold verify_slice.
  destruct (String.eqb_spec m (hmac secret p)) as [->|Hne]; [|by destruct (negb (_ =? _)%nat); refused].
  rewrite Nat.eqb_refl. cbn [negb].
  destruct (b64_decode p) as [y|] eqn:Ey; [|refused].
  destruct (from_slice y) as [c'|] eqn:Ec; [|refused].
  destruct (Z.eqb_spec (v c') 1); [|refused].
  destruct (String.eqb_spec (kind c') "camera_live"); [|refused].
  cbn [negb orb]. destruct (is_blank (device_id c')) eqn:Eb; [refused|].
  assert (forall p' s' y', Some (p, s) = Some (p', s') -> b64_decode p' = Ok y' ->
    from_slice y' = Ok c -> c = c') as Hc by (intros p' s' y' [= <- <-]; congruence).
  destruct (Z.ltb_spec (exp c') now); split; try done.
  - intros (_ & p' & s' & y' & E1 & _ & _ & _ & E2 & E3 & _ & _ & _ & Hl).
    rewrite (Hc p' s' y' E1 E2 E3) in Hl. lia.
  - intros [= <-]. split; [done|]. by exists p, s, y.
  - intros (_ & p' & s' & y' & E1 & _ & _ & _ & E2 & E3 & _). by rewrite (Hc p' s' y' E1 E2 E3).
Qed.

Definition issued_claims (device : string) (expires : Z) : CameraShareClaims :=
  {| v := 1; kind := "camera_live"; device_id := device; exp := expires |}.

Lemma issued_parts now secret device ttl x :
  issue_camera_share_token now secret device ttl = Ok x ->
  is_blank secret = false /\ is_blank device = false
  /\ ttl_minutes x = z_clamp ttl 1 1440 /\ expires_at_unix_secs x = (now + ttl_minutes x * 60)%Z
  /\ (expires_at_unix_secs x <= u64_max)%Z
  /\ exists payload, to_vec (issued_claims device (expires_at_unix_secs x)) = Ok payload
     /\ token x = b64_encode payload +:+ String "." (sign_payload secret (b64_encode payload)).
Proof.
  unfold issue_camera_share_token. destruct (is_blank secret), (is_blank device); try done.
  unfold u64_checked_add. change (24 * 60)%Z with 1440%Z.
  destruct (Z.leb_spec (now + z_clamp ttl 1 1440 * 60) u64_max); [|done].
  destruct (to_vec _) as [payload|] eqn:E; [|done]. intros [= <-]. cbn. naive_solver.
Qed.

Lemma token_split secret payload :
  split_once "." (b64_encode payload +:+ String "." (sign_payload secret (b64_encode payload)))
  = Some (b64_encode payload, sign_payload secret (b64_encode payload)).
Proof. apply split_once_app. eapply str_forall_impl; [apply url_safe_not_dot|apply b64_encode_safe]. Qed.

Lemma issued_verifies now secret device ttl x later :
  issue_camera_share_token now secret device ttl = Ok x ->
  verify_camera_share_token later secret (token x)
  = if (expires_at_unix_secs x <? later)%Z then Err "share token expired"
    else Ok (issued_claims device (expires_at_unix_secs x)).
Proof.
  intros (Hs & Hd & _ & _ & _ & payload & Hp & ->)%issued_parts. unfold verify_camera_share_token.
  rewrite Hs, token_split.
  assert (b64_encode payload <> "") as Hne.
  { intros E%b64_encode_empty. subst payload. apply from_slice_to_vec in Hp.
    by apply from_slice_empty in Hp. }
  assert (sign_payload secret (b64_encode payload) <> "") as Hne2.
  { intros E%b64_encode_empty. pose proof (hmac_length secret (b64_encode payload)) as Hl. by rewrite E in Hl. }
  apply is_empty_false in Hne as ->. apply is_empty_false in Hne2 as ->. cbn [orb].
  unfold sign_payload. rewrite !b64_decode_encode, Nat.eqb_refl. unfold verify_slice.
  rewrite String.eqb_refl. cbn [negb]. rewrite (from_slice_to_vec _ _ Hp).
  cbn [issued_claims v kind device_id exp]. rewrite Z.eqb_refl, String.eqb_refl. cbn [negb orb].
  by rewrite Hd.
Qed.

Lemma issued_ascii now secret device ttl x :
  issue_camera_share_token now secret device ttl = Ok x -> is_ascii (token x) = true.
Proof.
  intros (_ & _ & _ & _ & _ & payload & _ & ->)%issued_parts. unfold is_ascii.
  assert (forall s, str_forall url_safe s = true -> str_forall (byte_in 0 127) s = true) as Hs.
  { intros s. apply str_forall_impl. intros a. unfold url_safe, is_ascii_alphanumeric,
      is_ascii_uppercase, is_ascii_lowercase, is_ascii_digit, byte_in.
    intros Hu. rewrite !orb_true_iff, !andb_true_iff, !N.leb_le, !Ascii.eqb_eq in Hu.
    apply andb_true_iff. rewrite !N.leb_le. destruct Hu as [[Hu| ->]| ->]; [lia|done|done]. }
  pose proof (Hs _ (b64_encode_safe payload)) as Hb1.
  pose proof (Hs _ (b64_encode_safe (hmac secret (b64_encode payload)))) as Hb2.
  unfold sign_payload. revert Hb1 Hb2. generalize (b64_encode payload). intros p. generalize (b64_encode (hmac secret p)).
  intros t. revert p. assert (forall p, str_forall (byte_in 0 127) p = true -> str_forall (byte_in 0 127) t = true ->
    str_forall (byte_in 0 127) (p +:+ String "." t) = true) as Ha; [|done].
  intros p. induction p as [|a p IH]; cbn; [done|]. intros [Hx Hp]%andb_true_iff Ht. by rewrite Hx, IH.
Qed.

(** Issuing and verifying. An issued token is valid for between a minute and
    a day, as long as was asked if that is in between, and its expiry does not
    overflow; its verification under the same secret gives the device back until
    the second it expires, and fails as expired from then on. *)
Theorem token_roundtrip now secret device ttl x :
  issue_camera_share_token now secret device ttl = Ok x ->
  (1 <= ttl_minutes x <= 1440)%Z /\ ((1 <= ttl <= 1440)%Z -> ttl_minutes x = ttl)
  /\ expires_at_unix_secs x = (now + ttl_minutes x * 60)%Z /\ (expires_at_unix_secs x <= u64_max)%Z
  /\ forall later,
     ((later <= expires_at_unix_secs x)%Z ->
        exists c, verify_camera_share_token later secret (token x) = Ok c /\ device_id c = device)
     /\ ((expires_at_unix_secs x < later)%Z ->
        verify_camera_share_token later secret (token x) = Err "share token expired").
Proof.
  intros Hx. pose proof (issued_parts _ _ _ _ _ Hx) as (_ & _ & Ht & He & Hm & _).
  split; [rewrite Ht; by apply z_clamp_range|]. split; [intros; rewrite Ht; by apply z_clamp_id|].
  do 2 (split; [done|]). intros later. rewrite (issued_verifies _ _ _ _ _ later Hx). split; intros Hl.
  - rewrite (proj2 (Z.ltb_ge _ _) Hl). by eexists.
  - by rewrite (proj2 (Z.ltb_lt _ _) Hl).
Qed.
End tokens.

(** * Links *)

Lemma ascii_valid_utf8 s : is_ascii s = true -> valid_utf8 s = true.
Proof.
  unfold is_ascii. induction s as [|a s IH]; [done|]. cbn [str_forall valid_utf8].
  intros [-> Hs]%andb_true_iff. by apply IH.
Qed.

(** The page and the stream of a token's link are paths that give the token back. *)
Lemma share_url_parses error tok :
  valid_utf8 tok = true -> tok <> "" ->
  parse_shared_camera_live_page_path error (share_url tok) = Some tok
  /\ parse_shared_camera_live_stream_path error (share_url tok +:+ "/live.mjpeg") = Some tok.
Proof.
  intros Hv Hne. unfold parse_shared_camera_live_page_path, parse_shared_camera_live_stream_path, share_url.
  rewrite str_app_assoc, !strip_prefix_app. cbn [mbind option_bind].
  rewrite strip_suffix_app. cbn [mbind option_bind]. by rewrite !share_token_encoded.
Qed.

Section life.
Context `{!UnicodeLower} `{!HashOrder} `{!Sha256} `{!HmacSha256} `{!Base64Url} `{!ClaimsCodec}.
Context `{!Codec PendingTaskCandidate} `{!Codec PendingTaskConnect}
  `{!Codec PendingTaskClipConfirmation} `{!Codec PendingTaskGeneralMessageLoop}
  `{!Codec TaskConversationState} `{!Codec TaskSessionStateEnvelope}.
Context `{!Codec EventRecord}.
Context {Text : Type} `{!FileCodec Text} (store : TaskConversationStore).

(** The file holds a link as the only one of its token, and its session. *)
Record registered (f : TaskConversationFile) (l : ShareLink) (m : MediaSession) : Prop := {
  reg_keyed : keyed f;
  reg_link : share_links f !! sl_share_link_id l = Some l;
  reg_only k l' : share_links f !! k = Some l' -> sl_token_hash l' = sl_token_hash l -> l' = l;
  reg_session : media_sessions f !! sl_media_session_id l = Some m
}.

Lemma registered_find d f l m :
  holds d f -> registered f l m ->
  find_share_link_by_token_hash store (sl_token_hash l) io_ok d = Ok (Some l).
Proof.
  intros Hd Hr. unfold find_share_link_by_token_hash. rewrite (query_holds store _ d f Hd). f_equal.
  pose proof (keyed_values sl_share_link_id (share_links f) l (k_share_links f (reg_keyed _ _ _ Hr))) as Hl.
  destruct (list_find _ _) as [l'|] eqn:E.
  - apply list_find_some in E as [Hin Ht]. apply String.eqb_eq in Ht.
    rewrite (keyed_values sl_share_link_id) in Hin by apply (reg_keyed _ _ _ Hr).
    f_equal. by eapply reg_only.
  - rewrite list_find_none in E. specialize (E l (proj2 Hl (reg_link _ _ _ Hr))).
    by rewrite String.eqb_refl in E.
Qed.

(** Saving a link and its session registers them, if the token is new. *)
Lemma saved_registered f l m :
  keyed f -> sl_media_session_id l = ms_media_session_id m ->
  (forall k l', share_links f !! k = Some l' -> sl_token_hash l' <> sl_token_hash l) ->
  registered (put_share_link l (put_media_session m f)) l m.
Proof.
  intros Hf Hm Hfresh. split; cbn.
  - apply keyed_set_share_links; [apply keyed_insert, Hf|].
    apply keyed_set_media_sessions; [apply keyed_insert, Hf|done].
  - by rewrite lookup_insert_eq.
  - intros k l' [[_ <-]|[_ Hl]]%lookup_insert_Some; [done|]. intros E. by destruct (Hfresh k l' Hl).
  - by rewrite Hm, lookup_insert_eq.
Qed.

(** The link and the session after a revocation. *)
Definition revoked_link (at_time : string) (l : ShareLink) : ShareLink :=
  set_sl_revoked_at (Some at_time) l.
Definition closed_session (at_time : string) (m : MediaSession) : MediaSession :=
  set_ms_ended_at (Some at_time) (set_ms_status MediaClosed m).

Lemma update_record_run {A} (m : TaskConversationFile -> gmap string A) set k (g : A -> A) d f x :
  writable -> holds d f -> m f !! k = Some x ->
  exists d', update_record store m set k g io_ok d = (d', Ok (Some (g x)))
    /\ holds d' (set (<[k := g x]> (m f)) f).
Proof. intros Hw Hd Hx. eapply (update_run store); [done..|]. cbv beta. by rewrite Hx. Qed.

Lemma revoke_run e d f l m :
  calm e -> writable -> holds d f -> registered f l m ->
  let t := show_Z (clock e 0) in
  exists d' f', revoke_shared_link store e (sl_share_link_id l) d
      = (d', Ok (revoked_link t l, closed_session t m))
    /\ holds d' f' /\ registered f' (revoked_link t l) (closed_session t m).
Proof.
  intros He Hw Hd [Hf Hl Ho Hm] t. unfold revoke_shared_link, load_share_link.
  rewrite !He, (query_holds store _ d f Hd), Hl. cbv beta iota zeta. fold t.
  destruct (update_record_run share_links set_share_links (sl_share_link_id l) (revoked_link t) d f l
    Hw Hd Hl) as (d1 & E1 & Hd1).
  unfold revoke_share_link. cbn [some_or]. fold (revoked_link t). rewrite E1. cbv beta iota.
  destruct (update_record_run media_sessions set_media_sessions (sl_media_session_id l) (closed_session t)
    d1 _ m Hw Hd1 Hm) as (d2 & E2 & Hd2).
  unfold close_media_session. cbn [some_or]. fold (closed_session t). rewrite E2.
  eexists d2, _. split; [done|]. split; [exact Hd2|]. split; cbn.
  - apply keyed_set_media_sessions; [by eapply keyed_insert_same; [apply Hf|exact Hm|]|].
    apply keyed_set_share_links; [by eapply keyed_insert_same; [apply Hf|exact Hl|]|done].
  - by rewrite lookup_insert_eq.
  - intros k l' [[_ <-]|[Hk Hl']]%lookup_insert_Some Hh; [done|]. destruct Hk.
    rewrite <-(k_share_links f Hf _ _ Hl'). by rewrite (Ho k l' Hl' Hh).
  - by rewrite lookup_insert_eq.
Qed.

(** What a token opens once its link is registered. *)
Lemma verify_registered e c x device now ttl d f l m :
  calm e -> holds d f -> registered f l m ->
  issue_camera_share_token now (share_secret c) device ttl = Ok x -> (0 <= expires_at_unix_secs x)%Z ->
  sl_token_hash l = camera_share_token_hash (token x) ->
  sl_expires_at l = Some (show_Z (expires_at_unix_secs x)) ->
  ms_device_id m = device -> ms_share_link_id m = Some (sl_share_link_id l) ->
  verify_shared_camera_token store e c (token x) d
  = if (expires_at_unix_secs x <? clock e 0)%Z then Err "share token expired"
    else if is_revoked l then Err "share token revoked"
    else if (expires_at_unix_secs x <? clock e 1)%Z then Err "share token expired"
    else if is_live m then Ok (issued_claims device (expires_at_unix_secs x))
    else Err "share session is no longer active".
Proof.
  intros He Hd Hr Hx Hpos Hh Ht Hdev Hid. unfold verify_shared_camera_token.
  rewrite (issued_verifies _ _ _ _ _ (clock e 0) Hx), He, <-Hh.
  destruct (_ <? clock e 0)%Z; [done|]. rewrite (registered_find d f l m Hd Hr).
  destruct (is_revoked l); [done|]. unfold expiry_check.
  apply issued_parts in Hx as (_ & _ & _ & _ & Hm & _).
  rewrite Ht, trim_show_Z, parse_show_Z by lia. destruct (_ <? clock e 1)%Z; [done|].
  unfold load_media_session. rewrite He, (query_holds store _ d f Hd), (reg_session _ _ _ Hr). cbn.
  unfold opt_eqb. rewrite Hdev, Hid, String.eqb_refl, bool_decide_true by done. cbn. by destruct (is_live m).
Qed.

Lemma revoked_is_revoked t l : (0 <= t)%Z -> is_revoked (revoked_link (show_Z t) l) = true.
Proof.
  intros Ht. unfold is_revoked. cbn. unfold non_blank. rewrite trim_show_Z by done.
  pose proof (show_Z_not_empty t Ht) as E. by apply is_empty_false in E as ->.
Qed.

(** Issuing a link when nothing goes wrong: the answer, and what is registered. *)
Lemma issue_run {W} resolve config e r (w : W) d f t c x :
  calm e -> writable -> holds d f -> keyed f -> resolve r w = Ok t -> config w = Ok c ->
  allowed r (share_action r t) (first_pending f (rq_task_id r)) ->
  issue_camera_share_token (clock e 2) (share_secret c) (ct_device_id t) (share_link_ttl_minutes c) = Ok x ->
  (forall k l, share_links f !! k = Some l -> sl_token_hash l <> camera_share_token_hash (token x)) ->
  let id := "share-link-" +:+ uuid e 3 in
  let l := build_share_link_record x ("media-session-" +:+ uuid e 4) id in
  let m := build_share_media_session (clock e 3) r t ("media-session-" +:+ uuid e 4) id in
  exists d1 f1 resp, handle_camera_share_link store resolve config e r w d = (w, d1, resp)
    /\ rs_status resp = Completed
    /\ en_artifacts (rs_result resp) = [build_share_link_artifact (build_share_link_payload t x m l)]
    /\ holds d1 f1 /\ registered f1 l m.
Proof.
  intros He Hw Hd Hf Hres Hcfg Hal Hx Hfresh id l m. unfold handle_camera_share_link.
  destruct (gate_passes store e r _ "camera_hub_service" d f He Hw Hd Hal) as (d0 & Hg & Hd0).
  rewrite Hres, Hg, Hcfg, Hx, He. cbv beta iota zeta. fold id. fold m l.
  unfold save_share_link_bundle.
  replace (is_blank (ms_media_session_id m)) with false
    by (symmetry; exact (is_blank_plain "m" eq_refl "" _)).
  replace (is_blank (sl_share_link_id l)) with false
    by (symmetry; exact (is_blank_plain "s" eq_refl "" _)).
  cbn [sl_media_session_id ms_media_session_id l m build_share_link_record build_share_media_session].
  rewrite String.eqb_refl. cbn [negb].
  destruct (insert_run store (fun f => put_share_link l (put_media_session m f)) d0 _ Hw Hd0) as (d1 & Hi & Hd1).
  rewrite Hi. eexists d1, _, _. split; [done|]. split; [done|]. split; [done|]. split; [exact Hd1|].
  apply saved_registered; [|done|]; unfold passed_file; destruct (_ && _); try done.
  by apply approve_all_keyed.
Qed.

(** C12. The life of a share link, where the calls to the system succeed and the token it
    is given is not that of a link already stored, as it is for a second link to a
    camera that expires in the same second. A request the gate allows, for a camera that
    resolves, completes with one link whose path opens the page of the token it
    carries. The token then opens that camera until the second it expires, and
    is refused as expired from then on; revoking the link succeeds, and from then
    on the token opens nothing. *)
Theorem share_link_life {W} resolve config e r (w : W) d f t c x error :
  calm e -> writable -> holds d f -> keyed f -> resolve r w = Ok t -> config w = Ok c ->
  allowed r (share_action r t) (first_pending f (rq_task_id r)) ->
  issue_camera_share_token (clock e 2) (share_secret c) (ct_device_id t) (share_link_ttl_minutes c) = Ok x ->
  (0 <= expires_at_unix_secs x)%Z ->
  (forall k l, share_links f !! k = Some l -> sl_token_hash l <> camera_share_token_hash (token x)) ->
  let expires := expires_at_unix_secs x in
  exists d1 resp url,
    handle_camera_share_link store resolve config e r w d = (w, d1, resp)
    /\ rs_status resp = Completed /\ ta_url <$> en_artifacts (rs_result resp) = [Some url]
    /\ parse_shared_camera_live_page_path error url = Some (token x)
    /\ parse_shared_camera_live_stream_path error (url +:+ "/live.mjpeg") = Some (token x)
    /\ (forall later, calm later ->
         ((clock later 0 <= expires)%Z -> (clock later 1 <= expires)%Z -> exists claims,
            verify_shared_camera_token store later c (token x) d1 = Ok claims
            /\ device_id claims = ct_device_id t)
         /\ ((expires < clock later 0)%Z \/ (expires < clock later 1)%Z ->
            verify_shared_camera_token store later c (token x) d1 = Err "share token expired"))
    /\ (forall e2, calm e2 -> (0 <= clock e2 0)%Z -> exists d2 l m,
         revoke_shared_link store e2 ("share-link-" +:+ uuid e 3) d1 = (d2, Ok (l, m))
         /\ ms_status m = MediaClosed
         /\ forall later, calm later -> verify_shared_camera_token store later c (token x) d2
              = Err (if (expires <? clock later 0)%Z then "share token expired" else "share token revoked")).
Proof.
  intros He Hw Hd Hf Hres Hcfg Hal Hx Hpos Hfresh expires.
  destruct (issue_run resolve config e r w d f t c x He Hw Hd Hf Hres Hcfg Hal Hx Hfresh)
    as (d1 & f1 & resp & Hrun & Hs & Ha & Hd1 & Hreg).
  assert (valid_utf8 (token x) = true) as Hu by (by eapply ascii_valid_utf8, issued_ascii).
  assert (token x <> "") as Hne.
  { apply issued_parts in Hx as (_ & _ & _ & _ & _ & p & _ & ->). by destruct (b64_encode p). }
  destruct (share_url_parses error (token x) Hu Hne) as [Hpage Hstream].
  exists d1, resp, (share_url (token x)). split; [done|]. split; [done|].
  split; [by rewrite Ha|]. do 2 (split; [done|]). split.
  - intros e' He'. rewrite (verify_registered e' c x _ _ _ d1 f1 _ _ He' Hd1 Hreg Hx Hpos) by done.
    fold expires. cbn. split.
    + intros Hl1 Hl2. rewrite !(proj2 (Z.ltb_ge _ _)) by done. by eexists.
    + intros Hl. destruct (Z.ltb_spec expires (clock e' 0)); [done|].
      destruct (Z.ltb_spec expires (clock e' 1)); [done|lia].
  - intros e2 He2 Hc2. destruct (revoke_run e2 d1 f1 _ _ He2 Hw Hd1 Hreg) as (d2 & f2 & Hr & Hd2 & Hreg2).
    eexists d2, _, _. split; [exact Hr|]. split; [done|]. intros e' He'.
    rewrite (verify_registered e' c x _ _ _ d2 f2 _ _ He' Hd2 Hreg2 Hx Hpos) by done.
    rewrite revoked_is_revoked by done. fold expires. by destruct (expires <? clock e' 0)%Z.
Qed.
End life.
