(* ===== verification/TaskApiSample.v ===== *)
(** The task service's theorems at concrete inputs. The store: a disk whose text is
    the file itself, hash maps that list their values in the order of their keys'
    encodings, and the conversions of the conversation sample. Requests: a restart of
    a service that needs approval, and one executor that counts what it ran. Share
    links: hash functions of the right lengths, hexadecimal text for the URL-safe
    encoding, claims written field by field. *)
From Stdlib Require Import Ascii.
From S2P Require Import Prelude RustString Json Contracts TaskRecords Conversation ConversationSample TaskStore TaskStoreTheorems.
From S2P Require Import TaskStoreQueries Policy Approval Runtime TaskRequests TaskApi TaskGateTheorems TaskDecisionTheorems.
From S2P Require Import TaskReplayTheorems RemoteView UrlPath Devices ShareLinks ShareLinkTheorems.
Local Open Scope Z_scope.

#[local] Existing Instance jv_json.
#[local] Existing Instance enc_codec.
#[local] Existing Instance state_codec | 0.

Definition sample_order : HashOrder :=
  {| values A m := (map_to_list m).*2; values_perm A m := reflexivity _ |}.
#[local] Existing Instance sample_order.

Definition sample_text : FileCodec TaskConversationFile.
Proof. refine {| to_string_pretty f := Ok f; from_str f := Ok f |}. congruence. Defined.
#[local] Existing Instance sample_text.

Definition sample_store : TaskConversationStore :=
  {| path := "/var/lib/harbor/tasks.json"; parent := Some "/var/lib/harbor" |}.

Definition a_session (id : string) : ConversationSession :=
  {| cs_session_id := id; cs_workspace_id := "home"; cs_channel := "im"; cs_surface := "chat";
     cs_conversation_id := "c"; cs_user_id := "ada"; cs_route_key := ""; cs_last_message_id := "";
     cs_chat_type := ""; cs_state := (JNull : @Value jv_json); cs_resume_token := None;
     cs_expires_at := None |}.

Definition a_run (id session started : string) : TaskRun :=
  {| run_task_id := id; run_workspace_id := "home"; run_session_id := session;
     run_source_channel := "im"; run_domain := "camera"; run_action := "scan";
     run_intent_text := ""; run_entity_refs := (JNull : @Value jv_json);
     run_args := (JNull : @Value jv_json); run_autonomy_level := ""; run_status := RunCompleted;
     run_risk_level := Low; run_requires_approval := false; run_started_at := Some started;
     run_completed_at := None; run_metadata := (JNull : @Value jv_json) |}.

Definition a_ticket (id task : string) : ApprovalTicket :=
  {| ap_approval_id := id; ap_task_id := task; ap_trace_id := ""; ap_route_key := "";
     ap_policy_ref := "p"; ap_requester_user_id := "ada"; ap_approver_user_id := None;
     ap_status := ApprovalPending; ap_reason := ""; ap_requested_at := None; ap_decided_at := None |}.

(** Two sessions, the newer one with a run, and a pending approval. *)
Definition sample_ops : list (StoreOp * Io TaskConversationFile) :=
  [(OpSaveSession (a_session "s-old"), io_ok); (OpSaveSession (a_session "s-new"), io_ok);
   (OpSaveTaskRun (a_run "t-1" "s-new" "2026-01-02"), io_ok);
   (OpSaveTaskRun (a_run "t-0" "s-old" "2026-01-01"), io_ok);
   (OpSaveApproval (a_ticket "a-1" "t-1"), io_ok)].

Definition sample_file : TaskConversationFile :=
  put_approval (a_ticket "a-1" "t-1") (put_task_run (a_run "t-0" "s-old" "2026-01-01")
    (put_task_run (a_run "t-1" "s-new" "2026-01-02")
      (put_session (a_session "s-new") (put_session (a_session "s-old") file_default)))).

Definition run_ops (d : Disk TaskConversationFile) : Disk TaskConversationFile :=
  foldl (fun d '(op, io) => (exec sample_store op io d).1) d sample_ops.

Lemma run_ops_sample : run_ops None = Some sample_file.
Proof. reflexivity. Qed.

Lemma sample_ops_io op (io : Io TaskConversationFile) : (op, io) ∈ sample_ops -> write_fault io = None.
Proof.
  unfold sample_ops. rewrite !elem_of_cons, elem_of_nil.
  intros [E|[E|[E|[E|[E|[]]]]]]; by injection E as _ ->.
Qed.

Lemma sample_file_keyed : keyed sample_file.
Proof.
  apply keyed_set_approvals; [apply keyed_insert, keyed_empty|].
  apply keyed_set_task_runs; [apply keyed_insert, keyed_insert, keyed_empty|].
  apply keyed_set_task_runs; [apply keyed_insert, keyed_empty|].
  do 2 (apply keyed_put_session; [reflexivity|]). apply keyed_default.
Qed.

Lemma sample_holds : holds (Some sample_file) sample_file.
Proof. reflexivity. Qed.

Lemma store_stays_keyed_witness : disk_keyed (run_ops None).
Proof.
  exact (store_stays_keyed sample_store sample_ops None I sample_ops_io).
Defined.

Lemma failed_operation_leaves_file_witness :
  (exec sample_store (OpReplaceArtifacts "t-1" None
     [{| art_artifact_id := " "; art_task_id := "t-1"; art_trace_id := ""; art_step_id := None;
         art_route_key := ""; art_artifact_kind := ArtifactText; art_label := "";
         art_mime_type := ""; art_media_asset_id := None; art_path := None; art_url := None;
         art_metadata := (JNull : @Value jv_json) |}]) io_ok (Some sample_file)).1
  = Some sample_file.
Proof.
  destruct (proj1 (failed_operation_leaves_file sample_store) (OpReplaceArtifacts "t-1" None
     [{| art_artifact_id := " "; art_task_id := "t-1"; art_trace_id := ""; art_step_id := None;
         art_route_key := ""; art_artifact_kind := ArtifactText; art_label := "";
         art_mime_type := ""; art_media_asset_id := None; art_path := None; art_url := None;
         art_metadata := (JNull : @Value jv_json) |}]) io_ok (Some sample_file)
    "artifact_id 不能为空") as [H|(error & H & _)]; [vm_compute; reflexivity|exact H|discriminate H].
Defined.

(** The order of [sample_order], reversed. *)
Definition reversed_order : HashOrder.
Proof.
  refine {| values A m := rev (map_to_list m).*2 |}.
  intros A m. symmetry. apply Permutation_rev.
Defined.

Lemma sample_load : load_file sample_store io_ok (Some sample_file) = Ok sample_file.
Proof. unfold load_file, io_ok. cbn [stat_fault read_fault]. unfold from_str, sample_text. reflexivity. Qed.

Lemma listings_deterministic_witness :
  @recent_task_steps _ sample_order _ _ sample_store 5 io_ok (Some sample_file)
  = @recent_task_steps _ reversed_order _ _ sample_store 5 io_ok (Some sample_file).
Proof.
  destruct (listings_deterministic sample_store io_ok (Some sample_file) sample_file
    sample_load sample_file_keyed) as (_ & _ & H & _).
  exact (H 5%nat sample_order reversed_order).
Defined.

Lemma read_your_writes_witness :
  load_task_run sample_store "t-9" io_ok
    (Some (put_task_run (a_run "t-9" "s-new" "2026-02-01") sample_file))
  = Ok (Some (a_run "t-9" "s-new" "2026-02-01")).
Proof.
  destruct (read_your_writes sample_store io_ok (Some sample_file)
    (Some (put_task_run (a_run "t-9" "s-new" "2026-02-01") sample_file)) sample_file
    eq_refl sample_holds) as (_ & _ & H & _).
  exact (proj1 (H (a_run "t-9" "s-new" "2026-02-01") ltac:(reflexivity))).
Defined.

Lemma pair_eq {A B} (x : A * B) b : x.2 = b -> x = (x.1, b).
Proof. by destruct x; intros <-. Qed.

Definition sample_deleted : Disk TaskConversationFile * result string bool :=
  delete_session_with_tasks sample_store "s-new" io_ok (Some sample_file).

Lemma delete_session_cascades_witness :
  exists f', holds sample_deleted.1 f' /\ cascade "s-new" sample_file f'.
Proof.
  refine (proj2 (delete_session_cascades sample_store io_ok (Some sample_file) sample_deleted.1
    sample_file "s-new" true (holds_load sample_store _ _ sample_holds) sample_file_keyed _)).
  apply pair_eq. vm_compute. reflexivity.
Defined.

Definition sample_resolved : Disk TaskConversationFile * result string (list ApprovalTicket) :=
  resolve_pending_approvals sample_store "t-1" (Some "eve") None io_ok (Some sample_file).

Lemma resolve_approves_pending_witness :
  exists f', holds sample_resolved.1 f'
  /\ approvals f' !! "a-1" = Some (decide_ticket ApprovalApproved (Some "eve") None (a_ticket "a-1" "t-1")).
Proof.
  destruct (resolve_approves_pending sample_store io_ok (Some sample_file) sample_resolved.1 sample_file
    "t-1" (Some "eve") None
    [decide_ticket ApprovalApproved (Some "eve") None (a_ticket "a-1" "t-1")]
    (holds_load sample_store _ _ sample_holds) sample_file_keyed)
    as (f' & Hd & _ & Ha & _); [apply pair_eq; vm_compute; reflexivity|].
  exists f'. split; [exact Hd|]. exact (Ha "a-1" (a_ticket "a-1" "t-1") eq_refl).
Defined.

Definition sample_pruned : Disk TaskConversationFile * result string (list string) :=
  prune_sessions_for_user_surface sample_store "ada" "chat" 0 io_ok (fun _ => io_ok)
    (Some sample_file).

Lemma prune_keeps_newest_witness :
  sample_pruned.2 = Ok ["s-old"]
  /\ sessions_for_user_surface sample_store "ada" "chat" io_ok sample_pruned.1
     = Ok (take 1 (user_surface_sessions "ada" "chat" sample_file)).
Proof.
  assert (sample_pruned.2 = Ok ["s-old"]) as Hr by (vm_compute; reflexivity).
  split; [exact Hr|].
  exact (proj2 (prune_keeps_newest sample_store (Some sample_file) sample_pruned.1 sample_file
    "ada" "chat" 0 ["s-old"] sample_holds sample_file_keyed (pair_eq sample_pruned _ Hr))).
Defined.

Local Open Scope string_scope.
Local Open Scope list_scope.

#[local] Existing Instance ascii_unicode_lower.

(** * Events as values *)

Definition source_kind_code (k : EventSourceKind) : Z :=
  match k with SourceDevice => 0 | SourceMedia => 1 | SourceTask => 2 | SourceAutomation => 3
             | SourceSystem => 4 | SourceInference => 5 end.
Definition source_kind_of (z : Z) : EventSourceKind :=
  match z with 0 => SourceDevice | 1 => SourceMedia | 2 => SourceTask | 3 => SourceAutomation
             | 4 => SourceSystem | _ => SourceInference end%Z.

Global Instance enc_source_kind : Enc EventSourceKind.
Proof. refine (enc_iso source_kind_code source_kind_of _). abstract (by intros []). Defined.

Definition severity_code (s : EventSeverity) : Z :=
  match s with SeverityInfo => 0 | SeverityWarning => 1 | SeverityError => 2 | SeverityCritical => 3 end.
Definition severity_of (z : Z) : EventSeverity :=
  match z with 0 => SeverityInfo | 1 => SeverityWarning | 2 => SeverityError | _ => SeverityCritical end%Z.

Global Instance enc_severity : Enc EventSeverity.
Proof. refine (enc_iso severity_code severity_of _). abstract (by intros []). Defined.

Global Instance enc_event : Enc EventRecord.
Proof.
  refine (enc_iso (B := (string * string * EventSourceKind * string * string)
                        * (EventSeverity * jv * option string * option string)
                        * (option string * option string))
    (fun e => ((ev_event_id e, ev_workspace_id e, ev_source_kind e, ev_source_id e, ev_event_type e),
               (ev_severity e, ev_payload e : jv, ev_correlation_id e, ev_causation_id e),
               (ev_occurred_at e, ev_ingested_at e)))
    (fun '((a, b, c, d, t), (s, p, co, ca), (o, i)) =>
      {| ev_event_id := a; ev_workspace_id := b; ev_source_kind := c; ev_source_id := d;
         ev_event_type := t; ev_severity := s; ev_payload := (p : @Value jv_json);
         ev_correlation_id := co; ev_causation_id := ca; ev_occurred_at := o; ev_ingested_at := i |}) _).
  abstract (by intros []).
Defined.

(** * A request, with and without the ticket's identifier *)

Definition sample_env : Env (Text := TaskConversationFile) :=
  {| clock n := (1700000000 + Z.of_nat n)%Z; uuid n := "uuid-" +:+ show_nat n; ios n := io_ok |}.

Definition restart_request (args : jv) : TaskRequest :=
  {| rq_task_id := "t-7"; rq_trace_id := "tr-7"; rq_step_id := ""; rq_source :=
       {| src_channel := "im"; src_surface := "chat"; src_conversation_id := "c-1";
          src_user_id := "ada"; src_session_id := "s-new"; src_route_key := "rk" |};
     rq_intent := {| int_domain := "service"; int_action := "restart"; int_raw_text := "restart it" |};
     rq_entity_refs := JNull; rq_args := args; rq_autonomy_level := "supervised"; rq_message := None |}.

Definition asked : TaskRequest := restart_request (JObj [("service_name", JStr "harbor-gate")]).
Definition approved : TaskRequest :=
  restart_request (JObj [("approval_token", JStr "uuid-0"); ("service_name", JStr "harbor-gate")]).

Definition restart_action : Action :=
  match build_harbor_action_from_request asked with
  | Ok a => a
  | Err _ => {| domain := ""; operation := ""; resource := JNull; args := JNull; risk_level := Low;
                requires_approval := false; dry_run := false |}
  end.

Lemma restart_eq :
  restart_action = {| domain := "service"; operation := "restart";
                      resource := JObj [("service_name", JStr "harbor-gate")]; args := JObj [];
                      risk_level := High; requires_approval := true; dry_run := false |}.
Proof. reflexivity. Qed.

Lemma restart_permitted r : rq_autonomy_level r = "supervised" -> permitted r restart_action.
Proof.
  intros Hr. rewrite restart_eq. split.
  - unfold effective_autonomy_level. rewrite Hr. intros Hn. vm_compute in Hn. discriminate.
  - split; [|done]. intros _. apply str_in_spec. reflexivity.
  - intros _. exists "harbor-gate". split; [reflexivity|]. split; [cbn; lia|reflexivity].
Qed.

Lemma sample_calm : calm sample_env.
Proof. done. Qed.

Lemma sample_writable : writable (Text := TaskConversationFile).
Proof. intros f. by exists f. Qed.


(** An executor that counts. *)
Definition counting : Router nat :=
  register router_new
    {| route := MiddlewareApi; supports _ _ := true; is_available _ := true;
       execute _ t s n := (S n, Ok {| er_task_id := t; er_step_id := s; executor_used := "middleware_api";
         fallback_used := false; status := Success; duration_ms := 3; error_code := None;
         error_message := None; audit_ref := "aud"; result_payload := (JObj [] : @Value jv_json) |}) |}.

Lemma harbor_action_gated_witness :
  exists w' d' x, handle_harbor_system_action sample_store (Ok counting) sample_env approved 0%nat
    (Some sample_file) = (w', d', x) /\ w' = 1%nat
  /\ exists a, build_harbor_action_from_request approved = Ok a
     /\ exists t, request_approval_token approved = Some t.
Proof.
  destruct (handle_harbor_system_action sample_store (Ok counting) sample_env approved 0%nat
    (Some sample_file)) as [[w' d'] x] eqn:E.
  assert (w' = 1%nat) as Hw.
  { pose proof (f_equal (fun p => p.1.1) E) as E1. cbn [fst] in E1. rewrite <-E1. vm_compute. reflexivity. }
  exists w', d', x. split; [reflexivity|]. split; [exact Hw|].
  destruct (harbor_action_gated sample_store (Ok counting) sample_env approved 0%nat (Some sample_file)
    w' d' x E ltac:(rewrite Hw; discriminate)) as (a & rt & y & Ha & _ & Ht & _).
  exists a. split; [exact Ha|]. apply Ht.
  pose proof (eq_refl : match build_harbor_action_from_request approved with
                           | Ok a => risk_level a | Err _ => Low end = High) as Hr.
  rewrite Ha in Hr. rewrite Hr. reflexivity.
Defined.

(** * Decisions *)

(** The sample file's ticket, on a run that waits for it. *)
Lemma sample_ticket : approvals sample_file !! "a-1" = Some (a_ticket "a-1" "t-1").
Proof. reflexivity. Qed.

Lemma reject_decides_witness :
  exists d' s, reject_pending_approval sample_store sample_env "a-1" (Some "eve") (Some sample_file) = (d', Ok s)
  /\ ap_status (sum_approval_ticket s) = ApprovalRejected.
Proof.
  destruct (reject_decides sample_store sample_env "a-1" (Some "eve") (Some sample_file) sample_file
    (a_ticket "a-1" "t-1") (a_run "t-1" "s-new" "2026-01-02") sample_calm sample_writable sample_holds
    sample_file_keyed sample_ticket eq_refl eq_refl eq_refl eq_refl)
    as (d' & f' & s & E & _ & Hs & _).
  exists d', s. split; [exact E|]. rewrite Hs. reflexivity.
Defined.

(** * Replay *)

Definition sample_tracking : TaskRuntimeTracking :=
  {| tk_session_id := "s-new"; tk_step_id := "t-7:s1"; tk_started_at := "1700000000" |}.

Definition sample_event : EventRecord :=
  build_task_event_record "ev-1" 1700000000 asked "t-7:s1" "task.completed" SeverityInfo JNull.

Definition sample_response : TaskResponse :=
  completed_with_context "0123456789abcdef" asked "middleware_api" High " done " (JBool true)
    [{| ta_kind := "text"; ta_artifact_id := None; ta_label := "log"; ta_mime_type := "text/plain";
        ta_media_asset_id := None; ta_path := None; ta_url := None; ta_metadata := JNull |}]
    [serialize_event_record sample_event] ["status"; " "].

Lemma sample_events (e : Env (Text := TaskConversationFile)) r :
  build_event_records e r "t-7:s1" (en_events (rs_result sample_response))
  = [event_record (clock e 0) r "t-7:s1" sample_event].
Proof. reflexivity. Qed.

Lemma sample_own_events (e : Env (Text := TaskConversationFile)) r : rq_task_id r = "t-7" ->
  own_events r sample_tracking
    (build_event_records e r "t-7:s1" (en_events (rs_result sample_response))).
Proof.
  intros Hr. rewrite sample_events. split; [apply NoDup_singleton|].
  repeat constructor. cbn. by rewrite Hr.
Qed.

Lemma replay_roundtrip_witness :
  exists d', forall e', calm e' -> exists x,
    accept_or_replay_task sample_store e' asked d' = Ok (Replay x) /\ en_message (rs_result x) = "done".
Proof.
  destruct (replay_roundtrip sample_store sample_env asked sample_response sample_tracking
    (Some sample_file) sample_file sample_calm sample_writable sample_holds sample_file_keyed
    eq_refl eq_refl eq_refl (sample_own_events _ asked eq_refl)) as (d' & _ & H).
  exists d'. intros e' He'. eexists. split; [exact (proj1 (H e' He'))|]. reflexivity.
Defined.

(** The run of the request that asked, and the ticket it waited for. *)
Definition asked_run : TaskRun :=
  tracked_run asked sample_tracking RunNeedsInput High None None.

Lemma approved_request_conflicts_witness :
  exists d', forall e', calm e' -> exists m,
    accept_or_replay_task sample_store e' asked d' = Ok (Conflict m).
Proof.
  destruct (approved_request_conflicts sample_store sample_env (a_ticket "uuid-0" "t-7") asked_run None
    (Some "eve") sample_response sample_tracking (Some sample_file) sample_file asked
    sample_calm sample_writable sample_holds sample_file_keyed eq_refl eq_refl
    ltac:(repeat constructor) ltac:(constructor) eq_refl eq_refl eq_refl eq_refl eq_refl
    (sample_own_events _ (build_approval_resume_request (a_ticket "uuid-0" "t-7") asked_run None
      (Some "eve")) eq_refl)) as (d' & _ & H).
  exists d'. intros e' He'. eexists. exact (H e' He').
Defined.

Definition length_sha : Sha256 :=
  {| sha256 s := Z.of_nat (str_len s) :: repeat 0%Z 31; sha256_length s := eq_refl |}.

Definition flat_hmac : HmacSha256 :=
  {| hmac _ _ := "0123456789abcdef0123456789abcdef"; hmac_length _ _ := eq_refl |}.

(** * Hexadecimal text *)

Definition hex_char (n : N) : ascii := ascii_of_N (if (n <? 10)%N then 48 + n else 87 + n).
Definition hex_value (c : ascii) : N := if byte_in 48 57 c then byte c - 48 else byte c - 87.

Fixpoint hex_encode (s : string) : string :=
  match s with
  | EmptyString => EmptyString
  | String c r => String (hex_char (byte c / 16)) (String (hex_char (byte c mod 16)) (hex_encode r))
  end.

Fixpoint hex_decode (s : string) : result string string :=
  match s with
  | EmptyString => Ok EmptyString
  | String h (String l r) => String (ascii_of_N (hex_value h * 16 + hex_value l)) <$> hex_decode r
  | _ => Err "odd"
  end.

Lemma hex_char_spec n : (n < 16)%N -> hex_value (hex_char n) = n /\ url_safe (hex_char n) = true.
Proof.
  intros Hn. assert (n ∈ [0;1;2;3;4;5;6;7;8;9;10;11;12;13;14;15]%N) as Hi.
  { rewrite !elem_of_cons, elem_of_nil. lia. }
  repeat (apply elem_of_cons in Hi as [->|Hi]; [by vm_compute|]). by apply not_elem_of_nil in Hi.
Qed.

Lemma nibbles c : (byte c / 16 < 16)%N /\ (byte c mod 16 < 16)%N.
Proof.
  pose proof (byte_lt c). split; [apply N.Div0.div_lt_upper_bound; lia|apply N.mod_lt; lia].
Qed.

Lemma hex_decode_encode s : hex_decode (hex_encode s) = Ok s.
Proof.
  induction s as [|c s IH]; [done|]. destruct (nibbles c) as [[Hh _]%hex_char_spec [Hl _]%hex_char_spec].
  cbn [hex_encode hex_decode]. rewrite Hh, Hl, IH. cbn.
  replace (byte c / 16 * 16 + byte c mod 16)%N with (byte c) by (rewrite (N.div_mod (byte c) 16) at 1; lia).
  by rewrite ascii_N_embedding.
Qed.

Lemma hex_encode_safe s : str_forall url_safe (hex_encode s) = true.
Proof.
  induction s as [|c s IH]; [done|]. destruct (nibbles c) as [[_ Hh]%hex_char_spec [_ Hl]%hex_char_spec].
  cbn [hex_encode str_forall]. by rewrite Hh, Hl.
Qed.

Lemma hex_encode_empty s : hex_encode s = "" -> s = "".
Proof. by destruct s. Qed.

Definition hex_text : Base64Url :=
  {| b64_encode := hex_encode; b64_decode := hex_decode; b64_decode_encode := hex_decode_encode;
     b64_encode_safe := hex_encode_safe; b64_encode_empty := hex_encode_empty |}.

(** * Claims *)

(** Claims of version 1 for a live camera that expire at a time of the clock: the
    expiry, a semicolon, the device. *)
Definition claims_to_vec (c : CameraShareClaims) : result string string :=
  if (v c =? 1)%Z && (kind c =? "camera_live") && (0 <=? exp c)%Z && (exp c <=? u64_max)%Z
  then Ok (show_Z (exp c) +:+ String ";" (device_id c)) else Err "not a live camera".

Definition claims_from_slice (s : string) : result string CameraShareClaims :=
  match split_once ";" s with
  | None => Err "no expiry"
  | Some (n, device) =>
      match parse_uint u64_max n with
      | None => Err "no expiry"
      | Some z => Ok {| v := 1; kind := "camera_live"; device_id := device; exp := z |}
      end
  end.

Lemma digit_not_semicolon a : is_ascii_digit a = true -> negb (Ascii.eqb a ";") = true.
Proof. destruct (Ascii.eqb_spec a ";") as [->|]; [by cbn|done]. Qed.

Lemma claims_roundtrip c s : claims_to_vec c = Ok s -> claims_from_slice s = Ok c.
Proof.
  unfold claims_to_vec, claims_from_slice. destruct c as [version k device expires]. cbn.
  destruct (Z.eqb_spec version 1) as [->|]; [|done]. destruct (String.eqb_spec k "camera_live") as [->|]; [|done].
  destruct (Z.leb_spec 0 expires); [|done]. destruct (Z.leb_spec expires u64_max); [|done].
  cbn [andb]. intros [= <-]. rewrite split_once_app, parse_show_Z by done || by
    (eapply str_forall_impl; [apply digit_not_semicolon|by apply show_Z_digits]). done.
Qed.

Definition sample_claims : ClaimsCodec :=
  {| to_vec := claims_to_vec; from_slice := claims_from_slice;
     from_slice_to_vec := claims_roundtrip; from_slice_empty c := ltac:(done) |}.

#[local] Existing Instance length_sha.
#[local] Existing Instance flat_hmac.
#[local] Existing Instance hex_text.
#[local] Existing Instance sample_claims.

(** * Witnesses *)

Definition sample_config : RemoteViewConfig := {| share_secret := "s3cret"; share_link_ttl_minutes := 30 |}.

Definition sample_camera : ResolvedCameraTarget :=
  {| ct_device_id := "cam-1"; ct_display_name := "Door"; ct_status := DeviceOnline; ct_room_name := None;
     ct_vendor := None; ct_model := None; ct_ip_address := None; ct_mac_address := None;
     ct_discovery_source := "manual";
     ct_primary_stream := {| cs_transport := TransportRtsp; cs_url := "rtsp://10.0.0.2/live"; cs_requires_auth := true |};
     ct_snapshot_url := None; ct_onvif_device_service_url := None; ct_ezviz_device_serial := None;
     ct_ezviz_camera_no := None;
     ct_capabilities := {| cap_snapshot := true; cap_stream := true; cap_ptz := false; cap_audio := false |};
     ct_last_seen_at := None |}.

Definition sample_issued : IssuedCameraShareToken :=
  match issue_camera_share_token 1700000002 "s3cret" "cam-1" 30 with
  | Ok x => x
  | Err _ => {| token := ""; expires_at_unix_secs := 0; ttl_minutes := 0 |}
  end.

Lemma sample_issues : issue_camera_share_token 1700000002 "s3cret" "cam-1" 30 = Ok sample_issued.
Proof. vm_compute. reflexivity. Qed.

Lemma token_roundtrip_witness :
  exists c, verify_camera_share_token 1700001802 "s3cret" (token sample_issued) = Ok c /\ device_id c = "cam-1".
Proof.
  destruct (token_roundtrip 1700000002 "s3cret" "cam-1" 30 sample_issued sample_issues)
    as (_ & _ & _ & _ & Hl).
  destruct (Hl 1700001802%Z) as [Hv _]. apply Hv. vm_compute. discriminate.
Defined.

Definition share_request : TaskRequest :=
  {| rq_task_id := "t-8"; rq_trace_id := "tr-8"; rq_step_id := ""; rq_source := rq_source asked;
     rq_intent := {| int_domain := "camera"; int_action := "share_link"; int_raw_text := "share it" |};
     rq_entity_refs := JNull; rq_args := JObj [("approval_token", JStr "any")];
     rq_autonomy_level := "supervised"; rq_message := None |}.

Lemma share_unasked : first_pending sample_file "t-8" = None.
Proof. vm_compute. reflexivity. Qed.

Lemma share_allowed : allowed share_request (share_action share_request sample_camera)
  (first_pending sample_file (rq_task_id share_request)).
Proof.
  change (rq_task_id share_request) with "t-8". rewrite share_unasked. split; [split|].
  - intros Hn. vm_compute in Hn. discriminate.
  - by split.
  - done.
  - intros _. exists "any". split; [reflexivity|]. by intros p [=].
Qed.

Lemma share_link_life_witness :
  exists d1 resp, handle_camera_share_link sample_store (fun _ _ => Ok sample_camera) (fun _ => Ok sample_config)
      sample_env share_request tt (Some sample_file) = (tt, d1, resp)
  /\ rs_status resp = Completed
  /\ exists d2 lm, revoke_shared_link sample_store sample_env "share-link-uuid-3" d1 = (d2, Ok lm)
     /\ verify_shared_camera_token sample_store sample_env sample_config (token sample_issued) d2
        = Err "share token revoked".
Proof.
  destruct (share_link_life sample_store (fun _ _ => Ok sample_camera) (fun _ => Ok sample_config)
    sample_env share_request tt (Some sample_file) sample_file sample_camera sample_config sample_issued ""
    sample_calm sample_writable sample_holds sample_file_keyed eq_refl eq_refl share_allowed
    sample_issues ltac:(vm_compute; discriminate)) as (d1 & resp & url & Hr & Hs & _ & _ & _ & _ & Hrev).
  - intros k l Hl. vm_compute in Hl. discriminate.
  - exists d1, resp. split; [exact Hr|]. split; [exact Hs|].
    destruct (Hrev sample_env sample_calm ltac:(vm_compute; discriminate)) as (d2 & l & m & Hd2 & _ & Hv).
    exists d2, (l, m). split; [exact Hd2|]. exact (Hv sample_env sample_calm).
Defined.
