(* ===== verification/StringSearch.v ===== *)
(** Lemmas on searching in strings: where an occurrence can lie, what replacing
    leaves, and splitting into lines. *)
From Stdlib Require Import Ascii.
From S2P Require Import Prelude RustString.
Local Open Scope string_scope.
Local Open Scope list_scope.

(** * Occurrences *)

Definition lacks (c : ascii) (s : string) : bool := str_forall (fun a => negb (Ascii.eqb a c)) s.

Lemma str_len_app s t : str_len (s +:+ t) = (str_len s + str_len t)%nat.
Proof. unfold str_len. induction s as [|a s IH]; cbn; [done|]. by rewrite IH. Qed.

Lemma str_contains_false p s : str_contains p s = false <-> ~ exists l r, s = l +:+ p +:+ r.
Proof. rewrite <- str_contains_spec. by destruct (str_contains p s). Qed.

Lemma str_contains_nil p : p <> "" -> str_contains p "" = false.
Proof. by destruct p. Qed.

(** A prefix that lacks [c] ends before it. *)
Lemma starts_with_stop c p a b :
  lacks c p = true -> starts_with p (a +:+ String c b) = starts_with p a.
Proof.
  revert a. induction p as [|x p IH]; intros a Hp; [by destruct a|]. unfold lacks in Hp. cbn in Hp.
  apply andb_true_iff in Hp as [Hx Hp]. destruct a as [|y a]; cbn [String.append].
  - rewrite starts_with_cons. destruct (ascii_dec x c) as [->|]; [|done]. by rewrite Ascii.eqb_refl in Hx.
  - rewrite !starts_with_cons. destruct (ascii_dec x y); [by apply IH|done].
Qed.

Lemma str_contains_stop c p a b :
  lacks c p = true -> p <> "" -> str_contains p (a +:+ String c b) = str_contains p a || str_contains p b.
Proof.
  intros Hp Hne. induction a as [|x a IH].
  - cbn [String.append]. rewrite (str_contains_nil p Hne), orb_false_l, str_contains_cons.
    pose proof (starts_with_stop c p "" b Hp) as Hs. cbn [String.append] in Hs. rewrite Hs. by destruct p.
  - cbn [String.append]. rewrite !str_contains_cons, IH.
    change (String x (a +:+ String c b)) with (String x a +:+ String c b).
    by rewrite (starts_with_stop c p (String x a) b Hp), orb_assoc.
Qed.

Lemma str_contains_app_r p s t : str_contains p t = true -> str_contains p (s +:+ t) = true.
Proof.
  rewrite !str_contains_spec. intros (l & r & ->). exists (s +:+ l), r. by rewrite str_app_assoc.
Qed.

(** * Replacing *)

Section replace.
Context (needle new : string) (Hne : needle <> "").

Lemma needle_length : (0 < str_len needle)%nat.
Proof. destruct needle; [done|]. unfold str_len. cbn. lia. Qed.

Lemma replace_skip k s t : str_len s = k -> replace_from needle new k (s +:+ t) = str_replace needle new t.
Proof. revert k. induction s as [|a s IH]; intros k <-; [done|]. by apply IH. Qed.

(** The first match, what is before it, and the rest. *)
Lemma replace_first s :
  (str_contains needle s = false /\ str_replace needle new s = s)
  \/ exists p rest, s = p +:+ needle +:+ rest /\ str_contains needle p = false
       /\ str_replace needle new s = p +:+ new +:+ str_replace needle new rest.
Proof.
  unfold str_replace. induction s as [|a s IH]; [left; split; [by apply str_contains_nil|done]|].
  destruct (starts_with needle (String a s)) eqn:Hs.
  - right. pose proof Hs as Hs'. apply starts_with_spec in Hs as (rest & Hr). exists "", rest.
    split; [done|]. split; [by apply str_contains_nil|]. cbn [replace_from]. rewrite Hs'.
    assert (exists x n, needle = String x n) as (x & n & Hn) by (destruct needle; [done|eauto]).
    assert (s = n +:+ rest) as -> by (rewrite Hn in Hr; by injection Hr).
    cbn [String.append]. f_equal. apply replace_skip. rewrite Hn. unfold str_len. cbn. lia.
  - cbn [replace_from]. rewrite Hs. destruct IH as [[Hc ->]|(p & rest & -> & Hp & ->)].
    + left. by rewrite str_contains_cons, Hs.
    + right. exists (String a p), rest. split; [done|]. split; [|done].
      rewrite str_contains_cons, Hp, orb_false_r. apply not_true_iff_false. intros Hst.
      apply not_true_iff_false in Hs. apply Hs. by apply (starts_with_app_l _ (String a p)).
Qed.

(** Replacing by a bracketed word removes the needle, and brings in no other text
    without brackets that the word does not contain. *)
Lemma replace_removes word s :
  new = String "[" (word +:+ "]") -> lacks "[" needle = true -> lacks "]" needle = true ->
  str_contains needle word = false -> str_contains needle (str_replace needle new s) = false.
Proof.
  intros Hw Hl Hr Hword. induction s as [s IH] using string_length_ind.
  destruct (replace_first s) as [[Hc ->]|(p & rest & -> & Hp & ->)]; [done|].
  rewrite Hw. change (String "[" (word +:+ "]") +:+ str_replace needle (String "[" (word +:+ "]")) rest)
    with (String "[" ((word +:+ "]") +:+ str_replace needle (String "[" (word +:+ "]")) rest)).
  rewrite str_contains_stop, Hp, str_app_assoc by done. cbn [String.append].
  rewrite str_contains_stop, Hword by done. cbn [orb]. rewrite <- Hw. apply IH.
  rewrite !str_len_app. pose proof needle_length. unfold str_len in *. lia.
Qed.

Lemma replace_keeps word m s :
  new = String "[" (word +:+ "]") -> m <> "" -> lacks "[" m = true -> lacks "]" m = true ->
  str_contains m word = false -> str_contains m s = false -> str_contains m (str_replace needle new s) = false.
Proof.
  intros Hw Hm Hl Hr Hword. induction s as [s IH] using string_length_ind. intros Hs.
  destruct (replace_first s) as [[Hc ->]|(p & rest & -> & Hp & ->)]; [done|].
  rewrite Hw. change (String "[" (word +:+ "]") +:+ str_replace needle (String "[" (word +:+ "]")) rest)
    with (String "[" ((word +:+ "]") +:+ str_replace needle (String "[" (word +:+ "]")) rest)).
  rewrite str_contains_stop, str_app_assoc by done. cbn [String.append].
  rewrite str_contains_stop, Hword by done. cbn [orb]. rewrite <- Hw.
  assert (str_contains m p = false) as ->.
  { apply not_true_iff_false. intros Hp'. apply not_true_iff_false in Hs. apply Hs. by apply str_contains_app_l. }
  apply IH.
  - rewrite !str_len_app. pose proof needle_length. unfold str_len in *. lia.
  - apply not_true_iff_false. intros Hr'. apply not_true_iff_false in Hs. apply Hs.
    apply str_contains_app_r. by apply str_contains_app_r.
Qed.
End replace.

(** * Lines *)

Lemma split_char_not_nil c s : split_char c s <> [].
Proof. destruct s as [|a s]; cbn; [done|]. destruct (Ascii.eqb a c); [done|]. by destruct (split_char c s). Qed.

Lemma split_char_app c a b : split_char c (a +:+ String c b) = split_char c a ++ split_char c b.
Proof.
  induction a as [|x a IH]; cbn [String.append split_char]; [by rewrite Ascii.eqb_refl|].
  destruct (Ascii.eqb x c); [by rewrite IH|]. rewrite IH.
  pose proof (split_char_not_nil c a). by destruct (split_char c a).
Qed.

Lemma split_once_inv c s p r : split_once c s = Some (p, r) -> s = p +:+ String c r /\ lacks c p = true.
Proof.
  revert p. induction s as [|a s IH]; intros p; [done|]. cbn [split_once].
  destruct (Ascii.eqb_spec a c) as [->|Hne]; [by intros [= <- <-]|].
  destruct (split_once c s) as [[p' r']|]; [|done]. intros [= <- <-]. destruct (IH p' eq_refl) as [-> Hp].
  split; [done|]. unfold lacks. cbn. rewrite (proj2 (Ascii.eqb_neq a c) Hne). exact Hp.
Qed.

(** The first [c] is at or before any other. *)
Lemma split_once_before c u y p r :
  split_once c (u +:+ String c y) = Some (p, r) -> r = y \/ exists v, r = v +:+ String c y.
Proof.
  revert p. induction u as [|a u IH]; intros p; cbn [String.append split_once].
  { rewrite Ascii.eqb_refl. intros [= _ <-]. by left. }
  destruct (Ascii.eqb a c); [intros [= _ <-]; right; by exists u|].
  destruct (split_once c (u +:+ String c y)) as [[p' r']|] eqn:Hs; [|done]. intros [= _ <-]. by eapply IH.
Qed.

Lemma str_drop_app s t : str_drop (str_len s) (s +:+ t) = t.
Proof. by induction s. Qed.

Lemma str_drop_suffix n s : exists p, s = p +:+ str_drop n s.
Proof.
  revert s. induction n as [|n IH]; intros s; [by exists ""|]. destruct s as [|a s]; [by exists ""|].
  destruct (IH s) as [p Hp]. exists (String a p). cbn. by rewrite <- Hp.
Qed.

Lemma str_len_drop n s : str_len (str_drop n s) = (str_len s - n)%nat.
Proof. unfold str_len. revert s. induction n as [|n IH]; intros [|a s]; cbn; [done..|]. by rewrite IH. Qed.

Lemma str_drop_drop m n s : str_drop m (str_drop n s) = str_drop (n + m) s.
Proof. revert s. induction n as [|n IH]; intros s; [done|]. destruct s; [by destruct m|]. apply IH. Qed.

(** The lines of a text that ends each of them. *)
Fixpoint unlines (lines : list string) : string :=
  match lines with [] => "" | line :: lines => line +:+ String "010" (unlines lines) end.

Lemma split_char_none c s : lacks c s = true -> split_char c s = [s].
Proof.
  induction s as [|a s IH]; [done|]. unfold lacks. cbn. intros [Ha Hs]%andb_true_iff. apply negb_true_iff in Ha.
  rewrite Ha. by rewrite (IH Hs).
Qed.

Lemma split_unlines lines :
  Forall (fun line => lacks "010" line = true) lines -> split_char "010" (unlines lines) = lines ++ [""].
Proof.
  induction 1 as [|line lines Hl _ IH]; [done|]. cbn [unlines]. by rewrite split_char_app, split_char_none, IH.
Qed.

Lemma unlines_snoc lines line : unlines (lines ++ [line]) = unlines lines +:+ line +:+ String "010" "".
Proof. induction lines as [|x lines IH]; [done|]. cbn [unlines app]. by rewrite IH, str_app_assoc. Qed.

(** * Parts of a text *)

Lemma str_contains_lower p s :
  str_contains p s = true -> str_contains (to_ascii_lowercase p) (to_ascii_lowercase s) = true.
Proof.
  rewrite !str_contains_spec. intros (l & r & ->). unfold to_ascii_lowercase. rewrite !str_map_app. eauto.
Qed.

Lemma replace_absent needle new s : needle <> "" -> str_contains needle s = false -> str_replace needle new s = s.
Proof.
  intros Hne Hc. destruct (replace_first needle new Hne s) as [[_ Hr]|(p & rest & -> & _)]; [done|].
  exfalso. apply not_true_iff_false in Hc. apply Hc, str_contains_spec. eauto.
Qed.

Lemma trim_start_suffix s : exists w, s = w +:+ trim_start s.
Proof.
  induction s as [s IH] using string_length_ind. rewrite trim_start_eq.
  destruct (ws_strip s) as [r|] eqn:E; [|by exists ""].
  destruct (IH r) as [w Hw]; [by apply ws_strip_length|]. apply ws_strip_suffix in E as [v ->]. exists (v +:+ w).
  by rewrite str_app_assoc, <- Hw.
Qed.

Lemma trim_part s : exists a b, s = a +:+ trim s +:+ b.
Proof.
  destruct (trim_start_suffix s) as [a Ha]. destruct (trim_end_prefix (trim_start s)) as [b Hb].
  exists a, b. unfold trim. by rewrite <- Hb.
Qed.

Lemma str_contains_trim p s : str_contains p (trim s) = true -> str_contains p s = true.
Proof.
  intros Hc. destruct (trim_part s) as (a & b & Hs). rewrite Hs. by apply str_contains_app_r, str_contains_app_l.
Qed.

Lemma chars_count_app s t : chars_count (s +:+ t) = (chars_count s + chars_count t)%nat.
Proof. induction s as [|a s IH]; cbn; [done|]. rewrite IH. lia. Qed.

Lemma chars_count_trim s : (chars_count (trim s) <= chars_count s)%nat.
Proof. destruct (trim_part s) as (a & b & Hs). rewrite Hs at 2. rewrite !chars_count_app. lia. Qed.
