(* ===== verification/Notifications.v ===== *)
(** Outbound notifications, [src/connectors/notifications.rs]: the request and its
    JSON, where it is posted, and what the answer means. The post is a call of
    another service, and reading its answer is [serde_json]'s: the class
    [NotificationGateway]. *)
From Stdlib Require Import Ascii.
From S2P Require Import Prelude RustString Json ServiceAuth.
Local Open Scope string_scope.
Local Open Scope list_scope.

Inductive NotificationPayloadFormat := PlainText | Markdown | LarkCard | PayloadJson.
Inductive NotificationAttachmentKind := AttachImage | AttachVideo | AttachLink | AttachJson.
Inductive NotificationDestinationKind := DestConversation | DestRecipient | LocalUi.
Inductive NotificationDeliveryMode := ModeSend | ModeReply | ModeUpdate.
Inductive NotificationRecipientIdType := ChatId | OpenId | Email.

Record NotificationRecipient := {
  rcp_recipient_id : string;
  rcp_recipient_type : NotificationRecipientIdType
}.

Record NotificationAttachment := {
  at_kind : NotificationAttachmentKind;
  at_label : string;
  at_artifact_id : option string;
  at_mime_type : string;
  at_path : option string;
  at_url : option string;
  at_metadata : jv
}.

Record NotificationSource := {
  ns_service : string;
  ns_module : string;
  ns_event_type : string
}.

Record NotificationDestination := {
  nd_kind : NotificationDestinationKind;
  nd_route_key : string;
  nd_id : string;
  nd_platform : string;
  nd_recipient : option NotificationRecipient
}.

Record NotificationContent := {
  nc_title : string;
  nc_body : string;
  nc_payload_format : NotificationPayloadFormat;
  nc_structured_payload : jv;
  nc_attachments : list NotificationAttachment;
  nc_delivery_hints : list jv
}.

Record NotificationDelivery := {
  nv_mode : NotificationDeliveryMode;
  nv_reply_to_message_id : string;
  nv_update_message_id : string;
  nv_idempotency_key : string
}.

Record NotificationMetadata := { nm_correlation_id : string }.

Record NotificationRequest := {
  nr_notification_id : string;
  nr_trace_id : string;
  nr_source : NotificationSource;
  nr_destination : NotificationDestination;
  nr_content : NotificationContent;
  nr_delivery : NotificationDelivery;
  nr_metadata : NotificationMetadata
}.

(** * [serde_json::to_value] *)

Definition payload_format_value (x : NotificationPayloadFormat) : jv :=
  JStr match x with PlainText => "plain_text" | Markdown => "markdown" | LarkCard => "lark_card"
                  | PayloadJson => "json" end.
Definition attachment_kind_value (x : NotificationAttachmentKind) : jv :=
  JStr match x with AttachImage => "image" | AttachVideo => "video" | AttachLink => "link"
                  | AttachJson => "json" end.
Definition destination_kind_value (x : NotificationDestinationKind) : jv :=
  JStr match x with DestConversation => "conversation" | DestRecipient => "recipient" | LocalUi => "local_ui" end.
Definition delivery_mode_value (x : NotificationDeliveryMode) : jv :=
  JStr match x with ModeSend => "send" | ModeReply => "reply" | ModeUpdate => "update" end.
Definition recipient_type_value (x : NotificationRecipientIdType) : jv :=
  JStr match x with ChatId => "chat_id" | OpenId => "open_id" | Email => "email" end.

Definition recipient_value (x : NotificationRecipient) : jv :=
  json_object [("recipient_id", JStr (rcp_recipient_id x));
               ("recipient_type", recipient_type_value (rcp_recipient_type x))].

Definition attachment_value (x : NotificationAttachment) : jv :=
  json_object ([("kind", attachment_kind_value (at_kind x)); ("label", JStr (at_label x))]
               ++ match at_artifact_id x with Some s => [("artifact_id", JStr s)] | None => [] end
               ++ [("mime_type", JStr (at_mime_type x)); ("path", json_option JStr (at_path x));
                   ("url", json_option JStr (at_url x)); ("metadata", at_metadata x)]).

Definition content_value (x : NotificationContent) : jv :=
  json_object ([("title", JStr (nc_title x)); ("body", JStr (nc_body x));
                ("payload_format", payload_format_value (nc_payload_format x));
                ("structured_payload", nc_structured_payload x);
                ("attachments", JArr (attachment_value <$> nc_attachments x))]
               ++ match nc_delivery_hints x with [] => [] | hints => [("delivery_hints", JArr hints)] end).

Definition notification_request_value (x : NotificationRequest) : jv :=
  let source := nr_source x in
  let destination := nr_destination x in
  let delivery := nr_delivery x in
  json_object
    [("notification_id", JStr (nr_notification_id x)); ("trace_id", JStr (nr_trace_id x));
     ("source", json_object [("service", JStr (ns_service source)); ("module", JStr (ns_module source));
                             ("event_type", JStr (ns_event_type source))]);
     ("destination", json_object [("kind", destination_kind_value (nd_kind destination));
                                  ("route_key", JStr (nd_route_key destination)); ("id", JStr (nd_id destination));
                                  ("platform", JStr (nd_platform destination));
                                  ("recipient", json_option recipient_value (nd_recipient destination))]);
     ("content", content_value (nr_content x));
     ("delivery", json_object [("mode", delivery_mode_value (nv_mode delivery));
                               ("reply_to_message_id", JStr (nv_reply_to_message_id delivery));
                               ("update_message_id", JStr (nv_update_message_id delivery));
                               ("idempotency_key", JStr (nv_idempotency_key delivery))]);
     ("metadata", json_object [("correlation_id", JStr (nm_correlation_id (nr_metadata x)))])].

(** * Delivery *)

Inductive NotificationDeliveryStatus := DeliverySent | DeliveryFailed | DeliverySkipped.

Record NotificationErrorDetail := {
  ne_code : string;
  ne_message : string
}.

Record NotificationDeliveryRecord := {
  dr_delivery_id : string;
  dr_notification_id : string;
  dr_trace_id : string;
  dr_ok : bool;
  dr_status : NotificationDeliveryStatus;
  dr_platform : string;
  dr_provider_message_id : option string;
  dr_retryable : bool;
  dr_error : option NotificationErrorDetail
}.

Record SharedHttpErrorDetail := {
  se_code : string;
  se_message : string
}.

Record SharedHttpErrorEnvelope := {
  sh_ok : bool;
  sh_error : SharedHttpErrorDetail;
  sh_trace_id : option string
}.

Inductive NotificationDeliveryError :=
| MissingConfiguration (message : string)
| Transport (message : string)
| InvalidResponse (message : string)
| RequestRejected (status_code : Z) (envelope : SharedHttpErrorEnvelope).

Record NotificationGatewayConfig := {
  base_url : string;
  bearer_token : string
}.

(** The gateway: the client it is reached with, a post of a request with its bearer
    token (no connection, a body that cannot be read, or a status and a body), and
    the bodies as values. *)
Class NotificationGateway (W : Type) := {
  build_client : W -> result string unit;
  post : string -> string -> NotificationRequest -> W -> W * result string (Z * result string string);
  record_from_str : string -> result string NotificationDeliveryRecord;
  envelope_from_str : string -> result string SharedHttpErrorEnvelope
}.

Definition IM_GATEWAY_BASE_URL_ENV : string := "HARBORGATE_BASE_URL".
Definition LEGACY_IM_GATEWAY_BASE_URL_ENV : string := "HARBOR_IM_GATEWAY_BASE_URL".
Definition DEFAULT_LOCAL_IM_GATEWAY_BASE_URL : string := "http://127.0.0.1:8787".

Definition env_var_with_legacy_alias (h : Host) (primary legacy : string) : option string :=
  match env_var h primary ≫= non_blank with
  | Some value => Some value
  | None => env_var h legacy ≫= non_blank
  end.

Definition gateway_config_new (base_url bearer_token : string) : result string NotificationGatewayConfig :=
  let base_url := trim base_url in
  if is_empty base_url then Err "HarborGate base URL cannot be empty" else
  let bearer_token := trim bearer_token in
  if is_empty bearer_token then Err "HarborGate bearer token cannot be empty" else
  Ok {| base_url := base_url; bearer_token := bearer_token |}.

Definition gateway_config_from_env (h : Host) : result string NotificationGatewayConfig :=
  let base_url := default DEFAULT_LOCAL_IM_GATEWAY_BASE_URL
                    (env_var_with_legacy_alias h IM_GATEWAY_BASE_URL_ENV LEGACY_IM_GATEWAY_BASE_URL_ENV) in
  match beacon_to_gate_sender_token h with
  | Err error => Err error
  | Ok bearer_token => gateway_config_new base_url bearer_token
  end.

Definition notification_endpoint (base_url : string) : string :=
  let trimmed := trim_end_matches (Ascii.eqb "/") (trim base_url) in
  if ends_with "/api/notifications/deliveries" trimmed then trimmed
  else trimmed +:+ "/api/notifications/deliveries".

Section gateway.
Context {W : Type} `{!NotificationGateway W}.

(** [NotificationDeliveryService::new] *)
Definition delivery_service (h : Host) (w : W) : result string NotificationGatewayConfig :=
  match gateway_config_from_env h with
  | Err error => Err ("notification delivery configuration error: " +:+ error)
  | Ok config =>
      match build_client w with
      | Err error => Err ("failed to build notification delivery client: " +:+ error)
      | Ok _ => Ok config
      end
  end.

(** [uuid] is drawn for a local delivery. *)
Definition deliver (config : NotificationGatewayConfig) (uuid : string) (r : NotificationRequest) (w : W)
  : W * result NotificationDeliveryError NotificationDeliveryRecord :=
  match nd_kind (nr_destination r) with
  | LocalUi =>
      (w, Ok {| dr_delivery_id := "delivery_" +:+ uuid; dr_notification_id := nr_notification_id r;
                dr_trace_id := nr_trace_id r; dr_ok := true; dr_status := DeliverySent;
                dr_platform := "local_ui"; dr_provider_message_id := None; dr_retryable := false;
                dr_error := None |})
  | _ =>
      match post (notification_endpoint (base_url config)) (bearer_token config) r w with
      | (w, Err error) => (w, Err (Transport ("notification delivery request failed: " +:+ error)))
      | (w, Ok (_, Err error)) =>
          (w, Err (InvalidResponse ("failed to read notification delivery response: " +:+ error)))
      | (w, Ok (status_code, Ok body)) =>
          (w, if ((200 <=? status_code) && (status_code <? 300))%Z then
                map_err (fun error => InvalidResponse ("invalid notification delivery response body: " +:+ error))
                  (record_from_str body)
              else match envelope_from_str body with
                   | Ok envelope => Err (RequestRejected status_code envelope)
                   | Err error =>
                       Err (InvalidResponse ("notification delivery rejected with HTTP " +:+ show_Z status_code
                              +:+ ", but body was not a shared error envelope: " +:+ error))
                   end)
      end
  end.
End gateway.
