(* ===== verification/VisionEvents.v ===== *)
(** Events of the cameras' local vision, [src/runtime/vision_event.rs]: which are
    accepted, and what is made of one for people and for other services. A [f32] is
    a [spec_float]; text measured in bytes of JSON is an interface. *)
From Stdlib Require Import Ascii.
From S2P Require Import Prelude RustString Json Notifications.
Local Open Scope string_scope.
Local Open Scope list_scope.
Local Open Scope rust_scope.

(** * Constants *)

Definition MAX_LOCAL_VISION_EVENT_JSON_BYTES : Z := 256 * 1024.
Definition MAX_LOCAL_VISION_TEXT_CHARS : Z := 2000.
Definition MAX_LOCAL_VISION_MODEL_TEXT_CHARS : Z := 4000.
Definition MAX_LOCAL_VISION_LABELS : nat := 32.
Definition MAX_LOCAL_VISION_ARTIFACTS : nat := 8.
Definition MAX_LOCAL_VISION_METRICS_BYTES : Z := 64 * 1024.

(** * Data *)

Record SnapshotArtifact := {
  sa_artifact_id : option string;
  sa_path : option string;
  sa_mime_type : option string;
  sa_byte_size : option Z;
  sa_sha256 : option string;
  sa_source : option string
}.

Record LocalVisionEventArtifact := {
  va_artifact_id : option string;
  va_role : string;
  va_mime_type : option string;
  va_byte_size : option Z;
  va_sha256 : option string;
  va_source : option string
}.

Record LocalVisionEventVlmSummary := {
  vlm_status : string;
  vlm_summary : string;
  vlm_tags : list string;
  vlm_labels : list string;
  vlm_derived_text : string;
  vlm_artifacts : list LocalVisionEventArtifact;
  vlm_ingest_metadata : jv;
  vlm_metrics : jv;
  vlm_error : option string
}.

Record LocalVisionEvent := {
  le_event_id : string;
  le_camera_id : string;
  le_event_type : string;
  le_confidence : spec_float;
  le_labels : list string;
  le_summary : string;
  le_snapshot_artifact : SnapshotArtifact;
  le_started_at : string;
  le_analyzer : string;
  le_latency_ms : Z;
  le_metrics : jv;
  le_vlm : option LocalVisionEventVlmSummary
}.

Record StoredLocalVisionEvent := {
  se_received_at : string;
  se_event : LocalVisionEvent;
  se_audit_record : jv;
  se_ha_mqtt_payload : jv
}.

Record LocalVisionDetection := {
  vd_label : string;
  vd_confidence : spec_float;
  vd_x1 : spec_float;
  vd_y1 : spec_float;
  vd_x2 : spec_float;
  vd_y2 : spec_float
}.

Record LocalVisionAnalyzerResult := {
  an_detections : list LocalVisionDetection;
  an_labels : list string;
  an_event_type : option string;
  an_confidence : option spec_float;
  an_analyzer : option string;
  an_provider : option string;
  an_latency_ms : option Z;
  an_command_latency_ms : option Z;
  an_preprocess_ms : option Z;
  an_inference_ms : option Z;
  an_postprocess_ms : option Z;
  an_model_sha256 : option string
}.

Record LocalVisionNotificationIntent := {
  li_notification_request : NotificationRequest;
  li_audit_record : jv
}.

Record LocalVisionHaMqttContract := {
  hc_payload : jv;
  hc_audit_record : jv
}.

Record FamilyEventSummary := {
  fs_event_id : string;
  fs_camera_id : string;
  fs_event_type : string;
  fs_title : string;
  fs_summary : string;
  fs_confidence : spec_float;
  fs_labels : list string;
  fs_source : string;
  fs_vlm_status : string;
  fs_created_at : string
}.

Record LocalVisionFamilySummary := {
  lf_summary : FamilyEventSummary;
  lf_audit_record : jv
}.

Record LocalSnapshotAnalysisInput := {
  sn_camera_id : string;
  sn_snapshot_path : string;
  sn_analyzer : option string;
  sn_latency_ms : option Z;
  sn_analyzer_result : option LocalVisionAnalyzerResult;
  sn_metrics : jv
}.

(** Of [src/runtime/model_center.rs]. *)
Record VlmSummaryExecution := {
  vx_available : bool;
  vx_status : string;
  vx_summary : string;
  vx_provider_key : string;
  vx_model_endpoint_id : option string;
  vx_text : string;
  vx_details : jv
}.

(** [serde_json::to_vec] of an event. *)
Class VisionText := { event_to_string : LocalVisionEvent -> result string string }.

(** * Numbers *)

Definition f32_zero : spec_float := S754_zero false.
Definition f32_one : spec_float := binary_normalize 24 128 1 0 false.
Definition f32_hundred : spec_float := binary_normalize 24 128 100 0 false.

(** The literal [n/100]. *)
Definition f32_percent (n : Z) : spec_float := SFdiv 24 128 (binary_normalize 24 128 n 0 false) f32_hundred.

(** [(0.0..=1.0).contains] *)
Definition in_unit_interval (x : spec_float) : bool := SFleb f32_zero x && SFleb x f32_one.

(** [f32::clamp(0.0, 1.0)] *)
Definition clamp_unit (x : spec_float) : spec_float :=
  let x := if SFltb x f32_zero then f32_zero else x in
  if SFltb f32_one x then f32_one else x.

Definition is_nan (x : spec_float) : bool := match x with S754_nan => true | _ => false end.

(** [f32::max] *)
Definition f32_max (x y : spec_float) : spec_float :=
  if is_nan x then y else if is_nan y then x else if SFltb x y then y else x.

(** [f32::round], half away from zero, and the conversion to [u32]. *)
Definition f32_round_as_u32 (x : spec_float) : Z :=
  match x with
  | S754_finite false m e =>
      Z.min u32_max (if (0 <=? e)%Z then Zpos m * 2 ^ e
                     else (2 * Zpos m + 2 ^ (- e)) / 2 ^ (1 - e))
  | S754_infinity false => u32_max
  | _ => 0%Z
  end.

(** A [f32] in JSON. *)
Definition json_f32 (x : spec_float) : jv :=
  match x with
  | S754_zero _ | S754_finite _ _ _ => JFloat (f32_as_f64 x)
  | _ => JNull
  end.

Definition json_strings (l : list string) : jv := JArr (JStr <$> l).

(** * JSON of the records *)

Definition snapshot_artifact_value (a : SnapshotArtifact) : jv :=
  json_object [("artifact_id", json_option JStr (sa_artifact_id a)); ("path", json_option JStr (sa_path a));
               ("mime_type", json_option JStr (sa_mime_type a));
               ("byte_size", json_option JNum (sa_byte_size a)); ("sha256", json_option JStr (sa_sha256 a));
               ("source", json_option JStr (sa_source a))].

Definition event_artifact_value (a : LocalVisionEventArtifact) : jv :=
  json_object [("artifact_id", json_option JStr (va_artifact_id a)); ("role", JStr (va_role a));
               ("mime_type", json_option JStr (va_mime_type a));
               ("byte_size", json_option JNum (va_byte_size a)); ("sha256", json_option JStr (va_sha256 a));
               ("source", json_option JStr (va_source a))].

Definition vlm_summary_value (v : LocalVisionEventVlmSummary) : jv :=
  json_object ([("status", JStr (vlm_status v)); ("summary", JStr (vlm_summary v));
                ("tags", json_strings (vlm_tags v)); ("labels", json_strings (vlm_labels v));
                ("derived_text", JStr (vlm_derived_text v));
                ("artifacts", JArr (event_artifact_value <$> vlm_artifacts v));
                ("ingest_metadata", vlm_ingest_metadata v); ("vlm_metrics", vlm_metrics v)]
               ++ match vlm_error v with Some error => [("error", JStr error)] | None => [] end).

Definition event_value (e : LocalVisionEvent) : jv :=
  json_object ([("event_id", JStr (le_event_id e)); ("camera_id", JStr (le_camera_id e));
                ("event_type", JStr (le_event_type e)); ("confidence", json_f32 (le_confidence e));
                ("labels", json_strings (le_labels e)); ("summary", JStr (le_summary e));
                ("snapshot_artifact", snapshot_artifact_value (le_snapshot_artifact e));
                ("started_at", JStr (le_started_at e)); ("analyzer", JStr (le_analyzer e));
                ("latency_ms", JNum (le_latency_ms e)); ("metrics", le_metrics e)]
               ++ match le_vlm e with Some v => [("vlm", vlm_summary_value v)] | None => [] end).

Definition detection_value (d : LocalVisionDetection) : jv :=
  json_object [("label", JStr (vd_label d)); ("confidence", json_f32 (vd_confidence d)); ("x1", json_f32 (vd_x1 d));
               ("y1", json_f32 (vd_y1 d)); ("x2", json_f32 (vd_x2 d)); ("y2", json_f32 (vd_y2 d))].

Definition family_summary_value (s : FamilyEventSummary) : jv :=
  json_object [("event_id", JStr (fs_event_id s)); ("camera_id", JStr (fs_camera_id s));
               ("event_type", JStr (fs_event_type s)); ("title", JStr (fs_title s));
               ("summary", JStr (fs_summary s)); ("confidence", json_f32 (fs_confidence s));
               ("labels", json_strings (fs_labels s)); ("source", JStr (fs_source s));
               ("vlm_status", JStr (fs_vlm_status s)); ("created_at", JStr (fs_created_at s))].

(** * Text *)

Definition SENSITIVE_NEEDLES : list (string * string) :=
  [("rtsp_url", "rtsp://"); ("ha_token", "ha_token"); ("ha_token", "home_assistant_token");
   ("camera_credential", "camera_credential"); ("camera_credential", "rtsp_username");
   ("camera_credential", "rtsp_password"); ("camera_credential", "password="); ("api_key", "api_key");
   ("api_key", "authorization: bearer"); ("api_key", "bearer "); ("api_key", "sk-");
   ("private_key", "private key"); ("upload_url", "x-amz-signature="); ("upload_url", "presigned");
   ("raw_image", "data:image"); ("raw_image", ";base64,")].

Definition PATH_NEEDLES : list string :=
  [".harborbeacon/"; "/tmp/"; "/var/tmp/"; "/var/lib/"; "/home/"; "/run/"; "c:/users/"].

Definition MODEL_NEEDLES : list string :=
  ["rtsp://"; "ha_token"; "home_assistant_token"; "camera_credential"; "rtsp_username"; "rtsp_password"; "api_key";
   "authorization: bearer"; "bearer "; "sk-"; "private key"; "x-amz-signature="; "presigned"].

(** The part after a scheme up to its first [@] comes before any [/]. *)
Definition has_userinfo (tail : string) : bool :=
  match find_char "@" tail, find_char "/" tail with
  | Some at_, Some slash => (at_ <? slash)%nat
  | Some _, None => true
  | None, _ => false
  end.

Definition looks_like_url_with_credentials (text : string) : bool :=
  list_any has_userinfo (omap (fun scheme => after_first scheme text) ["http://"; "https://"; "rtsp://"]).

Definition reject_sensitive_text (text : string) : result string unit :=
  let lower := to_ascii_lowercase text in
  match list_find (fun kv => str_contains kv.2 lower) SENSITIVE_NEEDLES with
  | Some kv => Err ("local vision event contains sensitive material: " +:+ kv.1)
  | None => if looks_like_url_with_credentials lower
            then Err "local vision event contains URL credentials" else Ok tt
  end.

Definition reject_local_path_text (text : string) : result string unit :=
  let lower := replace_char "\" "/" (to_ascii_lowercase text) in
  if contains_any PATH_NEEDLES lower then Err "local vision notification contains local path material" else Ok tt.

(** [for item in items { f(item)?; }] *)
Fixpoint try_all {A} (f : A -> result string unit) (l : list A) : result string unit :=
  match l with
  | [] => Ok tt
  | x :: l => match f x with Err error => Err error | Ok _ => try_all f l end
  end.

(** [reject_sensitive_value] and [reject_local_path_value], which differ in the check
    of a text. *)
Fixpoint reject_value (check : string -> result string unit) (v : jv) : result string unit :=
  match v with
  | JStr s => check s
  | JArr l => try_all (reject_value check) l
  | JObj l =>
      try_all (fun kv => match check kv.1 with Err error => Err error | Ok _ => reject_value check kv.2 end) l
  | _ => Ok tt
  end.
Definition reject_sensitive_value : jv -> result string unit := reject_value reject_sensitive_text.
Definition reject_local_path_value : jv -> result string unit := reject_value reject_local_path_text.

(** Both checks of a value, as they are made. *)
Definition reject_private_value (v : jv) : result string unit :=
  match reject_sensitive_value v with Err error => Err error | Ok _ => reject_local_path_value v end.

Definition to_ascii_uppercase (s : string) : string := str_map ascii_upper s.

Definition redact_needle (s needle : string) : string :=
  str_replace (to_ascii_uppercase needle) "[redacted]" (str_replace needle "[redacted]" s).

Definition sanitize_model_text (text : string) : string :=
  chars_take 500 (foldl redact_needle text MODEL_NEEDLES).

(** * Acceptance *)

Section text.
Context `{!JsonText} `{!VisionText}.

Definition validate_text_len (name value : string) (max_chars : Z) : result string unit :=
  if (max_chars <? Z.of_nat (chars_count value))%Z
  then Err ("local vision event " +:+ name +:+ " exceeds " +:+ show_Z max_chars +:+ " chars") else Ok tt.

Definition validate_string_vec_len (name : string) (values : list string) (max_items : nat) (max_chars : Z)
  : result string unit :=
  if (max_items <? length values)%nat
  then Err ("local vision event " +:+ name +:+ " exceeds " +:+ show_nat max_items +:+ " entries")
  else try_all (fun value => validate_text_len name value max_chars) values.

(** The size of a value's JSON: what a failure is called, and the value's name. *)
Definition validate_json_len (failure exceeds : string) (v : jv) : result string unit :=
  match json_to_string v with
  | Err error => Err ("failed to measure " +:+ failure +:+ ": " +:+ error)
  | Ok bytes =>
      if (MAX_LOCAL_VISION_METRICS_BYTES <? Z.of_nat (str_len bytes))%Z
      then Err ("local vision event " +:+ exceeds +:+ " " +:+ show_Z MAX_LOCAL_VISION_METRICS_BYTES +:+ " bytes")
      else Ok tt
  end.

Definition validate_vlm_size (v : LocalVisionEventVlmSummary) : result string unit :=
  _ <-? validate_text_len "vlm.status" (vlm_status v) 128;
  _ <-? validate_text_len "vlm.summary" (vlm_summary v) MAX_LOCAL_VISION_MODEL_TEXT_CHARS;
  _ <-? validate_text_len "vlm.derived_text" (vlm_derived_text v) MAX_LOCAL_VISION_MODEL_TEXT_CHARS;
  _ <-? match vlm_error v with
        | Some error => validate_text_len "vlm.error" error MAX_LOCAL_VISION_TEXT_CHARS
        | None => Ok tt
        end;
  _ <-? validate_string_vec_len "vlm.tags" (vlm_tags v) MAX_LOCAL_VISION_LABELS 128;
  _ <-? validate_string_vec_len "vlm.labels" (vlm_labels v) MAX_LOCAL_VISION_LABELS 128;
  _ <-? (if (MAX_LOCAL_VISION_ARTIFACTS <? length (vlm_artifacts v))%nat
         then Err ("local vision event VLM artifacts exceed " +:+ show_nat MAX_LOCAL_VISION_ARTIFACTS
                   +:+ " entries")
         else Ok tt);
  _ <-? validate_json_len "VLM ingest metadata" "VLM ingest metadata exceeds" (vlm_ingest_metadata v);
  validate_json_len "VLM metrics" "VLM metrics exceed" (vlm_metrics v).

Definition validate_local_vision_event_size (e : LocalVisionEvent) : result string unit :=
  match event_to_string e with
  | Err error => Err ("failed to measure local vision event: " +:+ error)
  | Ok json_bytes =>
      if (MAX_LOCAL_VISION_EVENT_JSON_BYTES <? Z.of_nat (str_len json_bytes))%Z
      then Err ("local vision event JSON exceeds " +:+ show_Z MAX_LOCAL_VISION_EVENT_JSON_BYTES +:+ " bytes")
      else
        _ <-? validate_text_len "summary" (le_summary e) MAX_LOCAL_VISION_TEXT_CHARS;
        _ <-? validate_text_len "event_type" (le_event_type e) 128;
        _ <-? validate_text_len "camera_id" (le_camera_id e) 128;
        _ <-? validate_text_len "analyzer" (le_analyzer e) 256;
        _ <-? validate_string_vec_len "labels" (le_labels e) MAX_LOCAL_VISION_LABELS 128;
        _ <-? validate_json_len "local vision event metrics" "metrics exceed" (le_metrics e);
        match le_vlm e with Some v => validate_vlm_size v | None => Ok tt end
  end.

Definition validate_local_vision_event (e : LocalVisionEvent) : result string unit :=
  if is_blank (le_event_id e) then Err "local vision event requires event_id"
  else if is_blank (le_camera_id e) then Err "local vision event requires camera_id"
  else if is_blank (le_event_type e) then Err "local vision event requires event_type"
  else if negb (in_unit_interval (le_confidence e)) then
    Err "local vision event confidence must be between 0 and 1"
  else
    _ <-? validate_local_vision_event_size e;
    reject_private_value (event_value e).

(** * What is said of an event *)

Definition local_vision_notification_title (e : LocalVisionEvent) : string :=
  if le_event_type e =? "person_detected" then "HarborNavi 人员事件"
  else if le_event_type e =? "pet_detected" then "HarborNavi 宠物事件"
  else if le_event_type e =? "vehicle_detected" then "HarborNavi 车辆事件"
  else "HarborNavi 家庭事件".

Definition local_vision_event_type_label (event_type : string) : string :=
  if event_type =? "person_detected" then "检测到人员活动"
  else if event_type =? "pet_detected" then "检测到宠物活动"
  else if event_type =? "vehicle_detected" then "检测到车辆相关目标"
  else if event_type =? "motion_like_scene" then "检测到画面变化"
  else "检测到本地视觉事件".

Definition local_vision_family_title (event_type : string) : string :=
  if event_type =? "person_detected" then "有人活动"
  else if event_type =? "pet_detected" then "宠物活动"
  else if event_type =? "vehicle_detected" then "车辆活动"
  else if event_type =? "motion_like_scene" then "画面变化"
  else "家庭事件".

(** The summary of the language model, where it is in use. *)
Definition active_summary (v : LocalVisionEventVlmSummary) : bool :=
  (vlm_status v =? "active") && negb (is_blank (vlm_summary v)).

Definition local_vision_automation_summary (e : LocalVisionEvent) : string :=
  match le_vlm e with
  | Some v =>
      if active_summary v then sanitize_model_text (trim (vlm_summary v))
      else if negb (is_blank (vlm_derived_text v)) then sanitize_model_text (trim (vlm_derived_text v))
      else sanitize_model_text (trim (le_summary e))
  | None => sanitize_model_text (trim (le_summary e))
  end.

Definition local_vision_notification_summary (e : LocalVisionEvent) : string := local_vision_automation_summary e.

Definition local_vision_notification_body (e : LocalVisionEvent) : string :=
  let confidence := f32_round_as_u32 (SFmul 24 128 (clamp_unit (le_confidence e)) f32_hundred) in
  local_vision_event_type_label (le_event_type e) +:+ "：" +:+ local_vision_notification_summary e
  +:+ "（摄像头 " +:+ le_camera_id e +:+ "，置信度 " +:+ show_Z confidence +:+ "%，延迟 "
  +:+ show_Z (le_latency_ms e) +:+ "ms）。".

Definition local_vision_family_summary_text (e : LocalVisionEvent) : result string (string * string) :=
  let checked source text :=
    _ <-? reject_sensitive_text (trim text);
    _ <-? reject_local_path_text (trim text);
    Ok (source, sanitize_model_text (trim text)) in
  match le_vlm e with
  | Some v => if active_summary v then checked "vlm" (vlm_summary v) else checked "degraded" (le_summary e)
  | None => checked "yolo" (le_summary e)
  end.

Definition local_vision_vlm_status (e : LocalVisionEvent) : string :=
  match le_vlm e with
  | Some v => if is_blank (vlm_status v) then "degraded" else trim (vlm_status v)
  | None => "not_sampled"
  end.

(** The status as it is stored. *)
Definition raw_vlm_status (e : LocalVisionEvent) : string :=
  match le_vlm e with Some v => vlm_status v | None => "not_sampled" end.

(** * Home Assistant *)

Definition build_ha_mqtt_payload (e : LocalVisionEvent) : jv :=
  json_object
    [("event_id", JStr (le_event_id e)); ("camera_id", JStr (le_camera_id e));
     ("event_type", JStr (le_event_type e)); ("confidence", json_f32 (le_confidence e));
     ("labels", json_strings (le_labels e)); ("summary", JStr (local_vision_automation_summary e));
     ("started_at", JStr (le_started_at e)); ("latency_ms", JNum (le_latency_ms e));
     ("analyzer", JStr (le_analyzer e)); ("vlm_status", JStr (local_vision_vlm_status e))].

Definition HA_MQTT_FIELDS : list string :=
  ["event_id"; "camera_id"; "event_type"; "confidence"; "labels"; "summary"; "started_at"; "analyzer"; "latency_ms";
   "vlm_status"].

Definition HA_MQTT_EVENT_TYPES : list string :=
  ["person_detected"; "pet_detected"; "vehicle_detected"; "motion_like_scene"].

Definition jv_entries (v : jv) : option (list (string * jv)) := match v with JObj l => Some l | _ => None end.

Definition validate_ha_mqtt_payload (payload : jv) : result string unit :=
  match jv_entries payload with
  | None => Err "HA/MQTT local vision payload must be a JSON object"
  | Some object =>
      match list_find (fun key => negb (is_some (entry key object))) HA_MQTT_FIELDS with
      | Some key => Err ("HA/MQTT local vision payload missing " +:+ key)
      | None =>
      match list_find (fun key => negb (str_in key HA_MQTT_FIELDS)) object.*1 with
      | Some key => Err ("HA/MQTT local vision payload contains non-contract field " +:+ key)
      | None =>
          if match jv_get payload "event_type" ≫= jv_str with
             | Some event_type => str_in event_type HA_MQTT_EVENT_TYPES
             | None => false
             end
          then reject_private_value payload
          else Err "HA/MQTT local vision payload has unsupported event_type"
      end end
  end.

Definition build_local_vision_ha_mqtt_audit (stored : StoredLocalVisionEvent) (payload : jv) : jv :=
  let e := se_event stored in
  json_object
    [("audit_kind", JStr "local_vision_event.ha_mqtt_payload_built"); ("event_id", JStr (le_event_id e));
     ("camera_id", JStr (le_camera_id e)); ("event_type", JStr (le_event_type e));
     ("classification", JStr "p1_ha_mqtt_event_contract"); ("metadata_only", JBool true);
     ("secret_scan", JStr "clean"); ("raw_image_included", JBool false); ("local_paths_included", JBool false);
     ("payload_fields", json_strings (default [] ((fun l => l.*1) <$> jv_entries payload)))].

Definition build_local_vision_ha_mqtt_contract (stored : StoredLocalVisionEvent)
  : result string LocalVisionHaMqttContract :=
  _ <-? validate_local_vision_event (se_event stored);
  let payload := build_ha_mqtt_payload (se_event stored) in
  _ <-? validate_ha_mqtt_payload payload;
  Ok {| hc_payload := payload; hc_audit_record := build_local_vision_ha_mqtt_audit stored payload |}.

(** * The family's summary *)

Definition validate_family_event_summary (s : FamilyEventSummary) : result string unit :=
  if is_blank (fs_event_id s) then Err "family event summary requires event_id"
  else if is_blank (fs_camera_id s) then Err "family event summary requires camera_id"
  else if is_blank (fs_event_type s) then Err "family event summary requires event_type"
  else if is_blank (fs_title s) then Err "family event summary requires title"
  else if is_blank (fs_summary s) then Err "family event summary requires summary"
  else if negb (in_unit_interval (fs_confidence s)) then
    Err "family event summary confidence must be between 0 and 1"
  else if negb (str_in (fs_source s) ["yolo"; "vlm"; "degraded"]) then
    Err "family event summary has unsupported source"
  else reject_private_value (family_summary_value s).

Definition build_local_vision_family_summary_audit (stored : StoredLocalVisionEvent) (s : FamilyEventSummary) : jv :=
  let e := se_event stored in
  json_object
    [("audit_kind", JStr "local_vision_event.family_summary_built"); ("event_id", JStr (le_event_id e));
     ("camera_id", JStr (le_camera_id e)); ("event_type", JStr (le_event_type e));
     ("summary_source", JStr (fs_source s)); ("metadata_only", JBool true); ("secret_scan", JStr "clean");
     ("raw_image_included", JBool false); ("local_paths_included", JBool false);
     ("vlm_status", JStr (fs_vlm_status s)); ("classification", JStr "p1_family_summary_audit")].

(** The clock in milliseconds. *)
Definition now_epoch_ms_string (now : Z) : string := "epoch_ms:" +:+ show_Z now.

Definition build_local_vision_family_summary (now : Z) (stored : StoredLocalVisionEvent)
  : result string LocalVisionFamilySummary :=
  _ <-? validate_local_vision_event (se_event stored);
  let e := se_event stored in
  text <-? local_vision_family_summary_text e;
  let summary :=
    {| fs_event_id := le_event_id e; fs_camera_id := le_camera_id e; fs_event_type := le_event_type e;
       fs_title := local_vision_family_title (le_event_type e); fs_summary := text.2;
       fs_confidence := le_confidence e; fs_labels := le_labels e; fs_source := text.1;
       fs_vlm_status := local_vision_vlm_status e; fs_created_at := now_epoch_ms_string now |} in
  _ <-? validate_family_event_summary summary;
  Ok {| lf_summary := summary; lf_audit_record := build_local_vision_family_summary_audit stored summary |}.

(** * Notifications *)

Definition local_vision_notification_metadata (stored : StoredLocalVisionEvent) : jv :=
  let e := se_event stored in
  json_object
    [("kind", JStr "harbornavi.local_vision_event_notification");
     ("event", json_object
        [("event_id", JStr (le_event_id e)); ("camera_id", JStr (le_camera_id e));
         ("event_type", JStr (le_event_type e)); ("confidence", json_f32 (le_confidence e));
         ("labels", json_strings (le_labels e)); ("summary", JStr (local_vision_notification_summary e));
         ("started_at", JStr (le_started_at e)); ("received_at", JStr (se_received_at stored));
         ("analyzer", JStr (le_analyzer e)); ("latency_ms", JNum (le_latency_ms e));
         ("vlm_status", JStr (raw_vlm_status e));
         ("vlm_summary_present",
            JBool match le_vlm e with Some v => negb (is_blank (vlm_summary v)) | None => false end)]);
     ("privacy", json_object
        [("text_only", JBool true); ("attachments_included", JBool false); ("raw_image_included", JBool false);
         ("local_paths_included", JBool false)])].

Definition validate_local_vision_notification_request (r : NotificationRequest) : result string unit :=
  match nc_attachments (nr_content r) with
  | [] => reject_private_value (notification_request_value r)
  | _ => Err "local vision notification must be text-only and cannot include attachments"
  end.

Definition build_local_vision_notification_audit (stored : StoredLocalVisionEvent) (r : NotificationRequest) : jv :=
  let e := se_event stored in
  json_object
    [("audit_kind", JStr "local_vision_event.notification_intent_built"); ("event_id", JStr (le_event_id e));
     ("camera_id", JStr (le_camera_id e)); ("event_type", JStr (le_event_type e));
     ("notification_id", JStr (nr_notification_id r)); ("trace_id", JStr (nr_trace_id r));
     ("delivery_mode", JStr "send");
     ("destination_route_bound", JBool (negb (is_blank (nd_route_key (nr_destination r)))));
     ("text_only", JBool true); ("attachments_included", JBool false); ("raw_image_included", JBool false);
     ("local_paths_included", JBool false); ("vlm_status", JStr (raw_vlm_status e));
     ("classification", JStr "p1_support_notification_smoke")].

Section digest.
Context `{!Sha256}.

Definition hex_sha256 (bytes : string) : string := join "" (hex_byte <$> sha256 bytes).

Definition stable_event_notification_digest (e : LocalVisionEvent) : string :=
  hex_sha256 ("harbornavi.local_vision_event.notification:" +:+ trim (le_event_id e)).

(** The digest's first 24 bytes, which are ASCII. *)
Definition event_digest_24 (e : LocalVisionEvent) : string :=
  String.substring 0 24 (stable_event_notification_digest e).

Definition local_vision_notification_request (stored : StoredLocalVisionEvent) (route_key : string)
  : NotificationRequest :=
  let e := se_event stored in
  {| nr_notification_id := "notif_" +:+ event_digest_24 e; nr_trace_id := "trace_" +:+ trim (le_event_id e);
     nr_source := {| ns_service := "harborbeacon"; ns_module := "local_vision_event";
                     ns_event_type := "harbornavi.local_vision_event" |};
     nr_destination := {| nd_kind := DestConversation; nd_route_key := route_key; nd_id := ""; nd_platform := "";
                          nd_recipient := None |};
     nr_content := {| nc_title := local_vision_notification_title e; nc_body := local_vision_notification_body e;
                      nc_payload_format := PlainText;
                      nc_structured_payload := local_vision_notification_metadata stored; nc_attachments := [];
                      nc_delivery_hints := [] |};
     nr_delivery := {| nv_mode := ModeSend; nv_reply_to_message_id := ""; nv_update_message_id := "";
                       nv_idempotency_key := "idem_" +:+ event_digest_24 e |};
     nr_metadata := {| nm_correlation_id := le_event_id e |} |}.

Definition build_local_vision_notification_request (stored : StoredLocalVisionEvent) (route_key : string)
  : result string NotificationRequest :=
  _ <-? validate_local_vision_event (se_event stored);
  let route_key := trim route_key in
  if is_empty route_key then Err "local vision notification requires destination.route_key" else
  let request := local_vision_notification_request stored route_key in
  _ <-? validate_local_vision_notification_request request;
  Ok request.

Definition build_local_vision_notification_intent (stored : StoredLocalVisionEvent) (route_key : string)
  : result string LocalVisionNotificationIntent :=
  request <-? build_local_vision_notification_request stored route_key;
  Ok {| li_notification_request := request;
        li_audit_record := build_local_vision_notification_audit stored request |}.
End digest.
End text.

(** * From detections and model answers *)

Definition push_unique_label (labels : list string) (label : string) : list string :=
  let normalized := to_ascii_lowercase (trim label) in
  if negb (is_empty normalized) && negb (str_in normalized labels) then labels ++ [normalized] else labels.

Definition PET_LABELS : list string := ["cat"; "dog"].
Definition VEHICLE_LABELS : list string := ["car"; "bus"; "truck"; "motorcycle"; "bicycle"].

(** The state of the loop over detections. *)
Record Classified := {
  cl_labels : list string;
  cl_max_confidence : spec_float;
  cl_person : bool;
  cl_pet : bool;
  cl_vehicle : bool
}.

Definition classify_step (c : Classified) (d : LocalVisionDetection) : Classified :=
  let label := to_ascii_lowercase (trim (vd_label d)) in
  if is_empty label then c else
  {| cl_labels := push_unique_label (cl_labels c) label;
     cl_max_confidence := f32_max (cl_max_confidence c) (vd_confidence d);
     cl_person := cl_person c || (label =? "person");
     cl_pet := cl_pet c || str_in label PET_LABELS;
     cl_vehicle := cl_vehicle c || str_in label VEHICLE_LABELS |}.

Definition classify_local_vision_event (detections : list LocalVisionDetection)
  : string * spec_float * list string :=
  let c := foldl classify_step {| cl_labels := []; cl_max_confidence := f32_zero; cl_person := false;
                                  cl_pet := false; cl_vehicle := false |} detections in
  let event_type := if cl_person c then "person_detected" else if cl_pet c then "pet_detected"
                    else if cl_vehicle c then "vehicle_detected" else "motion_like_scene" in
  (event_type, cl_max_confidence c, cl_labels c).

(** [map.insert] into a value that is made an object if it is none. *)
Definition as_object (v : jv) : list (string * jv) := default [] (jv_entries v).
Definition insert_all_entries (v : jv) (l : list (string * jv)) : jv := JObj (foldl insert_entry (as_object v) l).

(** [if let Some(map) = v.as_object_mut()] *)
Definition insert_if_object (v : jv) (l : list (string * jv)) : jv :=
  match v with JObj o => JObj (foldl insert_entry o l) | _ => v end.

Definition vlm_available (vlm : VlmSummaryExecution) : bool := vx_available vlm && negb (is_blank (vx_text vlm)).

Definition vlm_summary_of_execution (e : LocalVisionEvent) (vlm : VlmSummaryExecution) (elapsed_ms : Z)
    (extra_metrics : jv) : LocalVisionEventVlmSummary :=
  let available := vlm_available vlm in
  let summary := if available then sanitize_model_text (trim (vx_text vlm)) else le_summary e in
  {| vlm_status := if available then "active"
                   else if is_blank (vx_status vlm) then "degraded" else trim (vx_status vlm);
     vlm_summary := summary;
     vlm_tags := push_unique_label
                   (["vlm"; "sampled_event_frame"] ++ if available then [] else ["vlm_degraded"])
                   (le_event_type e);
     vlm_labels := push_unique_label (push_unique_label (le_labels e) "vlm_summary")
                     (if available then "visual_semantics" else "vlm_degraded");
     vlm_derived_text := if available then summary else "";
     vlm_artifacts :=
       let a := le_snapshot_artifact e in
       [{| va_artifact_id := sa_artifact_id a; va_role := "sampled_event_frame"; va_mime_type := sa_mime_type a;
           va_byte_size := sa_byte_size a; va_sha256 := sa_sha256 a; va_source := sa_source a |}];
     vlm_ingest_metadata :=
       json_object [("source", JStr "local_on_demand_vlm"); ("trigger", JStr "sampled_event_frame");
                    ("event_id", JStr (le_event_id e)); ("camera_id", JStr (le_camera_id e));
                    ("frame_path_redacted", JBool true); ("raw_response_stored", JBool false)];
     vlm_metrics :=
       insert_all_entries extra_metrics
         [("elapsed_ms", JNum elapsed_ms); ("provider_key", JStr (vx_provider_key vlm));
          ("model_endpoint_id", json_option JStr (vx_model_endpoint_id vlm));
          ("available", JBool (vx_available vlm))];
     vlm_error := if available then None else Some (sanitize_model_text (vx_summary vlm)) |}.

Definition attach_vlm_summary_to_event (e : LocalVisionEvent) (vlm : VlmSummaryExecution) (elapsed_ms : Z)
    (extra_metrics : jv) : LocalVisionEvent :=
  let v := vlm_summary_of_execution e vlm elapsed_ms extra_metrics in
  {| le_event_id := le_event_id e; le_camera_id := le_camera_id e; le_event_type := le_event_type e;
     le_confidence := le_confidence e; le_labels := vlm_labels v;
     le_summary := if vlm_available vlm then vlm_summary v else le_summary e;
     le_snapshot_artifact := le_snapshot_artifact e; le_started_at := le_started_at e;
     le_analyzer := le_analyzer e; le_latency_ms := le_latency_ms e;
     le_metrics := insert_if_object (le_metrics e)
                     [("vlm_status", JStr (vlm_status v)); ("vlm_ms", JNum elapsed_ms)];
     le_vlm := Some v |}.

Definition build_audit_record (e : LocalVisionEvent) : jv :=
  json_object
    ([("audit_kind", JStr "local_vision_event.ingested"); ("event_id", JStr (le_event_id e));
      ("camera_id", JStr (le_camera_id e)); ("event_type", JStr (le_event_type e));
      ("confidence", json_f32 (le_confidence e)); ("labels", json_strings (le_labels e));
      ("analyzer", JStr (le_analyzer e)); ("latency_ms", JNum (le_latency_ms e));
      ("snapshot_artifact_id", json_option JStr (sa_artifact_id (le_snapshot_artifact e)));
      ("snapshot_sha256", json_option JStr (sa_sha256 (le_snapshot_artifact e)))]
     ++ match le_vlm e with
        | Some v =>
            [("vlm", json_object
                [("status", JStr (vlm_status v)); ("summary", JStr (vlm_summary v));
                 ("model_endpoint_id", json_option id (jv_get (vlm_metrics v) "model_endpoint_id"));
                 ("provider_key", json_option id (jv_get (vlm_metrics v) "provider_key"));
                 ("elapsed_ms", json_option id (jv_get (vlm_metrics v) "elapsed_ms"));
                 ("frame_path_redacted", JBool true)])]
        | None => []
        end).

Definition summarize_local_vision_event (event_type : string) (result : option LocalVisionAnalyzerResult)
    (analyzer : string) : string :=
  let detected := match result with
                  | Some r => List.filter (fun label => negb (is_blank label)) (an_labels r)
                  | None => []
                  end in
  let label_text := match detected with [] => "" | _ => " 检测标签：" +:+ join ", " detected +:+ "。" end in
  if event_type =? "person_detected" then "K3 本地视觉检测到人员活动。" +:+ label_text
  else if event_type =? "pet_detected" then "K3 本地视觉检测到宠物活动。" +:+ label_text
  else if event_type =? "vehicle_detected" then "K3 本地视觉检测到车辆相关目标。" +:+ label_text
  else if event_type =? "snapshot_unclassified" then "K3 已抓拍，但图片格式无法识别。"
  else if str_contains "official-vision-runtime-missing" analyzer then
    "K3 已完成本地抓拍并生成轻量视觉事件；官方视觉检测 runtime 尚未形成可用 recipe，当前为 CPU fallback 事件。"
  else "K3 已完成本地抓拍并生成本地视觉事件。" +:+ label_text.

(** The bytes of a string literal with escapes. *)
Definition bytes_of (l : list N) : string := String.string_of_list_ascii (ascii_of_N <$> l).

Definition infer_image_mime_type (bytes : string) : string :=
  if starts_with (bytes_of [255; 216; 255]%N) bytes then "image/jpeg"
  else if starts_with (bytes_of [137; 80; 78; 71; 13; 10; 26; 10]%N) bytes then "image/png"
  else "application/octet-stream".

Section analyze.
Context `{!Sha256}.

(** [now] is the clock, [event_uuid] and [artifact_uuid] the draws, [bytes] the file
    at the snapshot's path. *)
Definition analyze_snapshot_file (now : Z) (event_uuid artifact_uuid : string) (bytes : result string string)
    (input : LocalSnapshotAnalysisInput) : result string LocalVisionEvent :=
  match bytes with
  | Err error => Err ("failed to read snapshot " +:+ sn_snapshot_path input +:+ ": " +:+ error)
  | Ok bytes =>
      let result := sn_analyzer_result input in
      let mime_type := infer_image_mime_type bytes in
      let valid_image := negb (mime_type =? "application/octet-stream") in
      let byte_size := Z.of_nat (str_len bytes) in
      let analyzer := default "cpu-snapshot-fallback"
                        match result ≫= an_analyzer with Some a => Some a | None => sn_analyzer input end in
      let event_type := default (if valid_image then "motion_like_scene" else "snapshot_unclassified")
                          (result ≫= an_event_type) in
      let labels :=
        ["snapshot"; "local_vision_event"] ++ (if valid_image then ["image_frame"] else [])
        ++ (if str_contains "official-vision-runtime-missing" analyzer
            then ["official_vision_runtime_missing"] else []) in
      let labels := match result with
                    | Some r => foldl push_unique_label labels
                                  (an_labels r ++ (vd_label <$> an_detections r) ++ option_list (an_provider r))
                    | None => labels
                    end in
      let metrics :=
        insert_all_entries (sn_metrics input)
          ([("byte_size", JNum byte_size); ("valid_image", JBool valid_image); ("image_mime_type", JStr mime_type)]
           ++ match result with
              | Some r =>
                  [("detections", JArr (detection_value <$> an_detections r));
                   ("detected_labels", json_strings (an_labels r));
                   ("detector_provider", json_option JStr (an_provider r));
                   ("detector_latency_ms", json_option JNum (an_latency_ms r));
                   ("detector_command_latency_ms", json_option JNum (an_command_latency_ms r));
                   ("detector_preprocess_ms", json_option JNum (an_preprocess_ms r));
                   ("detector_inference_ms", json_option JNum (an_inference_ms r));
                   ("detector_postprocess_ms", json_option JNum (an_postprocess_ms r));
                   ("model_sha256", json_option JStr (an_model_sha256 r))]
              | None => []
              end) in
      Ok {| le_event_id := "lve_" +:+ event_uuid; le_camera_id := sn_camera_id input; le_event_type := event_type;
            le_confidence := clamp_unit (default (if valid_image then f32_percent 55 else f32_percent 10)
                                           (result ≫= an_confidence));
            le_labels := labels; le_summary := summarize_local_vision_event event_type result analyzer;
            le_snapshot_artifact :=
              {| sa_artifact_id := Some ("artifact_" +:+ artifact_uuid); sa_path := None;
                 sa_mime_type := Some mime_type; sa_byte_size := Some byte_size;
                 sa_sha256 := Some (hex_sha256 bytes); sa_source := Some "k3-local-snapshot" |};
            le_started_at := now_epoch_ms_string now; le_analyzer := analyzer;
            le_latency_ms := default 0%Z (sn_latency_ms input); le_metrics := metrics; le_vlm := None |}
  end.
End analyze.

(** [str::parse::<u64>] of a time in seconds or milliseconds. *)
Definition strip_prefix_or_self (p s : string) : string :=
  if starts_with p s then str_drop (str_len p) s else s.

Definition parse_epoch_ms (value : string) : option Z :=
  parsed ← parse_uint u64_max (trim (strip_prefix_or_self "epoch_ms:" (trim value)));
  Some (if (9999999999 <? parsed)%Z then parsed else u64_saturating_mul parsed 1000).
