(* ===== verification/VisionStore.v ===== *)
(** The file of local vision events, [src/runtime/vision_event.rs]: one line of JSON
    for each event accepted, read from its end. The file is its bytes, [None] when
    there is none. Reading a line is [serde_json]'s, the class [StoredText]; what
    the system calls answer is in environments, and nobody else changes the file
    during a call. Reading the file from the end by chunks gives what reading it whole
    gives, and what is accepted is what is listed, newest first. *)
From Stdlib Require Import Ascii.
From S2P Require Import Prelude RustString Json StringSearch VisionEvents.
Local Open Scope string_scope.
Local Open Scope list_scope.

Definition MAX_STORED_VISION_EVENT_LINE_BYTES : Z := 512 * 1024.
Definition MAX_LOCAL_VISION_RECENT_LIMIT : nat := 500.
Definition MAX_LOCAL_VISION_REVERSE_SCAN_BYTES : Z := 32 * 1024 * 1024.
Definition LOCAL_VISION_REVERSE_READ_CHUNK_BYTES : Z := 64 * 1024.

(** [serde_json]: an event as a line, and lines as events and as values. *)
Class StoredText := {
  stored_to_string : StoredLocalVisionEvent -> result string string;
  stored_from_str : string -> option StoredLocalVisionEvent;
  value_from_str : string -> option jv
}.

Record LocalVisionEventStoreStats := {
  ss_exists : bool;
  ss_file_bytes : Z;
  ss_line_count : Z;
  ss_line_count_exact : bool;
  ss_bounded : bool;
  ss_scanned_bytes : Z;
  ss_largest_line_bytes : Z;
  ss_skipped_malformed_count : Z;
  ss_skipped_oversized_count : Z;
  ss_max_line_bytes : Z;
  ss_metadata_only : bool
}.

(** What an append meets: an error making the directory, opening the file, or
    writing, with the bytes that were written by then. [ap_now] is the clock. *)
Record AppendEnv := {
  ap_dir_error : option string;
  ap_open_error : option string;
  ap_write_error : option (string * string);
  ap_now : Z
}.

(** What a reading meets; seeks and reads are numbered. *)
Record ReadEnv := {
  rd_open_error : option string;
  rd_stat_error : option string;
  rd_seek_error : nat -> option string;
  rd_read_error : nat -> option string
}.

Definition NEWLINE : ascii := "010"%char.

(** [u8::is_ascii_whitespace] *)
Definition is_ascii_whitespace (c : ascii) : bool :=
  list_any (Ascii.eqb c) ["009"; "010"; "012"; "013"; "032"]%char.

Definition trim_ascii_whitespace (value : string) : string := trim_matches is_ascii_whitespace value.

Definition byte_count (s : string) : Z := Z.of_nat (str_len s).

(** The last [n] bytes. *)
Definition last_bytes (n : Z) (s : string) : string := str_drop (Z.to_nat (byte_count s - n)) s.

(** The bytes from [position] on, [n] of them. *)
Definition bytes_at (position n : Z) (s : string) : string :=
  String.substring (Z.to_nat position) (Z.to_nat n) s.

(** What follows the first newline: the whole lines of bytes that start within a
    line. *)
Definition whole_lines (starts_mid_line : bool) (bytes : string) : string :=
  if starts_mid_line then match split_once NEWLINE bytes with Some (_, rest) => rest | None => "" end else bytes.

Section store.
Context `{!JsonText} `{!VisionText} `{!StoredText}.
(** The path and its parent, if it has one. *)
Context (store_path : string) (store_parent : option string).

(** * Appending *)

Definition ingest_local_vision_event (e : AppendEnv) (event : LocalVisionEvent) (file : option string)
  : option string * result string StoredLocalVisionEvent :=
  match validate_local_vision_event event with
  | Err error => (file, Err error)
  | Ok _ =>
      let stored := {| se_received_at := now_epoch_ms_string (ap_now e); se_event := event;
                       se_audit_record := build_audit_record event;
                       se_ha_mqtt_payload := build_ha_mqtt_payload event |} in
      match (parent ← store_parent; error ← ap_dir_error e; Some (parent, error)), ap_open_error e with
      | Some (parent, error), _ =>
          (file, Err ("failed to create vision event store directory " +:+ parent +:+ ": " +:+ error))
      | None, Some error => (file, Err ("failed to open vision event store " +:+ store_path +:+ ": " +:+ error))
      | None, None =>
          let bytes := default "" file in
          match stored_to_string stored with
          | Err error => (Some bytes, Err ("failed to serialize local vision event: " +:+ error))
          | Ok line =>
              match ap_write_error e with
              | Some (error, written) =>
                  (Some (bytes +:+ written), Err ("failed to append local vision event: " +:+ error))
              | None => (Some (bytes +:+ line +:+ String NEWLINE ""), Ok stored)
              end
          end
      end
  end.

(** * The recent events *)

(** The event of a line, unless it is skipped. *)
Definition event_of_line (raw_line : string) : option StoredLocalVisionEvent :=
  let trimmed := trim_ascii_whitespace raw_line in
  if is_empty trimmed then None
  else if (MAX_STORED_VISION_EVENT_LINE_BYTES <? byte_count trimmed)%Z then None
  else if negb (utf8_valid trimmed) then None
  else stored_from_str trimmed.

(** The loop over the lines, newest first. *)
Fixpoint collect_events (target_limit : nat) (seen : list string) (events : list StoredLocalVisionEvent)
    (lines : list string) : list StoredLocalVisionEvent :=
  match lines with
  | [] => events
  | line :: lines =>
      match event_of_line line with
      | None => collect_events target_limit seen events lines
      | Some event =>
          let event_id := le_event_id (se_event event) in
          if str_in event_id seen then collect_events target_limit seen events lines
          else
            let events := events ++ [event] in
            if (length events =? target_limit)%nat then events
            else collect_events target_limit (event_id :: seen) events lines
      end
  end.

Definition parse_recent_events_from_tail (tail : string) (starts_mid_line : bool) (target_limit : nat)
  : list StoredLocalVisionEvent :=
  collect_events target_limit [] [] (reverse (split_char NEWLINE (whole_lines starts_mid_line tail))).

(** The loop over the chunks; [rounds] bounds their number. *)
Fixpoint scan_chunks (rounds : nat) (e : ReadEnv) (bytes : string) (target_limit : nat) (n : nat)
    (position scanned : Z) (tail : string) (events : list StoredLocalVisionEvent)
  : option (result string (list StoredLocalVisionEvent)) :=
  if ((0 <? position)%Z && (length events <? target_limit)%nat
      && (scanned <? MAX_LOCAL_VISION_REVERSE_SCAN_BYTES)%Z)
  then
    match rounds with
    | O => None
    | S rounds =>
        let read_size := Z.min (Z.min position LOCAL_VISION_REVERSE_READ_CHUNK_BYTES)
                           (MAX_LOCAL_VISION_REVERSE_SCAN_BYTES - scanned) in
        let position := (position - read_size)%Z in
        match rd_seek_error e n, rd_read_error e n with
        | Some error, _ => Some (Err ("failed to seek vision event store: " +:+ error))
        | None, Some error => Some (Err ("failed to read vision event store tail: " +:+ error))
        | None, None =>
            let tail := bytes_at position read_size bytes +:+ tail in
            scan_chunks rounds e bytes target_limit (S n) position (scanned + read_size) tail
              (parse_recent_events_from_tail tail (0 <? position)%Z target_limit)
        end
    end
  else Some (Ok events).

Definition target_limit (limit : nat) : nat := Nat.min (Nat.max limit 1) MAX_LOCAL_VISION_RECENT_LIMIT.

(** A round reads a byte at least. *)
Definition list_recent_local_vision_events (e : ReadEnv) (limit : nat) (file : option string)
  : option (result string (list StoredLocalVisionEvent)) :=
  match file with
  | None => Some (Ok [])
  | Some bytes =>
      match rd_open_error e, rd_stat_error e with
      | Some error, _ => Some (Err ("failed to open vision event store " +:+ store_path +:+ ": " +:+ error))
      | None, Some error => Some (Err ("failed to stat vision event store: " +:+ error))
      | None, None => scan_chunks (str_len bytes) e bytes (target_limit limit) 0 (byte_count bytes) 0 "" []
      end
  end.

(** * Statistics *)

Definition observe_vision_event_store_stats_line (s : LocalVisionEventStoreStats) (raw_line : string)
  : LocalVisionEventStoreStats :=
  let trimmed := trim_ascii_whitespace raw_line in
  if is_empty trimmed then s else
  let line_bytes := byte_count trimmed in
  let oversized := (MAX_STORED_VISION_EVENT_LINE_BYTES <? line_bytes)%Z in
  let malformed := negb (utf8_valid trimmed && is_some (value_from_str trimmed)) in
  {| ss_exists := ss_exists s; ss_file_bytes := ss_file_bytes s;
     ss_line_count := u64_saturating_add (ss_line_count s) 1; ss_line_count_exact := ss_line_count_exact s;
     ss_bounded := ss_bounded s; ss_scanned_bytes := ss_scanned_bytes s;
     ss_largest_line_bytes := Z.max (ss_largest_line_bytes s) line_bytes;
     ss_skipped_malformed_count :=
       if negb oversized && malformed then u64_saturating_add (ss_skipped_malformed_count s) 1
       else ss_skipped_malformed_count s;
     ss_skipped_oversized_count :=
       if oversized then u64_saturating_add (ss_skipped_oversized_count s) 1 else ss_skipped_oversized_count s;
     ss_max_line_bytes := ss_max_line_bytes s; ss_metadata_only := ss_metadata_only s |}.

Definition empty_stats (exists_ : bool) (file_bytes : Z) (exact : bool) (scanned : Z) : LocalVisionEventStoreStats :=
  {| ss_exists := exists_; ss_file_bytes := file_bytes; ss_line_count := 0; ss_line_count_exact := exact;
     ss_bounded := negb exact; ss_scanned_bytes := scanned; ss_largest_line_bytes := 0;
     ss_skipped_malformed_count := 0; ss_skipped_oversized_count := 0;
     ss_max_line_bytes := MAX_STORED_VISION_EVENT_LINE_BYTES; ss_metadata_only := true |}.

(** [BufRead::lines]: an error at a line that is not UTF-8. *)
Definition not_utf8_line (bytes : string) : bool :=
  list_any (fun line => negb (utf8_valid line)) (split_char NEWLINE bytes).

Definition local_vision_event_store_stats (e : ReadEnv) (file : option string)
  : result string LocalVisionEventStoreStats :=
  match file with
  | None => Ok (empty_stats false 0 true 0)
  | Some bytes =>
      match rd_stat_error e, rd_open_error e with
      | Some error, _ => Err ("failed to stat vision event store " +:+ store_path +:+ ": " +:+ error)
      | None, Some error => Err ("failed to open vision event store " +:+ store_path +:+ ": " +:+ error)
      | None, None =>
          let file_bytes := byte_count bytes in
          if (file_bytes <=? MAX_LOCAL_VISION_REVERSE_SCAN_BYTES)%Z then
            match rd_read_error e 0 with
            | Some error => Err ("failed to read vision event store: " +:+ error)
            | None =>
                if not_utf8_line bytes
                then Err "failed to read vision event store: stream did not contain valid UTF-8"
                else Ok (foldl observe_vision_event_store_stats_line (empty_stats true file_bytes true file_bytes)
                           (trim <$> split_char NEWLINE bytes))
            end
          else
            match rd_seek_error e 0, rd_read_error e 0 with
            | Some error, _ => Err ("failed to seek vision event store stats tail: " +:+ error)
            | None, Some error => Err ("failed to read vision event store stats tail: " +:+ error)
            | None, None =>
                let read_size := MAX_LOCAL_VISION_REVERSE_SCAN_BYTES in
                Ok (foldl observe_vision_event_store_stats_line (empty_stats true file_bytes false read_size)
                      (split_char NEWLINE (whole_lines true (last_bytes read_size bytes))))
            end
      end
  end.
End store.

(** * Specification *)

Definition event_id_of (s : StoredLocalVisionEvent) : string := le_event_id (se_event s).

(** The first event of each identifier, leaving out those in [seen]. *)
Fixpoint distinct_events (seen : list string) (l : list StoredLocalVisionEvent) : list StoredLocalVisionEvent :=
  match l with
  | [] => []
  | s :: l => if str_in (event_id_of s) seen then distinct_events seen l
              else s :: distinct_events (event_id_of s :: seen) l
  end.

(** No system call fails. *)
Definition reads_well (e : ReadEnv) : Prop :=
  rd_open_error e = None /\ rd_stat_error e = None
  /\ (forall n, rd_seek_error e n = None) /\ (forall n, rd_read_error e n = None).

(** The events accepted by a sequence of ingestions, from no file, and the file. *)
Section ingestions.
Context `{!JsonText} `{!VisionText} `{!StoredText}.

Definition ingest_step (store_path : string) (store_parent : option string)
    (x : option string * list StoredLocalVisionEvent) (op : AppendEnv * LocalVisionEvent)
  : option string * list StoredLocalVisionEvent :=
  match ingest_local_vision_event store_path store_parent op.1 op.2 x.1 with
  | (file, Ok stored) => (file, x.2 ++ [stored])
  | (file, Err _) => (file, x.2)
  end.

Definition ingest_all (store_path : string) (store_parent : option string)
    (ops : list (AppendEnv * LocalVisionEvent)) : option string * list StoredLocalVisionEvent :=
  foldl (ingest_step store_path store_parent) (None, []) ops.

(** The line of an event, not too long, is read back as the event: what JSON text
    without white space around it and without newlines in it does, for numbers that
    are printed exactly. *)
Record reads_back (s : StoredLocalVisionEvent) (line : string) : Prop := {
  back_line : stored_to_string s = Ok line;
  back_one_line : lacks NEWLINE line = true;
  back_trimmed : trim_ascii_whitespace line = line;
  back_utf8 : utf8_valid line = true;
  back_short : (0 < byte_count line <= MAX_STORED_VISION_EVENT_LINE_BYTES)%Z;
  back_event : stored_from_str line = Some s
}.
End ingestions.

Section theorems.
Context `{!JsonText} `{!VisionText} `{!StoredText}.
Context (store_path : string) (store_parent : option string).

(** The events of the lines of some bytes, newest first. *)
Definition events_of (starts_mid_line : bool) (bytes : string) : list StoredLocalVisionEvent :=
  distinct_events [] (omap event_of_line (reverse (split_char NEWLINE (whole_lines starts_mid_line bytes)))).

(** * Collecting *)

Lemma distinct_app seen a b : exists b', distinct_events seen (a ++ b) = distinct_events seen a ++ b'.
Proof.
  revert seen. induction a as [|s a IH]; intros seen; [by exists (distinct_events seen b)|]. cbn [distinct_events app].
  destruct (str_in _ seen); [apply IH|]. destruct (IH (event_id_of s :: seen)) as [b' ->]. by exists b'.
Qed.

Lemma collect_spec n seen events lines :
  (length events < n)%nat ->
  collect_events n seen events lines
  = events ++ take (n - length events) (distinct_events seen (omap event_of_line lines)).
Proof.
  revert seen events. induction lines as [|line lines IH]; intros seen events Hn; cbn [collect_events omap list_omap].
  { cbn. by rewrite take_nil, app_nil_r. }
  destruct (event_of_line line) as [s|]; [|by apply IH]. cbn [distinct_events].
  change (le_event_id (se_event s)) with (event_id_of s).
  destruct (str_in (event_id_of s) seen); [by apply IH|].
  destruct (Nat.eqb_spec (length (events ++ [s])) n) as [He|He]; rewrite length_app in He; cbn [length] in He.
  - replace (n - length events)%nat with 1%nat by lia. by rewrite firstn_cons, take_0.
  - rewrite IH by (rewrite length_app; cbn [length]; lia). rewrite length_app. cbn [length].
    replace (n - length events)%nat with (S (n - (length events + 1))) by lia.
    by rewrite firstn_cons, <- app_assoc.
Qed.

Lemma parse_spec tail mid n : (0 < n)%nat -> parse_recent_events_from_tail tail mid n = take n (events_of mid tail).
Proof. intros Hn. unfold parse_recent_events_from_tail. rewrite collect_spec by done. by rewrite Nat.sub_0_r. Qed.

(** * From a part to the whole *)

(** The whole lines of a part are the newest of those of any bytes it ends. *)
Lemma events_of_suffix h t mid : exists more, events_of mid (h +:+ t) = events_of true t ++ more.
Proof.
  assert (exists z, reverse (split_char NEWLINE (whole_lines mid (h +:+ t)))
             = reverse (split_char NEWLINE (whole_lines true t)) ++ z \/ events_of true t = []) as (z & [Hz|Hz]).
  { unfold whole_lines at 2. unfold events_of. cbn [whole_lines].
    destruct (split_once NEWLINE t) as [[x y]|] eqn:Ht; [|exists []; by right].
    apply split_once_inv in Ht as [-> _]. destruct mid; cbn [whole_lines].
    - rewrite <- str_app_assoc. destruct (split_once NEWLINE ((h +:+ x) +:+ String NEWLINE y)) as [[p r]|] eqn:Hs.
      + apply split_once_before in Hs as [->|[v ->]]; [exists []; left; by rewrite app_nil_r|].
        rewrite split_char_app, reverse_app. eexists. by left.
      + exfalso. revert Hs. generalize (h +:+ x). intros u. induction u as [|a u IH]; cbn; [done|].
        destruct (Ascii.eqb a NEWLINE); [done|]. by destruct (split_once NEWLINE _).
    - rewrite <- str_app_assoc, split_char_app, reverse_app. eexists. by left. }
  - unfold events_of in *. rewrite Hz, omap_app.
    destruct (distinct_app [] (omap event_of_line (reverse (split_char NEWLINE (whole_lines true t)))) (omap event_of_line z))
      as [more Hm]. exists more. exact Hm.
  - rewrite Hz. exists (events_of mid (h +:+ t)). done.
Qed.

Lemma full_part n h t mid :
  length (take n (events_of true t)) = n -> take n (events_of mid (h +:+ t)) = take n (events_of true t).
Proof.
  destruct (events_of_suffix h t mid) as [more ->]. intros Hn. rewrite length_take in Hn.
  by rewrite take_app_le by lia.
Qed.
(** * The loop over chunks *)

Lemma substring_drop m n t : String.substring m n t +:+ str_drop (m + n) t = str_drop m t.
Proof.
  revert m n. induction t as [|a t IH]; intros m n; [by destruct m, n|].
  destruct m as [|m]; [|apply IH]. destruct n as [|n]; [done|]. cbn. f_equal. apply (IH 0 n).
Qed.

(** What is read of a file: its last bytes, as many as are scanned at most. *)
Definition scanned_part (bytes : string) : string := last_bytes MAX_LOCAL_VISION_REVERSE_SCAN_BYTES bytes.
Definition cut_off (bytes : string) : bool := (MAX_LOCAL_VISION_REVERSE_SCAN_BYTES <? byte_count bytes)%Z.

Lemma scan_done bytes n (p : Z) :
  (0 < n)%nat -> (0 <= p <= byte_count bytes)%Z ->
  (byte_count bytes - p <= MAX_LOCAL_VISION_REVERSE_SCAN_BYTES)%Z ->
  let tail := str_drop (Z.to_nat p) bytes in
  (0 <? p)%Z && (length (take n (events_of (0 <? p)%Z tail)) <? n)%nat
  && (byte_count bytes - p <? MAX_LOCAL_VISION_REVERSE_SCAN_BYTES)%Z = false ->
  take n (events_of (0 <? p)%Z tail) = take n (events_of (cut_off bytes) (scanned_part bytes)).
Proof.
  intros Hn Hp Hs tail Hc. unfold cut_off, scanned_part, last_bytes.
  set (q := Z.to_nat (byte_count bytes - MAX_LOCAL_VISION_REVERSE_SCAN_BYTES)).
  destruct (Z.ltb_spec 0 p) as [Hpos|Hpos].
  - rewrite andb_true_l in Hc. destruct (Nat.ltb_spec (length (take n (events_of true tail))) n) as [Hl|Hl].
    + rewrite andb_true_l in Hc. apply Z.ltb_ge in Hc. subst tail.
      assert (Z.to_nat p = q) as -> by (unfold q; lia).
      rewrite (proj2 (Z.ltb_lt _ _)) by lia. done.
    + assert (length (take n (events_of true tail)) = n) as Hlen.
      { pose proof (firstn_le_length n (events_of true tail)). lia. }
      assert (q <= Z.to_nat p)%nat as Hq by (unfold q; lia).
      assert (tail = str_drop (Z.to_nat p - q) (str_drop q bytes)) as Ht.
      { unfold tail. rewrite str_drop_drop. f_equal. lia. }
      destruct (str_drop_suffix (Z.to_nat p - q) (str_drop q bytes)) as [h Hh]. rewrite <- Ht in Hh.
      rewrite Hh. symmetry. by apply full_part.
  - assert (p = 0)%Z as -> by lia.
    rewrite (proj2 (Z.ltb_ge _ _)) by lia. assert (q = 0%nat) as -> by (unfold q; lia). done.
Qed.

Lemma scan_spec e bytes n rounds k (p : Z) :
  reads_well e -> (0 < n)%nat -> (0 <= p <= byte_count bytes)%Z -> (p <= Z.of_nat rounds)%Z ->
  (byte_count bytes - p <= MAX_LOCAL_VISION_REVERSE_SCAN_BYTES)%Z ->
  let tail := str_drop (Z.to_nat p) bytes in
  scan_chunks rounds e bytes n k p (byte_count bytes - p) tail (take n (events_of (0 <? p)%Z tail))
  = Some (Ok (take n (events_of (cut_off bytes) (scanned_part bytes)))).
Proof.
  intros He Hn. revert k p. induction rounds as [|rounds IH]; intros k p Hp Hr Hs tail; cbn [scan_chunks];
    destruct ((0 <? p)%Z && (length (take n (events_of (0 <? p)%Z tail)) <? n)%nat
              && (byte_count bytes - p <? MAX_LOCAL_VISION_REVERSE_SCAN_BYTES)%Z) eqn:Hc;
    try (do 2 f_equal; by apply scan_done).
  - bool_facts. lia.
  - destruct He as (_ & _ & Hseek & Hread). rewrite Hseek, Hread.
    set (r := Z.min (Z.min p LOCAL_VISION_REVERSE_READ_CHUNK_BYTES)
                (MAX_LOCAL_VISION_REVERSE_SCAN_BYTES - (byte_count bytes - p))%Z).
    apply andb_prop in Hc as [Hc Hm]. apply andb_prop in Hc as [Hc _]. apply Z.ltb_lt in Hm, Hc.
    assert (0 < r <= p)%Z as Hrp by (unfold r, LOCAL_VISION_REVERSE_READ_CHUNK_BYTES; lia).
    assert (bytes_at (p - r) r bytes +:+ tail = str_drop (Z.to_nat (p - r)) bytes) as ->.
    { unfold bytes_at, tail. rewrite <- (substring_drop (Z.to_nat (p - r)) (Z.to_nat r)). f_equal. f_equal. lia. }
    rewrite parse_spec by done.
    replace (byte_count bytes - p + r)%Z with (byte_count bytes - (p - r))%Z by lia.
    apply IH; try lia.
Qed.

Lemma list_recent_spec e limit bytes :
  reads_well e ->
  list_recent_local_vision_events store_path e limit (Some bytes)
  = Some (Ok (take (target_limit limit) (events_of (cut_off bytes) (scanned_part bytes)))).
Proof.
  intros He. unfold list_recent_local_vision_events. destruct He as (Ho & Hst & Hseek & Hread). rewrite Ho, Hst.
  assert (0 < target_limit limit)%nat as Hn.
  { unfold target_limit, MAX_LOCAL_VISION_RECENT_LIMIT. lia. }
  pose proof (scan_spec e bytes (target_limit limit) (str_len bytes) 0 (byte_count bytes)) as Hs. cbn zeta in Hs.
  unfold byte_count in *. rewrite Z.sub_diag, Nat2Z.id in Hs.
  assert (str_drop (str_len bytes) bytes = "") as Hd.
  { rewrite <- (str_app_nil_r bytes) at 2. apply str_drop_app. }
  rewrite Hd in Hs. rewrite <- Hs; try lia; [|done|unfold MAX_LOCAL_VISION_REVERSE_SCAN_BYTES; lia].
  assert (forall b, events_of b "" = []) as -> by (by intros []). by rewrite take_nil.
Qed.

(** C37. Reading the file from its end by chunks, stopping early, ends and gives what
    reading its last 32 megabytes at once gives: their whole lines, newest first, the
    first event of each identifier, up to the limit; lines that are too long or no
    events are left out. *)
Theorem chunked_reading_complete e limit bytes :
  reads_well e ->
  list_recent_local_vision_events store_path e limit (Some bytes)
  = Some (Ok (take (target_limit limit)
      (distinct_events [] (omap event_of_line
         (reverse (split_char NEWLINE (whole_lines (cut_off bytes) (scanned_part bytes)))))))).
Proof. apply list_recent_spec. Qed.

(** * What was accepted *)

(** The line of an accepted event. *)
Definition event_line (s : StoredLocalVisionEvent) : string := default "" (res_ok (stored_to_string s)).

Definition log_bytes (log : list StoredLocalVisionEvent) : string := unlines (event_line <$> log).

Lemma log_bytes_snoc log s line :
  stored_to_string s = Ok line -> log_bytes (log ++ [s]) = log_bytes log +:+ line +:+ String NEWLINE "".
Proof. intros Hs. unfold log_bytes. rewrite fmap_app. cbn. rewrite unlines_snoc. unfold event_line at 2. by rewrite Hs. Qed.

Lemma ingest_step_log op x :
  ap_write_error op.1 = None -> default "" x.1 = log_bytes x.2 ->
  let y := ingest_step store_path store_parent x op in default "" y.1 = log_bytes y.2.
Proof.
  destruct x as [file log]. intros Hw Hx. unfold ingest_step, ingest_local_vision_event. cbn [fst snd] in *.
  destruct (validate_local_vision_event _); [|done].
  destruct (store_parent ≫= _) as [[parent error]|]; [done|]. destruct (ap_open_error _); [done|].
  set (stored := Build_StoredLocalVisionEvent _ _ _ _).
  destruct (stored_to_string stored) as [line|] eqn:Hs; [|done]. rewrite Hw. cbn [fst snd default].
  by rewrite (log_bytes_snoc _ _ _ Hs), Hx.
Qed.

Lemma ingest_all_log ops :
  (forall op, op ∈ ops -> ap_write_error op.1 = None) ->
  let x := ingest_all store_path store_parent ops in default "" x.1 = log_bytes x.2.
Proof.
  unfold ingest_all. assert (default "" (None, @nil StoredLocalVisionEvent).1 = log_bytes (None : option string, []).2) as Hinit by done.
  revert Hinit. generalize (None : option string, @nil StoredLocalVisionEvent).
  induction ops as [|op ops IH]; intros x Hx Hall; [done|]. cbn [foldl]. apply IH.
  - apply ingest_step_log; [apply Hall; left|done].
  - intros op' Hin. apply Hall. by right.
Qed.

Lemma event_of_read_back s line : reads_back s line -> event_of_line line = Some s.
Proof.
  intros [_ _ Ht Hu Hb He]. unfold event_of_line. rewrite Ht, Hu, He. cbn [negb].
  destruct (is_empty line) eqn:Hem; [apply is_empty_true in Hem as ->; destruct Hb as [Hb _]; by vm_compute in Hb|].
  by rewrite (proj2 (Z.ltb_ge _ _)) by lia.
Qed.

Lemma event_line_eq s line : reads_back s line -> event_line s = line.
Proof. intros Hl. unfold event_line. by rewrite (back_line _ _ Hl). Qed.

Lemma log_bytes_lines log :
  (forall s, s ∈ log -> exists line, reads_back s line) ->
  omap event_of_line (reverse (split_char NEWLINE (log_bytes log))) = reverse log.
Proof.
  intros Hall. unfold log_bytes. rewrite split_unlines.
  - rewrite reverse_snoc.
    change (omap event_of_line (reverse (event_line <$> log)) = reverse log).
    induction log as [|s log IH]; [done|]. destruct (Hall s) as [line Hl]; [left|].
    rewrite fmap_cons, !reverse_cons, (event_line_eq _ _ Hl), omap_app, IH by (intros; apply Hall; by right).
    cbn. by rewrite (event_of_read_back _ _ Hl).
  - apply Forall_fmap, Forall_forall. intros s Hs. destruct (Hall s Hs) as [line Hl]. cbn.
    rewrite (event_line_eq _ _ Hl). by apply back_one_line in Hl.
Qed.

(** C33. The listing implements the log of accepted events: after ingestions none of whose
    writes was cut short, rejected events among them, into a file of at most the 32 MB
    that are scanned and whose lines read back, it is the newest accepted event of each
    identifier, up to the limit. *)
Theorem accepted_events_listed e limit ops :
  reads_well e -> (forall op, op ∈ ops -> ap_write_error op.1 = None) ->
  let x := ingest_all store_path store_parent ops in
  (forall s, s ∈ x.2 -> exists line, reads_back s line) ->
  (byte_count (default "" x.1) <= MAX_LOCAL_VISION_REVERSE_SCAN_BYTES)%Z ->
  list_recent_local_vision_events store_path e limit x.1
  = Some (Ok (take (target_limit limit) (distinct_events [] (reverse x.2)))).
Proof.
  intros He Hw x Hback Hsize. pose proof (ingest_all_log ops Hw) as Hlog. cbn zeta in Hlog. fold x in Hlog.
  pose proof (log_bytes_lines _ Hback) as Hlines.
  destruct (x.1) as [bytes|]; cbn [default from_option] in *.
  - change (id bytes) with bytes in *. rewrite (list_recent_spec e limit bytes He). unfold events_of, cut_off, scanned_part, last_bytes.
    rewrite (proj2 (Z.ltb_ge _ _)) by lia. rewrite Z2Nat.nonpos by lia. cbn [whole_lines str_drop].
    by rewrite Hlog, Hlines.
  - rewrite <- Hlog in Hlines. cbn in Hlines. rewrite <- Hlines. cbn. by rewrite take_nil.
Qed.
End theorems.
