(* ===== verification/VisionTheorems.v ===== *)
(** What is accepted as an event and what is sent of one: no text in it is private;
    what the sanitizer removes; how detections are classified. *)
From Stdlib Require Import Ascii.
From S2P Require Import Prelude RustString Json StringSearch Notifications VisionEvents.
Local Open Scope string_scope.
Local Open Scope list_scope.

(** * Specification *)

(** Every text of a value, keys included. *)
Fixpoint texts (v : jv) : list string :=
  match v with
  | JStr s => [s]
  | JArr l => flat_map texts l
  | JObj l => flat_map (fun kv => kv.1 :: texts kv.2) l
  | _ => []
  end.

(** In no case of its letters does a text contain a needle of the sensitive
    materials or of the local paths, the latter with either slash; nor, lowered,
    does the first URL of a scheme carry a name. *)
Definition public_text (s : string) : Prop :=
  (forall code needle, (code, needle) ∈ SENSITIVE_NEEDLES -> str_contains needle (to_ascii_lowercase s) = false)
  /\ (forall needle, needle ∈ PATH_NEEDLES ->
        str_contains needle (replace_char "\" "/" (to_ascii_lowercase s)) = false)
  /\ looks_like_url_with_credentials (to_ascii_lowercase s) = false.

(** * Checks of values *)

Lemma try_all_ok {A} (f : A -> result string unit) l : try_all f l = Ok tt <-> Forall (fun x => f x = Ok tt) l.
Proof.
  induction l as [|x l IH]; cbn; [by split; [constructor|]|]. rewrite Forall_cons, <- IH.
  destruct (f x) as [[]|]; [naive_solver|]. split; [done|]. by intros [].
Qed.

Lemma Forall_flat_map {A B} (P : B -> Prop) (f : A -> list B) l :
  Forall P (flat_map f l) <-> Forall (fun x => Forall P (f x)) l.
Proof. induction l as [|x l IH]; cbn; [by split; constructor|]. by rewrite Forall_app, Forall_cons, IH. Qed.

Lemma reject_value_ok check v :
  reject_value check v = Ok tt <-> Forall (fun s => check s = Ok tt) (texts v).
Proof.
  induction v as [|b|n|x|s|l IH|l IH] using jv_nested_ind; cbn [reject_value texts];
    [by split; [constructor|]..| | |].
  - by rewrite list.Forall_singleton.
  - rewrite try_all_ok, Forall_flat_map. induction IH as [|x l Hx _ IH]; [by split; constructor|].
    by rewrite !Forall_cons, Hx, IH.
  - rewrite try_all_ok, Forall_flat_map. induction IH as [|x l Hx _ IH]; [by split; constructor|].
    rewrite !Forall_cons, IH. cbn [fst snd]. rewrite <- Hx.
    destruct (check x.1) as [[]|]; [naive_solver|]. split; [by intros []|]. by intros [[] _].
Qed.

Lemma sensitive_text_ok s :
  reject_sensitive_text s = Ok tt <->
  (forall code needle, (code, needle) ∈ SENSITIVE_NEEDLES -> str_contains needle (to_ascii_lowercase s) = false)
  /\ looks_like_url_with_credentials (to_ascii_lowercase s) = false.
Proof.
  unfold reject_sensitive_text. destruct (list_find _ SENSITIVE_NEEDLES) as [[code needle]|] eqn:Hf.
  - apply list_find_some in Hf as [Hin Hc]. split; [done|]. intros [Hall _]. cbn in Hc. by rewrite (Hall _ _ Hin) in Hc.
  - rewrite list_find_none in Hf. destruct (looks_like_url_with_credentials _).
    + split; [done|]. by intros [].
    + split; [|done]. intros _. split; [|done]. intros code needle Hin. by apply (Hf (code, needle)).
Qed.

Lemma local_path_text_ok s :
  reject_local_path_text s = Ok tt <->
  forall needle, needle ∈ PATH_NEEDLES ->
    str_contains needle (replace_char "\" "/" (to_ascii_lowercase s)) = false.
Proof.
  unfold reject_local_path_text, contains_any. destruct (list_any _ _) eqn:Ha.
  - apply list_any_true in Ha as (n & Hin & Hc). split; [done|]. intros Hall. by rewrite (Hall n Hin) in Hc.
  - rewrite list_any_false in Ha. by split.
Qed.

Lemma reject_private_ok v : reject_private_value v = Ok tt <-> Forall public_text (texts v).
Proof.
  unfold reject_private_value, reject_sensitive_value, reject_local_path_value.
  transitivity (reject_value reject_sensitive_text v = Ok tt /\ reject_value reject_local_path_text v = Ok tt).
  { destruct (reject_value reject_sensitive_text v) as [[]|]; [naive_solver|]. split; [done|]. by intros []. }
  rewrite !reject_value_ok, <- Forall_and. apply Forall_iff. intros s.
  rewrite sensitive_text_ok, local_path_text_ok. unfold public_text. naive_solver.
Qed.

(** * The sanitizer *)

(** A needle that the replacement cannot bring in. *)
Definition foreign (m : string) : bool :=
  negb (is_empty m) && lacks "[" m && lacks "]" m && negb (str_contains m "redacted").

Lemma foreign_parts m :
  foreign m = true -> m <> "" /\ lacks "[" m = true /\ lacks "]" m = true /\ str_contains m "redacted" = false.
Proof.
  unfold foreign. rewrite !andb_true_iff, !negb_true_iff. intros [[[He Hl] Hr] Hw]. apply is_empty_false in He. done.
Qed.

Lemma replace_foreign_removes needle s :
  foreign needle = true -> str_contains needle (str_replace needle "[redacted]" s) = false.
Proof. intros (Hne & Hl & Hr & Hw)%foreign_parts. by apply (replace_removes needle _ Hne "redacted"). Qed.

Lemma replace_foreign_keeps needle m s :
  foreign needle = true -> foreign m = true -> str_contains m s = false ->
  str_contains m (str_replace needle "[redacted]" s) = false.
Proof.
  intros (Hn & _)%foreign_parts (Hne & Hl & Hr & Hw)%foreign_parts. by apply (replace_keeps needle _ Hn "redacted").
Qed.

Lemma model_needles_foreign : forallb (fun n => foreign n && foreign (to_ascii_uppercase n)) MODEL_NEEDLES = true.
Proof. reflexivity. Qed.

Lemma redact_needle_keeps m s n :
  foreign n = true -> foreign (to_ascii_uppercase n) = true -> foreign m = true ->
  str_contains m s = false -> str_contains m (redact_needle s n) = false.
Proof. intros. unfold redact_needle. by repeat apply replace_foreign_keeps. Qed.

Lemma redact_needle_removes s n :
  foreign n = true -> foreign (to_ascii_uppercase n) = true ->
  str_contains n (redact_needle s n) = false /\ str_contains (to_ascii_uppercase n) (redact_needle s n) = false.
Proof.
  intros Hn Hu. unfold redact_needle. split; [|by apply replace_foreign_removes].
  apply replace_foreign_keeps; [done..|]. by apply replace_foreign_removes.
Qed.

Lemma redact_all needles s m :
  forallb (fun n => foreign n && foreign (to_ascii_uppercase n)) needles = true -> foreign m = true ->
  (str_contains m s = false \/ m ∈ needles \/ m ∈ (to_ascii_uppercase <$> needles)) ->
  str_contains m (foldl redact_needle s needles) = false.
Proof.
  revert s. induction needles as [|n needles IH]; intros s Hall Hm Hin; cbn [foldl].
  { destruct Hin as [?|[Hin|Hin]]; [done|by apply not_elem_of_nil in Hin..]. }
  cbn in Hall. apply andb_true_iff in Hall as [Hn Hall]. apply andb_true_iff in Hn as [Hn Hu].
  apply IH; [done..|]. destruct (redact_needle_removes s n Hn Hu) as [Hr Hr'].
  rewrite fmap_cons, !elem_of_cons in Hin.
  destruct Hin as [?|[[->|?]|[->|?]]]; auto using redact_needle_keeps.
Qed.

(** Sanitizing the text of a model leaves none of the materials it looks for,
    in small letters or in capitals, and at most five hundred characters. *)
Theorem sanitized_text_clean text n :
  n ∈ MODEL_NEEDLES ->
  str_contains n (sanitize_model_text text) = false
  /\ str_contains (to_ascii_uppercase n) (sanitize_model_text text) = false
  /\ chars_count (sanitize_model_text text) <= 500.
Proof.
  intros Hn. unfold sanitize_model_text. set (s := foldl redact_needle text MODEL_NEEDLES).
  pose proof model_needles_foreign as Hall. pose proof Hall as Hf. rewrite forallb_forall in Hf.
  specialize (Hf n (proj1 (list_elem_of_In _ _) Hn)). apply andb_true_iff in Hf as [Hf Hu].
  assert (forall m, str_contains m s = false -> str_contains m (chars_take 500 s) = false) as Hcut.
  { intros m Hm. apply not_true_iff_false. intros Hc. destruct (chars_take_prefix 500 s) as [r Hr].
    apply not_true_iff_false in Hm. apply Hm. rewrite Hr. by apply str_contains_app_l. }
  split_and!; [apply Hcut, redact_all; auto..|apply chars_count_take].
  right. right. by apply list_elem_of_fmap_2.
Qed.

(** * What is sent *)

Section sent.
Context `{!JsonText} `{!VisionText} `{!Sha256}.

Lemma validate_event_iff e :
  validate_local_vision_event e = Ok tt <->
  is_blank (le_event_id e) = false /\ is_blank (le_camera_id e) = false /\ is_blank (le_event_type e) = false
  /\ in_unit_interval (le_confidence e) = true /\ validate_local_vision_event_size e = Ok tt
  /\ Forall public_text (texts (event_value e)).
Proof.
  rewrite <- reject_private_ok. unfold validate_local_vision_event.
  destruct (is_blank (le_event_id e)); [naive_solver|]. destruct (is_blank (le_camera_id e)); [naive_solver|].
  destruct (is_blank (le_event_type e)); [naive_solver|]. destruct (in_unit_interval _); [|naive_solver].
  cbn [negb]. destruct (validate_local_vision_event_size e) as [[]|]; cbn; naive_solver.
Qed.

Lemma validate_payload_iff e :
  validate_ha_mqtt_payload (build_ha_mqtt_payload e) = Ok tt <->
  le_event_type e ∈ HA_MQTT_EVENT_TYPES /\ Forall public_text (texts (build_ha_mqtt_payload e)).
Proof.
  rewrite <- reject_private_ok, <- str_in_true. unfold validate_ha_mqtt_payload.
  change (jv_get (build_ha_mqtt_payload e) "event_type") with (Some (JStr (le_event_type e))). cbn [mbind option_bind jv_str].
  destruct (str_in (le_event_type e) HA_MQTT_EVENT_TYPES); cbn -[reject_private_value build_ha_mqtt_payload]; naive_solver.
Qed.
(** Home Assistant is sent an event exactly when it is acceptable, of one of
    four types, and public in every text of the payload; what it is sent is the ten
    fields of the contract. *)
Theorem ha_contract_iff stored c :
  build_local_vision_ha_mqtt_contract stored = Ok c <->
  validate_local_vision_event (se_event stored) = Ok tt
  /\ le_event_type (se_event stored) ∈ HA_MQTT_EVENT_TYPES
  /\ Forall public_text (texts (hc_payload c))
  /\ hc_payload c = build_ha_mqtt_payload (se_event stored)
  /\ hc_audit_record c = build_local_vision_ha_mqtt_audit stored (hc_payload c)
  /\ (default [] (jv_entries (hc_payload c))).*1 ≡ₚ HA_MQTT_FIELDS.
Proof.
  unfold build_local_vision_ha_mqtt_contract. pose proof (validate_payload_iff (se_event stored)) as Hp.
  assert ((default [] (jv_entries (build_ha_mqtt_payload (se_event stored)))).*1 ≡ₚ HA_MQTT_FIELDS) as Hk.
  { apply NoDup_Permutation; [..|intros x]; [|unfold HA_MQTT_FIELDS|cbn; unfold HA_MQTT_FIELDS; set_solver];
      apply (bool_decide_unpack _); reflexivity. }
  destruct (validate_local_vision_event (se_event stored)) as [[]|]; cbn [mbind result_bind]; [|naive_solver].
  destruct (validate_ha_mqtt_payload _) as [[]|]; cbn [mbind result_bind]; split.
  - intros [= <-]. destruct (proj1 Hp eq_refl) as [Ht Hf]. by split_and!.
  - intros (_ & _ & _ & Hc & Ha & _). destruct c as [p a]. cbn in Hc, Ha. by subst.
  - done.
  - intros (_ & Ht & Hf & Hc & _). rewrite Hc in Hf. by destruct Hp as [_ Hp]; discriminate Hp.
Qed.

(** C36. Nothing private is accepted, sent or shown: every text, keys included, of an
    accepted event, of a payload for Home Assistant, of a notification and of a
    summary for the family is public; and a notification carries no attachment. *)
Theorem sent_texts_public stored :
  (validate_local_vision_event (se_event stored) = Ok tt ->
     Forall public_text (texts (event_value (se_event stored))))
  /\ (forall c, build_local_vision_ha_mqtt_contract stored = Ok c -> Forall public_text (texts (hc_payload c)))
  /\ (forall route_key i, build_local_vision_notification_intent stored route_key = Ok i ->
        let r := li_notification_request i in
        Forall public_text (texts (notification_request_value r)) /\ nc_attachments (nr_content r) = [])
  /\ (forall now f, build_local_vision_family_summary now stored = Ok f ->
        Forall public_text (texts (family_summary_value (lf_summary f)))).
Proof.
  split_and!.
  - intros (_ & _ & _ & _ & _ & Hp)%validate_event_iff. exact Hp.
  - intros c. unfold build_local_vision_ha_mqtt_contract.
    destruct (validate_local_vision_event _); [|done]. cbn [mbind result_bind].
    destruct (validate_ha_mqtt_payload _) as [[]|] eqn:Hp; [|done]. intros [= <-].
    by apply validate_payload_iff in Hp as [_ Hp].
  - intros route_key i. unfold build_local_vision_notification_intent, build_local_vision_notification_request.
    destruct (validate_local_vision_event _); [|done]. cbn [mbind result_bind].
    destruct (is_empty (trim route_key)); [done|].
    destruct (validate_local_vision_notification_request _) as [[]|] eqn:Hr; [|done]. intros [= <-].
    split; [|done]. by apply reject_private_ok.
  - intros now f. unfold build_local_vision_family_summary.
    destruct (validate_local_vision_event _); [|done]. cbn [mbind result_bind].
    destruct (local_vision_family_summary_text _); [|done]. cbn [mbind result_bind].
    set (summary := Build_FamilyEventSummary _ _ _ _ _ _ _ _ _ _).
    destruct (validate_family_event_summary summary) as [[]|] eqn:Hs; [|done]. intros [= <-].
    cbn [lf_summary]. apply reject_private_ok. revert Hs. unfold validate_family_event_summary.
    repeat (case_match; [done|]). done.
Qed.
End sent.
