(* ===== verification/FamilyTimeline.v ===== *)
(** The family's timeline of local vision events, [src/runtime/family_timeline.rs]:
    the events of a window, by camera, and their digest. The clock is read where the
    code reads it. A [BTreeMap] with string keys is the list of its entries in the
    order of their keys. The theorems follow: the timeline is the newest of the events
    asked for, its buckets part it by camera, and what is counted is what there is. *)
From Stdlib Require Import Sorting.Sorted.
From S2P Require Import Prelude RustString Json VisionEvents.
Local Open Scope string_scope.
Local Open Scope list_scope.

Section btree.
Context {V : Type}.

Fixpoint btree_get (k : string) (m : list (string * V)) : option V :=
  match m with
  | [] => None
  | (k', v) :: m => if k' =? k then Some v else btree_get k m
  end.

(** [entry], and a change of the value it yields. *)
Fixpoint btree_update (k : string) (f : option V -> V) (m : list (string * V)) : list (string * V) :=
  match m with
  | [] => [(k, f None)]
  | (k', v) :: rest =>
      match String.compare k k' with
      | Lt => (k, f None) :: m
      | Eq => (k, f (Some v)) :: rest
      | Gt => (k', v) :: btree_update k f rest
      end
  end.

Definition below (x y : string * V) : Prop := String.compare x.1 y.1 = Lt.
Definition btree_sorted (m : list (string * V)) : Prop := StronglySorted below m.

Lemma below_trans x y z : below x y -> below y z -> below x z.
Proof. apply string_compare_lt_trans. Qed.

Lemma below_neq x y : below x y -> x.1 <> y.1.
Proof. unfold below. intros H E. by rewrite E, (cmp_refl String.compare) in H. Qed.

Lemma elem_of_btree_update k f m x : x ∈ btree_update k f m -> x.1 = k \/ x ∈ m.
Proof.
  induction m as [|[k' v] m IH]; cbn; [intros ->%list_elem_of_singleton; by left|].
  destruct (String.compare k k'); rewrite !elem_of_cons; [naive_solver..|]. intros [->|Hx]; [by right; left|].
  destruct (IH Hx); [by left|by right; right].
Qed.

Lemma btree_update_sorted k f m : btree_sorted m -> btree_sorted (btree_update k f m).
Proof.
  unfold btree_sorted. induction 1 as [|[k' v] m Hm IH Hk]; cbn; [by repeat constructor|].
  destruct (String.compare k k') eqn:E.
  - apply String.compare_eq_iff in E as ->. by constructor.
  - constructor; [by constructor|]. constructor; [done|]. eapply Forall_impl; [exact Hk|].
    intros x. by apply (below_trans (k, f None) (k', v)).
  - constructor; [done|]. rewrite Forall_forall in Hk |- *. intros x [Hx|Hx]%elem_of_btree_update; [|by apply Hk].
    unfold below. cbn. by rewrite Hx, String.compare_antisym, E.
Qed.

Lemma btree_get_elem k v m : btree_get k m = Some v -> (k, v) ∈ m.
Proof.
  induction m as [|[k' v'] m IH]; cbn; [done|]. destruct (String.eqb_spec k' k) as [->|].
  - intros [= ->]. left.
  - intros Hg. right. by apply IH.
Qed.

Lemma btree_elem_get k v m : btree_sorted m -> (k, v) ∈ m -> btree_get k m = Some v.
Proof.
  induction 1 as [|[k' v'] m Hm IH Hk]; [by intros ?%not_elem_of_nil|]. cbn.
  intros [[= -> ->]|Hin]%elem_of_cons; [by rewrite String.eqb_refl|].
  rewrite Forall_forall in Hk. specialize (Hk _ Hin). apply below_neq in Hk. cbn in Hk.
  destruct (String.eqb_spec k' k); [done|]. by apply IH.
Qed.

Lemma btree_get_below k m : Forall (fun x => String.compare k x.1 = Lt) m -> btree_get k m = None.
Proof.
  intros Hm. destruct (btree_get k m) as [v|] eqn:E; [|done]. apply btree_get_elem in E.
  rewrite Forall_forall in Hm. specialize (Hm _ E). cbn in Hm. by rewrite (cmp_refl String.compare) in Hm.
Qed.

Lemma btree_get_update k f m k' :
  btree_sorted m -> btree_get k' (btree_update k f m) = if k =? k' then Some (f (btree_get k m)) else btree_get k' m.
Proof.
  induction 1 as [|[k1 v] m Hm IH Hk]; cbn; [done|].
  destruct (String.compare k k1) eqn:E; cbn.
  - apply String.compare_eq_iff in E as ->. rewrite String.eqb_refl. by destruct (k1 =? k').
  - destruct (String.eqb_spec k k'); [|done]. f_equal. f_equal. symmetry.
    destruct (String.eqb_spec k1 k) as [->|]; [by rewrite (cmp_refl String.compare) in E|].
    apply btree_get_below. eapply Forall_impl; [exact Hk|]. intros x Hx.
    by apply (string_compare_lt_trans k k1 x.1).
  - destruct (String.eqb_spec k1 k) as [->|]; [by rewrite (cmp_refl String.compare) in E|]. rewrite IH.
    destruct (String.eqb_spec k1 k') as [->|]; [|done]. by destruct (String.eqb_spec k k').
Qed.

Lemma btree_keys_nodup m : btree_sorted m -> NoDup m.*1.
Proof.
  induction 1 as [|x m Hm IH Hk]; [constructor|]. cbn. constructor; [|done].
  intros (y & E & Hy)%list_elem_of_fmap. rewrite Forall_forall in Hk. by apply (below_neq x y (Hk _ Hy)).
Qed.
End btree.

Local Open Scope rust_scope.

(** * Data *)

Record FamilyTimelineArtifactMetadata := {
  ta_artifact_id : option string;
  ta_mime_type : option string;
  ta_byte_size : option Z;
  ta_sha256_present : bool;
  ta_local_path_redacted : bool;
  ta_raw_image_included : bool
}.

Record FamilyTimelineEvent := {
  te_event_id : string;
  te_camera_id : string;
  te_event_type : string;
  te_summary : string;
  te_confidence : spec_float;
  te_labels : list string;
  te_started_at : string;
  te_received_at : string;
  te_latency_ms : Z;
  te_vlm_status : string;
  te_artifact : FamilyTimelineArtifactMetadata
}.

Record FamilyTimelineBucket := {
  tb_bucket_id : string;
  tb_camera_id : string;
  tb_started_at : string;
  tb_ended_at : string;
  tb_event_count : nat;
  tb_event_types : list string;
  tb_top_labels : list string;
  tb_event_ids : list string
}.

Record FamilyTimelineResponse := {
  tr_generated_at : string;
  tr_window_seconds : Z;
  tr_event_count : nat;
  tr_metadata_only : bool;
  tr_buckets : list FamilyTimelineBucket;
  tr_events : list FamilyTimelineEvent
}.

Record FamilyTimelineVlmCoverage := {
  cov_total : Z;
  cov_active : Z;
  cov_degraded : Z;
  cov_not_sampled : Z
}.

Record FamilyTimelineDigest := {
  td_generated_at : string;
  td_status : string;
  td_window_seconds : Z;
  td_event_count : nat;
  td_headline : string;
  td_bullets : list string;
  td_top_labels : list string;
  td_cameras : list string;
  td_latest_event_id : option string;
  td_metadata_only : bool;
  td_secret_scan : string;
  td_vlm_coverage : FamilyTimelineVlmCoverage
}.

Record FamilyTimelineQueryOptions := {
  qo_window_seconds : Z;
  qo_camera_filter : option string;
  qo_label_filter : option string;
  qo_limit : nat
}.

(** * JSON *)

(** [skip_serializing_if = "Option::is_none"] *)
Definition some_field {A} (name : string) (f : A -> jv) (o : option A) : list (string * jv) :=
  match o with Some x => [(name, f x)] | None => [] end.

Definition json_count (n : nat) : jv := JNum (Z.of_nat n).

Definition artifact_metadata_value (a : FamilyTimelineArtifactMetadata) : jv :=
  json_object (some_field "artifact_id" JStr (ta_artifact_id a) ++ some_field "mime_type" JStr (ta_mime_type a)
               ++ some_field "byte_size" JNum (ta_byte_size a)
               ++ [("sha256_present", JBool (ta_sha256_present a));
                   ("local_path_redacted", JBool (ta_local_path_redacted a));
                   ("raw_image_included", JBool (ta_raw_image_included a))]).

Definition timeline_event_fields (e : FamilyTimelineEvent) : list (string * jv) :=
  [("event_id", JStr (te_event_id e)); ("camera_id", JStr (te_camera_id e));
   ("event_type", JStr (te_event_type e)); ("summary", JStr (te_summary e));
   ("confidence", json_f32 (te_confidence e)); ("labels", json_strings (te_labels e));
   ("started_at", JStr (te_started_at e)); ("received_at", JStr (te_received_at e));
   ("latency_ms", JNum (te_latency_ms e)); ("vlm_status", JStr (te_vlm_status e));
   ("artifact", artifact_metadata_value (te_artifact e))].

Definition timeline_event_value (e : FamilyTimelineEvent) : jv := json_object (timeline_event_fields e).

Definition bucket_value (b : FamilyTimelineBucket) : jv :=
  json_object [("bucket_id", JStr (tb_bucket_id b)); ("camera_id", JStr (tb_camera_id b));
               ("started_at", JStr (tb_started_at b)); ("ended_at", JStr (tb_ended_at b));
               ("event_count", json_count (tb_event_count b)); ("event_types", json_strings (tb_event_types b));
               ("top_labels", json_strings (tb_top_labels b)); ("event_ids", json_strings (tb_event_ids b))].

Definition timeline_response_value (r : FamilyTimelineResponse) : jv :=
  json_object [("generated_at", JStr (tr_generated_at r)); ("window_seconds", JNum (tr_window_seconds r));
               ("event_count", json_count (tr_event_count r)); ("metadata_only", JBool (tr_metadata_only r));
               ("buckets", JArr (bucket_value <$> tr_buckets r));
               ("events", JArr (timeline_event_value <$> tr_events r))].

Definition vlm_coverage_value (c : FamilyTimelineVlmCoverage) : jv :=
  json_object [("total", JNum (cov_total c)); ("active", JNum (cov_active c));
               ("degraded", JNum (cov_degraded c)); ("not_sampled", JNum (cov_not_sampled c))].

Definition digest_value (d : FamilyTimelineDigest) : jv :=
  json_object ([("generated_at", JStr (td_generated_at d)); ("status", JStr (td_status d));
                ("window_seconds", JNum (td_window_seconds d)); ("event_count", json_count (td_event_count d));
                ("headline", JStr (td_headline d)); ("bullets", json_strings (td_bullets d));
                ("top_labels", json_strings (td_top_labels d)); ("cameras", json_strings (td_cameras d))]
               ++ some_field "latest_event_id" JStr (td_latest_event_id d)
               ++ [("metadata_only", JBool (td_metadata_only d)); ("secret_scan", JStr (td_secret_scan d));
                   ("vlm_coverage", vlm_coverage_value (td_vlm_coverage d))]).

(** * Queries *)

Definition normalize_optional_filter (value : option string) : option string := value ≫= non_blank.

(** [FamilyTimelineQueryOptions::new] *)
Definition query_options (window_seconds : Z) (camera_filter label_filter : option string) (limit : nat)
  : FamilyTimelineQueryOptions :=
  {| qo_window_seconds := z_clamp window_seconds 60 (7 * 24 * 60 * 60);
     qo_camera_filter := normalize_optional_filter camera_filter;
     qo_label_filter := normalize_optional_filter label_filter;
     qo_limit := Nat.min (Nat.max limit 1) 100 |}.

Definition default_query_options : FamilyTimelineQueryOptions :=
  {| qo_window_seconds := 24 * 60 * 60; qo_camera_filter := None; qo_label_filter := None; qo_limit := 50 |}.

Definition same_lowered (a b : string) : bool := to_ascii_lowercase a =? to_ascii_lowercase b.

(** A filter by camera and a filter by label or type, where there are such. *)
Definition matches_filters (options : FamilyTimelineQueryOptions) (camera_id event_type : string)
    (labels : list string) : bool :=
  match qo_camera_filter options with Some c => same_lowered camera_id c | None => true end
  && match qo_label_filter options with
     | Some l => list_any (fun label => same_lowered label l) labels || same_lowered event_type l
     | None => true
     end.

(** The time of an event, if there is one, is not before the window. *)
Definition in_window (now : Z) (options : FamilyTimelineQueryOptions) (s : StoredLocalVisionEvent) : bool :=
  let window_seconds := Z.max (qo_window_seconds options) 1 in
  let cutoff_ms := Z.max 0 (now - u64_saturating_mul window_seconds 1000) in
  match parse_epoch_ms (le_started_at (se_event s)), parse_epoch_ms (se_received_at s) with
  | Some timestamp, _ | None, Some timestamp => (cutoff_ms <=? timestamp)%Z
  | None, None => true
  end.

Definition selected (now : Z) (options : FamilyTimelineQueryOptions) (s : StoredLocalVisionEvent) : bool :=
  let event := se_event s in
  matches_filters options (le_camera_id event) (le_event_type event) (le_labels event) && in_window now options s.

Definition family_timeline_event (s : StoredLocalVisionEvent) : FamilyTimelineEvent :=
  let event := se_event s in
  let artifact := le_snapshot_artifact event in
  {| te_event_id := le_event_id event; te_camera_id := le_camera_id event; te_event_type := le_event_type event;
     te_summary := local_vision_automation_summary event; te_confidence := le_confidence event;
     te_labels := le_labels event; te_started_at := le_started_at event; te_received_at := se_received_at s;
     te_latency_ms := le_latency_ms event; te_vlm_status := local_vision_vlm_status event;
     te_artifact := {| ta_artifact_id := sa_artifact_id artifact; ta_mime_type := sa_mime_type artifact;
                       ta_byte_size := sa_byte_size artifact; ta_sha256_present := is_some (sa_sha256 artifact);
                       ta_local_path_redacted := true; ta_raw_image_included := false |} |}.

(** * Counting and grouping *)

(** One more of a normalized text, unless it is blank. *)
Definition count_string (counts : list (string * nat)) (value : string) : list (string * nat) :=
  let normalized := to_ascii_lowercase (trim value) in
  if is_empty normalized then counts else btree_update normalized (fun n => S (default 0 n)) counts.

(** By falling count, then by text. *)
Definition more_often (left right : string * nat) : comparison :=
  then_with (Nat.compare right.2 left.2) (String.compare left.1 right.1).

Definition counted_strings (values : list string) (limit : nat) : list string :=
  (take (Nat.max limit 1) (sort_by more_often (foldl count_string [] values))).*1.

Definition started_ms (e : FamilyTimelineEvent) : Z := default 0%Z (parse_epoch_ms (te_started_at e)).

(** Newest first. *)
Definition newer_event (left right : FamilyTimelineEvent) : comparison :=
  then_with (Z.compare (started_ms right) (started_ms left))
    (String.compare (te_event_id right) (te_event_id left)).

Definition earlier_event (left right : FamilyTimelineEvent) : comparison :=
  Z.compare (started_ms left) (started_ms right).

Definition group_by_camera (events : list FamilyTimelineEvent) : list (string * list FamilyTimelineEvent) :=
  foldl (fun m e => btree_update (te_camera_id e) (fun l => default [] l ++ [e]) m) [] events.

Definition timeline_bucket (group : string * list FamilyTimelineEvent) : FamilyTimelineBucket :=
  let events := sort_by earlier_event group.2 in
  let started_at := default "" (te_started_at <$> head events) in
  {| tb_bucket_id := "family_timeline_" +:+ group.1; tb_camera_id := group.1; tb_started_at := started_at;
     tb_ended_at := default started_at (te_started_at <$> last events);
     tb_event_count := length events;
     tb_event_types := counted_strings (te_event_type <$> events) 6;
     tb_top_labels := counted_strings (flat_map te_labels events) 8;
     tb_event_ids := te_event_id <$> events |}.

Definition ended_ms (b : FamilyTimelineBucket) : Z := default 0%Z (parse_epoch_ms (tb_ended_at b)).

Definition newer_bucket (left right : FamilyTimelineBucket) : comparison :=
  then_with (Z.compare (ended_ms right) (ended_ms left))
    (Nat.compare (tb_event_count right) (tb_event_count left)).

Definition build_family_timeline_buckets (events : list FamilyTimelineEvent) : list FamilyTimelineBucket :=
  sort_by newer_bucket (timeline_bucket <$> group_by_camera events).

Definition ACTIVE_STATUSES : list string := ["active"; "completed"; "ready"].
Definition NOT_SAMPLED_STATUSES : list string :=
  [""; "not_sampled"; "not-sampled"; "none"; "not_available"; "unavailable"].

Definition cover (c : FamilyTimelineVlmCoverage) (e : FamilyTimelineEvent) : FamilyTimelineVlmCoverage :=
  let status := to_ascii_lowercase (trim (te_vlm_status e)) in
  if str_in status ACTIVE_STATUSES then
    {| cov_total := cov_total c; cov_active := u64_saturating_add (cov_active c) 1;
       cov_degraded := cov_degraded c; cov_not_sampled := cov_not_sampled c |}
  else if str_in status NOT_SAMPLED_STATUSES then
    {| cov_total := cov_total c; cov_active := cov_active c; cov_degraded := cov_degraded c;
       cov_not_sampled := u64_saturating_add (cov_not_sampled c) 1 |}
  else
    {| cov_total := cov_total c; cov_active := cov_active c;
       cov_degraded := u64_saturating_add (cov_degraded c) 1; cov_not_sampled := cov_not_sampled c |}.

Definition family_timeline_vlm_coverage (events : list FamilyTimelineEvent) : FamilyTimelineVlmCoverage :=
  foldl cover {| cov_total := Z.of_nat (length events); cov_active := 0; cov_degraded := 0;
                 cov_not_sampled := 0 |} events.

(** * The timeline and its digest *)

Definition validate_family_timeline_response (r : FamilyTimelineResponse) : result string unit :=
  reject_private_value (timeline_response_value r).

Definition validate_family_timeline_digest (d : FamilyTimelineDigest) : result string unit :=
  reject_private_value (digest_value d).

Definition timeline_events (now : Z) (events : list StoredLocalVisionEvent) (options : FamilyTimelineQueryOptions)
  : list FamilyTimelineEvent :=
  take (Nat.min (Nat.max (qo_limit options) 1) 100)
    (sort_by newer_event (family_timeline_event <$> List.filter (selected now options) events)).

Definition build_family_timeline_from_query (now generated : Z) (events : list StoredLocalVisionEvent)
    (options : FamilyTimelineQueryOptions) : result string FamilyTimelineResponse :=
  let timeline_events := timeline_events now events options in
  let response :=
    {| tr_generated_at := now_epoch_ms_string generated; tr_window_seconds := Z.max (qo_window_seconds options) 1;
       tr_event_count := length timeline_events; tr_metadata_only := true;
       tr_buckets := build_family_timeline_buckets timeline_events; tr_events := timeline_events |} in
  _ <-? validate_family_timeline_response response;
  Ok response.

Definition build_family_timeline (now generated : Z) (events : list StoredLocalVisionEvent) (window_seconds : Z)
    (camera_filter label_filter : option string) (limit : nat) : result string FamilyTimelineResponse :=
  build_family_timeline_from_query now generated events
    (query_options window_seconds camera_filter label_filter limit).

Definition family_timeline_window_label (window_seconds : Z) : string :=
  if (window_seconds mod (24 * 60 * 60) =? 0)%Z then
    let days := (window_seconds / (24 * 60 * 60))%Z in
    if (days =? 1)%Z then "24 小时" else show_Z days +:+ " 天"
  else if (window_seconds mod (60 * 60) =? 0)%Z then show_Z (window_seconds / (60 * 60)) +:+ " 小时"
  else if (window_seconds mod 60 =? 0)%Z then show_Z (window_seconds / 60) +:+ " 分钟"
  else show_Z window_seconds +:+ " 秒".

Definition bucket_bullet (b : FamilyTimelineBucket) : string :=
  let label_text := match tb_top_labels b with [] => "无主要标签" | labels => join ", " labels end in
  tb_camera_id b +:+ ": " +:+ show_nat (tb_event_count b) +:+ " 条事件，主要标签 " +:+ label_text +:+ "。".

Definition digest_of (generated : Z) (timeline : FamilyTimelineResponse) : FamilyTimelineDigest :=
  let events := tr_events timeline in
  let cameras := counted_strings (te_camera_id <$> events) 5 in
  let window_label := family_timeline_window_label (tr_window_seconds timeline) in
  let quiet := (tr_event_count timeline =? 0)%nat in
  let bullets := match bucket_bullet <$> take 5 (tr_buckets timeline) with
                 | [] => ["暂无可汇总事件。"]
                 | bullets => bullets
                 end in
  let c := family_timeline_vlm_coverage events in
  {| td_generated_at := now_epoch_ms_string generated; td_status := if quiet then "quiet" else "available";
     td_window_seconds := tr_window_seconds timeline; td_event_count := tr_event_count timeline;
     td_headline :=
       if quiet then "最近 " +:+ window_label +:+ " 没有可用的家庭视觉事件。"
       else "最近 " +:+ window_label +:+ " 记录到 " +:+ show_nat (tr_event_count timeline)
            +:+ " 条家庭视觉事件，覆盖 " +:+ show_nat (Nat.max (length cameras) 1) +:+ " 个摄像头。";
     td_bullets :=
       bullets
       ++ if (0 <? cov_active c)%Z || (0 <? cov_degraded c)%Z
          then ["VLM 覆盖：" +:+ show_Z (cov_active c) +:+ " 条 active，" +:+ show_Z (cov_degraded c)
                +:+ " 条 degraded，" +:+ show_Z (cov_not_sampled c) +:+ " 条未抽样。"]
          else [];
     td_top_labels := counted_strings (flat_map te_labels events) 8; td_cameras := cameras;
     td_latest_event_id := te_event_id <$> head events; td_metadata_only := true; td_secret_scan := "clean";
     td_vlm_coverage := c |}.

(** [digested] is the clock when the digest is made. *)
Definition build_family_timeline_digest_from_query (now generated digested : Z)
    (events : list StoredLocalVisionEvent) (options : FamilyTimelineQueryOptions)
  : result string FamilyTimelineDigest :=
  timeline <-? build_family_timeline_from_query now generated events options;
  let digest := digest_of digested timeline in
  _ <-? validate_family_timeline_digest digest;
  Ok digest.

Definition build_family_timeline_digest (now generated digested : Z) (events : list StoredLocalVisionEvent)
    (window_seconds : Z) : result string FamilyTimelineDigest :=
  build_family_timeline_digest_from_query now generated digested events
    (query_options window_seconds None None 50).

#[local] Instance total_newer_event : TotalCmp newer_event.
Proof. unfold newer_event. total_cmp. Qed.
#[local] Instance total_more_often : TotalCmp more_often.
Proof. unfold more_often. total_cmp. Qed.

(** * Specification *)

Definition of_camera (camera : string) (e : FamilyTimelineEvent) : bool := te_camera_id e =? camera.

(** How often a text comes up, in any case of its letters. *)
Definition occurrences (v : string) (values : list string) : nat :=
  count_if (fun x => to_ascii_lowercase (trim x) =? v) values.

(** * Counting *)

Lemma foldl_sorted {A V} (step : list (string * V) -> A -> list (string * V)) l m :
  (forall m x, btree_sorted m -> btree_sorted (step m x)) -> btree_sorted m -> btree_sorted (foldl step m l).
Proof. intros Hstep. revert m. induction l as [|x l IH]; intros m Hm; [done|]. cbn. by apply IH, Hstep. Qed.

Lemma count_string_sorted m x : btree_sorted m -> btree_sorted (count_string m x).
Proof. intros Hm. unfold count_string. destruct (is_empty _); [done|]. by apply btree_update_sorted. Qed.

Lemma counts_get v values m :
  btree_sorted m -> v <> "" ->
  btree_get v (foldl count_string m values)
  = match btree_get v m, occurrences v values with
    | None, O => None
    | n, k => Some (k + default 0 n)
    end.
Proof.
  intros Hm Hv. revert m Hm. induction values as [|x values IH]; intros m Hm; cbn [foldl].
  { unfold occurrences. cbn. by destruct (btree_get v m). }
  rewrite IH by (by apply count_string_sorted). unfold occurrences. rewrite count_if_cons. unfold count_string.
  set (t := to_ascii_lowercase (trim x)). destruct (is_empty t) eqn:He.
  - apply is_empty_true in He. rewrite He. destruct (String.eqb_spec "" v) as [<-|]; [done|]. done.
  - rewrite btree_get_update by done. destruct (String.eqb_spec t v) as [->|]; [|done]. cbn.
    set (k := count_if _ values). destruct (btree_get v m) as [n|]; cbn; [f_equal; lia|f_equal; lia].
Qed.

Lemma counts_keys v n values m :
  Forall (fun kv => kv.1 <> "") m -> (v, n) ∈ foldl count_string m values -> v <> "".
Proof.
  revert m. induction values as [|x values IH]; intros m Hm; cbn [foldl].
  { rewrite Forall_forall in Hm. by intros Hv%Hm. }
  apply IH. unfold count_string. destruct (is_empty _) eqn:He; [done|]. apply is_empty_false in He.
  rewrite Forall_forall in Hm |- *. intros kv [->|Hkv]%elem_of_btree_update; [done|by apply Hm].
Qed.

(** Counting texts gives the most frequent of them: all that come up, lowered and
    trimmed, once each, by falling frequency and then in their order, cut to the
    limit. *)
Theorem counted_strings_most_frequent values limit :
  exists counts : list (string * nat),
    counted_strings values limit = (take (Nat.max limit 1) counts).*1
    /\ StronglySorted (cmp_le more_often) counts
    /\ NoDup counts.*1
    /\ forall v n, (v, n) ∈ counts <-> v <> "" /\ n = occurrences v values /\ 0 < n.
Proof.
  exists (sort_by more_often (foldl count_string [] values)).
  assert (btree_sorted (foldl count_string [] values)) as Hs.
  { apply foldl_sorted; [apply count_string_sorted|constructor]. }
  split_and!; [done|apply (sort_by_sorted _)|rewrite (sort_by_perm more_often); by apply btree_keys_nodup|].
  intros v n. rewrite elem_of_sort_by. split.
  - intros Hin. pose proof (counts_keys v n values [] (List.Forall_nil _) Hin) as Hv. split; [done|].
    apply btree_elem_get in Hin; [|done]. rewrite counts_get in Hin; [|constructor|done]. cbn in Hin.
    destruct (occurrences v values) as [|k]; [done|]. injection Hin as <-. cbn. lia.
  - intros (Hv & -> & Hn). apply btree_get_elem. rewrite counts_get; [|constructor|done]. cbn.
    destruct (occurrences v values); [lia|]. f_equal. cbn. lia.
Qed.

(** * Buckets *)

Lemma group_step_sorted m e :
  btree_sorted m -> btree_sorted (btree_update (te_camera_id e) (fun l => default [] l ++ [e]) m).
Proof. apply btree_update_sorted. Qed.

Lemma groups_sorted events : btree_sorted (group_by_camera events).
Proof. apply foldl_sorted; [intros; by apply group_step_sorted|constructor]. Qed.

Lemma groups_get c events :
  btree_get c (group_by_camera events)
  = match List.filter (of_camera c) events with [] => None | l => Some l end.
Proof.
  unfold group_by_camera. revert c. induction events as [|e events IH] using rev_ind; intros c; [done|].
  rewrite foldl_app, List.filter_app. cbn [foldl].
  rewrite btree_get_update by (apply groups_sorted). rewrite !IH. cbn [List.filter]. unfold of_camera at 2 4.
  destruct (String.eqb_spec (te_camera_id e) c) as [->|]; [|by rewrite app_nil_r].
  by destruct (List.filter (of_camera c) events).
Qed.

Lemma groups_elem c l events :
  (c, l) ∈ group_by_camera events -> l = List.filter (of_camera c) events.
Proof.
  intros Hin. apply btree_elem_get in Hin; [|apply groups_sorted]. rewrite groups_get in Hin.
  destruct (List.filter (of_camera c) events); [done|]. by injection Hin as <-.
Qed.

Lemma update_flat e m :
  flat_map snd (btree_update (te_camera_id e) (fun l => default [] l ++ [e]) m) ≡ₚ e :: flat_map snd m.
Proof.
  induction m as [|[c l] m IH]; [done|]. cbn. destruct (String.compare _ c); cbn; [|done|].
  - rewrite <- app_assoc. cbn. by rewrite Permutation_middle.
  - rewrite IH. by rewrite Permutation_middle.
Qed.

Lemma groups_flat events : flat_map snd (group_by_camera events) ≡ₚ events.
Proof.
  unfold group_by_camera. induction events as [|e events IH] using rev_ind; [done|].
  rewrite foldl_app. cbn [foldl]. rewrite update_flat, IH. by rewrite Permutation_app_comm.
Qed.

Lemma bucket_cameras events :
  tb_camera_id <$> (timeline_bucket <$> group_by_camera events) = (group_by_camera events).*1.
Proof. rewrite <- list_fmap_compose. by apply list_fmap_ext. Qed.

Lemma bucket_ids g : tb_event_ids (timeline_bucket g) ≡ₚ te_event_id <$> g.2.
Proof. cbn. by rewrite sort_by_perm. Qed.

Lemma buckets_flat gs :
  flat_map tb_event_ids (timeline_bucket <$> gs) ≡ₚ te_event_id <$> flat_map snd gs.
Proof.
  induction gs as [|g gs IH]; [done|]. cbn [flat_map fmap list_fmap]. by rewrite fmap_app, IH, bucket_ids.
Qed.

Global Instance flat_map_perm {A B} (f : A -> list B) : Proper ((≡ₚ) ==> (≡ₚ)) (flat_map f).
Proof.
  intros l l' Hp. induction Hp as [|x l l' _ IH|x y l|l l' l'' _ IH _ IH']; cbn;
    [done|by rewrite IH| |by rewrite IH].
  by rewrite !app_assoc, (Permutation_app_comm (f y)).
Qed.

(** A timeline shows the newest of the events asked for, newest first, up to the
    limit; its buckets have a camera each, and their events are those of the camera,
    so that every event shown is in one bucket. *)
Theorem timeline_shows_newest now generated events options r :
  build_family_timeline_from_query now generated events options = Ok r ->
  (exists older,
     tr_events r ++ older ≡ₚ family_timeline_event <$> List.filter (selected now options) events
     /\ StronglySorted (cmp_le newer_event) (tr_events r ++ older)
     /\ (older = [] \/ length (tr_events r) = Nat.min (Nat.max (qo_limit options) 1) 100))
  /\ tr_event_count r = length (tr_events r) /\ length (tr_events r) <= 100
  /\ NoDup (tb_camera_id <$> tr_buckets r)
  /\ (forall b, b ∈ tr_buckets r ->
        tb_event_count b = length (tb_event_ids b)
        /\ tb_event_ids b ≡ₚ te_event_id <$> List.filter (of_camera (tb_camera_id b)) (tr_events r))
  /\ flat_map tb_event_ids (tr_buckets r) ≡ₚ te_event_id <$> tr_events r.
Proof.
  unfold build_family_timeline_from_query. set (response := Build_FamilyTimelineResponse _ _ _ _ _ _).
  destruct (validate_family_timeline_response response) as [[]|]; [|done]. intros [= <-]. cbn [tr_events tr_event_count tr_buckets response].
  set (shown := timeline_events now events options). unfold build_family_timeline_buckets.
  split_and!.
  - unfold shown, timeline_events. set (n := Nat.min _ 100). set (l := sort_by newer_event _). exists (drop n l).
    rewrite take_drop. split_and!; [apply sort_by_perm|apply (sort_by_sorted _)|].
    destruct (decide (length l <= n)); [left; by apply drop_ge|right; apply length_take_le; lia].
  - done.
  - unfold shown, timeline_events. rewrite length_take. lia.
  - rewrite sort_by_perm, bucket_cameras. apply btree_keys_nodup, groups_sorted.
  - intros b. rewrite elem_of_sort_by. intros ([c l] & -> & Hin)%list_elem_of_fmap. apply groups_elem in Hin as ->.
    split; [cbn; by rewrite length_fmap|]. apply bucket_ids.
  - rewrite sort_by_perm, buckets_flat. by rewrite groups_flat.
Qed.

(** Every event is covered in one of three ways. *)
Theorem coverage_adds_up events :
  (Z.of_nat (length events) <= u64_max)%Z ->
  let c := family_timeline_vlm_coverage events in
  cov_total c = Z.of_nat (length events) /\ (cov_active c + cov_degraded c + cov_not_sampled c)%Z = cov_total c.
Proof.
  intros Hlen. unfold family_timeline_vlm_coverage.
  assert (forall l c, (0 <= cov_active c)%Z -> (0 <= cov_degraded c)%Z -> (0 <= cov_not_sampled c)%Z ->
    (cov_active c + cov_degraded c + cov_not_sampled c + Z.of_nat (length l) <= u64_max)%Z ->
    let c' := foldl cover c l in
    cov_total c' = cov_total c
    /\ (cov_active c' + cov_degraded c' + cov_not_sampled c'
        = cov_active c + cov_degraded c + cov_not_sampled c + Z.of_nat (length l))%Z) as Hfold.
  { intros l. induction l as [|e l IH]; intros c Ha Hd Hn Hsum; cbn [foldl length] in *; [cbn; lia|].
    destruct (IH (cover c e)) as [Ht Hs]; clear IH;
      try (unfold cover, u64_saturating_add; repeat case_match; cbn in *; lia).
    rewrite Ht, Hs. unfold cover, u64_saturating_add. repeat case_match; cbn; lia. }
  destruct (Hfold events (Build_FamilyTimelineVlmCoverage (Z.of_nat (length events)) 0 0 0)) as [Ht Hs]; cbn; [lia..|].
  cbn in Ht, Hs. lia.
Qed.
