(* ===== verification/FamilyMemory.v ===== *)
(** The family's review of local vision events, [src/runtime/family_memory.rs]:
    feedback on an event, the file it is appended to, and what it makes of the events
    that are shown. The file is its bytes; [serde_json] is the class [FeedbackText]. *)
From stdpp Require Import gmap.
From Stdlib Require Import Ascii.
From S2P Require Import Prelude RustString Json VisionEvents VisionStore FamilyTimeline.
Local Open Scope string_scope.
Local Open Scope list_scope.
Local Open Scope rust_scope.

Definition DEFAULT_FAMILY_MEMORY_FEEDBACK_LIMIT : nat := Z.to_nat 5000.
Definition FAMILY_MEMORY_COMPACT_AFTER_RECORDS : nat := DEFAULT_FAMILY_MEMORY_FEEDBACK_LIMIT + Z.to_nat 500.
Definition MAX_FAMILY_MEMORY_LINE_BYTES : Z := 32 * 1024.
Definition MAX_CORRECTED_SUMMARY_CHARS : nat := 500.
Definition MAX_CORRECTED_LABELS : nat := 16.
Definition MAX_CORRECTED_LABEL_CHARS : nat := 64.
Definition MAX_FEEDBACK_NOTE_CHARS : nat := 500.

(** * Data *)

Inductive FamilyMemoryFeedbackAction :=
| ConfirmUseful | Favorite | Hide | Restored | CorrectSummary | CorrectLabels.

Definition feedback_action_str (a : FamilyMemoryFeedbackAction) : string :=
  match a with
  | ConfirmUseful => "confirm_useful" | Favorite => "favorite" | Hide => "hide" | Restored => "restore"
  | CorrectSummary => "correct_summary" | CorrectLabels => "correct_labels"
  end.

Record FamilyMemoryFeedbackRequest := {
  fq_action : string;
  fq_corrected_summary : option string;
  fq_corrected_labels : option (list string);
  fq_note : option string
}.

Record FamilyMemoryFeedbackRecord := {
  fb_feedback_id : string;
  fb_event_id : string;
  fb_action : FamilyMemoryFeedbackAction;
  fb_created_at : string;
  fb_source : string;
  fb_corrected_summary : option string;
  fb_corrected_labels : option (list string);
  fb_note : option string;
  fb_metadata_only : bool;
  fb_secret_scan : string
}.

Record FamilyMemoryOverlay := {
  ov_event_id : string;
  ov_confirmed_useful : bool;
  ov_favorite : bool;
  ov_hidden : bool;
  ov_corrected_summary : option string;
  ov_corrected_labels : option (list string);
  ov_corrected_at : option string;
  ov_updated_at : option string;
  ov_feedback_count : Z
}.

Definition corrected (o : FamilyMemoryOverlay) : bool :=
  is_some (ov_corrected_summary o) || is_some (ov_corrected_labels o).

Record FamilyMemoryStats := {
  ms_generated_at : string;
  ms_total_feedback_records : nat;
  ms_event_count : nat;
  ms_confirmed_count : nat;
  ms_favorite_count : nat;
  ms_hidden_count : nat;
  ms_corrected_count : nat;
  ms_bounded_limit : nat;
  ms_metadata_only : bool;
  ms_secret_scan : string
}.

Record FamilyMemoryEventView := {
  mv_event : FamilyTimelineEvent;
  mv_overlay : FamilyMemoryOverlay
}.

Record FamilyMemoryEventFilter := {
  mf_include_hidden : bool;
  mf_favorites_only : bool;
  mf_hidden_only : bool;
  mf_corrected_only : bool;
  mf_limit : nat
}.

(** [serde_json]: a record as a line, and lines as records. *)
Class FeedbackText := {
  feedback_to_string : FamilyMemoryFeedbackRecord -> result string string;
  feedback_from_str : string -> option FamilyMemoryFeedbackRecord
}.

(** * JSON *)

Definition feedback_record_value (r : FamilyMemoryFeedbackRecord) : jv :=
  json_object ([("feedback_id", JStr (fb_feedback_id r)); ("event_id", JStr (fb_event_id r));
                ("action", JStr (feedback_action_str (fb_action r))); ("created_at", JStr (fb_created_at r));
                ("source", JStr (fb_source r))]
               ++ some_field "corrected_summary" JStr (fb_corrected_summary r)
               ++ some_field "corrected_labels" json_strings (fb_corrected_labels r)
               ++ some_field "note" JStr (fb_note r)
               ++ [("metadata_only", JBool (fb_metadata_only r)); ("secret_scan", JStr (fb_secret_scan r))]).

Definition overlay_value (o : FamilyMemoryOverlay) : jv :=
  json_object ([("event_id", JStr (ov_event_id o)); ("confirmed_useful", JBool (ov_confirmed_useful o));
                ("favorite", JBool (ov_favorite o)); ("hidden", JBool (ov_hidden o))]
               ++ some_field "corrected_summary" JStr (ov_corrected_summary o)
               ++ some_field "corrected_labels" json_strings (ov_corrected_labels o)
               ++ some_field "corrected_at" JStr (ov_corrected_at o)
               ++ some_field "updated_at" JStr (ov_updated_at o)
               ++ [("feedback_count", JNum (ov_feedback_count o))]).

Definition memory_view_value (v : FamilyMemoryEventView) : jv :=
  json_object (timeline_event_fields (mv_event v) ++ [("overlay", overlay_value (mv_overlay v))]).

Definition compact_family_memory_feedback_evidence (r : FamilyMemoryFeedbackRecord) : jv :=
  json_object
    [("feedback_id", JStr (fb_feedback_id r)); ("event_id", JStr (fb_event_id r));
     ("action", JStr (feedback_action_str (fb_action r)));
     ("has_corrected_summary", JBool (is_some (fb_corrected_summary r)));
     ("corrected_label_count", json_count (length (default [] (fb_corrected_labels r))));
     ("source", JStr (fb_source r)); ("created_at", JStr (fb_created_at r)); ("metadata_only", JBool true);
     ("secret_scan", JStr "clean")].

(** * Feedback *)

Definition parse_family_memory_feedback_action (value : string) : result string FamilyMemoryFeedbackAction :=
  let v := to_ascii_lowercase (trim value) in
  if str_in v ["confirm_useful"; "confirm"; "useful"] then Ok ConfirmUseful
  else if str_in v ["favorite"; "favourite"] then Ok Favorite
  else if v =? "hide" then Ok Hide
  else if str_in v ["restore"; "unhide"] then Ok Restored
  else if str_in v ["correct_summary"; "summary"] then Ok CorrectSummary
  else if str_in v ["correct_labels"; "labels"] then Ok CorrectLabels
  else Err "unsupported family memory feedback action".

Definition sanitize_corrected_summary (value : string) : result string string :=
  let summary := trim value in
  if is_empty summary then Err "corrected summary cannot be empty" else
  let clipped := chars_take MAX_CORRECTED_SUMMARY_CHARS summary in
  _ <-? reject_private_value (json_object [("corrected_summary", JStr clipped)]);
  Ok clipped.

(** The loop over the labels. *)
Fixpoint collect_labels (labels values : list string) : result string (list string) :=
  match values with
  | [] => Ok labels
  | value :: values =>
      let label := chars_take MAX_CORRECTED_LABEL_CHARS (to_ascii_lowercase (trim value)) in
      if is_empty label || str_in label labels then collect_labels labels values
      else
        _ <-? reject_private_value (json_object [("label", JStr label)]);
        collect_labels (labels ++ [label]) values
  end.

Definition sanitize_corrected_labels (values : list string) : result string (list string) :=
  labels <-? collect_labels [] (take MAX_CORRECTED_LABELS values);
  match labels with [] => Err "corrected labels cannot be empty" | _ => Ok labels end.

Definition sanitize_feedback_note (value : string) : result string string :=
  let note := chars_take MAX_FEEDBACK_NOTE_CHARS (trim value) in
  _ <-? reject_private_value (json_object [("note", JStr note)]);
  Ok note.

(** [Option::map] and [transpose] *)
Definition sanitize_some {A B} (f : A -> result string B) (o : option A) : result string (option B) :=
  match o with Some x => y <-? f x; Ok (Some y) | None => Ok None end.

(** A text that is not blank, as it is. *)
Definition unless_blank (o : option string) : option string :=
  value ← o; if is_blank value then None else Some value.

(** [uuid] is drawn and [now] read for the record. *)
Definition sanitize_family_memory_feedback (uuid : string) (now : Z) (event_id : string)
    (request : FamilyMemoryFeedbackRequest) (source : string) : result string FamilyMemoryFeedbackRecord :=
  let event_id := trim event_id in
  if is_empty event_id || (128 <? str_len event_id)%nat
  then Err "family memory feedback requires a valid event_id" else
  let source := trim source in
  action <-? parse_family_memory_feedback_action (fq_action request);
  corrected_summary <-?
    match action with
    | CorrectSummary =>
        s <-? sanitize_corrected_summary
                (default "" match fq_corrected_summary request with Some s => Some s | None => fq_note request end);
        Ok (Some s)
    | _ => sanitize_some sanitize_corrected_summary (unless_blank (fq_corrected_summary request))
    end;
  corrected_labels <-?
    match action with
    | CorrectLabels =>
        l <-? sanitize_corrected_labels (default [] (fq_corrected_labels request));
        Ok (Some l)
    | _ => sanitize_some sanitize_corrected_labels (fq_corrected_labels request)
    end;
  note <-? sanitize_some sanitize_feedback_note (unless_blank (fq_note request));
  let record :=
    {| fb_feedback_id := "fmfb_" +:+ uuid; fb_event_id := event_id; fb_action := action;
       fb_created_at := now_epoch_ms_string now;
       fb_source := if is_empty source then "unknown" else chars_take 64 source;
       fb_corrected_summary := corrected_summary; fb_corrected_labels := corrected_labels; fb_note := note;
       fb_metadata_only := true; fb_secret_scan := "clean" |} in
  _ <-? reject_private_value (feedback_record_value record);
  Ok record.

(** * The file *)

(** What a listing meets: an error opening the file or reading it. *)
Record ListEnv := {
  li_open_error : option string;
  li_read_error : option string
}.

(** What a compaction meets: an error creating the file, or, numbered by the lines,
    writing one, with the bytes that were written by then. *)
Record CompactEnv := {
  cp_list : ListEnv;
  cp_create_error : option string;
  cp_write_error : nat -> option (string * string)
}.

(** Keep the last [n]. *)
Definition push_bounded {A} (n : nat) (l : list A) (x : A) : list A :=
  (if (length l =? n)%nat then drop 1 l else l) ++ [x].

Section store.
Context `{!FeedbackText}.
Context (store_path : string) (store_parent : option string).

(** The record of a line, unless it is skipped. *)
Definition feedback_of_line (line : string) : option FamilyMemoryFeedbackRecord :=
  let trimmed := trim line in
  if is_empty trimmed || (MAX_FAMILY_MEMORY_LINE_BYTES <? byte_count trimmed)%Z then None
  else feedback_from_str trimmed.

Definition feedback_limit (limit : nat) : nat :=
  Nat.min (Nat.max limit 1) DEFAULT_FAMILY_MEMORY_FEEDBACK_LIMIT.

Definition list_family_memory_feedback (e : ListEnv) (limit : nat) (file : option string)
  : result string (list FamilyMemoryFeedbackRecord) :=
  match file with
  | None => Ok []
  | Some bytes =>
      match li_open_error e, li_read_error e with
      | Some error, _ => Err ("failed to open family memory overlay " +:+ store_path +:+ ": " +:+ error)
      | None, Some error => Err ("failed to read family memory overlay: " +:+ error)
      | None, None =>
          if not_utf8_line bytes
          then Err "failed to read family memory overlay: stream did not contain valid UTF-8"
          else Ok (foldl (push_bounded (feedback_limit limit)) []
                     (omap feedback_of_line (split_char NEWLINE bytes)))
      end
  end.

(** The lines written to the new file, from line [n] on. *)
Fixpoint write_feedback (e : CompactEnv) (n : nat) (written : string) (keep : list FamilyMemoryFeedbackRecord)
  : string * result string unit :=
  match keep with
  | [] => (written, Ok tt)
  | r :: keep =>
      match feedback_to_string r with
      | Err error => (written, Err ("failed to serialize compacted feedback: " +:+ error))
      | Ok line =>
          match cp_write_error e n with
          | Some (error, part) => (written +:+ part, Err ("failed to write compacted feedback: " +:+ error))
          | None => write_feedback e (S n) (written +:+ line +:+ String NEWLINE "") keep
          end
      end
  end.

Definition compact_family_memory_feedback_if_needed (e : CompactEnv) (file : option string)
  : option string * result string unit :=
  match list_family_memory_feedback (cp_list e) FAMILY_MEMORY_COMPACT_AFTER_RECORDS file with
  | Err error => (file, Err error)
  | Ok records =>
      if (length records <? FAMILY_MEMORY_COMPACT_AFTER_RECORDS)%nat then (file, Ok tt) else
      let keep := reverse (take DEFAULT_FAMILY_MEMORY_FEEDBACK_LIMIT (reverse records)) in
      match cp_create_error e with
      | Some error => (file, Err ("failed to compact family memory overlay " +:+ store_path +:+ ": " +:+ error))
      | None => let x := write_feedback e 0 "" keep in (Some x.1, x.2)
      end
  end.

Definition append_family_memory_feedback (e : AppendEnv) (ec : CompactEnv) (uuid event_id : string)
    (request : FamilyMemoryFeedbackRequest) (source : string) (file : option string)
  : option string * result string FamilyMemoryFeedbackRecord :=
  match sanitize_family_memory_feedback uuid (ap_now e) event_id request source with
  | Err error => (file, Err error)
  | Ok record =>
      match (parent ← store_parent; error ← ap_dir_error e; Some (parent, error)) with
      | Some (parent, error) =>
          (file, Err ("failed to create family memory overlay directory " +:+ parent +:+ ": " +:+ error))
      | None =>
      match feedback_to_string record with
      | Err error => (file, Err ("failed to serialize family memory feedback: " +:+ error))
      | Ok line =>
      match ap_open_error e with
      | Some error => (file, Err ("failed to open family memory overlay " +:+ store_path +:+ ": " +:+ error))
      | None =>
          let bytes := default "" file in
          match ap_write_error e with
          | Some (error, written) =>
              (Some (bytes +:+ written), Err ("failed to append family memory feedback: " +:+ error))
          | None =>
              match compact_family_memory_feedback_if_needed ec
                      (Some (bytes +:+ line +:+ String NEWLINE "")) with
              | (file, Err error) => (file, Err error)
              | (file, Ok _) => (file, Ok record)
              end
          end
      end end end
  end.
End store.

(** * What feedback makes of an event *)

Definition new_overlay (event_id : string) : FamilyMemoryOverlay :=
  {| ov_event_id := event_id; ov_confirmed_useful := false; ov_favorite := false; ov_hidden := false;
     ov_corrected_summary := None; ov_corrected_labels := None; ov_corrected_at := None; ov_updated_at := None;
     ov_feedback_count := 0 |}.

(** A record applied to the overlay of its event. *)
Definition give_feedback (o : FamilyMemoryOverlay) (r : FamilyMemoryFeedbackRecord) : FamilyMemoryOverlay :=
  let action := fb_action r in
  let summary := match action with CorrectSummary => fb_corrected_summary r | _ => None end in
  let labels := match action with CorrectLabels => fb_corrected_labels r | _ => None end in
  {| ov_event_id := ov_event_id o;
     ov_confirmed_useful := match action with ConfirmUseful => true | _ => ov_confirmed_useful o end;
     ov_favorite := match action with Favorite => true | _ => ov_favorite o end;
     ov_hidden := match action with Hide => true | Restored => false | _ => ov_hidden o end;
     ov_corrected_summary := match summary with Some s => Some s | None => ov_corrected_summary o end;
     ov_corrected_labels := match labels with Some l => Some l | None => ov_corrected_labels o end;
     ov_corrected_at :=
       if is_some summary || is_some labels then Some (fb_created_at r) else ov_corrected_at o;
     ov_updated_at := Some (fb_created_at r);
     ov_feedback_count := u64_saturating_add (ov_feedback_count o) 1 |}.

Abbreviation Overlays := (gmap string FamilyMemoryOverlay).

Definition overlay_step (overlays : Overlays) (r : FamilyMemoryFeedbackRecord) : Overlays :=
  <[fb_event_id r := give_feedback (default (new_overlay (fb_event_id r)) (overlays !! fb_event_id r)) r]> overlays.

Definition build_family_memory_overlays (records : list FamilyMemoryFeedbackRecord) : Overlays :=
  foldl overlay_step ∅ records.

Definition count_overlays (p : FamilyMemoryOverlay -> bool) (overlays : Overlays) : nat :=
  size (filter (fun kv => p kv.2 = true) overlays).

Definition build_family_memory_stats_from_overlays (now : Z) (total_feedback_records : nat) (overlays : Overlays)
  : FamilyMemoryStats :=
  {| ms_generated_at := now_epoch_ms_string now; ms_total_feedback_records := total_feedback_records;
     ms_event_count := size overlays; ms_confirmed_count := count_overlays ov_confirmed_useful overlays;
     ms_favorite_count := count_overlays ov_favorite overlays;
     ms_hidden_count := count_overlays ov_hidden overlays;
     ms_corrected_count := count_overlays corrected overlays;
     ms_bounded_limit := DEFAULT_FAMILY_MEMORY_FEEDBACK_LIMIT; ms_metadata_only := true;
     ms_secret_scan := "clean" |}.

Definition build_family_memory_stats (now : Z) (records : list FamilyMemoryFeedbackRecord) : FamilyMemoryStats :=
  build_family_memory_stats_from_overlays now (length records) (build_family_memory_overlays records).

Definition set_vlm_texts (summary : string) (v : LocalVisionEventVlmSummary) : LocalVisionEventVlmSummary :=
  {| vlm_status := vlm_status v; vlm_summary := summary; vlm_tags := vlm_tags v; vlm_labels := vlm_labels v;
     vlm_derived_text := summary; vlm_artifacts := vlm_artifacts v; vlm_ingest_metadata := vlm_ingest_metadata v;
     vlm_metrics := vlm_metrics v; vlm_error := vlm_error v |}.

Definition correct_event (o : FamilyMemoryOverlay) (e : LocalVisionEvent) : LocalVisionEvent :=
  {| le_event_id := le_event_id e; le_camera_id := le_camera_id e; le_event_type := le_event_type e;
     le_confidence := le_confidence e; le_labels := default (le_labels e) (ov_corrected_labels o);
     le_summary := default (le_summary e) (ov_corrected_summary o);
     le_snapshot_artifact := le_snapshot_artifact e; le_started_at := le_started_at e;
     le_analyzer := le_analyzer e; le_latency_ms := le_latency_ms e; le_metrics := le_metrics e;
     le_vlm := match ov_corrected_summary o with
               | Some summary => set_vlm_texts summary <$> le_vlm e
               | None => le_vlm e
               end |}.

Definition apply_family_memory_overlay_to_event (s : StoredLocalVisionEvent) (overlay : option FamilyMemoryOverlay)
  : StoredLocalVisionEvent :=
  match overlay with
  | None => s
  | Some o => {| se_received_at := se_received_at s; se_event := correct_event o (se_event s);
                 se_audit_record := se_audit_record s; se_ha_mqtt_payload := se_ha_mqtt_payload s |}
  end.

Definition hidden_in (overlays : Overlays) (event_id : string) : bool :=
  match overlays !! event_id with Some o => ov_hidden o | None => false end.

Definition apply_family_memory_overlays_to_events (events : list StoredLocalVisionEvent) (overlays : Overlays)
    (include_hidden : bool) : list StoredLocalVisionEvent :=
  omap (fun s =>
          let event_id := le_event_id (se_event s) in
          if negb include_hidden && hidden_in overlays event_id then None
          else Some (apply_family_memory_overlay_to_event s (overlays !! event_id))) events.

Definition family_timeline_event_matches_query (e : FamilyTimelineEvent) (options : FamilyTimelineQueryOptions)
  : bool := matches_filters options (te_camera_id e) (te_event_type e) (te_labels e).

Definition memory_view (overlays : Overlays) (filter : FamilyMemoryEventFilter)
    (options : FamilyTimelineQueryOptions) (s : StoredLocalVisionEvent) : option FamilyMemoryEventView :=
  let event_id := le_event_id (se_event s) in
  let overlay := default (new_overlay event_id) (overlays !! event_id) in
  if mf_hidden_only filter && negb (ov_hidden overlay) then None
  else if negb (mf_include_hidden filter) && ov_hidden overlay then None
  else if mf_favorites_only filter && negb (ov_favorite overlay) then None
  else if mf_corrected_only filter && negb (corrected overlay) then None
  else
    let event := family_timeline_event (apply_family_memory_overlay_to_event s (Some overlay)) in
    if family_timeline_event_matches_query event options
    then Some {| mv_event := event; mv_overlay := overlay |} else None.

Definition build_family_memory_event_views (events : list StoredLocalVisionEvent) (overlays : Overlays)
    (filter : FamilyMemoryEventFilter) (options : FamilyTimelineQueryOptions)
  : result string (list FamilyMemoryEventView) :=
  let views := take (Nat.min (Nat.max (mf_limit filter) 1) 100) (omap (memory_view overlays filter options) events) in
  _ <-? reject_private_value (JArr (memory_view_value <$> views));
  Ok views.
