(* ===== verification/FamilyMemoryTheorems.v ===== *)
(** The family's memory: what is accepted as feedback, that its file lists it, and
    what it shows of an event. *)
From stdpp Require Import gmap.
From Stdlib Require Import Ascii.
From S2P Require Import Prelude RustString Json StringSearch VisionEvents VisionStore VisionTheorems.
From S2P Require Import FamilyTimeline FamilyMemory.
Local Open Scope string_scope.
Local Open Scope list_scope.

(** * Specification *)

Definition about (event_id : string) (r : FamilyMemoryFeedbackRecord) : bool := fb_event_id r =? event_id.

(** The last feedback that hides or restores hides. *)
Definition hides (records : list FamilyMemoryFeedbackRecord) : bool :=
  foldl (fun h r => match fb_action r with Hide => true | Restored => false | _ => h end) false records.

(** The summary of the last correction. *)
Definition correction (records : list FamilyMemoryFeedbackRecord) : option string :=
  foldl (fun c r => match fb_action r, fb_corrected_summary r with CorrectSummary, Some s => Some s | _, _ => c end)
    None records.

Definition labels_correction (records : list FamilyMemoryFeedbackRecord) : option (list string) :=
  foldl (fun c r => match fb_action r, fb_corrected_labels r with CorrectLabels, Some l => Some l | _, _ => c end)
    None records.

(** The last [n]. *)
Definition last_of {A} (n : nat) (l : list A) : list A := drop (length l - n) l.

(** * Overlays *)

Lemma overlays_get records event_id :
  build_family_memory_overlays records !! event_id
  = match List.filter (about event_id) records with
    | [] => None
    | l => Some (foldl give_feedback (new_overlay event_id) l)
    end.
Proof.
  unfold build_family_memory_overlays. revert event_id.
  induction records as [|r records IH] using rev_ind; intros event_id; [apply lookup_empty|].
  rewrite foldl_app, List.filter_app. cbn [foldl List.filter]. unfold overlay_step at 1, about at 2.
  destruct (String.eqb_spec (fb_event_id r) event_id) as [->|Hne].
  - rewrite lookup_insert_eq, IH. destruct (List.filter (about event_id) records) as [|r' l]; [done|].
    cbn [app default from_option id]. f_equal. cbn [foldl]. by rewrite foldl_app.
  - rewrite lookup_insert_ne, IH by done. by rewrite app_nil_r.
Qed.

(** A field of the overlay is a fold of its own over the records. *)
Lemma fold_field {B} (field : FamilyMemoryOverlay -> B) (step : B -> FamilyMemoryFeedbackRecord -> B) records o :
  (forall o r, field (give_feedback o r) = step (field o) r) ->
  field (foldl give_feedback o records) = foldl step (field o) records.
Proof. intros Hstep. revert o. induction records as [|r l IH]; intros o; [done|]. cbn. by rewrite IH, Hstep. Qed.

Lemma overlay_hidden records event_id :
  hidden_in (build_family_memory_overlays records) event_id = hides (List.filter (about event_id) records).
Proof.
  unfold hidden_in. rewrite overlays_get. destruct (List.filter _ records) as [|r l]; [done|].
  apply (fold_field ov_hidden). intros o r'. cbn. by destruct (fb_action r').
Qed.

Lemma overlay_summary records event_id :
  (build_family_memory_overlays records !! event_id) ≫= ov_corrected_summary
  = correction (List.filter (about event_id) records).
Proof.
  rewrite overlays_get. destruct (List.filter _ records) as [|r l]; [done|].
  apply (fold_field ov_corrected_summary). intros o r'. cbn. by destruct (fb_action r'), (fb_corrected_summary r').
Qed.

Lemma overlay_labels records event_id :
  (build_family_memory_overlays records !! event_id) ≫= ov_corrected_labels
  = labels_correction (List.filter (about event_id) records).
Proof.
  rewrite overlays_get. destruct (List.filter _ records) as [|r l]; [done|].
  apply (fold_field ov_corrected_labels). intros o r'. cbn. by destruct (fb_action r'), (fb_corrected_labels r').
Qed.

(** * What is shown *)

Lemma applied_id s o : le_event_id (se_event (apply_family_memory_overlay_to_event s o)) = le_event_id (se_event s).
Proof. by destruct o. Qed.

Lemma omap_unless {A B} (p : A -> bool) (f : A -> B) l :
  omap (fun x => if p x then None else Some (f x)) l = f <$> List.filter (fun x => negb (p x)) l.
Proof. induction l as [|x l IH]; [done|]. cbn. destruct (p x); cbn; [exact IH|]. f_equal. exact IH. Qed.

Lemma shown_events events overlays :
  apply_family_memory_overlays_to_events events overlays false
  = (fun s => apply_family_memory_overlay_to_event s (overlays !! le_event_id (se_event s)))
      <$> List.filter (fun s => negb (hidden_in overlays (le_event_id (se_event s)))) events.
Proof.
  exact (omap_unless (fun s => hidden_in overlays (le_event_id (se_event s))) _ events).
Qed.

(** The summary that is shown of an event with a correction is the correction, whatever
    the models said. *)
Lemma corrected_text s o summary :
  ov_corrected_summary o = Some summary ->
  local_vision_automation_summary (se_event (apply_family_memory_overlay_to_event s (Some o)))
  = sanitize_model_text (trim summary).
Proof.
  intros Ho. unfold apply_family_memory_overlay_to_event, local_vision_automation_summary. cbn.
  rewrite Ho. cbn. destruct (le_vlm (se_event s)) as [v|]; [|done]. cbn.
  unfold active_summary. cbn. destruct (_ && _); [done|]. by destruct (negb (is_blank summary)).
Qed.

(** * What is accepted *)

(** A record that some request makes. *)
Definition accepted (r : FamilyMemoryFeedbackRecord) : Prop :=
  exists uuid now event_id request source,
    sanitize_family_memory_feedback uuid now event_id request source = Ok r.

(** What the sanitizer of the vision events takes for clean. *)
Definition displayable (s : string) : Prop :=
  chars_count s <= 500 /\ forall n, n ∈ MODEL_NEEDLES -> str_contains n (to_ascii_lowercase s) = false.

Lemma field_public name s : reject_private_value (json_object [(name, JStr s)]) = Ok tt -> public_text s.
Proof. intros Hp%reject_private_ok. cbn in Hp. by rewrite !Forall_cons in Hp; destruct Hp as (_ & Hs & _). Qed.

Lemma needles_sensitive : forallb (fun n => str_in n (SENSITIVE_NEEDLES.*2)) MODEL_NEEDLES = true.
Proof. reflexivity. Qed.

Lemma public_displayable s : public_text s -> chars_count s <= 500 -> displayable s.
Proof.
  intros [Hs _] Hc. split; [done|]. intros n Hn. pose proof needles_sensitive as Hall.
  rewrite forallb_forall in Hall. specialize (Hall n (proj1 (list_elem_of_In _ _) Hn)).
  apply str_in_true, list_elem_of_fmap in Hall as ([code m] & -> & Hin). by apply (Hs code).
Qed.

Lemma needles_lower :
  forallb (fun n => (to_ascii_lowercase n =? n) && (to_ascii_lowercase (to_ascii_uppercase n) =? n)
                    && negb (is_empty n) && negb (is_empty (to_ascii_uppercase n))) MODEL_NEEDLES = true.
Proof. reflexivity. Qed.

Lemma redact_absent s needles :
  (forall n, n ∈ needles -> n ∈ MODEL_NEEDLES) -> displayable s -> foldl redact_needle s needles = s.
Proof.
  intros Hin [Hc Hs]. induction needles as [|n needles IH]; [done|]. cbn.
  assert (redact_needle s n = s) as ->; [|apply IH; intros; apply Hin; by right].
  pose proof needles_lower as Hl. rewrite forallb_forall in Hl.
  assert (n ∈ MODEL_NEEDLES) as Hn by (apply Hin; left).
  specialize (Hl n (proj1 (list_elem_of_In _ _) Hn)). rewrite !andb_true_iff, !negb_true_iff in Hl.
  destruct Hl as [[[Hlow%String.eqb_eq Hup%String.eqb_eq] Hne%is_empty_false] Hne'%is_empty_false].
  specialize (Hs n Hn). unfold redact_needle.
  rewrite (replace_absent n), (replace_absent (to_ascii_uppercase n)); [done..| |done|];
    apply not_true_iff_false; intros Hb%str_contains_lower; congruence.
Qed.

Lemma sanitize_displayable s : displayable s -> sanitize_model_text s = s.
Proof.
  intros Hs. unfold sanitize_model_text. rewrite redact_absent by done. destruct Hs as [Hc _]. by apply chars_take_all.
Qed.

Lemma displayable_trim s : displayable s -> displayable (trim s).
Proof.
  intros [Hc Hs]. split; [pose proof (chars_count_trim s); lia|]. intros n Hn. apply not_true_iff_false.
  intros Hb. specialize (Hs n Hn). apply not_true_iff_false in Hs. apply Hs.
  destruct (trim_part s) as (a & b & ->). unfold to_ascii_lowercase in *. rewrite !str_map_app.
  by apply str_contains_app_r, str_contains_app_l.
Qed.

Lemma corrected_summary_ok value s :
  sanitize_corrected_summary value = Ok s -> public_text s /\ chars_count s <= MAX_CORRECTED_SUMMARY_CHARS.
Proof.
  unfold sanitize_corrected_summary. destruct (is_empty _); [done|].
  destruct (reject_private_value _) as [[]|] eqn:Hp; [|done]. intros [= <-].
  split; [by eapply field_public|apply chars_count_take].
Qed.

Definition label_ok (label : string) : Prop :=
  label <> "" /\ public_text label /\ chars_count label <= MAX_CORRECTED_LABEL_CHARS.

Lemma collect_labels_ok labels values l :
  collect_labels labels values = Ok l -> NoDup labels -> Forall label_ok labels ->
  NoDup l /\ Forall label_ok l /\ length l <= length labels + length values.
Proof.
  revert labels. induction values as [|v values IH]; intros labels; cbn [collect_labels length].
  { intros [= <-] Hn Hf. split_and!; [done..|lia]. }
  set (label := chars_take _ _). destruct (is_empty label) eqn:He; cbn [orb].
  { intros Hl Hn Hf. destruct (IH _ Hl Hn Hf) as (? & ? & ?). split_and!; [done..|lia]. }
  destruct (str_in label labels) eqn:Hin.
  { intros Hl Hn Hf. destruct (IH _ Hl Hn Hf) as (? & ? & ?). split_and!; [done..|lia]. }
  destruct (reject_private_value _) as [[]|] eqn:Hp; [|done]. cbn [mbind result_bind]. intros Hl Hn Hf.
  apply is_empty_false in He. apply str_in_false in Hin. destruct (IH _ Hl) as (? & ? & Hlen).
  - apply NoDup_app. split_and!; [done| |apply NoDup_singleton]. intros x Hx ->%list_elem_of_singleton. done.
  - apply Forall_app. split; [done|]. apply list.Forall_singleton. split_and!;
      [done|by eapply field_public|apply chars_count_take].
  - rewrite length_app in Hlen. cbn in Hlen. split_and!; [done..|lia].
Qed.

Lemma corrected_labels_ok values l :
  sanitize_corrected_labels values = Ok l ->
  NoDup l /\ Forall label_ok l /\ 1 <= length l <= MAX_CORRECTED_LABELS.
Proof.
  unfold sanitize_corrected_labels. destruct (collect_labels _ _) as [labels|] eqn:Hc; [|done]. cbn.
  destruct (collect_labels_ok _ _ _ Hc) as (Hn & Hf & Hl); [constructor..|]. rewrite length_take in Hl.
  destruct labels as [|x labels]; [done|]. intros [= <-]. cbn [length] in *. split_and!; [done..|lia|lia].
Qed.

Lemma sanitize_some_ok {A B} (f : A -> result string B) o y :
  sanitize_some f o = Ok (Some y) -> exists x, o = Some x /\ f x = Ok y.
Proof. destruct o as [x|]; [|done]. cbn. destruct (f x) as [z|] eqn:E; [|done]. intros [= ->]. eauto. Qed.

Lemma bind_ok {E A B} (r : result E A) (k : A -> result E B) y :
  (x <-? r; k x)%rust = Ok y -> exists x, r = Ok x /\ k x = Ok y.
Proof. destruct r as [x|]; [|done]. eauto. Qed.

(** Accepted feedback is public in all its texts and within its bounds. *)
Theorem accepted_feedback_public uuid now event_id request source r :
  sanitize_family_memory_feedback uuid now event_id request source = Ok r ->
  Forall public_text (texts (feedback_record_value r))
  /\ (fb_event_id r <> "" /\ str_len (fb_event_id r) <= 128)
  /\ (forall s, fb_corrected_summary r = Some s -> public_text s /\ chars_count s <= MAX_CORRECTED_SUMMARY_CHARS)
  /\ (forall l, fb_corrected_labels r = Some l ->
        NoDup l /\ Forall label_ok l /\ 1 <= length l <= MAX_CORRECTED_LABELS)
  /\ (fb_action r = CorrectSummary -> is_some (fb_corrected_summary r) = true)
  /\ (fb_action r = CorrectLabels -> is_some (fb_corrected_labels r) = true).
Proof.
  unfold sanitize_family_memory_feedback. destruct (is_empty (trim event_id)) eqn:He; [done|].
  destruct (Nat.ltb_spec 128 (str_len (trim event_id))); [done|]. cbn [orb].
  intros (action & _ & (summary & Hs & (labels & Hl & (note & _ & ([] & Hp & [= <-])%bind_ok)%bind_ok)%bind_ok)%bind_ok)%bind_ok.
  apply reject_private_ok in Hp. apply is_empty_false in He.
  cbn [fb_event_id fb_corrected_summary fb_corrected_labels fb_action].
  split_and!; [done..| | |intros ->|intros ->].
  - intros s ->. destruct action; try (apply sanitize_some_ok in Hs as (v & _ & Hs); by eapply corrected_summary_ok).
    destruct (sanitize_corrected_summary _) eqn:Hc in Hs; [|done]. injection Hs as ->. by eapply corrected_summary_ok.
  - intros l ->. destruct action; try (apply sanitize_some_ok in Hl as (v & _ & Hl); by eapply corrected_labels_ok).
    destruct (sanitize_corrected_labels _) eqn:Hc in Hl; [|done]. injection Hl as ->. by eapply corrected_labels_ok.
  - destruct (sanitize_corrected_summary _) in Hs; [|done]. by injection Hs as <-.
  - destruct (sanitize_corrected_labels _) in Hl; [|done]. by injection Hl as <-.
Qed.

Lemma correction_from records summary :
  correction records = Some summary -> exists r, r ∈ records /\ fb_corrected_summary r = Some summary.
Proof.
  unfold correction. induction records as [|r records IH] using rev_ind; [done|]. rewrite foldl_app. cbn.
  assert (forall c, foldl (fun c r => match fb_action r, fb_corrected_summary r with CorrectSummary, Some s => Some s
            | _, _ => c end) None records = c -> c = Some summary ->
            exists r', r' ∈ records ++ [r] /\ fb_corrected_summary r' = Some summary) as Hold.
  { intros c <- Hc. destruct (IH Hc) as (r' & ? & ?). exists r'. split; [|done]. apply elem_of_app. by left. }
  destruct (fb_action r); try (by apply Hold). destruct (fb_corrected_summary r) as [s|] eqn:Hs; [|by apply Hold].
  intros [= <-]. exists r. split; [|done]. apply elem_of_app. right. by apply list_elem_of_singleton.
Qed.

Lemma accepted_correction records event_id summary :
  Forall accepted records -> correction (List.filter (about event_id) records) = Some summary -> displayable summary.
Proof.
  intros Hacc (r & Hin & Hs)%correction_from. apply elem_of_list_filter in Hin as [Hin _].
  rewrite Forall_forall in Hacc. destruct (Hacc r Hin) as (uuid & now & id & request & source & Hr).
  destruct (accepted_feedback_public _ _ _ _ _ _ Hr) as (_ & _ & Hsum & _). destruct (Hsum _ Hs) as [Hp Hc].
  by apply public_displayable.
Qed.

(** C38. What the family decided is what is shown: an event is shown unless the last
    feedback that hides or restores it hides it; its summary is the last accepted
    correction word for word, even over that of an active model; its labels are the
    last correction; feedback on other events does not matter. *)
Theorem feedback_decides_what_is_shown records events :
  Forall accepted records ->
  let overlays := build_family_memory_overlays records in
  let about s := List.filter (about (le_event_id (se_event s))) records in
  apply_family_memory_overlays_to_events events overlays false
  = (fun s => apply_family_memory_overlay_to_event s (overlays !! le_event_id (se_event s)))
      <$> List.filter (fun s => negb (hides (about s))) events
  /\ forall s,
       let shown := family_timeline_event
                      (apply_family_memory_overlay_to_event s (overlays !! le_event_id (se_event s))) in
       te_event_id shown = le_event_id (se_event s)
       /\ te_summary shown
          = match correction (about s) with
            | Some summary => trim summary
            | None => local_vision_automation_summary (se_event s)
            end
       /\ te_labels shown = default (le_labels (se_event s)) (labels_correction (about s)).
Proof.
  intros Hacc. cbn zeta. split.
  - rewrite shown_events. f_equal. apply filter_ext. intros s. by rewrite overlay_hidden.
  - intros s. set (id := le_event_id (se_event s)). pose proof (accepted_correction records id) as Hd.
    specialize (fun summary => Hd summary Hacc). revert Hd.
    rewrite <- (overlay_summary records id), <- (overlay_labels records id).
    intros Hd. split_and!; [apply applied_id| |by destruct (_ !! id)].
    destruct (build_family_memory_overlays records !! id) as [o|]; [|done]. cbn [mbind option_bind] in *.
    destruct (ov_corrected_summary o) as [summary|] eqn:Ho.
    + unfold family_timeline_event. cbn [te_summary]. rewrite (corrected_text s o summary Ho).
      apply sanitize_displayable, displayable_trim. by apply Hd.
    + unfold family_timeline_event. cbn [te_summary]. unfold apply_family_memory_overlay_to_event, local_vision_automation_summary.
      cbn. by rewrite Ho.
Qed.

(** * The file *)

Lemma push_bounded_last {A} n (l acc : list A) :
  length acc <= n -> 0 < n -> foldl (push_bounded n) acc l = last_of n (acc ++ l).
Proof.
  intros Ha Hn. revert acc Ha. induction l as [|x l IH]; intros acc Ha; cbn [foldl].
  { unfold last_of. rewrite app_nil_r. by replace (length acc - n) with 0 by lia. }
  rewrite IH; unfold push_bounded; destruct (Nat.eqb_spec (length acc) n) as [E|E];
    rewrite ?length_app, ?length_drop; cbn [length]; try lia.
  - unfold last_of. rewrite !length_app, length_drop. cbn [length]. destruct acc as [|a acc]; [cbn in E; lia|].
    cbn [drop length app] in *. replace (S (length acc) + S (length l) - n) with (S (length l)) by lia.
    replace (S (length acc) - 1 + 1 + length l - n) with (length l) by lia. cbn [drop]. by rewrite <- app_assoc.
  - unfold last_of. rewrite !length_app. cbn [length]. rewrite <- app_assoc. cbn [app]. f_equal. lia.
Qed.

Lemma last_of_length {A} n (l : list A) : length (last_of n l) <= n.
Proof. unfold last_of. rewrite length_drop. lia. Qed.

Section file.
Context `{!FeedbackText}.
Context (store_path : string) (store_parent : option string).

Definition feedback_of (bytes : string) : list FamilyMemoryFeedbackRecord :=
  omap feedback_of_line (split_char NEWLINE bytes).

Lemma list_feedback_spec e limit file :
  li_open_error e = None -> li_read_error e = None -> not_utf8_line (default "" file) = false ->
  list_family_memory_feedback store_path e limit file
  = Ok (last_of (feedback_limit limit) (feedback_of (default "" file))).
Proof.
  intros Ho Hr Hu. destruct file as [bytes|]; [|done]. unfold list_family_memory_feedback. cbn in Hu.
  rewrite Ho, Hr, Hu. rewrite push_bounded_last; [done|cbn; lia|].
  unfold feedback_limit, DEFAULT_FAMILY_MEMORY_FEEDBACK_LIMIT. lia.
Qed.

Lemma listed_length e limit file records :
  list_family_memory_feedback store_path e limit file = Ok records ->
  length records <= DEFAULT_FAMILY_MEMORY_FEEDBACK_LIMIT.
Proof.
  unfold list_family_memory_feedback. destruct file as [bytes|]; [|intros [= <-]; cbn; lia].
  destruct (li_open_error e), (li_read_error e); try done. destruct (not_utf8_line bytes); [done|]. intros [= <-].
  rewrite push_bounded_last; [|cbn; lia|unfold feedback_limit, DEFAULT_FAMILY_MEMORY_FEEDBACK_LIMIT; lia].
  etransitivity; [apply last_of_length|]. unfold feedback_limit. lia.
Qed.

(** The compaction never happens: its listing has at most the 5000 records that it
    would keep, fewer than the number it waits for. *)
Theorem never_compacted ec file :
  (compact_family_memory_feedback_if_needed store_path ec file).1 = file
  /\ ((compact_family_memory_feedback_if_needed store_path ec file).2 = Ok tt <->
      is_ok (list_family_memory_feedback store_path (cp_list ec) FAMILY_MEMORY_COMPACT_AFTER_RECORDS file) = true).
Proof.
  unfold compact_family_memory_feedback_if_needed.
  destruct (list_family_memory_feedback _ _ _ _) as [records|error] eqn:Hl; [|done].
  apply listed_length in Hl. rewrite (proj2 (Nat.ltb_lt _ _)); [done|].
  unfold FAMILY_MEMORY_COMPACT_AFTER_RECORDS. lia.
Qed.

(** * The log *)

(** What one calls [append_family_memory_feedback] with. *)
Record FeedbackOp := {
  op_append : AppendEnv;
  op_compact : CompactEnv;
  op_uuid : string;
  op_event_id : string;
  op_request : FamilyMemoryFeedbackRequest;
  op_source : string
}.

(** No write is cut short, and the listing for the compaction works. *)
Definition writes_well (op : FeedbackOp) : Prop :=
  ap_write_error (op_append op) = None
  /\ li_open_error (cp_list (op_compact op)) = None /\ li_read_error (cp_list (op_compact op)) = None.

Definition sanitized (op : FeedbackOp) : result string FamilyMemoryFeedbackRecord :=
  sanitize_family_memory_feedback (op_uuid op) (ap_now (op_append op)) (op_event_id op) (op_request op) (op_source op).

(** The line of a record is read back as the record. *)
Record reads_as (r : FamilyMemoryFeedbackRecord) (line : string) : Prop := {
  as_line : feedback_to_string r = Ok line;
  as_one_line : lacks NEWLINE line = true;
  as_utf8 : utf8_valid line = true;
  as_record : feedback_of_line line = Some r
}.

(** The file and the records accepted so far. *)
Definition append_step (x : option string * list FamilyMemoryFeedbackRecord) (op : FeedbackOp)
  : option string * list FamilyMemoryFeedbackRecord :=
  match append_family_memory_feedback store_path store_parent (op_append op) (op_compact op) (op_uuid op)
          (op_event_id op) (op_request op) (op_source op) x.1 with
  | (file, Ok r) => (file, x.2 ++ [r])
  | (file, Err _) => (file, x.2)
  end.

Definition append_all (ops : list FeedbackOp) : option string * list FamilyMemoryFeedbackRecord :=
  foldl append_step (None, []) ops.

Definition record_line (r : FamilyMemoryFeedbackRecord) : string := default "" (res_ok (feedback_to_string r)).

(** The file holds the records, a line each. *)
Definition holds_records (x : option string * list FamilyMemoryFeedbackRecord) : Prop :=
  default "" x.1 = unlines (record_line <$> x.2) /\ Forall (fun r => exists line, reads_as r line) x.2.

Lemma record_line_eq r line : reads_as r line -> record_line r = line.
Proof. intros Hr. unfold record_line. by rewrite (as_line _ _ Hr). Qed.

Lemma held_lines l :
  Forall (fun r => exists line, reads_as r line) l ->
  split_char NEWLINE (unlines (record_line <$> l)) = (record_line <$> l) ++ [""].
Proof.
  intros Hl. apply split_unlines, Forall_fmap. eapply Forall_impl; [exact Hl|]. intros r [line Hr]. cbn.
  rewrite (record_line_eq _ _ Hr). by apply as_one_line in Hr.
Qed.

Lemma held_utf8 l :
  Forall (fun r => exists line, reads_as r line) l -> not_utf8_line (unlines (record_line <$> l)) = false.
Proof.
  intros Hl. unfold not_utf8_line. rewrite held_lines by done. apply list_any_false. intros line Hin.
  apply elem_of_app in Hin as [(r & -> & Hr)%list_elem_of_fmap|Hs%list_elem_of_singleton]; [|by subst].
  rewrite Forall_forall in Hl. destruct (Hl r Hr) as [line Hline]. rewrite (record_line_eq _ _ Hline).
  apply negb_false_iff. by apply as_utf8 in Hline.
Qed.

Lemma held_feedback l :
  Forall (fun r => exists line, reads_as r line) l -> feedback_of (unlines (record_line <$> l)) = l.
Proof.
  intros Hl. unfold feedback_of. rewrite held_lines, omap_app by done. cbn. rewrite app_nil_r.
  induction Hl as [|r l [line Hr] _ IH]; [done|]. cbn. rewrite (record_line_eq _ _ Hr), (as_record _ _ Hr). by f_equal.
Qed.

Lemma append_step_holds x op :
  writes_well op -> (forall r, sanitized op = Ok r -> exists line, reads_as r line) ->
  holds_records x -> holds_records (append_step x op).
Proof.
  destruct x as [file log]. intros (Hw & Ho & Hr) Hback [Hfile Hlog]. unfold append_step, append_family_memory_feedback.
  cbn [fst snd] in *. unfold sanitized in Hback.
  destruct (sanitize_family_memory_feedback _ _ _ _ _) as [r|]; [|done]. destruct (Hback r eq_refl) as [line Hline].
  destruct (store_parent ≫= _) as [[parent error]|]; [done|]. rewrite (as_line _ _ Hline).
  destruct (ap_open_error _); [done|]. rewrite Hw, Hfile.
  assert (Forall (fun r => exists line, reads_as r line) (log ++ [r])) as Hall.
  { apply Forall_app. split; [done|]. apply list.Forall_singleton. eauto. }
  assert (unlines (record_line <$> log) +:+ line +:+ String NEWLINE "" = unlines (record_line <$> (log ++ [r]))) as ->.
  { rewrite fmap_app. cbn. by rewrite (record_line_eq _ _ Hline), unlines_snoc. }
  destruct (never_compacted (op_compact op) (Some (unlines (record_line <$> (log ++ [r]))))) as [Hsame Hok].
  rewrite list_feedback_spec in Hok by (cbn; auto using held_utf8).
  destruct (compact_family_memory_feedback_if_needed _ _ _) as [file' [[]|error]]; cbn in Hsame, Hok; subst file'.
  - split; [done|exact Hall].
  - by destruct Hok as [_ Hok]; discriminate Hok.
Qed.

Lemma append_all_holds ops :
  (forall op, op ∈ ops -> writes_well op /\ forall r, sanitized op = Ok r -> exists line, reads_as r line) ->
  holds_records (append_all ops).
Proof.
  intros Hops. unfold append_all. induction ops as [|op ops IH] using rev_ind; [by split; [|constructor]|].
  rewrite foldl_app. cbn [foldl]. destruct (Hops op) as [Hw Hb]; [apply elem_of_app; right; by left|].
  apply append_step_holds; [done..|]. apply IH. intros op' Hin. apply Hops. apply elem_of_app. by left.
Qed.

(** The listing is the log of the accepted feedback, cut to its last records: after
    any appends, refused ones among them, as long as no write is cut short. The file
    keeps a line for every one of them. *)
Theorem feedback_listed e limit ops :
  li_open_error e = None -> li_read_error e = None ->
  (forall op, op ∈ ops -> writes_well op /\ forall r, sanitized op = Ok r -> exists line, reads_as r line) ->
  let x := append_all ops in
  list_family_memory_feedback store_path e limit x.1 = Ok (last_of (feedback_limit limit) x.2)
  /\ default "" x.1 = unlines (record_line <$> x.2).
Proof.
  intros Ho Hr Hops x. destruct (append_all_holds ops Hops) as [Hfile Hlog]. fold x in Hfile, Hlog. split; [|done].
  rewrite list_feedback_spec; [|done..|rewrite Hfile; by apply held_utf8]. by rewrite Hfile, held_feedback.
Qed.
End file.
