(* ===== verification/VisionSample.v ===== *)
(** Sightings of a person in the hall, and a family that hides, corrects and restores
    two: the theorems on local vision events, the timeline and the memory at concrete
    inputs, and behaviours of the code that its checks do not mean. *)
From Stdlib Require Import Ascii.
From stdpp Require Import gmap.
From S2P Require Import Prelude RustString Json StringSearch Notifications VisionEvents VisionStore VisionTheorems.
From S2P Require Import FamilyTimeline FamilyMemory FamilyMemoryTheorems.
Local Open Scope string_scope.
Local Open Scope list_scope.

#[local] Instance sighting_json : JsonText := {| json_to_string _ := Ok "{}" |}.
#[local] Instance sighting_text : VisionText := {| event_to_string _ := Ok "{}" |}.
#[local] Instance sighting_sha256 : Sha256 := {| sha256 _ := repeat 7%Z 32; sha256_length _ := eq_refl |}.

Definition sighting (event_id summary : string) : LocalVisionEvent :=
  {| le_event_id := event_id; le_camera_id := "hall"; le_event_type := "person_detected";
     le_confidence := f32_zero; le_labels := ["person"]; le_summary := summary;
     le_snapshot_artifact := {| sa_artifact_id := None; sa_path := None; sa_mime_type := None;
                                sa_byte_size := None; sa_sha256 := None; sa_source := None |};
     le_started_at := "1000"; le_analyzer := "local"; le_latency_ms := 5; le_metrics := JNull; le_vlm := None |}.

Definition stored_sighting (event_id summary : string) : StoredLocalVisionEvent :=
  let event := sighting event_id summary in
  {| se_received_at := now_epoch_ms_string 1000; se_event := event; se_audit_record := build_audit_record event;
     se_ha_mqtt_payload := build_ha_mqtt_payload event |}.

(** A text of events that keeps their identifiers. *)
#[local] Instance sighting_lines : StoredText := {|
  stored_to_string s := Ok (le_event_id (se_event s));
  stored_from_str line := if (str_len line =? 2)%nat then Some (stored_sighting line "") else None;
  value_from_str line := Some (JStr line)
|}.

(** * What is sent *)

Lemma sanitized_text_clean_witness :
  str_contains "bearer " (sanitize_model_text "a note: BEARER x") = false
  /\ str_contains "BEARER " (sanitize_model_text "a note: BEARER x") = false
  /\ chars_count (sanitize_model_text "a note: BEARER x") <= 500.
Proof. apply (sanitized_text_clean "a note: BEARER x" "bearer "). by apply (bool_decide_unpack _). Defined.

Example sanitized_capitals : sanitize_model_text "a note: BEARER x" = "a note: [redacted]x".
Proof. vm_compute. reflexivity. Qed.

Definition sent_to_home_assistant : result string LocalVisionHaMqttContract :=
  build_local_vision_ha_mqtt_contract (stored_sighting "e1" "").
Definition sent_to_people : result string LocalVisionNotificationIntent :=
  build_local_vision_notification_intent (stored_sighting "e1" "") "family".

Example sighting_sent : is_ok sent_to_home_assistant && is_ok sent_to_people = true.
Proof. vm_compute. reflexivity. Qed.

Example rtsp_refused :
  validate_local_vision_event (sighting "e1" "see RTSP://10.0.0.2/1")
  = Err "local vision event contains sensitive material: rtsp_url".
Proof. vm_compute. reflexivity. Qed.

Lemma sighting_accepted : validate_local_vision_event (sighting "e1" "") = Ok tt.
Proof. vm_compute. reflexivity. Qed.

Lemma sent_texts_public_witness : Forall public_text (texts (event_value (sighting "e1" ""))).
Proof. exact (proj1 (sent_texts_public (stored_sighting "e1" "")) sighting_accepted). Defined.

(** * The file *)

Definition all_well : ReadEnv :=
  {| rd_open_error := None; rd_stat_error := None; rd_seek_error _ := None; rd_read_error _ := None |}.
Definition appends : AppendEnv :=
  {| ap_dir_error := None; ap_open_error := None; ap_write_error := None; ap_now := 1000 |}.

Lemma all_is_well : reads_well all_well.
Proof. repeat split. Qed.

Definition sighting_ops : list (AppendEnv * LocalVisionEvent) :=
  [(appends, sighting "e1" ""); (appends, sighting "e2" "token sk-1"); (appends, sighting "e3" "");
   (appends, sighting "e1" "")].
Definition sighting_log : option string * list StoredLocalVisionEvent :=
  ingest_all "events.jsonl" None sighting_ops.

Example sighting_file :
  sighting_log.1 = Some ("e1" +:+ String NEWLINE ("e3" +:+ String NEWLINE ("e1" +:+ String NEWLINE ""))).
Proof. vm_compute. reflexivity. Qed.

Lemma sighting_reads_back s :
  s ∈ sighting_log.2 -> exists line, reads_back s line.
Proof.
  assert (sighting_log.2 = [stored_sighting "e1" ""; stored_sighting "e3" ""; stored_sighting "e1" ""]) as ->
    by reflexivity.
  rewrite !elem_of_cons, elem_of_nil.
  intros [->|[->|[->|[]]]]; [exists "e1"|exists "e3"|exists "e1"]; (split; [reflexivity..|split; done|reflexivity]).
Qed.

Lemma sighting_writes op : op ∈ sighting_ops -> ap_write_error op.1 = None.
Proof. unfold sighting_ops. rewrite !elem_of_cons, elem_of_nil. by intros [->|[->|[->|[->|[]]]]]. Qed.

Lemma chunked_reading_complete_witness :
  list_recent_local_vision_events "events.jsonl" all_well 1 sighting_log.1
  = Some (Ok (take (target_limit 1)
      (distinct_events [] (omap event_of_line
         (reverse (split_char NEWLINE (whole_lines (cut_off (default "" sighting_log.1))
                                         (scanned_part (default "" sighting_log.1))))))))).
Proof. exact (chunked_reading_complete "events.jsonl" all_well 1 (default "" sighting_log.1) all_is_well). Defined.

Lemma sighting_short : (byte_count (default "" sighting_log.1) <= MAX_LOCAL_VISION_REVERSE_SCAN_BYTES)%Z.
Proof. vm_compute. done. Qed.

Lemma accepted_events_listed_witness :
  list_recent_local_vision_events "events.jsonl" all_well 10 sighting_log.1
  = Some (Ok (take (target_limit 10) (distinct_events [] (reverse sighting_log.2)))).
Proof.
  exact (accepted_events_listed "events.jsonl" None all_well 10 sighting_ops all_is_well sighting_writes
           sighting_reads_back sighting_short).
Defined.

Definition listed_ids (file : option string) : list string :=
  event_id_of <$> default [] (res_ok (default (Ok []) (list_recent_local_vision_events "events.jsonl" all_well 10 file))).

Example sighting_listed : listed_ids sighting_log.1 = ["e1"; "e3"].
Proof. vm_compute. reflexivity. Qed.

(** * What the checks do not mean *)

(** Only the first URL of a scheme is looked at. *)
Example second_url_passes :
  reject_sensitive_text "http://u:p@b/" = Err "local vision event contains URL credentials"
  /\ reject_sensitive_text "http://a/ http://u:p@b/" = Ok tt.
Proof. vm_compute. done. Qed.

Definition answer (text : string) : VlmSummaryExecution :=
  {| vx_available := true; vx_status := "ok"; vx_summary := ""; vx_provider_key := "local";
     vx_model_endpoint_id := None; vx_text := text; vx_details := JNull |}.

(** The sanitizer keeps what the acceptance refuses: an event with such a summary of
    the model is refused whole. *)
Example sanitized_refused :
  sanitize_model_text "Bearer x" = "Bearer x"
  /\ is_ok (validate_local_vision_event (attach_vlm_summary_to_event (sighting "e1" "") (answer "BEARER x") 1 JNull)) = true
  /\ validate_local_vision_event (attach_vlm_summary_to_event (sighting "e1" "") (answer "Bearer x") 1 JNull)
     = Err "local vision event contains sensitive material: api_key".
Proof. vm_compute. done. Qed.

(** After a write that was cut short the next event, which is accepted, is not
    listed. *)
Definition cut_short : AppendEnv :=
  {| ap_dir_error := None; ap_open_error := None; ap_write_error := Some ("no space left", "e"); ap_now := 1000 |}.
Definition after_cut : option string * result string StoredLocalVisionEvent :=
  ingest_local_vision_event "events.jsonl" None appends (sighting "e2" "")
    (ingest_local_vision_event "events.jsonl" None cut_short (sighting "e1" "") None).1.
Example event_after_cut_lost : is_ok after_cut.2 = true /\ listed_ids after_cut.1 = [].
Proof. vm_compute. done. Qed.

Definition seen (event_id camera started_at : string) : StoredLocalVisionEvent :=
  {| se_received_at := "epoch_ms:9000";
     se_event :=
       {| le_event_id := event_id; le_camera_id := camera; le_event_type := "person_detected";
          le_confidence := f32_zero; le_labels := ["Person"; "door"]; le_summary := "someone";
          le_snapshot_artifact := {| sa_artifact_id := None; sa_path := None; sa_mime_type := None;
                                     sa_byte_size := None; sa_sha256 := None; sa_source := None |};
          le_started_at := started_at; le_analyzer := "local"; le_latency_ms := 5; le_metrics := JNull;
          le_vlm := None |};
     se_audit_record := JNull; se_ha_mqtt_payload := JNull |}.

Definition seen_events : list StoredLocalVisionEvent :=
  [seen "e1" "hall" "epoch_ms:20000000001"; seen "e2" "door" "epoch_ms:20000000002";
   seen "e3" "hall" "epoch_ms:20000000003"].

(** * The timeline *)

Definition sample_timeline : result string FamilyTimelineResponse :=
  build_family_timeline_from_query 20000000100 20000000100 seen_events default_query_options.
Definition no_timeline : FamilyTimelineResponse :=
  {| tr_generated_at := ""; tr_window_seconds := 0; tr_event_count := 0; tr_metadata_only := true; tr_buckets := [];
     tr_events := [] |}.
Definition shown_timeline : FamilyTimelineResponse := default no_timeline (res_ok sample_timeline).

Lemma sample_timeline_ok : sample_timeline = Ok shown_timeline.
Proof. unfold shown_timeline. assert (is_ok sample_timeline = true) as H by reflexivity. by destruct sample_timeline. Qed.

Lemma timeline_shows_newest_witness :
  flat_map tb_event_ids (tr_buckets shown_timeline) ≡ₚ te_event_id <$> tr_events shown_timeline.
Proof.
  exact (proj2 (proj2 (proj2 (proj2 (proj2
    (timeline_shows_newest 20000000100 20000000100 seen_events default_query_options shown_timeline sample_timeline_ok)))))).
Defined.

Example sample_buckets :
  tb_event_ids <$> tr_buckets shown_timeline = [["e1"; "e3"]; ["e2"]]
  /\ (te_event_id <$> tr_events shown_timeline) = ["e3"; "e2"; "e1"].
Proof. vm_compute. done. Qed.

Example sample_counts : counted_strings ["Person"; "door "; "person"; ""] 8 = ["person"; "door"].
Proof. vm_compute. reflexivity. Qed.

(** * Feedback *)

Definition feedback_asking (action : string) (summary : option string) : FamilyMemoryFeedbackRequest :=
  {| fq_action := action; fq_corrected_summary := summary; fq_corrected_labels := None; fq_note := None |}.

Definition appends_well : AppendEnv :=
  {| ap_dir_error := None; ap_open_error := None; ap_write_error := None; ap_now := 1000 |}.
Definition lists_well : ListEnv := {| li_open_error := None; li_read_error := None |}.
Definition compacts_well : CompactEnv :=
  {| cp_list := lists_well; cp_create_error := None; cp_write_error _ := None |}.

Definition sample_op (uuid event_id action : string) (summary : option string) : FeedbackOp :=
  {| op_append := appends_well; op_compact := compacts_well; op_uuid := uuid; op_event_id := event_id;
     op_request := feedback_asking action summary; op_source := "webui" |}.

Definition sample_ops : list FeedbackOp :=
  [sample_op "a" "e1" "hide" None; sample_op "b" "e2" "correct_summary" (Some " a parcel came ");
   sample_op "c" "e2" "correct_summary" (Some "see rtsp://10.0.0.2"); sample_op "d" "e1" "restore" None;
   sample_op "e" "e3" "hide" None].

(** A text of records that keeps their identifiers. *)
Definition read_record (line : string) : option FamilyMemoryFeedbackRecord :=
  list_find (fun r => fb_feedback_id r =? line) (omap (fun op => res_ok (sanitized op)) sample_ops).
#[local] Instance sample_feedback_text : FeedbackText :=
  {| feedback_to_string r := Ok (fb_feedback_id r); feedback_from_str := read_record |}.

Definition sample_log : option string * list FamilyMemoryFeedbackRecord := append_all "feedback.jsonl" None sample_ops.

Lemma op_fine op : op ∈ sample_ops ->
  writes_well op /\ forall r, sanitized op = Ok r -> exists line, reads_as r line.
Proof.
  unfold sample_ops. rewrite !elem_of_cons, elem_of_nil.
  intros [->|[->|[->|[->|[->|[]]]]]]; (split; [done|]); intros r Hr;
    [exists "fmfb_a"|exists "fmfb_b"|done|exists "fmfb_d"|exists "fmfb_e"]; injection Hr as <-; by split.
Qed.

Lemma feedback_listed_witness :
  list_family_memory_feedback "feedback.jsonl" lists_well 2 sample_log.1
  = Ok (last_of (feedback_limit 2) sample_log.2).
Proof. exact (proj1 (feedback_listed "feedback.jsonl" None lists_well 2 sample_ops eq_refl eq_refl op_fine)). Defined.

Example sample_listed : (fb_feedback_id <$> sample_log.2) = ["fmfb_a"; "fmfb_b"; "fmfb_d"; "fmfb_e"].
Proof. vm_compute. reflexivity. Qed.

Lemma sample_accepted : Forall accepted (omap (fun op => res_ok (sanitized op)) sample_ops).
Proof.
  apply Forall_forall. intros r (op & _ & Hr)%list_elem_of_omap.
  destruct (sanitized op) as [r'|] eqn:Hs; [|done]. injection Hr as <-.
  exists (op_uuid op), (ap_now (op_append op)), (op_event_id op), (op_request op), (op_source op). exact Hs.
Qed.

Definition sample_records : list FamilyMemoryFeedbackRecord := omap (fun op => res_ok (sanitized op)) sample_ops.

Lemma feedback_decides_what_is_shown_witness :
  apply_family_memory_overlays_to_events seen_events (build_family_memory_overlays sample_records) false
  = (fun s => apply_family_memory_overlay_to_event s (build_family_memory_overlays sample_records !! le_event_id (se_event s)))
      <$> List.filter (fun s => negb (hides (List.filter (about (le_event_id (se_event s))) sample_records))) seen_events.
Proof. exact (proj1 (feedback_decides_what_is_shown sample_records seen_events sample_accepted)). Defined.

Example sample_shown :
  ((fun s => (te_event_id s, te_summary s)) ∘ family_timeline_event
     <$> apply_family_memory_overlays_to_events seen_events (build_family_memory_overlays sample_records) false)
  = [("e1", "someone"); ("e2", "a parcel came")].
Proof. vm_compute. reflexivity. Qed.

(** * What the code does not mean *)

(** Asking for the hidden events alone shows none. *)
Definition hidden_only : FamilyMemoryEventFilter :=
  {| mf_include_hidden := false; mf_favorites_only := false; mf_hidden_only := true; mf_corrected_only := false;
     mf_limit := 50 |}.
Example hidden_only_shows_none :
  hidden_in (build_family_memory_overlays sample_records) "e3" = true
  /\ build_family_memory_event_views seen_events (build_family_memory_overlays sample_records) hidden_only
       default_query_options = Ok [].
Proof. vm_compute. done. Qed.

(** One write cut within a character, and no feedback is read any more. *)
Example cut_character_stops_listing :
  is_ok (list_family_memory_feedback "feedback.jsonl" lists_well 10
           (Some (default "" sample_log.1 +:+ String "228" ""))) = false.
Proof. vm_compute. reflexivity. Qed.

(** A label that another action carries must not be an empty list. *)
Example favourite_refused :
  sanitize_family_memory_feedback "f" 1000 "e1"
    {| fq_action := "favorite"; fq_corrected_summary := None; fq_corrected_labels := Some []; fq_note := None |} "webui"
  = Err "corrected labels cannot be empty".
Proof. vm_compute. reflexivity. Qed.
