(* ===== verification/Guardian.v ===== *)
(** The home guardian's parts that keep no state of their own: the service actions on
    Home Assistant, [src/connectors/home_assistant.rs] (how a request is normalised,
    and which may be sent); its rules, [src/runtime/home_guardian.rs] (whether a rule
    matches an event of a camera, what it then does, the summaries of its runs); and
    the reviews of automations in the state of [src/runtime/admin_console.rs]. The
    whole state of the console is loaded and saved around a change of its reviews.
    Identifiers drawn and the clock are arguments ([Stamp]). *)
From Stdlib Require Import Ascii.
From S2P Require Import Prelude RustString Json VisionEvents.
Local Open Scope string_scope.
Local Open Scope list_scope.

Record HomeAssistantServiceActionRequest := {
  hr_entity_id : string;
  hr_domain : string;
  hr_service : string;
  hr_fields : jv
}.

Section service.
Context `{!UnicodeLower} `{!JsonText}.

Definition normalize_home_assistant_service_fields (fields : jv) : jv :=
  match fields with JNull => JObj [] | _ => fields end.

Definition normalize_home_assistant_service_action_request (r : HomeAssistantServiceActionRequest)
  : HomeAssistantServiceActionRequest :=
  {| hr_entity_id := to_lowercase (trim (hr_entity_id r)); hr_domain := to_lowercase (trim (hr_domain r));
     hr_service := to_lowercase (trim (hr_service r));
     hr_fields := normalize_home_assistant_service_fields (hr_fields r) |}.

Definition home_assistant_service_action_is_allowlisted (domain service : string) : bool :=
  let domain := to_lowercase (trim domain) in
  let service := to_lowercase (trim service) in
  (str_in domain ["light"; "switch"; "input_boolean"] && str_in service ["turn_on"; "turn_off"; "toggle"])
  || ((domain =? "scene") && (service =? "turn_on")).

Definition home_assistant_secret_like_key (key : string) : bool :=
  contains_any ["token"; "secret"; "password"; "passwd"; "api_key"; "apikey"; "authorization"; "bearer";
                "private_key"; "access_key"; "credential"] (to_lowercase (trim key)).

Definition home_assistant_secret_like_value (value : string) : bool :=
  contains_any ["bearer "; "authorization"; "api_key"; "apikey"; "access_token"; "private_key"; "-----begin ";
                "rtsp://"] (to_lowercase (trim value)).

(** The loop over the fields' entries. *)
Fixpoint check_fields (l : list (string * jv)) : result string unit :=
  match l with
  | [] => Ok tt
  | (key, value) :: l =>
      if home_assistant_secret_like_key key then
        Err "Home Assistant service fields cannot include secret-like keys"
      else if home_assistant_secret_like_value (default "" (res_ok (json_to_string value))) then
        Err "Home Assistant service fields cannot include secret-like values"
      else check_fields l
  end.

Definition validate_home_assistant_service_fields (fields : jv) : result string unit :=
  match fields with
  | JNull => Ok tt
  | JObj l => check_fields l
  | _ => Err "Home Assistant service fields must be a JSON object"
  end.

Definition safe_identifier_byte (c : ascii) : bool :=
  is_ascii_lowercase c || is_ascii_digit c || Ascii.eqb c "_" || Ascii.eqb c ".".

Definition validate_home_assistant_service_action_request (r : HomeAssistantServiceActionRequest)
    (enabled : bool) (exposed_domains : list string) : result string unit :=
  if negb enabled then Err "Home Assistant integration is disabled"
  else if is_empty (hr_entity_id r) || is_empty (hr_domain r) || is_empty (hr_service r) then
    Err "Home Assistant entity, domain, and service are required"
  else if negb (str_forall safe_identifier_byte (hr_entity_id r)) then
    Err "Home Assistant entity id is outside the safe identifier shape"
  else if negb (starts_with (hr_domain r +:+ ".") (hr_entity_id r)) then
    Err "Home Assistant entity id must match the requested domain"
  else if match exposed_domains with [] => false | _ => true end
          && negb (list_any (fun domain => eq_ignore_ascii_case (trim domain) (hr_domain r)) exposed_domains) then
    Err "Home Assistant domain is not in the allowlisted sync scope"
  else if negb (home_assistant_service_action_is_allowlisted (hr_domain r) (hr_service r)) then
    Err "Home Assistant service is not allowlisted for safe smoke control"
  else validate_home_assistant_service_fields (hr_fields r).
End service.

(** * Data *)

(** Of [src/runtime/admin_console.rs]. *)
Record AutomationRuleReview := {
  ar_review_id : string;
  ar_workspace_id : string;
  ar_source : string;
  ar_source_channel : option string;
  ar_source_conversation_id : option string;
  ar_original_prompt : string;
  ar_status : string;
  ar_trigger_definition : option jv;
  ar_condition_definition : option jv;
  ar_action_plan : option jv;
  ar_device_refs : list jv;
  ar_risk_level : option string;
  ar_requires_approval : bool;
  ar_created_at : option string;
  ar_updated_at : option string;
  ar_expires_at : option string;
  ar_rule_id : option string;
  ar_run_summaries : list jv;
  ar_metadata : option jv
}.

Record HomeGuardianActivityResponse := {
  ga_generated_at : string;
  ga_rule_count : nat;
  ga_active_count : nat;
  ga_rules : list jv;
  ga_activity : list jv;
  ga_counters : jv;
  ga_metadata_only : bool;
  ga_secret_scan : string
}.

Record HomeGuardianEvaluationResponse := {
  ge_evaluation_id : string;
  ge_status : string;
  ge_event_id : string;
  ge_evaluated_at : string;
  ge_results : list jv;
  ge_counters : jv;
  ge_metadata_only : bool;
  ge_secret_scan : string
}.

Record HomeGuardianHaServiceRequest := {
  hg_entity_id : string;
  hg_domain : string;
  hg_service : string
}.

Inductive HomeGuardianActionExecutionKind := NotifyDefaultTarget | HomeAssistantService | UnsupportedAction.

Record HomeGuardianActionExecutionPlan := {
  px_action : jv;
  px_action_key : string;
  px_idempotency_key : string;
  px_kind : HomeGuardianActionExecutionKind
}.

Inductive HomeGuardianRuleEvaluationPlan :=
| PlanCompleted (review : AutomationRuleReview) (summary : jv) (persist_summary : bool)
| PlanExecute (review : AutomationRuleReview) (actions : list HomeGuardianActionExecutionPlan).

(** A [Uuid::new_v4] and a reading of the clock in seconds, for one record. *)
Record Stamp := {
  stamp_uuid : string;
  stamp_now : Z
}.

(** * Text *)

(** The pointers of the code have one segment. *)
Definition json_string_at_paths (v : jv) (paths : list string) : option string :=
  find_map (fun p => (pointer [p] v ≫= jv_str) ≫= non_blank) paths.

Definition now_unix_string (now : Z) : string := show_Z now.

Definition is_quote (c : ascii) : bool :=
  list_any (Ascii.eqb c) ["034"; "'"; ","; ";"; ")"; "("]%char.

Definition looks_like_local_path (value : string) : bool :=
  let trimmed := trim_matches is_quote value in
  if (2 <? str_len trimmed)%nat && bool_decide (String.get 1 trimmed = Some ":"%char)
  then match String.get 2 trimmed with
       | Some c => Ascii.eqb c "\" || Ascii.eqb c "/"
       | None => false
       end
  else list_any (fun p => starts_with p trimmed) ["/home/"; "/Users/"; "/mnt/"; "/var/"; "/tmp/"].

Definition hidden_token (token : string) : bool :=
  let lower := to_ascii_lowercase token in
  contains_any ["token="; "password="; "secret="; "authorization:"; "bearer "] lower
  || list_any (fun p => starts_with p lower) ["rtsp://"; "http://"; "https://"]
  || looks_like_local_path token.

Definition redact_home_guardian_string (value : string) : string :=
  join " " ((fun token => if hidden_token token then "[redacted]" else token) <$> split_whitespace value).

Definition compact_redacted_reason (reason : string) : string :=
  chars_take 240 (redact_home_guardian_string reason).

(** * Which rules *)

Definition automation_review_is_home_guardian (r : AutomationRuleReview) : bool :=
  let source := to_ascii_lowercase (trim (ar_source r)) in
  (source =? "home_guardian") || (source =? "harbornavi_home_guardian")
  || default false (ar_metadata r ≫= (fun m => pointer ["home_guardian"] m ≫= jv_bool))
  || bool_decide ((ar_metadata r ≫= (fun m => pointer ["feature"] m ≫= jv_str)) = Some "home_guardian").

(** [Ord] of the strings at two paths, latest first. *)
Definition created_key (v : jv) : option string := json_string_at_paths v ["created_at"; "evaluated_at"].
Definition latest_first (l r : jv) : comparison :=
  option_compare String.compare (created_key r) (created_key l).

Definition select_home_guardian_reviews (reviews : list AutomationRuleReview) (only_review_id : option string)
  : result string (list AutomationRuleReview) :=
  let selected := List.filter (fun r => match only_review_id with
                                        | Some review_id => ar_review_id r =? review_id
                                        | None => true
                                        end) reviews in
  match only_review_id, selected with
  | Some _, [] => Err "home guardian rule review not found"
  | _, _ => Ok (sort_by (fun l r => String.compare (ar_review_id l) (ar_review_id r)) selected)
  end.

Definition required_labels (labels : list jv) : list string :=
  List.filter (fun label => negb (is_empty label))
    ((fun label => to_ascii_lowercase (trim label)) <$> omap jv_str labels).

(** The checks of [home_guardian_trigger_matches_event], in its order. *)
Definition camera_matches (trigger : jv) (e : LocalVisionEvent) : bool :=
  match json_string_at_paths trigger ["camera_id"; "camera"] with
  | Some camera_id => to_ascii_lowercase (trim camera_id) =? to_ascii_lowercase (le_camera_id e)
  | None => true
  end.

Definition event_type_matches (trigger : jv) (e : LocalVisionEvent) : bool :=
  match json_string_at_paths trigger ["event_type"] with
  | Some event_type => to_ascii_lowercase (trim event_type) =? to_ascii_lowercase (le_event_type e)
  | None => true
  end.

Definition confidence_matches (trigger : jv) (e : LocalVisionEvent) : bool :=
  match f64_as_f32 <$> (pointer ["min_confidence"] trigger ≫= jv_f64) with
  | Some min_confidence => negb (SFltb (le_confidence e) min_confidence)
  | None => true
  end.

Definition labels_match (trigger : jv) (e : LocalVisionEvent) : bool :=
  match pointer ["labels"] trigger ≫= jv_array with
  | Some labels =>
      list_all (fun label => str_in label (to_ascii_lowercase <$> le_labels e)
                             || (to_ascii_lowercase (le_event_type e) =? label)) (required_labels labels)
  | None => true
  end.

Definition home_guardian_trigger_matches_event (trigger : jv) (stored : StoredLocalVisionEvent) : bool * string :=
  let e := se_event stored in
  if negb (camera_matches trigger e) then (false, "camera_id did not match")
  else if negb (event_type_matches trigger e) then (false, "event_type did not match")
  else if negb (confidence_matches trigger e) then (false, "confidence below rule threshold")
  else if negb (labels_match trigger e) then (false, "labels did not match")
  else (true, "matched").

(** * Actions *)

Definition home_guardian_action_plan_actions (action_plan : option jv) : list jv :=
  match action_plan with
  | None => []
  | Some plan =>
      match pointer ["actions"] plan ≫= jv_array with
      | Some actions => actions
      | None => if is_object plan then [plan] else []
      end
  end.

Definition home_guardian_action_kind (action : jv) : string :=
  to_ascii_lowercase (trim (default "" (json_string_at_paths action ["kind"; "action"; "type"]))).

Definition home_guardian_ha_service_request (action : jv) : HomeGuardianHaServiceRequest :=
  let nested := match pointer ["home_assistant"] action with
                | Some v => v
                | None => default action (pointer ["ha"] action)
                end in
  {| hg_entity_id := default "" (json_string_at_paths nested ["entity_id"]);
     hg_domain := default "" (json_string_at_paths nested ["domain"]);
     hg_service := default "" (json_string_at_paths nested ["service"]) |}.

Definition home_guardian_action_key (action : jv) : string :=
  let kind := home_guardian_action_kind action in
  if str_contains "notify" kind then "notify_default_target"
  else if str_contains "ha" kind || str_contains "home_assistant" kind then
    let request := home_guardian_ha_service_request action in
    "ha:" +:+ hg_domain request +:+ ":" +:+ hg_service request +:+ ":" +:+ hg_entity_id request
  else if is_empty kind then "unsupported" else kind.

Definition home_guardian_action_is_notify (action : jv) : bool :=
  str_in (home_guardian_action_kind action) ["notify"; "notify_default_target"; "event_notify"; "notification"].

Definition home_guardian_action_is_ha_service_action (action : jv) : bool :=
  str_in (home_guardian_action_kind action)
    ["ha_service_action"; "home_assistant_service_action"; "home_assistant"].

(** [rule_id], unless it is blank, else [review_id]. *)
Definition rule_key (r : AutomationRuleReview) : string :=
  match ar_rule_id r with
  | Some rule_id => if is_blank rule_id then ar_review_id r else rule_id
  | None => ar_review_id r
  end.

Definition home_guardian_idempotency_key (r : AutomationRuleReview) (stored : StoredLocalVisionEvent)
    (action_key : string) : string :=
  rule_key r +:+ ":" +:+ le_event_id (se_event stored) +:+ ":" +:+ action_key.

Definition home_guardian_action_execution_plan (r : AutomationRuleReview) (stored : StoredLocalVisionEvent)
    (action : jv) : HomeGuardianActionExecutionPlan :=
  let action_key := home_guardian_action_key action in
  {| px_action := action; px_action_key := action_key;
     px_idempotency_key := home_guardian_idempotency_key r stored action_key;
     px_kind := if home_guardian_action_is_notify action then NotifyDefaultTarget
                else if home_guardian_action_is_ha_service_action action then HomeAssistantService
                else UnsupportedAction |}.

Definition home_guardian_redacted_action (action : jv) : jv :=
  if home_guardian_action_is_notify action then
    json_object [("kind", JStr "notify_default_target"); ("target", JStr "default_notification_target")]
  else if home_guardian_action_is_ha_service_action action then
    let request := home_guardian_ha_service_request action in
    json_object [("kind", JStr "ha_service_action"); ("domain", JStr (hg_domain request));
                 ("service", JStr (hg_service request)); ("entity_id", JStr (hg_entity_id request));
                 ("fields_empty", JBool true)]
  else json_object [("kind", JStr (home_guardian_action_key action)); ("status", JStr "unsupported")].

Definition home_guardian_redacted_action_plan (action_plan : option jv) : jv :=
  json_object [("actions", JArr (home_guardian_redacted_action <$> home_guardian_action_plan_actions action_plan));
               ("metadata_only", JBool true)].

(** * Summaries *)

Definition str_or (d : string) (v : jv) (k : string) : jv := JStr (default d (jv_get v k ≫= jv_str)).
Definition opt_text (v : jv) (k : string) : jv := json_option JStr (jv_get v k ≫= jv_str).
Definition flag (v : jv) (k : string) : jv := JBool (default false (jv_get v k ≫= jv_bool)).
Definition reason_of (v : jv) : jv :=
  json_option JStr (compact_redacted_reason <$> (jv_get v "reason" ≫= jv_str)).
Definition array_or_empty (v : jv) (k : string) : list jv := default [] (jv_get v k ≫= jv_array).

Definition compact_home_guardian_action_result (action : jv) : jv :=
  json_object
    [("action", str_or "unknown" action "action"); ("status", str_or "unknown" action "status");
     ("executed", flag action "executed"); ("idempotency_key", opt_text action "idempotency_key");
     ("domain", opt_text action "domain"); ("service", opt_text action "service");
     ("entity_id", opt_text action "entity_id");
     ("notification_status", opt_text action "notification_status"); ("reason", reason_of action);
     ("redacted", JBool true)].

Definition compact_home_guardian_result (result : jv) : jv :=
  let actions := array_or_empty result "actions" in
  json_object
    [("run_id", opt_text result "run_id"); ("review_id", opt_text result "review_id");
     ("rule_id", opt_text result "rule_id"); ("event_id", opt_text result "event_id");
     ("camera_id", opt_text result "camera_id"); ("event_type", opt_text result "event_type");
     ("status", str_or "unknown" result "status"); ("matched", flag result "matched");
     ("executed", flag result "executed"); ("reason", reason_of result);
     ("action_count", JNum (Z.of_nat (length actions)));
     ("actions", JArr (compact_home_guardian_action_result <$> take 5 actions));
     ("created_at", opt_text result "created_at"); ("metadata_only", JBool true);
     ("secret_scan", JStr "clean"); ("redacted", JBool true)].

Definition compact_home_guardian_trigger (trigger : option jv) : jv :=
  match trigger with
  | None => json_object [("metadata_only", JBool true)]
  | Some t =>
      json_object
        [("camera_id", json_option JStr (json_string_at_paths t ["camera_id"; "camera"]));
         ("event_type", json_option JStr (json_string_at_paths t ["event_type"]));
         ("labels", JArr (JStr <$> default [] ((fun l => take 8 (omap jv_str l))
                                                 <$> (pointer ["labels"] t ≫= jv_array))));
         ("min_confidence", json_option JFloat (pointer ["min_confidence"] t ≫= jv_f64));
         ("metadata_only", JBool true)]
  end.

Definition compact_home_guardian_proposal_evidence (v : jv) : jv :=
  json_object
    [("status", str_or "proposed" v "status"); ("review_id", opt_text v "review_id");
     ("rule_id", opt_text v "rule_id"); ("trigger", compact_home_guardian_trigger (jv_get v "trigger"));
     ("action_plan", default (json_object [("actions", JArr []); ("metadata_only", JBool true)])
                       (jv_get v "action_plan"));
     ("requires_enable", JBool (default true (jv_get v "requires_enable" ≫= jv_bool)));
     ("created_at", opt_text v "created_at"); ("metadata_only", JBool true);
     ("secret_scan", JStr "clean"); ("redacted", JBool true)].

Definition compact_home_guardian_evaluation_evidence (v : jv) : jv :=
  let results := array_or_empty v "results" in
  json_object
    [("evaluation_id", opt_text v "evaluation_id"); ("status", str_or "evaluated" v "status");
     ("event_id", opt_text v "event_id"); ("evaluated_at", opt_text v "evaluated_at");
     ("result_count", JNum (Z.of_nat (length results)));
     ("results", JArr (compact_home_guardian_result <$> take 5 results));
     ("counters", default (JObj []) (jv_get v "counters")); ("metadata_only", JBool true);
     ("secret_scan", JStr "clean"); ("redacted", JBool true)].

Definition home_guardian_rule_summary (r : AutomationRuleReview) : jv :=
  json_object
    [("review_id", JStr (ar_review_id r)); ("rule_id", json_option JStr (ar_rule_id r));
     ("status", JStr (ar_status r)); ("source", JStr (ar_source r));
     ("risk_level", json_option JStr (ar_risk_level r));
     ("requires_approval", JBool (ar_requires_approval r));
     ("trigger", default JNull (ar_trigger_definition r));
     ("action_plan", home_guardian_redacted_action_plan (ar_action_plan r));
     ("run_count", JNum (Z.of_nat (length (ar_run_summaries r))));
     ("last_run", default JNull (last (ar_run_summaries r))); ("metadata_only", JBool true);
     ("secret_scan", JStr "clean")].

Definition home_guardian_rule_run_summary (r : AutomationRuleReview) (stored : StoredLocalVisionEvent)
    (status : string) (matched executed : bool) (reason : string) (actions : list jv) (at_stamp : Stamp) : jv :=
  let e := se_event stored in
  json_object
    [("run_id", JStr ("guardian_run_" +:+ stamp_uuid at_stamp)); ("review_id", JStr (ar_review_id r));
     ("rule_id", json_option JStr (ar_rule_id r)); ("event_id", JStr (le_event_id e));
     ("camera_id", JStr (le_camera_id e)); ("event_type", JStr (le_event_type e));
     ("status", JStr status); ("matched", JBool matched); ("executed", JBool executed);
     ("reason", JStr (redact_home_guardian_string reason));
     ("actions", JArr (compact_home_guardian_action_result <$> actions));
     ("created_at", JStr (now_unix_string (stamp_now at_stamp))); ("metadata_only", JBool true);
     ("secret_scan", JStr "clean")].

Definition latest_home_guardian_run_summaries (summaries : list jv) : list jv :=
  reverse (take 50 (sort_by latest_first summaries)).

Definition set_run_summaries (l : list jv) (r : AutomationRuleReview) : AutomationRuleReview :=
  {| ar_review_id := ar_review_id r; ar_workspace_id := ar_workspace_id r; ar_source := ar_source r;
     ar_source_channel := ar_source_channel r;
     ar_source_conversation_id := ar_source_conversation_id r;
     ar_original_prompt := ar_original_prompt r; ar_status := ar_status r;
     ar_trigger_definition := ar_trigger_definition r;
     ar_condition_definition := ar_condition_definition r; ar_action_plan := ar_action_plan r;
     ar_device_refs := ar_device_refs r; ar_risk_level := ar_risk_level r;
     ar_requires_approval := ar_requires_approval r; ar_created_at := ar_created_at r;
     ar_updated_at := ar_updated_at r; ar_expires_at := ar_expires_at r; ar_rule_id := ar_rule_id r;
     ar_run_summaries := l; ar_metadata := ar_metadata r |}.

Definition append_home_guardian_run_summary (r : AutomationRuleReview) (summary : jv) : AutomationRuleReview :=
  set_run_summaries (latest_home_guardian_run_summaries (ar_run_summaries r ++ [summary])) r.

(** The text at [status]. *)
Definition status_of (v : jv) : option string := jv_get v "status" ≫= jv_str.
Definition has_status (l : list string) (v : jv) : bool :=
  match status_of v with Some s => str_in s l | None => false end.

Definition home_guardian_run_status_from_actions (actions : list jv) : string :=
  if list_any (has_status ["delivered"; "acted"]) actions then "acted"
  else if list_any (has_status ["failed"]) actions then "failed"
  else if list_any (has_status ["blocked"]) actions then "blocked"
  else "skipped".

(** [*counters.entry(key).or_default() += 1], in the order of the map. *)
Fixpoint count_status (key : string) (counters : list (string * Z)) : list (string * Z) :=
  match counters with
  | [] => [(key, 1%Z)]
  | (k, n) :: r =>
      match String.compare key k with
      | Lt => (key, 1%Z) :: counters
      | Eq => (k, (n + 1)%Z) :: r
      | Gt => (k, n) :: count_status key r
      end
  end.

(** The keys counted for one result. *)
Definition counted_statuses (result : jv) : list string :=
  default "unknown" (status_of result)
  :: ((fun a => "action_" +:+ default "unknown" (status_of a)) <$> array_or_empty result "actions").

Definition home_guardian_result_counters (results : list jv) : jv :=
  JObj (prod_map id JNum <$> foldl (fun m k => count_status k m) [] (results ≫= counted_statuses)).

Definition home_guardian_run_already_recorded (r : AutomationRuleReview) (idempotency_key : string) : bool :=
  list_any (fun summary =>
    match pointer ["actions"] summary ≫= jv_array with
    | None => false
    | Some actions =>
        list_any (fun action =>
          bool_decide ((jv_get action "idempotency_key" ≫= jv_str) = Some idempotency_key)
          && has_status ["delivered"; "acted"; "skipped"] action) actions
    end) (ar_run_summaries r).

Definition home_guardian_idempotent_action_result (action_key idempotency_key : string) : jv :=
  json_object [("action", JStr action_key); ("status", JStr "skipped"); ("executed", JBool false);
               ("idempotency_key", JStr idempotency_key);
               ("reason", JStr "idempotent duplicate event/action run"); ("redacted", JBool true)].

Definition home_guardian_unsupported_action_result (action_key idempotency_key : string) : jv :=
  json_object [("action", JStr action_key); ("status", JStr "blocked"); ("executed", JBool false);
               ("idempotency_key", JStr idempotency_key);
               ("reason", JStr "Unsupported Home Guardian action."); ("redacted", JBool true)].

(** * Evaluation *)

Definition build_home_guardian_rule_evaluation_plan (r : AutomationRuleReview) (stored : StoredLocalVisionEvent)
    (only_review_requested execute_active : bool) (at_stamp : Stamp) : option HomeGuardianRuleEvaluationPlan :=
  let completed status matched reason persist :=
    Some (PlanCompleted r (home_guardian_rule_run_summary r stored status matched false reason [] at_stamp)
            persist) in
  if negb (automation_review_is_home_guardian r) then
    if only_review_requested
    then completed "skipped" false "Automation review is not a Home Guardian rule." false
    else None
  else match ar_trigger_definition r with
  | None => completed "blocked" false "Home Guardian rule is missing a trigger definition." false
  | Some trigger =>
      let (matched, match_reason) := home_guardian_trigger_matches_event trigger stored in
      if negb matched then completed "skipped" false match_reason only_review_requested
      else if negb (ar_status r =? "active") || negb execute_active then
        completed "skipped" true
          "Home Guardian rule is not active; explicit enable is required before execution." true
      else match home_guardian_action_plan_actions (ar_action_plan r) with
      | [] => completed "blocked" true "Home Guardian rule has no supported action plan." only_review_requested
      | actions => Some (PlanExecute r (home_guardian_action_execution_plan r stored <$> actions))
      end
  end.

Definition complete_home_guardian_rule_execution (r : AutomationRuleReview) (stored : StoredLocalVisionEvent)
    (action_results : list jv) (at_stamp : Stamp) : jv :=
  home_guardian_rule_run_summary r stored (home_guardian_run_status_from_actions action_results) true
    (list_any (fun a => default false (jv_get a "executed" ≫= jv_bool)) action_results)
    "Home Guardian rule evaluated against a local vision event." action_results at_stamp.

Definition build_home_guardian_evaluation_response (stored : StoredLocalVisionEvent) (results : list jv)
    (at_stamp : Stamp) : HomeGuardianEvaluationResponse :=
  {| ge_evaluation_id := "guardian_eval_" +:+ stamp_uuid at_stamp;
     ge_status := if list_any (has_status ["acted"]) results then "acted"
                  else if list_any (has_status ["blocked"; "failed"]) results then "degraded"
                  else "evaluated";
     ge_event_id := le_event_id (se_event stored);
     ge_evaluated_at := now_unix_string (stamp_now at_stamp); ge_results := results;
     ge_counters := home_guardian_result_counters results; ge_metadata_only := true;
     ge_secret_scan := "clean" |}.

(** * Activity *)

Definition build_home_guardian_activity_response_with_activity (reviews : list AutomationRuleReview)
    (external_activity : list jv) (now : Z) : HomeGuardianActivityResponse :=
  let guardian := List.filter automation_review_is_home_guardian reviews in
  let external_activity := match external_activity with
                           | [] => guardian ≫= ar_run_summaries
                           | _ => external_activity
                           end in
  let activity := take 25 (sort_by latest_first external_activity) in
  {| ga_generated_at := now_unix_string now; ga_rule_count := length guardian;
     ga_active_count := length (List.filter (fun r => ar_status r =? "active") guardian);
     ga_rules := home_guardian_rule_summary <$> guardian; ga_activity := activity;
     ga_counters := home_guardian_result_counters activity; ga_metadata_only := true;
     ga_secret_scan := "clean" |}.

Definition build_home_guardian_activity_response (reviews : list AutomationRuleReview) (now : Z)
  : HomeGuardianActivityResponse :=
  build_home_guardian_activity_response_with_activity reviews [] now.

(** [serde_json::to_string] of a review. *)
Class ReviewText := { review_to_string : AutomationRuleReview -> result string string }.

Definition DEFAULT_WORKSPACE_ID : string := "home-1".

Definition SENSITIVE_PAYLOAD : list string :=
  ["rtsp://"; "rtsps://"; "ha_token"; "home_assistant_token"; "access_token"; "api_key"; "apikey"; "private_key";
   "begin private key"; "camera credential"; "camera_credential"; "upload_url"; "presigned";
   "/var/lib/harboros-beacon"; "/tmp/harbornavi"].

Definition REVIEW_STATUSES : list string := ["draft"; "pending"; "active"; "paused"; "discarded"; "expired"].

Section reviews.
Context `{!ReviewText}.

Definition sanitize_automation_review_status (status : string) : result string string :=
  let normalized := to_ascii_lowercase (trim status) in
  let normalized := if is_empty normalized then "draft" else normalized in
  if str_in normalized REVIEW_STATUSES then Ok normalized
  else Err ("不支持的 automation review status " +:+ status).

Definition automation_review_has_sensitive_payload (r : AutomationRuleReview) : bool :=
  match review_to_string r with
  | Err _ => true
  | Ok payload => contains_any SENSITIVE_PAYLOAD (to_ascii_lowercase payload)
  end.

(** [uuid] is drawn for a blank identifier. *)
Definition sanitize_automation_review (uuid : string) (r : AutomationRuleReview)
  : result string AutomationRuleReview :=
  let review_id := trim (ar_review_id r) in
  let original_prompt := trim (ar_original_prompt r) in
  if is_empty original_prompt then Err "original_prompt 不能为空" else
  match sanitize_automation_review_status (ar_status r) with
  | Err error => Err error
  | Ok status =>
      let r :=
        {| ar_review_id := if is_empty review_id then "review-" +:+ uuid else review_id;
           ar_workspace_id := default DEFAULT_WORKSPACE_ID (non_blank (ar_workspace_id r));
           ar_source := default "harbor_assistant" (non_blank (ar_source r));
           ar_source_channel := ar_source_channel r ≫= non_blank;
           ar_source_conversation_id := ar_source_conversation_id r ≫= non_blank;
           ar_original_prompt := original_prompt; ar_status := status;
           ar_trigger_definition := ar_trigger_definition r;
           ar_condition_definition := ar_condition_definition r; ar_action_plan := ar_action_plan r;
           ar_device_refs := ar_device_refs r; ar_risk_level := ar_risk_level r ≫= non_blank;
           ar_requires_approval := ar_requires_approval r; ar_created_at := ar_created_at r ≫= non_blank;
           ar_updated_at := ar_updated_at r ≫= non_blank; ar_expires_at := ar_expires_at r ≫= non_blank;
           ar_rule_id := ar_rule_id r ≫= non_blank; ar_run_summaries := ar_run_summaries r;
           ar_metadata := ar_metadata r |} in
      if automation_review_has_sensitive_payload r
      then Err "automation review payload 包含敏感字段，已拒绝保存" else Ok r
  end.

(** The loop: [uuids] has a draw for each review. *)
Fixpoint keep_first_ids (uuids : nat -> string) (seen : list string) (l : list AutomationRuleReview)
  : list AutomationRuleReview :=
  match l with
  | [] => []
  | r :: l =>
      let rest := keep_first_ids (fun n => uuids (S n)) in
      match sanitize_automation_review (uuids 0) r with
      | Err _ => rest seen l
      | Ok r => if str_in (ar_review_id r) seen then rest seen l
                else r :: rest (ar_review_id r :: seen) l
      end
  end.

Definition latest_updated (l r : AutomationRuleReview) : comparison :=
  option_compare String.compare (ar_updated_at r) (ar_updated_at l).

Definition sanitize_automation_reviews (uuids : nat -> string) (l : list AutomationRuleReview)
  : list AutomationRuleReview :=
  take 100 (sort_by latest_updated (keep_first_ids uuids [] l)).

Definition set_times (created_at updated_at : option string) (r : AutomationRuleReview) : AutomationRuleReview :=
  {| ar_review_id := ar_review_id r; ar_workspace_id := ar_workspace_id r; ar_source := ar_source r;
     ar_source_channel := ar_source_channel r;
     ar_source_conversation_id := ar_source_conversation_id r;
     ar_original_prompt := ar_original_prompt r; ar_status := ar_status r;
     ar_trigger_definition := ar_trigger_definition r;
     ar_condition_definition := ar_condition_definition r; ar_action_plan := ar_action_plan r;
     ar_device_refs := ar_device_refs r; ar_risk_level := ar_risk_level r;
     ar_requires_approval := ar_requires_approval r; ar_created_at := created_at;
     ar_updated_at := updated_at; ar_expires_at := ar_expires_at r; ar_rule_id := ar_rule_id r;
     ar_run_summaries := ar_run_summaries r; ar_metadata := ar_metadata r |}.

Definition set_review_status (status : string) (r : AutomationRuleReview) : AutomationRuleReview :=
  {| ar_review_id := ar_review_id r; ar_workspace_id := ar_workspace_id r; ar_source := ar_source r;
     ar_source_channel := ar_source_channel r;
     ar_source_conversation_id := ar_source_conversation_id r;
     ar_original_prompt := ar_original_prompt r; ar_status := status;
     ar_trigger_definition := ar_trigger_definition r;
     ar_condition_definition := ar_condition_definition r; ar_action_plan := ar_action_plan r;
     ar_device_refs := ar_device_refs r; ar_risk_level := ar_risk_level r;
     ar_requires_approval := ar_requires_approval r; ar_created_at := ar_created_at r;
     ar_updated_at := ar_updated_at r; ar_expires_at := ar_expires_at r; ar_rule_id := ar_rule_id r;
     ar_run_summaries := ar_run_summaries r; ar_metadata := ar_metadata r |}.

(** [now] is the clock in seconds; the draws are of the review and of the list. *)
Definition upsert_automation_review (now : Z) (uuid : string) (uuids : nat -> string)
    (r : AutomationRuleReview) (l : list AutomationRuleReview) : result string (list AutomationRuleReview) :=
  match sanitize_automation_review uuid r with
  | Err error => Err error
  | Ok r =>
      let now := Some (show_Z now) in
      let r := set_times (if is_some (ar_created_at r) then ar_created_at r else now) now r in
      Ok (sanitize_automation_reviews uuids
            (upsert_first (fun x => ar_review_id x =? ar_review_id r) (fun _ => r) r l))
  end.

Fixpoint change_first {A} (p : A -> bool) (f : A -> A) (l : list A) : option (list A) :=
  match l with
  | [] => None
  | y :: l => if p y then Some (f y :: l) else cons y <$> change_first p f l
  end.

Definition set_automation_review_status (now : Z) (uuids : nat -> string) (review_id status : string)
    (l : list AutomationRuleReview) : result string (list AutomationRuleReview) :=
  let review_id := trim review_id in
  if is_empty review_id then Err "review_id 不能为空" else
  match sanitize_automation_review_status status with
  | Err error => Err error
  | Ok status =>
      match change_first (fun r => ar_review_id r =? review_id)
              (fun r => set_times (ar_created_at r) (Some (show_Z now)) (set_review_status status r)) l with
      | None => Err ("未找到 automation review " +:+ review_id)
      | Some l => Ok (sanitize_automation_reviews uuids l)
      end
  end.
End reviews.
