(* ===== verification/GuardianRuntime.v ===== *)
(** The home guardian at work, [src/bin/agent_hub_admin_api.rs]: events are queued,
    a worker evaluates the active rules for each, an administrator evaluates one
    rule by hand; an action is not run again where it is remembered as run, nor, by the
    worker, while it cools down. An evaluation is here one function of the state, as it
    goes when no other comes between; on threads it is in [GuardianOnce].

    What the actions reach is [Notifications] and the interface [GuardianWorld]. The admin state is
    taken as its three parts that are read here. Outcomes of loads and saves, the
    clock and identifiers drawn come from environments, one per evaluation, rule,
    action and save. [redact_admin_string], which [AdminRedaction] models, is any function
    here. A poisoned lock is not modelled, nor are the evidence slots
    [last_event_notification_attempt] and [last_home_assistant_service_action]. *)
From S2P Require Import Prelude RustString Json ServiceAuth Notifications VisionEvents.
From S2P Require Import Guardian.
Local Open Scope string_scope.
Local Open Scope list_scope.

(** * Constants *)

Definition HOME_GUARDIAN_EVALUATION_QUEUE_CAPACITY : nat := 128.
Definition HOME_GUARDIAN_AUTO_EVALUATION_MIN_INTERVAL_SECONDS : Z := 60.
Definition HOME_GUARDIAN_ACTION_COOLDOWN_SECONDS : Z := 300.
Definition HOME_GUARDIAN_IDEMPOTENCY_MEMORY_SECONDS : Z := 7 * 24 * 60 * 60.
Definition HOME_GUARDIAN_ACTIVITY_LIMIT : nat := 500.

(** * Data *)

Record NotificationTargetRecord := {
  nt_target_id : string;
  nt_label : string;
  nt_route_key : string;
  nt_platform_hint : string;
  nt_is_default : bool
}.

(** Of [HomeAssistantAdminState], without its address and token, which
    [redact_home_assistant_state] clears. *)
Record HomeAssistantAdminState := {
  ha_enabled : bool;
  ha_exposed_domains : list string;
  ha_last_status : string;
  ha_last_error : option string
}.

Record AdminView := {
  av_reviews : list AutomationRuleReview;
  av_home_assistant : HomeAssistantAdminState;
  av_targets : list NotificationTargetRecord
}.

Definition set_reviews (l : list AutomationRuleReview) (a : AdminView) : AdminView :=
  {| av_reviews := l; av_home_assistant := av_home_assistant a; av_targets := av_targets a |}.

Record HomeGuardianRuleCache := {
  active_reviews : list AutomationRuleReview;
  loaded_at_epoch : Z;
  file_bytes : Z;
  modified_epoch_ms : option Z;
  refresh_error : option string
}.

(** The counters, and the events in the channel, oldest first; [connected] while
    the worker holds its end. *)
Record HomeGuardianEvaluationQueue := {
  channel : list StoredLocalVisionEvent;
  connected : bool;
  queued_total : Z;
  dropped_total : Z;
  processed_total : Z;
  failed_total : Z;
  coalesced_total : Z;
  disconnected_total : Z
}.

Record GuardianState := {
  g_admin : AdminView;
  guardian_auto_eval_cooldowns : gmap string Z;
  guardian_cooldowns : gmap string Z;
  guardian_action_runs : gmap string Z;
  guardian_rule_cache : HomeGuardianRuleCache;
  guardian_queue : HomeGuardianEvaluationQueue;
  activity_log : list jv;
  last_guardian_rule_evaluation : option jv
}.

(** Besides the gateway of notifications, what the actions reach: a client of Home
    Assistant from the environment and its call of a service; and the texts the
    console redacts. *)
Class GuardianWorld (W : Type) := {
  client_from_harborlink_env : W -> result string unit;
  call_service : string -> string -> string -> W -> W * result string unit;
  redact_admin_string : string -> string
}.

(** ** Environments *)

(** A save of the admin state: the error of the load or the write with what the
    file then holds, the clock and the draws. *)
Record SaveEnv := {
  save_fault : option (string * AdminView);
  save_now : Z;
  save_uuid : string;
  save_uuids : nat -> string
}.

(** An append to the activity log: whether it is read, and what a failed write
    leaves. *)
Record LogEnv := {
  log_reads : bool;
  log_remains : option (list jv)
}.

(** An action: whether the state is loaded, and the identifier of a delivery. *)
Record ActionEnv := {
  ae_load_error : option string;
  ae_uuid : string
}.

Record RuleEnv := {
  re_stamp : Stamp;
  re_epoch : Z;
  re_action : nat -> ActionEnv;
  re_save : SaveEnv;
  re_log : LogEnv
}.

(** The fingerprint of the state's file when the cache is looked at and after it
    is refreshed. *)
Record EvalEnv := {
  ee_load_error : option string;
  ee_fingerprint : Z * option Z;
  ee_refresh_epoch : Z;
  ee_refresh_fingerprint : Z * option Z;
  ee_rule : nat -> RuleEnv;
  ee_stamp : Stamp
}.

(** * State changes *)

Definition set_admin (a : AdminView) (g : GuardianState) : GuardianState :=
  {| g_admin := a; guardian_auto_eval_cooldowns := guardian_auto_eval_cooldowns g;
     guardian_cooldowns := guardian_cooldowns g; guardian_action_runs := guardian_action_runs g;
     guardian_rule_cache := guardian_rule_cache g; guardian_queue := guardian_queue g;
     activity_log := activity_log g; last_guardian_rule_evaluation := last_guardian_rule_evaluation g |}.

Definition set_auto_eval_cooldowns (m : gmap string Z) (g : GuardianState) : GuardianState :=
  {| g_admin := g_admin g; guardian_auto_eval_cooldowns := m;
     guardian_cooldowns := guardian_cooldowns g; guardian_action_runs := guardian_action_runs g;
     guardian_rule_cache := guardian_rule_cache g; guardian_queue := guardian_queue g;
     activity_log := activity_log g; last_guardian_rule_evaluation := last_guardian_rule_evaluation g |}.

Definition set_cooldowns (m : gmap string Z) (g : GuardianState) : GuardianState :=
  {| g_admin := g_admin g; guardian_auto_eval_cooldowns := guardian_auto_eval_cooldowns g;
     guardian_cooldowns := m; guardian_action_runs := guardian_action_runs g;
     guardian_rule_cache := guardian_rule_cache g; guardian_queue := guardian_queue g;
     activity_log := activity_log g; last_guardian_rule_evaluation := last_guardian_rule_evaluation g |}.

Definition set_action_runs (m : gmap string Z) (g : GuardianState) : GuardianState :=
  {| g_admin := g_admin g; guardian_auto_eval_cooldowns := guardian_auto_eval_cooldowns g;
     guardian_cooldowns := guardian_cooldowns g; guardian_action_runs := m;
     guardian_rule_cache := guardian_rule_cache g; guardian_queue := guardian_queue g;
     activity_log := activity_log g; last_guardian_rule_evaluation := last_guardian_rule_evaluation g |}.

Definition set_rule_cache (c : HomeGuardianRuleCache) (g : GuardianState) : GuardianState :=
  {| g_admin := g_admin g; guardian_auto_eval_cooldowns := guardian_auto_eval_cooldowns g;
     guardian_cooldowns := guardian_cooldowns g; guardian_action_runs := guardian_action_runs g;
     guardian_rule_cache := c; guardian_queue := guardian_queue g;
     activity_log := activity_log g; last_guardian_rule_evaluation := last_guardian_rule_evaluation g |}.

Definition set_queue (q : HomeGuardianEvaluationQueue) (g : GuardianState) : GuardianState :=
  {| g_admin := g_admin g; guardian_auto_eval_cooldowns := guardian_auto_eval_cooldowns g;
     guardian_cooldowns := guardian_cooldowns g; guardian_action_runs := guardian_action_runs g;
     guardian_rule_cache := guardian_rule_cache g; guardian_queue := q;
     activity_log := activity_log g; last_guardian_rule_evaluation := last_guardian_rule_evaluation g |}.

Definition set_activity_log (l : list jv) (g : GuardianState) : GuardianState :=
  {| g_admin := g_admin g; guardian_auto_eval_cooldowns := guardian_auto_eval_cooldowns g;
     guardian_cooldowns := guardian_cooldowns g; guardian_action_runs := guardian_action_runs g;
     guardian_rule_cache := guardian_rule_cache g; guardian_queue := guardian_queue g;
     activity_log := l; last_guardian_rule_evaluation := last_guardian_rule_evaluation g |}.

Definition record_last_guardian_rule_evaluation (evaluation : jv) (g : GuardianState) : GuardianState :=
  {| g_admin := g_admin g; guardian_auto_eval_cooldowns := guardian_auto_eval_cooldowns g;
     guardian_cooldowns := guardian_cooldowns g; guardian_action_runs := guardian_action_runs g;
     guardian_rule_cache := guardian_rule_cache g; guardian_queue := guardian_queue g;
     activity_log := activity_log g;
     last_guardian_rule_evaluation := Some (compact_home_guardian_evaluation_evidence evaluation) |}.

(** * Cooldowns and runs *)

(** [u64::saturating_sub] *)
Definition age (now last : Z) : Z := Z.max 0 (now - last).

(** [HashMap::retain] by age. *)
Definition retain_recent (max now : Z) (m : gmap string Z) : gmap string Z :=
  filter (fun kv => (age now kv.2 <= max)%Z) m.

Definition younger (limit now : Z) (o : option Z) : bool :=
  match o with Some last => (age now last <? limit)%Z | None => false end.

Definition home_guardian_action_cooldown_key (r : AutomationRuleReview) (stored : StoredLocalVisionEvent)
    (action_key : string) : string :=
  rule_key r +:+ ":" +:+ le_camera_id (se_event stored) +:+ ":" +:+ action_key.

Definition home_guardian_auto_evaluation_cooldown_key (stored : StoredLocalVisionEvent) : string :=
  le_camera_id (se_event stored) +:+ ":" +:+ le_event_type (se_event stored).

Definition guardian_action_in_cooldown (r : AutomationRuleReview) (stored : StoredLocalVisionEvent)
    (action_key : string) (now : Z) (g : GuardianState) : GuardianState * bool :=
  let m := retain_recent (HOME_GUARDIAN_ACTION_COOLDOWN_SECONDS * 2) now (guardian_cooldowns g) in
  (set_cooldowns m g,
   younger HOME_GUARDIAN_ACTION_COOLDOWN_SECONDS now
     (m !! home_guardian_action_cooldown_key r stored action_key)).

Definition mark_guardian_action_cooldown (r : AutomationRuleReview) (stored : StoredLocalVisionEvent)
    (action_key : string) (now : Z) (g : GuardianState) : GuardianState :=
  set_cooldowns (<[home_guardian_action_cooldown_key r stored action_key := now]> (guardian_cooldowns g)) g.

Definition guardian_action_run_seen (idempotency_key : string) (now : Z) (g : GuardianState)
  : GuardianState * bool :=
  let m := retain_recent HOME_GUARDIAN_IDEMPOTENCY_MEMORY_SECONDS now (guardian_action_runs g) in
  (set_action_runs m g, is_some (m !! idempotency_key)).

Definition mark_guardian_action_run_seen (idempotency_key : string) (now : Z) (g : GuardianState)
  : GuardianState :=
  set_action_runs (<[idempotency_key := now]> (guardian_action_runs g)) g.

Definition guardian_auto_evaluation_due (stored : StoredLocalVisionEvent) (now : Z) (g : GuardianState)
  : GuardianState * bool :=
  let key := home_guardian_auto_evaluation_cooldown_key stored in
  let m := retain_recent (HOME_GUARDIAN_AUTO_EVALUATION_MIN_INTERVAL_SECONDS * 2) now
             (guardian_auto_eval_cooldowns g) in
  if younger HOME_GUARDIAN_AUTO_EVALUATION_MIN_INTERVAL_SECONDS now (m !! key)
  then (set_auto_eval_cooldowns m g, false)
  else (set_auto_eval_cooldowns (<[key := now]> m) g, true).

(** * The queue *)

Definition enqueue (stored : StoredLocalVisionEvent) (q : HomeGuardianEvaluationQueue)
  : HomeGuardianEvaluationQueue * string :=
  if negb (connected q) then
    ({| channel := channel q; connected := connected q; queued_total := queued_total q;
        dropped_total := dropped_total q; processed_total := processed_total q;
        failed_total := failed_total q; coalesced_total := coalesced_total q;
        disconnected_total := u64_incr (disconnected_total q) |}, "disconnected")
  else if (length (channel q) <? HOME_GUARDIAN_EVALUATION_QUEUE_CAPACITY)%nat then
    ({| channel := channel q ++ [stored]; connected := connected q;
        queued_total := u64_incr (queued_total q); dropped_total := dropped_total q;
        processed_total := processed_total q; failed_total := failed_total q;
        coalesced_total := coalesced_total q; disconnected_total := disconnected_total q |}, "queued")
  else
    ({| channel := channel q; connected := connected q; queued_total := queued_total q;
        dropped_total := u64_incr (dropped_total q); processed_total := processed_total q;
        failed_total := failed_total q; coalesced_total := coalesced_total q;
        disconnected_total := disconnected_total q |}, "dropped").

Definition record_coalesced (q : HomeGuardianEvaluationQueue) : HomeGuardianEvaluationQueue :=
  {| channel := channel q; connected := connected q; queued_total := queued_total q;
     dropped_total := dropped_total q; processed_total := processed_total q;
     failed_total := failed_total q; coalesced_total := u64_incr (coalesced_total q);
     disconnected_total := disconnected_total q |}.

(** The event received, and the count of how its evaluation ended. *)
Definition taken_from_queue (rest : list StoredLocalVisionEvent) (ok : bool) (q : HomeGuardianEvaluationQueue)
  : HomeGuardianEvaluationQueue :=
  {| channel := rest; connected := connected q; queued_total := queued_total q;
     dropped_total := dropped_total q;
     processed_total := if ok then u64_incr (processed_total q) else processed_total q;
     failed_total := if ok then failed_total q else u64_incr (failed_total q);
     coalesced_total := coalesced_total q; disconnected_total := disconnected_total q |}.

Definition enqueue_home_guardian_evaluation (stored : StoredLocalVisionEvent) (now : Z) (g : GuardianState)
  : GuardianState * string :=
  match guardian_auto_evaluation_due stored now g with
  | (g, false) => (set_queue (record_coalesced (guardian_queue g)) g, "coalesced")
  | (g, true) =>
      let (q, status) := enqueue stored (guardian_queue g) in
      (set_queue q g, status)
  end.

(** * The activity log *)

Definition latest_home_guardian_activity_summaries (summaries : list jv) : list jv :=
  reverse (take HOME_GUARDIAN_ACTIVITY_LIMIT (sort_by latest_first summaries)).

Definition load_home_guardian_activity_summaries (reads : bool) (log : list jv) : list jv :=
  if reads then latest_home_guardian_activity_summaries log else [].

Definition append_home_guardian_activity_summary (e : LogEnv) (summary : jv) (g : GuardianState) : GuardianState :=
  let summaries := load_home_guardian_activity_summaries (log_reads e) (activity_log g) ++ [summary] in
  set_activity_log (default (latest_home_guardian_activity_summaries summaries) (log_remains e)) g.

Section world.
Context `{!UnicodeLower} `{!JsonText} `{!ReviewText} `{!VisionText} `{!Sha256}.
Context {W : Type} `{!NotificationGateway W} `{!GuardianWorld W} (h : Host).

(** * Actions *)

Definition default_notification_target_record (targets : list NotificationTargetRecord)
  : option NotificationTargetRecord :=
  match list_find (fun t => nt_is_default t && negb (is_blank (nt_route_key t))) targets with
  | Some t => Some t
  | None => list_find (fun t => negb (is_blank (nt_route_key t))) targets
  end.

Definition classify_notification_delivery_error (error : NotificationDeliveryError) : string * string :=
  match error with
  | MissingConfiguration message => ("blocked", redact_admin_string message)
  | Transport message => ("failed", redact_admin_string message)
  | InvalidResponse message => ("failed", redact_admin_string message)
  | RequestRejected status_code envelope =>
      ("failed", redact_admin_string ("HarborGate rejected the notification with HTTP " +:+ show_Z status_code
                                      +:+ ": " +:+ se_message (sh_error envelope)
                                      +:+ " (" +:+ se_code (sh_error envelope) +:+ ")"))
  end.

(** The result of a notification that was not delivered; the message of a
    response is redacted. *)
Definition notify_result (status idempotency_key message : string) : jv :=
  json_object [("action", JStr "notify_default_target"); ("status", JStr status); ("executed", JBool false);
               ("idempotency_key", JStr idempotency_key); ("notification_status", JStr status);
               ("reason", JStr (redact_admin_string message)); ("redacted", JBool true)].

Definition execute_home_guardian_notify_action (e : ActionEnv) (a : AdminView)
    (stored : StoredLocalVisionEvent) (idempotency_key : string) (w : W) : W * jv :=
  match ae_load_error e with
  | Some error =>
      (w, json_object [("action", JStr "notify_default_target"); ("status", JStr "failed");
                       ("executed", JBool false); ("idempotency_key", JStr idempotency_key);
                       ("reason", JStr (redact_admin_string error)); ("redacted", JBool true)])
  | None =>
  match default_notification_target_record (av_targets a) with
  | None => (w, notify_result "blocked" idempotency_key "No default notification target is configured.")
  | Some target =>
  match build_local_vision_notification_intent stored (nt_route_key target) with
  | Err error => (w, notify_result "failed" idempotency_key error)
  | Ok intent =>
  match delivery_service h w with
  | Err error => (w, notify_result "blocked" idempotency_key (redact_admin_string error))
  | Ok config =>
  match deliver config (ae_uuid e) (li_notification_request intent) w with
  | (w, Ok record) =>
      if dr_ok record then
        (w, json_object [("action", JStr "notify_default_target"); ("status", JStr "delivered");
                         ("executed", JBool true); ("idempotency_key", JStr idempotency_key);
                         ("notification_id", JStr (dr_notification_id record));
                         ("delivery_id", JStr (dr_delivery_id record));
                         ("target_label", JStr (nt_label target)); ("redacted", JBool true)])
      else (w, notify_result "failed" idempotency_key "HarborGate returned a failed delivery record.")
  | (w, Err error) =>
      let (status, message) := classify_notification_delivery_error error in
      (w, json_object [("action", JStr "notify_default_target"); ("status", JStr status);
                       ("executed", JBool false); ("idempotency_key", JStr idempotency_key);
                       ("reason", JStr (redact_admin_string message)); ("redacted", JBool true)])
  end end end end end.

Definition home_assistant_client_from_state (s : HomeAssistantAdminState) (w : W) : result string unit :=
  if negb (ha_enabled s) then Err "Home Assistant integration is disabled" else client_from_harborlink_env w.

Definition guardian_service_request (action : jv) : HomeAssistantServiceActionRequest :=
  let r := home_guardian_ha_service_request action in
  {| hr_entity_id := hg_entity_id r; hr_domain := hg_domain r; hr_service := hg_service r;
     hr_fields := JObj [] |}.

Definition ha_result (status : string) (executed : bool) (idempotency_key : string)
    (r : HomeAssistantServiceActionRequest) (reason : option string) : jv :=
  json_object ([("action", JStr "ha_service_action"); ("status", JStr status); ("executed", JBool executed);
                ("idempotency_key", JStr idempotency_key); ("domain", JStr (hr_domain r));
                ("service", JStr (hr_service r)); ("entity_id", JStr (hr_entity_id r))]
               ++ match reason with Some message => [("reason", JStr message)] | None => [] end
               ++ [("redacted", JBool true)]).

Definition execute_home_guardian_ha_action (e : ActionEnv) (a : AdminView) (action : jv)
    (idempotency_key : string) (w : W) : W * jv :=
  match ae_load_error e with
  | Some error =>
      (w, json_object [("action", JStr "ha_service_action"); ("status", JStr "failed"); ("executed", JBool false);
                       ("idempotency_key", JStr idempotency_key); ("reason", JStr (redact_admin_string error));
                       ("redacted", JBool true)])
  | None =>
  let s := av_home_assistant a in
  let normalized := normalize_home_assistant_service_action_request (guardian_service_request action) in
  match validate_home_assistant_service_action_request normalized (ha_enabled s) (ha_exposed_domains s) with
  | Err message => (w, ha_result "blocked" false idempotency_key normalized (Some message))
  | Ok _ =>
  match home_assistant_client_from_state s w with
  | Err error => (w, ha_result "blocked" false idempotency_key normalized (Some (redact_admin_string error)))
  | Ok _ =>
  match call_service (hr_domain normalized) (hr_service normalized) (hr_entity_id normalized) w with
  | (w, Ok _) => (w, ha_result "acted" true idempotency_key normalized None)
  | (w, Err error) => (w, ha_result "failed" false idempotency_key normalized (Some (redact_admin_string error)))
  end end end end.

Definition execute_action (e : ActionEnv) (a : AdminView) (stored : StoredLocalVisionEvent)
    (p : HomeGuardianActionExecutionPlan) (w : W) : W * jv :=
  match px_kind p with
  | NotifyDefaultTarget => execute_home_guardian_notify_action e a stored (px_idempotency_key p) w
  | HomeAssistantService => execute_home_guardian_ha_action e a (px_action p) (px_idempotency_key p) w
  | UnsupportedAction => (w, home_guardian_unsupported_action_result (px_action_key p) (px_idempotency_key p))
  end.

(** * Rules *)

(** One round of the loop over the actions of a rule. *)
Definition run_action (automatic : bool) (r : AutomationRuleReview) (stored : StoredLocalVisionEvent)
    (now : Z) (e : ActionEnv) (p : HomeGuardianActionExecutionPlan)
    (acc : GuardianState * W * list jv * nat) : GuardianState * W * list jv * nat :=
  let '(g, w, results, skipped) := acc in
  let (g, cooling) := if automatic then guardian_action_in_cooldown r stored (px_action_key p) now g
                      else (g, false) in
  if cooling then (g, w, results, S skipped) else
  let (g, seen) := guardian_action_run_seen (px_idempotency_key p) now g in
  if seen || home_guardian_run_already_recorded r (px_idempotency_key p) then
    (g, w, results ++ [home_guardian_idempotent_action_result (px_action_key p) (px_idempotency_key p)], skipped)
  else
    let (w, result) := execute_action e (g_admin g) stored p w in
    let g := if has_status ["skipped"] result then g
             else mark_guardian_action_run_seen (px_idempotency_key p) now
                    (mark_guardian_action_cooldown r stored (px_action_key p) now g) in
    (g, w, results ++ [result], skipped).

(** [e] has an environment for each action. *)
Fixpoint run_actions (automatic : bool) (r : AutomationRuleReview) (stored : StoredLocalVisionEvent)
    (now : Z) (e : nat -> ActionEnv) (l : list HomeGuardianActionExecutionPlan)
    (acc : GuardianState * W * list jv * nat) : GuardianState * W * list jv * nat :=
  match l with
  | [] => acc
  | p :: l => run_actions automatic r stored now (fun n => e (S n)) l
                (run_action automatic r stored now (e 0) p acc)
  end.

(** [admin_store.upsert_automation_review] *)
Definition save_review (e : SaveEnv) (r : AutomationRuleReview) (g : GuardianState)
  : GuardianState * result string unit :=
  match save_fault e with
  | Some (error, remains) => (set_admin remains g, Err error)
  | None =>
      match upsert_automation_review (save_now e) (save_uuid e) (save_uuids e) r (av_reviews (g_admin g)) with
      | Err error => (g, Err error)
      | Ok l => (set_admin (set_reviews l (g_admin g)) g, Ok tt)
      end
  end.

Definition COOLING_REASON : string :=
  "Home Guardian action cooldown is active; automatic evaluation was not persisted.".

(** One round of the loop over the rules: the summary, if there is one. *)
Definition evaluate_rule (automatic execute_active : bool) (stored : StoredLocalVisionEvent) (e : RuleEnv)
    (r : AutomationRuleReview) (g : GuardianState) (w : W) : GuardianState * W * result string (option jv) :=
  match build_home_guardian_rule_evaluation_plan r stored (negb automatic) execute_active (re_stamp e) with
  | None => (g, w, Ok None)
  | Some (PlanCompleted r summary persist_summary) =>
      if persist_summary && negb automatic then
        match save_review (re_save e) (append_home_guardian_run_summary r summary) g with
        | (g, Err error) => (g, w, Err error)
        | (g, Ok _) => (append_home_guardian_activity_summary (re_log e) summary g, w, Ok (Some summary))
        end
      else if persist_summary then
        (append_home_guardian_activity_summary (re_log e) summary g, w, Ok (Some summary))
      else (g, w, Ok (Some summary))
  | Some (PlanExecute r actions) =>
      match run_actions automatic r stored (re_epoch e) (re_action e) actions (g, w, [], 0) with
      | (g, w, [], S _) =>
          (g, w, Ok (Some (home_guardian_rule_run_summary r stored "skipped" true false COOLING_REASON []
                             (re_stamp e))))
      | (g, w, results, _) =>
          let summary := complete_home_guardian_rule_execution r stored results (re_stamp e) in
          let saved := if automatic then (g, Ok tt)
                       else save_review (re_save e) (append_home_guardian_run_summary r summary) g in
          match saved with
          | (g, Err error) => (g, w, Err error)
          | (g, Ok _) => (append_home_guardian_activity_summary (re_log e) summary g, w, Ok (Some summary))
          end
      end
  end.

Fixpoint evaluate_rules (automatic execute_active : bool) (stored : StoredLocalVisionEvent) (e : nat -> RuleEnv)
    (l : list AutomationRuleReview) (results : list jv) (g : GuardianState) (w : W)
  : GuardianState * W * result string (list jv) :=
  match l with
  | [] => (g, w, Ok results)
  | r :: l =>
      match evaluate_rule automatic execute_active stored (e 0) r g w with
      | (g, w, Err error) => (g, w, Err error)
      | (g, w, Ok summary) =>
          evaluate_rules automatic execute_active stored (fun n => e (S n)) l
            (results ++ option_list summary) g w
      end
  end.

(** ** The cache of active rules *)

Definition is_active_guardian (r : AutomationRuleReview) : bool :=
  automation_review_is_home_guardian r && (ar_status r =? "active").

Definition refresh_home_guardian_rule_cache (load_error : option string) (epoch : Z) (fingerprint : Z * option Z)
    (g : GuardianState) : GuardianState * result string unit :=
  match load_error with
  | Some error => (g, Err error)
  | None =>
      (set_rule_cache {| active_reviews := List.filter is_active_guardian (av_reviews (g_admin g));
                         loaded_at_epoch := epoch; file_bytes := fingerprint.1;
                         modified_epoch_ms := fingerprint.2; refresh_error := None |} g, Ok tt)
  end.

Definition set_refresh_error (error : string) (c : HomeGuardianRuleCache) : HomeGuardianRuleCache :=
  {| active_reviews := active_reviews c; loaded_at_epoch := loaded_at_epoch c; file_bytes := file_bytes c;
     modified_epoch_ms := modified_epoch_ms c; refresh_error := Some error |}.

Definition refresh_home_guardian_rule_cache_best_effort (load_error : option string) (epoch : Z)
    (fingerprint : Z * option Z) (g : GuardianState) : GuardianState :=
  match refresh_home_guardian_rule_cache load_error epoch fingerprint g with
  | (g, Ok _) => g
  | (g, Err error) => set_rule_cache (set_refresh_error (redact_admin_string error) (guardian_rule_cache g)) g
  end.

Definition cache_needs_refresh (fingerprint : Z * option Z) (c : HomeGuardianRuleCache) : bool :=
  (loaded_at_epoch c =? 0)%Z || negb (file_bytes c =? fingerprint.1)%Z
  || negb (bool_decide (modified_epoch_ms c = fingerprint.2)).

Definition cached_home_guardian_reviews_for_auto (e : EvalEnv) (g : GuardianState)
  : GuardianState * result string (list AutomationRuleReview) :=
  let refreshed :=
    if cache_needs_refresh (ee_fingerprint e) (guardian_rule_cache g)
    then refresh_home_guardian_rule_cache (ee_load_error e) (ee_refresh_epoch e) (ee_refresh_fingerprint e) g
    else (g, Ok tt) in
  match refreshed with
  | (g, Err error) => (g, Err error)
  | (g, Ok _) =>
      match refresh_error (guardian_rule_cache g) with
      | Some error => (g, Err error)
      | None => (g, Ok (active_reviews (guardian_rule_cache g)))
      end
  end.

(** * Evaluation *)

Definition evaluate_home_guardian_rules_for_event (stored : StoredLocalVisionEvent)
    (only_review_id : option string) (execute_active : bool) (e : EvalEnv) (g : GuardianState) (w : W)
  : GuardianState * W * result string HomeGuardianEvaluationResponse :=
  let automatic := negb (is_some only_review_id) in
  let reviews :=
    if automatic then cached_home_guardian_reviews_for_auto e g
    else match ee_load_error e with
         | Some error => (g, Err error)
         | None => (g, select_home_guardian_reviews (av_reviews (g_admin g)) only_review_id)
         end in
  match reviews with
  | (g, Err error) => (g, w, Err error)
  | (g, Ok reviews) =>
      match evaluate_rules automatic execute_active stored (ee_rule e) reviews [] g w with
      | (g, w, Err error) => (g, w, Err error)
      | (g, w, Ok results) => (g, w, Ok (build_home_guardian_evaluation_response stored results (ee_stamp e)))
      end
  end.

(** [serde_json::to_value] of the response. *)
Definition evaluation_value (x : HomeGuardianEvaluationResponse) : jv :=
  json_object [("evaluation_id", JStr (ge_evaluation_id x)); ("status", JStr (ge_status x));
               ("event_id", JStr (ge_event_id x)); ("evaluated_at", JStr (ge_evaluated_at x));
               ("results", JArr (ge_results x)); ("counters", ge_counters x);
               ("metadata_only", JBool (ge_metadata_only x)); ("secret_scan", JStr (ge_secret_scan x))].

(** The next event of the channel, evaluated: a round of the worker. *)
Definition worker_round (e : EvalEnv) (g : GuardianState) (w : W) : GuardianState * W :=
  match channel (guardian_queue g) with
  | [] => (g, w)
  | stored :: rest =>
      match evaluate_home_guardian_rules_for_event stored None true e g w with
      | (g, w, Ok evaluation) =>
          (record_last_guardian_rule_evaluation (evaluation_value evaluation)
             (set_queue (taken_from_queue rest true (guardian_queue g)) g), w)
      | (g, w, Err error) =>
          (record_last_guardian_rule_evaluation
             (json_object [("status", JStr "failed"); ("event_id", JStr (le_event_id (se_event stored)));
                           ("reason", JStr (redact_admin_string error)); ("metadata_only", JBool true);
                           ("secret_scan", JStr "clean")])
             (set_queue (taken_from_queue rest false (guardian_queue g)) g), w)
      end
  end.
End world.
