(* ===== verification/GuardianEffects.v ===== *)
(** What an evaluation of the home guardian does to the world outside: it notifies
    the default target and calls allow-listed services of Home Assistant, for the
    actions of active rules that match the event, and nothing else. *)
From S2P Require Import Prelude RustString Json ServiceAuth Notifications VisionEvents.
From S2P Require Import Guardian GuardianRuntime.
Local Open Scope string_scope.
Local Open Scope list_scope.

Section effects.
Context `{!UnicodeLower} `{!JsonText} `{!ReviewText} `{!VisionText} `{!Sha256}.
Context {W : Type} `{!NotificationGateway W} `{!GuardianWorld W} (h : Host).

(** * Specification *)

(** [action] is one of an active rule of the home guardian, among [rules], whose
    trigger matches the event. *)
Definition rule_asks (rules : list AutomationRuleReview) (stored : StoredLocalVisionEvent) (action : jv) : Prop :=
  exists r trigger, r ∈ rules /\ is_active_guardian r = true /\ ar_trigger_definition r = Some trigger
    /\ (home_guardian_trigger_matches_event trigger stored).1 = true
    /\ action ∈ home_guardian_action_plan_actions (ar_action_plan r).

(** The service request an action stands for. *)
Definition requested_service (action : jv) : HomeAssistantServiceActionRequest :=
  normalize_home_assistant_service_action_request (guardian_service_request action).

Definition service_allowed (s : HomeAssistantAdminState) (r : HomeAssistantServiceActionRequest) : Prop :=
  ha_enabled s = true
  /\ home_assistant_service_action_is_allowlisted (hr_domain r) (hr_service r) = true
  /\ starts_with (hr_domain r +:+ ".") (hr_entity_id r) = true
  /\ (ha_exposed_domains s <> [] ->
      list_any (fun domain => eq_ignore_ascii_case (trim domain) (hr_domain r)) (ha_exposed_domains s) = true).

(** A permitted effect under the settings [s] and [targets]. *)
Inductive permitted_effect (asked : jv -> Prop) (s : HomeAssistantAdminState)
    (targets : list NotificationTargetRecord) (stored : StoredLocalVisionEvent) : W -> W -> Prop :=
| effect_call action w :
    asked action -> home_guardian_action_is_ha_service_action action = true ->
    service_allowed s (requested_service action) ->
    permitted_effect asked s targets stored w
      (call_service (hr_domain (requested_service action)) (hr_service (requested_service action))
         (hr_entity_id (requested_service action)) w).1
| effect_notify action target intent config uuid w :
    asked action -> home_guardian_action_is_notify action = true ->
    default_notification_target_record targets = Some target ->
    build_local_vision_notification_intent stored (nt_route_key target) = Ok intent ->
    delivery_service h w = Ok config ->
    permitted_effect asked s targets stored w (deliver config uuid (li_notification_request intent) w).1.

(** * One action *)

Lemma validated_service r enabled domains u :
  validate_home_assistant_service_action_request r enabled domains = Ok u ->
  enabled = true /\ home_assistant_service_action_is_allowlisted (hr_domain r) (hr_service r) = true
  /\ starts_with (hr_domain r +:+ ".") (hr_entity_id r) = true
  /\ (domains <> [] -> list_any (fun d => eq_ignore_ascii_case (trim d) (hr_domain r)) domains = true).
Proof.
  unfold validate_home_assistant_service_action_request.
  destruct enabled; [|done]. cbn [negb].
  destruct (is_empty _ || _ || _); [done|].
  destruct (str_forall _ _); [|done]. cbn [negb].
  destruct (starts_with _ _) eqn:Hs; [|done]. cbn [negb].
  destruct (_ && _) eqn:Hd; [done|].
  destruct (home_assistant_service_action_is_allowlisted _ _) eqn:Ha; [|done]. intros _.
  split_and!; [done..|]. intros Hn. destruct domains as [|d domains]; [done|].
  rewrite andb_true_l in Hd. by apply negb_false_iff in Hd.
Qed.

Lemma ha_action_effect asked env a stored action key w :
  asked action -> home_guardian_action_is_ha_service_action action = true ->
  rtc (permitted_effect asked (av_home_assistant a) (av_targets a) stored) w
      (execute_home_guardian_ha_action env a action key w).1.
Proof.
  intros Hasked Hkind. unfold execute_home_guardian_ha_action.
  destruct (ae_load_error env); [by apply rtc_refl|].
  fold (requested_service action).
  destruct (validate_home_assistant_service_action_request _ _ _) as [|] eqn:Hv; [|by apply rtc_refl].
  destruct (home_assistant_client_from_state _ _); [|by apply rtc_refl].
  apply validated_service in Hv.
  pose proof (effect_call asked (av_home_assistant a) (av_targets a) stored action w Hasked Hkind Hv) as He.
  destruct (call_service _ _ _ w) as [w' [|]]; apply rtc_once; exact He.
Qed.

Lemma notify_action_effect asked env a stored action key w :
  asked action -> home_guardian_action_is_notify action = true ->
  rtc (permitted_effect asked (av_home_assistant a) (av_targets a) stored) w
      (execute_home_guardian_notify_action h env a stored key w).1.
Proof.
  intros Hasked Hkind. unfold execute_home_guardian_notify_action.
  destruct (ae_load_error env); [by apply rtc_refl|].
  destruct (default_notification_target_record _) as [target|] eqn:Ht; [|by apply rtc_refl].
  destruct (build_local_vision_notification_intent _ _) as [intent|] eqn:Hr; [|by apply rtc_refl].
  destruct (delivery_service h w) as [config|] eqn:Hc; [|by apply rtc_refl].
  pose proof (effect_notify asked (av_home_assistant a) _ stored action target intent config (ae_uuid env) w
                Hasked Hkind Ht Hr Hc) as He.
  destruct (deliver config _ _ w) as [w' [record|error]]; cbn [fst] in *.
  - destruct (dr_ok record); by apply rtc_once.
  - destruct (classify_notification_delivery_error error); by apply rtc_once.
Qed.

Lemma execute_action_effect (asked : jv -> Prop) env a stored r action w :
  asked action ->
  rtc (permitted_effect asked (av_home_assistant a) (av_targets a) stored) w
      (execute_action h env a stored (home_guardian_action_execution_plan r stored action) w).1.
Proof.
  intros Hasked. unfold execute_action, home_guardian_action_execution_plan. cbn [px_kind px_action px_idempotency_key].
  destruct (home_guardian_action_is_notify action) eqn:Hn; [by apply (notify_action_effect _ _ _ _ action)|].
  destruct (home_guardian_action_is_ha_service_action action) eqn:Hh; [by apply ha_action_effect|].
  apply rtc_refl.
Qed.

(** * Evaluations *)

Lemma run_action_effect asked automatic r r' stored now env action g w results skipped :
  let acc := run_action h automatic r stored now env
               (home_guardian_action_execution_plan r' stored action) (g, w, results, skipped) in
  asked action ->
  g_admin acc.1.1.1 = g_admin g
  /\ rtc (permitted_effect asked (av_home_assistant (g_admin g)) (av_targets (g_admin g)) stored) w acc.1.1.2.
Proof.
  intros acc Hasked. subst acc. unfold run_action, guardian_action_in_cooldown, guardian_action_run_seen.
  set (p := home_guardian_action_execution_plan r' stored action).
  pose proof (fun g' => execute_action_effect asked env (g_admin g') stored r' action w Hasked) as He.
  fold p in He.
  destruct automatic; [destruct (younger _ _ _); [split; [done|apply rtc_refl]|]|];
    (destruct (_ || _); [split; [done|apply rtc_refl]|];
     match goal with |- context [execute_action h _ (g_admin ?g1) _ _ _] => specialize (He g1) end;
     cbn [g_admin set_action_runs set_cooldowns] in He |- *;
     destruct (execute_action h _ _ _ _ _) as [w' x]; destruct (has_status _ x); by split).
Qed.

Lemma run_actions_effect (asked : jv -> Prop) automatic r r' stored now actions es g w results skipped :
  let acc := run_actions h automatic r stored now es
               (home_guardian_action_execution_plan r' stored <$> actions) (g, w, results, skipped) in
  (forall action, action ∈ actions -> asked action) ->
  g_admin acc.1.1.1 = g_admin g
  /\ rtc (permitted_effect asked (av_home_assistant (g_admin g)) (av_targets (g_admin g)) stored) w acc.1.1.2.
Proof.
  revert es g w results skipped. induction actions as [|action actions IH];
    intros es g w results skipped acc Hasked; subst acc; [split; [done|apply rtc_refl]|].
  rewrite fmap_cons. cbn [run_actions].
  destruct (run_action_effect asked automatic r r' stored now (es 0) action g w results skipped)
    as [Ha Hw]; [apply Hasked; left|].
  destruct (run_action h _ _ _ _ _ _ _) as [[[g1 w1] rs1] sk1]. cbn [fst snd] in *.
  destruct (IH (fun n => es (S n)) g1 w1 rs1 sk1) as [Ha' Hw']; [intros; apply Hasked; by right|].
  rewrite Ha in Ha', Hw'. split; [done|]. by etrans.
Qed.

Lemma plan_execute_inv r stored only execute_active st r' plans :
  build_home_guardian_rule_evaluation_plan r stored only execute_active st = Some (PlanExecute r' plans) ->
  r' = r /\ execute_active = true /\ is_active_guardian r = true
  /\ plans = home_guardian_action_execution_plan r stored <$> home_guardian_action_plan_actions (ar_action_plan r)
  /\ exists trigger, ar_trigger_definition r = Some trigger
       /\ (home_guardian_trigger_matches_event trigger stored).1 = true.
Proof.
  unfold build_home_guardian_rule_evaluation_plan, is_active_guardian.
  destruct (automation_review_is_home_guardian r) eqn:Hg; [|by destruct only]. cbn [negb].
  destruct (ar_trigger_definition r) as [trigger|]; [|done].
  destruct (home_guardian_trigger_matches_event trigger stored) as [[] why] eqn:Hm; [|done]. cbn [negb].
  destruct (ar_status r =? "active") eqn:Hs; [|done]. destruct execute_active; [|done]. cbn [negb orb].
  destruct (home_guardian_action_plan_actions _) as [|x l]; [done|]. intros [= <- <-].
  split_and!; [done..|]. exists trigger. by rewrite Hm.
Qed.

Definition settings_kept (g g' : GuardianState) : Prop :=
  av_home_assistant (g_admin g') = av_home_assistant (g_admin g) /\ av_targets (g_admin g') = av_targets (g_admin g).

Lemma save_review_settings e r g g' u : save_review e r g = (g', Ok u) -> settings_kept g g'.
Proof.
  unfold save_review. destruct (save_fault e) as [[]|]; [done|].
  destruct (upsert_automation_review _ _ _ _ _); [|done]. by intros [= <- <-].
Qed.

Lemma saved_settings (automatic : bool) e r g g' u :
  (if automatic then (g, Ok tt) else save_review e r g) = (g', Ok u) -> settings_kept g g'.
Proof. destruct automatic; [by intros [= <- <-]|apply save_review_settings]. Qed.

Lemma evaluate_rule_effect rules automatic execute_active stored e r g w g' w' res :
  r ∈ rules ->
  evaluate_rule h automatic execute_active stored e r g w = (g', w', res) ->
  rtc (permitted_effect (fun action => execute_active = true /\ rule_asks rules stored action)
         (av_home_assistant (g_admin g)) (av_targets (g_admin g)) stored) w w'
  /\ (is_ok res = true -> settings_kept g g').
Proof.
  intros Hr. unfold evaluate_rule.
  destruct (build_home_guardian_rule_evaluation_plan _ _ _ _ _) as [[r' summary persist|r' plans]|] eqn:Hp.
  - destruct (persist && negb automatic).
    + destruct (save_review _ _ _) as [g1 [|]] eqn:Hs; intros [= <- <- <-]; (split; [apply rtc_refl|try done; intros _]).
      by apply save_review_settings in Hs.
    + destruct persist; intros [= <- <- <-]; (split; [apply rtc_refl|done]).
  - apply plan_execute_inv in Hp as (-> & Hx & Ha & -> & trigger & Ht & Hm).
    destruct (run_actions_effect (fun action => execute_active = true /\ rule_asks rules stored action)
                automatic r r stored (re_epoch e)
                (home_guardian_action_plan_actions (ar_action_plan r)) (re_action e) g w [] 0) as [Hadm Hw].
    { intros action Hin. split; [done|]. exists r, trigger. by split_and!. }
    destruct (run_actions h _ _ _ _ _ _ _) as [[[g1 w1] rs] sk]. cbn [fst snd] in *.
    assert (settings_kept g g1) as Hk by (unfold settings_kept; by rewrite Hadm).
    assert (forall summary, match (if automatic then (g1, Ok tt) else save_review (re_save e) (append_home_guardian_run_summary r summary) g1)
                       with (g2, Err error) => (g2, w1, Err error)
                       | (g2, Ok _) => (append_home_guardian_activity_summary (re_log e) summary g2, w1, Ok (Some summary)) end
                     = (g', w', res) -> w' = w1 /\ (is_ok res = true -> settings_kept g g')) as Hrest.
    { intros summary. destruct (if automatic then _ else _) as [g2 [|]] eqn:Hs; intros [= <- <- <-]; [|done].
      apply saved_settings in Hs. split; [done|]. intros _. destruct Hk, Hs. split; cbn; congruence. }
    intros H'. destruct rs as [|x rs]; [destruct sk|].
    + by apply Hrest in H' as [-> ?].
    + by injection H' as <- <- <-.
    + by apply Hrest in H' as [-> ?].
  - intros [= <- <- <-]. by split; [apply rtc_refl|].
Qed.

Lemma evaluate_rules_effect rules automatic execute_active stored e l results g w g' w' res :
  (forall r, r ∈ l -> r ∈ rules) ->
  evaluate_rules h automatic execute_active stored e l results g w = (g', w', res) ->
  rtc (permitted_effect (fun action => execute_active = true /\ rule_asks rules stored action)
         (av_home_assistant (g_admin g)) (av_targets (g_admin g)) stored) w w'.
Proof.
  revert e results g w. induction l as [|r l IH]; intros e results g w Hl; cbn [evaluate_rules].
  { intros [= <- <- <-]. apply rtc_refl. }
  destruct (evaluate_rule h _ _ _ _ _ _ _) as [[g1 w1] [summary|error]] eqn:He;
    (eapply evaluate_rule_effect in He as [Hw Hk]; [|apply Hl; left]).
  - destruct (Hk eq_refl) as [Hh Ht]. intros Hrest.
    apply IH in Hrest; [|intros; apply Hl; by right]. rewrite Hh, Ht in Hrest. by etrans.
  - by intros [= <- <- <-].
Qed.

Lemma cached_reviews_inv e g g' l :
  cached_home_guardian_reviews_for_auto e g = (g', Ok l) ->
  g_admin g' = g_admin g /\ (l = active_reviews (guardian_rule_cache g) \/ l = List.filter is_active_guardian (av_reviews (g_admin g))).
Proof.
  unfold cached_home_guardian_reviews_for_auto, refresh_home_guardian_rule_cache.
  destruct (cache_needs_refresh _ _).
  - destruct (ee_load_error e); [done|]. cbn [refresh_error guardian_rule_cache set_rule_cache active_reviews].
    intros [= <- <-]. split; [done|by right].
  - destruct (refresh_error _); [done|]. intros [= <- <-]. split; [done|by left].
Qed.

Lemma select_reviews_sub reviews only l r :
  select_home_guardian_reviews reviews only = Ok l -> r ∈ l -> r ∈ reviews.
Proof.
  unfold select_home_guardian_reviews. intros Hs Hr.
  assert (l = sort_by (fun l r => String.compare (ar_review_id l) (ar_review_id r))
                (List.filter (fun r => match only with Some review_id => ar_review_id r =? review_id | None => true end)
                   reviews)) as ->.
  { destruct only; [|by injection Hs]. destruct (List.filter _ _); [done|by injection Hs]. }
  by apply elem_of_sort_by, elem_of_list_filter in Hr as [].
Qed.

(** The rules an evaluation may look at: those stored and those cached. *)
Definition known_rules (g : GuardianState) : list AutomationRuleReview :=
  av_reviews (g_admin g) ++ active_reviews (guardian_rule_cache g).

(** C31. Whatever an evaluation of an event does to the world, in either mode and
    however it ends, is a sequence of permitted effects: each is asked for by an
    action of an active home guardian rule, stored or cached, whose trigger matches
    the event, and with execution requested; it notifies the default target with
    the request made for this event, or calls an allow-listed service of Home
    Assistant for an entity of its domain, with the integration enabled and the
    domain exposed. *)
Theorem evaluation_effects_permitted stored only execute_active e g w g' w' res :
  evaluate_home_guardian_rules_for_event h stored only execute_active e g w = (g', w', res) ->
  rtc (permitted_effect (fun action => execute_active = true /\ rule_asks (known_rules g) stored action)
         (av_home_assistant (g_admin g)) (av_targets (g_admin g)) stored) w w'.
Proof.
  unfold evaluate_home_guardian_rules_for_event.
  assert (forall g1 l g2 res, g_admin g1 = g_admin g -> (forall r, r ∈ l -> r ∈ known_rules g) ->
     match evaluate_rules h (negb (is_some only)) execute_active stored (ee_rule e) l [] g1 w with
     | (g, w, Err error) => (g, w, Err error)
     | (g, w, Ok results) => (g, w, Ok (build_home_guardian_evaluation_response stored results (ee_stamp e)))
     end = (g2, w', res) ->
     rtc (permitted_effect (fun action => execute_active = true /\ rule_asks (known_rules g) stored action)
         (av_home_assistant (g_admin g)) (av_targets (g_admin g)) stored) w w') as Hrun.
  { intros g1 l g2 res' Hadm Hl.
    destruct (evaluate_rules h _ _ _ _ _ _ _ _) as [[g3 w3] [|]] eqn:Hev;
      (eapply evaluate_rules_effect in Hev; [|exact Hl]); rewrite Hadm in Hev; by intros [= <- <- <-]. }
  destruct only as [id|]; cbn [is_some negb] in *.
  - destruct (ee_load_error e); [intros [= <- <- <-]; apply rtc_refl|].
    destruct (select_home_guardian_reviews _ _) as [l|] eqn:Hs; [|intros [= <- <- <-]; apply rtc_refl].
    apply Hrun; [done|]. intros r Hr. apply elem_of_app. left. by eapply select_reviews_sub.
  - destruct (cached_home_guardian_reviews_for_auto e g) as [g1 [l|]] eqn:Hc; [|intros [= <- <- <-]; apply rtc_refl].
    apply cached_reviews_inv in Hc as [Hadm Hl]. apply Hrun; [done|]. intros r Hr. apply elem_of_app.
    destruct Hl as [->| ->]; [by right|left]. by apply elem_of_list_filter in Hr as [].
Qed.
End effects.
