(* ===== verification/GuardianOnce.v ===== *)
(** The home guardian over time, its evaluations on several threads: how often an action
    is attempted for an event, and that events of a camera are queued at most once a
    minute. An evaluation holds no lock from the check of an action to its mark, so a
    round is a sequence of sections, each under a lock of its own, between which the
    rounds of other threads and the rest of the service take their steps. What is
    remembered is in memory: these are statements about one process. *)
From S2P Require Import Prelude RustString Json ServiceAuth Notifications VisionEvents.
From S2P Require Import Guardian GuardianRuntime.
Local Open Scope string_scope.
Local Open Scope list_scope.

(** * Marks *)

(** [k] has a mark of the time between [lo] and [hi]. *)
Definition marked (lo hi : Z) (k : string) (m : gmap string Z) : Prop :=
  exists v, m !! k = Some v /\ (lo <= v <= hi)%Z.

Lemma lookup_retain_recent max now m k :
  retain_recent max now m !! k
  = match m !! k with Some v => if (age now v <=? max)%Z then Some v else None | None => None end.
Proof.
  unfold retain_recent. destruct (m !! k) as [v|] eqn:Hk.
  - destruct (Z.leb_spec (age now v) max).
    + by apply map_lookup_filter_Some.
    + apply map_lookup_filter_None. right. intros v' Hv' Hle. rewrite Hk in Hv'. injection Hv' as <-. cbn in Hle. lia.
  - apply map_lookup_filter_None. by left.
Qed.

Section marks.
Context (lo hi : Z).

Lemma marked_insert k k' now m :
  (lo <= now <= hi)%Z -> marked lo hi k m -> marked lo hi k (<[k' := now]> m).
Proof.
  intros Hn (v & Hv & Hb). destruct (decide (k' = k)) as [->|Hne].
  - exists now. by rewrite lookup_insert_eq.
  - exists v. by rewrite lookup_insert_ne.
Qed.

Lemma marked_new k now m : (lo <= now <= hi)%Z -> marked lo hi k (<[k := now]> m).
Proof. intros Hn. exists now. by rewrite lookup_insert_eq. Qed.

Lemma marked_retain max k now m :
  (lo <= now <= hi)%Z -> (hi - lo <= max)%Z -> marked lo hi k m -> marked lo hi k (retain_recent max now m).
Proof.
  intros Hn Hw (v & Hv & Hb). exists v. rewrite lookup_retain_recent, Hv.
  destruct (Z.leb_spec (age now v) max); [done|]. unfold age in *. lia.
Qed.

Lemma marked_younger max limit k now m :
  (lo <= now <= hi)%Z -> (hi - lo < limit)%Z -> (limit <= max)%Z -> marked lo hi k m ->
  younger limit now (retain_recent max now m !! k) = true.
Proof.
  intros Hn Hw Hm Hk.
  destruct (marked_retain max k now m Hn ltac:(lia) Hk) as (v & -> & Hb).
  unfold younger, age. apply Z.ltb_lt. lia.
Qed.
End marks.

Create HintDb marks.
#[export] Hint Resolve marked_insert marked_new marked_retain : marks.

Section time.
Context `{!UnicodeLower} `{!JsonText} `{!ReviewText} `{!VisionText} `{!Sha256}.
Context {W : Type} `{!NotificationGateway W} `{!GuardianWorld W} (h : Host).

(** * Rounds *)

(** The arguments of [run_action]: a round of the loop over the actions of a rule. *)
Record Round := {
  rd_automatic : bool;
  rd_review : AutomationRuleReview;
  rd_event : StoredLocalVisionEvent;
  rd_now : Z;
  rd_env : ActionEnv;
  rd_plan : HomeGuardianActionExecutionPlan
}.

Definition rd_key (r : Round) : string := px_idempotency_key (rd_plan r).

(** Where a thread is in a round: before it looks whether the action cools down, before
    it looks whether the action was run, before it executes it, before it marks that it
    cools down, and before it marks that it was run. *)
Inductive Phase :=
| Begun (r : Round)
| NotCooling (r : Round)
| Unseen (r : Round)
| Attempted (r : Round)
| CooldownMarked (r : Round).

Definition round_of (p : Phase) : Round :=
  match p with Begun r | NotCooling r | Unseen r | Attempted r | CooldownMarked r => r end.

(** The next section of a round, [None] when the round is over; and the key of the
    action when the section executes it. *)
Definition advance (p : Phase) (g : GuardianState) (w : W) : option Phase * GuardianState * W * option string :=
  match p with
  | Begun r =>
      let (g, cooling) := if rd_automatic r then guardian_action_in_cooldown (rd_review r) (rd_event r) (px_action_key (rd_plan r)) (rd_now r) g
                          else (g, false) in
      (if cooling then None else Some (NotCooling r), g, w, None)
  | NotCooling r =>
      let (g, seen) := guardian_action_run_seen (rd_key r) (rd_now r) g in
      (if seen || home_guardian_run_already_recorded (rd_review r) (rd_key r) then None else Some (Unseen r), g, w, None)
  | Unseen r =>
      let (w, result) := execute_action h (rd_env r) (g_admin g) (rd_event r) (rd_plan r) w in
      (if has_status ["skipped"] result then None else Some (Attempted r), g, w, Some (rd_key r))
  | Attempted r =>
      (Some (CooldownMarked r), mark_guardian_action_cooldown (rd_review r) (rd_event r) (px_action_key (rd_plan r)) (rd_now r) g, w, None)
  | CooldownMarked r => (None, mark_guardian_action_run_seen (rd_key r) (rd_now r) g, w, None)
  end.

(** A round that no other step comes between. *)
Fixpoint advance_alone (n : nat) (p : Phase) (g : GuardianState) (w : W) : option Phase * GuardianState * W :=
  match n with
  | O => (Some p, g, w)
  | S n => match advance p g w with
           | (Some p, g, w, _) => advance_alone n p g w
           | (None, g, w, _) => (None, g, w)
           end
  end.

(** It is [run_action]. *)
Lemma round_alone automatic r stored now env p g w results skipped :
  let y := run_action h automatic r stored now env p (g, w, results, skipped) in
  advance_alone 5 (Begun {| rd_automatic := automatic; rd_review := r; rd_event := stored; rd_now := now; rd_env := env; rd_plan := p |}) g w
  = (None, y.1.1.1, y.1.1.2).
Proof.
  unfold run_action. cbn [advance_alone advance rd_automatic rd_review rd_event rd_now rd_env rd_plan].
  destruct (if automatic then _ else _) as [g1 [|]]; [done|]. cbn [advance_alone advance rd_review rd_event rd_now rd_env rd_plan].
  change (rd_key {| rd_automatic := automatic; rd_review := r; rd_event := stored; rd_now := now; rd_env := env; rd_plan := p |})
    with (px_idempotency_key p).
  destruct (guardian_action_run_seen _ _ g1) as [g2 seen]. destruct (seen || _); [done|].
  cbn [advance_alone advance rd_review rd_event rd_now rd_env rd_plan].
  destruct (execute_action h _ _ _ _ _) as [w' x]. by destruct (has_status _ x).
Qed.

(** * The service *)

(** [sv_rounds]: the rounds that go on, by thread. [sv_attempts]: what was attempted, by
    which thread, in order. *)
Record Service := {
  sv_state : GuardianState;
  sv_world : W;
  sv_rounds : gmap nat Phase;
  sv_attempts : list (nat * string)
}.

Definition set_round (i : nat) (p : option Phase) (m : gmap nat Phase) : gmap nat Phase :=
  match p with Some p => <[i := p]> m | None => base.delete i m end.

(** The steps of the running service, the clocks of rounds between [lo] and [hi]: a
    thread begins a round, of any rule, event and action, or goes on with one; an event
    is offered to the queue; or anything else happens that leaves the marks and adds
    nothing to the queue: rules are read, saved and changed, summaries logged, an event
    taken from the queue. *)
Inductive guardian_step (lo hi : Z) : Service -> Service -> Prop :=
| step_begin i r s :
    (lo <= rd_now r <= hi)%Z -> sv_rounds s !! i = None ->
    guardian_step lo hi s {| sv_state := sv_state s; sv_world := sv_world s; sv_rounds := <[i := Begun r]> (sv_rounds s);
                             sv_attempts := sv_attempts s |}
| step_advance i p s p' g' w' attempted :
    sv_rounds s !! i = Some p -> advance p (sv_state s) (sv_world s) = (p', g', w', attempted) ->
    guardian_step lo hi s {| sv_state := g'; sv_world := w'; sv_rounds := set_round i p' (sv_rounds s);
                             sv_attempts := sv_attempts s ++ (pair i <$> option_list attempted) |}
| step_enqueue stored now s :
    (lo <= now <= hi)%Z ->
    guardian_step lo hi s {| sv_state := (enqueue_home_guardian_evaluation stored now (sv_state s)).1; sv_world := sv_world s;
                             sv_rounds := sv_rounds s; sv_attempts := sv_attempts s |}
| step_other g' s :
    guardian_action_runs g' = guardian_action_runs (sv_state s) -> guardian_cooldowns g' = guardian_cooldowns (sv_state s) ->
    guardian_auto_eval_cooldowns g' = guardian_auto_eval_cooldowns (sv_state s) ->
    channel (guardian_queue g') `suffix_of` channel (guardian_queue (sv_state s)) ->
    guardian_step lo hi s {| sv_state := g'; sv_world := sv_world s; sv_rounds := sv_rounds s; sv_attempts := sv_attempts s |}.

(** ** Evaluations are such steps *)

(** A round does not touch the queue. *)
Lemma action_keeps_queue automatic r stored now env p g w results skipped :
  guardian_queue (run_action h automatic r stored now env p (g, w, results, skipped)).1.1.1 = guardian_queue g.
Proof.
  unfold run_action. destruct automatic; cbn -[execute_action home_guardian_action_cooldown_key];
    repeat (case_match; try done); simplify_eq; done.
Qed.

(** The clock of an evaluation stays between [lo] and [hi]. *)
Definition clock_within (lo hi : Z) (e : EvalEnv) : Prop := forall n, (lo <= re_epoch (ee_rule e n) <= hi)%Z.

Section evaluation.
Context (lo hi : Z) (rounds : gmap nat Phase) (i : nat) (Hi : rounds !! i = None).

(** By steps of the thread [i] alone, which has no round before and after, and without
    the queue. *)
Definition runs (x y : GuardianState * W) : Prop :=
  guardian_queue y.1 = guardian_queue x.1 /\ forall attempts, exists attempts',
    rtc (guardian_step lo hi) {| sv_state := x.1; sv_world := x.2; sv_rounds := rounds; sv_attempts := attempts |}
      {| sv_state := y.1; sv_world := y.2; sv_rounds := rounds; sv_attempts := attempts' |}.

#[local] Instance runs_preorder : PreOrder runs.
Proof.
  split; [intros x; split; [done|intros a; by exists a]|]. intros x y z [Qxy Hxy] [Qyz Hyz]. split; [congruence|].
  intros a. destruct (Hxy a) as [b Hb]. destruct (Hyz b) as [c Hc]. exists c. by etrans.
Qed.

Lemma runs_other g g' w :
  guardian_action_runs g' = guardian_action_runs g -> guardian_cooldowns g' = guardian_cooldowns g ->
  guardian_auto_eval_cooldowns g' = guardian_auto_eval_cooldowns g ->
  guardian_queue g' = guardian_queue g -> runs (g, w) (g', w).
Proof.
  intros E1 E2 E3 E4. split; [done|]. intros a. exists a. apply rtc_once.
  apply (step_other lo hi g' {| sv_state := g; sv_world := w; sv_rounds := rounds; sv_attempts := a |} E1 E2 E3). cbn. by rewrite E4.
Qed.

Lemma runs_advance n p g w g' w' :
  advance_alone n p g w = (None, g', w') -> forall attempts, exists attempts',
  rtc (guardian_step lo hi) {| sv_state := g; sv_world := w; sv_rounds := <[i := p]> rounds; sv_attempts := attempts |}
    {| sv_state := g'; sv_world := w'; sv_rounds := rounds; sv_attempts := attempts' |}.
Proof using Hi.
  revert p g w. induction n as [|n IH]; intros p g w; cbn [advance_alone]; [done|].
  destruct (advance p g w) as [[[p1 g1] w1] attempted] eqn:E. intros Hn attempts.
  assert (guardian_step lo hi {| sv_state := g; sv_world := w; sv_rounds := <[i := p]> rounds; sv_attempts := attempts |}
    {| sv_state := g1; sv_world := w1; sv_rounds := set_round i p1 (<[i := p]> rounds);
       sv_attempts := attempts ++ (pair i <$> option_list attempted) |}) as Hstep.
  { exact (step_advance lo hi i p {| sv_state := g; sv_world := w; sv_rounds := <[i := p]> rounds; sv_attempts := attempts |}
      p1 g1 w1 attempted (lookup_insert_eq _ _ _) E). }
  destruct p1 as [p1|]; cbn [set_round] in Hstep.
  - rewrite insert_insert_eq in Hstep. destruct (IH p1 g1 w1 Hn (attempts ++ (pair i <$> option_list attempted))) as [b Hb].
    exists b. by eapply rtc_l.
  - injection Hn as <- <-. rewrite delete_insert_eq, delete_id in Hstep by done. eexists. by apply rtc_once.
Qed.

Lemma runs_action automatic r stored now env p g w results skipped :
  (lo <= now <= hi)%Z ->
  let y := run_action h automatic r stored now env p (g, w, results, skipped) in runs (g, w) (y.1.1.1, y.1.1.2).
Proof using Hi.
  intros Hn y. split; [apply action_keeps_queue|]. intros a. pose proof (round_alone automatic r stored now env p g w results skipped) as Hr. cbv zeta in Hr. fold y in Hr.
  set (round := {| rd_automatic := automatic; rd_review := r; rd_event := stored; rd_now := now; rd_env := env; rd_plan := p |}) in Hr.
  destruct (runs_advance _ _ _ _ _ _ Hr a) as [b Hb]. exists b. eapply rtc_l; [|exact Hb].
  exact (step_begin lo hi i round {| sv_state := g; sv_world := w; sv_rounds := rounds; sv_attempts := a |} Hn Hi).
Qed.

Lemma runs_actions automatic r stored now es l acc :
  (lo <= now <= hi)%Z -> let y := run_actions h automatic r stored now es l acc in runs (acc.1.1.1, acc.1.1.2) (y.1.1.1, y.1.1.2).
Proof using Hi.
  intros Hn. cbv zeta. revert es acc. induction l as [|p l IH]; intros es [[[g w] rs] sk]; [reflexivity|].
  cbn [run_actions]. etrans; [by apply runs_action|apply IH].
Qed.

Lemma runs_save e r g w : runs (g, w) ((save_review e r g).1, w).
Proof. unfold save_review. destruct (save_fault e) as [[]|]; [by apply runs_other|]. by destruct (upsert_automation_review _ _ _ _ _); [apply runs_other|]. Qed.

Lemma runs_log e x g w : runs (g, w) (append_home_guardian_activity_summary e x g, w).
Proof. by apply runs_other. Qed.

Lemma runs_rule automatic execute_active stored e r g w :
  (lo <= re_epoch e <= hi)%Z ->
  let y := evaluate_rule h automatic execute_active stored e r g w in runs (g, w) y.1.
Proof using Hi.
  intros Hn. cbv zeta. unfold evaluate_rule.
  destruct (build_home_guardian_rule_evaluation_plan _ _ _ _ _) as [[r' summary persist|r' plans]|]; [| |reflexivity].
  - destruct (persist && negb automatic).
    + pose proof (runs_save (re_save e) (append_home_guardian_run_summary r' summary) g w) as Hs.
      destruct (save_review _ _ _) as [g1 [|]]; [|done]. etrans; [exact Hs|apply runs_log].
    + destruct persist; [apply runs_log|reflexivity].
  - pose proof (runs_actions automatic r' stored (re_epoch e) (re_action e) plans (g, w, [], 0) Hn) as Hk.
    destruct (run_actions h _ _ _ _ _ _ _) as [[[g1 w1] rs] sk]. cbn [fst snd] in Hk.
    assert (forall summary, runs (g1, w1)
      (match (if automatic then (g1, Ok tt) else save_review (re_save e) (append_home_guardian_run_summary r' summary) g1)
       with (g2, Err error) => (g2, w1, Err error)
       | (g2, Ok _) => (append_home_guardian_activity_summary (re_log e) summary g2, w1, Ok (Some summary)) end).1)
      as Hrest.
    { intros summary. pose proof (runs_save (re_save e) (append_home_guardian_run_summary r' summary) g1 w1) as Hs.
      destruct automatic; [apply runs_log|]. destruct (save_review _ _ _) as [g2 [|]]; [|done]. etrans; [exact Hs|apply runs_log]. }
    destruct rs as [|x rs]; [destruct sk|]; first [done | by etrans].
Qed.

Lemma runs_rules automatic execute_active stored e l results g w :
  (forall n, (lo <= re_epoch (e n) <= hi)%Z) ->
  runs (g, w) (evaluate_rules h automatic execute_active stored e l results g w).1.
Proof using Hi.
  revert e results g w. induction l as [|r l IH]; intros e results g w Hn; [reflexivity|]. cbn [evaluate_rules].
  pose proof (runs_rule automatic execute_active stored (e 0) r g w (Hn 0)) as Hk. cbv zeta in Hk.
  destruct (evaluate_rule h _ _ _ _ _ _ _) as [[g1 w1] [summary|error]]; [|done].
  etrans; [exact Hk|]. apply IH. intros n. apply Hn.
Qed.

Lemma runs_cached e g w : runs (g, w) ((cached_home_guardian_reviews_for_auto e g).1, w).
Proof.
  unfold cached_home_guardian_reviews_for_auto, refresh_home_guardian_rule_cache.
  destruct (cache_needs_refresh _ _); [destruct (ee_load_error e); [reflexivity|]|];
    destruct (refresh_error _); first [reflexivity | by apply runs_other].
Qed.

(** An evaluation is a sequence of steps of its thread. *)
Theorem evaluation_runs stored only execute_active e g w :
  clock_within lo hi e -> runs (g, w) (evaluate_home_guardian_rules_for_event h stored only execute_active e g w).1.
Proof using Hi.
  intros Hn. unfold evaluate_home_guardian_rules_for_event.
  assert (forall g1 l, runs (g, w) (g1, w) -> runs (g, w)
     (match evaluate_rules h (negb (is_some only)) execute_active stored (ee_rule e) l [] g1 w with
      | (g, w, Err error) => (g, w, Err error)
      | (g, w, Ok results) => (g, w, Ok (build_home_guardian_evaluation_response stored results (ee_stamp e)))
      end).1) as Hrun.
  { intros g1 l Hg. pose proof (runs_rules (negb (is_some only)) execute_active stored (ee_rule e) l [] g1 w Hn) as Hk.
    destruct (evaluate_rules h _ _ _ _ _ _ _ _) as [[g3 w3] [|]]; by etrans. }
  destruct only as [id|]; cbn [is_some negb] in *.
  - destruct (ee_load_error e); [reflexivity|].
    destruct (select_home_guardian_reviews _ _); [by apply Hrun|reflexivity].
  - pose proof (runs_cached e g w) as Hk.
    destruct (cached_home_guardian_reviews_for_auto e g) as [g1 [l|]]; [by apply Hrun|done].
Qed.

(** A round of the worker is an evaluation, after which the event is out of the queue. *)
Theorem worker_round_runs e g w attempts :
  clock_within lo hi e -> exists attempts',
  rtc (guardian_step lo hi) {| sv_state := g; sv_world := w; sv_rounds := rounds; sv_attempts := attempts |}
    {| sv_state := (worker_round h e g w).1; sv_world := (worker_round h e g w).2; sv_rounds := rounds; sv_attempts := attempts' |}.
Proof using Hi.
  intros Hn. unfold worker_round. destruct (channel _) as [|stored rest] eqn:Hc; [by exists attempts|].
  destruct (evaluation_runs stored None true e g w Hn) as [Hq Hk]. destruct (Hk attempts) as [attempts' Hs]. exists attempts'.
  destruct (evaluate_home_guardian_rules_for_event h _ _ _ _ _ _) as [[g1 w1] [x|error]]; cbn [fst snd] in Hs, Hq;
    (eapply rtc_r; [exact Hs|]);
    eapply (step_other lo hi _ {| sv_state := g1; sv_world := w1; sv_rounds := rounds; sv_attempts := attempts' |}); try done;
    cbn; rewrite Hq, Hc; by exists [stored].
Qed.
End evaluation.

(** * What is attempted *)

Definition ATTEMPTED : list string := ["delivered"; "acted"; "failed"; "blocked"].

(** Whatever is executed has the status of an attempt, *)
Lemma execute_action_status env a stored p w :
  has_status ATTEMPTED (execute_action h env a stored p w).2 = true.
Proof.
  unfold execute_action. destruct (px_kind p); [| |done].
  - unfold execute_home_guardian_notify_action.
    destruct (ae_load_error env); [done|]. destruct (default_notification_target_record _); [|done].
    destruct (build_local_vision_notification_intent _ _); [|done]. destruct (delivery_service h w) as [config|]; [|done].
    destruct (deliver _ _ _ w) as [w' [record|[]]]; [destruct (dr_ok record)| | | |]; done.
  - unfold execute_home_guardian_ha_action.
    destruct (ae_load_error env); [done|]. destruct (validate_home_assistant_service_action_request _ _ _); [|done].
    destruct (home_assistant_client_from_state _ _); [|done]. destruct (call_service _ _ _ w) as [w' []]; done.
Qed.

Lemma attempted_not_skipped x : has_status ATTEMPTED x = true -> has_status ["skipped"] x = false.
Proof.
  unfold has_status. destruct (status_of x) as [s|]; [|done]. intros Hs. apply str_in_true in Hs.
  apply str_in_false. intros Hin. apply list_elem_of_singleton in Hin as ->.
  unfold ATTEMPTED in Hs. set_solver.
Qed.

(** so that it is marked. *)
Lemma executed_goes_on env a stored p w : has_status ["skipped"] (execute_action h env a stored p w).2 = false.
Proof. apply attempted_not_skipped, execute_action_status. Qed.

Lemma marked_seen lo hi k now m :
  (lo <= now <= hi)%Z -> (hi - lo <= HOME_GUARDIAN_IDEMPOTENCY_MEMORY_SECONDS)%Z -> marked lo hi k m ->
  is_some (retain_recent HOME_GUARDIAN_IDEMPOTENCY_MEMORY_SECONDS now m !! k) = true.
Proof.
  intros Hn Hw Hm.
  by destruct (marked_retain lo hi HOME_GUARDIAN_IDEMPOTENCY_MEMORY_SECONDS k now m Hn Hw Hm) as (v & -> & _).
Qed.

(** The thread of [p] has executed the action of [k] and not marked it. *)
Definition marking (k : string) (p : Phase) : Prop :=
  match p with Attempted r | CooldownMarked r => rd_key r = k | _ => False end.

(** What a section does: it keeps marks, goes on with the same round, and either
    executes nothing, or the action it had found unseen, and then goes on to mark it; a
    round that marked leaves a mark; and one that finds no mark found none. *)
Record section_of (lo hi : Z) (g g' : GuardianState) (w w' : W) (p : Phase) (p' : option Phase) (attempted : option string) : Prop := {
  so_round p1 : p' = Some p1 -> round_of p1 = round_of p;
  so_keeps k : marked lo hi k (guardian_action_runs g) -> marked lo hi k (guardian_action_runs g');
  so_unseen r : p' = Some (Unseen r) -> ~ marked lo hi (rd_key r) (guardian_action_runs g');
  so_idle : attempted = None -> w' = w;
  so_attempts k : attempted = Some k -> (exists r, p = Unseen r /\ rd_key r = k) /\ (exists p1, p' = Some p1 /\ marking k p1);
  so_marks k : marking k p -> (exists p1, p' = Some p1 /\ marking k p1) \/ marked lo hi k (guardian_action_runs g')
}.

Lemma advance_section lo hi p g w p' g' w' attempted :
  (hi - lo <= HOME_GUARDIAN_IDEMPOTENCY_MEMORY_SECONDS)%Z -> (lo <= rd_now (round_of p) <= hi)%Z ->
  advance p g w = (p', g', w', attempted) -> section_of lo hi g g' w w' p p' attempted.
Proof.
  intros Hw. destruct p as [r|r|r|r|r]; cbn [round_of advance]; intros Hn.
  - destruct (if rd_automatic r then _ else _) as [g1 cooling] eqn:Hg.
    assert (guardian_action_runs g1 = guardian_action_runs g) as Hr by (destruct (rd_automatic r); by injection Hg as <- _).
    intros [= <- <- <- <-]. split; try done; [|by rewrite Hr|]; by destruct cooling; intros ? [= <-].
  - unfold guardian_action_run_seen. intros E.
    set (m := retain_recent HOME_GUARDIAN_IDEMPOTENCY_MEMORY_SECONDS (rd_now r) (guardian_action_runs g)) in E.
    injection E as <- <- <- <-. split; try done; cbn [guardian_action_runs set_action_runs].
    + by destruct (_ || _); intros ? [= <-].
    + intros k Hk. unfold m. by apply marked_retain.
    + destruct (is_some (m !! rd_key r)) eqn:Hs; [done|]. destruct (orb false _); [done|]. intros ? [= <-] (v & Hv & _). by rewrite Hv in Hs.
  - pose proof (executed_goes_on (rd_env r) (g_admin g) (rd_event r) (rd_plan r) w) as Hs.
    destruct (execute_action h _ _ _ _ _) as [w1 x]. cbn [snd] in Hs. rewrite Hs. intros [= <- <- <- <-].
    split; try done; [by intros ? [= <-]|]. intros k [= <-]. split; [by exists r|by exists (Attempted r)].
  - intros [= <- <- <- <-]. split; try done; [by intros ? [= <-]|]. intros k Hk. left. by exists (CooldownMarked r).
  - intros [= <- <- <- <-]. split; try done; cbn.
    + intros k Hk. by apply marked_insert.
    + intros k <-. right. by apply marked_new.
Qed.

(** * The invariant *)

Record once (lo hi : Z) (s : Service) : Prop := {
  once_clocks i p : sv_rounds s !! i = Some p -> (lo <= rd_now (round_of p) <= hi)%Z;
  once_marked i k : (i, k) ∈ sv_attempts s ->
    marked lo hi k (guardian_action_runs (sv_state s)) \/ exists p, sv_rounds s !! i = Some p /\ marking k p;
  once_unseen i r : sv_rounds s !! i = Some (Unseen r) -> (i, rd_key r) ∉ sv_attempts s;
  once_nodup : NoDup (sv_attempts s)
}.

(** A thread that begins a round has found nothing yet. *)
Lemma once_begin lo hi i r s :
  (lo <= rd_now r <= hi)%Z -> sv_rounds s !! i = None -> once lo hi s ->
  once lo hi {| sv_state := sv_state s; sv_world := sv_world s; sv_rounds := <[i := Begun r]> (sv_rounds s); sv_attempts := sv_attempts s |}.
Proof.
  intros Hn Hi [Hc Hm Hu Hd]. split; cbn [sv_state sv_rounds sv_attempts]; try done.
  - intros j p [[-> <-]|[_ Hp]]%lookup_insert_Some; [done|by eapply Hc].
  - intros j k Hin. destruct (Hm j k Hin) as [|(p & Hp & Hk)]; [by left|]. right. exists p.
    rewrite lookup_insert_ne; [done|]. intros ->. congruence.
  - intros j x [[_ [=]]|[_ Hx]]%lookup_insert_Some. by apply Hu.
Qed.

Lemma lookup_set_round i p m j : set_round i p m !! j = if decide (i = j) then p else m !! j.
Proof.
  destruct p; cbn [set_round]; [by rewrite lookup_insert|by rewrite lookup_delete].
Qed.

Lemma elem_of_attempts i j k (l : list (nat * string)) attempted :
  (j, k) ∈ l ++ (pair i <$> option_list attempted) <-> (j, k) ∈ l \/ (j = i /\ attempted = Some k).
Proof.
  rewrite elem_of_app. destruct attempted as [a|]; cbn; [rewrite list_elem_of_singleton|rewrite elem_of_nil]; naive_solver.
Qed.

(** A section keeps what is marked, and executes at most the action it had found unseen. *)
Lemma once_advance lo hi i p s p' g' w' attempted :
  (hi - lo <= HOME_GUARDIAN_IDEMPOTENCY_MEMORY_SECONDS)%Z -> sv_rounds s !! i = Some p ->
  section_of lo hi (sv_state s) g' (sv_world s) w' p p' attempted -> once lo hi s ->
  once lo hi {| sv_state := g'; sv_world := w'; sv_rounds := set_round i p' (sv_rounds s);
                sv_attempts := sv_attempts s ++ (pair i <$> option_list attempted) |}.
Proof.
  intros Hw Hi [Sr Sk Su _ Sa Sm] [Hc Hm Hu Hd]. split; cbn [sv_state sv_rounds sv_attempts].
  - intros j x. rewrite lookup_set_round. destruct (decide (i = j)) as [<-|]; [|apply Hc].
    intros Hx. rewrite (Sr x Hx). by eapply Hc.
  - intros j k. rewrite elem_of_attempts, lookup_set_round. intros [Hin|[-> Hk]].
    + destruct (Hm j k Hin) as [Hk|(x & Hx & Hk)]; [left; by apply Sk|].
      destruct (decide (i = j)) as [<-|]; [|by right; exists x]. rewrite Hi in Hx. injection Hx as <-.
      destruct (Sm k Hk); [by right|by left].
    + rewrite decide_True by done. right. by apply Sa.
  - intros j r. rewrite elem_of_attempts, lookup_set_round. intros Hj [Hin|[-> Hk]].
    + destruct (decide (i = j)) as [<-|]; [|by apply (Hu j r)].
      destruct (Hm i _ Hin) as [Hk|(x & Hx & Hk)]; [by apply (Su r Hj), Sk|].
      rewrite Hi in Hx. injection Hx as <-. destruct (Sm _ Hk) as [(p1 & E & Hp1)|Hk']; [|by apply (Su r Hj)].
      rewrite Hj in E. by injection E as <-.
    + rewrite decide_True in Hj by done. destruct (Sa _ Hk) as [_ (p1 & E & Hp1)]. rewrite Hj in E. by injection E as <-.
  - destruct attempted as [a|]; [|cbn; by rewrite app_nil_r]. apply NoDup_app. split; [done|].
    split; [|apply NoDup_singleton]. intros x Hx Hx'. apply list_elem_of_singleton in Hx' as ->.
    destruct (Sa a eq_refl) as [(r & -> & <-) _]. by apply (Hu i r).
Qed.

Lemma enqueue_keeps_runs stored now g :
  guardian_action_runs (enqueue_home_guardian_evaluation stored now g).1 = guardian_action_runs g.
Proof.
  unfold enqueue_home_guardian_evaluation, guardian_auto_evaluation_due. destruct (younger _ _ _); [done|]. by destruct (enqueue _ _).
Qed.

Lemma once_step lo hi s s' :
  (hi - lo <= HOME_GUARDIAN_IDEMPOTENCY_MEMORY_SECONDS)%Z -> guardian_step lo hi s s' -> once lo hi s -> once lo hi s'.
Proof.
  intros Hw [i r s0 Hn Hi|i p s0 p' g' w' attempted Hi Ha|stored now s0 Hn|g' s0 Hr _ _ _] Ho.
  - by apply once_begin.
  - apply (once_advance lo hi i p); [done|done| |done]. apply advance_section; [done|by eapply once_clocks|done].
  - destruct Ho. split; cbn [sv_state sv_rounds sv_attempts]; try done. by rewrite enqueue_keeps_runs.
  - destruct Ho. split; cbn [sv_state sv_rounds sv_attempts]; try done. by rewrite Hr.
Qed.

Lemma once_steps lo hi s s' :
  (hi - lo <= HOME_GUARDIAN_IDEMPOTENCY_MEMORY_SECONDS)%Z -> rtc (guardian_step lo hi) s s' -> once lo hi s -> once lo hi s'.
Proof. intros Hw. induction 1 as [|x y z Hs _ IH]; [done|]. intros Ho. by eapply IH, once_step. Qed.

(** Of a key that is marked since [s]: it stays so, and who attempts it since had found
    it unseen before, in a round that still goes on. *)
Record settled (lo hi : Z) (k : string) (s s' : Service) : Prop := {
  se_once : once lo hi s';
  se_marked : marked lo hi k (guardian_action_runs (sv_state s'));
  se_unseen i r : sv_rounds s' !! i = Some (Unseen r) -> rd_key r = k -> sv_rounds s !! i = Some (Unseen r);
  se_attempts i : (i, k) ∈ sv_attempts s' ->
    (i, k) ∈ sv_attempts s \/ exists r, sv_rounds s !! i = Some (Unseen r) /\ rd_key r = k
}.

Lemma settled_step lo hi k s s1 s2 :
  (hi - lo <= HOME_GUARDIAN_IDEMPOTENCY_MEMORY_SECONDS)%Z -> guardian_step lo hi s1 s2 -> settled lo hi k s s1 -> settled lo hi k s s2.
Proof.
  intros Hw Hs [Ho Hm Hu Ha]. pose proof (once_step lo hi s1 s2 Hw Hs Ho) as Ho2.
  destruct Hs as [i r s0 Hn Hi|i p s0 p' g' w' attempted Hi Hadv|stored now s0 Hn|g' s0 Hr _ _ _]; split; try done;
    cbn [sv_state sv_rounds sv_attempts].
  - intros j x [[_ [=]]|[_ Hx]]%lookup_insert_Some. by apply Hu.
  - eapply so_keeps; [|exact Hm]. apply advance_section with (lo := lo) (hi := hi) in Hadv; [exact Hadv|done|exact (once_clocks _ _ _ Ho i p Hi)].
  - intros j r. rewrite lookup_set_round. destruct (decide (i = j)) as [<-|]; [|apply Hu]. intros -> <-.
    apply advance_section with (lo := lo) (hi := hi) in Hadv; [|done|exact (once_clocks _ _ _ Ho i p Hi)].
    destruct (so_unseen _ _ _ _ _ _ _ _ _ Hadv r eq_refl). by eapply so_keeps.
  - intros j. rewrite elem_of_attempts. intros [Hin|[-> ->]]; [by apply Ha|].
    apply advance_section with (lo := lo) (hi := hi) in Hadv; [|done|exact (once_clocks _ _ _ Ho i p Hi)].
    destruct (so_attempts _ _ _ _ _ _ _ _ _ Hadv k eq_refl) as [(r & -> & Hk) _]. right. exists r. auto.
  - by rewrite enqueue_keeps_runs.
  - by rewrite Hr.
Qed.

Lemma settled_steps lo hi k s s' :
  (hi - lo <= HOME_GUARDIAN_IDEMPOTENCY_MEMORY_SECONDS)%Z -> once lo hi s -> marked lo hi k (guardian_action_runs (sv_state s)) ->
  rtc (guardian_step lo hi) s s' -> settled lo hi k s s'.
Proof.
  intros Hw Ho Hm Hs. eapply (rtc_ind_r (settled lo hi k s) s); [|by intros; eapply settled_step|exact Hs].
  by split; auto.
Qed.

(** Threads whose rounds reach the world are counted. *)
Lemma attempts_grow lo hi s s' :
  (hi - lo <= HOME_GUARDIAN_IDEMPOTENCY_MEMORY_SECONDS)%Z -> once lo hi s -> rtc (guardian_step lo hi) s s' ->
  exists l, sv_attempts s' = sv_attempts s ++ l /\ (l = [] -> sv_world s' = sv_world s).
Proof.
  intros Hw Ho. induction 1 as [x|x y z Hs _ IH]; [exists []; by rewrite app_nil_r|].
  destruct (IH (once_step _ _ _ _ Hw Hs Ho)) as (l & -> & Hl).
  destruct Hs as [i r s0 Hn Hi|i p s0 p' g' w' attempted Hi Hadv|stored now s0 Hn|g' s0 Hr _ _ _]; cbn [sv_attempts sv_world] in *;
    try (by exists l).
  pose proof (advance_section lo hi _ _ _ _ _ _ _ Hw (once_clocks _ _ _ Ho i p Hi) Hadv) as Hsec.
  exists ((pair i <$> option_list attempted) ++ l). rewrite app_assoc. split; [done|].
  destruct attempted; [done|]. intros Hnil. rewrite Hl by exact Hnil. exact (so_idle _ _ _ _ _ _ _ _ _ Hsec eq_refl).
Qed.

(** * What never happens twice *)

(** C32. How often the home guardian executes an action, its rules evaluated on any
    number of threads in one process, each of which looks whether the action was run,
    executes it and marks it run under locks it does not hold together. Within the memory
    of seven days, after any interleaving of their sections from a service with no round
    going on: no thread executes the action of a rule for an event twice; once a thread
    has executed it and its round is over, the only ones to execute it still are those
    that were then between their look and the execution; and the world changes only by
    executions. *)
Theorem action_attempted_once lo hi s0 s1 s2 :
  (hi - lo <= HOME_GUARDIAN_IDEMPOTENCY_MEMORY_SECONDS)%Z ->
  sv_rounds s0 = ∅ -> sv_attempts s0 = [] ->
  rtc (guardian_step lo hi) s0 s1 -> rtc (guardian_step lo hi) s1 s2 ->
  NoDup (sv_attempts s2)
  /\ (forall j k, (j, k) ∈ sv_attempts s1 -> sv_rounds s1 !! j = None ->
      forall i, (i, k) ∈ sv_attempts s2 ->
      (i, k) ∈ sv_attempts s1 \/ exists r, sv_rounds s1 !! i = Some (Unseen r) /\ rd_key r = k)
  /\ (sv_attempts s2 = sv_attempts s1 -> sv_world s2 = sv_world s1).
Proof.
  intros Hw Hr0 Ha0 H01 H12.
  assert (once lo hi s0) as Ho0.
  { split; rewrite ?Hr0, ?Ha0; [done|by intros ? ? ?%elem_of_nil|done|apply NoDup_nil_2]. }
  pose proof (once_steps _ _ _ _ Hw H01 Ho0) as Ho1. split; [|split].
  - by eapply once_nodup, once_steps.
  - intros j k Hj Hd i. apply (settled_steps lo hi k s1 s2); try done.
    destruct (once_marked _ _ _ Ho1 j k Hj) as [|(p & Hp & _)]; [done|congruence].
  - destruct (attempts_grow _ _ _ _ Hw Ho1 H12) as (l & -> & Hl). intros Hl0. apply Hl.
    rewrite <- (app_nil_r (sv_attempts s1)) in Hl0 at 2. by apply app_inv_head in Hl0.
Qed.

(** ** The queue of events *)

(** Marks of when events were queued stay while the interval is short enough. *)
Lemma steps_keep_queued lo hi k s s' :
  (hi - lo <= HOME_GUARDIAN_AUTO_EVALUATION_MIN_INTERVAL_SECONDS * 2)%Z -> rtc (guardian_step lo hi) s s' ->
  marked lo hi k (guardian_auto_eval_cooldowns (sv_state s)) -> marked lo hi k (guardian_auto_eval_cooldowns (sv_state s')).
Proof.
  intros Hw. induction 1 as [|x y z Hs _ IH]; [done|]. intros Hk. apply IH.
  destruct Hs as [i r s0 Hn Hi|i p s0 p' g' w' attempted Hi Ha|stored now s0 Hn|g' s0 _ _ Hr _]; cbn [sv_state]; [done| | |by rewrite Hr].
  - replace (guardian_auto_eval_cooldowns g') with (guardian_auto_eval_cooldowns (sv_state s0)); [done|].
    destruct p; cbn [advance] in Ha; unfold guardian_action_in_cooldown, guardian_action_run_seen in Ha;
      [destruct (rd_automatic r)| |destruct (execute_action h _ _ _ _ _)| |]; by injection Ha as _ <- _ _.
  - unfold enqueue_home_guardian_evaluation, guardian_auto_evaluation_due.
    destruct (younger _ _ _); [|destruct (enqueue _ _)]; cbn; auto with marks.
Qed.

(** Events of a camera and type are queued at most once a minute: after one was
    offered that was not coalesced, and any steps of the service within less than a
    minute, one of the same camera and type is coalesced and the channel stays as it
    is. *)
Theorem events_coalesced lo hi stored now g g1 status s1 stored' now' s2 :
  (hi - lo < HOME_GUARDIAN_AUTO_EVALUATION_MIN_INTERVAL_SECONDS)%Z ->
  (lo <= now <= hi)%Z -> (lo <= now' <= hi)%Z ->
  enqueue_home_guardian_evaluation stored now g = (g1, status) -> status <> "coalesced" ->
  sv_state s1 = g1 -> rtc (guardian_step lo hi) s1 s2 ->
  home_guardian_auto_evaluation_cooldown_key stored' = home_guardian_auto_evaluation_cooldown_key stored ->
  let z := enqueue_home_guardian_evaluation stored' now' (sv_state s2) in
  z.2 = "coalesced" /\ channel (guardian_queue z.1) = channel (guardian_queue (sv_state s2)).
Proof.
  intros Hw Hn Hn' He Hs <- Hsteps Hkey z.
  assert (guardian_auto_eval_cooldowns (sv_state s1) !! home_guardian_auto_evaluation_cooldown_key stored = Some now) as Hr.
  { revert He. unfold enqueue_home_guardian_evaluation, guardian_auto_evaluation_due.
    destruct (younger _ _ _); [by intros [= _ <-]|]. destruct (enqueue _ _). intros [= <- <-].
    apply lookup_insert_eq. }
  assert (marked lo hi (home_guardian_auto_evaluation_cooldown_key stored) (guardian_auto_eval_cooldowns (sv_state s1))) as Hm
    by by exists now.
  apply (steps_keep_queued lo hi _ s1 s2) in Hm;
    [|unfold HOME_GUARDIAN_AUTO_EVALUATION_MIN_INTERVAL_SECONDS in *; lia|done].
  subst z. unfold enqueue_home_guardian_evaluation, guardian_auto_evaluation_due. rewrite Hkey.
  by rewrite (marked_younger lo hi (HOME_GUARDIAN_AUTO_EVALUATION_MIN_INTERVAL_SECONDS * 2)
                HOME_GUARDIAN_AUTO_EVALUATION_MIN_INTERVAL_SECONDS _ now' _ Hn' Hw ltac:(done) Hm).
Qed.

Definition queue_ok (q : HomeGuardianEvaluationQueue) : Prop :=
  (length (channel q) <= HOME_GUARDIAN_EVALUATION_QUEUE_CAPACITY)%nat.

Lemma queue_ok_enqueue stored q : queue_ok q -> queue_ok (enqueue stored q).1.
Proof.
  unfold enqueue, queue_ok. destruct (connected q); [|done]. cbn [negb].
  destruct (Nat.ltb_spec (length (channel q)) HOME_GUARDIAN_EVALUATION_QUEUE_CAPACITY); [|done].
  cbn [fst channel]. rewrite length_app. cbn [length]. lia.
Qed.

Lemma advance_keeps_queue p g w p' g' w' attempted :
  advance p g w = (p', g', w', attempted) -> guardian_queue g' = guardian_queue g.
Proof.
  destruct p as [r|r|r|r|r]; cbn [advance]; unfold guardian_action_in_cooldown, guardian_action_run_seen;
    [destruct (rd_automatic r)| |destruct (execute_action h _ _ _ _ _)| |]; by intros [= _ <- _ _].
Qed.

(** The channel of events to evaluate holds at most its capacity: any steps of
    the service keep it so. *)
Theorem guardian_queue_bounded lo hi s s' :
  (length (channel (guardian_queue (sv_state s))) <= HOME_GUARDIAN_EVALUATION_QUEUE_CAPACITY)%nat ->
  rtc (guardian_step lo hi) s s' ->
  (length (channel (guardian_queue (sv_state s'))) <= HOME_GUARDIAN_EVALUATION_QUEUE_CAPACITY)%nat.
Proof.
  intros Hq. induction 1 as [|x y z Hs _ IH]; [done|]. apply IH.
  destruct Hs as [i r s0 Hn Hi|i p s0 p' g' w' attempted Hi Ha|stored now s0 Hn|g' s0 _ _ _ [l Hl]]; cbn [sv_state]; [done| | |].
  - by rewrite (advance_keeps_queue _ _ _ _ _ _ _ Ha).
  - unfold enqueue_home_guardian_evaluation, guardian_auto_evaluation_due. destruct (younger _ _ _); [done|].
    cbn [guardian_queue set_auto_eval_cooldowns]. pose proof (queue_ok_enqueue stored _ Hq) as Hk. by destruct (enqueue _ _).
  - rewrite Hl, length_app in Hq. lia.
Qed.

(** * A schedule *)

(** A thread begins a round, or goes on with the one it has. *)
Inductive Move := Begin (r : Round) | Advance.

Definition perform (s : Service) (m : nat * Move) : option Service :=
  match m.2, sv_rounds s !! m.1 with
  | Begin r, None =>
      Some {| sv_state := sv_state s; sv_world := sv_world s; sv_rounds := <[m.1 := Begun r]> (sv_rounds s); sv_attempts := sv_attempts s |}
  | Advance, Some p =>
      let '(p', g, w, attempted) := advance p (sv_state s) (sv_world s) in
      Some {| sv_state := g; sv_world := w; sv_rounds := set_round m.1 p' (sv_rounds s);
              sv_attempts := sv_attempts s ++ (pair m.1 <$> option_list attempted) |}
  | _, _ => None
  end.

Fixpoint performs (l : list (nat * Move)) (s : Service) : option Service :=
  match l with [] => Some s | m :: l => match perform s m with Some s => performs l s | None => None end end.

Definition in_time (lo hi : Z) (m : nat * Move) : bool :=
  match m.2 with Begin r => (lo <=? rd_now r)%Z && (rd_now r <=? hi)%Z | Advance => true end.

Lemma performs_steps lo hi l s s' :
  forallb (in_time lo hi) l = true -> performs l s = Some s' -> rtc (guardian_step lo hi) s s'.
Proof.
  revert s. induction l as [|[i m] l IH]; intros s; cbn [forallb performs]; [intros _ [= ->]; reflexivity|].
  intros [Hm Hl]%andb_true_iff. destruct (perform s (i, m)) as [s1|] eqn:E; [|done]. intros Hs.
  eapply rtc_l; [|by apply IH]. clear IH Hs. revert E. unfold perform, in_time in *. cbn [fst snd] in *.
  destruct m as [r|], (sv_rounds s !! i) as [p|] eqn:Hi; try done.
  - intros [= <-]. apply step_begin; [lia|done].
  - destruct (advance p (sv_state s) (sv_world s)) as [[[p' g] w] attempted] eqn:Ha. intros [= <-]. by eapply step_advance.
Qed.
End time.
