(* ===== verification/GuardianReviews.v ===== *)
(** What is kept of the home guardian: the stored automation reviews, the run
    summaries of a rule, and the counters over results. *)
From Stdlib Require Import Sorting.Sorted.
From S2P Require Import Prelude RustString Json Guardian.
Local Open Scope string_scope.
Local Open Scope list_scope.

(** * Stored reviews *)

Section reviews.
Context `{!ReviewText}.

Lemma review_status_fixed status s :
  sanitize_automation_review_status status = Ok s ->
  s ∈ REVIEW_STATUSES /\ sanitize_automation_review_status s = Ok s.
Proof.
  unfold sanitize_automation_review_status.
  destruct (str_in _ REVIEW_STATUSES) eqn:Hin; [|done]. intros [= <-]. apply str_in_true in Hin.
  split; [done|]. revert Hin. generalize (if is_empty (to_ascii_lowercase (trim status)) then "draft" else to_ascii_lowercase (trim status)).
  intros s Hin. unfold REVIEW_STATUSES in Hin. rewrite !elem_of_cons in Hin.
  by destruct_or! Hin; [..|by apply not_elem_of_nil in Hin]; subst s.
Qed.

Lemma non_blank_fixed s t : non_blank s = Some t -> non_blank t = Some t.
Proof.
  intros Ht. apply non_blank_some in Ht as [-> Hne]. apply non_blank_some. by rewrite trim_fixed.
Qed.

Lemma option_non_blank_fixed o : (o ≫= non_blank) ≫= non_blank = o ≫= non_blank.
Proof. destruct o as [s|]; [|done]. cbn. destruct (non_blank s) eqn:Hs; [|done]. by eapply non_blank_fixed. Qed.

Lemma default_non_blank_fixed d s : non_blank d = Some d ->
  default d (non_blank (default d (non_blank s))) = default d (non_blank s).
Proof.
  intros Hd. destruct (non_blank s) as [t|] eqn:Hs; cbn.
  - by rewrite (non_blank_fixed _ _ Hs).
  - by rewrite Hd.
Qed.

(** A review that is stored as it is. *)
Definition stored_form (r : AutomationRuleReview) : Prop := forall uuid, sanitize_automation_review uuid r = Ok r.

(** An identifier that trimming does not change. *)
Definition plain_id (uuid : string) : Prop := trim ("review-" +:+ uuid) = "review-" +:+ uuid.

Lemma sanitized_form uuid r r' : plain_id uuid -> sanitize_automation_review uuid r = Ok r' -> stored_form r'.
Proof.
  intros Hu. unfold sanitize_automation_review.
  destruct (is_empty (trim (ar_original_prompt r))) eqn:Hp; [done|].
  destruct (sanitize_automation_review_status (ar_status r)) as [status|] eqn:Hs; [|done].
  apply review_status_fixed in Hs as [_ Hs].
  assert (exists id, id = (if is_empty (trim (ar_review_id r)) then "review-" +:+ uuid else trim (ar_review_id r))
                     /\ trim id = id /\ is_empty id = false) as (id & Hid & Hti & Hei).
  { eexists. split; [done|]. destruct (is_empty (trim (ar_review_id r))) eqn:Hi; [done|]. by rewrite trim_fixed. }
  rewrite <- Hid. destruct (automation_review_has_sensitive_payload _) eqn:Hx; [done|]. intros [= <-] uuid'.
  unfold sanitize_automation_review. cbn [ar_review_id ar_workspace_id ar_source ar_source_channel
    ar_source_conversation_id ar_original_prompt ar_status ar_trigger_definition ar_condition_definition
    ar_action_plan ar_device_refs ar_risk_level ar_requires_approval ar_created_at ar_updated_at ar_expires_at
    ar_rule_id ar_run_summaries ar_metadata].
  rewrite Hti, Hei.
  rewrite trim_fixed, Hp, Hs, !option_non_blank_fixed, !default_non_blank_fixed by done.
  by rewrite Hx.
Qed.

(** ** The list *)

Lemma kept_ids uuids seen l :
  (forall n, plain_id (uuids n)) ->
  NoDup (ar_review_id <$> keep_first_ids uuids seen l)
  /\ (forall r, r ∈ keep_first_ids uuids seen l -> stored_form r /\ ar_review_id r ∉ seen).
Proof.
  revert uuids seen. induction l as [|r l IH]; intros uuids seen Hu; cbn [keep_first_ids].
  { split; [constructor|]. intros r Hr. by apply not_elem_of_nil in Hr. }
  destruct (sanitize_automation_review (uuids 0) r) as [r'|] eqn:Hs; [|by apply IH].
  destruct (str_in (ar_review_id r') seen) eqn:Hin; [by apply IH|]. apply str_in_false in Hin.
  destruct (IH (fun n => uuids (S n)) (ar_review_id r' :: seen)) as [Hnd Hk]; [done|].
  rewrite fmap_cons. split.
  - constructor; [|done]. intros Hr. apply list_elem_of_fmap in Hr as (x & Hx & Hr).
    apply Hk in Hr as [_ Hr]. apply Hr. rewrite Hx. left.
  - intros x Hx. apply elem_of_cons in Hx as [->|Hx]; [split; [by eapply sanitized_form|done]|].
    apply Hk in Hx as [Hx Hn]. split; [done|]. intros Hi. apply Hn. by right.
Qed.

Lemma keep_first_ids_id uuids seen l :
  (forall r, r ∈ l -> stored_form r /\ ar_review_id r ∉ seen) -> NoDup (ar_review_id <$> l) ->
  keep_first_ids uuids seen l = l.
Proof.
  revert uuids seen. induction l as [|r l IH]; intros uuids seen Hl Hnd; [done|]. cbn [keep_first_ids].
  destruct (Hl r) as [Hr Hs]; [left|]. rewrite Hr. apply str_in_false in Hs. rewrite Hs.
  rewrite fmap_cons in Hnd. apply NoDup_cons in Hnd as [Hn Hnd]. f_equal. apply IH; [|done].
  intros x Hx. destruct (Hl x) as [Hx' Hs']; [by right|]. split; [done|].
  intros Hi. apply elem_of_cons in Hi as [Hi|Hi]; [|done]. apply Hn. rewrite <- Hi. by apply list_elem_of_fmap_2.
Qed.

#[export] Instance total_cmp_updated : TotalCmp latest_updated.
Proof. unfold latest_updated. total_cmp. Qed.

Lemma sorted_take {A} (R : A -> A -> Prop) n (l : list A) : StronglySorted R l -> StronglySorted R (take n l).
Proof.
  intros Hl. revert n. induction Hl as [|x l Hl IH Hx]; intros [|n]; cbn; [constructor..|].
  constructor; [done|]. by apply Forall_take.
Qed.

(** The stored reviews: their identifiers differ, they are at most a hundred,
    the latest update first, each in the form sanitizing gives it, and sanitizing
    the list again changes nothing. *)
Theorem sanitized_reviews_stable uuids uuids' l :
  (forall n, plain_id (uuids n)) ->
  let out := sanitize_automation_reviews uuids l in
  NoDup (ar_review_id <$> out) /\ (length out <= 100)%nat /\ StronglySorted (cmp_le latest_updated) out
  /\ (forall r, r ∈ out -> stored_form r) /\ sanitize_automation_reviews uuids' out = out.
Proof.
  intros Hu out. destruct (kept_ids uuids [] l Hu) as [Hnd Hk].
  assert (NoDup (ar_review_id <$> out)) as Hnd'.
  { unfold out, sanitize_automation_reviews. rewrite fmap_take. eapply sublist_NoDup; [|apply sublist_take].
    by rewrite (fmap_Permutation ar_review_id _ _ (sort_by_perm latest_updated _)). }
  assert (forall r, r ∈ out -> stored_form r) as Hf.
  { intros r Hr. unfold out, sanitize_automation_reviews in Hr.
    eapply elem_of_sublist in Hr; [|apply sublist_take]. apply elem_of_sort_by in Hr. by apply Hk. }
  assert (length out <= 100)%nat as Hlen by (unfold out, sanitize_automation_reviews; rewrite length_take; lia).
  assert (StronglySorted (cmp_le latest_updated) out) as Hs by (apply sorted_take, sort_by_sorted; apply _).
  split_and!; [done..|].
  unfold sanitize_automation_reviews. rewrite (keep_first_ids_id uuids' [] out); [|..|done].
  - rewrite sort_by_id by done. by apply take_ge.
  - intros r Hr. split; [by apply Hf|]. apply not_elem_of_nil.
Qed.
(** ** A change of status *)

Lemma change_first_inv {A} (p : A -> bool) f l l' :
  change_first p f l = Some l' ->
  exists a y b, l = a ++ y :: b /\ p y = true /\ (forall x, x ∈ a -> p x = false) /\ l' = a ++ f y :: b.
Proof.
  revert l'. induction l as [|x l IH]; intros l'; [done|]. cbn [change_first].
  destruct (p x) eqn:Hx.
  - intros [= <-]. exists [], x, l. split_and!; try done. intros y Hy. by apply not_elem_of_nil in Hy.
  - destruct (change_first p f l) as [l1|]; [|done]. cbn. intros [= <-].
    destruct (IH l1 eq_refl) as (a & y & b & -> & Hy & Ha & ->). exists (x :: a), y, b. split_and!; try done.
    intros z Hz. apply elem_of_cons in Hz as [->|Hz]; auto.
Qed.

Lemma kept_from uuids seen l r :
  r ∈ keep_first_ids uuids seen l -> exists r0 uuid, r0 ∈ l /\ sanitize_automation_review uuid r0 = Ok r.
Proof.
  revert uuids seen. induction l as [|x l IH]; intros uuids seen; cbn [keep_first_ids].
  { intros Hr. by apply not_elem_of_nil in Hr. }
  assert (forall us sn, r ∈ keep_first_ids us sn l ->
            exists r0 uuid, r0 ∈ x :: l /\ sanitize_automation_review uuid r0 = Ok r) as Hrest.
  { intros us sn Hr. destruct (IH _ _ Hr) as (r0 & u & Hin & Hu). exists r0, u. split; [by right|done]. }
  destruct (sanitize_automation_review (uuids 0) x) as [x'|] eqn:Hs; [|by apply Hrest].
  destruct (str_in _ seen); [by apply Hrest|]. intros Hr. apply elem_of_cons in Hr as [->|Hr]; [|by eapply Hrest].
  exists x, (uuids 0). split; [left|done].
Qed.

Lemma sanitized_status uuid r r' :
  sanitize_automation_review uuid r = Ok r' -> sanitize_automation_review_status (ar_status r) = Ok (ar_status r').
Proof.
  unfold sanitize_automation_review. destruct (is_empty _); [done|].
  destruct (sanitize_automation_review_status _); [|done]. destruct (automation_review_has_sensitive_payload _); [done|].
  by intros [= <-].
Qed.

(** A change of status takes effect on everything stored: after it succeeds on
    a stored list, every review kept under the identifier has the new status, so
    one that is paused is nowhere active. *)
Theorem status_change_holds now uuids review_id status s l l' r :
  NoDup (ar_review_id <$> l) -> (forall x, x ∈ l -> stored_form x) ->
  sanitize_automation_review_status status = Ok s ->
  set_automation_review_status now uuids review_id status l = Ok l' ->
  r ∈ l' -> ar_review_id r = trim review_id -> ar_status r = s.
Proof.
  intros Hnd Hf Hs. unfold set_automation_review_status. destruct (is_empty _); [done|]. rewrite Hs.
  destruct (change_first _ _ _) as [l1|] eqn:Hc; [|done]. intros [= <-] Hr Hid.
  apply change_first_inv in Hc as (a & y & b & -> & Hy & Ha & ->). apply String.eqb_eq in Hy.
  unfold sanitize_automation_reviews in Hr.
  eapply elem_of_sublist in Hr; [|apply sublist_take]. apply elem_of_sort_by, kept_from in Hr as (r0 & u & Hin & Hu).
  assert (stored_form r0 -> r0 = r) as Hsame by (intros Hst; specialize (Hst u); congruence).
  apply elem_of_app in Hin as [Hin|Hin]; [|apply elem_of_cons in Hin as [->|Hin]].
  - specialize (Ha _ Hin). rewrite <- (Hsame (Hf _ ltac:(apply elem_of_app; by left))) in Hid.
    rewrite Hid, String.eqb_refl in Ha. done.
  - apply sanitized_status in Hu. cbn [ar_status set_times set_review_status] in Hu.
    apply review_status_fixed in Hs as [_ Hs]. congruence.
  - rewrite <- (Hsame (Hf _ ltac:(apply elem_of_app; right; by right))) in Hid.
    rewrite fmap_app, fmap_cons in Hnd. apply NoDup_app in Hnd as (_ & _ & Hnd).
    apply NoDup_cons in Hnd as [Hn _]. destruct Hn. rewrite Hy, <- Hid. by apply list_elem_of_fmap_2.
Qed.
End reviews.

(** * Run summaries *)

#[export] Instance total_cmp_latest : TotalCmp latest_first.
Proof. unfold latest_first. total_cmp. Qed.

(** A rule keeps its fifty latest run summaries: never more, and a summary
    made later than all before it is the last one, which the console shows. *)
Theorem run_summary_kept r summary :
  (forall x, x ∈ ar_run_summaries r -> option_compare String.compare (created_key x) (created_key summary) = Lt) ->
  let l := ar_run_summaries (append_home_guardian_run_summary r summary) in
  (length l <= 50)%nat /\ last l = Some summary.
Proof.
  intros Hlt l. subst l. cbn [append_home_guardian_run_summary set_run_summaries ar_run_summaries].
  unfold latest_home_guardian_run_summaries. set (l := ar_run_summaries r ++ [summary]).
  split; [rewrite length_reverse, length_take; lia|].
  pose proof (sort_by_sorted latest_first l) as Hs. pose proof (sort_by_perm latest_first l) as Hp.
  destruct (sort_by latest_first l) as [|x t] eqn:He.
  { apply Permutation_nil_l in Hp. subst l. by destruct (ar_run_summaries r). }
  assert (x = summary) as ->.
  { assert (x ∈ l) as Hx by (rewrite <- Hp; left). unfold l in Hx.
    apply elem_of_app in Hx as [Hx|Hx]; [|by apply list_elem_of_singleton in Hx].
    assert (summary ∈ x :: t) as Hin by (rewrite Hp; unfold l; set_solver).
    apply elem_of_cons in Hin as [->|Hin]; [done|].
    inversion_clear Hs as [|?? _ Hall]. rewrite Forall_forall in Hall. specialize (Hall _ Hin).
    destruct Hall. unfold latest_first. rewrite (cmp_flip (cmp:=option_compare String.compare)), Hlt by done. done. }
  rewrite firstn_cons, reverse_cons. apply last_snoc.
Qed.

(** * Counters *)

Definition counters_ordered (m : list (string * Z)) : Prop :=
  StronglySorted (fun x y => String.compare x.1 y.1 = Lt) m.

Lemma counters_below k (m : list (string * Z)) : Forall (fun y => String.compare k y.1 = Lt) m -> entry k m = None.
Proof.
  intros Hm. apply entry_none. intros Hk. apply list_elem_of_fmap in Hk as (y & -> & Hy).
  rewrite Forall_forall in Hm. specialize (Hm _ Hy). rewrite cmp_refl in Hm; [done|apply _].
Qed.

Lemma count_status_keys k m x : x ∈ (count_status k m).*1 <-> x = k \/ x ∈ m.*1.
Proof.
  induction m as [|[k0 n0] m IH]; cbn [count_status]; [set_solver|].
  destruct (String.compare k k0) eqn:Hc; cbn; [|set_solver|].
  - apply String.compare_eq_iff in Hc as ->. set_solver.
  - rewrite !elem_of_cons, IH. naive_solver.
Qed.

Lemma count_status_ordered k m : counters_ordered m -> counters_ordered (count_status k m).
Proof.
  induction 1 as [|[k0 n0] m Hm IH Hall]; cbn [count_status]; [repeat constructor|].
  destruct (String.compare k k0) eqn:Hc.
  - by constructor.
  - constructor; [by constructor|]. constructor; [done|]. eapply Forall_impl; [exact Hall|].
    intros y Hy. by eapply string_compare_lt_trans.
  - constructor; [exact IH|]. apply Forall_forall. intros y Hy.
    apply (list_elem_of_fmap_2 fst), count_status_keys in Hy as [->|Hy].
    + cbn [fst]. by rewrite (cmp_flip (cmp:=String.compare)), Hc.
    + apply list_elem_of_fmap in Hy as (z & -> & Hz). rewrite Forall_forall in Hall. by apply Hall.
Qed.

Lemma entry_count_status k k' m :
  counters_ordered m ->
  entry k' (count_status k m) = if (k =? k')%string then Some (default 0 (entry k' m) + 1)%Z else entry k' m.
Proof.
  induction 1 as [|[k0 n0] m Hm IH Hall]; cbn [count_status]; [by cbn; destruct (k =? k')|].
  destruct (String.compare k k0) eqn:Hc.
  - apply String.compare_eq_iff in Hc as ->. cbn [entry].
    destruct (String.eqb_spec k0 k') as [->|Hne]; [|by destruct (entry k' m)].
    by rewrite (counters_below k' m Hall).
  - cbn [entry]. destruct (String.eqb_spec k k') as [->|Hne]; [|by destruct (entry k' m); [|destruct (k0 =? k')]].
    rewrite (counters_below k' m).
    + destruct (String.eqb_spec k0 k') as [->|]; [|done]. rewrite cmp_refl in Hc; [done|apply _].
    + eapply Forall_impl; [exact Hall|]. intros y Hy. by eapply string_compare_lt_trans.
  - cbn [entry]. rewrite IH. destruct (String.eqb_spec k k') as [->|Hne]; [|done].
    destruct (String.eqb_spec k0 k') as [->|]; [|by destruct (entry k' m)].
    rewrite cmp_refl in Hc; [done|apply _].
Qed.

Lemma counted keys m k :
  counters_ordered m ->
  entry k (foldl (fun m k => count_status k m) m keys)
  = match count_if (String.eqb k) keys with
    | O => entry k m
    | n => Some (default 0 (entry k m) + Z.of_nat n)%Z
    end.
Proof.
  revert m. induction keys as [|x keys IH]; intros m Hm; [done|]. cbn [foldl].
  rewrite IH, entry_count_status, count_if_cons by (try apply count_status_ordered; done).
  rewrite (String.eqb_sym x k). destruct (k =? x); [|done].
  destruct (count_if _ keys); cbn [from_option Nat.add]; unfold id; f_equal; lia.
Qed.

Lemma entry_num k (m : list (string * Z)) : entry k (prod_map id JNum <$> m) = JNum <$> entry k m.
Proof.
  induction m as [|[k0 n] m IH]; [done|]. rewrite fmap_cons. cbn [entry prod_map]. rewrite IH.
  destruct (entry k m); [done|]. unfold id. cbn. by destruct (k0 =? k).
Qed.

(** The counters of an evaluation: at each key stands the number of results,
    and of their actions, with that status, and a status that does not occur has no
    key. *)
Theorem result_counters_count results k :
  jv_get (home_guardian_result_counters results) k
  = match count_if (String.eqb k) (results ≫= counted_statuses) with
    | O => None
    | n => Some (JNum (Z.of_nat n))
    end.
Proof.
  unfold home_guardian_result_counters. cbn [jv_get]. rewrite entry_num, counted by constructor.
  by destruct (count_if _ _).
Qed.
