(* ===== verification/GuardianSample.v ===== *)
(** A rule of the home guardian that switches a light when a person is seen in the
    hall: the theorems on the home guardian at concrete inputs, and what happens to
    an action that fails. *)
From Stdlib Require Import Sorting.Sorted.
From S2P Require Import Prelude RustString Json ServiceAuth Notifications VisionEvents.
From S2P Require Import Guardian GuardianRuntime GuardianEffects GuardianOnce GuardianReviews.
Local Open Scope string_scope.
Local Open Scope list_scope.

#[local] Instance sample_lower : UnicodeLower := ascii_unicode_lower.
#[local] Instance sample_json_text : JsonText := {| json_to_string _ := Ok "{}" |}.
#[local] Instance sample_review_text : ReviewText := {| review_to_string r := Ok (ar_original_prompt r) |}.

(** A world that records what reaches it; [works] says whether services answer. *)
Record sample_world := { sent : list string; works : bool }.

#[local] Instance sample_vision_text : VisionText := {| event_to_string _ := Ok "{}" |}.
#[local] Instance sample_sha256 : Sha256 :=
  {| sha256 _ := repeat 7%Z 32; sha256_length _ := eq_refl |}.
Definition sample_host : Host := {| env_var _ := None; read_to_string _ := Err "none" |}.

#[local] Instance sample_gateway : NotificationGateway sample_world := {|
  build_client _ := Ok tt;
  post endpoint token request w :=
    ({| sent := sent w ++ [endpoint]; works := works w |}, Ok (200%Z, Ok "{}"));
  record_from_str _ := Err "no record";
  envelope_from_str _ := Err "no envelope"
|}.

#[local] Instance sample_guardian_world : GuardianWorld sample_world := {|
  client_from_harborlink_env _ := Ok tt;
  call_service domain service entity w :=
    ({| sent := sent w ++ [domain +:+ "." +:+ service +:+ " " +:+ entity]; works := works w |},
     if works w then Ok tt else Err "unreachable");
  redact_admin_string s := s
|}.

Definition sample_action : jv :=
  json_object [("kind", JStr "ha_service_action"); ("domain", JStr "light"); ("service", JStr "turn_on");
               ("entity_id", JStr "light.hall")].

Definition sample_rule (status : string) : AutomationRuleReview :=
  {| ar_review_id := "review-1"; ar_workspace_id := "home-1"; ar_source := "home_guardian";
     ar_source_channel := None; ar_source_conversation_id := None;
     ar_original_prompt := "light the hall when someone comes"; ar_status := status;
     ar_trigger_definition := Some (json_object [("camera_id", JStr "hall"); ("labels", JArr [JStr "person"])]);
     ar_condition_definition := None; ar_action_plan := Some (json_object [("actions", JArr [sample_action])]);
     ar_device_refs := []; ar_risk_level := None; ar_requires_approval := false; ar_created_at := Some "100";
     ar_updated_at := Some "100"; ar_expires_at := None; ar_rule_id := Some "rule-1"; ar_run_summaries := [];
     ar_metadata := None |}.

Definition sample_event (event_id : string) : StoredLocalVisionEvent :=
  {| se_received_at := "1000";
     se_event :=
       {| le_event_id := event_id; le_camera_id := "hall"; le_event_type := "person_detected";
          le_confidence := S754_zero false; le_labels := ["Person"]; le_summary := ""; 
          le_snapshot_artifact := {| sa_artifact_id := None; sa_path := None; sa_mime_type := None;
                                     sa_byte_size := None; sa_sha256 := None; sa_source := None |};
          le_started_at := "1000"; le_analyzer := "local"; le_latency_ms := 5; le_metrics := JNull;
          le_vlm := None |};
     se_audit_record := JNull; se_ha_mqtt_payload := JNull |}.

Definition sample_admin (status : string) : AdminView :=
  {| av_reviews := [sample_rule status];
     av_home_assistant := {| ha_enabled := true; ha_exposed_domains := ["light"]; ha_last_status := "ok";
                             ha_last_error := None |};
     av_targets := [] |}.

Definition sample_state : GuardianState :=
  {| g_admin := sample_admin "active"; guardian_auto_eval_cooldowns := ∅; guardian_cooldowns := ∅;
     guardian_action_runs := ∅;
     guardian_rule_cache := {| active_reviews := []; loaded_at_epoch := 0; file_bytes := 0;
                               modified_epoch_ms := None; refresh_error := None |};
     guardian_queue := {| channel := []; connected := true; queued_total := 0; dropped_total := 0;
                          processed_total := 0; failed_total := 0; coalesced_total := 0;
                          disconnected_total := 0 |};
     activity_log := []; last_guardian_rule_evaluation := None |}.

Definition sample_stamp (now : Z) : Stamp := {| stamp_uuid := "u"; stamp_now := now |}.
Definition sample_action_env : ActionEnv := {| ae_load_error := None; ae_uuid := "u" |}.
Definition sample_rule_env (now : Z) : RuleEnv :=
  {| re_stamp := sample_stamp now; re_epoch := now; re_action _ := sample_action_env;
     re_save := {| save_fault := None; save_now := now; save_uuid := "u"; save_uuids _ := "u" |};
     re_log := {| log_reads := true; log_remains := None |} |}.
Definition sample_env (now : Z) (fingerprint refresh_fingerprint : Z * option Z) : EvalEnv :=
  {| ee_load_error := None; ee_fingerprint := fingerprint; ee_refresh_epoch := now;
     ee_refresh_fingerprint := refresh_fingerprint; ee_rule _ := sample_rule_env now;
     ee_stamp := sample_stamp now |}.

Definition quiet : sample_world := {| sent := []; works := true |}.
Definition broken : sample_world := {| sent := []; works := false |}.

Definition sample_plan (event_id : string) : HomeGuardianActionExecutionPlan :=
  home_guardian_action_execution_plan (sample_rule "active") (sample_event event_id) sample_action.

Definition sample_round (automatic : bool) (event_id : string) (now : Z) (g : GuardianState) (w : sample_world) :=
  run_action sample_host automatic (sample_rule "active") (sample_event event_id) now sample_action_env (sample_plan event_id)
    (g, w, [], 0).

Definition sample_evaluation (only : option string) (g : GuardianState) (w : sample_world) :=
  evaluate_home_guardian_rules_for_event sample_host (sample_event "e1") only true (sample_env 1000 (10%Z, None) (10%Z, None)) g w.

(** The event switches the light. *)
Example sample_evaluation_acts :
  sent (sample_evaluation None sample_state quiet).1.2 = ["light.turn_on light.hall"].
Proof. vm_compute. reflexivity. Qed.

Lemma evaluation_effects_permitted_witness :
  rtc (permitted_effect sample_host (fun action => true = true /\ rule_asks (known_rules sample_state) (sample_event "e1") action)
         (av_home_assistant (sample_admin "active")) [] (sample_event "e1"))
    quiet (sample_evaluation None sample_state quiet).1.2.
Proof.
  apply (evaluation_effects_permitted sample_host (sample_event "e1") None true (sample_env 1000 (10%Z, None) (10%Z, None))
           sample_state quiet (sample_evaluation None sample_state quiet).1.1
           (sample_evaluation None sample_state quiet).1.2 (sample_evaluation None sample_state quiet).2).
  unfold sample_evaluation. by destruct (evaluate_home_guardian_rules_for_event _ _ _ _ _ _ _) as [[? ?] ?].
Defined.

(** ** Threads *)

Definition sample_service (w : sample_world) : Service :=
  {| sv_state := sample_state; sv_world := w; sv_rounds := ∅; sv_attempts := [] |}.

(** The action for an event, in an automatic evaluation. *)
Definition sample_begin (event_id : string) (now : Z) : Move :=
  Begin {| rd_automatic := true; rd_review := sample_rule "active"; rd_event := sample_event event_id; rd_now := now;
           rd_env := sample_action_env; rd_plan := sample_plan event_id |}.
Definition sample_key : string := px_idempotency_key (sample_plan "e1").

(** Two threads look whether the action was run, then the first executes and marks it; *)
Definition first_moves : list (nat * Move) :=
  [(1, sample_begin "e1" 1000); (2, sample_begin "e1" 1000); (1, Advance); (2, Advance); (1, Advance); (2, Advance);
   (1, Advance); (1, Advance); (1, Advance)].
Definition after_first : Service := default (sample_service quiet) (performs sample_host first_moves (sample_service quiet)).

(** then the second does; and the event comes again a day later. *)
Definition last_moves : list (nat * Move) :=
  [(2, Advance); (2, Advance); (2, Advance); (3, sample_begin "e1" 90000); (3, Advance); (3, Advance)].
Definition after_last : Service := default (sample_service quiet) (performs sample_host last_moves after_first).

Lemma first_steps : rtc (guardian_step sample_host 1000 90000) (sample_service quiet) after_first.
Proof. apply (performs_steps sample_host 1000 90000 first_moves); vm_compute; reflexivity. Qed.
Lemma last_steps : rtc (guardian_step sample_host 1000 90000) after_first after_last.
Proof. apply (performs_steps sample_host 1000 90000 last_moves); vm_compute; reflexivity. Qed.
Lemma first_done : (1, sample_key) ∈ sv_attempts after_first /\ sv_rounds after_first !! 1 = None.
Proof. split; [apply list_elem_of_In; by left|reflexivity]. Qed.

Lemma action_attempted_once_witness :
  NoDup (sv_attempts after_last)
  /\ (forall i, (i, sample_key) ∈ sv_attempts after_last -> (i, sample_key) ∈ sv_attempts after_first
        \/ exists r, sv_rounds after_first !! i = Some (Unseen r) /\ rd_key r = sample_key).
Proof.
  assert (90000 - 1000 <= HOME_GUARDIAN_IDEMPOTENCY_MEMORY_SECONDS)%Z as Hw
    by (unfold HOME_GUARDIAN_IDEMPOTENCY_MEMORY_SECONDS; lia).
  destruct (action_attempted_once sample_host 1000 90000 (sample_service quiet) after_first after_last
              Hw eq_refl eq_refl first_steps last_steps) as (Hd & Hk & _).
  exact (conj Hd (Hk 1 sample_key (proj1 first_done) (proj2 first_done))).
Defined.

Definition queued_state : GuardianState := (enqueue_home_guardian_evaluation (sample_event "e1") 1000 sample_state).1.

Definition queued_service : Service :=
  {| sv_state := queued_state; sv_world := quiet; sv_rounds := ∅; sv_attempts := [] |}.

Lemma events_coalesced_witness :
  (enqueue_home_guardian_evaluation (sample_event "e2") 1030 queued_state).2 = "coalesced".
Proof.
  refine (proj1 (events_coalesced sample_host 1000 1030 (sample_event "e1") 1000 sample_state queued_state "queued" queued_service
                   (sample_event "e2") 1030 queued_service _ _ _ eq_refl _ eq_refl (rtc_refl _ _) eq_refl)).
  - unfold HOME_GUARDIAN_AUTO_EVALUATION_MIN_INTERVAL_SECONDS. lia.
  - lia.
  - lia.
  - done.
Defined.

Lemma guardian_queue_bounded_witness : (length (channel (guardian_queue queued_state)) <= 128)%nat.
Proof.
  refine (guardian_queue_bounded sample_host 1000 1030 (sample_service quiet) queued_service _ _).
  - cbn. unfold HOME_GUARDIAN_EVALUATION_QUEUE_CAPACITY. lia.
  - apply rtc_once. refine (step_enqueue sample_host 1000 1030 (sample_event "e1") 1000 (sample_service quiet) _). lia.
Defined.

Lemma plain_u : forall n : nat, plain_id ((fun _ => "u") n).
Proof. intros n. reflexivity. Qed.

Lemma sanitized_reviews_stable_witness :
  sanitize_automation_reviews (fun _ => "v") (sanitize_automation_reviews (fun _ => "u") [sample_rule " Active "])
  = sanitize_automation_reviews (fun _ => "u") [sample_rule " Active "].
Proof.
  exact (proj2 (proj2 (proj2 (proj2 (sanitized_reviews_stable (fun _ => "u") (fun _ => "v")
                                       [sample_rule " Active "] plain_u))))).
Defined.

Lemma review_ids_distinct : NoDup (ar_review_id <$> [sample_rule "active"]).
Proof. apply NoDup_singleton. Qed.
Lemma sample_stored : forall x, x ∈ [sample_rule "active"] -> stored_form x.
Proof. intros x Hx. apply list_elem_of_singleton in Hx as ->. intros uuid. reflexivity. Qed.
Definition paused_list : list AutomationRuleReview :=
  default [] (res_ok (set_automation_review_status 200 (fun _ => "u") "review-1" "Paused" [sample_rule "active"])).
Definition paused_rule : AutomationRuleReview := default (sample_rule "active") (head paused_list).
Lemma paused_ok : set_automation_review_status 200 (fun _ => "u") "review-1" "Paused" [sample_rule "active"] = Ok paused_list.
Proof. reflexivity. Qed.
Lemma paused_in : paused_rule ∈ paused_list.
Proof. left. Qed.

Lemma status_change_holds_witness : ar_status paused_rule = "paused".
Proof.
  exact (status_change_holds 200 (fun _ => "u") "review-1" "Paused" "paused" [sample_rule "active"] paused_list
           paused_rule review_ids_distinct sample_stored eq_refl paused_ok paused_in eq_refl).
Defined.

Definition summary_at (run_id created_at : string) : jv :=
  json_object [("run_id", JStr run_id); ("created_at", JStr created_at)].
Definition rule_with_run : AutomationRuleReview := set_run_summaries [summary_at "a" "100"] (sample_rule "active").
Lemma earlier_run : forall x, x ∈ ar_run_summaries rule_with_run ->
  option_compare String.compare (created_key x) (created_key (summary_at "b" "200")) = Lt.
Proof. intros x Hx. apply list_elem_of_singleton in Hx as ->. reflexivity. Qed.

Lemma run_summary_kept_witness :
  last (ar_run_summaries (append_home_guardian_run_summary rule_with_run (summary_at "b" "200")))
  = Some (summary_at "b" "200").
Proof. exact (proj2 (run_summary_kept rule_with_run (summary_at "b" "200") earlier_run)). Defined.

(** * What the code does that it does not mean to *)

(** Two runs in the same second: the one before is shown as the last. *)
Example last_run_of_one_second :
  last (ar_run_summaries (append_home_guardian_run_summary rule_with_run (summary_at "b" "100")))
  = Some (summary_at "a" "100").
Proof. reflexivity. Qed.

(** The service did not answer; when it does again, an evaluation by hand reports a
    duplicate and does not call it. *)
Example failed_action_not_retried :
  let y := sample_round false "e1" 1000 sample_state broken in
  let z := sample_round false "e1" 2000 y.1.1.1 quiet in
  (status_of <$> y.1.2, status_of <$> z.1.2, z.1.1.2) = ([Some "failed"], [Some "skipped"], quiet).
Proof. reflexivity. Qed.

(** Both threads found the action not run, and both ran it; the third found it run. *)
Example attempted_twice :
  (sv_attempts after_last, sent (sv_world after_last))
  = ([(1, sample_key); (2, sample_key)], ["light.turn_on light.hall"; "light.turn_on light.hall"]).
Proof. vm_compute. reflexivity. Qed.

(** The rules were read, then the console paused one and wrote the file, then its
    fingerprint was read: the paused rule runs on the next event. *)
Example paused_rule_runs :
  let fresh := (10%Z, Some 7%Z) in
  let g := refresh_home_guardian_rule_cache_best_effort None 900 fresh sample_state in
  sent (evaluate_home_guardian_rules_for_event sample_host (sample_event "e1") None true (sample_env 1000 fresh fresh)
          (set_admin (sample_admin "paused") g) quiet).1.2 = ["light.turn_on light.hall"].
Proof. vm_compute. reflexivity. Qed.

(** White space ends a token, so none contains the one that ends the word bearer:
    the secret after it stays. *)
Example bearer_secret_stays :
  redact_home_guardian_string "Authorization: Bearer s3cr3t" = "[redacted] Bearer s3cr3t".
Proof. reflexivity. Qed.

(** Two kinds that are not alike share the key of a service call with no service. *)
Example unlike_actions_share_key :
  home_guardian_action_key (json_object [("kind", JStr "share_clip")])
  = home_guardian_action_key (json_object [("kind", JStr "chat_summary")]).
Proof. reflexivity. Qed.
