(* ===== verification/CatRecords.v ===== *)
(** Recordings of the cat camera and their validation, the records and what is decided
    on one: [src/runtime/cat_recording_validation.rs], with the aggregation of the
    classifier, [src/runtime/cat_recording_classifier.rs]. Times and counters are
    [Z]; hashing is an interface. The verdict of the classifier counts frames, in
    whatever order they come, and the evidence that is kept is bounded. *)
From Stdlib Require Import Ascii.
From Stdlib Require Import Sorting.Sorted.
From S2P Require Import Prelude RustString ServiceAuth.
Local Open Scope string_scope.
Local Open Scope list_scope.

(** * Constants *)

Definition CAT_RECORDING_VALIDATION_MODE_ENV : string := "HARBOR_K3_CAT_RECORDING_VALIDATION_MODE".
Definition CAT_RECORDING_VALIDATION_POLICY_VERSION : string := "cat-recording-validation-v5".
Definition CAT_RECORDING_MINIMUM_DURATION_MS : Z := 5000.
Definition MAX_TEXT_CHARS : nat := 500.
Definition MAX_BEHAVIOR_TAGS : nat := 16.
Definition MAX_CAT_DETECTION_EVIDENCE : nat := 256.
Definition MAX_CAT_RECORDING_SAMPLE_FRAMES : nat := 10.
Definition MAX_ARTIFACT_DISCARD_ATTEMPTS : Z := 3.
Definition DEFAULT_ARTIFACT_DISCARD_CLAIM_LEASE_MS : Z := 120000.

Definition CAT_RECORDING_CLASSIFIER_MAX_FRAMES : nat := 9.
Definition CAT_RECORDING_CLASSIFIER_MIN_POSITIVE_FRAMES : nat := 3.
Definition CAT_RECORDING_CLASSIFIER_MODEL_NAME : string := "mobilenetv2-cat-binary-v2-int8".

Definition u128_max : Z := 340282366920938463463374607431768211455.
Definition u128_saturating_add (a b : Z) : Z := Z.min (a + b) u128_max.
Definition u32_saturating_add (a b : Z) : Z := Z.min (a + b) u32_max.

(** * Data *)

Inductive CatRecordingValidationMode := ModeOff | ModeShadow | ModeEnforce.

Inductive CatRecordingValidationStatus :=
| PendingValidation | Processing | Accepted | ReviewRequired | Rejected | ValidationFailed.

Inductive CatRecordingPublicationStatus := Unpublished | Published | Withdrawn.

Inductive CatRecordingArtifactDisposition := Retained | DiscardPending | Discarded | DiscardFailed.

#[export] Instance mode_eq_dec : EqDecision CatRecordingValidationMode.
Proof. solve_decision. Defined.
#[export] Instance status_eq_dec : EqDecision CatRecordingValidationStatus.
Proof. solve_decision. Defined.
#[export] Instance publication_eq_dec : EqDecision CatRecordingPublicationStatus.
Proof. solve_decision. Defined.
#[export] Instance disposition_eq_dec : EqDecision CatRecordingArtifactDisposition.
Proof. solve_decision. Defined.

Record CatDetectionEvidence := {
  ce_sequence : Z;
  ce_frame_epoch_ms : Z;
  ce_confidence_ppm : Z
}.

Record CatRecordingFramePrediction := {
  fp_frame_index : Z;
  fp_cat_probability_ppm : Z;
  fp_inference_ms : Z
}.

Record CatRecordingValidationDecision := {
  dc_cat_present : bool;
  dc_cat_frame_indices : list Z;
  dc_behavior_tags : list string;
  dc_summary : string;
  dc_reason_code : string;
  dc_sampled_frame_count : Z;
  dc_sampling_strategy : string;
  dc_validation_rounds : Z;
  dc_sampled_offsets_ms : list Z;
  dc_frame_predictions : list CatRecordingFramePrediction;
  dc_model_endpoint_id : string;
  dc_model_name : string;
  dc_elapsed_ms : Z
}.

Record CatRecordingDiscardTombstone := {
  ts_completed : bool;
  ts_deleted_at_epoch_ms : Z;
  ts_provider : string;
  ts_provider_deleted : bool;
  ts_provider_already_absent : bool
}.

Record CatRecordingValidationRecord := {
  vr_schema_version : string;
  vr_validation_id : string;
  vr_policy_version : string;
  vr_artifact_id : string;
  vr_event_id : string;
  vr_artifact_source : option string;
  vr_camera_id : string;
  vr_mime_type : string;
  vr_byte_size : Z;
  vr_started_at_epoch_ms : Z;
  vr_ended_at_epoch_ms : Z;
  vr_duration_seconds : Z;
  vr_validation_status : CatRecordingValidationStatus;
  vr_publication_status : CatRecordingPublicationStatus;
  vr_attempt_count : Z;
  vr_detection_evidence : list CatDetectionEvidence;
  vr_next_retry_at_epoch_ms : option Z;
  vr_claim_owner : option string;
  vr_claim_token : option string;
  vr_claim_lease_deadline_epoch_ms : option Z;
  vr_created_at_epoch_ms : Z;
  vr_updated_at_epoch_ms : Z;
  vr_decision : option CatRecordingValidationDecision;
  vr_last_error : option string;
  vr_artifact_disposition : CatRecordingArtifactDisposition;
  vr_discard_attempt_count : Z;
  vr_discard_attempt_generation : Z;
  vr_discard_attempt_token : option string;
  vr_discard_attempt_lease_deadline_epoch_ms : option Z;
  vr_discarded_at_epoch_ms : option Z;
  vr_discard_error : option string;
  vr_discard_tombstone : option CatRecordingDiscardTombstone
}.

(** Of [src/connectors/harborlink_media.rs]. *)
Record HarborLinkRecordingArtifact := {
  hl_media_contract_version : string;
  hl_artifact_id : string;
  hl_camera_id : string;
  hl_kind : string;
  hl_mime_type : string;
  hl_byte_size : Z;
  hl_started_at_epoch_ms : Z;
  hl_ended_at_epoch_ms : Z;
  hl_duration_seconds : Z;
  hl_stream_kind : string;
  hl_modified_at_epoch_ms : Z;
  hl_preview_url : string;
  hl_event_id : option string;
  hl_labels : list string;
  hl_source : option string
}.

(** * Assignments *)

(** [validation_status], [publication_status], [attempt_count] and what goes with
    them. *)
Definition set_validation (status : CatRecordingValidationStatus) (publication : CatRecordingPublicationStatus)
    (attempts : Z) (decision : option CatRecordingValidationDecision) (retry_at : option Z)
    (error : option string) (r : CatRecordingValidationRecord) : CatRecordingValidationRecord :=
  {| vr_schema_version := vr_schema_version r; vr_validation_id := vr_validation_id r;
     vr_policy_version := vr_policy_version r; vr_artifact_id := vr_artifact_id r; vr_event_id := vr_event_id r;
     vr_artifact_source := vr_artifact_source r; vr_camera_id := vr_camera_id r; vr_mime_type := vr_mime_type r;
     vr_byte_size := vr_byte_size r; vr_started_at_epoch_ms := vr_started_at_epoch_ms r;
     vr_ended_at_epoch_ms := vr_ended_at_epoch_ms r; vr_duration_seconds := vr_duration_seconds r;
     vr_validation_status := status; vr_publication_status := publication; vr_attempt_count := attempts;
     vr_detection_evidence := vr_detection_evidence r; vr_next_retry_at_epoch_ms := retry_at;
     vr_claim_owner := vr_claim_owner r; vr_claim_token := vr_claim_token r;
     vr_claim_lease_deadline_epoch_ms := vr_claim_lease_deadline_epoch_ms r;
     vr_created_at_epoch_ms := vr_created_at_epoch_ms r; vr_updated_at_epoch_ms := vr_updated_at_epoch_ms r;
     vr_decision := decision; vr_last_error := error; vr_artifact_disposition := vr_artifact_disposition r;
     vr_discard_attempt_count := vr_discard_attempt_count r;
     vr_discard_attempt_generation := vr_discard_attempt_generation r;
     vr_discard_attempt_token := vr_discard_attempt_token r;
     vr_discard_attempt_lease_deadline_epoch_ms := vr_discard_attempt_lease_deadline_epoch_ms r;
     vr_discarded_at_epoch_ms := vr_discarded_at_epoch_ms r; vr_discard_error := vr_discard_error r;
     vr_discard_tombstone := vr_discard_tombstone r |}.

(** [claim_owner], [claim_token] and [claim_lease_deadline_epoch_ms]. *)
Definition set_claim (owner token : option string) (deadline : option Z) (r : CatRecordingValidationRecord)
  : CatRecordingValidationRecord :=
  {| vr_schema_version := vr_schema_version r; vr_validation_id := vr_validation_id r;
     vr_policy_version := vr_policy_version r; vr_artifact_id := vr_artifact_id r; vr_event_id := vr_event_id r;
     vr_artifact_source := vr_artifact_source r; vr_camera_id := vr_camera_id r; vr_mime_type := vr_mime_type r;
     vr_byte_size := vr_byte_size r; vr_started_at_epoch_ms := vr_started_at_epoch_ms r;
     vr_ended_at_epoch_ms := vr_ended_at_epoch_ms r; vr_duration_seconds := vr_duration_seconds r;
     vr_validation_status := vr_validation_status r; vr_publication_status := vr_publication_status r;
     vr_attempt_count := vr_attempt_count r; vr_detection_evidence := vr_detection_evidence r;
     vr_next_retry_at_epoch_ms := vr_next_retry_at_epoch_ms r;
     vr_claim_owner := owner; vr_claim_token := token; vr_claim_lease_deadline_epoch_ms := deadline;
     vr_created_at_epoch_ms := vr_created_at_epoch_ms r; vr_updated_at_epoch_ms := vr_updated_at_epoch_ms r;
     vr_decision := vr_decision r; vr_last_error := vr_last_error r;
     vr_artifact_disposition := vr_artifact_disposition r; vr_discard_attempt_count := vr_discard_attempt_count r;
     vr_discard_attempt_generation := vr_discard_attempt_generation r;
     vr_discard_attempt_token := vr_discard_attempt_token r;
     vr_discard_attempt_lease_deadline_epoch_ms := vr_discard_attempt_lease_deadline_epoch_ms r;
     vr_discarded_at_epoch_ms := vr_discarded_at_epoch_ms r; vr_discard_error := vr_discard_error r;
     vr_discard_tombstone := vr_discard_tombstone r |}.

(** [artifact_disposition] and the fields of an attempt to discard. *)
Definition set_discard (disposition : CatRecordingArtifactDisposition) (count generation : Z)
    (token : option string) (deadline discarded_at : option Z) (error : option string)
    (tombstone : option CatRecordingDiscardTombstone) (r : CatRecordingValidationRecord)
  : CatRecordingValidationRecord :=
  {| vr_schema_version := vr_schema_version r; vr_validation_id := vr_validation_id r;
     vr_policy_version := vr_policy_version r; vr_artifact_id := vr_artifact_id r; vr_event_id := vr_event_id r;
     vr_artifact_source := vr_artifact_source r; vr_camera_id := vr_camera_id r; vr_mime_type := vr_mime_type r;
     vr_byte_size := vr_byte_size r; vr_started_at_epoch_ms := vr_started_at_epoch_ms r;
     vr_ended_at_epoch_ms := vr_ended_at_epoch_ms r; vr_duration_seconds := vr_duration_seconds r;
     vr_validation_status := vr_validation_status r; vr_publication_status := vr_publication_status r;
     vr_attempt_count := vr_attempt_count r; vr_detection_evidence := vr_detection_evidence r;
     vr_next_retry_at_epoch_ms := vr_next_retry_at_epoch_ms r; vr_claim_owner := vr_claim_owner r;
     vr_claim_token := vr_claim_token r; vr_claim_lease_deadline_epoch_ms := vr_claim_lease_deadline_epoch_ms r;
     vr_created_at_epoch_ms := vr_created_at_epoch_ms r; vr_updated_at_epoch_ms := vr_updated_at_epoch_ms r;
     vr_decision := vr_decision r; vr_last_error := vr_last_error r; vr_artifact_disposition := disposition;
     vr_discard_attempt_count := count; vr_discard_attempt_generation := generation;
     vr_discard_attempt_token := token; vr_discard_attempt_lease_deadline_epoch_ms := deadline;
     vr_discarded_at_epoch_ms := discarded_at; vr_discard_error := error; vr_discard_tombstone := tombstone |}.

Definition set_updated_at (now : Z) (r : CatRecordingValidationRecord) : CatRecordingValidationRecord :=
  {| vr_schema_version := vr_schema_version r; vr_validation_id := vr_validation_id r;
     vr_policy_version := vr_policy_version r; vr_artifact_id := vr_artifact_id r; vr_event_id := vr_event_id r;
     vr_artifact_source := vr_artifact_source r; vr_camera_id := vr_camera_id r; vr_mime_type := vr_mime_type r;
     vr_byte_size := vr_byte_size r; vr_started_at_epoch_ms := vr_started_at_epoch_ms r;
     vr_ended_at_epoch_ms := vr_ended_at_epoch_ms r; vr_duration_seconds := vr_duration_seconds r;
     vr_validation_status := vr_validation_status r; vr_publication_status := vr_publication_status r;
     vr_attempt_count := vr_attempt_count r; vr_detection_evidence := vr_detection_evidence r;
     vr_next_retry_at_epoch_ms := vr_next_retry_at_epoch_ms r; vr_claim_owner := vr_claim_owner r;
     vr_claim_token := vr_claim_token r; vr_claim_lease_deadline_epoch_ms := vr_claim_lease_deadline_epoch_ms r;
     vr_created_at_epoch_ms := vr_created_at_epoch_ms r; vr_updated_at_epoch_ms := now;
     vr_decision := vr_decision r; vr_last_error := vr_last_error r;
     vr_artifact_disposition := vr_artifact_disposition r; vr_discard_attempt_count := vr_discard_attempt_count r;
     vr_discard_attempt_generation := vr_discard_attempt_generation r;
     vr_discard_attempt_token := vr_discard_attempt_token r;
     vr_discard_attempt_lease_deadline_epoch_ms := vr_discard_attempt_lease_deadline_epoch_ms r;
     vr_discarded_at_epoch_ms := vr_discarded_at_epoch_ms r; vr_discard_error := vr_discard_error r;
     vr_discard_tombstone := vr_discard_tombstone r |}.

(** * Modes and gates *)

Definition validation_mode_str (m : CatRecordingValidationMode) : string :=
  match m with ModeOff => "off" | ModeShadow => "shadow" | ModeEnforce => "enforce" end.
Definition validates_candidates (m : CatRecordingValidationMode) : bool := negb (bool_decide (m = ModeOff)).
Definition enforces_publication (m : CatRecordingValidationMode) : bool := bool_decide (m = ModeEnforce).

Definition validation_status_str (s : CatRecordingValidationStatus) : string :=
  match s with
  | PendingValidation => "pending_validation" | Processing => "processing" | Accepted => "accepted"
  | ReviewRequired => "review_required" | Rejected => "rejected" | ValidationFailed => "failed"
  end.

Definition validation_mode_from_env (h : Host) : result string CatRecordingValidationMode :=
  let mode := to_ascii_lowercase (trim (default "off" (env_var h CAT_RECORDING_VALIDATION_MODE_ENV))) in
  if mode =? "off" then Ok ModeOff
  else if mode =? "shadow" then Ok ModeShadow
  else if mode =? "enforce" then Ok ModeEnforce
  else Err (CAT_RECORDING_VALIDATION_MODE_ENV +:+ " must be off, shadow, or enforce").

Definition is_published (r : CatRecordingValidationRecord) : bool :=
  bool_decide (vr_validation_status r = Accepted) && bool_decide (vr_publication_status r = Published).

Definition is_physical_discard_eligible (mode : CatRecordingValidationMode) (r : CatRecordingValidationRecord)
  : bool :=
  bool_decide (mode = ModeEnforce)
  && (vr_policy_version r =? CAT_RECORDING_VALIDATION_POLICY_VERSION)
  && starts_with "recordings~" (vr_artifact_id r)
  && starts_with "cat-activity-" (vr_event_id r)
  && bool_decide (vr_artifact_source r = Some "yolo_cat_activity")
  && bool_decide (vr_validation_status r = Rejected)
  && bool_decide (vr_publication_status r = Unpublished)
  && negb (bool_decide (vr_artifact_disposition r = Discarded)).

Definition cat_recording_hard_gate_reason (r : CatRecordingValidationRecord) (measured_duration_ms : Z)
  : option (CatRecordingValidationStatus * string) :=
  if (measured_duration_ms <? CAT_RECORDING_MINIMUM_DURATION_MS)%Z
  then Some (Rejected, "recording_shorter_than_minimum_duration") else
  let media_end_epoch_ms := u128_saturating_add (vr_started_at_epoch_ms r) measured_duration_ms in
  let has_in_window_evidence :=
    list_any (fun e => (vr_started_at_epoch_ms r <=? ce_frame_epoch_ms e)%Z
                       && (ce_frame_epoch_ms e <=? media_end_epoch_ms)%Z) (vr_detection_evidence r) in
  if has_in_window_evidence then None
  else Some (ReviewRequired, "recording_has_no_in_window_yolo_evidence").

(** [deadline.is_some_and(|deadline| deadline > now)] *)
Definition after_now (now : Z) (deadline : option Z) : bool :=
  match deadline with Some deadline => (now <? deadline)%Z | None => false end.

Definition not_empty (o : option string) : bool :=
  match o with Some s => negb (is_empty s) | None => false end.

Definition validate_processing_claim (r : CatRecordingValidationRecord) (claim_token : string) (now : Z)
  : result string unit :=
  if bool_decide (vr_validation_status r = Processing) && negb (is_blank claim_token)
     && bool_decide (vr_claim_token r = Some claim_token) && not_empty (vr_claim_owner r)
     && after_now now (vr_claim_lease_deadline_epoch_ms r)
  then Ok tt else Err "cat recording validation claim is stale, expired, or invalid".

Definition validate_discard_attempt (r : CatRecordingValidationRecord) (discard_attempt_token : string) (now : Z)
  : result string unit :=
  if bool_decide (vr_artifact_disposition r = DiscardPending) && negb (is_blank discard_attempt_token)
     && bool_decide (vr_discard_attempt_token r = Some discard_attempt_token)
     && after_now now (vr_discard_attempt_lease_deadline_epoch_ms r)
  then Ok tt else Err "cat recording discard attempt is stale, expired, or invalid".

Definition clear_processing_claim (r : CatRecordingValidationRecord) : CatRecordingValidationRecord :=
  set_claim None None None r.

(** * Sanitizing *)

(** The text without its control characters, but for newlines: those of ASCII, and
    the two bytes of U+0080 to U+009F. *)
Fixpoint drop_controls (s : string) : string :=
  match s with
  | "" => ""
  | String a r =>
      if (byte a =? 10)%N then String a (drop_controls r)
      else if byte_in 0 31 a || (byte a =? 127)%N then drop_controls r
      else if (byte a =? 194)%N then
        match r with
        | String b r' => if byte_in 128 159 b then drop_controls r' else String a (drop_controls r)
        | "" => String a ""
        end
      else String a (drop_controls r)
  end.

Definition sanitize_text (value : string) : string := trim (chars_take MAX_TEXT_CHARS (drop_controls value)).

Definition sample_frame (index : Z) : bool :=
  (1 <=? index)%Z && (index <=? Z.of_nat MAX_CAT_RECORDING_SAMPLE_FRAMES)%Z.

Definition cap_probability (p : CatRecordingFramePrediction) : CatRecordingFramePrediction :=
  {| fp_frame_index := fp_frame_index p; fp_cat_probability_ppm := Z.min (fp_cat_probability_ppm p) 1000000;
     fp_inference_ms := fp_inference_ms p |}.

Definition by_frame_index (a b : CatRecordingFramePrediction) : comparison :=
  Z.compare (fp_frame_index a) (fp_frame_index b).

Definition sanitize_decision (d : CatRecordingValidationDecision) : CatRecordingValidationDecision :=
  {| dc_cat_present := dc_cat_present d;
     dc_cat_frame_indices := dedup_by id (sort_by Z.compare (List.filter sample_frame (dc_cat_frame_indices d)));
     dc_behavior_tags :=
       take MAX_BEHAVIOR_TAGS
         (List.filter (fun tag => negb (is_empty tag)) (sanitize_text <$> dc_behavior_tags d));
     dc_summary := sanitize_text (dc_summary d); dc_reason_code := sanitize_text (dc_reason_code d);
     dc_sampled_frame_count := Z.min (dc_sampled_frame_count d) (Z.of_nat MAX_CAT_RECORDING_SAMPLE_FRAMES);
     dc_sampling_strategy := sanitize_text (dc_sampling_strategy d);
     dc_validation_rounds := Z.min (dc_validation_rounds d) 2;
     dc_sampled_offsets_ms := take MAX_CAT_RECORDING_SAMPLE_FRAMES (dc_sampled_offsets_ms d);
     dc_frame_predictions :=
       take MAX_CAT_RECORDING_SAMPLE_FRAMES
         (dedup_by fp_frame_index
            (sort_by by_frame_index
               (cap_probability
                  <$> List.filter (fun p => sample_frame (fp_frame_index p)) (dc_frame_predictions d))));
     dc_model_endpoint_id := sanitize_text (dc_model_endpoint_id d);
     dc_model_name := sanitize_text (dc_model_name d); dc_elapsed_ms := dc_elapsed_ms d |}.

(** [retain(|item| seen.insert(item.sequence))] *)
Fixpoint first_of_sequence (seen : list Z) (l : list CatDetectionEvidence) : list CatDetectionEvidence :=
  match l with
  | [] => []
  | e :: l => if bool_decide (ce_sequence e ∈ seen) then first_of_sequence seen l
              else e :: first_of_sequence (ce_sequence e :: seen) l
  end.

Definition by_frame_time (a b : CatDetectionEvidence) : comparison :=
  then_with (Z.compare (ce_frame_epoch_ms a) (ce_frame_epoch_ms b)) (Z.compare (ce_sequence a) (ce_sequence b)).

Definition cap_confidence (e : CatDetectionEvidence) : CatDetectionEvidence :=
  {| ce_sequence := ce_sequence e; ce_frame_epoch_ms := ce_frame_epoch_ms e;
     ce_confidence_ppm := Z.min (ce_confidence_ppm e) 1000000 |}.

Definition sanitize_detection_evidence (evidence : list CatDetectionEvidence) : list CatDetectionEvidence :=
  let evidence := List.filter (fun e => (0 <? ce_sequence e)%Z && (0 <? ce_frame_epoch_ms e)%Z) evidence in
  let evidence := cap_confidence <$> first_of_sequence [] (sort_by by_frame_time evidence) in
  if (MAX_CAT_DETECTION_EVIDENCE <? length evidence)%nat
  then take (MAX_CAT_DETECTION_EVIDENCE - 1) evidence ++ option_list (last evidence)
  else evidence.

Definition stable_validation_id `{!Sha256} (artifact_id : string) : string :=
  let hex := join "" (hex_byte <$> sha256 (CAT_RECORDING_VALIDATION_POLICY_VERSION +:+ ":" +:+ artifact_id)) in
  "catval_" +:+ String.substring 0 24 hex.

(** * The classifier *)

Record CatRecordingAggregation := {
  ag_cat_present : bool;
  ag_cat_frame_indices : list Z;
  ag_reason_code : string;
  ag_frame_predictions : list CatRecordingFramePrediction
}.

Record CatRecordingClassifierOutput := {
  co_schema_version : string;
  co_status : string;
  co_provider : string;
  co_model_name : string;
  co_model_sha256 : string;
  co_threshold_ppm : Z;
  co_sampled_frame_count : Z;
  co_predictions : list CatRecordingFramePrediction;
  co_session_creation_ms : Z;
  co_total_inference_ms : Z;
  co_elapsed_ms : Z
}.

(** [sorted.windows(2)] with equal indices *)
Fixpoint has_duplicate_frame (l : list CatRecordingFramePrediction) : bool :=
  match l with
  | [] => false
  | p :: rest =>
      match rest with
      | q :: _ => (fp_frame_index p =? fp_frame_index q)%Z || has_duplicate_frame rest
      | [] => false
      end
  end.

Definition bad_prediction (p : CatRecordingFramePrediction) : bool :=
  negb ((1 <=? fp_frame_index p)%Z && (fp_frame_index p <=? Z.of_nat CAT_RECORDING_CLASSIFIER_MAX_FRAMES)%Z)
  || (1000000 <? fp_cat_probability_ppm p)%Z.

Definition aggregate_cat_recording_predictions (predictions : list CatRecordingFramePrediction)
    (threshold_ppm : Z) (minimum_positive_frames : nat) : result string CatRecordingAggregation :=
  if (length predictions =? 0)%nat || (CAT_RECORDING_CLASSIFIER_MAX_FRAMES <? length predictions)%nat
  then Err ("classifier requires between 1 and " +:+ show_nat CAT_RECORDING_CLASSIFIER_MAX_FRAMES +:+ " frames")
  else if (1000000 <? threshold_ppm)%Z || (minimum_positive_frames =? 0)%nat
  then Err "classifier aggregation policy is invalid" else
  let sorted := sort_by by_frame_index predictions in
  if has_duplicate_frame sorted then Err "classifier returned a duplicate frame index"
  else if list_any bad_prediction sorted
  then Err ("classifier frame indices must be between 1 and " +:+ show_nat CAT_RECORDING_CLASSIFIER_MAX_FRAMES
            +:+ " and probabilities must be valid") else
  let cat_frame_indices :=
    fp_frame_index <$> List.filter (fun p => (threshold_ppm <=? fp_cat_probability_ppm p)%Z) sorted in
  let cat_present := (minimum_positive_frames <=? length cat_frame_indices)%nat in
  Ok {| ag_cat_present := cat_present; ag_cat_frame_indices := cat_frame_indices;
        ag_reason_code := if cat_present then "cat_visible"
                          else match cat_frame_indices with [] => "no_cat_visible" | _ => "uncertain" end;
        ag_frame_predictions := sorted |}.

(** [parsed] is what [serde_json] makes of the classifier's output, with the two fields
    of the configuration it is held against. *)
Definition parse_classifier_output (parsed : result string CatRecordingClassifierOutput)
    (expected_model_sha256 : string) (threshold_ppm : Z) (expected_frame_indices : list Z)
  : result string CatRecordingClassifierOutput :=
  match parsed with
  | Err error => Err ("cat_classifier_invalid_json: " +:+ error)
  | Ok output =>
      if negb (co_schema_version output =? "1.0") || negb (co_status output =? "ok")
      then Err "cat_classifier_invalid_status"
      else if negb (co_provider output =? "SpaceMITExecutionProvider")
      then Err "cat_classifier_spacemit_provider_not_active"
      else if negb (co_model_name output =? CAT_RECORDING_CLASSIFIER_MODEL_NAME)
              || negb (co_model_sha256 output =? expected_model_sha256)
      then Err "cat_classifier_model_contract_mismatch"
      else if negb (co_threshold_ppm output =? threshold_ppm)%Z
      then Err "cat_classifier_threshold_mismatch"
      else if negb (bool_decide ((fp_frame_index <$> co_predictions output) = expected_frame_indices))
              || negb (co_sampled_frame_count output =? Z.of_nat (length expected_frame_indices))%Z
      then Err "cat_classifier_frame_contract_mismatch"
      else
        match aggregate_cat_recording_predictions (co_predictions output) threshold_ppm
                CAT_RECORDING_CLASSIFIER_MIN_POSITIVE_FRAMES with
        | Err error => Err error
        | Ok _ => Ok output
        end
  end.

(** * What validation decides *)

#[local] Instance total_frame_index : TotalCmp by_frame_index.
Proof. unfold by_frame_index. total_cmp. Qed.
#[local] Instance total_frame_time : TotalCmp by_frame_time.
Proof. unfold by_frame_time. total_cmp. Qed.

(** * Frames *)

Lemma frame_le p q : cmp_le by_frame_index p q <-> (fp_frame_index p <= fp_frame_index q)%Z.
Proof. unfold cmp_le, by_frame_index. rewrite Z.compare_le_iff. done. Qed.

Lemma sorted_distinct l :
  StronglySorted (cmp_le by_frame_index) l ->
  (has_duplicate_frame l = false <-> NoDup (fp_frame_index <$> l)).
Proof.
  induction 1 as [|p l Hl IH Hp]; [split; [constructor|done]|]. rewrite fmap_cons, NoDup_cons.
  destruct l as [|q l].
  - cbn. split; [|done]. intros _. split; [by intros ?%not_elem_of_nil|constructor].
  - cbn [has_duplicate_frame]. rewrite orb_false_iff. change (has_duplicate_frame (q :: l) = false) with (has_duplicate_frame (q :: l) = false) in *.
    rewrite <- IH. rewrite Z.eqb_neq. split; intros [H1 H2]; (split; [|done]).
    + intros (x & Hx & Hin)%list_elem_of_fmap. apply Forall_cons in Hp as [Hpq Hp].
      apply StronglySorted_inv in Hl as [_ Hq]. rewrite Forall_forall in Hq.
      apply elem_of_cons in Hin as [->|Hin]; [done|]. specialize (Hq x Hin). rewrite frame_le in *. lia.
    + intros E. apply H1. rewrite E. left.
Qed.

Lemma duplicate_perm l l' :
  l ≡ₚ l' -> has_duplicate_frame (sort_by by_frame_index l) = has_duplicate_frame (sort_by by_frame_index l').
Proof.
  intros Hp. assert (forall b c, (b = false <-> c = false) -> b = c) as Hb by (intros [] [] [H1 H2]; try done; (symmetry; by apply H1) || by apply H2).
  apply Hb. rewrite !sorted_distinct by apply (sort_by_sorted by_frame_index). by rewrite !sort_by_perm, Hp.
Qed.

Lemma distinct_sort_eq l l' :
  l ≡ₚ l' -> has_duplicate_frame (sort_by by_frame_index l) = false ->
  sort_by by_frame_index l = sort_by by_frame_index l'.
Proof.
  intros Hp Hd. apply (sort_by_perm_eq by_frame_index); [|done]. rewrite sorted_distinct, sort_by_perm in Hd by apply (sort_by_sorted by_frame_index).
  intros x y Hx Hy E. apply Z.compare_eq in E. apply list_elem_of_lookup in Hx as [i Hi], Hy as [j Hj].
  assert (i = j) as ->; [|congruence]. eapply (NoDup_lookup _ _ _ (fp_frame_index x) Hd); rewrite list_lookup_fmap; [by rewrite Hi|by rewrite Hj, E].
Qed.

Lemma strictly_sorted p l :
  StronglySorted (cmp_le by_frame_index) l -> NoDup (fp_frame_index <$> l) ->
  StronglySorted Z.lt (fp_frame_index <$> List.filter p l).
Proof.
  induction 1 as [|x l Hl IH Hx]; [constructor|]. rewrite fmap_cons, NoDup_cons. intros [Hn Hd]. cbn [List.filter].
  destruct (p x); [|by apply IH]. rewrite fmap_cons. constructor; [by apply IH|]. apply Forall_forall.
  intros n (y & -> & [Hy _]%elem_of_list_filter)%list_elem_of_fmap. rewrite Forall_forall in Hx.
  specialize (Hx y Hy). rewrite frame_le in Hx. assert (fp_frame_index x <> fp_frame_index y); [|lia].
  intros E. apply Hn. rewrite E. by apply list_elem_of_fmap_2.
Qed.

Definition positive (threshold_ppm : Z) (p : CatRecordingFramePrediction) : bool := (threshold_ppm <=? fp_cat_probability_ppm p)%Z.

Lemma aggregation_order predictions predictions' threshold_ppm minimum :
  predictions ≡ₚ predictions' ->
  aggregate_cat_recording_predictions predictions' threshold_ppm minimum
  = aggregate_cat_recording_predictions predictions threshold_ppm minimum.
Proof.
  intros Hp. unfold aggregate_cat_recording_predictions. rewrite (Permutation_length Hp).
  destruct (_ || _); [done|]. destruct (_ || _); [done|]. rewrite (duplicate_perm _ _ Hp).
  destruct (has_duplicate_frame (sort_by by_frame_index predictions')) eqn:Hd; [done|].
  rewrite <- (duplicate_perm _ _ Hp) in Hd. by rewrite (distinct_sort_eq _ _ Hp Hd).
Qed.

Lemma aggregation_spec predictions threshold_ppm minimum a :
  aggregate_cat_recording_predictions predictions threshold_ppm minimum = Ok a ->
  ag_cat_present a = (minimum <=? length (List.filter (positive threshold_ppm) predictions))%nat
  /\ StronglySorted Z.lt (ag_cat_frame_indices a)
  /\ (forall n, n ∈ ag_cat_frame_indices a <->
        exists p, p ∈ predictions /\ fp_frame_index p = n /\ (threshold_ppm <= fp_cat_probability_ppm p)%Z)
  /\ Forall (fun n => 1 <= n <= Z.of_nat CAT_RECORDING_CLASSIFIER_MAX_FRAMES)%Z (ag_cat_frame_indices a)
  /\ ag_reason_code a = (if ag_cat_present a then "cat_visible"
                         else match ag_cat_frame_indices a with [] => "no_cat_visible" | _ => "uncertain" end).
Proof.
  unfold aggregate_cat_recording_predictions. destruct (_ || _); [done|]. destruct (_ || _); [done|].
  destruct (has_duplicate_frame _) eqn:Hd; [done|]. destruct (list_any _ _) eqn:Hbad; [done|]. intros [= <-]. cbn.
  change (fun p => (threshold_ppm <=? fp_cat_probability_ppm p)%Z) with (positive threshold_ppm).
  pose proof (sort_by_perm by_frame_index predictions) as Hp. pose proof (sort_by_sorted by_frame_index predictions) as Hs.
  split; [|split; [|split; [|split; [|done]]]].
  - by rewrite length_fmap, Hp.
  - apply strictly_sorted; [done|]. by apply sorted_distinct.
  - intros n. rewrite list_elem_of_fmap. split.
    + intros (p & -> & [Hin Hpos%Z.leb_le]%elem_of_list_filter). exists p. rewrite Hp in Hin. by repeat split.
    + intros (p & Hin & <- & Hpos%Z.leb_le). exists p. rewrite elem_of_list_filter, Hp. by repeat split.
  - apply Forall_fmap, Forall_forall. intros p [Hin _]%elem_of_list_filter. rewrite list_any_false in Hbad.
    specialize (Hbad p Hin). unfold bad_prediction in Hbad. cbn. bool_facts. lia.
Qed.

(** The verdict of the classifier: an aggregation that succeeds says that there is
    a cat exactly when enough frames reach the threshold; it lists those frames once
    each, in order; and the order in which the predictions came does not matter, not
    even for the error when there is one. *)
Theorem classifier_verdict predictions threshold_ppm minimum :
  (forall predictions', predictions ≡ₚ predictions' ->
     aggregate_cat_recording_predictions predictions' threshold_ppm minimum
     = aggregate_cat_recording_predictions predictions threshold_ppm minimum)
  /\ forall a, aggregate_cat_recording_predictions predictions threshold_ppm minimum = Ok a ->
       ag_cat_present a = (minimum <=? length (List.filter (positive threshold_ppm) predictions))%nat
       /\ StronglySorted Z.lt (ag_cat_frame_indices a)
       /\ (forall n, n ∈ ag_cat_frame_indices a <->
             exists p, p ∈ predictions /\ fp_frame_index p = n /\ (threshold_ppm <= fp_cat_probability_ppm p)%Z)
       /\ Forall (fun n => 1 <= n <= Z.of_nat CAT_RECORDING_CLASSIFIER_MAX_FRAMES)%Z (ag_cat_frame_indices a)
       /\ ag_reason_code a = (if ag_cat_present a then "cat_visible"
                              else match ag_cat_frame_indices a with [] => "no_cat_visible" | _ => "uncertain" end).
Proof. split; [intros predictions'; apply aggregation_order|intros a; apply aggregation_spec]. Qed.

(** * Evidence *)

Lemma first_of_sequence_spec seen l :
  (forall e, e ∈ first_of_sequence seen l -> e ∈ l /\ ce_sequence e ∉ seen)
  /\ NoDup (ce_sequence <$> first_of_sequence seen l)
  /\ (StronglySorted (cmp_le by_frame_time) l -> StronglySorted (cmp_le by_frame_time) (first_of_sequence seen l)).
Proof.
  revert seen. induction l as [|e l IH]; intros seen; cbn [first_of_sequence].
  { split; [by intros ? ?%not_elem_of_nil|]. split; [constructor|done]. }
  destruct (bool_decide_reflect (ce_sequence e ∈ seen)) as [Hs|Hs].
  - destruct (IH seen) as (H1 & H2 & H3). split; [intros x Hx; destruct (H1 x Hx); split; [by right|done]|].
    split; [done|]. intros Hl. apply StronglySorted_inv in Hl as [Hl _]. by apply H3.
  - destruct (IH (ce_sequence e :: seen)) as (H1 & H2 & H3). split; [|split].
    + intros x [->|Hx]%elem_of_cons; [split; [left|done]|]. destruct (H1 x Hx) as [Hin Hn]. split; [by right|].
      intros Hx'. apply Hn. by right.
    + rewrite fmap_cons, NoDup_cons. split; [|done]. intros (x & E & Hx)%list_elem_of_fmap.
      destruct (H1 x Hx) as [_ Hn]. apply Hn. rewrite E. left.
    + intros Hl. apply StronglySorted_inv in Hl as [Hl He]. constructor; [by apply H3|]. apply Forall_forall.
      intros x Hx. rewrite Forall_forall in He. apply He. by apply H1.
Qed.

(** The evidence kept of a recording is bounded, of distinct positive sequence
    numbers, at positive times in order, with confidences up to a million. *)
Theorem evidence_bounded evidence :
  let kept := sanitize_detection_evidence evidence in
  (length kept <= MAX_CAT_DETECTION_EVIDENCE)%nat
  /\ Forall (fun e => 0 < ce_sequence e /\ 0 < ce_frame_epoch_ms e /\ ce_confidence_ppm e <= 1000000)%Z kept.
Proof.
  cbn zeta. unfold sanitize_detection_evidence. set (l := List.filter _ evidence).
  set (kept := cap_confidence <$> first_of_sequence [] (sort_by by_frame_time l)).
  assert (Forall (fun e => 0 < ce_sequence e /\ 0 < ce_frame_epoch_ms e /\ ce_confidence_ppm e <= 1000000)%Z kept) as Hall.
  { apply Forall_fmap, Forall_forall. intros e He. destruct (first_of_sequence_spec [] (sort_by by_frame_time l)) as (Hin & _).
    apply Hin in He as [He _]. rewrite sort_by_perm in He. apply elem_of_list_filter in He as [_ He]. cbn. bool_facts. lia. }
  destruct (Nat.ltb_spec MAX_CAT_DETECTION_EVIDENCE (length kept)) as [Hl|Hl]; [|by split]. split.
  - rewrite length_app, length_take. unfold MAX_CAT_DETECTION_EVIDENCE in *. destruct (last kept); cbn [option_list length]; lia.
  - apply Forall_app. split; [by apply Forall_take|]. destruct (last kept) as [e|] eqn:E; [|constructor].
    apply list.Forall_singleton. rewrite Forall_forall in Hall. apply Hall. by eapply last_Some_elem_of.
Qed.
