(* ===== verification/CatQueue.v ===== *)
(** What the operations on validations decide, from the latest record of every
    recording: [CatRecordingValidationStore] of
    [src/runtime/cat_recording_validation.rs] without its file. An operation is
    refused before the index is locked, or else, in a [Plan], yields the records it
    persists, in order, and its answer. What the operations do to a record, in any
    order, cut short or not: a decision is final, only rejected recordings are
    discarded, and a claim keeps others away until it expires. *)
From stdpp Require Import gmap.
From S2P Require Import Prelude RustString TaskStore CatRecords.
Local Open Scope string_scope.
Local Open Scope list_scope.
Local Open Scope rust_scope.

(** [index.latest] *)
Abbreviation Latest := (gmap string CatRecordingValidationRecord).

(** What is persisted, and the answer. *)
Definition Plan (A : Type) : Type := Latest -> result string (list CatRecordingValidationRecord * A).

(** [Err]: refused before the index is locked. *)
Definition Request (A : Type) : Type := result string (Plan A).

Definition record_of (latest : Latest) (artifact_id : string) : result string CatRecordingValidationRecord :=
  ok_or ("cat recording validation record not found: " +:+ artifact_id) (latest !! artifact_id).

(** [update_record_checked]: [written] is the clock after the update. *)
Definition update_record_checked (written : Z) (artifact_id : string)
    (update : CatRecordingValidationRecord -> result string CatRecordingValidationRecord)
  : Request CatRecordingValidationRecord :=
  Ok (fun latest =>
    r <-? record_of latest artifact_id;
    r <-? update r;
    let r := set_updated_at written r in
    Ok ([r], r)).

(** * Registering *)

Section register.
Context `{!Sha256}.

Definition new_record (now : Z) (a : HarborLinkRecordingArtifact) (event_id : string)
    (detection_evidence : list CatDetectionEvidence) : CatRecordingValidationRecord :=
  {| vr_schema_version := "1.5"; vr_validation_id := stable_validation_id (hl_artifact_id a);
     vr_policy_version := CAT_RECORDING_VALIDATION_POLICY_VERSION; vr_artifact_id := hl_artifact_id a;
     vr_event_id := event_id; vr_artifact_source := hl_source a; vr_camera_id := hl_camera_id a;
     vr_mime_type := hl_mime_type a; vr_byte_size := hl_byte_size a;
     vr_started_at_epoch_ms := hl_started_at_epoch_ms a; vr_ended_at_epoch_ms := hl_ended_at_epoch_ms a;
     vr_duration_seconds := hl_duration_seconds a; vr_validation_status := PendingValidation;
     vr_publication_status := Unpublished; vr_attempt_count := 0;
     vr_detection_evidence := sanitize_detection_evidence detection_evidence; vr_next_retry_at_epoch_ms := None;
     vr_claim_owner := None; vr_claim_token := None; vr_claim_lease_deadline_epoch_ms := None;
     vr_created_at_epoch_ms := now; vr_updated_at_epoch_ms := now; vr_decision := None; vr_last_error := None;
     vr_artifact_disposition := Retained; vr_discard_attempt_count := 0; vr_discard_attempt_generation := 0;
     vr_discard_attempt_token := None; vr_discard_attempt_lease_deadline_epoch_ms := None;
     vr_discarded_at_epoch_ms := None; vr_discard_error := None; vr_discard_tombstone := None |}.

(** What is refused before the index is locked. *)
Definition recording_event_id (a : HarborLinkRecordingArtifact) : result string string :=
  if negb (hl_kind a =? "recording") || negb (starts_with "video/" (hl_mime_type a))
  then Err "cat validation accepts recording video artifacts only"
  else ok_or "cat recording artifact is missing event_id" (hl_event_id a ≫= non_blank).

Definition register_candidate_with_evidence (now : Z) (a : HarborLinkRecordingArtifact)
    (detection_evidence : list CatDetectionEvidence) : Request CatRecordingValidationRecord :=
  event_id <-? recording_event_id a;
  Ok (fun latest =>
    match latest !! hl_artifact_id a with
    | Some existing => Ok ([], existing)
    | None => let r := new_record now a event_id detection_evidence in Ok ([r], r)
    end).
End register.

(** * Claims *)

Definition claimable (now : Z) (r : CatRecordingValidationRecord) : bool :=
  bool_decide (vr_validation_status r = PendingValidation)
  && match vr_next_retry_at_epoch_ms r with Some retry_at => (retry_at <=? now)%Z | None => true end.

(** By the time of registration, then by identifier. *)
Definition older_record (a b : CatRecordingValidationRecord) : comparison :=
  then_with (Z.compare (vr_created_at_epoch_ms a) (vr_created_at_epoch_ms b))
    (String.compare (vr_validation_id a) (vr_validation_id b)).

(** [Iterator::min_by_key]: the first of the least. *)
Fixpoint min_by {A} (cmp : A -> A -> comparison) (l : list A) : option A :=
  match l with
  | [] => None
  | x :: l => match min_by cmp l with
              | Some y => match cmp x y with Gt => Some y | _ => Some x end
              | None => Some x
              end
  end.

Definition claim_record (now lease_duration_ms : Z) (owner token : string) (r : CatRecordingValidationRecord)
  : CatRecordingValidationRecord :=
  set_updated_at now
    (set_claim (Some owner) (Some token) (Some (u128_saturating_add now lease_duration_ms))
       (set_validation Processing Unpublished (u32_saturating_add (vr_attempt_count r) 1) (vr_decision r) None None r)).

Section claim.
Context `{!HashOrder}.

(** [token] is the draw of the token. *)
Definition claim_next_pending (owner token : string) (now lease_duration_ms : Z)
  : Request (option CatRecordingValidationRecord) :=
  let owner := sanitize_text owner in
  if is_blank owner then Err "cat recording validation claim owner is required"
  else if (lease_duration_ms =? 0)%Z then Err "cat recording validation claim lease must be positive"
  else Ok (fun latest =>
    match min_by older_record (List.filter (claimable now) (values latest)) with
    | None => Ok ([], None)
    | Some r => let r := claim_record now lease_duration_ms owner token r in Ok ([r], Some r)
    end).

Definition expired (now : Z) (r : CatRecordingValidationRecord) : bool :=
  bool_decide (vr_validation_status r = Processing)
  && match vr_claim_lease_deadline_epoch_ms r with Some deadline => (deadline <=? now)%Z | None => true end.

Definition recover_record (now : Z) (r : CatRecordingValidationRecord) : CatRecordingValidationRecord :=
  set_updated_at now
    (clear_processing_claim
       (set_validation PendingValidation Unpublished (vr_attempt_count r) (vr_decision r) None
          (Some "validation_claim_expired") r)).

(** The records that the loop persists. *)
Fixpoint recover_all (now : Z) (latest : Latest) (artifact_ids : list string)
  : result string (list CatRecordingValidationRecord) :=
  match artifact_ids with
  | [] => Ok []
  | artifact_id :: artifact_ids =>
      r <-? record_of latest artifact_id;
      let r := recover_record now r in
      rest <-? recover_all now (<[vr_artifact_id r := r]> latest) artifact_ids;
      Ok (r :: rest)
  end.

Definition recover_expired_claims (now : Z) : Request nat :=
  Ok (fun latest =>
    let artifact_ids :=
      sort_by String.compare (vr_artifact_id <$> List.filter (expired now) (values latest)) in
    records <-? recover_all now latest artifact_ids;
    Ok (records, length artifact_ids)).
End claim.

(** * Ends of a claim *)

Definition complete (artifact_id claim_token : string) (now written : Z)
    (validation_status : CatRecordingValidationStatus) (decision : option CatRecordingValidationDecision)
    (error : option string) : Request CatRecordingValidationRecord :=
  update_record_checked written artifact_id (fun r =>
    _ <-? validate_processing_claim r claim_token now;
    Ok (clear_processing_claim
          (set_validation validation_status (if decide (validation_status = Accepted) then Published else Unpublished)
             (vr_attempt_count r) decision None (sanitize_text <$> error) r))).

(** Back to the queue. *)
Definition requeue (attempts next_retry_at_epoch_ms : Z) (error : string) (r : CatRecordingValidationRecord)
  : CatRecordingValidationRecord :=
  clear_processing_claim
    (set_validation PendingValidation Unpublished attempts None (Some next_retry_at_epoch_ms)
       (Some (sanitize_text error)) r).

Definition schedule_retry (artifact_id claim_token : string) (now written next_retry_at_epoch_ms : Z) (error : string)
  : Request CatRecordingValidationRecord :=
  update_record_checked written artifact_id (fun r =>
    _ <-? validate_processing_claim r claim_token now;
    Ok (requeue (vr_attempt_count r) next_retry_at_epoch_ms error r)).

Definition defer_resource_contention (artifact_id claim_token : string) (now written next_retry_at_epoch_ms : Z)
    (error : string) : Request CatRecordingValidationRecord :=
  update_record_checked written artifact_id (fun r =>
    _ <-? validate_processing_claim r claim_token now;
    Ok (requeue (Z.max 0 (vr_attempt_count r - 1)) next_retry_at_epoch_ms error r)).

(** * Discarding *)

(** An attempt to discard is under way. *)
Definition discard_claimed (now : Z) (r : CatRecordingValidationRecord) : bool :=
  bool_decide (vr_artifact_disposition r = DiscardPending) && not_empty (vr_discard_attempt_token r)
  && after_now now (vr_discard_attempt_lease_deadline_epoch_ms r).

(** [uuid] is drawn for the token. *)
Definition claim_discard_record (now lease_duration_ms : Z) (uuid : string) (r : CatRecordingValidationRecord)
  : CatRecordingValidationRecord :=
  let generation := u64_saturating_add (vr_discard_attempt_generation r) 1 in
  set_updated_at now
    (set_discard DiscardPending (u32_saturating_add (vr_discard_attempt_count r) 1) generation
       (Some ("discard-" +:+ show_Z generation +:+ "-" +:+ uuid))
       (Some (u128_saturating_add now lease_duration_ms)) (vr_discarded_at_epoch_ms r) None
       (vr_discard_tombstone r) r).

Definition claim_artifact_discard (artifact_id : string) (mode : CatRecordingValidationMode)
    (now lease_duration_ms : Z) (uuid : string) : Request (option CatRecordingValidationRecord) :=
  if (lease_duration_ms =? 0)%Z then Err "cat recording discard claim lease must be positive"
  else Ok (fun latest =>
    r <-? record_of latest artifact_id;
    if negb (is_physical_discard_eligible mode r) then Err "cat recording is not eligible for physical discard"
    else if discard_claimed now r then Ok ([], None)
    else if (MAX_ARTIFACT_DISCARD_ATTEMPTS <=? vr_discard_attempt_count r)%Z
    then Err "cat recording discard attempts are exhausted"
    else let r := claim_discard_record now lease_duration_ms uuid r in Ok ([r], Some r)).

(** [checked], [deleted] and [written] are the clock's readings. *)
Definition mark_artifact_discarded (artifact_id discard_attempt_token : string) (checked deleted written : Z)
    (provider_deleted provider_already_absent : bool) : Request CatRecordingValidationRecord :=
  update_record_checked written artifact_id (fun r =>
    _ <-? validate_discard_attempt r discard_attempt_token checked;
    if negb provider_deleted && negb provider_already_absent
    then Err "HarborLink did not confirm artifact deletion"
    else Ok (set_discard Discarded (vr_discard_attempt_count r) (vr_discard_attempt_generation r) None None
               (Some deleted) None
               (Some {| ts_completed := true; ts_deleted_at_epoch_ms := deleted; ts_provider := "harborlink";
                        ts_provider_deleted := provider_deleted;
                        ts_provider_already_absent := provider_already_absent |}) r)).

Definition mark_artifact_discard_failed (artifact_id discard_attempt_token error : string) (checked written : Z)
  : Request CatRecordingValidationRecord :=
  update_record_checked written artifact_id (fun r =>
    _ <-? validate_discard_attempt r discard_attempt_token checked;
    Ok (set_discard DiscardFailed (vr_discard_attempt_count r) (vr_discard_attempt_generation r) None None
          (vr_discarded_at_epoch_ms r) (Some (sanitize_text error)) (vr_discard_tombstone r) r)).

(** * Queries *)

Section queries.
Context `{!HashOrder}.

Definition newer_update (a b : CatRecordingValidationRecord) : comparison :=
  Z.compare (vr_updated_at_epoch_ms b) (vr_updated_at_epoch_ms a).

Definition list_latest : Request (list CatRecordingValidationRecord) :=
  Ok (fun latest => Ok ([], sort_by newer_update (values latest))).

Definition pending_discard (mode : CatRecordingValidationMode) (r : CatRecordingValidationRecord) : bool :=
  (bool_decide (vr_artifact_disposition r = DiscardPending) || bool_decide (vr_artifact_disposition r = DiscardFailed))
  && (vr_discard_attempt_count r <? MAX_ARTIFACT_DISCARD_ATTEMPTS)%Z && is_physical_discard_eligible mode r.

Definition request_map {A B} (f : A -> B) (q : Request A) : Request B :=
  p <-? q; Ok (fun latest => x <-? p latest; Ok (x.1, f x.2)).

Definition pending_discards (mode : CatRecordingValidationMode) : Request (list CatRecordingValidationRecord) :=
  request_map (List.filter (pending_discard mode)) list_latest.

Definition next_pending (now : Z) : Request (option CatRecordingValidationRecord) :=
  request_map (fun l => head (sort_by (fun a b => Z.compare (vr_created_at_epoch_ms a) (vr_created_at_epoch_ms b))
                                (List.filter (claimable now) l))) list_latest.

(** Of identifiers that are not empty: none is answered without the index. *)
Definition select_records (artifact_ids : gset string) : Request Latest :=
  Ok (fun latest => Ok ([], filter (fun kv => kv.1 ∈ artifact_ids) latest)).
End queries.

(** * What is decided on *)

(** The records an operation decides on from [m], and its answer. *)
Definition decided {A} (q : Request A) (m : Latest) : result string (list CatRecordingValidationRecord * A) :=
  plan <-? q; plan m.

Definition decided_records {A} (q : Request A) (m : Latest) : list CatRecordingValidationRecord :=
  match decided q m with Ok x => x.1 | Err _ => [] end.

Definition put_record (latest : Latest) (r : CatRecordingValidationRecord) : Latest := <[vr_artifact_id r := r]> latest.
Definition put_records (records : list CatRecordingValidationRecord) (latest : Latest) : Latest :=
  foldl put_record latest records.

Lemma put_records_app l l' m : put_records (l ++ l') m = put_records l' (put_records l m).
Proof. apply foldl_app. Qed.

(** A record is what it was, or one of those put. *)
Lemma put_records_lookup l m k :
  put_records l m !! k = m !! k \/ exists r, put_records l m !! k = Some r /\ r ∈ l /\ vr_artifact_id r = k.
Proof.
  induction l as [|r l IH] using rev_ind; [by left|]. rewrite put_records_app. cbn. unfold put_record.
  destruct (decide (vr_artifact_id r = k)) as [<-|Hne].
  - right. exists r. rewrite lookup_insert_eq. repeat split. apply elem_of_app. right. by apply list_elem_of_singleton.
  - rewrite lookup_insert_ne by done. destruct IH as [IH|(r' & H1 & H2 & H3)]; [by left|right].
    exists r'. repeat split; [done| |done]. apply elem_of_app. by left.
Qed.

(** Records are stored at their identifier. *)
Definition keyed (m : Latest) : Prop := forall k r, m !! k = Some r -> vr_artifact_id r = k.

Lemma keyed_put l m : keyed m -> keyed (put_records l m).
Proof.
  intros Hm k r Hr. destruct (put_records_lookup l m k) as [E|(r' & E & _ & Hk)]; [apply Hm; congruence|]. congruence.
Qed.

(** * The operations *)

Section ops.
Context `{!Sha256} `{!HashOrder}.

(** The operations that write, with their arguments and the clock. *)
Inductive Op :=
| OpRegister (now : Z) (a : HarborLinkRecordingArtifact) (evidence : list CatDetectionEvidence)
| OpClaim (owner token : string) (now lease : Z)
| OpRecover (now : Z)
| OpComplete (artifact_id token : string) (now written : Z) (status : CatRecordingValidationStatus)
    (decision : option CatRecordingValidationDecision) (error : option string)
| OpRetry (artifact_id token : string) (now written retry_at : Z) (error : string)
| OpDefer (artifact_id token : string) (now written retry_at : Z) (error : string)
| OpClaimDiscard (artifact_id : string) (mode : CatRecordingValidationMode) (now lease : Z) (uuid : string)
| OpDiscarded (artifact_id token : string) (now deleted written : Z) (provider_deleted already_absent : bool)
| OpDiscardFailed (artifact_id token error : string) (now written : Z).

Definition op_records (op : Op) (m : Latest) : list CatRecordingValidationRecord :=
  match op with
  | OpRegister now a evidence => decided_records (register_candidate_with_evidence now a evidence) m
  | OpClaim owner token now lease => decided_records (claim_next_pending owner token now lease) m
  | OpRecover now => decided_records (recover_expired_claims now) m
  | OpComplete id token now written status decision error =>
      decided_records (complete id token now written status decision error) m
  | OpRetry id token now written at_ error => decided_records (schedule_retry id token now written at_ error) m
  | OpDefer id token now written at_ error => decided_records (defer_resource_contention id token now written at_ error) m
  | OpClaimDiscard id mode now lease uuid => decided_records (claim_artifact_discard id mode now lease uuid) m
  | OpDiscarded id token now deleted written d a => decided_records (mark_artifact_discarded id token now deleted written d a) m
  | OpDiscardFailed id token error now written => decided_records (mark_artifact_discard_failed id token error now written) m
  end.

Definition op_time (op : Op) : Z :=
  match op with
  | OpRegister now _ _ | OpClaim _ _ now _ | OpRecover now | OpComplete _ _ now _ _ _ _ | OpRetry _ _ now _ _ _
  | OpDefer _ _ now _ _ _ | OpClaimDiscard _ _ now _ _ | OpDiscarded _ _ now _ _ _ _ | OpDiscardFailed _ _ _ now _ => now
  end.

(** The operations as requests, their answers left out. *)
Definition op_request (op : Op) : Request unit :=
  match op with
  | OpRegister now a evidence => request_map (fun _ => tt) (register_candidate_with_evidence now a evidence)
  | OpClaim owner token now lease => request_map (fun _ => tt) (claim_next_pending owner token now lease)
  | OpRecover now => request_map (fun _ => tt) (recover_expired_claims now)
  | OpComplete id token now written status decision error =>
      request_map (fun _ => tt) (complete id token now written status decision error)
  | OpRetry id token now written at_ error => request_map (fun _ => tt) (schedule_retry id token now written at_ error)
  | OpDefer id token now written at_ error =>
      request_map (fun _ => tt) (defer_resource_contention id token now written at_ error)
  | OpClaimDiscard id mode now lease uuid => request_map (fun _ => tt) (claim_artifact_discard id mode now lease uuid)
  | OpDiscarded id token now deleted written d a =>
      request_map (fun _ => tt) (mark_artifact_discarded id token now deleted written d a)
  | OpDiscardFailed id token error now written =>
      request_map (fun _ => tt) (mark_artifact_discard_failed id token error now written)
  end.

Lemma decided_map {A B} (f : A -> B) (q : Request A) m : decided_records (request_map f q) m = decided_records q m.
Proof.
  unfold decided_records, decided, request_map. destruct q as [p|e]; [|done]. cbn. by destruct (p m) as [[l a]|e].
Qed.

Lemma op_request_records op m : decided_records (op_request op) m = op_records op m.
Proof. destruct op; apply decided_map. Qed.

(** An operation, and whether it answered that it took place. *)
Definition Answered : Type := Op * bool.

(** As many of its records are persisted as happens; all of them, and the operation was
    not refused, if it answered that it took place. *)
Inductive queue_step (x : Answered) (m : Latest) : Latest -> Prop :=
| queue_step_persists records :
    records `prefix_of` op_records x.1 m ->
    (x.2 = true -> decided (op_request x.1) m = Ok (records, tt)) ->
    queue_step x m (put_records records m).

Inductive queue_steps : list Answered -> Latest -> Latest -> Prop :=
| steps_nil m : queue_steps [] m m
| steps_cons x ops m m' m'' : queue_step x m m' -> queue_steps ops m' m'' -> queue_steps (x :: ops) m m''.

(** What an operation makes of the record of one recording. *)
Inductive changes : Op -> option CatRecordingValidationRecord -> CatRecordingValidationRecord -> Prop :=
| ch_register now a evidence event_id :
    recording_event_id a = Ok event_id ->
    changes (OpRegister now a evidence) None (new_record now a event_id evidence)
| ch_claim owner token now lease r :
    is_blank (sanitize_text owner) = false -> claimable now r = true ->
    changes (OpClaim owner token now lease) (Some r) (claim_record now lease (sanitize_text owner) token r)
| ch_recover now r : expired now r = true -> changes (OpRecover now) (Some r) (recover_record now r)
| ch_complete token now written status decision error r :
    validate_processing_claim r token now = Ok tt ->
    changes (OpComplete (vr_artifact_id r) token now written status decision error) (Some r)
      (set_updated_at written (clear_processing_claim
         (set_validation status (if decide (status = Accepted) then Published else Unpublished)
            (vr_attempt_count r) decision None (sanitize_text <$> error) r)))
| ch_retry token now written at_ error r :
    validate_processing_claim r token now = Ok tt ->
    changes (OpRetry (vr_artifact_id r) token now written at_ error) (Some r)
      (set_updated_at written (requeue (vr_attempt_count r) at_ error r))
| ch_defer token now written at_ error r :
    validate_processing_claim r token now = Ok tt ->
    changes (OpDefer (vr_artifact_id r) token now written at_ error) (Some r)
      (set_updated_at written (requeue (Z.max 0 (vr_attempt_count r - 1)) at_ error r))
| ch_claim_discard mode now lease uuid r :
    is_physical_discard_eligible mode r = true -> discard_claimed now r = false ->
    (vr_discard_attempt_count r < MAX_ARTIFACT_DISCARD_ATTEMPTS)%Z ->
    changes (OpClaimDiscard (vr_artifact_id r) mode now lease uuid) (Some r) (claim_discard_record now lease uuid r)
| ch_discarded token now deleted written d a r :
    validate_discard_attempt r token now = Ok tt -> d || a = true ->
    changes (OpDiscarded (vr_artifact_id r) token now deleted written d a) (Some r)
      (set_updated_at written
         (set_discard Discarded (vr_discard_attempt_count r) (vr_discard_attempt_generation r) None None
            (Some deleted) None
            (Some {| ts_completed := true; ts_deleted_at_epoch_ms := deleted; ts_provider := "harborlink";
                     ts_provider_deleted := d; ts_provider_already_absent := a |}) r))
| ch_discard_failed token error now written r :
    validate_discard_attempt r token now = Ok tt ->
    changes (OpDiscardFailed (vr_artifact_id r) token error now written) (Some r)
      (set_updated_at written
         (set_discard DiscardFailed (vr_discard_attempt_count r) (vr_discard_attempt_generation r) None None
            (vr_discarded_at_epoch_ms r) (Some (sanitize_text error)) (vr_discard_tombstone r) r)).

Lemma values_lookup (m : Latest) r : keyed m -> r ∈ values m -> m !! vr_artifact_id r = Some r.
Proof.
  intros Hm Hr. rewrite values_perm in Hr. apply list_elem_of_fmap in Hr as ([k r'] & -> & Hin).
  apply elem_of_map_to_list in Hin. cbn. by rewrite (Hm _ _ Hin).
Qed.

Lemma min_by_in {A} (cmp : A -> A -> comparison) l x : min_by cmp l = Some x -> x ∈ l.
Proof.
  revert x. induction l as [|y l IH]; intros x; [done|]. cbn. destruct (min_by cmp l) as [z|].
  - destruct (cmp y z); intros [= <-]; [left|left|right; by apply IH].
  - intros [= <-]. left.
Qed.

Lemma values_nodup (m : Latest) p : keyed m -> NoDup (vr_artifact_id <$> List.filter p (values m)).
Proof.
  intros Hm. assert (NoDup (vr_artifact_id <$> values m)) as Hnd.
  { rewrite values_perm. assert (vr_artifact_id <$> (map_to_list m).*2 = (map_to_list m).*1) as ->.
    { rewrite <- list_fmap_compose. apply list_fmap_ext. intros i [k r] Hin. cbn.
      apply list_elem_of_lookup_2, elem_of_map_to_list in Hin. by apply Hm. }
    apply NoDup_fst_map_to_list. }
  revert Hnd. generalize (values m). intros l. induction l as [|r l IH]; cbn; [done|].
  intros [Hr Hl]%NoDup_cons. destruct (p r); cbn; [|by apply IH]. apply NoDup_cons. split; [|by apply IH].
  contradict Hr. apply list_elem_of_fmap in Hr as (r' & -> & Hin%list_elem_of_In%filter_In).
  apply list_elem_of_fmap_2, list_elem_of_In, Hin.
Qed.

Lemma recover_all_spec now m ids :
  keyed m -> NoDup ids -> (forall k, k ∈ ids -> is_Some (m !! k)) ->
  exists records, recover_all now m ids = Ok records
    /\ Forall2 (fun k r' => exists r, m !! k = Some r /\ r' = recover_record now r) ids records.
Proof.
  intros Hm Hnd. revert m Hm. induction Hnd as [|k ids Hk Hnd IH]; intros m Hm Hin; [by exists []|].
  destruct (Hin k) as [r Hr]; [left|]. cbn [recover_all]. unfold record_of. rewrite Hr. cbn.
  pose proof (Hm _ _ Hr) as Hid.
  destruct (IH (<[k := recover_record now r]> m)) as (records & He & Hall).
  - intros j x Hx. destruct (decide (j = k)) as [->|Hne].
    + rewrite lookup_insert_eq in Hx. injection Hx as <-. exact Hid.
    + rewrite lookup_insert_ne in Hx by done. by apply Hm.
  - intros j Hj. destruct (decide (j = k)) as [->|Hne]; [by rewrite lookup_insert_eq|].
    rewrite lookup_insert_ne by done. apply Hin. by right.
  - rewrite Hid, He. cbn. exists (recover_record now r :: records). split; [done|]. constructor; [by exists r|].
    clear -Hall Hk. induction Hall as [|j r' ids records (x & Hx & ->) _ IH]; constructor.
    + exists x. split; [|done]. rewrite lookup_insert_ne in Hx; [done|]. intros ->. apply Hk. left.
    + apply IH. intros Hin. apply Hk. by right.
Qed.

Lemma in_update written id update m r' :
  r' ∈ decided_records (update_record_checked written id update) m ->
  exists r u, m !! id = Some r /\ update r = Ok u /\ r' = set_updated_at written u.
Proof.
  unfold decided_records, decided, update_record_checked, record_of. cbn. destruct (m !! id) as [r|] eqn:Hr; cbn; [|by intros ?%not_elem_of_nil].
  destruct (update r) as [u|e] eqn:Hu; cbn; [|by intros ?%not_elem_of_nil].
  intros ->%list_elem_of_singleton. by exists r, u.
Qed.

Lemma checked_claim {A} r token now (k : unit -> result string A) x :
  (u <-? validate_processing_claim r token now; k u) = Ok x -> validate_processing_claim r token now = Ok tt /\ k tt = Ok x.
Proof. destruct (validate_processing_claim r token now) as [[]|]; [by split|done]. Qed.

Lemma checked_attempt {A} r token now (k : unit -> result string A) x :
  (u <-? validate_discard_attempt r token now; k u) = Ok x -> validate_discard_attempt r token now = Ok tt /\ k tt = Ok x.
Proof. destruct (validate_discard_attempt r token now) as [[]|]; [by split|done]. Qed.

Lemma op_changes op m r' :
  keyed m -> r' ∈ op_records op m -> changes op (m !! vr_artifact_id r') r'.
Proof.
  intros Hm. destruct op; cbn [op_records].
  - unfold decided_records, decided, register_candidate_with_evidence. destruct (recording_event_id a) as [event_id|] eqn:He; cbn; [|by intros ?%not_elem_of_nil].
    destruct (m !! hl_artifact_id a) eqn:Hl; cbn; [by intros ?%not_elem_of_nil|].
    intros ->%list_elem_of_singleton. cbn. rewrite Hl. by constructor.
  - unfold decided_records, decided, claim_next_pending. destruct (is_blank (sanitize_text owner)) eqn:Hb; cbn; [by intros ?%not_elem_of_nil|].
    destruct (lease =? 0)%Z; cbn; [by intros ?%not_elem_of_nil|].
    destruct (min_by _ _) as [r|] eqn:Hmin; cbn; [|by intros ?%not_elem_of_nil].
    apply min_by_in, list_elem_of_In, filter_In in Hmin as [Hin%list_elem_of_In Hc].
    intros ->%list_elem_of_singleton. cbn. rewrite (values_lookup m r) by done. by constructor.
  - unfold decided_records, decided, recover_expired_claims. cbn.
    set (ids := sort_by String.compare _).
    assert (NoDup ids) as Hnd by (unfold ids; rewrite sort_by_perm; by apply values_nodup).
    assert (forall k, k ∈ ids -> exists r, m !! k = Some r /\ expired now r = true) as Hex.
    { intros k Hk. unfold ids in Hk. rewrite sort_by_perm in Hk. apply list_elem_of_fmap in Hk as (r & -> & Hin).
      apply list_elem_of_In, filter_In in Hin as [Hin%list_elem_of_In He]. exists r. by rewrite values_lookup. }
    destruct (recover_all_spec now m ids Hm Hnd) as (records & -> & Hall); [intros k Hk; destruct (Hex k Hk) as (r & -> & _); eauto|].
    cbn. intros Hr. apply list_elem_of_lookup in Hr as [n Hn]. destruct (Forall2_lookup_r _ _ _ _ _ Hall Hn) as (k & Hk & r & Hr & ->).
    apply list_elem_of_lookup_2 in Hk. destruct (Hex k Hk) as (r2 & Hr2 & He). rewrite Hr in Hr2. injection Hr2 as <-.
    cbn. rewrite (Hm _ _ Hr), Hr. by constructor.
  - intros (r & u & Hr & [Hv [= <-]]%checked_claim & ->)%in_update. cbn. rewrite (Hm _ _ Hr), Hr.
    rewrite <- (Hm _ _ Hr). by apply ch_complete.
  - intros (r & u & Hr & [Hv [= <-]]%checked_claim & ->)%in_update. cbn. rewrite (Hm _ _ Hr), Hr.
    rewrite <- (Hm _ _ Hr). by apply ch_retry.
  - intros (r & u & Hr & [Hv [= <-]]%checked_claim & ->)%in_update. cbn. rewrite (Hm _ _ Hr), Hr.
    rewrite <- (Hm _ _ Hr). by apply ch_defer.
  - unfold decided_records, decided, claim_artifact_discard. destruct (lease =? 0)%Z; cbn; [by intros ?%not_elem_of_nil|].
    unfold record_of. destruct (m !! artifact_id) as [r|] eqn:Hr; cbn; [|by intros ?%not_elem_of_nil].
    destruct (is_physical_discard_eligible mode r) eqn:He; cbn [negb]; [|by intros ?%not_elem_of_nil].
    destruct (discard_claimed now r) eqn:Hc; [by intros ?%not_elem_of_nil|].
    destruct (Z.leb_spec MAX_ARTIFACT_DISCARD_ATTEMPTS (vr_discard_attempt_count r)); [by intros ?%not_elem_of_nil|].
    intros ->%list_elem_of_singleton. cbn. rewrite (Hm _ _ Hr), Hr. rewrite <- (Hm _ _ Hr). by apply ch_claim_discard.
  - intros (r & u & Hr & [Hv Hu]%checked_attempt & ->)%in_update.
    destruct (negb provider_deleted && negb already_absent) eqn:Hd; [done|]. injection Hu as <-.
    cbn. rewrite (Hm _ _ Hr), Hr. rewrite <- (Hm _ _ Hr). apply ch_discarded; [done|]. by destruct provider_deleted, already_absent.
  - intros (r & u & Hr & [Hv [= <-]]%checked_attempt & ->)%in_update. cbn. rewrite (Hm _ _ Hr), Hr.
    rewrite <- (Hm _ _ Hr). by apply ch_discard_failed.
Qed.


(** * Invariants *)

(** What may be discarded: a recording of the cat camera that was rejected, and is not
    shown. *)
Definition discardable (r : CatRecordingValidationRecord) : Prop :=
  vr_policy_version r = CAT_RECORDING_VALIDATION_POLICY_VERSION
  /\ starts_with "recordings~" (vr_artifact_id r) = true /\ starts_with "cat-activity-" (vr_event_id r) = true
  /\ vr_artifact_source r = Some "yolo_cat_activity"
  /\ vr_validation_status r = Rejected /\ vr_publication_status r = Unpublished.

(** The provider confirmed that the artifact is gone. *)
Definition confirmed_gone (r : CatRecordingValidationRecord) : Prop :=
  exists t, vr_discard_tombstone r = Some t /\ ts_completed t = true
            /\ (ts_provider_deleted t = true \/ ts_provider_already_absent t = true).

Record sound (r : CatRecordingValidationRecord) : Prop := {
  so_published : vr_publication_status r = Published <-> vr_validation_status r = Accepted;
  so_discard : vr_artifact_disposition r = Retained \/ discardable r;
  so_attempts : (0 <= vr_discard_attempt_count r <= MAX_ARTIFACT_DISCARD_ATTEMPTS)%Z;
  so_gone : vr_artifact_disposition r = Discarded -> confirmed_gone r
}.

Definition well (m : Latest) : Prop := keyed m /\ map_Forall (fun _ r => sound r) m.

Lemma eligible_discardable mode r :
  is_physical_discard_eligible mode r = true -> discardable r /\ vr_artifact_disposition r <> Discarded.
Proof.
  unfold is_physical_discard_eligible, discardable. intros He. bool_facts.
  repeat match goal with Hb : bool_decide _ = true |- _ => apply bool_decide_eq_true in Hb
                    | Hb : (_ =? _) = true |- _ => apply String.eqb_eq in Hb end.
  repeat split; try done.
Qed.

Lemma processing_of_claim r token now :
  validate_processing_claim r token now = Ok tt ->
  vr_validation_status r = Processing /\ vr_claim_token r = Some token /\ after_now now (vr_claim_lease_deadline_epoch_ms r) = true.
Proof.
  unfold validate_processing_claim. destruct (_ && _) eqn:Hv; [|done]. intros _. bool_facts.
  repeat match goal with Hb : bool_decide _ = true |- _ => apply bool_decide_eq_true in Hb end. by repeat split.
Qed.

Lemma pending_of_attempt r token now :
  validate_discard_attempt r token now = Ok tt ->
  vr_artifact_disposition r = DiscardPending /\ vr_discard_attempt_token r = Some token
  /\ after_now now (vr_discard_attempt_lease_deadline_epoch_ms r) = true.
Proof.
  unfold validate_discard_attempt. destruct (_ && _) eqn:Hv; [|done]. intros _. bool_facts.
  repeat match goal with Hb : bool_decide _ = true |- _ => apply bool_decide_eq_true in Hb end. by repeat split.
Qed.

(** Nothing undecided is being discarded. *)
Lemma undecided_retained r : sound r -> vr_validation_status r <> Rejected -> vr_artifact_disposition r = Retained.
Proof. intros [_ [Hr|(_ & _ & _ & _ & Hr & _)] _ _] Hn; done. Qed.

Lemma changes_sound op old r' :
  changes op old r' -> (forall r, old = Some r -> sound r) -> sound r'.
Proof.
  intros Hc Hold. destruct Hc; try specialize (Hold _ eq_refl).
  - split; cbn; try done. by left.
  - match goal with H : claimable _ _ = true |- _ => unfold claimable in H; apply andb_true_iff in H as [Hp%bool_decide_eq_true _] end.
    pose proof (undecided_retained r Hold ltac:(congruence)) as Hr. destruct Hold. split; cbn; try done; by left.
  - match goal with H : expired _ _ = true |- _ => unfold expired in H; apply andb_true_iff in H as [Hp%bool_decide_eq_true _] end.
    pose proof (undecided_retained r Hold ltac:(congruence)) as Hr. destruct Hold. split; cbn; try done; by left.
  - match goal with H : validate_processing_claim _ _ _ = _ |- _ => apply processing_of_claim in H as (Hp & _) end.
    pose proof (undecided_retained r Hold ltac:(congruence)) as Hr. destruct Hold. split; cbn; try done; [|by left].
    by destruct (decide (status = Accepted)).
  - match goal with H : validate_processing_claim _ _ _ = _ |- _ => apply processing_of_claim in H as (Hp & _) end.
    pose proof (undecided_retained r Hold ltac:(congruence)) as Hr. destruct Hold. split; cbn; try done; by left.
  - match goal with H : validate_processing_claim _ _ _ = _ |- _ => apply processing_of_claim in H as (Hp & _) end.
    pose proof (undecided_retained r Hold ltac:(congruence)) as Hr. destruct Hold. split; cbn; try done; by left.
  - match goal with H : is_physical_discard_eligible _ _ = true |- _ => apply eligible_discardable in H as [Hd _] end.
    destruct Hold. split; cbn; try done; [by right|]. unfold u32_saturating_add, MAX_ARTIFACT_DISCARD_ATTEMPTS, u32_max in *. lia.
  - match goal with H : validate_discard_attempt _ _ _ = _ |- _ => apply pending_of_attempt in H as (Hp & _) end.
    destruct Hold as [Hpub [Hr|Hr] Hatt Hgone]; [congruence|]. split; cbn; try done; [by right|].
    intros _. eexists. split; [done|]. cbn. split; [done|]. by apply orb_true_iff.
  - match goal with H : validate_discard_attempt _ _ _ = _ |- _ => apply pending_of_attempt in H as (Hp & _) end.
    destruct Hold as [Hpub [Hr|Hr] Hatt Hgone]; [congruence|]. split; cbn; try done. by right.
Qed.

(** A step leaves each record, or changes it as the operation does. *)
Lemma step_lookup op m m' k :
  keyed m -> queue_step op m m' ->
  m' !! k = m !! k \/ exists r', m' !! k = Some r' /\ changes op.1 (m !! k) r' /\ vr_artifact_id r' = k.
Proof.
  intros Hm [records Hp _]. destruct (put_records_lookup records m k) as [E|(r' & E & Hin & Hk)]; [by left|right].
  exists r'. split; [done|]. split; [|done]. rewrite <- Hk. apply op_changes; [done|].
  destruct Hp as [rest ->]. apply elem_of_app. by left.
Qed.

Lemma step_well op m m' : queue_step op m m' -> well m -> well m'.
Proof.
  intros Hs [Hk Hm]. split; [destruct Hs; by apply keyed_put|]. intros k r Hr.
  destruct (step_lookup op m m' k Hk Hs) as [E|(r' & E & Hc & _)].
  - apply (Hm k). congruence.
  - rewrite E in Hr. injection Hr as ->. eapply changes_sound; [exact Hc|]. intros r0 Hr0. by apply (Hm k).
Qed.

Lemma well_empty : well ∅.
Proof. split; [intros k r Hr|apply map_Forall_empty]. by rewrite lookup_empty in Hr. Qed.

Lemma steps_well ops m m' : queue_steps ops m m' -> well m -> well m'.
Proof. induction 1 as [|op ops m m' m'' Hs _ IH]; [done|]. intros Hm. by eapply IH, step_well. Qed.

(** What holds of a record, and every change of the operations keeps, holds after
    them. *)
Lemma steps_keep (P : CatRecordingValidationRecord -> Prop) ops m m' k r :
  (forall op r r', op ∈ ops -> sound r -> P r -> changes op.1 (Some r) r' -> P r') ->
  well m -> queue_steps ops m m' -> m !! k = Some r -> P r -> exists r', m' !! k = Some r' /\ P r'.
Proof.
  intros HP Hm Hs. revert r HP Hm. induction Hs as [|op ops m m' m'' Hs _ IH]; intros r HP Hm Hr Hpr; [by exists r|].
  destruct (step_lookup op m m' k (proj1 Hm) Hs) as [E|(r' & E & Hc & _)].
  - apply (IH r); [|by eapply step_well|congruence|done]. intros op' x x' Hin. apply HP. by right.
  - rewrite Hr in Hc. apply (IH r'); [|by eapply step_well|done|].
    + intros op' x x' Hin. apply HP. by right.
    + apply (HP op r); [left|by apply (proj2 Hm k)|done|done].
Qed.

(** Whatever the operations, in any order and cut short anywhere, what is being
    discarded, or is discarded, is a recording of the cat camera that was rejected
    under the current policy and is not shown; it is tried three times at most; and
    it counts as discarded only when the provider confirmed that it is gone. *)
Theorem only_rejected_discarded ops m k r :
  queue_steps ops ∅ m -> m !! k = Some r -> vr_artifact_disposition r <> Retained ->
  discardable r /\ (0 <= vr_discard_attempt_count r <= MAX_ARTIFACT_DISCARD_ATTEMPTS)%Z
  /\ (vr_artifact_disposition r = Discarded -> confirmed_gone r).
Proof.
  intros Hs Hr Hd. destruct (proj2 (steps_well _ _ _ Hs well_empty) k r Hr) as [_ [He|He] Ha Hg]; [done|]. by split.
Qed.

(** * Decisions *)

Definition is_decided (s : CatRecordingValidationStatus) : bool :=
  match s with Accepted | ReviewRequired | Rejected | ValidationFailed => true | PendingValidation | Processing => false end.

Lemma changes_decided op r r' :
  is_decided (vr_validation_status r) = true -> changes op (Some r) r' ->
  vr_validation_status r' = vr_validation_status r /\ vr_decision r' = vr_decision r
  /\ vr_publication_status r' = vr_publication_status r.
Proof.
  intros Hd Hc. inversion Hc; subst; cbn; try done; exfalso;
    try match goal with H : validate_processing_claim _ _ _ = _ |- _ => apply processing_of_claim in H as (E & _); by rewrite E in Hd end.
  - match goal with H : claimable _ _ = true |- _ => unfold claimable in H; apply andb_true_iff in H as [E%bool_decide_eq_true _]; by rewrite E in Hd end.
  - match goal with H : expired _ _ = true |- _ => unfold expired in H; apply andb_true_iff in H as [E%bool_decide_eq_true _]; by rewrite E in Hd end.
Qed.

(** C29. A decision is final: whatever comes after it, the recording keeps its status
    and the decision, and it is shown if it was accepted and in no other case. *)
Theorem decision_is_final before after m m' k r :
  queue_steps before ∅ m -> m !! k = Some r -> is_decided (vr_validation_status r) = true ->
  queue_steps after m m' ->
  exists r', m' !! k = Some r' /\ vr_validation_status r' = vr_validation_status r /\ vr_decision r' = vr_decision r
             /\ (is_published r' = true <-> vr_validation_status r = Accepted).
Proof.
  intros Hb Hr Hd Ha. pose proof (steps_well _ _ _ Hb well_empty) as Hw.
  destruct (steps_keep (fun x => sound x /\ vr_validation_status x = vr_validation_status r /\ vr_decision x = vr_decision r)
              after m m' k r) as (r' & Hr' & Hsound & Hst & Hdec); try done.
  - intros op x x' _ _ (Hx & Hs & Hde) Hc. split; [by eapply changes_sound; [exact Hc|intros ? [= <-]]|].
    destruct (changes_decided op.1 x x') as (E1 & E2 & _); [by rewrite Hs|done|]. by rewrite E1, E2.
  - split; [|done]. by apply (proj2 Hw k).
  - exists r'. repeat split; try done; unfold is_published; rewrite Hst, andb_true_iff, !bool_decide_eq_true; [tauto|].
    intros E. split; [done|]. apply (so_published _ Hsound). by rewrite Hst.
Qed.

(** * Claims *)

(** The operation ends the claim that has the token. *)
Definition ends_claim (k token : string) (op : Op) : bool :=
  match op with
  | OpComplete id t _ _ _ _ _ | OpRetry id t _ _ _ _ | OpDefer id t _ _ _ _ => (id =? k) && (t =? token)
  | _ => false
  end.

(** C20. A claim keeps the others away: until its deadline, nothing but an operation
    that shows its token changes the record of the recording, whatever the other
    workers do. *)
Theorem claim_is_exclusive before after m m' k r token deadline :
  queue_steps before ∅ m -> m !! k = Some r -> vr_validation_status r = Processing ->
  vr_claim_token r = Some token -> vr_claim_lease_deadline_epoch_ms r = Some deadline ->
  Forall (fun op => (op_time op.1 < deadline)%Z /\ ends_claim k token op.1 = false) after ->
  queue_steps after m m' -> m' !! k = Some r.
Proof.
  intros Hb Hr Hp Ht Hdl Hall Ha. pose proof (steps_well _ _ _ Hb well_empty) as Hw.
  destruct (steps_keep (fun x => x = r) after m m' k r) as (r' & Hr' & ->); try done.
  intros op x x' Hin Hx -> Hc. exfalso. rewrite Forall_forall in Hall. destruct (Hall op Hin) as [Hlt He].
  pose proof (undecided_retained r Hx ltac:(congruence)) as Hret.
  pose proof (proj1 Hw k r Hr) as Hk.
  destruct op as [op answered]; cbn in Hc, Hlt, He; inversion Hc; subst; cbn in *;
    try (match goal with H : validate_processing_claim _ _ _ = _ |- _ => apply processing_of_claim in H as (_ & E & _) end;
         rewrite Ht in E; injection E as ->; rewrite !String.eqb_refl in He; done);
    try (match goal with H : validate_discard_attempt _ _ _ = _ |- _ => apply pending_of_attempt in H as (E & _) end; congruence).
  - match goal with H : claimable _ _ = true |- _ => unfold claimable in H; rewrite Hp in H; done end.
  - match goal with H : expired _ _ = true |- _ => unfold expired in H; rewrite Hdl in H; apply andb_true_iff in H as [_ E%Z.leb_le]; lia end.
  - match goal with H : is_physical_discard_eligible _ _ = true |- _ => apply eligible_discardable in H as [(_ & _ & _ & _ & E & _) _] end. congruence.
Qed.

(** * Progress *)

#[local] Instance total_older_record : TotalCmp older_record.
Proof. unfold older_record. total_cmp. Qed.

Lemma min_by_least {A} (cmp : A -> A -> comparison) `{!TotalCmp cmp} l x :
  min_by cmp l = Some x -> Forall (fun y => cmp x y <> Gt) l.
Proof.
  revert x. induction l as [|y l IH]; intros x; [done|]. cbn. destruct (min_by cmp l) as [z|] eqn:Hz.
  - specialize (IH z eq_refl). destruct (cmp y z) eqn:E; intros [= <-]; constructor; try done.
    + pose proof (cmp_flip y y) as F. by destruct (cmp y y).
    + eapply Forall_impl; [exact IH|]. intros u Hu. apply (cmp_trans y z u); [by rewrite E|done].
    + pose proof (cmp_flip y y) as F. by destruct (cmp y y).
    + eapply Forall_impl; [exact IH|]. intros u Hu. apply (cmp_trans y z u); [by rewrite E|done].
    + rewrite (cmp_flip y z), E. done.
  - intros [= <-]. destruct l; [|by cbn in Hz; destruct (min_by cmp l); [destruct (cmp a a0)|]].
    constructor; [|done]. pose proof (cmp_flip y y) as F. by destruct (cmp y y).
Qed.

Lemma min_by_none {A} (cmp : A -> A -> comparison) l : min_by cmp l = None -> l = [].
Proof. destruct l as [|x l]; [done|]. cbn. destruct (min_by cmp l) as [z|]; [by destruct (cmp x z)|done]. Qed.

Lemma lookup_values (m : Latest) k r : m !! k = Some r -> r ∈ values m.
Proof. intros Hr. rewrite values_perm. apply list_elem_of_fmap. exists (k, r). split; [done|]. by apply elem_of_map_to_list. Qed.

(** The queue: a claim takes the recording registered first among those that wait
    and whose time to be tried again has come, and holds it until its deadline; there
    is none to take only when none waits. *)
Theorem claim_takes_oldest before m owner token now lease :
  queue_steps before ∅ m -> is_blank (sanitize_text owner) = false -> is_blank token = false -> (0 < lease)%Z ->
  match decided (claim_next_pending owner token now lease) m with
  | Ok (_, None) => forall k r, m !! k = Some r -> claimable now r = false
  | Ok (records, Some r') =>
      records = [r'] /\ exists r, m !! vr_artifact_id r' = Some r /\ claimable now r = true
        /\ (forall k x, m !! k = Some x -> claimable now x = true -> older_record r x <> Gt)
        /\ r' = claim_record now lease (sanitize_text owner) token r
        /\ forall later, (now <= later < Z.min (now + lease) u128_max)%Z -> validate_processing_claim r' token later = Ok tt
  | Err _ => False
  end.
Proof.
  intros Hs Ho Ht Hl. pose proof (proj1 (steps_well _ _ _ Hs well_empty)) as Hk.
  unfold decided, claim_next_pending. rewrite Ho. rewrite (proj2 (Z.eqb_neq lease 0)) by lia. cbn [mbind result_bind].
  destruct (min_by older_record _) as [r|] eqn:Hmin.
  - split; [done|]. exists r. pose proof (min_by_in _ _ _ Hmin) as Hin.
    apply list_elem_of_In, filter_In in Hin as [Hin%list_elem_of_In Hc]. cbn. rewrite (values_lookup m r) by done.
    split; [done|]. split; [done|]. split; [|split; [done|]].
    + intros k x Hx Hcx. apply (min_by_least older_record) in Hmin. rewrite Forall_forall in Hmin. apply Hmin.
      apply list_elem_of_In, filter_In. split; [by apply list_elem_of_In, (lookup_values m k)|done].
    + intros later Hla. unfold validate_processing_claim, claim_record, u128_saturating_add. cbn. rewrite Ht.
      rewrite !bool_decide_true by done. rewrite (proj2 (Z.ltb_lt _ _)) by lia.
      by destruct (sanitize_text owner).
  - intros k r Hr. apply min_by_none in Hmin. destruct (claimable now r) eqn:Hc; [|done].
    assert (In r (List.filter (claimable now) (values m))) as Hin; [|by rewrite Hmin in Hin].
    apply filter_In. split; [|done]. by apply list_elem_of_In, (lookup_values m k).
Qed.

Lemma put_records_in l m r : r ∈ l -> exists r', put_records l m !! vr_artifact_id r = Some r' /\ r' ∈ l.
Proof.
  induction l as [|x l IH] using rev_ind; [by intros ?%not_elem_of_nil|]. rewrite put_records_app. cbn. unfold put_record.
  intros [Hin| ->%list_elem_of_singleton]%elem_of_app.
  - destruct (decide (vr_artifact_id x = vr_artifact_id r)) as [E|Hne].
    + rewrite E, lookup_insert_eq. exists x. split; [done|]. apply elem_of_app. right. by apply list_elem_of_singleton.
    + rewrite lookup_insert_ne by done. destruct (IH Hin) as (r' & Hr' & Hin'). exists r'. split; [done|].
      apply elem_of_app. by left.
  - rewrite lookup_insert_eq. exists x. split; [done|]. apply elem_of_app. right. by apply list_elem_of_singleton.
Qed.

(** No recording is lost with the worker that claimed it: recovering puts each
    recording whose claim has expired, and no other, back in the queue, where it may
    be claimed at once. *)
Theorem expired_claims_recovered before m now :
  queue_steps before ∅ m ->
  exists records, decided (recover_expired_claims now) m = Ok (records, length records)
    /\ forall k r, m !! k = Some r ->
         put_records records m !! k = Some (if expired now r then recover_record now r else r)
         /\ forall later, claimable later (recover_record now r) = true.
Proof.
  intros Hs. pose proof (proj1 (steps_well _ _ _ Hs well_empty)) as Hm.
  unfold decided, recover_expired_claims. cbn [mbind result_bind]. set (ids := sort_by String.compare _).
  assert (NoDup ids) as Hnd by (unfold ids; rewrite sort_by_perm; by apply values_nodup).
  assert (forall r, vr_artifact_id r ∈ ids -> m !! vr_artifact_id r = Some r -> expired now r = true) as Hex.
  { intros r Hk Hr. unfold ids in Hk. rewrite sort_by_perm in Hk. apply list_elem_of_fmap in Hk as (x & E & Hin).
    apply list_elem_of_In, filter_In in Hin as [Hin%list_elem_of_In He]. apply values_lookup in Hin; [|done].
    rewrite <- E, Hr in Hin. by injection Hin as ->. }
  assert (forall k r, m !! k = Some r -> expired now r = true -> k ∈ ids) as Hids.
  { intros k r Hr He. unfold ids. rewrite sort_by_perm. apply list_elem_of_fmap. exists r. split; [by rewrite (Hm _ _ Hr)|].
    apply list_elem_of_In, filter_In. split; [|done]. by apply list_elem_of_In, (lookup_values m k). }
  destruct (recover_all_spec now m ids Hm Hnd) as (records & Hrec & Hall).
  { intros k Hk. unfold ids in Hk. rewrite sort_by_perm in Hk. apply list_elem_of_fmap in Hk as (x & -> & Hin).
    apply list_elem_of_In, filter_In in Hin as [Hin%list_elem_of_In _]. eexists. by apply values_lookup. }
  rewrite Hrec. exists records. cbn. rewrite (Forall2_length _ _ _ Hall). split; [done|].
  assert (forall r', r' ∈ records -> exists r, m !! vr_artifact_id r' = Some r /\ r' = recover_record now r
                      /\ vr_artifact_id r' ∈ ids) as Hback.
  { intros r' Hin. apply list_elem_of_lookup in Hin as [n Hn].
    destruct (Forall2_lookup_r _ _ _ _ _ Hall Hn) as (k & Hk & r & Hr & ->). exists r. cbn. rewrite (Hm _ _ Hr).
    repeat split; [done|]. by eapply list_elem_of_lookup_2. }
  intros k r Hr. split; [|done]. pose proof (Hm _ _ Hr) as Hk. destruct (expired now r) eqn:He.
  - apply (Hids k r) in He as Hin; [|done]. apply list_elem_of_lookup in Hin as [n Hn].
    destruct (Forall2_lookup_l _ _ _ _ _ Hall Hn) as (r' & Hn' & x & Hx & ->). apply list_elem_of_lookup_2 in Hn'.
    destruct (put_records_in records m _ Hn') as (r'' & Hr'' & Hin''). cbn in Hr''.
    rewrite (Hm _ _ Hx) in Hr''. pose proof (keyed_put records m Hm _ _ Hr'') as Hk''.
    rewrite Hr''. destruct (Hback _ Hin'') as (y & Hy & -> & _). congruence.
  - destruct (put_records_lookup records m k) as [E|(r' & E & Hin & Hk')]; [congruence|].
    destruct (Hback _ Hin) as (x & Hx & -> & Hids'). cbn in *. rewrite Hk' in *. rewrite Hr in Hx. injection Hx as <-.
    rewrite <- Hk in Hids', Hr. rewrite (Hex r Hids' Hr) in He. done.
Qed.

(** * Stores of the queue *)

Lemma steps_app ops ops' m m' m'' : queue_steps ops m m' -> queue_steps ops' m' m'' -> queue_steps (ops ++ ops') m m''.
Proof. intros Hs Hs'. induction Hs; [done|]. eapply steps_cons; [done|]. by apply IHHs. Qed.

(** A store of validations, and the queue it holds. An operation takes place after
    what others did by then, as far as it is persisted; one that succeeds, as a whole. *)
Class QueueStore (S : Type) := {
  run_request {A} : Request A -> S -> result string A * S;
  queue_of : S -> Latest;
  run_request_ok {A} (q : Request A) s s' a :
    run_request q s = (Ok a, s') ->
    exists others m records, queue_steps others (queue_of s) m /\ decided q m = Ok (records, a)
      /\ queue_of s' = put_records records m;
  run_request_prefix {A} (q : Request A) s :
    exists others m records, queue_steps others (queue_of s) m /\ records `prefix_of` decided_records q m
      /\ queue_of (run_request q s).2 = put_records records m
}.
End ops.
