(* ===== verification/CatStore.v ===== *)
(** The file of validations: [CatRecordingValidationStore] of
    [src/runtime/cat_recording_validation.rs] over [SecureStorePath] of
    [src/runtime/secure_store_path.rs]. A line of JSON is appended for each record
    persisted; a full file becomes a numbered archive; a counter beside the file is
    advanced before it changes, and by it the processes tell whether the index they
    hold is the file's. Every call to the system takes its outcome from a list, so
    that it may fail, or write a part, anywhere. The lock is held throughout an
    operation, so that nobody else changes the files during one. *)
From Stdlib Require Import Ascii.
From stdpp Require Import gmap.
From S2P Require Import Prelude RustString UrlPath VisionStore CatRecords TaskStore CatQueue.
Local Open Scope string_scope.
Local Open Scope list_scope.

Definition MAX_STORE_BYTES : Z := 64 * 1024 * 1024.
Definition COMPACTION_THRESHOLD_BYTES : Z := 48 * 1024 * 1024.
Definition MAX_RECORD_BYTES : Z := 64 * 1024.
Definition SCAN_CHUNK_BYTES : Z := 8 * 1024.

(** [serde_json]: a record as a line, and a line, or the bytes of one, as a record. *)
Class RecordText := {
  record_to_vec : CatRecordingValidationRecord -> result string string;
  record_from_str : string -> result string CatRecordingValidationRecord;
  record_from_slice : string -> result string CatRecordingValidationRecord
}.

(** * The state *)

(** [f_stamp] is what is compared of a file but for its length: its identity and the
    time it was modified. *)
Record File := { f_bytes : string; f_stamp : Z }.

(** The file, the counter's file, and the other entries of their directory with
    their bytes. *)
Record Disk := {
  d_main : option File;
  d_generation : option string;
  d_siblings : list (string * string)
}.

Record ValidationMainFingerprint := { mf_len : Z; mf_stamp : Z }.

Record ValidationStoreFingerprint := {
  sf_generation : Z;
  sf_main : option ValidationMainFingerprint
}.

#[export] Instance fingerprint_eq_dec : EqDecision ValidationStoreFingerprint.
Proof. assert (EqDecision ValidationMainFingerprint) by solve_decision. solve_decision. Defined.

Record ValidationStoreIndex := {
  ix_initialized : bool;
  ix_latest : Latest;
  ix_fingerprint : option ValidationStoreFingerprint;
  ix_compaction_count : Z;
  ix_disk_scan_count : Z
}.

Definition default_index : ValidationStoreIndex :=
  {| ix_initialized := false; ix_latest := ∅; ix_fingerprint := None; ix_compaction_count := 0;
     ix_disk_scan_count := 0 |}.

(** What a call to the system meets: an error, with how much was written by then, and
    the stamp of the file afterwards. *)
Record Call := { c_error : option string; c_written : nat; c_stamp : Z }.

Definition good_call : Call := {| c_error := None; c_written := 0; c_stamp := 0 |}.

(** [w_calls]: the calls to come; those after them succeed. *)
Record World := { w_disk : Disk; w_calls : list Call; w_index : ValidationStoreIndex }.

Definition with_disk (d : Disk) (w : World) : World :=
  {| w_disk := d; w_calls := w_calls w; w_index := w_index w |}.
Definition with_index (i : ValidationStoreIndex) (w : World) : World :=
  {| w_disk := w_disk w; w_calls := w_calls w; w_index := i |}.

Definition set_main (f : option File) (d : Disk) : Disk :=
  {| d_main := f; d_generation := d_generation d; d_siblings := d_siblings d |}.
Definition set_generation (g : option string) (d : Disk) : Disk :=
  {| d_main := d_main d; d_generation := g; d_siblings := d_siblings d |}.
Definition set_siblings (l : list (string * string)) (d : Disk) : Disk :=
  {| d_main := d_main d; d_generation := d_generation d; d_siblings := l |}.

(** * Effects and errors *)

Definition IO (A : Type) : Type := World -> result string A * World.

Definition ret {A} (a : A) : IO A := fun w => (Ok a, w).
Definition fail {A} (error : string) : IO A := fun w => (Err error, w).
Definition lift {A} (r : result string A) : IO A := fun w => (r, w).
Definition bind {A B} (m : IO A) (k : A -> IO B) : IO B :=
  fun w => match m w with (Ok a, w) => k a w | (Err error, w) => (Err error, w) end.
Definition gets {A} (f : World -> A) : IO A := fun w => (Ok (f w), w).
Definition modify (f : World -> World) : IO unit := fun w => (Ok tt, f w).
Definition modify_disk (f : Disk -> Disk) : IO unit := modify (fun w => with_disk (f (w_disk w)) w).
Definition modify_index (f : ValidationStoreIndex -> ValidationStoreIndex) : IO unit :=
  modify (fun w => with_index (f (w_index w)) w).

Declare Scope io_scope.
Delimit Scope io_scope with io.
Notation "x <-- m ; k" := (bind m (fun x => k))
  (at level 100, m at next level, right associativity) : io_scope.
Local Open Scope io_scope.

Definition next_call : IO Call :=
  fun w => match w_calls w with
           | [] => (Ok good_call, w)
           | c :: calls => (Ok c, {| w_disk := w_disk w; w_calls := calls; w_index := w_index w |})
           end.

(** A call without an effect; [context] begins its error. *)
Definition check (context : string) : IO unit :=
  c <-- next_call;
  match c_error c with Some error => fail (context +:+ error) | None => ret tt end.

(** * Paths *)

(** What is before the first call: the counter's own errors are those of its path. *)
Definition ensure_parent_identity : IO unit := check "".
Definition ensure_lock_identity : IO unit := _ <-- ensure_parent_identity; check "".
Definition open_lock : IO unit := _ <-- ensure_parent_identity; _ <-- ensure_lock_identity; check "".

(** The two files that are replaced as a whole. *)
Inductive Target := Main | Generation.

Definition file_of (t : Target) (d : Disk) : option string :=
  match t with Main => f_bytes <$> d_main d | Generation => d_generation d end.
Definition put_file (t : Target) (bytes : string) (stamp : Z) (d : Disk) : Disk :=
  match t with
  | Main => set_main (Some {| f_bytes := bytes; f_stamp := stamp |}) d
  | Generation => set_generation (Some bytes) d
  end.

(** Opening a file that exists, if it does. *)
Definition open_data_read (t : Target) : IO (option string) :=
  _ <-- ensure_parent_identity; _ <-- check ""; gets (fun w => file_of t (w_disk w)).

Definition lookup_sibling (name : string) (d : Disk) : option string :=
  snd <$> List.find (fun kv => kv.1 =? name) (d_siblings d).

Definition open_sibling_read (name : string) : IO (option string) :=
  _ <-- ensure_parent_identity; _ <-- check ""; gets (fun w => lookup_sibling name (w_disk w)).

Definition sibling_names : IO (list string) :=
  _ <-- ensure_parent_identity; _ <-- check "failed to list durable store parent: ";
  gets (fun w => fst <$> d_siblings (w_disk w)).

Definition replace_data_atomically_for_platform (t : Target) (bytes : string) : IO unit :=
  _ <-- check "";
  _ <-- check "failed to persist durable store temporary data: ";
  c <-- next_call;
  match c_error c with
  | Some error => fail ("failed to replace durable store data: " +:+ error)
  | None =>
      _ <-- modify_disk (put_file t bytes (c_stamp c));
      _ <-- check "";
      check "failed to sync durable store parent: "
  end.

Definition replace_data_atomically (t : Target) (bytes : string) : IO unit :=
  _ <-- ensure_parent_identity;
  _ <-- check "";
  _ <-- replace_data_atomically_for_platform t bytes;
  _ <-- ensure_parent_identity;
  o <-- open_data_read t;
  match o with Some _ => ret tt | None => fail "durable store data disappeared after replace" end.

Definition create_sibling_atomically_for_platform (name bytes : string) : IO unit :=
  _ <-- check "";
  _ <-- check "failed to persist durable store temporary data: ";
  _ <-- check "failed to publish durable store data without overwrite: ";
  _ <-- modify_disk (fun d => set_siblings (d_siblings d ++ [(name, bytes)]) d);
  _ <-- check "";
  check "failed to sync durable store parent: ".

Definition create_sibling_atomically (name bytes : string) : IO unit :=
  _ <-- ensure_parent_identity;
  _ <-- check "failed to inspect durable store data before create: ";
  existing <-- gets (fun w => lookup_sibling name (w_disk w));
  match existing with
  | Some _ => fail "durable store data already exists"
  | None =>
      _ <-- create_sibling_atomically_for_platform name bytes;
      _ <-- ensure_parent_identity;
      o <-- open_sibling_read name;
      match o with Some _ => ret tt | None => fail "durable store data disappeared after create" end
  end.

(** [map_err] with a beginning of the error. *)
Definition in_context {A} (context : string) (m : IO A) : IO A :=
  fun w => match m w with (Err error, w) => (Err (context +:+ error), w) | x => x end.

(** * Lines *)

Definition str_take (n : nat) (s : string) : string := String.substring 0 n s.

Definition ends_with_newline (bytes : string) : bool := ends_with (String NEWLINE "") bytes.

(** [BufRead::lines] without the errors: a carriage return before the end of a line
    is no part of it. *)
Definition strip_return (line : string) : string := default line (strip_suffix (String "013" "") line).

(** What is after the last newline is a line unless it is empty. *)
Definition file_lines (bytes : string) : list string :=
  let pieces := split_char NEWLINE bytes in
  if is_empty (List.last pieces "") then removelast pieces else pieces.

Section lines.
Context `{!RecordText}.

(** A line of the file; one that is no record is passed over. *)
Definition apply_line (latest : Latest) (line : string) : Latest :=
  if negb (utf8_valid line) then latest else
  let line := strip_return line in
  if (MAX_RECORD_BYTES <? byte_count line)%Z then latest else
  match record_from_str line with
  | Ok r => <[vr_artifact_id r := r]> latest
  | Err _ => latest
  end.

Fixpoint apply_strict_lines (path : string) (lines : list string) (latest : Latest) : result string Latest :=
  match lines with
  | [] => Ok latest
  | line :: lines =>
      if is_empty line || (MAX_RECORD_BYTES <? byte_count line)%Z
      then Err ("cat recording validation archive contains an invalid record: " +:+ path) else
      match record_from_slice line with
      | Err error => Err ("cat recording validation archive contains invalid JSON " +:+ path +:+ ": " +:+ error)
      | Ok r => apply_strict_lines path lines (<[vr_artifact_id r := r]> latest)
      end
  end.

Definition apply_strict_archive_records (path bytes : string) (latest : Latest) : result string Latest :=
  if is_empty bytes || negb (ends_with_newline bytes)
  then Err ("cat recording validation archive is incomplete: " +:+ path)
  else apply_strict_lines path (split_char NEWLINE (str_take (str_len bytes - 1) bytes)) latest.
End lines.

(** * The counter *)

Fixpoint zeros (n : nat) : string := match n with O => "" | S n => String "0" (zeros n) end.

(** [{:020}] *)
Definition pad20 (n : Z) : string :=
  let s := show_Z n in zeros (20 - str_len s) +:+ s.

Definition generation_invalid : string := "cat recording validation generation is invalid".

Definition parse_generation (bytes : string) : result string Z :=
  let digits := str_take 20 bytes in
  if negb (str_len bytes =? 21)%nat || negb (str_drop 20 bytes =? String NEWLINE "")
     || negb (str_forall is_ascii_digit digits)
  then Err generation_invalid
  else ok_or generation_invalid (parse_uint u64_max digits).

Definition read_generation_sidecar : IO (option Z) :=
  o <-- open_data_read Generation;
  match o with
  | None => ret None
  | Some bytes =>
      _ <-- check "failed to read validation generation: ";
      g <-- lift (parse_generation bytes); ret (Some g)
  end.

Definition advance_generation : IO Z :=
  o <-- read_generation_sidecar;
  generation <-- lift (ok_or "cat recording validation generation is exhausted" (u64_checked_add (default 0%Z o) 1));
  _ <-- in_context "failed to persist validation generation: "
          (replace_data_atomically Generation (pad20 generation +:+ String NEWLINE ""));
  ret generation.

Definition store_fingerprint : IO ValidationStoreFingerprint :=
  o <-- read_generation_sidecar;
  _ <-- open_data_read Main;
  main <-- gets (fun w => d_main (w_disk w));
  ret {| sf_generation := default 0%Z o;
         sf_main := (fun f => {| mf_len := byte_count (f_bytes f); mf_stamp := f_stamp f |}) <$> main |}.

(** * The store *)

Section store.
Context `{!RecordText}.
(** The directory and the name of the file, and when it is rotated. *)
Context (parent_path data_name : string) (compaction_threshold_bytes : Z).

Definition store_path : string := parent_path +:+ "/" +:+ data_name.

Definition archive_name (generation : Z) : string := data_name +:+ ".archive." +:+ pad20 generation +:+ ".jsonl".
Definition sibling_path (name : string) : string := parent_path +:+ "/" +:+ name.

Record ValidationArchiveSegment := { as_generation : Z; as_name : string }.

Definition by_generation (a b : ValidationArchiveSegment) : comparison :=
  Z.compare (as_generation a) (as_generation b).

Fixpoint collect_archives (names : list string) : result string (list ValidationArchiveSegment) :=
  match names with
  | [] => Ok []
  | name :: names =>
      if negb (utf8_valid name) then collect_archives names else
      match strip_prefix (data_name +:+ ".archive.") name with
      | None => collect_archives names
      | Some remainder =>
          match strip_suffix ".jsonl" remainder with
          | None => Err ("invalid cat recording validation archive name: " +:+ name)
          | Some generation_text =>
              if negb (str_len generation_text =? 20)%nat || negb (str_forall is_ascii_digit generation_text)
              then Err ("invalid cat recording validation archive generation: " +:+ name) else
              match parse_uint u64_max generation_text with
              | None => Err "invalid cat recording validation archive generation: number too large to fit in target type"
              | Some generation =>
                  (fun l => {| as_generation := generation; as_name := name |} :: l) <$> collect_archives names
              end
          end
      end
  end.

Definition archive_segments : IO (list ValidationArchiveSegment) :=
  names <-- sibling_names;
  archives <-- lift (collect_archives names);
  ret (sort_by by_generation archives).

Definition read_generation (archives : list ValidationArchiveSegment) : IO Z :=
  let max_archive_generation := as_generation <$> last archives in
  o <-- read_generation_sidecar;
  match o with
  | None =>
      match max_archive_generation with
      | Some _ => fail "cat recording validation generation is missing while archives exist"
      | None => ret 0%Z
      end
  | Some generation =>
      match max_archive_generation with
      | Some archive =>
          if (generation <? archive)%Z
          then fail "cat recording validation generation is behind immutable archives"
          else ret generation
      | None => ret generation
      end
  end.

Fixpoint scan_archives (archives : list ValidationArchiveSegment) (latest : Latest) : IO Latest :=
  match archives with
  | [] => ret latest
  | a :: archives =>
      o <-- open_sibling_read (as_name a);
      match o with
      | None => fail ("cat recording validation archive disappeared: " +:+ sibling_path (as_name a))
      | Some bytes =>
          if (MAX_STORE_BYTES <? byte_count bytes)%Z
          then fail ("cat recording validation archive exceeds " +:+ show_Z MAX_STORE_BYTES +:+ " bytes: "
                     +:+ sibling_path (as_name a)) else
          _ <-- check ("failed to read cat recording validation archive " +:+ sibling_path (as_name a) +:+ ": ");
          latest <-- lift (apply_strict_archive_records (sibling_path (as_name a)) bytes latest);
          scan_archives archives latest
      end
  end.

Definition store_too_large : string :=
  "cat recording validation store exceeds " +:+ show_Z MAX_STORE_BYTES +:+ " bytes".

Definition scan_latest_unlocked : IO Latest :=
  archives <-- archive_segments;
  _ <-- read_generation archives;
  latest <-- scan_archives archives ∅;
  o <-- open_data_read Main;
  match o with
  | None => ret latest
  | Some bytes =>
      if (MAX_STORE_BYTES <? byte_count bytes)%Z then fail store_too_large
      else ret (foldl apply_line latest (file_lines bytes))
  end.

(** * Writing *)

(** [write_all] at the end of the file. *)
Definition write_all (context bytes : string) : IO unit :=
  c <-- next_call;
  let written := match c_error c with Some _ => str_take (c_written c) bytes | None => bytes end in
  _ <-- modify_disk (fun d =>
          put_file Main (default "" (file_of Main d) +:+ written) (c_stamp c) d);
  match c_error c with Some error => fail (context +:+ error) | None => ret tt end.

(** Opening the file at its end, and making it first if there is none. *)
Definition open_data_append_create : IO unit :=
  _ <-- ensure_parent_identity;
  c <-- next_call;
  match c_error c with
  | Some error => fail error
  | None => modify_disk (fun d => match d_main d with Some _ => d | None => put_file Main "" (c_stamp c) d end)
  end.

Definition rotate_unlocked (line : string) (generation : Z) : IO unit :=
  o <-- open_data_read Main;
  match o with
  | None => fail "cat recording validation active segment disappeared"
  | Some current =>
      if (MAX_STORE_BYTES <? byte_count current)%Z then fail store_too_large else
      _ <-- check "failed to read active validation segment: ";
      let name := archive_name generation in
      _ <-- lift (apply_strict_archive_records (sibling_path name) current ∅);
      _ <-- in_context ("failed to publish cat recording validation archive " +:+ sibling_path name +:+ ": ")
              (create_sibling_atomically name current);
      in_context ("failed to rotate cat recording validation store " +:+ store_path +:+ ": ")
        (replace_data_atomically Main (line +:+ String NEWLINE ""))
  end.

Record ValidationStorePersistResult := { pr_fingerprint : ValidationStoreFingerprint; pr_compacted : bool }.

Definition persist_failed : string := "failed to persist cat validation record: ".

Definition append_unlocked (r : CatRecordingValidationRecord) : IO ValidationStorePersistResult :=
  line <-- lift (map_err (String.append "failed to serialize cat validation record: ") (record_to_vec r));
  if (MAX_RECORD_BYTES <? byte_count line)%Z then fail "cat recording validation record is too large" else
  let record_bytes := (byte_count line + 1)%Z in
  if (compaction_threshold_bytes <? record_bytes)%Z || (MAX_STORE_BYTES <? record_bytes)%Z
  then fail "cat recording validation record exceeds active segment limit" else
  o <-- open_data_read Main;
  let current_bytes := default 0%Z (byte_count <$> o) in
  let projected_bytes := u64_saturating_add current_bytes record_bytes in
  generation <-- advance_generation;
  compacted <--
    (if (0 <? current_bytes)%Z && (compaction_threshold_bytes <? projected_bytes)%Z
     then _ <-- rotate_unlocked line generation; ret true
     else
       _ <-- open_data_append_create;
       _ <-- write_all persist_failed line;
       _ <-- write_all persist_failed (String NEWLINE "");
       _ <-- check persist_failed;
       ret false);
  fingerprint <-- store_fingerprint;
  ret {| pr_fingerprint := fingerprint; pr_compacted := compacted |}.

Definition persist_index_record (r : CatRecordingValidationRecord) : IO CatRecordingValidationRecord :=
  persisted <-- append_unlocked r;
  _ <-- modify_index (fun i =>
          {| ix_initialized := ix_initialized i; ix_latest := <[vr_artifact_id r := r]> (ix_latest i);
             ix_fingerprint := Some (pr_fingerprint persisted);
             ix_compaction_count := if pr_compacted persisted then u64_saturating_add (ix_compaction_count i) 1
                                    else ix_compaction_count i;
             ix_disk_scan_count := ix_disk_scan_count i |});
  ret r.

(** * Repair *)

Definition inspect_failed : string := "failed to inspect cat recording validation store " +:+ store_path +:+ ": ".
Definition scan_failed : string := "failed to scan cat recording validation store " +:+ store_path +:+ ": ".
Definition repair_failed : string := "failed to repair cat recording validation store " +:+ store_path +:+ ": ".

(** [rposition] of a newline *)
Fixpoint last_newline (s : string) : option nat :=
  match s with
  | "" => None
  | String a r =>
      match last_newline r with
      | Some i => Some (S i)
      | None => if Ascii.eqb a NEWLINE then Some 0%nat else None
      end
  end.

(** The loop over the chunks, from the end. A round takes a byte at least, so that the
    rounds do not run out before the bytes. *)
Fixpoint find_truncation (rounds : nat) (bytes : string) (position : Z) : IO Z :=
  match rounds with
  | O => ret 0%Z
  | S rounds =>
      let chunk_len := Z.min position SCAN_CHUNK_BYTES in
      let position := (position - chunk_len)%Z in
      _ <-- check scan_failed;
      match last_newline (bytes_at position chunk_len bytes) with
      | Some newline_index => ret (position + Z.of_nat newline_index + 1)%Z
      | None => if (position =? 0)%Z then ret 0%Z else find_truncation rounds bytes position
      end
  end.

(** [set_len] *)
Definition set_len (truncate_to : Z) : IO unit :=
  c <-- next_call;
  match c_error c with
  | Some error => fail (repair_failed +:+ error)
  | None =>
      modify_disk (fun d =>
        put_file Main (str_take (Z.to_nat truncate_to) (default "" (file_of Main d))) (c_stamp c) d)
  end.

Definition repair_validation_store_truncated_tail : IO bool :=
  o <-- open_data_read Main;
  match o with
  | None => ret false
  | Some bytes =>
      if is_empty bytes then ret false else
      _ <-- check inspect_failed;
      _ <-- check inspect_failed;
      if ends_with_newline bytes then ret false else
      truncate_to <-- find_truncation (str_len bytes) bytes (byte_count bytes);
      _ <-- set_len truncate_to;
      _ <-- check repair_failed;
      ret true
  end.

(** * The index *)

Definition refresh_index_if_needed : IO unit :=
  fingerprint <-- store_fingerprint;
  index <-- gets w_index;
  if ix_initialized index && bool_decide (ix_fingerprint index = Some fingerprint) then ret tt else
  latest <-- scan_latest_unlocked;
  fingerprint <-- store_fingerprint;
  modify_index (fun i =>
    {| ix_initialized := true; ix_latest := latest; ix_fingerprint := Some fingerprint;
       ix_compaction_count := ix_compaction_count i;
       ix_disk_scan_count := u64_saturating_add (ix_disk_scan_count i) 1 |}).

Definition forget (i : ValidationStoreIndex) : ValidationStoreIndex :=
  {| ix_initialized := false; ix_latest := ix_latest i; ix_fingerprint := ix_fingerprint i;
     ix_compaction_count := ix_compaction_count i; ix_disk_scan_count := ix_disk_scan_count i |}.

(** What follows whether [m] succeeds or not; its own error comes second. *)
Definition finally {A} (m : IO A) (last : IO unit) : IO A :=
  fun w =>
    let (result, w) := m w in
    let (last_result, w) := last w in
    (match result, last_result with
     | Ok value, Ok _ => Ok value
     | Err error, _ => Err error
     | Ok _, Err error => Err error
     end, w).

Definition with_locked_index {A} (operation : IO A) : IO A :=
  c <-- next_call;
  match c_error c with
  | Some _ => fail "cat recording validation store index lock is unavailable"
  | None =>
      _ <-- open_lock;
      _ <-- check ("failed to lock cat recording validation store " +:+ store_path +:+ ": ");
      finally
        (_ <-- ensure_lock_identity;
         _ <-- ensure_parent_identity;
         _ <-- ensure_parent_identity;
         repaired <-- repair_validation_store_truncated_tail;
         _ <-- (if (repaired : bool) then modify_index forget else ret tt);
         _ <-- refresh_index_if_needed;
         operation)
        (check ("failed to unlock cat recording validation store " +:+ store_path +:+ ": "))
  end.

(** * Operations *)

Fixpoint persist_all (records : list CatRecordingValidationRecord) : IO unit :=
  match records with
  | [] => ret tt
  | r :: records => _ <-- persist_index_record r; persist_all records
  end.

(** An operation of the store, from what it decides. *)
Definition run {A} (q : Request A) : IO A :=
  plan <-- lift q;
  with_locked_index
    (latest <-- gets (fun w => ix_latest (w_index w));
     x <-- lift (plan latest);
     _ <-- persist_all x.1;
     ret x.2).

Definition mark_artifact_discard_pending (artifact_id : string) (mode : CatRecordingValidationMode) (now : Z)
    (uuid : string) : IO CatRecordingValidationRecord :=
  o <-- run (claim_artifact_discard artifact_id mode now DEFAULT_ARTIFACT_DISCARD_CLAIM_LEASE_MS uuid);
  lift (ok_or "cat recording discard intent is already claimed" o).

Definition records_for_artifacts (artifact_ids : gset string) : IO Latest :=
  if bool_decide (artifact_ids = ∅) then ret ∅ else run (select_records artifact_ids).
End store.
