(* ===== verification/CatStoreLemmas.v ===== *)
(** Facts on the lines of the file of validations, its counter and its torn end; and
    rules for effects on it: what a computation answers when it only reads, and what
    it may leave when calls to the system fail, or stop half way, anywhere in it. *)
From Stdlib Require Import Ascii.
From stdpp Require Import gmap pretty.
From stdpp Require Import gmap.
From S2P Require Import Prelude RustString UrlPath RemoteView StringSearch VisionStore CatRecords TaskStore.
From S2P Require Import CatQueue CatStore.
Local Open Scope string_scope.
Local Open Scope list_scope.

(** * The counter *)

Lemma pretty_N_go_length k (x : N) s :
  (x < 10 ^ N.of_nat k)%N -> (str_len (pretty_N_go x s) <= k + str_len s)%nat.
Proof.
  revert x s. induction k as [|k IH]; intros x s Hx.
  { change (10 ^ N.of_nat 0)%N with 1%N in Hx. assert (x = 0)%N as -> by lia. by rewrite pretty_N_go_0. }
  destruct (decide (x = 0)%N) as [->|Hx0]; [rewrite pretty_N_go_0; apply Nat.le_add_l|].
  rewrite pretty_N_go_step by lia. rewrite Nat2N.inj_succ, N.pow_succ_r' in Hx.
  etransitivity; [apply IH, N.Div0.div_lt_upper_bound; lia|]. unfold str_len. cbn [String.length]. lia.
Qed.

Lemma show_Z_length z : (0 <= z <= u64_max)%Z -> (str_len (show_Z z) <= 20)%nat.
Proof.
  intros Hz. unfold show_Z. destruct z as [|p|p]; [vm_compute; lia| |lia].
  change (pretty (Z.pos p)) with (pretty_N_go (N.pos p) "").
  etransitivity; [apply (pretty_N_go_length 20)|cbn; lia]. change (10 ^ N.of_nat 20)%N with 100000000000000000000%N.
  unfold u64_max in Hz. lia.
Qed.

Lemma str_len_zeros n : str_len (zeros n) = n.
Proof. induction n; cbn; [done|]. by f_equal. Qed.

Lemma digits_zeros n : str_forall is_ascii_digit (zeros n) = true.
Proof. by induction n. Qed.

Lemma parse_digits_zeros max n s : (0 <= max)%Z -> parse_digits max 0 (zeros n +:+ s) = parse_digits max 0 s.
Proof.
  intros Hmax. induction n as [|n IH]; [done|]. cbn [zeros String.append parse_digits].
  change (is_ascii_digit "0") with true. change (10 * 0 + digit_value "0")%Z with 0%Z. cbn match.
  by rewrite (proj2 (Z.leb_le 0 max)).
Qed.

Lemma parse_uint_digits max s :
  s <> "" -> str_forall is_ascii_digit s = true -> parse_uint max s = parse_digits max 0 s.
Proof.
  destruct s as [|a s]; [done|]. intros _. cbn [str_forall parse_uint]. intros [Ha _]%andb_true_iff.
  destruct (Ascii.eqb_spec a "+") as [->|]; [done|done].
Qed.

Lemma pad20_facts n :
  (0 <= n <= u64_max)%Z ->
  str_len (pad20 n) = 20%nat /\ str_forall is_ascii_digit (pad20 n) = true
  /\ parse_uint u64_max (pad20 n) = Some n.
Proof.
  intros Hn. pose proof (show_Z_length n Hn). pose proof (show_Z_digits n ltac:(lia)) as Hd.
  pose proof (parse_show_Z u64_max n Hn) as Hp. pose proof (show_Z_not_empty n ltac:(lia)) as Hne.
  assert (str_forall is_ascii_digit (pad20 n) = true) as Hd'.
  { unfold pad20. by rewrite str_forall_app, digits_zeros, Hd. }
  split; [|split; [done|]].
  - unfold pad20. rewrite str_len_app, str_len_zeros. lia.
  - rewrite parse_uint_digits in Hp by done. rewrite parse_uint_digits; [|intros E|done].
    + unfold pad20. by rewrite parse_digits_zeros.
    + apply (f_equal str_len) in E. unfold pad20 in E. rewrite str_len_app, str_len_zeros in E. cbn in E. lia.
Qed.

Lemma pad20_inj m n : (0 <= m <= u64_max)%Z -> (0 <= n <= u64_max)%Z -> pad20 m = pad20 n -> m = n.
Proof.
  intros Hm Hn E. destruct (pad20_facts m Hm) as (_ & _ & Pm), (pad20_facts n Hn) as (_ & _ & Pn). congruence.
Qed.

Lemma substring_app_l s t : String.substring 0 (str_len s) (s +:+ t) = s.
Proof. induction s as [|a s IH]; cbn; [by destruct t|]. by f_equal. Qed.

Lemma take_app s t : str_take (str_len s) (s +:+ t) = s.
Proof. apply substring_app_l. Qed.

Lemma parse_generation_pad n : (0 <= n <= u64_max)%Z -> parse_generation (pad20 n +:+ String NEWLINE "") = Ok n.
Proof.
  intros Hn. destruct (pad20_facts n Hn) as (Hl & Hd & Hp). unfold parse_generation.
  pose proof (take_app (pad20 n) (String NEWLINE "")) as Ht. pose proof (str_drop_app (pad20 n) (String NEWLINE "")) as Hdr.
  rewrite Hl in Ht, Hdr. by rewrite Ht, Hdr, str_len_app, Hl, Hd, Hp.
Qed.

(** * Lines *)

Lemma str_len_Z s : byte_count s = Z.of_nat (str_len s).
Proof. done. Qed.

Lemma byte_count_app s t : byte_count (s +:+ t) = (byte_count s + byte_count t)%Z.
Proof. unfold byte_count. rewrite str_len_app. lia. Qed.

Lemma str_rev_not_empty s : s <> "" -> str_rev s <> "".
Proof. intros Hs E. apply Hs. by rewrite <- (str_rev_involutive s), E. Qed.

Lemma ends_with_app s c : ends_with (String c "") (s +:+ String c "") = true.
Proof. unfold ends_with. rewrite str_rev_app. unfold starts_with. cbn. by destruct (ascii_dec c c), (str_rev s). Qed.

Lemma unlines_ends lines : lines <> [] -> ends_with_newline (unlines lines) = true /\ unlines lines <> "".
Proof.
  destruct lines as [|x lines _] using rev_ind; [done|]. intros _. rewrite unlines_snoc, <- str_app_assoc. split.
  - apply ends_with_app.
  - destruct (unlines lines +:+ x); done.
Qed.

Lemma lacks_app c s t : lacks c (s +:+ t) = lacks c s && lacks c t.
Proof. apply str_forall_app. Qed.

Lemma ends_in_piece s t : t <> "" -> lacks NEWLINE t = true -> ends_with_newline (s +:+ t) = false.
Proof.
  intros Ht Hl. destruct t as [|a t]; [done|]. destruct (str_snoc a t) as (u & c & E). rewrite E in *.
  rewrite lacks_app in Hl. apply andb_true_iff in Hl as [_ Hc]. unfold lacks in Hc. cbn in Hc.
  rewrite andb_true_r in Hc. apply negb_true_iff, Ascii.eqb_neq in Hc.
  rewrite <- str_app_assoc. unfold ends_with_newline, ends_with. rewrite str_rev_app. unfold starts_with.
  destruct (ascii_dec NEWLINE c) as [Ec|Ec]; [by subst|]. change (str_rev (String NEWLINE "")) with (String NEWLINE "").
  change (str_rev (String c "")) with (String c ""). cbn [String.append String.prefix]. by destruct (ascii_dec NEWLINE c).
Qed.

Lemma file_lines_unlines lines :
  Forall (fun line => lacks NEWLINE line = true) lines -> file_lines (unlines lines) = lines.
Proof.
  intros Hl. unfold file_lines. rewrite split_unlines by done. rewrite last_last, removelast_last. done.
Qed.

(** Its last newline taken away, a text has the lines it was made of. *)
Lemma split_without_end lines :
  lines <> [] -> Forall (fun line => lacks NEWLINE line = true) lines ->
  split_char NEWLINE (str_take (str_len (unlines lines) - 1) (unlines lines)) = lines.
Proof.
  destruct lines as [|x lines _] using rev_ind; [done|]. intros _ Hl.
  apply Forall_app in Hl as [Hl Hx%Forall_inv]. rewrite unlines_snoc, <- str_app_assoc, str_len_app.
  change (str_len (String "010" "")) with 1%nat. rewrite Nat.add_sub, take_app.
  clear -Hl Hx. induction Hl as [|y lines Hy _ IH]; cbn [unlines app]; [by apply split_char_none|].
  rewrite str_app_assoc. cbn [String.append]. change NEWLINE with "010"%char in *.
  by rewrite split_char_app, IH, split_char_none.
Qed.

(** * The torn end *)

Lemma last_newline_none s : last_newline s = None <-> lacks NEWLINE s = true.
Proof.
  induction s as [|a s IH]; [done|]. unfold lacks in *. cbn [last_newline str_forall].
  destruct (last_newline s) as [i|].
  - split; [done|]. intros [_ Hs]%andb_true_iff. apply IH in Hs. done.
  - rewrite (proj1 IH) by done. by destruct (Ascii.eqb a NEWLINE).
Qed.

Lemma last_newline_app s t : lacks NEWLINE t = true -> last_newline (s +:+ String NEWLINE t) = Some (str_len s).
Proof.
  intros Ht. induction s as [|a s IH]; cbn [String.append last_newline].
  - apply last_newline_none in Ht. by rewrite Ht.
  - by rewrite IH.
Qed.

Lemma last_newline_some s i : last_newline s = Some i -> exists a b, s = a +:+ String NEWLINE b /\ str_len a = i /\ lacks NEWLINE b = true.
Proof.
  revert i. induction s as [|a s IH]; intros i; [done|]. cbn [last_newline].
  destruct (last_newline s) as [j|] eqn:E.
  - intros [= <-]. destruct (IH j eq_refl) as (x & y & -> & <- & Hy). by exists (String a x), y.
  - destruct (Ascii.eqb_spec a NEWLINE) as [->|]; [|done]. intros [= <-]. exists "", s.
    by rewrite <- last_newline_none.
Qed.

(** * Rules for effects *)

(** No call to come fails. *)
Definition calm (calls : list Call) : Prop := Forall (fun c => c_error c = None) calls.

(** From the files [d] and the index [i], [m] ends with [Q] of its answer and of what
    is left, or, when calls fail or for the reason [T], with an error and [E] of what
    is left. *)
Definition does {A} (T : Prop) (d : Disk) (i : ValidationStoreIndex) (m : IO A)
    (Q : A -> Disk -> ValidationStoreIndex -> Prop) (E : Disk -> ValidationStoreIndex -> Prop) : Prop :=
  forall calls,
    let (r, w) := m {| w_disk := d; w_calls := calls; w_index := i |} in
    (calm calls -> calm (w_calls w))
    /\ match r with
       | Ok a => Q a (w_disk w) (w_index w)
       | Err _ => (~ calm calls \/ T) /\ E (w_disk w) (w_index w)
       end.

(** It only reads, and answers [a] unless a call fails. *)
Definition reads {A} (d : Disk) (i : ValidationStoreIndex) (m : IO A) (a : A) : Prop :=
  does False d i m (fun b d' i' => b = a /\ d' = d /\ i' = i) (fun d' i' => d' = d /\ i' = i).

Section rules.
Context {A B : Type} (T : Prop) (d : Disk) (i : ValidationStoreIndex).
Implicit Types (Q : A -> Disk -> ValidationStoreIndex -> Prop) (R : B -> Disk -> ValidationStoreIndex -> Prop)
  (E : Disk -> ValidationStoreIndex -> Prop).

Lemma does_bind (m : IO A) (k : A -> IO B) Q R E :
  does T d i m Q E -> (forall a d' i', Q a d' i' -> does T d' i' (k a) R E) -> does T d i (bind m k) R E.
Proof.
  unfold does, bind. intros Hm Hk calls. specialize (Hm calls). destruct (m _) as [[a|e] [d' calls' i']]; [|done].
  destruct Hm as [Hc Hr]. specialize (Hk a d' i' Hr calls'). cbn in Hc.
  destruct (k a _) as [[b|e] w'']; destruct Hk as [Hc' Hk]; (split; [by auto|]); [done|].
  destruct Hk as [[Hn|Hn] He]; split; auto.
Qed.

Lemma does_mono (U : Prop) (m : IO A) Q Q' E F :
  does U d i m Q E -> (U -> T) -> (forall a d' i', Q a d' i' -> Q' a d' i') -> (forall d' i', E d' i' -> F d' i') ->
  does T d i m Q' F.
Proof.
  intros Hm HT HQ HE calls. specialize (Hm calls). destruct (m _) as [[a|e] w]; destruct Hm as [Hc H]; (split; [done|]).
  - by apply HQ.
  - destruct H as [[] He]; auto.
Qed.

Lemma does_ret (a : A) Q E : Q a d i -> does T d i (ret a) Q E.
Proof. by split. Qed.

Lemma does_fail e Q E : T -> E d i -> does T d i (fail e) Q E.
Proof. split; [done|]. split; [by right|done]. Qed.

Lemma does_modify_disk f (Q : unit -> Disk -> ValidationStoreIndex -> Prop) E : Q tt (f d) i -> does T d i (modify_disk f) Q E.
Proof. by split. Qed.

Lemma does_modify_index f (Q : unit -> Disk -> ValidationStoreIndex -> Prop) E : Q tt d (f i) -> does T d i (modify_index f) Q E.
Proof. by split. Qed.

Lemma does_in_context context (m : IO A) Q E : does T d i m Q E -> does T d i (in_context context m) Q E.
Proof. intros Hm calls. specialize (Hm calls). unfold in_context. by destruct (m _) as [[a|e] w']. Qed.

(** The next call, which fails or not. *)
Lemma does_call (k : Call -> IO A) Q E :
  (forall c, does (T \/ c_error c <> None) d i (k c) Q E) -> does T d i (bind next_call k) Q E.
Proof.
  intros Hk [|c calls]; unfold bind, next_call; cbn.
  - specialize (Hk good_call []). destruct (k good_call _) as [[a|e] w]; destruct Hk as [Hc Hk]; (split; [done|]); [done|].
    destruct Hk as [Hr He]. split; [|done]. destruct Hr as [|[|Hr]]; auto.
  - specialize (Hk c calls). unfold calm in *.
    destruct (k c _) as [[a|e] w]; destruct Hk as [Hc Hk]; rewrite Forall_cons; (split; [tauto|]); [done|].
    destruct Hk as [Hr He]. split; [|done]. destruct Hr as [Hr|[Hr|Hr]]; tauto.
Qed.

(** A reading before what may write. *)
Lemma does_reads (m : IO A) (k : A -> IO B) a R E :
  reads d i m a -> E d i -> does T d i (k a) R E -> does T d i (bind m k) R E.
Proof.
  intros Hm HE Hk. apply (does_bind m k (fun b d' i' => b = a /\ d' = d /\ i' = i)).
  - intros calls. specialize (Hm calls). destruct (m _) as [[b|e] w]; destruct Hm as [Hc H]; (split; [done|]); [done|].
    destruct H as [[] [-> ->]]; auto.
  - by intros b d' i' (-> & -> & ->).
Qed.

(** What follows an action only reads. *)
Lemma does_finally (m : IO A) last Q E :
  does T d i m Q E -> (forall d' i', reads d' i' last tt) -> (forall a d' i', Q a d' i' -> E d' i') ->
  does T d i (finally m last) Q E.
Proof.
  intros Hm Hl HE calls. specialize (Hm calls). unfold finally. destruct (m _) as [r [d' calls' i']].
  specialize (Hl d' i' calls'). destruct (last _) as [r' w]. destruct Hm as [Hc Hm], Hl as [Hc' Hl]. cbn in *.
  assert (w_disk w = d' /\ w_index w = i') as [Hwd Hwi] by by destruct r'; [destruct Hl as (_ & ? & ?)|destruct Hl as [_ [? ?]]].
  rewrite Hwd, Hwi. split; [by auto|]. destruct r as [a|e]; [|done]. destruct r' as [[]|e]; [done|].
  destruct Hl as [[Hn|[]] _]. split; [left; tauto|by eapply HE].
Qed.
End rules.

(** * Computations that only read *)

Section reads.
Context (d : Disk) (i : ValidationStoreIndex).

Lemma reads_ret {A} (a : A) : reads d i (ret a) a.
Proof. by apply does_ret. Qed.

Lemma reads_disk {A} (f : Disk -> A) : reads d i (gets (fun w => f (w_disk w))) (f d).
Proof. by split. Qed.

Lemma reads_index {A} (f : ValidationStoreIndex -> A) : reads d i (gets (fun w => f (w_index w))) (f i).
Proof. by split. Qed.

Lemma reads_lift {A} r (a : A) : r = Ok a -> reads d i (lift r) a.
Proof. intros ->. by split. Qed.

Lemma reads_bind {A B} (m : IO A) (k : A -> IO B) a b :
  reads d i m a -> reads d i (k a) b -> reads d i (bind m k) b.
Proof. intros Hm Hk. apply (does_reads False d i m k a); [done|done|exact Hk]. Qed.

Lemma reads_check context : reads d i (check context) tt.
Proof. apply does_call. intros c. destruct (c_error c); [apply does_fail|apply does_ret]; auto. Qed.

Lemma reads_parent : reads d i ensure_parent_identity tt.
Proof. apply reads_check. Qed.
End reads.

Create HintDb reads.
#[export] Hint Resolve reads_ret reads_disk reads_index reads_check reads_parent : reads.
#[export] Hint Extern 5 (reads _ _ (lift _) _) => apply reads_lift; eassumption : reads.
#[export] Hint Extern 6 (reads _ _ (bind _ _) _) => eapply reads_bind : reads.

Ltac solve_reads := eauto 40 with reads.

Section paths.
Context (d : Disk) (i : ValidationStoreIndex).

Lemma reads_open_data t : reads d i (open_data_read t) (file_of t d).
Proof. unfold open_data_read. repeat (eapply reads_bind; [solve_reads|]). exact (reads_disk d i (file_of t)). Qed.

Lemma reads_open_sibling name : reads d i (open_sibling_read name) (lookup_sibling name d).
Proof. unfold open_sibling_read. repeat (eapply reads_bind; [solve_reads|]). exact (reads_disk d i (lookup_sibling name)). Qed.

Lemma reads_names : reads d i sibling_names (fst <$> d_siblings d).
Proof. unfold sibling_names. repeat (eapply reads_bind; [solve_reads|]). exact (reads_disk d i (fun d => fst <$> d_siblings d)). Qed.

Lemma reads_lock_identity : reads d i ensure_lock_identity tt.
Proof. eapply reads_bind; apply reads_check. Qed.

Lemma reads_open_lock : reads d i open_lock tt.
Proof. eapply reads_bind; [apply reads_check|]. eapply reads_bind; [apply reads_lock_identity|apply reads_check]. Qed.
End paths.
