(* ===== verification/CatStoreWrites.v ===== *)
(** What the file of validations and its archives hold, and that reading them gives
    it: the representation that the operations of the store keep; and what writing to
    the file leaves, wherever it is cut short. *)
From Stdlib Require Import Ascii.
From stdpp Require Import gmap.
From S2P Require Import Prelude RustString UrlPath RemoteView StringSearch VisionStore CatRecords TaskStore CatQueue CatStore CatStoreLemmas.
Local Open Scope string_scope.
Local Open Scope list_scope.

(** * Text *)

Lemma utf8_valid_app s t : utf8_valid s = true -> utf8_valid (s +:+ t) = utf8_valid t.
Proof.
  remember (str_len s) as n eqn:Hn. revert s Hn. induction (lt_wf n) as [n _ IH]. intros s Hn.
  destruct s as [|a s]; [done|]. cbn [utf8_valid String.append].
  destruct (byte a <? 128)%N; [intros; eapply IH; [|done|done]; cbn in Hn; unfold str_len; lia|].
  destruct s as [|b s]; [done|]. cbn [String.append].
  destruct (byte_in 194 223 a).
  { intros [Hb Hs]%andb_true_iff. rewrite Hb. eapply IH; [|done|done]. cbn in Hn. unfold str_len. lia. }
  destruct s as [|c s]; [done|]. cbn [String.append]. destruct (byte_in 224 239 a).
  { intros [[Hb Hc]%andb_true_iff Hs]%andb_true_iff. rewrite Hb, Hc. eapply IH; [|done|done]. cbn in Hn. unfold str_len. lia. }
  destruct s as [|e s]; [done|]. cbn [String.append].
  intros [[[[Ha Hb]%andb_true_iff Hc]%andb_true_iff He]%andb_true_iff Hs]%andb_true_iff.
  rewrite Ha, Hb, Hc, He. eapply IH; [|done|done]. cbn in Hn. unfold str_len. lia.
Qed.

Lemma utf8_digits s : str_forall is_ascii_digit s = true -> utf8_valid s = true.
Proof.
  induction s as [|a s IH]; [done|]. cbn [str_forall utf8_valid]. intros [Ha Hs]%andb_true_iff.
  assert ((byte a <? 128)%N = true) as ->; [|by apply IH].
  unfold is_ascii_digit, byte_in in Ha. apply andb_true_iff in Ha as [_ Ha%N.leb_le]. apply N.ltb_lt. lia.
Qed.

Section scan.
Context `{!RecordText}.
Context (parent_path data_name : string) (compaction_threshold_bytes : Z).
Abbreviation archive_name := (archive_name data_name).
Abbreviation sibling_path := (sibling_path parent_path).

(** * The representation *)

(** [line] is how the record is written, and it is read back: what compact JSON text
    does, within the limit on its length. *)
Record writes_as (r : CatRecordingValidationRecord) (line : string) : Prop := {
  wa_vec : record_to_vec r = Ok line;
  wa_line : lacks NEWLINE line = true;
  wa_utf8 : utf8_valid line = true;
  wa_return : strip_return line = line;
  wa_size : (0 < byte_count line <= MAX_RECORD_BYTES)%Z;
  wa_str : record_from_str line = Ok r;
  wa_slice : record_from_slice line = Ok r
}.

(** Records whose line is not too long are read back. *)
Class RecordTextLaws : Prop := record_text_law r line :
  record_to_vec r = Ok line -> (byte_count line <= MAX_RECORD_BYTES)%Z -> writes_as r line.

Definition line_of (r : CatRecordingValidationRecord) : string := default "" (res_ok (record_to_vec r)).
Definition fine (r : CatRecordingValidationRecord) : Prop := writes_as r (line_of r).

Definition segment (records : list CatRecordingValidationRecord) : string := unlines (line_of <$> records).

(** Not the name of an archive, nor taken for one. *)
Definition foreign (name : string) : bool :=
  negb (utf8_valid name) || negb (is_some (strip_prefix (data_name +:+ ".archive.") name)).

Definition archive_entry (a : Z * list CatRecordingValidationRecord) : string * string := (archive_name a.1, segment a.2).

Definition native (entry : string * string) : bool := negb (foreign entry.1).

(** The archives, each with its number, hold the records [archives]; the file holds
    the records [current] and then [torn], the part of a line; the counter's file
    holds [g]. *)
Record holds (d : Disk) (archives : list (Z * list CatRecordingValidationRecord))
    (current : list CatRecordingValidationRecord) (torn : string) (g : Z) : Prop := {
  h_current : Forall fine current;
  h_archived : Forall (fun a => Forall fine a.2 /\ a.2 <> [] /\ (byte_count (segment a.2) <= compaction_threshold_bytes)%Z
                                /\ (0 <= a.1 <= g)%Z) archives;
  h_ascending : StronglySorted Z.lt archives.*1;
  h_main : match d_main d with
           | None => current = [] /\ torn = ""
           | Some f => f_bytes f = segment current +:+ torn
           end;
  h_torn : lacks NEWLINE torn = true;
  h_size : (byte_count (segment current +:+ torn) <= compaction_threshold_bytes)%Z;
  h_counter : match d_generation d with
              | None => g = 0%Z /\ archives = []
              | Some bytes => bytes = pad20 g +:+ String NEWLINE ""
              end;
  h_range : (0 <= g <= u64_max)%Z;
  h_siblings : List.filter native (d_siblings d) ≡ₚ archive_entry <$> archives
}.

Definition contents (archives : list (Z * list CatRecordingValidationRecord))
    (current : list CatRecordingValidationRecord) : Latest :=
  put_records current (put_records (concat archives.*2) ∅).

Context (Hname : utf8_valid data_name = true).
Context (Hthreshold : (0 < compaction_threshold_bytes <= MAX_STORE_BYTES)%Z).

(** * Segments *)

Lemma segment_snoc l r : segment (l ++ [r]) = segment l +:+ line_of r +:+ String NEWLINE "".
Proof. unfold segment. by rewrite fmap_app, <- unlines_snoc. Qed.

Lemma fine_lacks l : Forall fine l -> Forall (fun line => lacks NEWLINE line = true) (line_of <$> l).
Proof. intros Hf. apply Forall_fmap. eapply Forall_impl; [exact Hf|]. intros r. apply wa_line. Qed.

Lemma segment_lines l : Forall fine l -> file_lines (segment l) = line_of <$> l.
Proof. intros Hf. by apply file_lines_unlines, fine_lacks. Qed.

Lemma apply_line_fine m r : fine r -> apply_line m (line_of r) = put_record m r.
Proof.
  intros Hf. unfold apply_line. rewrite (wa_utf8 _ _ Hf), (wa_return _ _ Hf), (wa_str _ _ Hf). cbn [negb].
  destruct (wa_size _ _ Hf) as [_ Hs]. by rewrite (proj2 (Z.ltb_ge _ _) Hs).
Qed.

Lemma apply_segment l m : Forall fine l -> foldl apply_line m (file_lines (segment l)) = put_records l m.
Proof.
  intros Hf. rewrite segment_lines by done. clear Hname Hthreshold. revert m.
  induction Hf as [|r l Hr _ IH]; intros m; [done|]. cbn [fmap list_fmap foldl put_records].
  by rewrite apply_line_fine, IH.
Qed.

Lemma strict_lines path l m : Forall fine l -> apply_strict_lines path (line_of <$> l) m = Ok (put_records l m).
Proof.
  intros Hf. clear Hname Hthreshold. revert m. induction Hf as [|r l Hr _ IH]; intros m; [done|].
  cbn [fmap list_fmap apply_strict_lines]. destruct (wa_size _ _ Hr) as [H0 Hs].
  rewrite (proj2 (Z.ltb_ge _ _) Hs), (wa_slice _ _ Hr).
  destruct (is_empty (line_of r)) eqn:E; [apply is_empty_true in E; rewrite E in H0; by vm_compute in H0|].
  cbn [orb]. by rewrite IH.
Qed.

Lemma strict_segment path l m :
  Forall fine l -> l <> [] -> apply_strict_archive_records path (segment l) m = Ok (put_records l m).
Proof.
  intros Hf Hl. unfold apply_strict_archive_records, segment.
  assert (line_of <$> l <> []) as Hne by (by destruct l).
  destruct (unlines_ends _ Hne) as [-> He%is_empty_false]. rewrite He. cbn [negb orb].
  rewrite split_without_end by (done || by apply fine_lacks). by apply strict_lines.
Qed.

(** * Archives *)

Lemma archive_name_prefix g : strip_prefix (data_name +:+ ".archive.") (archive_name g) = Some (pad20 g +:+ ".jsonl").
Proof. unfold CatStore.archive_name. rewrite <- (str_app_assoc data_name). apply strip_prefix_app. Qed.

Lemma archive_name_utf8 g : (0 <= g <= u64_max)%Z -> utf8_valid (archive_name g) = true.
Proof.
  intros Hg. unfold CatStore.archive_name. rewrite utf8_valid_app by done. cbn [String.append].
  change (utf8_valid (pad20 g +:+ ".jsonl") = true). destruct (pad20_facts g Hg) as (_ & Hd & _).
  by rewrite utf8_valid_app by by apply utf8_digits.
Qed.

Lemma archive_native g : (0 <= g <= u64_max)%Z -> foreign (archive_name g) = false.
Proof. intros Hg. unfold foreign. by rewrite archive_name_utf8, archive_name_prefix. Qed.

Lemma archive_name_inj g g' :
  (0 <= g <= u64_max)%Z -> (0 <= g' <= u64_max)%Z -> archive_name g = archive_name g' -> g = g'.
Proof.
  intros Hg Hg' E. pose proof (archive_name_prefix g) as P. rewrite E, archive_name_prefix in P. injection P as P.
  apply pad20_inj; [done..|]. apply (f_equal (strip_suffix ".jsonl")) in P. rewrite !strip_suffix_app in P. congruence.
Qed.

Definition archive_segment (g : Z) : ValidationArchiveSegment := {| as_generation := g; as_name := archive_name g |}.

Lemma collect_native g names :
  (0 <= g <= u64_max)%Z ->
  collect_archives data_name (archive_name g :: names)
  = (fun l => archive_segment g :: l) <$> collect_archives data_name names.
Proof.
  intros Hg. cbn [collect_archives]. rewrite archive_name_utf8, archive_name_prefix, strip_suffix_app by done.
  destruct (pad20_facts g Hg) as (-> & -> & ->). done.
Qed.

Lemma collect_foreign name names :
  foreign name = true -> collect_archives data_name (name :: names) = collect_archives data_name names.
Proof.
  unfold foreign. intros Hf. cbn [collect_archives]. destruct (utf8_valid name); [|done]. cbn in Hf |- *.
  by destruct (strip_prefix _ name).
Qed.

Lemma collect_entries (entries : list (string * string)) (archives : list (Z * list CatRecordingValidationRecord)) :
  Forall (fun a => 0 <= a.1 <= u64_max)%Z archives -> List.filter native entries = archive_entry <$> archives ->
  collect_archives data_name entries.*1 = Ok (archive_segment <$> archives.*1).
Proof.
  intros Hr. revert archives Hr. induction entries as [|[name bytes] entries IH]; intros archives Hr He; cbn [List.filter] in He.
  { by destruct archives. }
  unfold native in He at 1. cbn [fst] in He. rewrite fmap_cons. cbn [fst].
  destruct (foreign name) eqn:Hf; cbn [negb] in He; [rewrite collect_foreign by done; by apply IH|].
  destruct archives as [|[g l] archives]; [done|]. rewrite fmap_cons in He. injection He as Hn _ He.
  apply Forall_cons in Hr as [Hg Hr]. cbn in Hn, Hg. subst name. rewrite collect_native by done.
  by rewrite (IH archives Hr He).
Qed.

#[local] Instance total_generation : TotalCmp by_generation.
Proof.
  split; unfold by_generation.
  - intros x y. by rewrite Z.compare_antisym.
  - intros x y z Hxy Hyz. change (as_generation x <= as_generation z)%Z. change (as_generation x <= as_generation y)%Z in Hxy.
    change (as_generation y <= as_generation z)%Z in Hyz. lia.
Qed.

Section held.
Context (d : Disk) (archives : list (Z * list CatRecordingValidationRecord))
  (current : list CatRecordingValidationRecord) (torn : string) (g : Z).
Context (Hd : holds d archives current torn g).
Context (i : ValidationStoreIndex).

Lemma held_ranges : Forall (fun a => 0 <= a.1 <= u64_max)%Z archives.
Proof. eapply Forall_impl; [apply (h_archived _ _ _ _ _ Hd)|]. intros a (_ & _ & _ & Ha). pose proof (h_range _ _ _ _ _ Hd). lia. Qed.

Lemma held_collect :
  exists archives', archives' ≡ₚ archives
    /\ collect_archives data_name (d_siblings d).*1 = Ok (archive_segment <$> archives'.*1).
Proof.
  destruct (Permutation_map_inv _ _ (h_siblings _ _ _ _ _ Hd)) as (archives' & He & Hp).
  exists archives'. split; [by symmetry|]. apply collect_entries; [|exact He]. by rewrite <- Hp; apply held_ranges.
Qed.

Lemma reads_segments : reads d i (archive_segments data_name) (archive_segment <$> archives.*1).
Proof.
  unfold archive_segments. destruct held_collect as (archives' & Hp & Hc).
  eapply reads_bind; [apply reads_names|]. eapply reads_bind; [apply reads_lift, Hc|].
  replace (archive_segment <$> archives.*1) with (sort_by by_generation (archive_segment <$> archives'.*1)); [apply reads_ret|].
  rewrite (sort_by_perm_eq by_generation _ (archive_segment <$> archives.*1)); [|intros x y|by rewrite Hp].
  - apply sort_by_id. pose proof (h_ascending _ _ _ _ _ Hd) as Hs. revert Hs. generalize (archives.*1). intros l.
    induction 1 as [|x l Hl IH Hx]; [constructor|]. rewrite fmap_cons. constructor; [done|].
    apply Forall_fmap. eapply Forall_impl; [exact Hx|]. intros y Hy. cbn. unfold cmp_le, by_generation. cbn.
    by rewrite (proj2 (Z.compare_lt_iff _ _) Hy).
  - intros (a & -> & _)%list_elem_of_fmap (b & -> & _)%list_elem_of_fmap. unfold by_generation. cbn.
    intros ->%Z.compare_eq. done.
Qed.

Lemma held_last a : last (archive_segment <$> archives.*1) = Some a -> (0 <= as_generation a <= g)%Z.
Proof.
  intros Ha. assert (a ∈ archive_segment <$> archives.*1) as Hin by by eapply last_Some_elem_of.
  apply list_elem_of_fmap in Hin as (x & -> & Hx). apply list_elem_of_fmap in Hx as (y & -> & Hy).
  pose proof (h_archived _ _ _ _ _ Hd) as Hall. rewrite Forall_forall in Hall. by destruct (Hall y Hy) as (_ & _ & _ & ?).
Qed.

Definition counter_read : option Z := match d_generation d with Some _ => Some g | None => None end.

Lemma default_counter : default 0%Z counter_read = g.
Proof. unfold counter_read. pose proof (h_counter _ _ _ _ _ Hd) as Hc. destruct (d_generation d); [done|]. by destruct Hc as [-> _]. Qed.

Lemma reads_sidecar : reads d i read_generation_sidecar counter_read.
Proof.
  unfold read_generation_sidecar, counter_read. eapply reads_bind; [apply reads_open_data|]. cbn [file_of].
  pose proof (h_counter _ _ _ _ _ Hd) as Hc. destruct (d_generation d) as [bytes|]; [|apply reads_ret]. subst bytes.
  eapply reads_bind; [apply reads_check|]. eapply reads_bind; [|apply reads_ret].
  apply reads_lift, parse_generation_pad, (h_range _ _ _ _ _ Hd).
Qed.

Lemma reads_generation : reads d i (read_generation (archive_segment <$> archives.*1)) g.
Proof.
  unfold read_generation. eapply reads_bind; [apply reads_sidecar|]. unfold counter_read.
  pose proof (h_counter _ _ _ _ _ Hd) as Hc. pose proof held_last as Hl.
  destruct (d_generation d) as [bytes|].
  - destruct (last _) as [a|]; cbn; [|apply reads_ret]. specialize (Hl a eq_refl).
    rewrite (proj2 (Z.ltb_ge _ _)) by lia. apply reads_ret.
  - destruct Hc as [Hg Ha]. rewrite Ha, Hg. apply reads_ret.
Qed.

Lemma held_lookup a : a ∈ archives -> lookup_sibling (archive_name a.1) d = Some (segment a.2).
Proof.
  intros Ha. pose proof held_ranges as Hr. rewrite Forall_forall in Hr.
  assert (archive_entry a ∈ List.filter native (d_siblings d)) as Hin.
  { rewrite (h_siblings _ _ _ _ _ Hd). by apply list_elem_of_fmap_2. }
  assert (forall bytes, (archive_name a.1, bytes) ∈ d_siblings d -> bytes = segment a.2) as Huniq.
  { intros bytes Hb. assert ((archive_name a.1, bytes) ∈ List.filter native (d_siblings d)) as Hb'.
    { apply list_elem_of_In, filter_In. split; [by apply list_elem_of_In|]. unfold native. cbn. by rewrite archive_native by by apply Hr. }
    rewrite (h_siblings _ _ _ _ _ Hd) in Hb'. apply list_elem_of_fmap in Hb' as (b & Hb' & Hbin).
    unfold archive_entry in Hb'. injection Hb' as Hn ->. apply archive_name_inj in Hn; [|by apply Hr..].
    f_equal. pose proof (h_ascending _ _ _ _ _ Hd) as Hs. clear -Hs Ha Hbin Hn. revert Hs Ha Hbin.
    induction archives as [|x l IH]; [by intros _ ?%not_elem_of_nil|]. rewrite fmap_cons. intros Hs.
    apply StronglySorted_inv in Hs as [Hs Hx]. rewrite Forall_forall in Hx. intros [<-|Ha]%elem_of_cons [<-|Hb]%elem_of_cons; [done| | |by apply IH].
    - specialize (Hx _ (list_elem_of_fmap_2 fst _ _ Hb)). lia.
    - specialize (Hx _ (list_elem_of_fmap_2 fst _ _ Ha)). lia. }
  unfold lookup_sibling. destruct (List.find _ _) as [[name bytes]|] eqn:Hf.
  - apply find_some in Hf as [Hf Hn%String.eqb_eq]. cbn in *. subst name. f_equal. by apply Huniq, list_elem_of_In.
  - apply list_elem_of_In, filter_In in Hin as [Hin _]. apply (find_none _ _ Hf) in Hin. cbn in Hin.
    by rewrite String.eqb_refl in Hin.
Qed.

Lemma archived_small a : a ∈ archives -> (MAX_STORE_BYTES <? byte_count (segment a.2))%Z = false.
Proof.
  intros Ha. pose proof (h_archived _ _ _ _ _ Hd) as Hall. rewrite Forall_forall in Hall.
  destruct (Hall a Ha) as (_ & _ & Hs & _). apply Z.ltb_ge. lia.
Qed.

Lemma reads_archives l m :
  l ⊆ archives -> reads d i (scan_archives parent_path (archive_segment <$> l.*1) m) (put_records (concat l.*2) m).
Proof.
  revert m. induction l as [|a l IH]; intros m Hl; [apply reads_ret|]. rewrite !fmap_cons. cbn [scan_archives concat].
  assert (a ∈ archives) as Ha by (apply Hl; left). eapply reads_bind; [apply reads_open_sibling|]. cbn [as_name archive_segment].
  rewrite held_lookup, archived_small by done. eapply reads_bind; [apply reads_check|].
  pose proof (h_archived _ _ _ _ _ Hd) as Hall. rewrite Forall_forall in Hall. destruct (Hall a Ha) as (Hfine & Hne & _).
  eapply reads_bind; [by apply reads_lift, strict_segment|]. change (concat (a.2 :: l.*2)) with (a.2 ++ concat l.*2). rewrite put_records_app. apply IH. intros b Hb. apply Hl. by right.
Qed.

(** A file whose end is not torn is read as what it holds. *)
Lemma reads_scan : torn = "" -> reads d i (scan_latest_unlocked parent_path data_name) (contents archives current).
Proof.
  intros Ht. unfold scan_latest_unlocked. eapply reads_bind; [apply reads_segments|].
  eapply reads_bind; [apply reads_generation|]. eapply reads_bind; [by apply reads_archives|].
  eapply reads_bind; [apply reads_open_data|]. cbn [file_of]. pose proof (h_main _ _ _ _ _ Hd) as Hm.
  pose proof (h_size _ _ _ _ _ Hd) as Hs. subst torn. rewrite str_app_nil_r in Hs.
  destruct (d_main d) as [f|]; cbn [fmap option_fmap option_map].
  - rewrite Hm, str_app_nil_r. rewrite (proj2 (Z.ltb_ge _ _)) by lia.
    rewrite apply_segment by apply (h_current _ _ _ _ _ Hd). apply reads_ret.
  - destruct Hm as [Hm _]. unfold contents. rewrite Hm. apply reads_ret.
Qed.

Lemma reads_fingerprint :
  reads d i store_fingerprint
    {| sf_generation := g;
       sf_main := (fun f => {| mf_len := byte_count (f_bytes f); mf_stamp := f_stamp f |}) <$> d_main d |}.
Proof.
  unfold store_fingerprint. eapply reads_bind; [apply reads_sidecar|]. eapply reads_bind; [apply reads_open_data|].
  eapply reads_bind; [exact (reads_disk d i d_main)|]. rewrite default_counter. apply reads_ret.
Qed.
End held.
End scan.

(** * Replacing and creating *)

Section files.
Context (d : Disk) (i : ValidationStoreIndex).

Lemma replace_spec t bytes :
  does False d i (replace_data_atomically t bytes)
    (fun _ d' i' => i' = i /\ exists stamp, d' = put_file t bytes stamp d)
    (fun d' i' => i' = i /\ (d' = d \/ exists stamp, d' = put_file t bytes stamp d)).
Proof.
  unfold replace_data_atomically, replace_data_atomically_for_platform.
  apply (does_reads _ _ _ _ _ tt); [apply reads_check|by auto|].
  apply (does_reads _ _ _ _ _ tt); [apply reads_check|by auto|].
  apply (does_bind _ _ _ _ _ (fun _ d' i' => i' = i /\ exists stamp, d' = put_file t bytes stamp d)).
  - apply (does_reads _ _ _ _ _ tt); [apply reads_check|by auto|].
    apply (does_reads _ _ _ _ _ tt); [apply reads_check|by auto|].
    apply does_call. intros c. destruct (c_error c) eqn:Hc; [apply does_fail; auto; by right|].
    eapply does_bind; [apply (does_modify_disk _ _ _ _ (fun _ d' i' => i' = i /\ d' = put_file t bytes (c_stamp c) d)); done|].
    intros _ d' i' [-> ->]. apply (does_reads _ _ _ _ _ tt); [apply reads_check|eauto|].
    eapply does_mono; [apply reads_check|done| |]; [intros [] d' i' (_ & -> & ->); eauto|intros d' i' (-> & ->); eauto].
  - intros [] d' i' [-> [stamp ->]]. apply (does_reads _ _ _ _ _ tt); [apply reads_check|eauto|].
    eapply does_reads; [apply reads_open_data|eauto|].
    assert (file_of t (put_file t bytes stamp d) = Some bytes) as -> by by destruct t.
    apply does_ret; eauto.
Qed.

Definition add_sibling (name bytes : string) (d : Disk) : Disk := set_siblings (d_siblings d ++ [(name, bytes)]) d.

Lemma lookup_added name bytes : is_some (lookup_sibling name (add_sibling name bytes d)) = true.
Proof.
  unfold lookup_sibling, add_sibling. cbn. induction (d_siblings d) as [|[k v] l IH]; cbn.
  - by rewrite String.eqb_refl.
  - destruct (k =? name); [done|exact IH].
Qed.

Lemma create_spec name bytes :
  lookup_sibling name d = None ->
  does False d i (create_sibling_atomically name bytes)
    (fun _ d' i' => i' = i /\ d' = add_sibling name bytes d)
    (fun d' i' => i' = i /\ (d' = d \/ d' = add_sibling name bytes d)).
Proof.
  intros Hn. unfold create_sibling_atomically, create_sibling_atomically_for_platform.
  apply (does_reads _ _ _ _ _ tt); [apply reads_check|by auto|].
  apply (does_reads _ _ _ _ _ tt); [apply reads_check|by auto|].
  eapply does_reads; [exact (reads_disk d i (lookup_sibling name))|by auto|]. rewrite Hn.
  apply (does_bind _ _ _ _ _ (fun _ d' i' => i' = i /\ d' = add_sibling name bytes d)).
  - do 3 (apply (does_reads _ _ _ _ _ tt); [apply reads_check|by auto|]).
    eapply does_bind; [apply (does_modify_disk _ _ _ _ (fun _ d' i' => i' = i /\ d' = add_sibling name bytes d)); done|].
    intros _ d' i' [-> ->]. apply (does_reads _ _ _ _ _ tt); [apply reads_check|by auto|].
    eapply does_mono; [apply reads_check|done| |]; [intros [] d' i' (_ & -> & ->); auto|intros d' i' (-> & ->); auto].
  - intros [] d' i' [-> ->]. apply (does_reads _ _ _ _ _ tt); [apply reads_check|by auto|].
    eapply does_reads; [apply reads_open_sibling|by auto|].
    pose proof (lookup_added name bytes) as Ha. destruct (lookup_sibling name (add_sibling name bytes d)); [|done]. apply does_ret; auto.
Qed.
End files.

(** * Records put twice *)

Lemma put_records_union l m : put_records l m = put_records l ∅ ∪ m.
Proof.
  induction l as [|r l IH] using rev_ind; [cbn; by rewrite (left_id_L ∅ (∪))|].
  rewrite !put_records_app. cbn. unfold put_record. by rewrite IH, insert_union_l.
Qed.

Lemma put_records_twice l m : put_records l (put_records l m) = put_records l m.
Proof.
  rewrite (put_records_union l (put_records l m)), (put_records_union l m).
  rewrite (assoc_L (∪)). by rewrite (idemp_L (∪)).
Qed.

Section writes.
Context `{!RecordText} `{!RecordTextLaws}.
Context (parent_path data_name : string) (threshold : Z).
Context (Hname : utf8_valid data_name = true) (Hthreshold : (0 < threshold <= MAX_STORE_BYTES)%Z).
Abbreviation holds := (holds data_name threshold).

(** * The counter *)

Lemma holds_counter d archives current torn g g' :
  holds d archives current torn g -> (g <= g' <= u64_max)%Z ->
  holds (set_generation (Some (pad20 g' +:+ String NEWLINE "")) d) archives current torn g'.
Proof.
  intros [] Hg. split; try done; [|cbn; lia].
  eapply Forall_impl; [eassumption|]. intros a (? & ? & ? & ?). repeat split; (done || lia).
Qed.

Lemma advance_spec d i archives current torn g :
  holds d archives current torn g ->
  let d1 := set_generation (Some (pad20 (g + 1) +:+ String NEWLINE "")) d in
  does (g = u64_max) d i advance_generation
    (fun g' d' i' => g' = (g + 1)%Z /\ (g < u64_max)%Z /\ i' = i /\ d' = d1)
    (fun d' i' => i' = i /\ (d' = d \/ (g < u64_max)%Z /\ d' = d1)).
Proof.
  intros Hd d1. unfold advance_generation. pose proof (h_range _ _ _ _ _ _ _ Hd) as Hr.
  eapply does_reads; [by eapply reads_sidecar|by auto|]. rewrite (default_counter _ _ _ _ _ _ _ Hd).
  unfold u64_checked_add. destruct (Z.leb_spec (g + 1) u64_max) as [Hl|Hl]; cbn [ok_or].
  - eapply does_reads; [by apply reads_lift|by auto|].
    apply (does_bind _ _ _ _ _ (fun _ d' i' => (g + 1 = g + 1)%Z /\ (g < u64_max)%Z /\ i' = i /\ d' = d1));
      [|intros [] d' i' Hq; apply does_ret; exact Hq].
    apply does_in_context. eapply does_mono; [apply replace_spec|done| |].
    + intros [] d' i' [-> [stamp ->]]. cbn. repeat split; lia.
    + intros d' i' [-> [->|[stamp ->]]]; [by auto|]. split; [done|]. right. split; [lia|done].
  - apply (does_bind _ _ _ _ _ (fun _ _ _ => False)); [|by intros].
    unfold lift. intros calls. split; [done|]. cbn. split; [right; lia|by auto].
Qed.

(** * Appending *)

Lemma main_bytes d archives current torn g :
  holds d archives current torn g -> default "" (file_of Main d) = segment current +:+ torn.
Proof.
  intros Hd. pose proof (h_main _ _ _ _ _ _ _ Hd) as Hm. cbn. destruct (d_main d) as [f|]; cbn; [done|].
  by destruct Hm as [-> ->].
Qed.

(** The file with other records, or another torn end. *)
Lemma holds_main d archives current torn g current' torn' stamp :
  holds d archives current torn g -> Forall fine current' -> lacks NEWLINE torn' = true ->
  (byte_count (segment current' +:+ torn') <= threshold)%Z ->
  holds (put_file Main (segment current' +:+ torn') stamp d) archives current' torn' g.
Proof. intros [] Hf Ht Hs. by split. Qed.

Lemma write_all_spec d i context bytes b :
  default "" (file_of Main d) = b ->
  does False d i (write_all context bytes)
    (fun _ d' i' => i' = i /\ exists stamp, d' = put_file Main (b +:+ bytes) stamp d)
    (fun d' i' => i' = i /\ exists n stamp, d' = put_file Main (b +:+ str_take n bytes) stamp d).
Proof.
  intros Hb. unfold write_all. apply does_call. intros c. set (written := match c_error c with Some _ => _ | None => _ end).
  eapply does_bind; [apply (does_modify_disk _ _ _ _ (fun _ d' i' => i' = i /\ d' = put_file Main (b +:+ written) (c_stamp c) d))|].
  - by rewrite Hb.
  - intros _ d' i' [-> ->]. subst written. destruct (c_error c); [apply does_fail|apply does_ret]; eauto.
Qed.

Lemma open_append_spec d i :
  does False d i open_data_append_create
    (fun _ d' i' => i' = i /\ exists f, d' = set_main (Some f) d /\ f_bytes f = default "" (file_of Main d))
    (fun d' i' => i' = i /\ d' = d).
Proof.
  unfold open_data_append_create. apply (does_reads _ _ _ _ _ tt); [apply reads_check|by auto|].
  apply does_call. intros c. destruct (c_error c) eqn:Hc; [apply does_fail; auto|].
  apply does_modify_disk. split; [done|]. destruct d as [[f|] gen siblings]; cbn; [by exists f|by eexists].
Qed.

Definition append_line (line : string) : IO bool :=
  bind open_data_append_create (fun _ => bind (write_all persist_failed line) (fun _ =>
    bind (write_all persist_failed (String NEWLINE "")) (fun _ => bind (check persist_failed) (fun _ => ret false)))).

Lemma lacks_take n s : lacks NEWLINE s = true -> lacks NEWLINE (str_take n s) = true.
Proof.
  revert s. induction n as [|n IH]; intros [|a s]; try done. unfold lacks in *. cbn. intros [Ha Hs]%andb_true_iff.
  rewrite Ha. by apply IH.
Qed.

Lemma take_length n s : (byte_count (str_take n s) <= byte_count s)%Z.
Proof.
  revert s. induction n as [|n IH]; intros [|a s]; try (by vm_compute).
  specialize (IH s). unfold byte_count, str_take, str_len in *. cbn [String.substring String.length]. lia.
Qed.

(** What appending leaves: the record, or what there was and a part of its line. *)
Lemma append_line_spec d i archives current g r :
  holds d archives current "" g -> fine r ->
  (byte_count (segment current) + byte_count (line_of r) + 1 <= threshold)%Z ->
  does False d i (append_line (line_of r))
    (fun compacted d' i' => i' = i /\ compacted = false /\ holds d' archives (current ++ [r]) "" g)
    (fun d' i' => i' = i /\ exists current' torn, holds d' archives current' torn g
                            /\ (current' = current \/ current' = current ++ [r])).
Proof.
  intros Hd Hr Hs. pose proof (h_current _ _ _ _ _ _ _ Hd) as Hf.
  assert (default "" (file_of Main d) = segment current) as Hm by (rewrite (main_bytes _ _ _ _ _ Hd); apply str_app_nil_r).
  assert (forall n stamp, holds (put_file Main (segment current +:+ str_take n (line_of r)) stamp d) archives current
            (str_take n (line_of r)) g) as Hpart.
  { intros n stamp. eapply holds_main; [exact Hd|done|apply lacks_take, Hr|]. rewrite byte_count_app.
    pose proof (take_length n (line_of r)). lia. }
  assert (forall stamp, holds (put_file Main (segment (current ++ [r]) +:+ "") stamp d) archives (current ++ [r]) "" g) as Hfull.
  { intros stamp. eapply holds_main; [exact Hd|by apply Forall_app; auto|done|].
    rewrite str_app_nil_r, segment_snoc, !byte_count_app. change (byte_count (String NEWLINE "")) with 1%Z. lia. }
  rewrite segment_snoc, str_app_nil_r in Hfull.
  unfold append_line. eapply does_bind; [eapply does_mono; [apply open_append_spec|done|intros a d' i' Hq; exact Hq|]|].
  { intros d' i' [-> ->]. split; [done|]. exists current, "". auto. }
  intros [] d1 i1 [-> (f & -> & Hfb)]. rewrite Hm in Hfb.
  eapply does_bind; [eapply does_mono; [apply write_all_spec; exact Hfb|done|intros a d' i' Hq; exact Hq|]|].
  { intros d' i' [-> (n & stamp & ->)]. split; [done|]. exists current, (str_take n (line_of r)). split; [apply Hpart|by left]. }
  intros [] d2 i2 [-> [stamp ->]].
  eapply does_bind; [eapply does_mono; [by apply write_all_spec|done|intros a d' i' Hq; exact Hq|]|].
  { intros d' i' [-> (n & stamp' & ->)]. split; [done|]. cbn [file_of put_file set_main d_main fmap option_fmap option_map f_bytes default].
    destruct n as [|n].
    - exists current, (line_of r). split; [|by left]. cbn. rewrite str_app_nil_r.
      pose proof (Hpart (str_len (line_of r)) stamp') as Hp. assert (str_take (str_len (line_of r)) (line_of r) = line_of r) as E.
      { rewrite <- (str_app_nil_r (line_of r)) at 2. apply take_app. }
      rewrite E in Hp. exact Hp.
    - exists (current ++ [r]), "". split; [|by right]. cbn. rewrite str_app_assoc. destruct n; exact (Hfull stamp'). }
  intros [] d3 i3 [-> [stamp' ->]]. cbn [file_of put_file set_main d_main fmap option_fmap option_map f_bytes default].
  change (id (segment current +:+ line_of r)) with (segment current +:+ line_of r). rewrite str_app_assoc.
  apply (does_reads _ _ _ _ _ tt); [apply reads_check| |apply does_ret].
  - split; [done|]. exists (current ++ [r]), "". split; [|by right]. exact (Hfull stamp').
  - split; [done|]. split; [done|]. exact (Hfull stamp').
Qed.

(** * Rotating *)

Lemma holds_added d archives current torn g :
  holds d archives current torn g -> is_some (d_generation d) = true -> current <> [] ->
  Forall (fun a => a.1 < g)%Z archives -> (byte_count (segment current) <= threshold)%Z ->
  holds (add_sibling (archive_name data_name g) (segment current) d) (archives ++ [(g, current)]) current torn g.
Proof.
  intros [Hc Har Hasc Hmain Htorn Hsize Hcount Hrange Hsib] Hgen Hne Hlt Hs. split; try done.
  - apply Forall_app. split; [done|]. apply list.Forall_singleton. cbn. repeat split; (done || lia).
  - rewrite fmap_app. clear -Hasc Hlt. induction archives as [|a l IH]; [repeat constructor|].
    rewrite fmap_cons in Hasc |- *. apply StronglySorted_inv in Hasc as [Hs Ha].
    apply Forall_cons in Hlt as [Hag Hlt]. cbn [app]. constructor; [by apply IH|]. apply Forall_app. split; [done|].
    by apply list.Forall_singleton.
  - cbn [d_generation add_sibling set_siblings]. by destruct (d_generation d).
  - cbn [d_siblings add_sibling set_siblings]. rewrite List.filter_app, Hsib, fmap_app. cbn [List.filter].
    unfold native at 1. cbn [fst]. by rewrite archive_native.
Qed.

Lemma lookup_new d archives current torn g :
  holds d archives current torn g -> Forall (fun a => a.1 < g)%Z archives ->
  lookup_sibling (archive_name data_name g) d = None.
Proof.
  intros Hd Hlt. unfold lookup_sibling. destruct (List.find _ _) as [[name bytes]|] eqn:Hf; [|done]. exfalso.
  apply find_some in Hf as [Hf Hn%String.eqb_eq]. cbn in Hn. subst name. pose proof (h_range _ _ _ _ _ _ _ Hd) as Hr.
  assert ((archive_name data_name g, bytes) ∈ List.filter (native data_name) (d_siblings d)) as Hin.
  { apply list_elem_of_In, filter_In. split; [done|]. unfold native. cbn. by rewrite archive_native. }
  rewrite (h_siblings _ _ _ _ _ _ _ Hd) in Hin. apply list_elem_of_fmap in Hin as (a & Ha & Hin).
  pose proof (held_ranges _ _ _ _ _ _ _ Hd) as Hall. rewrite Forall_forall in Hall, Hlt.
  unfold archive_entry in Ha. injection Ha as Hn _. apply archive_name_inj in Hn; [|done..|by apply Hall].
  specialize (Hlt a Hin). lia.
Qed.

Lemma rotate_spec d i archives current g r :
  holds d archives current "" g -> is_some (d_generation d) = true -> current <> [] ->
  Forall (fun a => a.1 < g)%Z archives -> fine r -> (byte_count (line_of r) + 1 <= threshold)%Z ->
  does False d i (rotate_unlocked parent_path data_name (line_of r) g)
    (fun _ d' i' => i' = i /\ holds d' (archives ++ [(g, current)]) [r] "" g)
    (fun d' i' => i' = i /\ (d' = d \/ exists current', holds d' (archives ++ [(g, current)]) current' "" g
                                                       /\ (current' = current \/ current' = [r]))).
Proof.
  intros Hd Hgen Hne Hlt Hr Hs. pose proof (h_current _ _ _ _ _ _ _ Hd) as Hf. pose proof (h_size _ _ _ _ _ _ _ Hd) as Hsize.
  rewrite str_app_nil_r in Hsize. pose proof (holds_added _ _ _ _ _ Hd Hgen Hne Hlt Hsize) as Hadded.
  assert (forall stamp, holds (put_file Main (segment [r] +:+ "") stamp (add_sibling (archive_name data_name g) (segment current) d))
            (archives ++ [(g, current)]) [r] "" g) as Hnew.
  { intros stamp. eapply holds_main; [exact Hadded|by constructor|done|]. rewrite str_app_nil_r.
    change (segment [r]) with (line_of r +:+ String NEWLINE ""). rewrite byte_count_app.
    change (byte_count (String NEWLINE "")) with 1%Z. lia. }
  rewrite str_app_nil_r in Hnew. change (segment [r]) with (line_of r +:+ String NEWLINE "") in Hnew.
  unfold rotate_unlocked. eapply does_reads; [apply reads_open_data|by auto|]. cbn [file_of].
  pose proof (h_main _ _ _ _ _ _ _ Hd) as Hm. destruct (d_main d) as [f|]; [|by destruct Hm].
  cbn [fmap option_fmap option_map]. rewrite Hm, str_app_nil_r. rewrite (proj2 (Z.ltb_ge _ _)) by lia.
  apply (does_reads _ _ _ _ _ tt); [apply reads_check|by auto|]. cbn zeta.
  eapply does_reads; [by apply reads_lift, strict_segment|by auto|].
  eapply does_bind; [apply does_in_context; eapply does_mono; [by apply create_spec, (lookup_new _ _ _ _ _ Hd)|done|intros a d' i' Hq; exact Hq|]|].
  { intros d' i' [-> [->| ->]]; [by auto|]. split; [done|]. right. exists current. auto. }
  intros [] d' i' [-> ->]. apply does_in_context. eapply does_mono; [apply replace_spec|done| |].
  - intros [] d' i' [-> [stamp ->]]. auto.
  - intros d' i' [-> [->|[stamp ->]]]; (split; [done|]); right; [exists current|exists [r]]; auto.
Qed.

(** * Persisting a record *)

(** The record's line can be made and is not too long. *)
Definition storable (r : CatRecordingValidationRecord) : Prop :=
  exists line, record_to_vec r = Ok line /\ (byte_count line <= MAX_RECORD_BYTES)%Z /\ (byte_count line + 1 <= threshold)%Z.

(** Why a record is refused: the counter is at its end, or the record too large. *)
Definition refused (g : Z) (r : CatRecordingValidationRecord) : Prop := g = u64_max \/ ~ storable r.

(** The fingerprint of a disk with the counter at [g]. *)
Definition fingerprint_of (g : Z) (d : Disk) : ValidationStoreFingerprint :=
  {| sf_generation := g;
     sf_main := (fun f => {| mf_len := byte_count (f_bytes f); mf_stamp := f_stamp f |}) <$> d_main d |}.

(** What is held, as the latest records; [g] is the counter. *)
Definition stored (d : Disk) (m : Latest) (torn : string) (g : Z) : Prop :=
  exists archives current, holds d archives current torn g /\ contents archives current = m.

Lemma contents_snoc archives current r : contents archives (current ++ [r]) = put_record (contents archives current) r.
Proof. unfold contents. by rewrite put_records_app. Qed.

Lemma contents_archived archives current g l :
  contents (archives ++ [(g, current)]) l = put_records l (contents archives current).
Proof. unfold contents. by rewrite fmap_app, concat_app, put_records_app; cbn; rewrite app_nil_r. Qed.

(** After any outcome: [m], or [m] and the record; the counter has moved if the
    latter. *)
Definition tried (m : Latest) (g : Z) (r : CatRecordingValidationRecord) (d' : Disk) : Prop :=
  exists m' torn g', stored d' m' torn g' /\ (g' = g \/ g' = g + 1)%Z
    /\ (m' = m \/ m' = put_record m r /\ g' = (g + 1)%Z).

Lemma does_refuse {A} (T : Prop) d i e (Q : A -> Disk -> ValidationStoreIndex -> Prop) (E : Disk -> ValidationStoreIndex -> Prop) :
  T -> E d i -> does T d i (lift (Err e)) Q E.
Proof. intros HT HE calls. split; [done|]. split; [by right|done]. Qed.

Lemma append_spec d i m g r :
  stored d m "" g ->
  does (refused g r) d i (append_unlocked parent_path data_name threshold r)
    (fun p d' i' => i' = i /\ (g < u64_max)%Z /\ stored d' (put_record m r) "" (g + 1) /\ pr_fingerprint p = fingerprint_of (g + 1) d')
    (fun d' i' => i' = i /\ tried m g r d').
Proof.
  intros (archives & current & Hd & Hc). pose proof (h_range _ _ _ _ _ _ _ Hd) as Hrange.
  assert (tried m g r d) as Hsame.
  { exists m, "", g. split; [by exists archives, current|auto]. }
  unfold append_unlocked. destruct (record_to_vec r) as [line|e] eqn:Hline; cycle 1.
  { apply (does_bind _ _ _ _ _ (fun _ _ _ => False)); [|by intros]. apply does_refuse; [|by auto].
    right. intros (line & E & _). congruence. }
  eapply does_reads; [by apply reads_lift|by auto|]. cbn zeta.
  destruct (Z.ltb_spec MAX_RECORD_BYTES (byte_count line)) as [Hlong|Hsz].
  { apply does_fail; [|by auto]. right. intros (line' & E & Hle & _). rewrite Hline in E. injection E as <-. lia. }
  assert (fine r) as Hr.
  { unfold fine, line_of. rewrite Hline. by apply record_text_law. }
  assert (line_of r = line) as <- by by unfold line_of; rewrite Hline.
  destruct (Z.ltb_spec threshold (byte_count (line_of r) + 1)) as [Hlarge|Hfits]; cbn [orb].
  { apply does_fail; [|by auto]. right. intros (line' & E & _ & Hle). rewrite Hline in E. injection E as <-. lia. }
  rewrite (proj2 (Z.ltb_ge MAX_STORE_BYTES (byte_count (line_of r) + 1))) by lia.
  eapply does_reads; [apply reads_open_data|by auto|].
  assert (default 0%Z (byte_count <$> file_of Main d) = byte_count (segment current)) as ->.
  { pose proof (h_main _ _ _ _ _ _ _ Hd) as Hm. cbn. destruct (d_main d) as [f|]; cbn.
    - rewrite Hm. by rewrite str_app_nil_r.
    - by destruct Hm as [-> _]. }
  pose proof (h_size _ _ _ _ _ _ _ Hd) as Hsize. rewrite str_app_nil_r in Hsize.
  unfold u64_saturating_add. rewrite Z.min_l by (unfold MAX_STORE_BYTES, u64_max in *; lia).
  eapply does_bind; [eapply does_mono; [by eapply advance_spec|by left|intros a d' i' Hq; exact Hq|]|].
  { intros d' i' [-> [->|[Hg ->]]]; [by auto|]. split; [done|]. exists m, "", (g + 1)%Z. split; [|auto].
    exists archives, current. split; [|done]. eapply holds_counter; [exact Hd|lia]. }
  intros g' d1 i1 (-> & Hg & -> & ->). set (d1 := set_generation _ d).
  assert (holds d1 archives current "" (g + 1)) as Hd1 by (eapply holds_counter; [exact Hd|lia]).
  assert (forall d' a l torn, holds d' a l torn (g + 1) -> contents a l = m \/ contents a l = put_record m r -> tried m g r d') as Htried.
  { intros d' a l torn H1 H2. exists (contents a l), torn, (g + 1)%Z. split; [by exists a, l|]. split; [by right|].
    destruct H2 as [->| ->]; auto. }
  apply (does_bind _ _ _ _ _ (fun _ d' i' => i' = i /\ stored d' (put_record m r) "" (g + 1))).
  - destruct ((0 <? byte_count (segment current))%Z && (threshold <? byte_count (segment current) + (byte_count (line_of r) + 1))%Z) eqn:Hrot.
    + apply andb_true_iff in Hrot as [Hpos%Z.ltb_lt _].
      eapply does_bind; [eapply does_mono; [apply rotate_spec|done|intros a d' i' Hq; exact Hq|]|]; try done.
      * intros ->. by vm_compute in Hpos.
      * eapply Forall_impl; [apply (h_archived _ _ _ _ _ _ _ Hd)|]. intros a (_ & _ & _ & Ha). lia.
      * intros d' i' [-> [->|(l & Hl & [->| ->])]]; (split; [done|]).
        -- eapply Htried; [exact Hd1|by left].
        -- eapply Htried; [exact Hl|]. left. rewrite contents_archived, <- Hc. unfold contents. apply put_records_twice.
        -- eapply Htried; [exact Hl|]. right. by rewrite contents_archived, Hc.
      * intros [] d' i' [-> Hd']. apply does_ret. split; [done|]. eexists _, _. split; [exact Hd'|]. by rewrite contents_archived, Hc.
    + eapply does_mono; [apply append_line_spec; [exact Hd1|done|]|done| |].
      * destruct (Z.ltb_spec 0 (byte_count (segment current))) as [Hp|Hz]; cbn [andb] in Hrot; [apply Z.ltb_ge in Hrot; lia|].
        assert (0 <= byte_count (segment current))%Z by (unfold byte_count; lia). lia.
      * intros b d' i' (-> & _ & Hd'). split; [done|]. eexists _, _. split; [exact Hd'|]. by rewrite contents_snoc, Hc.
      * intros d' i' (-> & l & torn & Hl & [->| ->]); (split; [done|]); (eapply Htried; [exact Hl|]); [by left|].
        right. by rewrite contents_snoc, Hc.
  - intros compacted d' i' [-> Hd']. destruct Hd' as (a & l & Hl & Hcl).
    eapply does_reads; [by eapply reads_fingerprint| |].
    + split; [done|]. eapply Htried; [exact Hl|by right].
    + apply does_ret. repeat split; [done|by exists a, l].
Qed.
End writes.
