(* ===== verification/CatStoreTheorems.v ===== *)
(** The store of validations is safe from crashes: whatever calls to the system fail,
    and wherever, the file holds what it held or that and the first of the records of
    the operation, every process sees what the file holds, and an operation that
    succeeds has persisted all its records. *)
From Stdlib Require Import Ascii.
From stdpp Require Import gmap.
From S2P Require Import Prelude RustString UrlPath RemoteView StringSearch VisionStore CatRecords TaskStore CatQueue CatStore CatStoreLemmas CatStoreWrites.
Local Open Scope string_scope.
Local Open Scope list_scope.
Local Open Scope rust_scope.

(** * The torn end *)

Lemma substring_shift m n p t : String.substring (str_len p + m) n (p +:+ t) = String.substring m n t.
Proof. induction p as [|a p IH]; [done|]. cbn. exact IH. Qed.

Lemma substring_split m n p t :
  (m <= str_len p <= m + n)%nat ->
  String.substring m n (p +:+ t) = str_drop m p +:+ String.substring 0 (m + n - str_len p) t.
Proof.
  revert m n. induction p as [|a p IH]; intros m n Hm; unfold str_len in *; cbn [String.length] in Hm.
  - assert (m = 0)%nat as -> by lia. cbn. by rewrite Nat.sub_0_r.
  - destruct m as [|m].
    + destruct n as [|n]; [lia|]. cbn. f_equal. rewrite (IH 0%nat n) by lia. by cbn.
    + cbn. rewrite IH by lia. by cbn.
Qed.

Lemma drop_before m q t : (m <= str_len q)%nat -> str_drop m (q +:+ t) = str_drop m q +:+ t.
Proof.
  revert m. induction q as [|a q IH]; intros m Hm; unfold str_len in *; cbn in Hm.
  - by assert (m = 0)%nat as -> by lia.
  - destruct m as [|m]; [done|]. cbn. apply IH. lia.
Qed.

Lemma lacks_substring m n s : lacks NEWLINE s = true -> lacks NEWLINE (String.substring m n s) = true.
Proof.
  revert m n. induction s as [|a s IH]; intros m n; [by destruct m, n|]. unfold lacks in *.
  intros H. pose proof H as Hs. cbn in Hs. apply andb_true_iff in Hs as [Ha Hs].
  destruct m as [|m]; [|by apply IH]. destruct n as [|n]; [done|]. cbn. rewrite Ha. by apply IH.
Qed.

(** The loop over the chunks finds the end of the last whole line. *)
Lemma find_truncation_spec d i parent_path data_name rounds p t position :
  (p = "" \/ exists q, p = q +:+ String NEWLINE "") -> lacks NEWLINE t = true ->
  (0 < position)%Z -> (byte_count p <= position <= byte_count (p +:+ t))%Z -> (position <= Z.of_nat rounds)%Z ->
  reads d i (find_truncation parent_path data_name rounds (p +:+ t) position) (byte_count p).
Proof.
  intros Hp Ht. revert position. induction rounds as [|rounds IH]; intros position H0 Hpos Hr; [lia|].
  cbn [find_truncation]. set (k := Z.min position SCAN_CHUNK_BYTES).
  assert (0 < k <= position)%Z as Hk by (unfold k, SCAN_CHUNK_BYTES; lia).
  eapply reads_bind; [apply reads_check|]. unfold bytes_at. rewrite byte_count_app in Hpos. unfold byte_count in *.
  destruct (Z.ltb_spec (position - k) (Z.of_nat (str_len p))) as [Hin|Hout].
  - destruct Hp as [->|[q ->]]; [cbn in Hin; lia|].
    rewrite str_len_app in *. change (str_len (String NEWLINE "")) with 1%nat in *.
    rewrite substring_split by (rewrite str_len_app; change (str_len (String NEWLINE "")) with 1%nat; lia).
    rewrite drop_before by lia. rewrite str_app_assoc. cbn [String.append].
    rewrite last_newline_app by by apply lacks_substring.
    rewrite str_len_drop.
    replace (position - k + Z.of_nat (str_len q - Z.to_nat (position - k)) + 1)%Z with (Z.of_nat (str_len q + 1)) by lia.
    apply reads_ret.
  - replace (Z.to_nat (position - k)) with (str_len p + (Z.to_nat (position - k) - str_len p))%nat by lia.
    rewrite substring_shift. rewrite (proj2 (last_newline_none _)) by by apply lacks_substring.
    destruct (Z.eqb_spec (position - k) 0) as [Hz|Hz].
    + assert (str_len p = 0%nat) as -> by lia. apply reads_ret.
    + apply IH; try lia. rewrite str_len_app. lia.
Qed.

Section store.
Context `{!RecordText} `{!RecordTextLaws}.
Context (parent_path data_name : string) (threshold : Z).
Context (Hname : utf8_valid data_name = true) (Hthreshold : (0 < threshold <= MAX_STORE_BYTES)%Z).
Abbreviation holds := (holds data_name threshold).
Abbreviation stored := (stored data_name threshold).
Abbreviation refused := (refused threshold).

Lemma segment_end l : segment l = "" \/ exists q, segment l = q +:+ String NEWLINE "".
Proof.
  destruct l as [|r l _] using rev_ind; [by left|right]. rewrite segment_snoc, <- str_app_assoc. by eexists.
Qed.

Lemma repair_spec d i archives current torn g :
  holds d archives current torn g ->
  does False d i (repair_validation_store_truncated_tail parent_path data_name)
    (fun repaired d' i' => i' = i /\ holds d' archives current "" g)
    (fun d' i' => i' = i /\ exists torn', holds d' archives current torn' g).
Proof.
  intros Hd. pose proof (h_main _ _ _ _ _ _ _ Hd) as Hm. pose proof (h_torn _ _ _ _ _ _ _ Hd) as Ht.
  assert (torn = "" -> holds d archives current "" g) as Hwhole by by intros <-.
  unfold repair_validation_store_truncated_tail. eapply does_reads; [apply reads_open_data|by eauto|]. cbn [file_of].
  destruct (d_main d) as [f|]; cbn [fmap option_fmap option_map]; [|apply does_ret; split; [done|apply Hwhole, Hm]].
  rewrite Hm. destruct (is_empty (segment current +:+ torn)) eqn:He.
  { apply does_ret. split; [done|]. apply Hwhole. apply is_empty_true, (f_equal str_len) in He.
    rewrite str_len_app in He. destruct torn; [done|]. cbn in He. lia. }
  do 2 (apply (does_reads _ _ _ _ _ tt); [apply reads_check|by eauto|]).
  destruct (ends_with_newline _) eqn:Hn.
  { apply does_ret. split; [done|]. apply Hwhole. destruct (decide (torn = "")) as [|Hne]; [done|].
    by rewrite ends_in_piece in Hn. }
  eapply does_reads; [apply find_truncation_spec; [apply segment_end|done|..]|by eauto|].
  - apply is_empty_false in He. destruct (segment current +:+ torn); [done|]. unfold byte_count, str_len. cbn. lia.
  - rewrite byte_count_app. unfold byte_count. lia.
  - unfold byte_count. lia.
  - assert (forall stamp, holds (put_file Main (segment current +:+ "") stamp d) archives current "" g) as Hcut.
    { intros stamp. eapply holds_main; [exact Hd|apply (h_current _ _ _ _ _ _ _ Hd)|done|].
      pose proof (h_size _ _ _ _ _ _ _ Hd) as Hs. rewrite byte_count_app in *. unfold byte_count in *. cbn. lia. }
    apply (does_bind _ _ _ _ _ (fun _ d' i' => i' = i /\ holds d' archives current "" g)).
    + unfold set_len. apply does_call. intros c. destruct (c_error c) eqn:Hc; [apply does_fail; eauto|].
      apply does_modify_disk. split; [done|].
      assert (str_take (Z.to_nat (byte_count (segment current))) (default "" (file_of Main d)) = segment current +:+ "") as ->; [|apply Hcut].
      rewrite (main_bytes _ _ _ _ _ _ _ Hd). unfold byte_count. by rewrite Nat2Z.id, take_app, str_app_nil_r.
    + intros [] d' i' [-> Hd']. apply (does_reads _ _ _ _ _ tt); [apply reads_check|by eauto|]. by apply does_ret.
Qed.

(** * The index *)

(** The index of a process, of files that hold [m] with the counter at [g]: it holds
    [m] too if it is of this counter. *)
Definition coherent (i : ValidationStoreIndex) (m : Latest) (g : Z) : Prop :=
  ix_initialized i = true ->
  exists fp, ix_fingerprint i = Some fp /\ (sf_generation fp <= g)%Z /\ (sf_generation fp = g -> ix_latest i = m).

(** It is of this counter. *)
Definition fresh (i : ValidationStoreIndex) (m : Latest) (g : Z) : Prop :=
  ix_initialized i = true /\ ix_latest i = m /\ exists fp, ix_fingerprint i = Some fp /\ sf_generation fp = g.

Lemma fresh_coherent i m g : fresh i m g -> coherent i m g.
Proof. intros (_ & Hm & fp & Hfp & Hg) _. exists fp. repeat split; [done|lia|done]. Qed.

(** The files have moved from [m] to [m'], and the counter with them. *)
Definition moved (m : Latest) (g : Z) (m' : Latest) (g' : Z) : Prop := (g <= g')%Z /\ (g' = g -> m' = m).

Lemma coherent_moved i m g m' g' : coherent i m g -> moved m g m' g' -> coherent i m' g'.
Proof.
  intros Hi [Hg Hm] Hini. destruct (Hi Hini) as (fp & Hfp & Hle & Heq). exists fp. repeat split; [done|lia|].
  intros E. rewrite Hm, Heq; [done|lia..].
Qed.

Lemma moved_refl m g : moved m g m g.
Proof. split; [lia|done]. Qed.

Lemma moved_trans m g m1 g1 m2 g2 : moved m g m1 g1 -> moved m1 g1 m2 g2 -> moved m g m2 g2.
Proof. intros [H1 H2] [H3 H4]. split; [lia|]. intros E. rewrite H4, H2; [done|lia..]. Qed.

Lemma refresh_spec d i m g :
  stored d m "" g -> coherent i m g ->
  does False d i (refresh_index_if_needed parent_path data_name)
    (fun _ d' i' => d' = d /\ fresh i' m g)
    (fun d' i' => d' = d /\ i' = i).
Proof.
  intros (archives & current & Hd & Hc) Hi. unfold refresh_index_if_needed.
  eapply does_reads; [by eapply reads_fingerprint|by auto|]. eapply does_reads; [exact (reads_index d i id)|by auto|].
  unfold id. destruct (ix_initialized i && _) eqn:Hin.
  - apply andb_true_iff in Hin as [Hini Hfp%bool_decide_eq_true]. apply does_ret. split; [done|].
    destruct (Hi Hini) as (fp & Hfp' & _ & Heq). rewrite Hfp in Hfp'. injection Hfp' as <-.
    split; [done|]. split; [by apply Heq|]. eexists. by split.
  - eapply does_reads; [by eapply reads_scan|by auto|]. eapply does_reads; [by eapply reads_fingerprint|by auto|].
    apply does_modify_index. split; [done|]. split; [done|]. split; [exact Hc|]. by eexists.
Qed.

(** * Persisting *)

(** Why not all of [records] can be persisted, with the counter at [g]. *)
Definition unstorable (g : Z) (records : list CatRecordingValidationRecord) : Prop :=
  (u64_max < g + Z.of_nat (length records))%Z \/ ~ Forall (storable threshold) records.

(** Some first ones of [records] have been persisted. *)
Definition partly (records : list CatRecordingValidationRecord) (m : Latest) (g : Z) (d : Disk) (i : ValidationStoreIndex) : Prop :=
  exists records' torn g', records' `prefix_of` records /\ stored d (put_records records' m) torn g'
    /\ coherent i (put_records records' m) g' /\ moved m g (put_records records' m) g'.

Lemma tried_partly m g r records d i : tried data_name threshold m g r d -> coherent i m g -> partly (r :: records) m g d i.
Proof.
  intros (m' & torn & g' & Hs & Hg & Hm) Hi.
  assert (moved m g m' g') as Hmv by (destruct Hm as [->|[-> ?]]; (split; [lia|]); [done|lia]).
  destruct Hm as [->|[-> _]]; [exists []|exists [r]]; exists torn, g'; split.
  1, 3: by apply prefix_cons, prefix_nil || apply prefix_nil.
  all: split; [done|]; split; [by eapply coherent_moved|done].
Qed.

Lemma partly_cons m g r records d i g1 :
  moved m g (put_record m r) g1 -> partly records (put_record m r) g1 d i -> partly (r :: records) m g d i.
Proof.
  intros Hmv (l & torn & g' & Hp & Hs & Hi & Hm). exists (r :: l), torn, g'. split; [by apply prefix_cons|].
  split; [done|]. split; [done|]. by eapply moved_trans.
Qed.

Lemma persist_spec d i m g r :
  stored d m "" g -> fresh i m g ->
  does (refused g r) d i (persist_index_record parent_path data_name threshold r)
    (fun r' d' i' => r' = r /\ stored d' (put_record m r) "" (g + 1) /\ fresh i' (put_record m r) (g + 1))
    (fun d' i' => partly [r] m g d' i').
Proof.
  intros Hd Hi. unfold persist_index_record.
  eapply does_bind; [eapply does_mono; [by apply append_spec|done|intros p d' i' Hq; exact Hq|]|].
  - intros d' i' [-> Ht]. by apply tried_partly; [|apply fresh_coherent].
  - intros p d' i' (-> & Hg & Hd' & Hp).
    eapply does_bind; [apply (does_modify_index _ _ _ _ (fun _ d2 i2 => d2 = d' /\ fresh i2 (put_record m r) (g + 1)))|].
    + split; [done|]. destruct Hi as (Hini & <- & _). split; [done|]. split; [done|]. eexists. split; [done|]. cbn. by rewrite Hp.
    + intros [] d2 i2 [-> Hf]. by apply does_ret.
Qed.

Lemma persist_all_spec d i m g records :
  stored d m "" g -> fresh i m g ->
  does (unstorable g records) d i (persist_all parent_path data_name threshold records)
    (fun _ d' i' => exists g', moved m g (put_records records m) g' /\ stored d' (put_records records m) "" g'
                               /\ fresh i' (put_records records m) g')
    (partly records m g).
Proof.
  revert d i m g. induction records as [|r records IH]; intros d i m g Hd Hi; cbn [persist_all].
  { apply does_ret. exists g. split; [apply moved_refl|by split]. }
  assert (moved m g (put_record m r) (g + 1)) as Hmv by (split; lia).
  eapply does_bind; [eapply does_mono; [by apply persist_spec| |intros p d' i' Hq; exact Hq|]|].
  - intros [->|Hl]; [left|right]; [cbn [length]; lia|]. rewrite Forall_cons. tauto.
  - intros d' i' (l & torn & g' & Hp & Hrest). exists l, torn, g'. split; [|exact Hrest].
    transitivity [r]; [done|]. by apply prefix_cons, prefix_nil.
  - intros r' d' i' (-> & Hd' & Hi'). eapply does_mono; [by apply IH| | |].
    + intros [Hg|He]; [left; cbn [length]; lia|right; rewrite Forall_cons; tauto].
    + intros [] d2 i2 (g' & Hm & Hs & Hf). exists g'. split; [by eapply moved_trans|by split].
    + intros d2 i2. by apply partly_cons.
Qed.

(** * Operations *)

Lemma partly_none records m g d i torn : stored d m torn g -> coherent i m g -> partly records m g d i.
Proof.
  intros Hs Hi. exists [], torn, g. split; [apply prefix_nil|]. split; [done|]. split; [done|apply moved_refl].
Qed.

(** Why an operation cannot succeed. *)
Definition hopeless {A} (q : Request A) (m : Latest) (g : Z) : Prop :=
  is_ok (decided q m) = false \/ unstorable g (decided_records q m).

Lemma run_spec {A} (q : Request A) d i m torn g :
  stored d m torn g -> coherent i m g ->
  does (hopeless q m g) d i (run parent_path data_name threshold q)
    (fun a d' i' => exists records g', decided q m = Ok (records, a) /\ moved m g (put_records records m) g'
                      /\ stored d' (put_records records m) "" g' /\ fresh i' (put_records records m) g')
    (partly (decided_records q m) m g).
Proof.
  intros Hd Hi.
  assert (forall i', coherent i' m g -> partly (decided_records q m) m g d i') as Hnone by (intros i'; by apply (partly_none _ _ _ _ _ torn)).
  unfold run. destruct q as [plan|e]; cycle 1.
  { intros calls. split; [done|]. cbn. split; [right; by left|by apply Hnone]. }
  eapply does_reads; [by apply reads_lift|by apply Hnone|]. unfold with_locked_index.
  apply does_call. intros c. destruct (c_error c) eqn:Hc; [apply does_fail; [by right|by apply Hnone]|].
  eapply does_mono; [|intros Hh; left; exact Hh|intros a d' i' Hq; exact Hq|intros d' i' He; exact He].
  apply (does_reads _ _ _ _ _ tt); [apply reads_open_lock|by apply Hnone|].
  apply (does_reads _ _ _ _ _ tt); [apply reads_check|by apply Hnone|].
  apply does_finally; [|by intros; apply reads_check|].
  2:{ intros a d' i' (records & g' & Hdec & Hmv & Hs & Hf). exists records, "", g'. unfold decided_records. rewrite Hdec.
      split; [done|]. split; [done|]. split; [by apply fresh_coherent|done]. }
  apply (does_reads _ _ _ _ _ tt); [apply reads_lock_identity|by apply Hnone|].
  do 2 (apply (does_reads _ _ _ _ _ tt); [apply reads_parent|by apply Hnone|]).
  destruct Hd as (archives & current & Hd & Hm).
  eapply does_bind; [eapply does_mono; [by eapply repair_spec|done|intros b d' i' Hq; exact Hq|]|].
  { intros d' i' [-> [torn' Hd']]. eapply (partly_none _ _ _ _ _ torn'); [by exists archives, current|done]. }
  intros repaired d' i' [-> Hd'].
  apply (does_bind _ _ _ _ _ (fun _ d2 i2 => d2 = d' /\ coherent i2 m g)).
  { destruct repaired; [apply does_modify_index|apply does_ret]; (split; [done|]); [by intros ?|done]. }
  intros [] d2 i2 [-> Hi2]. assert (stored d' m "" g) as Hs by by exists archives, current.
  assert (forall i', coherent i' m g -> partly (decided_records (Ok plan) m) m g d' i') as Hnone' by (intros i2'; by apply (partly_none _ _ _ _ _ "")).
  eapply does_bind; [eapply does_mono; [by apply refresh_spec|done|intros b d2 i3 Hq; exact Hq|]|].
  { intros d2 i3 [-> ->]. by apply Hnone'. }
  intros [] d2 i3 [-> Hf]. eapply does_reads; [exact (reads_index d' i3 ix_latest)|by apply Hnone', fresh_coherent|].
  destruct Hf as (Hini & Hl & Hfp). rewrite Hl. assert (fresh i3 m g) as Hf by by split.
  destruct (plan m) as [[records a]|e] eqn:Hplan; cycle 1.
  { intros calls. split; [done|]. cbn. split; [right; left; unfold decided; cbn; by rewrite Hplan|].
    by apply Hnone', fresh_coherent. }
  assert (decided (Ok plan) m = Ok (records, a)) as Hdec by by unfold decided; cbn.
  assert (decided_records (Ok plan) m = records) as Hrec by by unfold decided_records; rewrite Hdec.
  rewrite Hrec in *. eapply does_reads; [by apply reads_lift|by apply Hnone', fresh_coherent|]. cbn [fst snd].
  eapply does_bind; [eapply does_mono; [by apply persist_all_spec| |intros b d2 i4 Hq; exact Hq|done]|].
  - intros Hun. right. by rewrite Hrec.
  - intros [] d2 i4 (g' & Hmv & Hs' & Hf'). apply does_ret. by exists records, g'.
Qed.

Lemma crash_lemma {A} (q : Request A) d i m torn g calls :
  stored d m torn g -> coherent i m g ->
  let (r, w) := run parent_path data_name threshold q {| w_disk := d; w_calls := calls; w_index := i |} in
  exists records torn' g',
    records `prefix_of` decided_records q m /\ stored (w_disk w) (put_records records m) torn' g'
    /\ coherent (w_index w) (put_records records m) g'
    /\ (forall j, coherent j m g -> coherent j (put_records records m) g')
    /\ (forall a, r = Ok a -> decided q m = Ok (records, a))
    /\ (calm calls -> ~ hopeless q m g -> is_ok r = true).
Proof.
  intros Hd Hi. pose proof (run_spec q d i m torn g Hd Hi calls) as Hrun.
  destruct (run _ _ _ q _) as [[a|e] w]; destruct Hrun as [_ Hrun].
  - destruct Hrun as (records & g' & Hdec & Hmv & Hs & Hf). exists records, "", g'.
    split; [unfold decided_records; by rewrite Hdec|]. split; [done|]. split; [by apply fresh_coherent|].
    split; [intros j Hj; by eapply coherent_moved|]. split; [by intros ? [= <-]|done].
  - destruct Hrun as [Hwhy (records & torn' & g' & Hp & Hs & Hc & Hmv)]. exists records, torn', g'.
    split; [done|]. split; [done|]. split; [done|]. split; [intros j Hj; by eapply coherent_moved|]. split; [done|].
    intros Hcalm Hh. tauto.
Qed.

(** C3. The file of validations survives any failure. From files that hold the
    records [m], whatever calls to the system fail or stop half way, an operation
    leaves files that hold [m] and the first of the records it decided on, all of
    them if it succeeds, with the answer it decided on; every process that saw [m],
    or would read it, then sees what the files hold; and when no call fails, the
    records can be written and the operation is not refused, it succeeds. *)
Theorem crash_safe {A} (q : Request A) d i m torn g calls :
  stored d m torn g -> coherent i m g ->
  let (r, w) := run parent_path data_name threshold q {| w_disk := d; w_calls := calls; w_index := i |} in
  exists records torn' g',
    records `prefix_of` decided_records q m /\ stored (w_disk w) (put_records records m) torn' g'
    /\ coherent (w_index w) (put_records records m) g'
    /\ (forall j, coherent j m g -> coherent j (put_records records m) g')
    /\ (forall a, r = Ok a -> decided q m = Ok (records, a))
    /\ (calm calls -> ~ hopeless q m g -> is_ok r = true).
Proof. apply crash_lemma. Qed.

(** * Processes *)

Section system.
Context `{!Sha256} `{!HashOrder}.

(** The files and the index of every process. *)
Record System := { sy_disk : Disk; sy_index : nat -> ValidationStoreIndex }.

Definition set_process (p : nat) (i : ValidationStoreIndex) (f : nat -> ValidationStoreIndex) : nat -> ValidationStoreIndex :=
  fun n => if (n =? p)%nat then i else f n.

(** An operation of a process, with any failures, and whether it answered that it took
    place; or the end of a process. *)
Inductive system_steps : list Answered -> System -> System -> Prop :=
| sys_nil s : system_steps [] s s
| sys_op p op calls ops s s' r w :
    run parent_path data_name threshold (op_request op)
      {| w_disk := sy_disk s; w_calls := calls; w_index := sy_index s p |} = (r, w) ->
    system_steps ops {| sy_disk := w_disk w; sy_index := set_process p (w_index w) (sy_index s) |} s' ->
    system_steps ((op, is_ok r) :: ops) s s'
| sys_exit p ops s s' :
    system_steps ops {| sy_disk := sy_disk s; sy_index := set_process p default_index (sy_index s) |} s' ->
    system_steps ops s s'.

(** The system holds [m]. *)
Definition system_holds (s : System) (m : Latest) : Prop :=
  exists torn g, stored (sy_disk s) m torn g /\ forall p, coherent (sy_index s p) m g.

Lemma default_coherent m g : coherent default_index m g.
Proof. by intros ?. Qed.

Lemma system_refines ops s s' m :
  system_steps ops s s' -> system_holds s m -> exists m', queue_steps ops m m' /\ system_holds s' m'.
Proof.
  intros Hs. revert m. induction Hs as [s|p op calls ops s s' r w Hrun _ IH|p ops s s' _ IH]; intros m (torn & g & Hd & Hi).
  - exists m. split; [constructor|by exists torn, g].
  - pose proof (crash_lemma (op_request op) (sy_disk s) (sy_index s p) m torn g calls Hd (Hi p)) as Hc. rewrite Hrun in Hc.
    destruct Hc as (records & torn' & g' & Hp & Hs' & Hw & Hj & Ha & _). rewrite op_request_records in Hp.
    destruct (IH (put_records records m)) as (m' & Hq & Hh).
    { exists torn', g'. split; [done|]. intros n. cbn. unfold set_process. destruct (n =? p)%nat; [done|by apply Hj]. }
    exists m'. split; [|done]. eapply steps_cons; [|exact Hq]. constructor; [exact Hp|].
    cbn. intros Hok. destruct r as [[]|e]; [by apply Ha|done].
  - apply IH. exists torn, g. split; [done|]. intros n. cbn. unfold set_process. destruct (n =? p)%nat; [apply default_coherent|done].
Qed.

(** No file yet, and no archive. *)
Definition empty_disk (siblings : list (string * string)) : Disk :=
  {| d_main := None; d_generation := None; d_siblings := siblings |}.

Lemma empty_system siblings :
  List.filter (native data_name) siblings = [] ->
  system_holds {| sy_disk := empty_disk siblings; sy_index := fun _ => default_index |} ∅.
Proof.
  intros Hs. exists "", 0%Z. split; [|intros p; apply default_coherent]. exists [], []. split; [|done].
  split; try done; cbn; [apply Sorted.SSorted_nil|unfold byte_count; cbn; lia|by rewrite Hs].
Qed.

(** C9. The file of validations implements the queue: whatever the processes do, in
    any order, with calls that fail and processes that end anywhere, a list that any
    of them gets is the records of the queue after those operations. An operation that
    answered success was allowed by the queue and took place as a whole, with every
    record it decided on; one that answered an error took place up to some of them. *)
Theorem store_implements_queue siblings ops s p calls l w :
  List.filter (native data_name) siblings = [] ->
  system_steps ops {| sy_disk := empty_disk siblings; sy_index := fun _ => default_index |} s ->
  run parent_path data_name threshold list_latest
    {| w_disk := sy_disk s; w_calls := calls; w_index := sy_index s p |} = (Ok l, w) ->
  exists m, queue_steps ops ∅ m /\ l ≡ₚ (map_to_list m).*2.
Proof.
  intros Hsib Hs Hrun. destruct (system_refines _ _ _ _ Hs (empty_system siblings Hsib)) as (m & Hq & torn & g & Hd & Hi).
  exists m. split; [done|]. pose proof (crash_lemma list_latest _ _ m torn g calls Hd (Hi p)) as Hc. rewrite Hrun in Hc.
  destruct Hc as (records & _ & _ & _ & _ & _ & _ & Ha & _). specialize (Ha l eq_refl).
  unfold decided, list_latest in Ha. cbn in Ha. injection Ha as _ <-. by rewrite sort_by_perm, values_perm.
Qed.

(** * The file as a store of the queue *)

(** What a process that starts reads, if all its calls succeed. *)
Definition read_back (d : Disk) : Latest :=
  match run parent_path data_name threshold (Ok (fun latest => Ok ([], latest)))
          {| w_disk := d; w_calls := []; w_index := default_index |} with
  | (Ok latest, _) => latest
  | (Err _, _) => ∅
  end.

Lemma read_back_spec d m torn g : stored d m torn g -> read_back d = m.
Proof.
  intros Hd. unfold read_back. set (q := Ok (fun latest => Ok ([], latest)) : Request Latest).
  pose proof (crash_lemma q d default_index m torn g [] Hd (default_coherent m g)) as Hc.
  destruct (run _ _ _ q _) as [[a|e] w]; destruct Hc as (records & torn' & g' & _ & _ & _ & _ & Ha & Hok).
  - by injection (Ha a eq_refl).
  - exfalso. assert (is_ok (Err e : result string Latest) = true) as Hf; [|done].
    apply Hok; [by apply List.Forall_nil|]. intros [?|[Hg|Hs]]; [done| |].
    + destruct Hd as (archives & current & Hd & _). pose proof (h_range _ _ _ _ _ _ _ Hd). cbn in Hg. lia.
    + by apply Hs.
Qed.

(** An operation of a process, with what its calls meet. *)
Definition system_run (x : nat * Op * list Call) (s : System) : result string unit * World :=
  let '(p, op, calls) := x in
  run parent_path data_name threshold (op_request op) {| w_disk := sy_disk s; w_calls := calls; w_index := sy_index s p |}.

Definition system_op (x : nat * Op * list Call) (s : System) : System :=
  let w := (system_run x s).2 in {| sy_disk := w_disk w; sy_index := set_process x.1.1 (w_index w) (sy_index s) |}.

Fixpoint system_ops (l : list (nat * Op * list Call)) (s : System) : list Answered * System :=
  match l with
  | [] => ([], s)
  | x :: l => let (answered, s') := system_ops l (system_op x s) in ((x.1.2, is_ok (system_run x s).1) :: answered, s')
  end.

Lemma system_ops_steps l s : system_steps (system_ops l s).1 s (system_ops l s).2.
Proof.
  revert s. induction l as [|[[p op] calls] l IH]; intros s; [constructor|]. cbn. set (s1 := system_op _ _).
  specialize (IH s1). destruct (system_ops l s1) as [answered s']. cbn in IH |- *.
  eapply (sys_op p op calls); [apply surjective_pairing|]. exact IH.
Qed.

(** A process over the files. Before each of its operations the other processes do
    some; the calls of all of them meet what is given. *)
Record FileTurn := { ft_others : list (nat * Op * list Call); ft_calls : list Call }.

Record FileStore := { fs_system : System; fs_turns : list FileTurn }.

Definition calm_turn : FileTurn := {| ft_others := []; ft_calls := [] |}.

Definition file_request (p : nat) {A} (q : Request A) (f : FileStore) : result string A * FileStore :=
  let turn := hd calm_turn (fs_turns f) in
  let s := (system_ops (ft_others turn) (fs_system f)).2 in
  let '(r, w) := run parent_path data_name threshold q
                   {| w_disk := sy_disk s; w_calls := ft_calls turn; w_index := sy_index s p |} in
  (r, {| fs_system := {| sy_disk := w_disk w; sy_index := set_process p (w_index w) (sy_index s) |};
         fs_turns := tl (fs_turns f) |}).

Definition file_holds (f : FileStore) (m : Latest) : Prop := system_holds (fs_system f) m.

Lemma file_reads_back f m : file_holds f m -> read_back (sy_disk (fs_system f)) = m.
Proof. intros (torn & g & Hd & _). by eapply read_back_spec. Qed.

Lemma file_request_spec (p : nat) {A} (q : Request A) f m :
  file_holds f m ->
  exists others m' records, queue_steps others m m' /\ records `prefix_of` decided_records q m'
    /\ file_holds (file_request p q f).2 (put_records records m')
    /\ forall a, (file_request p q f).1 = Ok a -> decided q m' = Ok (records, a).
Proof.
  intros Hf. unfold file_request. set (turn := hd _ _). set (s := (system_ops _ _).2).
  destruct (system_refines _ _ _ m (system_ops_steps (ft_others turn) (fs_system f)) Hf) as (m' & Hq & torn & g & Hd & Hi).
  pose proof (crash_lemma q _ _ m' torn g (ft_calls turn) Hd (Hi p)) as Hc. fold s in Hc.
  destruct (run _ _ _ q _) as [r w]. destruct Hc as (records & torn' & g' & Hp & Hs & Hw & Hj & Ha & _).
  eexists _, m', records. split; [exact Hq|]. split; [exact Hp|]. split; [|exact Ha].
  exists torn', g'. split; [exact Hs|]. intros n. cbn. unfold set_process. destruct (n =? p)%nat; [exact Hw|by apply Hj].
Qed.

Lemma file_request_sound (p : nat) {A} (q : Request A) f :
  (exists m, file_holds f m) -> exists m, file_holds (file_request p q f).2 m.
Proof. intros (m & Hf). destruct (file_request_spec p q f m Hf) as (others & m' & records & _ & _ & Hh & _). by eexists. Qed.

(** The file of validations is a store of the queue, for each of its processes. *)
Definition file_queue (p : nat) : QueueStore { f : FileStore | exists m, file_holds f m }.
Proof.
  refine {| run_request A q f := ((file_request p q (proj1_sig f)).1,
              exist _ (file_request p q (proj1_sig f)).2 (file_request_sound p q _ (proj2_sig f)));
            queue_of f := read_back (sy_disk (fs_system (proj1_sig f))) |}.
  - intros A q [f [m Hf]] s' a [= Ha <-]. cbn in *.
    destruct (file_request_spec p q f m Hf) as (others & m' & records & Hq & _ & Hh & Hd).
    exists others, m', records. rewrite (file_reads_back f m Hf), (file_reads_back _ _ Hh). by auto.
  - intros A q [f [m Hf]]. cbn.
    destruct (file_request_spec p q f m Hf) as (others & m' & records & Hq & Hp & Hh & _).
    exists others, m', records. rewrite (file_reads_back f m Hf), (file_reads_back _ _ Hh). by auto.
Defined.
End system.
End store.

