(* ===== verification/CatLedger.v ===== *)
(** The ledger of the recordings in progress, one for each camera, that the next
    process takes over: [CatRecordingReconciliationStore] of
    [src/runtime/cat_recording_reconciliation.rs], over the files of [CatStore]. Nobody
    else writes its file. The file is a store of the ledger: what it answered is kept,
    and an operation that failed took place or did not. *)
From stdpp Require Import gmap.
From S2P Require Import Prelude RustString UrlPath VisionStore CatRecords CatStore CatStoreLemmas CatStoreWrites.
Local Open Scope string_scope.
Local Open Scope list_scope.
Local Open Scope io_scope.

Definition MAX_RECONCILIATION_BYTES : Z := 1024 * 1024.

Inductive CatRecordingReconciliationPhase := PendingStart | Active.

#[export] Instance phase_eq_dec : EqDecision CatRecordingReconciliationPhase.
Proof. solve_decision. Defined.

(** Times in milliseconds. *)
Record CatRecordingReconciliationState := {
  rs_camera_id : string;
  rs_phase : CatRecordingReconciliationPhase;
  rs_created_at_epoch_ms : Z;
  rs_last_sequence : option Z;
  rs_event_id : option string;
  rs_lease_id : option string;
  rs_stream_profile : option string;
  rs_last_renewed_epoch_ms : Z;
  rs_detection_evidence : list CatDetectionEvidence
}.

Definition default_state : CatRecordingReconciliationState :=
  {| rs_camera_id := ""; rs_phase := Active; rs_created_at_epoch_ms := 0; rs_last_sequence := None;
     rs_event_id := None; rs_lease_id := None; rs_stream_profile := None; rs_last_renewed_epoch_ms := 0;
     rs_detection_evidence := [] |}.

(** By camera. *)
Abbreviation Ledger := (gmap string CatRecordingReconciliationState).

(** [serde_json]: the ledger as the bytes of its file. *)
Class LedgerText := {
  ledger_to_vec : Ledger -> result string string;
  ledger_from_slice : string -> result string Ledger
}.

(** What is written is read. *)
Class LedgerTextLaws `{!LedgerText} : Prop := ledger_text_law (m : Ledger) (bytes : string) :
  ledger_to_vec m = Ok bytes -> bytes <> "" /\ ledger_from_slice bytes = Ok m.

(** * The file *)

Section file.
Context `{!LedgerText} (path : string).

Definition load_unlocked : IO Ledger :=
  o <-- open_data_read Main;
  match o with
  | None => ret ∅
  | Some bytes =>
      if (MAX_RECONCILIATION_BYTES <? byte_count bytes)%Z
      then fail "cat reconciliation store exceeds size limit" else
      _ <-- check ("failed to read cat reconciliation store " +:+ path +:+ ": ");
      if is_empty bytes then fail "cat reconciliation store is empty" else
      lift (map_err (String.append "cat reconciliation store is invalid: ") (ledger_from_slice bytes))
  end.

Definition write_unlocked (states : Ledger) : IO unit :=
  bytes <-- lift (map_err (String.append "failed to serialize cat reconciliation state: ") (ledger_to_vec states));
  if (MAX_RECONCILIATION_BYTES <? byte_count bytes)%Z
  then fail "cat reconciliation store exceeds size limit" else
  in_context ("failed to atomically replace cat reconciliation store " +:+ path +:+ ": ")
    (replace_data_atomically Main bytes).

(** A mutex, which may be poisoned. *)
Definition lock_mutex (poisoned : string) : IO unit :=
  c <-- next_call;
  match c_error c with Some _ => fail poisoned | None => ret tt end.

(** The identity that is kept is not looked at again. *)
Definition rebind_data_identity : IO unit :=
  _ <-- open_data_read Main;
  lock_mutex "cat reconciliation data identity lock is poisoned".

Definition refresh_bound_data_identity : IO unit :=
  _ <-- ensure_parent_identity; rebind_data_identity.

Definition with_lock {A} (action : IO A) : IO A :=
  _ <-- lock_mutex "cat reconciliation operation lock is poisoned";
  _ <-- open_lock;
  _ <-- check ("failed to acquire cat reconciliation lock for " +:+ path +:+ ": ");
  finally
    (_ <-- ensure_lock_identity;
     _ <-- refresh_bound_data_identity;
     value <-- action;
     _ <-- rebind_data_identity;
     ret value)
    (check ("failed to release cat reconciliation lock for " +:+ path +:+ ": ")).

Definition load : IO Ledger := with_lock load_unlocked.

Definition upsert (state : CatRecordingReconciliationState) : IO unit :=
  if is_blank (rs_camera_id state) then fail "cat recording reconciliation camera_id is required" else
  with_lock (states <-- load_unlocked; write_unlocked (<[rs_camera_id state := state]> states)).

Definition remove (camera_id : string) : IO unit :=
  with_lock
    (states <-- load_unlocked;
     match states !! camera_id with
     | Some _ => write_unlocked (base.delete camera_id states)
     | None => ret tt
     end).
End file.

(** * A store of the ledger *)

(** What [upsert] and [remove] do to it. *)
Inductive LedgerOp := LedgerUpsert (state : CatRecordingReconciliationState) | LedgerRemove (camera_id : string).

Definition ledger_effect (op : LedgerOp) (m : Ledger) : Ledger :=
  match op with
  | LedgerUpsert state => if is_blank (rs_camera_id state) then m else <[rs_camera_id state := state]> m
  | LedgerRemove camera_id => base.delete camera_id m
  end.

(** An operation took place if it was answered, and may have otherwise. *)
Class LedgerStore (L : Type) := {
  ledger_load : L -> result string Ledger * L;
  ledger_op : LedgerOp -> L -> result string unit * L;
  ledger_of : L -> Ledger;
  ledger_load_ok l m : (ledger_load l).1 = Ok m -> m = ledger_of l;
  ledger_load_reads l : ledger_of (ledger_load l).2 = ledger_of l;
  ledger_op_ok op l : (ledger_op op l).1 = Ok tt -> ledger_of (ledger_op op l).2 = ledger_effect op (ledger_of l);
  ledger_op_any op l : ledger_of (ledger_op op l).2 = ledger_of l \/ ledger_of (ledger_op op l).2 = ledger_effect op (ledger_of l);
  ledger_upsert_blank state l : is_blank (rs_camera_id state) = true -> exists error, (ledger_op (LedgerUpsert state) l).1 = Err error
}.

(** * The file keeps the ledger *)

Section keeps.
Context `{!LedgerText} `{!LedgerTextLaws} (path : string).

Definition bytes_hold (bytes : string) (m : Ledger) : Prop :=
  bytes <> "" /\ (byte_count bytes <= MAX_RECONCILIATION_BYTES)%Z /\ ledger_from_slice bytes = Ok m.

Definition holds_ledger (d : Disk) (m : Ledger) : Prop :=
  match d_main d with None => m = ∅ | Some f => bytes_hold (f_bytes f) m end.

Lemma holds_unique d m m' : holds_ledger d m -> holds_ledger d m' -> m = m'.
Proof.
  unfold holds_ledger, bytes_hold. destruct (d_main d); [|congruence]. intros (_ & _ & H1) (_ & _ & H2). congruence.
Qed.

Lemma reads_mutex d i poisoned : reads d i (lock_mutex poisoned) tt.
Proof. apply does_call. intros c. destruct (c_error c); [apply does_fail|apply does_ret]; auto. Qed.

Lemma reads_load d i m : holds_ledger d m -> reads d i (load_unlocked path) m.
Proof.
  intros Hd. eapply reads_bind; [apply reads_open_data|]. unfold holds_ledger in Hd. cbn [file_of].
  destruct (d_main d) as [f|]; cbn; [|subst; apply reads_ret]. destruct Hd as (Hne & Hs & Hm).
  apply Z.ltb_ge in Hs as ->. eapply reads_bind; [apply reads_check|].
  destruct (f_bytes f) as [|a s]; [done|]. cbn [is_empty]. apply reads_lift. by rewrite Hm.
Qed.

Lemma reads_rebind d i : reads d i rebind_data_identity tt.
Proof. eapply reads_bind; [apply reads_open_data|apply reads_mutex]. Qed.

(** What may keep the ledger [m'] from being written. *)
Definition too_long (m' : Ledger) : Prop :=
  match ledger_to_vec m' with Ok bytes => (MAX_RECONCILIATION_BYTES < byte_count bytes)%Z | Err _ => True end.

Lemma write_spec d i m m' :
  holds_ledger d m ->
  does (too_long m') d i (write_unlocked path m')
    (fun _ d' i' => i' = i /\ holds_ledger d' m')
    (fun d' i' => i' = i /\ (holds_ledger d' m \/ holds_ledger d' m')).
Proof.
  intros Hd. unfold write_unlocked, too_long. destruct (ledger_to_vec m') as [bytes|e] eqn:Hv; cbn [map_err].
  - eapply does_reads; [by apply reads_lift|by auto|]. destruct (Z.ltb_spec MAX_RECONCILIATION_BYTES (byte_count bytes)).
    { apply does_fail; auto. }
    assert (forall stamp, holds_ledger (put_file Main bytes stamp d) m') as Hp.
    { intros stamp. destruct (ledger_text_law m' bytes Hv). by split. }
    apply does_in_context. eapply does_mono; [apply replace_spec|done| |].
    + intros [] d' i' [-> [stamp ->]]. auto.
    + intros d' i' [-> [->|[stamp ->]]]; auto.
  - intros calls. cbn. auto.
Qed.

Lemma with_lock_spec {A} (T : Prop) d i (action : IO A) Q E :
  E d i -> does T d i action Q E -> (forall a d' i', Q a d' i' -> E d' i') -> does T d i (with_lock path action) Q E.
Proof.
  intros He Ha HE. unfold with_lock.
  eapply does_reads; [apply reads_mutex|done|]. eapply does_reads; [apply reads_open_lock|done|].
  eapply does_reads; [apply reads_check|done|]. apply does_finally; [|by intros; apply reads_check|done].
  eapply does_reads; [apply reads_lock_identity|done|].
  eapply does_reads; [eapply reads_bind; [apply reads_parent|apply reads_rebind]|done|].
  eapply does_bind; [exact Ha|]. intros a d' i' Hq. eapply does_reads; [apply reads_rebind|by eapply HE|]. by apply does_ret.
Qed.

Lemma load_spec d i m : holds_ledger d m -> reads d i (load path) m.
Proof. intros Hd. apply with_lock_spec; [done|by apply reads_load|]. by intros a d' i' (_ & -> & ->). Qed.

Definition run_op (op : LedgerOp) : IO unit :=
  match op with LedgerUpsert state => upsert path state | LedgerRemove camera_id => remove path camera_id end.

(** What keeps an operation from taking place, when no call fails. *)
Definition refused (op : LedgerOp) (m : Ledger) : Prop :=
  match op with
  | LedgerUpsert state => is_blank (rs_camera_id state) = true \/ too_long (ledger_effect op m)
  | LedgerRemove camera_id => is_Some (m !! camera_id) /\ too_long (ledger_effect op m)
  end.

Lemma op_spec op d i m :
  holds_ledger d m ->
  does (refused op m) d i (run_op op)
    (fun _ d' i' => i' = i /\ holds_ledger d' (ledger_effect op m))
    (fun d' i' => i' = i /\ (holds_ledger d' m \/ holds_ledger d' (ledger_effect op m))).
Proof.
  intros Hd. destruct op as [state|camera_id]; cbn [run_op ledger_effect refused].
  - unfold upsert. destruct (is_blank _) eqn:Hb; [apply does_fail; auto|].
    apply with_lock_spec; [by auto| |by intros a d' i' [-> ?]; auto].
    eapply does_reads; [by apply reads_load|by auto|]. eapply does_mono; [by apply write_spec|by auto..].
  - apply with_lock_spec; [by auto| |by intros a d' i' [-> ?]; auto].
    eapply does_reads; [by apply reads_load|by auto|]. destruct (m !! camera_id) as [st|] eqn:Hl.
    + eapply does_mono; [by apply write_spec|by eauto..].
    + apply does_ret. split; [done|]. by rewrite delete_id.
Qed.

(** The file, and what the calls of each operation to come meet. *)
Record LedgerFile := { lf_disk : Disk; lf_calls : list (list Call) }.

Definition call_file {A} (m : IO A) (f : LedgerFile) : result string A * LedgerFile :=
  let '(r, w) := m {| w_disk := lf_disk f; w_calls := hd [] (lf_calls f); w_index := default_index |} in
  (r, {| lf_disk := w_disk w; lf_calls := tl (lf_calls f) |}).

Lemma call_file_op op f m :
  holds_ledger (lf_disk f) m ->
  (call_file (run_op op) f).1 = Ok tt /\ holds_ledger (lf_disk (call_file (run_op op) f).2) (ledger_effect op m)
  \/ (exists error, (call_file (run_op op) f).1 = Err error)
     /\ (holds_ledger (lf_disk (call_file (run_op op) f).2) m
         \/ holds_ledger (lf_disk (call_file (run_op op) f).2) (ledger_effect op m)).
Proof.
  intros Hd. pose proof (op_spec op (lf_disk f) default_index m Hd (hd [] (lf_calls f))) as Ho. unfold call_file.
  destruct (run_op op _) as [[[]|e] w]; cbn in *; destruct Ho as [_ Ho]; [left; tauto|right; split; [eauto|tauto]].
Qed.

Lemma call_file_load f m :
  holds_ledger (lf_disk f) m ->
  lf_disk (call_file (load path) f).2 = lf_disk f /\ forall a, (call_file (load path) f).1 = Ok a -> a = m.
Proof.
  intros Hd. pose proof (load_spec (lf_disk f) default_index m Hd (hd [] (lf_calls f))) as Ho. unfold call_file.
  destruct (load path _) as [[a|e] w]; cbn in *.
  - destruct Ho as [_ (-> & -> & _)]. split; [done|]. by intros ? [= ->].
  - destruct Ho as [_ (_ & -> & _)]. by split.
Qed.

(** Operations with what they answered. *)
Fixpoint run_ops (ops : list LedgerOp) (f : LedgerFile) : list (LedgerOp * bool) * LedgerFile :=
  match ops with
  | [] => ([], f)
  | op :: ops =>
      let '(r, f) := call_file (run_op op) f in
      let '(l, f) := run_ops ops f in
      ((op, is_ok r) :: l, f)
  end.

(** Those that were answered took place, and the others may have. *)
Inductive took_place : list (LedgerOp * bool) -> Ledger -> Ledger -> Prop :=
| took_none m : took_place [] m m
| took op answered l m m' : took_place l (ledger_effect op m) m' -> took_place ((op, answered) :: l) m m'
| took_not op l m m' : took_place l m m' -> took_place ((op, false) :: l) m m'.

Lemma run_ops_spec ops f m :
  holds_ledger (lf_disk f) m ->
  exists m', took_place (run_ops ops f).1 m m' /\ holds_ledger (lf_disk (run_ops ops f).2) m'.
Proof.
  revert f m. induction ops as [|op ops IH]; intros f m Hd; [exists m; by split; [constructor|]|]. cbn.
  pose proof (call_file_op op f m Hd) as Ho. destruct (call_file (run_op op) f) as [r f1]. cbn in Ho.
  assert (exists m1, holds_ledger (lf_disk f1) m1 /\ (m1 = ledger_effect op m \/ is_ok r = false /\ m1 = m)) as (m1 & H1 & Hm).
  { destruct Ho as [[-> ?]|[[e ->] [?|?]]]; eauto. }
  destruct (IH f1 m1 H1) as (m' & Ht & Hm'). destruct (run_ops ops f1) as [l f2]. cbn in *. exists m'. split; [|done].
  destruct Hm as [->|[-> ->]]; [by constructor|by apply took_not].
Qed.

(** C21. The ledger outlives the process: whatever operations it did before it ended, with
    calls that failed anywhere, the ledger that the next process loads has in it every
    operation that was answered, in order, and of each that was not all or nothing. *)
Theorem ledger_outlives_process ops calls m :
  let done := run_ops ops {| lf_disk := {| d_main := None; d_generation := None; d_siblings := [] |}; lf_calls := calls |} in
  (call_file (load path) done.2).1 = Ok m -> took_place done.1 ∅ m.
Proof.
  cbn zeta. set (f := {| lf_disk := _; lf_calls := _ |}). intros Hl.
  destruct (run_ops_spec ops f ∅ eq_refl) as (m' & Ht & Hm'). by destruct (call_file_load _ m' Hm') as [_ ->].
Qed.

(** And without failing calls, or a ledger too long for the file, each is answered. *)
Lemma ledger_op_answered op f m :
  holds_ledger (lf_disk f) m -> calm (hd [] (lf_calls f)) -> ~ refused op m ->
  (call_file (run_op op) f).1 = Ok tt.
Proof.
  intros Hd Hc Hr. pose proof (op_spec op (lf_disk f) default_index m Hd (hd [] (lf_calls f))) as Ho. unfold call_file.
  destruct (run_op op _) as [[[]|e] w]; [done|]. destruct Ho as [_ [[?|?] _]]; done.
Qed.

(** The ledger of a file that holds one. *)
Definition file_ledger (d : Disk) : Ledger :=
  match d_main d with
  | None => ∅
  | Some f => match ledger_from_slice (f_bytes f) with Ok m => m | Err _ => ∅ end
  end.

Lemma file_ledger_spec d m : holds_ledger d m -> file_ledger d = m.
Proof.
  unfold holds_ledger, file_ledger. destruct (d_main d); [|congruence]. by intros (_ & _ & ->).
Qed.

Lemma call_file_sound op f : (exists m, holds_ledger (lf_disk f) m) -> exists m, holds_ledger (lf_disk (call_file (run_op op) f).2) m.
Proof. intros [m Hd]. destruct (call_file_op op f m Hd) as [[_ ?]|[_ [?|?]]]; eauto. Qed.

Lemma load_sound f : (exists m, holds_ledger (lf_disk f) m) -> exists m, holds_ledger (lf_disk (call_file (load path) f).2) m.
Proof. intros [m Hd]. destruct (call_file_load f m Hd) as [-> _]. eauto. Qed.

(** The file is a store of the ledger. *)
Definition ledger_file : LedgerStore { f : LedgerFile | exists m, holds_ledger (lf_disk f) m }.
Proof.
  refine {| ledger_load f := ((call_file (load path) (proj1_sig f)).1,
              exist _ (call_file (load path) (proj1_sig f)).2 (load_sound _ (proj2_sig f)));
            ledger_op op f := ((call_file (run_op op) (proj1_sig f)).1,
              exist _ (call_file (run_op op) (proj1_sig f)).2 (call_file_sound op _ (proj2_sig f)));
            ledger_of f := file_ledger (lf_disk (proj1_sig f)) |}; cbn.
  - intros [f [m' Hf]] m; cbn. rewrite (file_ledger_spec _ m' Hf). by apply call_file_load.
  - intros [f [m' Hf]]; cbn. by destruct (call_file_load f m' Hf) as [-> _].
  - intros op [f [m Hf]]; cbn. intros Ho. rewrite (file_ledger_spec _ m Hf).
    destruct (call_file_op op f m Hf) as [[_ ?]|[[e He] _]]; [by apply file_ledger_spec|congruence].
  - intros op [f [m Hf]]; cbn. rewrite (file_ledger_spec _ m Hf).
    destruct (call_file_op op f m Hf) as [[_ H1]|[_ [H1|H1]]]; apply file_ledger_spec in H1; auto.
  - intros state [f [m Hf]] Hb; cbn. unfold call_file. cbn. unfold upsert. rewrite Hb. cbn. by eexists.
Defined.
End keeps.

(** * At a concrete input *)

Module Sample.

Definition kept : CatRecordingReconciliationState :=
  {| rs_camera_id := "cam"; rs_phase := PendingStart; rs_created_at_epoch_ms := 1000; rs_last_sequence := Some 1%Z;
     rs_event_id := Some "cat-activity-1"; rs_lease_id := None; rs_stream_profile := Some "main";
     rs_last_renewed_epoch_ms := 0; rs_detection_evidence := [] |}.

#[local] Instance state_eq_dec : EqDecision CatRecordingReconciliationState.
Proof. assert (EqDecision CatDetectionEvidence) by solve_decision. solve_decision. Defined.

Definition kept_ledger : Ledger := {["cam" := kept]}.

#[local] Instance text : LedgerText :=
  {| ledger_to_vec m := if decide (m = ∅) then Ok "{}" else if decide (m = kept_ledger) then Ok "{cam}" else Err "no text";
     ledger_from_slice bytes :=
       if (bytes =? "{}")%string then Ok ∅ else if (bytes =? "{cam}")%string then Ok kept_ledger else Err "no ledger" |}.

#[local] Instance text_laws : LedgerTextLaws.
Proof.
  intros m bytes. cbn. case_decide; [intros [= <-]; by subst|]. case_decide; [intros [= <-]; by subst|done].
Qed.

(** The ledger is written, and its removal fails after the file was replaced. *)
Definition failing_at (n : nat) : list Call := replicate n good_call ++ [{| c_error := Some "EIO"; c_written := 0; c_stamp := 0 |}].

Definition lived : list (LedgerOp * bool) * LedgerFile :=
  run_ops "/data/ledger.json" [LedgerUpsert kept; LedgerRemove "cam"; LedgerUpsert kept]
    {| lf_disk := {| d_main := None; d_generation := None; d_siblings := [] |}; lf_calls := [[]; failing_at 28; failing_at 16; []] |}.

Lemma ledger_outlives_process_witness :
  lived.1 = [(LedgerUpsert kept, true); (LedgerRemove "cam", false); (LedgerUpsert kept, false)]
  /\ (call_file (load "/data/ledger.json") lived.2).1 = Ok ∅ /\ took_place lived.1 ∅ ∅.
Proof.
  split; [by vm_compute|]. assert ((call_file (load "/data/ledger.json") lived.2).1 = Ok ∅) as Hl by by vm_compute.
  split; [exact Hl|]. exact (ledger_outlives_process "/data/ledger.json" _ _ _ Hl).
Defined.
End Sample.
