(* ===== verification/CatSampling.v ===== *)
(** Which frames of a recording are looked at, and what is concluded from them:
    [src/bin/agent_hub_admin_api.rs], with [CatRecordingVlmExecution] of
    [src/runtime/model_center.rs]. Offsets and durations are milliseconds, the
    duration as [ffprobe] measured it and rounded. A [BTreeMap] from offsets is the
    list of its entries, in order.

    The theorems: the frames of one recording are at distinct moments of it, numbered
    in order and bounded in number, the classifier is given nine. *)
From S2P Require Import Prelude RustString CatRecords.
Local Open Scope string_scope.
Local Open Scope list_scope.

Definition CAT_RECORDING_VALIDATION_MAX_ATTEMPTS : Z := 4.
Definition CAT_RECORDING_VALIDATION_RETRY_DELAYS_SECONDS : list Z := [10; 30; 120]%Z.
Definition CAT_RECORDING_VALIDATION_FRAMES_PER_ROUND : nat := 5.
Definition CAT_RECORDING_VALIDATION_MAX_FRAMES : nat := 10.
Definition CAT_RECORDING_VALIDATION_FRAME_MARGIN_MS : Z := 100.
Definition CAT_RECORDING_VALIDATION_FOLLOWUP_OFFSETS_MS : list Z := [250; 500; 1000]%Z.

Record CatRecordingSampleTarget := { tg_frame_index : Z; tg_offset_ms : Z }.

Record CatRecordingVlmExecution := {
  vx_available : bool;
  vx_status : string;
  vx_summary : string;
  vx_provider_key : string;
  vx_model_endpoint_id : option string;
  vx_model_name : string;
  vx_cat_present : bool;
  vx_cat_frame_indices : list Z;
  vx_behavior_tags : list string;
  vx_reason_code : string;
  vx_sampled_frame_count : Z
}.

(** [CatRecordingVlmExecution::default] *)
Definition default_execution : CatRecordingVlmExecution :=
  {| vx_available := false; vx_status := ""; vx_summary := ""; vx_provider_key := ""; vx_model_endpoint_id := None;
     vx_model_name := ""; vx_cat_present := false; vx_cat_frame_indices := []; vx_behavior_tags := [];
     vx_reason_code := ""; vx_sampled_frame_count := 0 |}.

(** * Offsets *)

Definition abs_diff (a b : Z) : Z := Z.abs (a - b).
Definition saturating_sub (a b : Z) : Z := Z.max 0 (a - b).

Definition bounded_cat_recording_sample_offset (offset_ms duration_ms : Z) : Z :=
  if (duration_ms <=? u64_saturating_mul CAT_RECORDING_VALIDATION_FRAME_MARGIN_MS 2)%Z then (duration_ms / 2)%Z
  else Z.min (Z.max offset_ms CAT_RECORDING_VALIDATION_FRAME_MARGIN_MS)
         (duration_ms - CAT_RECORDING_VALIDATION_FRAME_MARGIN_MS).

(** [entry(k).and_modify(max).or_insert(v)] *)
Fixpoint insert_max (k v : Z) (m : list (Z * Z)) : list (Z * Z) :=
  match m with
  | [] => [(k, v)]
  | (k', v') :: m' =>
      match Z.compare k k' with
      | Lt => (k, v) :: m
      | Eq => (k', Z.max v' v) :: m'
      | Gt => (k', v') :: insert_max k v m'
      end
  end.

(** The body of the loop over the evidence. *)
Definition add_evidence (r : CatRecordingValidationRecord) (duration_ms : Z) (offsets : list (Z * Z))
    (e : CatDetectionEvidence) : list (Z * Z) :=
  let lower_bound := saturating_sub (vr_started_at_epoch_ms r) 2000 in
  let upper_bound :=
    u128_saturating_add (Z.max (vr_ended_at_epoch_ms r) (u128_saturating_add (vr_started_at_epoch_ms r) duration_ms)) 1000 in
  if (ce_frame_epoch_ms e <? lower_bound)%Z || (upper_bound <? ce_frame_epoch_ms e)%Z then offsets else
  let raw_offset := saturating_sub (ce_frame_epoch_ms e) (vr_started_at_epoch_ms r) in
  insert_max (bounded_cat_recording_sample_offset (Z.min raw_offset u64_max) duration_ms) (ce_confidence_ppm e) offsets.

Definition cat_recording_evidence_offsets (r : CatRecordingValidationRecord) (duration_ms : Z) : list (Z * Z) :=
  if (vr_started_at_epoch_ms r =? 0)%Z || (duration_ms =? 0)%Z then []
  else foldl (add_evidence r duration_ms) [] (vr_detection_evidence r).

(** [fold] with [contains] *)
Definition push_new (offsets : list Z) (offset : Z) : list Z :=
  if bool_decide (offset ∈ offsets) then offsets else offsets ++ [offset].

Definition percent_offset (duration_ms percent : Z) : Z :=
  bounded_cat_recording_sample_offset (u64_saturating_mul duration_ms percent / 100) duration_ms.

Definition uniform_cat_recording_sample_offsets (duration_ms : Z) : list Z :=
  foldl push_new [] (percent_offset duration_ms <$> [50; 30; 70; 10; 90]%Z).

Definition uniform_cat_recording_classifier_offsets (duration_ms : Z) : list Z :=
  foldl push_new [] (percent_offset duration_ms <$> [50; 10; 90; 30; 70; 20; 80; 40; 60]%Z).

(** [Iterator::max_by_key]: the last of the greatest. *)
Fixpoint max_by {A} (cmp : A -> A -> comparison) (l : list A) : option A :=
  match l with
  | [] => None
  | x :: l => match max_by cmp l with
              | Some y => match cmp x y with Gt => Some x | _ => Some y end
              | None => Some x
              end
  end.

Definition enumerate {A} (l : list A) : list (nat * A) := combine (seq 0 (length l)) l.

Definition offset_at (candidates : list (Z * Z)) (index : nat) : Z := default 0%Z (fst <$> candidates !! index).

(** [min().unwrap_or_default()] *)
Definition minimum_distance (candidates : list (Z * Z)) (selected : list nat) (offset : Z) : Z :=
  match (fun index => abs_diff offset (offset_at candidates index)) <$> selected with
  | [] => 0%Z
  | x :: l => foldl Z.min x l
  end.

Definition by_distance (a b : nat * (Z * Z)) : comparison :=
  then_with (Z.compare a.2.1 b.2.1) (Z.compare a.2.2 b.2.2).

(** The candidate that is farthest from those selected, the most confident of such. *)
Definition next_candidate (candidates : list (Z * Z)) (selected : list nat) : option nat :=
  fst <$> max_by by_distance
    ((fun x => (x.1, (minimum_distance candidates selected x.2.1, x.2.2)))
       <$> List.filter (fun x => negb (bool_decide (x.1 ∈ selected))) (enumerate candidates)).

(** The loop; a round selects one. *)
Fixpoint select_more (rounds : nat) (candidates : list (Z * Z)) (selected : list nat) : list nat :=
  match rounds with
  | O => selected
  | S rounds =>
      if (length selected <? length candidates)%nat then
        match next_candidate candidates selected with
        | Some next => select_more rounds candidates (selected ++ [next])
        | None => selected
        end
      else selected
  end.

Definition push_index (limit : nat) (selected : list nat) (index : nat) : list nat :=
  if (limit <=? length selected)%nat then selected
  else if bool_decide (index ∈ selected) then selected else selected ++ [index].

Definition selected_indices (candidates : list (Z * Z)) (limit : nat) : list nat :=
  let peak_index :=
    default 0%nat (fst <$> max_by (fun a b => Z.compare a.2.2 b.2.2) (enumerate candidates)) in
  let selected := foldl (push_index limit) [peak_index] [0%nat; (length candidates - 1)%nat] in
  select_more (limit - length selected) candidates selected.

Definition select_diverse_cat_recording_offsets (candidates : list (Z * Z)) (limit : nat) : list Z :=
  if (length candidates =? 0)%nat || (limit =? 0)%nat then []
  else offset_at candidates <$> selected_indices candidates limit.

Definition cat_recording_targets_from_offsets (offsets : list Z) (start_index : Z) : list CatRecordingSampleTarget :=
  omap (fun x =>
    if (Z.of_nat x.1 <=? 255)%Z && (start_index + Z.of_nat x.1 <=? 255)%Z
       && (start_index + Z.of_nat x.1 <=? Z.of_nat CAT_RECORDING_VALIDATION_MAX_FRAMES)%Z
    then Some {| tg_frame_index := start_index + Z.of_nat x.1; tg_offset_ms := x.2 |} else None)
    (enumerate offsets).

(** * The frames of a round *)

(** The loop over the uniform offsets. *)
Fixpoint add_uniform (offsets candidates : list Z) : list Z :=
  match candidates with
  | [] => offsets
  | candidate :: candidates =>
      if (9 <=? length offsets)%nat then offsets
      else if list_all (fun offset => CAT_RECORDING_VALIDATION_FRAME_MARGIN_MS <=? abs_diff offset candidate)%Z offsets
      then add_uniform (offsets ++ [candidate]) candidates
      else add_uniform offsets candidates
  end.

Definition select_cat_recording_classifier_sample_targets (r : CatRecordingValidationRecord) (duration_ms : Z)
  : string * list CatRecordingSampleTarget :=
  let evidence := cat_recording_evidence_offsets r duration_ms in
  let offsets := select_diverse_cat_recording_offsets evidence 5 in
  let strategy := match evidence with [] => "uniform_9" | _ => "yolo_guided_hybrid_9" end in
  let offsets := add_uniform offsets (uniform_cat_recording_classifier_offsets duration_ms) in
  (strategy, cat_recording_targets_from_offsets (take 9 offsets) 1).

Definition select_initial_cat_recording_vlm_sample_targets (r : CatRecordingValidationRecord) (duration_ms : Z)
  : string * list CatRecordingSampleTarget :=
  let evidence := cat_recording_evidence_offsets r duration_ms in
  let '(strategy, offsets) :=
    match evidence with
    | [] => ("uniform_fallback", uniform_cat_recording_sample_offsets duration_ms)
    | _ => ("yolo_guided_adaptive",
            select_diverse_cat_recording_offsets evidence CAT_RECORDING_VALIDATION_FRAMES_PER_ROUND)
    end in
  (strategy, cat_recording_targets_from_offsets offsets 1).

Definition insert_cat_recording_followup_candidate (initial_targets : list CatRecordingSampleTarget)
    (duration_ms raw_offset_ms priority : Z) (candidates : list (Z * Z)) : list (Z * Z) :=
  let offset := bounded_cat_recording_sample_offset raw_offset_ms duration_ms in
  if list_any (fun target => abs_diff (tg_offset_ms target) offset <? CAT_RECORDING_VALIDATION_FRAME_MARGIN_MS)%Z
       initial_targets
  then candidates else insert_max offset priority candidates.

(** The two candidates at a distance from a seed. *)
Definition add_neighbors (initial_targets : list CatRecordingSampleTarget) (duration_ms neighbor_priority seed : Z)
    (candidates : list (Z * Z)) (delta : Z) : list (Z * Z) :=
  let priority := saturating_sub neighbor_priority delta in
  insert_cat_recording_followup_candidate initial_targets duration_ms (u64_saturating_add seed delta) priority
    (insert_cat_recording_followup_candidate initial_targets duration_ms (saturating_sub seed delta) priority candidates).

Definition followup_candidates (r : CatRecordingValidationRecord) (duration_ms : Z)
    (initial_targets : list CatRecordingSampleTarget) (positive_offsets : list Z) : list (Z * Z) :=
  let evidence := cat_recording_evidence_offsets r duration_ms in
  let has_positive_seed := negb (length positive_offsets =? 0)%nat in
  let seed_offsets :=
    if has_positive_seed then positive_offsets
    else match evidence with [] => tg_offset_ms <$> initial_targets | _ => evidence.*1 end in
  let candidates :=
    foldl (fun candidates x =>
             insert_cat_recording_followup_candidate initial_targets duration_ms x.1
               (u32_saturating_add x.2 (if has_positive_seed then 0 else 1000000)) candidates) [] evidence in
  let neighbor_priority := if has_positive_seed then 2000000%Z else 1000000%Z in
  foldl (fun candidates seed =>
           foldl (add_neighbors initial_targets duration_ms neighbor_priority seed) candidates
             CAT_RECORDING_VALIDATION_FOLLOWUP_OFFSETS_MS) candidates seed_offsets.

Definition select_followup_cat_recording_sample_targets (r : CatRecordingValidationRecord) (duration_ms : Z)
    (initial_targets : list CatRecordingSampleTarget) (positive_offsets : list Z) : list CatRecordingSampleTarget :=
  let candidates := followup_candidates r duration_ms initial_targets positive_offsets in
  let available_slots := (CAT_RECORDING_VALIDATION_MAX_FRAMES - length initial_targets)%nat in
  let offsets :=
    select_diverse_cat_recording_offsets candidates
      (Nat.min available_slots CAT_RECORDING_VALIDATION_FRAMES_PER_ROUND) in
  cat_recording_targets_from_offsets offsets (Z.min (Z.of_nat (length initial_targets + 1)) 255).

(** * Conclusions *)

Definition should_run_cat_recording_followup (x : CatRecordingVlmExecution) (r : CatRecordingValidationRecord) : bool :=
  (length (vx_cat_frame_indices x) =? 1)%nat || (vx_reason_code x =? "uncertain")
  || ((length (vx_cat_frame_indices x) =? 0)%nat && negb (length (vr_detection_evidence r) =? 0)%nat).

Definition cat_recording_positive_offsets (targets : list CatRecordingSampleTarget) (positive_frame_indices : list Z)
  : list Z :=
  tg_offset_ms <$> List.filter (fun t => bool_decide (tg_frame_index t ∈ positive_frame_indices)) targets.

Definition push_tag (tags : list string) (tag : string) : list string :=
  if str_in tag tags then tags else tags ++ [tag].

Definition u8_saturating_add (a b : Z) : Z := Z.min (a + b) 255.

Definition merge_cat_recording_vlm_executions (executions : list CatRecordingVlmExecution) : CatRecordingVlmExecution :=
  let merged := default default_execution (head executions) in
  let indices := dedup_by id (sort_by Z.compare (concat (vx_cat_frame_indices <$> executions))) in
  let sampled := foldl (fun count x => u8_saturating_add count (vx_sampled_frame_count x)) 0%Z executions in
  let has_uncertain := list_any (fun x => vx_reason_code x =? "uncertain") executions in
  {| vx_available := list_all vx_available executions; vx_status := vx_status merged;
     vx_summary :=
       (if (2 <=? length indices)%nat
        then "共抽样 " +:+ show_Z sampled +:+ " 帧，其中 " +:+ show_nat (length indices) +:+ " 个不同时间点确认出现猫。"
        else if (length indices =? 1)%nat
        then "共抽样 " +:+ show_Z sampled +:+ " 帧，仅一个时间点确认出现猫，需要复核。"
        else if has_uncertain
        then "共抽样 " +:+ show_Z sampled +:+ " 帧仍未形成明确结论，需要复核。"
        else "共抽样 " +:+ show_Z sampled +:+ " 帧均未看见猫。");
     vx_provider_key := vx_provider_key merged; vx_model_endpoint_id := vx_model_endpoint_id merged;
     vx_model_name := vx_model_name merged; vx_cat_present := negb (length indices =? 0)%nat;
     vx_cat_frame_indices := indices;
     vx_behavior_tags := foldl push_tag [] (concat (vx_behavior_tags <$> executions));
     vx_reason_code :=
       (if (2 <=? length indices)%nat then "cat_visible"
        else if (length indices =? 1)%nat || has_uncertain then "uncertain"
        else "no_cat_visible");
     vx_sampled_frame_count := sampled |}.

Definition cat_recording_validation_status_for_decision (d : CatRecordingValidationDecision)
  : CatRecordingValidationStatus :=
  if dc_cat_present d && (2 <=? length (dc_cat_frame_indices d))%nat then Accepted
  else if negb (dc_cat_present d) && (length (dc_cat_frame_indices d) =? 0)%nat && (dc_reason_code d =? "no_cat_visible")
  then Rejected
  else ReviewRequired.

(** In seconds. *)
Definition cat_recording_validation_retry_delay (attempt_count : Z) : option Z :=
  if (CAT_RECORDING_VALIDATION_MAX_ATTEMPTS <=? attempt_count)%Z then None
  else CAT_RECORDING_VALIDATION_RETRY_DELAYS_SECONDS !! Z.to_nat (saturating_sub attempt_count 1).

Definition is_cat_recording_ai_resource_contention (error : string) : bool :=
  (error =? "cat_classifier_ai_resource_queue_full") || (error =? "cat_classifier_ai_resource_wait_timeout").

Lemma foldl_keep {A B} (P : A -> Prop) (f : A -> B -> A) l a :
  (forall a x, x ∈ l -> P a -> P (f a x)) -> P a -> P (foldl f a l).
Proof.
  revert a. induction l as [|x l IH]; intros a Hf Ha; [done|]. cbn. apply IH; [|apply Hf; [left|done]].
  intros a' x' Hx. apply Hf. by right.
Qed.

(** * Offsets in the recording *)

(** Within the recording, and away from its ends where it is long enough. *)
Definition in_recording (duration_ms o : Z) : Prop :=
  (0 <= o <= duration_ms)%Z /\ ((200 < duration_ms)%Z -> (100 <= o <= duration_ms - 100)%Z).

Lemma bounded_offset o d : (0 <= d)%Z -> in_recording d (bounded_cat_recording_sample_offset o d).
Proof.
  intros Hd. unfold in_recording, bounded_cat_recording_sample_offset, CAT_RECORDING_VALIDATION_FRAME_MARGIN_MS, u64_saturating_mul, u64_max.
  destruct (Z.leb_spec d (Z.min (100 * 2) 18446744073709551615)) as [Hs|Hs]; [|lia].
  pose proof (Z.div_pos d 2). pose proof (Z.div_le_upper_bound d 2 d). lia.
Qed.

(** The keys of a [BTreeMap], in order, with [P]. *)
Definition ascending (P : Z -> Prop) (m : list (Z * Z)) : Prop := StronglySorted Z.lt m.*1 /\ Forall P m.*1.

Lemma insert_max_keys k v m x : x ∈ (insert_max k v m).*1 -> x = k \/ x ∈ m.*1.
Proof.
  induction m as [|[k' v'] m IH]; cbn; [by intros ?%list_elem_of_singleton; left|].
  destruct (Z.compare_spec k k') as [->|Hlt|Hgt]; cbn; [by right| |].
  - intros [->|Hx]%elem_of_cons; [by left|by right].
  - intros [->|Hx]%elem_of_cons; [by right; left|]. destruct (IH Hx) as [->|Hm]; [by left|]. by do 2 right.
Qed.

Lemma insert_max_ascending P k v m : P k -> ascending P m -> ascending P (insert_max k v m).
Proof.
  intros Hk [Hs Hp]. split; cycle 1.
  { apply Forall_forall. intros x [->|Hx]%insert_max_keys; [done|]. rewrite Forall_forall in Hp. by apply Hp. }
  clear Hp Hk. induction m as [|[k' v'] m IH]; cbn in *; [by repeat constructor|].
  apply StronglySorted_inv in Hs as [Hs Hh]. destruct (Z.compare_spec k k') as [->|Hlt|Hgt]; cbn.
  - by constructor.
  - constructor; [by constructor|]. constructor; [done|]. eapply Forall_impl; [exact Hh|]. cbn. lia.
  - constructor; [by apply IH|]. apply Forall_forall. rewrite Forall_forall in Hh. intros x [->|Hx]%insert_max_keys; [done|by apply Hh].
Qed.

Lemma ascending_nil P : ascending P [].
Proof. split; constructor. Qed.

Lemma ascending_nodup P m : ascending P m -> NoDup m.*1.
Proof.
  intros [Hs _]. induction Hs as [|x l Hs IH Hx]; constructor; [|done]. intros Hin. rewrite Forall_forall in Hx.
  specialize (Hx _ Hin). lia.
Qed.

Lemma ascending_mono (P Q : Z -> Prop) m : (forall x, P x -> Q x) -> ascending P m -> ascending Q m.
Proof. intros HPQ [Hs Hp]. split; [done|]. by eapply Forall_impl. Qed.

Lemma evidence_ascending r d : (0 <= d)%Z -> ascending (in_recording d) (cat_recording_evidence_offsets r d).
Proof.
  intros Hd. unfold cat_recording_evidence_offsets. destruct (_ || _); [apply ascending_nil|].
  apply foldl_keep; [|apply ascending_nil]. intros m e _ Hm. unfold add_evidence.
  destruct (_ || _); [done|]. apply insert_max_ascending; [by apply bounded_offset|done].
Qed.

(** * The choice of candidates *)

Lemma max_by_in {A} (cmp : A -> A -> comparison) l x : max_by cmp l = Some x -> x ∈ l.
Proof.
  revert x. induction l as [|y l IH]; intros x; [done|]. cbn. destruct (max_by cmp l) as [z|]; [|intros [= <-]; left].
  destruct (cmp y z); intros [= <-]; (left || (right; by apply IH)).
Qed.

Lemma max_by_none {A} (cmp : A -> A -> comparison) l : max_by cmp l = None -> l = [].
Proof. destruct l as [|x l]; [done|]. cbn. destruct (max_by cmp l) as [z|]; [by destruct (cmp x z)|done]. Qed.

Lemma max_by_greatest {A} (cmp : A -> A -> comparison) `{!TotalCmp cmp} l x :
  max_by cmp l = Some x -> Forall (fun y => cmp_le cmp y x) l.
Proof.
  revert x. induction l as [|y l IH]; intros x; [done|]. cbn. destruct (max_by cmp l) as [z|] eqn:Hz.
  - specialize (IH z eq_refl). destruct (cmp y z) eqn:E; intros [= <-]; constructor; try done; try (by apply (cmp_le_refl cmp)).
    1, 2: unfold cmp_le; by rewrite E.
    apply (cmp_gt_le cmp) in E. eapply Forall_impl; [exact IH|]. intros u Hu. by apply (cmp_trans u z y).
  - intros [= <-]. apply max_by_none in Hz as ->. constructor; [by apply (cmp_le_refl cmp)|constructor].
Qed.

Lemma enumerate_lookup {A} (l : list A) i x : (i, x) ∈ enumerate l <-> l !! i = Some x.
Proof.
  unfold enumerate. assert (forall k, (i, x) ∈ combine (seq k (length l)) l <-> (k <= i)%nat /\ l !! (i - k)%nat = Some x) as Hk.
  { revert i. induction l as [|y l IH]; intros i k; cbn; [rewrite lookup_nil; split; [by intros ?%not_elem_of_nil|by intros [_ ?]]|].
    rewrite elem_of_cons, IH. split.
    - intros [[= -> ->]|[Hle Hx]]; [by rewrite Nat.sub_diag|]. split; [lia|]. by replace (i - k)%nat with (S (i - S k)) by lia.
    - intros [Hle Hx]. destruct (decide (i = k)) as [->|Hne]; [left; rewrite Nat.sub_diag in Hx; by injection Hx as ->|right].
      split; [lia|]. by replace (i - k)%nat with (S (i - S k)) in Hx by lia. }
  rewrite Hk, Nat.sub_0_r. intuition lia.
Qed.

Section choice.
Context (candidates : list (Z * Z)).

(** Distinct places among the candidates. *)
Definition places (selected : list nat) : Prop := NoDup selected /\ Forall (fun i => i < length candidates) selected.

Lemma places_length selected : places selected -> length selected <= length candidates.
Proof.
  intros [Hnd Hlt]. rewrite <- (length_seq (length candidates) 0). apply submseteq_length, NoDup_submseteq; [done|].
  intros i Hi. apply elem_of_seq. rewrite Forall_forall in Hlt. specialize (Hlt _ Hi). lia.
Qed.

Lemma places_snoc selected i : places selected -> i < length candidates -> i ∉ selected -> places (selected ++ [i]).
Proof.
  intros [Hnd Hlt] Hi Hn. split; [|by rewrite Forall_app, Forall_singleton].
  apply NoDup_app. split; [done|]. split; [by intros j Hj ->%list_elem_of_singleton|apply NoDup_singleton].
Qed.

Lemma next_candidate_some selected :
  places selected -> length selected < length candidates ->
  exists i, next_candidate candidates selected = Some i /\ i < length candidates /\ i ∉ selected.
Proof.
  intros Hp Hlt. unfold next_candidate. destruct (max_by _ _) as [[i x]|] eqn:Hm; cbn [fmap option_fmap option_map fst].
  - exists i. split; [done|]. apply max_by_in, list_elem_of_fmap in Hm as ([j y] & [= -> ->] & Hin).
    apply elem_of_list_filter in Hin as [Hin Hn]. apply enumerate_lookup in Hin. split; [by eapply lookup_lt_Some|].
    cbn in Hn. by apply negb_true_iff, bool_decide_eq_false in Hn.
  - exfalso. apply max_by_none, fmap_nil_inv in Hm.
    assert (length candidates <= length selected) as Hge; [|lia].
    rewrite <- (length_seq (length candidates) 0) at 1. apply submseteq_length, NoDup_submseteq; [apply NoDup_seq|].
    intros i [_ Hi]%elem_of_seq. destruct (decide (i ∈ selected)) as [|Hn]; [done|exfalso].
    destruct (lookup_lt_is_Some_2 candidates i) as [y Hy]; [lia|].
    assert ((i, y) ∈ List.filter (fun x => negb (bool_decide (x.1 ∈ selected))) (enumerate candidates)) as Hin.
    { apply elem_of_list_filter. split; [by apply enumerate_lookup|]. by apply negb_true_iff, bool_decide_eq_false. }
    rewrite Hm in Hin. by apply not_elem_of_nil in Hin.
Qed.

Lemma select_more_spec rounds selected :
  places selected ->
  exists rest, select_more rounds candidates selected = selected ++ rest /\ places (selected ++ rest)
    /\ length rest = Nat.min rounds (length candidates - length selected).
Proof.
  revert selected. induction rounds as [|rounds IH]; intros selected Hp; [exists []; by rewrite app_nil_r|]. cbn [select_more].
  destruct (Nat.ltb_spec (length selected) (length candidates)) as [Hlt|Hge].
  - destruct (next_candidate_some _ Hp Hlt) as (i & -> & Hi & Hn).
    destruct (IH (selected ++ [i])) as (rest & -> & Hr & Hl); [by apply places_snoc|].
    exists (i :: rest). rewrite <- app_assoc in *. cbn [app] in *. split; [done|]. split; [done|]. rewrite length_app in Hl. cbn [length] in *. lia.
  - exists []. rewrite app_nil_r. split; [done|]. split; [done|]. cbn [length]. lia.
Qed.

Lemma push_index_places limit selected i : places selected -> i < length candidates -> places (push_index limit selected i).
Proof.
  intros Hp Hi. unfold push_index. destruct (_ <=? _)%nat; [done|]. case_bool_decide as Hd; [done|]. by apply places_snoc.
Qed.

Lemma push_index_grows limit selected i :
  exists rest, push_index limit selected i = selected ++ rest /\ (length selected <= limit -> length (selected ++ rest) <= limit).
Proof.
  unfold push_index. destruct (Nat.leb_spec limit (length selected)) as [Hl|Hl]; [exists []; by rewrite app_nil_r|].
  case_bool_decide; [exists []; by rewrite app_nil_r|]. exists [i]. split; [done|]. rewrite length_app. cbn. lia.
Qed.

(** As many as there may be, at distinct places, and first the surest. *)
Lemma selected_indices_spec limit :
  candidates <> [] -> 0 < limit ->
  exists peak rest, selected_indices candidates limit = peak :: rest /\ places (peak :: rest)
    /\ length (peak :: rest) = Nat.min limit (length candidates)
    /\ exists o c, candidates !! peak = Some (o, c) /\ Forall (fun x => (x.2 <= c)%Z) candidates.
Proof.
  intros Hne Hl. unfold selected_indices.
  destruct (max_by _ (enumerate candidates)) as [[peak [o c]]|] eqn:Hm.
  2:{ apply max_by_none in Hm. by destruct candidates as [|x l]. }
  cbn [fmap option_fmap option_map default fst foldl].
  assert (TotalCmp (fun a b : nat * (Z * Z) => Z.compare a.2.2 b.2.2)) as Htc by total_cmp.
  pose proof (max_by_greatest _ _ _ Hm) as Hg. apply max_by_in, enumerate_lookup in Hm.
  assert (places [peak]) as Hp0.
  { split; [apply NoDup_singleton|]. apply Forall_singleton. by eapply lookup_lt_Some. }
  assert (0 < length candidates) as Hlen by (destruct candidates; [done|cbn; lia]).
  set (s1 := push_index limit [peak] 0). set (s2 := push_index limit s1 (length candidates - 1)).
  assert (places s2) as Hp2 by (apply push_index_places; [by apply push_index_places|lia]).
  destruct (push_index_grows limit [peak] 0) as (r1 & E1 & L1). fold s1 in E1. rewrite <- E1 in L1.
  destruct (push_index_grows limit s1 (length candidates - 1)) as (r2 & E2 & L2). fold s2 in E2. rewrite <- E2 in L2.
  change (id peak) with peak. fold s1 s2.
  destruct (select_more_spec (limit - length s2) s2 Hp2) as (rest & Hs & Hp & Hlr).
  exists peak, (r1 ++ r2 ++ rest).
  assert (s2 ++ rest = peak :: r1 ++ r2 ++ rest) as Es by (rewrite E2, E1; by rewrite <- !app_assoc).
  rewrite <- Es. split; [done|]. split; [done|]. split.
  - rewrite length_app, Hlr. pose proof (places_length _ Hp2). cbn [length] in L1. lia.
  - exists o, c. split; [done|]. apply Forall_forall. intros [o' c'] Hin. apply list_elem_of_lookup in Hin as [i Hi].
    rewrite Forall_forall in Hg. specialize (Hg (i, (o', c'))). rewrite enumerate_lookup in Hg. specialize (Hg Hi).
    unfold cmp_le in Hg. cbn in *. by rewrite Z.compare_gt_iff in Hg; lia.
Qed.
End choice.

Lemma offset_at_in candidates i : i < length candidates -> offset_at candidates i ∈ candidates.*1.
Proof.
  intros Hi. unfold offset_at. destruct (lookup_lt_is_Some_2 candidates i Hi) as [x Hx]. rewrite Hx. cbn.
  apply list_elem_of_fmap. exists x. split; [done|]. by eapply list_elem_of_lookup_2.
Qed.

Lemma diverse_offsets P candidates limit :
  ascending P candidates ->
  let offsets := select_diverse_cat_recording_offsets candidates limit in
  NoDup offsets /\ Forall P offsets /\ length offsets = Nat.min limit (length candidates)
  /\ (candidates <> [] -> 0 < limit ->
      exists o c, head offsets = Some o /\ (o, c) ∈ candidates /\ Forall (fun x => (x.2 <= c)%Z) candidates).
Proof.
  intros Ha. cbn zeta. unfold select_diverse_cat_recording_offsets.
  destruct (Nat.eqb_spec (length candidates) 0) as [E|Hne].
  { destruct candidates; [|done]. cbn. rewrite Nat.min_0_r. repeat split; try constructor. done. }
  destruct (Nat.eqb_spec limit 0) as [->|Hl]; cbn [orb].
  { repeat split; try constructor. lia. }
  assert (candidates <> []) as Hc by by intros ->.
  destruct (selected_indices_spec candidates limit Hc) as (peak & rest & -> & [Hnd Hlt] & Hlen & o & c & Hpk & Hg); [lia|].
  split; [|split; [|split]].
  - apply (NoDup_fmap_2_strong (offset_at candidates)); [|done]. intros i j Hi Hj E. rewrite Forall_forall in Hlt.
    pose proof (Hlt _ Hi) as Hi'. pose proof (Hlt _ Hj) as Hj'. unfold offset_at in E.
    destruct (lookup_lt_is_Some_2 candidates i Hi') as [x Hx], (lookup_lt_is_Some_2 candidates j Hj') as [y Hy].
    rewrite Hx, Hy in E. cbn in E. change (id x.1) with x.1 in E. change (id y.1) with y.1 in E.
    apply (NoDup_lookup candidates.*1 i j x.1); [by eapply ascending_nodup|by rewrite list_lookup_fmap, Hx|].
    rewrite list_lookup_fmap, Hy. cbn. by rewrite E.
  - apply Forall_fmap, Forall_forall. intros i Hi. rewrite Forall_forall in Hlt. destruct Ha as [_ Hp].
    rewrite Forall_forall in Hp. by apply Hp, offset_at_in, Hlt.
  - by rewrite length_fmap.
  - intros _ _. exists o, c. split; [cbn; unfold offset_at; by rewrite Hpk|]. split; [by eapply list_elem_of_lookup_2|done].
Qed.

(** * Uniform offsets *)

Lemma push_offset_spec l acc :
  NoDup acc -> NoDup (foldl push_new acc l) /\ (forall x, x ∈ foldl push_new acc l <-> x ∈ acc \/ x ∈ l).
Proof.
  revert acc. induction l as [|y l IH]; intros acc Hacc; cbn.
  { split; [done|]. intros x. split; [by left|]. by intros [?|?%not_elem_of_nil]. }
  assert (NoDup (push_new acc y) /\ forall x, x ∈ push_new acc y <-> x ∈ acc \/ x = y) as [Hnd Hin].
  { unfold push_new. case_bool_decide as Hy.
    - split; [done|]. intros x. split; [by left|]. by intros [?| ->].
    - split; [|intros x; rewrite elem_of_app, list_elem_of_singleton; done]. apply NoDup_app. split; [done|].
      split; [by intros z Hz ->%list_elem_of_singleton|apply NoDup_singleton]. }
  destruct (IH _ Hnd) as [Hnd' Hin']. split; [done|]. intros x. rewrite Hin', Hin, elem_of_cons. tauto.
Qed.

Lemma percent_in_recording d p : (0 <= d)%Z -> in_recording d (percent_offset d p).
Proof. apply bounded_offset. Qed.

Lemma uniform_offsets d :
  (0 <= d)%Z ->
  let offsets := uniform_cat_recording_sample_offsets d in
  NoDup offsets /\ Forall (in_recording d) offsets /\ 0 < length offsets <= 5.
Proof.
  intros Hd. cbn zeta. unfold uniform_cat_recording_sample_offsets.
  destruct (push_offset_spec (percent_offset d <$> [50; 30; 70; 10; 90]%Z) [] NoDup_nil_2) as [Hnd Hin].
  set (l := foldl push_new [] _) in *. split; [done|]. split; [|split].
  - apply Forall_forall. intros x Hx. apply Hin in Hx as [?%not_elem_of_nil|(p & -> & _)%list_elem_of_fmap]; [done|].
    by apply percent_in_recording.
  - destruct l as [|x l']; [|cbn; lia]. exfalso. apply (not_elem_of_nil (percent_offset d 50)), Hin. right. left.
  - change 5 with (length (percent_offset d <$> [50; 30; 70; 10; 90]%Z)). apply submseteq_length, NoDup_submseteq; [done|].
    intros x Hx. apply Hin in Hx as [?%not_elem_of_nil|]; done.
Qed.

(** * Targets *)

Lemma targets_spec offsets start :
  (1 <= start)%Z -> (start + Z.of_nat (length offsets) <= 11)%Z ->
  tg_frame_index <$> cat_recording_targets_from_offsets offsets start = seqZ start (Z.of_nat (length offsets))
  /\ tg_offset_ms <$> cat_recording_targets_from_offsets offsets start = offsets.
Proof.
  intros Hs Hl. unfold cat_recording_targets_from_offsets, enumerate.
  assert (forall k, (start + Z.of_nat k + Z.of_nat (length offsets) <= 11)%Z ->
    let l := omap (fun x : nat * Z =>
      if (Z.of_nat x.1 <=? 255)%Z && (start + Z.of_nat x.1 <=? 255)%Z
         && (start + Z.of_nat x.1 <=? Z.of_nat CAT_RECORDING_VALIDATION_MAX_FRAMES)%Z
      then Some {| tg_frame_index := start + Z.of_nat x.1; tg_offset_ms := x.2 |} else None)
      (combine (seq k (length offsets)) offsets) in
    tg_frame_index <$> l = seqZ (start + Z.of_nat k) (Z.of_nat (length offsets)) /\ tg_offset_ms <$> l = offsets) as Hk.
  { induction offsets as [|o offsets IH]; intros k Hk; [done|]. cbn [length] in *. cbn zeta. cbn [seq combine omap list_omap fst snd].
    rewrite !(proj2 (Z.leb_le _ _)) by (unfold CAT_RECORDING_VALIDATION_MAX_FRAMES; lia). cbn [andb fmap list_fmap tg_frame_index tg_offset_ms].
    destruct (IH ltac:(lia) (S k)) as [E1 E2]; [lia|]. cbn zeta in *. unfold omap in *. rewrite seqZ_cons by lia.
    split; f_equal; [|exact E2]. etransitivity; [exact E1|]. f_equal; lia. }
  destruct (Hk 0%nat) as [E1 E2]; [lia|]. cbn zeta in *. rewrite Z.add_0_r in E1. by split.
Qed.

Lemma targets_length offsets start :
  (1 <= start)%Z -> (start + Z.of_nat (length offsets) <= 11)%Z ->
  length (cat_recording_targets_from_offsets offsets start) = length offsets.
Proof. intros Hs Hl. rewrite <- (proj2 (targets_spec offsets start Hs Hl)) at 2. by rewrite length_fmap. Qed.

(** * The rounds of the model *)

Lemma initial_offsets r d :
  (0 <= d)%Z ->
  exists offsets,
    (select_initial_cat_recording_vlm_sample_targets r d).2 = cat_recording_targets_from_offsets offsets 1
    /\ NoDup offsets /\ Forall (in_recording d) offsets /\ 0 < length offsets <= 5
    /\ forall o c, (o, c) ∈ cat_recording_evidence_offsets r d -> exists o' c',
         head offsets = Some o' /\ (o', c') ∈ cat_recording_evidence_offsets r d /\ (c <= c')%Z.
Proof.
  intros Hd. unfold select_initial_cat_recording_vlm_sample_targets. pose proof (evidence_ascending r d Hd) as Ha.
  destruct (cat_recording_evidence_offsets r d) as [|x l] eqn:E; cbn [snd]; eexists; (split; [done|]).
  - destruct (uniform_offsets d Hd) as (H1 & H2 & H3). repeat split; try done; try lia. by intros o c ?%not_elem_of_nil.
  - destruct (diverse_offsets _ _ CAT_RECORDING_VALIDATION_FRAMES_PER_ROUND Ha) as (H1 & H2 & H3 & H4).
    unfold CAT_RECORDING_VALIDATION_FRAMES_PER_ROUND in *. cbn [length] in H3.
    split; [done|]. split; [done|]. split; [lia|]. destruct H4 as (o & c & Hh & Hin & Hg); [done|lia|].
    intros o' c' Hin'. exists o, c. split; [done|]. split; [done|]. rewrite Forall_forall in Hg. by apply (Hg (o', c')).
Qed.

(** A candidate for the second round is away from the frames of the first. *)
Definition away (initial : list CatRecordingSampleTarget) (o : Z) : Prop :=
  Forall (fun t => (100 <= abs_diff (tg_offset_ms t) o)%Z) initial.

Definition followup_offset (initial : list CatRecordingSampleTarget) (d o : Z) : Prop := in_recording d o /\ away initial o.

Lemma insert_followup_ascending initial d o p m :
  (0 <= d)%Z -> ascending (followup_offset initial d) m ->
  ascending (followup_offset initial d) (insert_cat_recording_followup_candidate initial d o p m).
Proof.
  intros Hd Hm. unfold insert_cat_recording_followup_candidate. destruct (list_any _ initial) eqn:Hn; [done|].
  apply insert_max_ascending; [|done]. split; [by apply bounded_offset|]. rewrite list_any_false in Hn.
  apply Forall_forall. intros t Ht. specialize (Hn t Ht). unfold CAT_RECORDING_VALIDATION_FRAME_MARGIN_MS in Hn.
  by apply Z.ltb_ge in Hn.
Qed.

Lemma followup_ascending r d initial positive :
  (0 <= d)%Z -> ascending (followup_offset initial d) (followup_candidates r d initial positive).
Proof.
  intros Hd. unfold followup_candidates. apply foldl_keep.
  - intros m seed _ Hm. apply foldl_keep; [|done]. intros m' delta _ Hm'. unfold add_neighbors.
    by do 2 (apply insert_followup_ascending; [done|]).
  - apply foldl_keep; [|apply ascending_nil]. intros m x _ Hm. by apply insert_followup_ascending.
Qed.

(** C34. The frames that the model sees of a recording, in one round or two, are
    numbered from one without a gap, are at most ten, five a round, and at least one,
    lie at distinct moments of the recording, away from its ends when it is longer
    than a fifth of a second; those of the second round are a tenth of a second or
    more from those of the first; and the first frame is of a detection that no other
    surpasses, if there are any. *)
Theorem model_frames r d positive_offsets :
  (0 <= d)%Z ->
  let initial := (select_initial_cat_recording_vlm_sample_targets r d).2 in
  let followup := select_followup_cat_recording_sample_targets r d initial positive_offsets in
  tg_frame_index <$> initial ++ followup = seqZ 1 (Z.of_nat (length (initial ++ followup)))
  /\ 0 < length initial <= 5 /\ length followup <= 5
  /\ NoDup (tg_offset_ms <$> initial ++ followup)
  /\ Forall (in_recording d) (tg_offset_ms <$> initial ++ followup)
  /\ Forall (away initial) (tg_offset_ms <$> followup)
  /\ forall o c, (o, c) ∈ cat_recording_evidence_offsets r d -> exists t c',
       head initial = Some t /\ (tg_offset_ms t, c') ∈ cat_recording_evidence_offsets r d /\ (c <= c')%Z.
Proof.
  intros Hd. cbn zeta. destruct (initial_offsets r d Hd) as (offsets & -> & Hnd & Hin & Hl & Hfirst).
  destruct (targets_spec offsets 1) as [Ei Eo]; [lia..|]. pose proof (targets_length offsets 1 ltac:(lia) ltac:(lia)) as Ll.
  set (initial := cat_recording_targets_from_offsets offsets 1) in *.
  unfold select_followup_cat_recording_sample_targets.
  destruct (diverse_offsets _ _ (Nat.min (CAT_RECORDING_VALIDATION_MAX_FRAMES - length initial) CAT_RECORDING_VALIDATION_FRAMES_PER_ROUND)
              (followup_ascending r d initial positive_offsets Hd)) as (Hnd' & Hin' & Hl' & _).
  set (offsets' := select_diverse_cat_recording_offsets _ _) in *.
  unfold CAT_RECORDING_VALIDATION_MAX_FRAMES, CAT_RECORDING_VALIDATION_FRAMES_PER_ROUND in Hl'.
  replace (Z.min (Z.of_nat (length initial + 1)) 255) with (Z.of_nat (length initial + 1)) by lia.
  destruct (targets_spec offsets' (Z.of_nat (length initial + 1))) as [Ei' Eo']; [lia..|].
  pose proof (targets_length offsets' (Z.of_nat (length initial + 1)) ltac:(lia) ltac:(lia)) as Ll'.
  set (followup := cat_recording_targets_from_offsets offsets' _) in *.
  rewrite !fmap_app, Ei, Eo, Ei', Eo', length_app. split; [|split; [lia|split; [lia|split; [|split; [|split]]]]].
  - rewrite (Nat2Z.inj_add (length initial) (length followup)), seqZ_app by lia. rewrite Ll, Ll'. f_equal. f_equal. lia.
  - apply NoDup_app. split; [done|]. split; [|done]. intros o Ho Ho'. rewrite Forall_forall in Hin'.
    destruct (Hin' o Ho') as [_ Haway]. unfold away in Haway. rewrite Forall_forall in Haway.
    rewrite <- Eo in Ho. apply list_elem_of_fmap in Ho as (t & -> & Ht). specialize (Haway t Ht). unfold abs_diff in Haway. lia.
  - apply Forall_app. split; [done|]. eapply Forall_impl; [exact Hin'|]. by intros o [? _].
  - eapply Forall_impl; [exact Hin'|]. by intros o [_ ?].
  - intros o c Ho. destruct (Hfirst o c Ho) as (o' & c' & Hh & Hin2 & Hle). rewrite <- Eo in Hh.
    destruct initial as [|t l]; [done|]. injection Hh as <-. by exists t, c'.
Qed.

(** * The frames of the classifier *)

(** Every two of them are [gap] apart. *)
Definition apart (gap : Z) : list Z -> Prop := StronglySorted (fun a b => gap <= abs_diff a b)%Z.

(** None of [offsets] is near [o]. *)
Definition free (offsets : list Z) (o : Z) : bool :=
  list_all (fun offset => CAT_RECORDING_VALIDATION_FRAME_MARGIN_MS <=? abs_diff offset o)%Z offsets.

Lemma count_if_ext {A} (p q : A -> bool) l : (forall x, x ∈ l -> p x = q x) -> count_if p l = count_if q l.
Proof.
  induction l as [|x l IH]; intros Hpq; [done|]. rewrite !count_if_cons, (Hpq x) by left. rewrite IH; [done|].
  intros y Hy. apply Hpq. by right.
Qed.

(** An offset is near one at most. *)
Lemma near_one e (q : Z -> bool) l :
  apart 200 l ->
  count_if q l <= S (count_if (fun o => (CAT_RECORDING_VALIDATION_FRAME_MARGIN_MS <=? abs_diff e o)%Z && q o) l).
Proof.
  unfold apart, CAT_RECORDING_VALIDATION_FRAME_MARGIN_MS. induction l as [|x l IH]; intros Hl; [unfold count_if; cbn; lia|].
  apply StronglySorted_inv in Hl as [Hl Hx]. rewrite !count_if_cons.
  destruct (Z.leb_spec 100 (abs_diff e x)) as [Hfar|Hnear]; cbn [andb].
  - specialize (IH Hl). destruct (q x); lia.
  - rewrite (count_if_ext (fun o => (100 <=? abs_diff e o)%Z && q o) q); [destruct (q x); lia|].
    intros y Hy. rewrite Forall_forall in Hx. specialize (Hx y Hy). unfold abs_diff in *.
    by rewrite (proj2 (Z.leb_le _ _)) by lia.
Qed.

Lemma many_free offsets l : apart 200 l -> length l <= length offsets + count_if (free offsets) l.
Proof.
  intros Hl. induction offsets as [|e offsets IH].
  - cbn [length]. unfold count_if. assert (List.filter (free []) l = l) as ->; [|lia]. by induction l as [|x l IHl]; cbn; [|rewrite IHl; [|by apply StronglySorted_inv in Hl as [? _]]].
  - rewrite (count_if_ext (free (e :: offsets))
               (fun o => (CAT_RECORDING_VALIDATION_FRAME_MARGIN_MS <=? abs_diff e o)%Z && free offsets o)) by done.
    pose proof (near_one e (free offsets) l Hl). cbn [length]. lia.
Qed.

Lemma free_snoc offsets o o' : (100 <= abs_diff o o')%Z -> free (offsets ++ [o]) o' = free offsets o'.
Proof.
  intros Ho. unfold free, list_all. rewrite forallb_app. cbn. unfold CAT_RECORDING_VALIDATION_FRAME_MARGIN_MS at 2.
  by rewrite (proj2 (Z.leb_le _ _)), andb_true_r by done.
Qed.

Lemma add_uniform_spec offsets l :
  apart 200 l -> length offsets <= 9 -> NoDup offsets ->
  exists added, add_uniform offsets l = offsets ++ added /\ NoDup (offsets ++ added) /\ (forall o, o ∈ added -> o ∈ l)
    /\ length (offsets ++ added) = Nat.min 9 (length offsets + count_if (free offsets) l).
Proof.
  revert offsets. induction l as [|o l IH]; intros offsets Hl H9 Hnd.
  { exists []. rewrite app_nil_r. repeat split; try done. change (count_if (free offsets) []) with 0. lia. }
  apply StronglySorted_inv in Hl as [Hl Ho]. cbn [add_uniform].
  destruct (Nat.leb_spec 9 (length offsets)) as [Hfull|Hroom].
  { exists []. rewrite app_nil_r. split; [done|]. split; [done|]. split; [by intros ? ?%not_elem_of_nil|]. lia. }
  fold (free offsets o). rewrite count_if_cons. destruct (free offsets o) eqn:Hf.
  - assert (o ∉ offsets) as Hn.
    { intros Hin. unfold free in Hf. rewrite list_all_true in Hf. specialize (Hf o Hin). unfold abs_diff in Hf.
      rewrite Z.sub_diag in Hf. by vm_compute in Hf. }
    destruct (IH (offsets ++ [o])) as (added & -> & Hnd' & Hin & Hlen); [done|rewrite length_app; cbn [length]; lia| |].
    { apply NoDup_app. split; [done|]. split; [by intros z Hz ->%list_elem_of_singleton|apply NoDup_singleton]. }
    exists (o :: added). rewrite <- app_assoc in *. cbn [app] in *. split; [done|]. split; [done|]. split.
    + intros x [->|Hx]%elem_of_cons; [left|right; by apply Hin].
    + rewrite Hlen, length_app. cbn [length]. rewrite (count_if_ext (free (offsets ++ [o])) (free offsets)); [lia|].
      intros x Hx. apply free_snoc. rewrite Forall_forall in Ho. specialize (Ho x Hx). cbn in Ho. lia.
  - destruct (IH offsets) as (added & -> & Hnd' & Hin & Hlen); [done..|]. exists added. split; [done|]. split; [done|].
    split; [intros x Hx; right; by apply Hin|]. done.
Qed.

Definition percents : list Z := [50; 10; 90; 30; 70; 20; 80; 40; 60]%Z.

Lemma percent_apart d p q :
  (CAT_RECORDING_MINIMUM_DURATION_MS <= d <= 600000)%Z -> (10 <= p <= 90)%Z -> (10 <= q <= 90)%Z -> (10 <= abs_diff p q)%Z ->
  (200 <= abs_diff (percent_offset d p) (percent_offset d q))%Z.
Proof.
  unfold CAT_RECORDING_MINIMUM_DURATION_MS. intros Hd Hp Hq Hpq.
  assert (forall x, (10 <= x <= 90)%Z -> percent_offset d x = (d * x / 100)%Z) as E.
  { intros x Hx. unfold percent_offset, bounded_cat_recording_sample_offset, CAT_RECORDING_VALIDATION_FRAME_MARGIN_MS, u64_saturating_mul, u64_max.
    rewrite (proj2 (Z.leb_gt _ _)) by lia. assert (0 <= d * x <= 600000 * 90)%Z by nia. rewrite (Z.min_l (d * x)) by lia.
    assert (100 <= d * x / 100 <= d - 100)%Z; [|lia]. split; [apply Z.div_le_lower_bound; nia|].
    apply Z.lt_succ_r. apply Z.div_lt_upper_bound; nia. }
  rewrite !E by done. unfold abs_diff in *.
  assert (forall x y, (10 <= x)%Z -> (x + 10 <= y)%Z -> (200 <= d * y / 100 - d * x / 100)%Z) as H.
  { intros x y Hx Hy. pose proof (Z.mul_div_le (d * x) 100 ltac:(lia)). pose proof (Z.mul_succ_div_gt (d * y) 100 ltac:(lia)). nia. }
  destruct (Z.le_gt_cases (p + 10) q) as [Hle|Hgt]; [pose proof (H p q ltac:(lia) Hle)|pose proof (H q p ltac:(lia) ltac:(lia))]; lia.
Qed.

Lemma percents_apart d :
  (CAT_RECORDING_MINIMUM_DURATION_MS <= d <= 600000)%Z -> apart 200 (percent_offset d <$> percents).
Proof.
  intros Hd. assert (StronglySorted (fun p q => (10 <= p <= 90 /\ 10 <= q <= 90 /\ 10 <= abs_diff p q)%Z) percents) as Hs.
  { unfold percents, abs_diff. repeat constructor; lia. }
  unfold apart. induction Hs as [|p l Hs IH Hp]; cbn; constructor; [done|]. apply Forall_fmap. eapply Forall_impl; [exact Hp|].
  intros q (H1 & H2 & H3). by apply percent_apart.
Qed.

Lemma push_new_all l acc : NoDup (acc ++ l) -> foldl push_new acc l = acc ++ l.
Proof.
  revert acc. induction l as [|x l IH]; intros acc Hnd; cbn; [by rewrite app_nil_r|]. unfold push_new at 2.
  apply NoDup_app in Hnd as Hnd'. destruct Hnd' as (_ & Hd & _). rewrite bool_decide_false.
  - rewrite IH by by rewrite <- app_assoc. by rewrite <- app_assoc.
  - intros Hx. apply (Hd x Hx). left.
Qed.

Lemma apart_nodup gap l : (0 < gap)%Z -> apart gap l -> NoDup l.
Proof.
  intros Hg Hl. induction Hl as [|x l Hl IH Hx]; constructor; [|done]. intros Hin. rewrite Forall_forall in Hx.
  specialize (Hx x Hin). unfold abs_diff in Hx. lia.
Qed.

(** Of a recording that is long enough to be shown, and not too long to be
    looked at, the classifier is always given nine frames, numbered from one, at
    distinct moments away from the recording's ends. *)
Theorem classifier_frames r d :
  (CAT_RECORDING_MINIMUM_DURATION_MS <= d <= 600000)%Z ->
  let targets := (select_cat_recording_classifier_sample_targets r d).2 in
  tg_frame_index <$> targets = seqZ 1 9 /\ NoDup (tg_offset_ms <$> targets) /\ Forall (in_recording d) (tg_offset_ms <$> targets).
Proof.
  intros Hd. cbn zeta. unfold select_cat_recording_classifier_sample_targets. cbn [snd].
  assert (0 <= d)%Z as H0 by (unfold CAT_RECORDING_MINIMUM_DURATION_MS in Hd; lia).
  destruct (diverse_offsets _ _ 5 (evidence_ascending r d H0)) as (Hnd & Hin & Hl & _).
  set (offsets := select_diverse_cat_recording_offsets _ 5) in *.
  pose proof (percents_apart d Hd) as Ha. unfold uniform_cat_recording_classifier_offsets. fold percents.
  rewrite push_new_all by by eapply (apart_nodup 200). cbn [app].
  destruct (add_uniform_spec offsets _ Ha) as (added & -> & Hnd' & Hadd & Hlen); [lia|done|].
  pose proof (many_free offsets _ Ha) as Hfree. rewrite length_fmap in Hfree. change (length percents) with 9 in Hfree.
  rewrite take_ge by lia. assert (length (offsets ++ added) = 9) as H9 by lia.
  destruct (targets_spec (offsets ++ added) 1) as [Ei Eo]; [lia..|]. rewrite Ei, Eo, H9. split; [done|]. split; [done|].
  apply Forall_app. split; [done|]. apply Forall_forall. intros o (p & -> & _)%Hadd%list_elem_of_fmap.
  by apply percent_in_recording.
Qed.
