(* ===== verification/ModelEndpoints.v ===== *)
(** Model endpoints and the policies that route to them, as the administrator keeps
    them: the built-in ones, how they are sanitized, saved, patched and tested, and
    what is shown of them without their secrets. The models of
    [src/runtime/admin_console.rs], with the redaction of
    [src/runtime/model_center.rs]. Metadata are JSON values; reading the file of the
    console, and its other parts, are not included. *)
From Stdlib Require Import Ascii.
From S2P Require Import Prelude RustString Json UrlPath Models ServiceAuth.
Local Open Scope string_scope.
Local Open Scope list_scope.
Local Open Scope rust_scope.

#[export] Existing Instance jv_json.

(** * Constants *)

Definition DEFAULT_MODEL_WORKSPACE_ID : string := "home-1".
Definition DEFAULT_POLICY_RETRIEVAL_OCR : string := "retrieval.ocr".
Definition DEFAULT_POLICY_RETRIEVAL_EMBED : string := "retrieval.embed".
Definition DEFAULT_POLICY_RETRIEVAL_RERANK : string := "retrieval.rerank".
Definition DEFAULT_POLICY_RETRIEVAL_ANSWER : string := "retrieval.answer".
Definition DEFAULT_POLICY_RETRIEVAL_VISION_SUMMARY : string := "retrieval.vision_summary".
Definition DEFAULT_POLICY_SEMANTIC_ROUTER : string := "semantic.router".
Definition DEFAULT_SILICONFLOW_ENDPOINT_ID : string := "llm-cloud-siliconflow".
Definition DEFAULT_SILICONFLOW_BASE_URL : string := "https://api.siliconflow.cn/v1".
Definition DEFAULT_SILICONFLOW_MODEL : string := "deepseek-ai/DeepSeek-V4-Flash".
Definition MODEL_API_BASE_URL_ENV : string := "HARBOR_MODEL_API_BASE_URL".
Definition MODEL_API_TOKEN_ENV : string := "HARBOR_MODEL_API_TOKEN".
Definition DEFAULT_MODEL_API_BASE_URL : string := "http://127.0.0.1:4174/api/inference/v1".

(** * Metadata *)

Definition metadata_string (m : jv) (key : string) : option string := (jv_get m key ≫= jv_str) ≫= non_blank.
Definition metadata_bool (m : jv) (key : string) : bool := default false (jv_get m key ≫= jv_bool).

Definition metadata_string_list (m : jv) (key : string) : list string :=
  match jv_get m key ≫= jv_array with Some values => omap non_blank (omap jv_str values) | None => [] end.

(** [Map::insert], of an object. *)
Definition object_insert (key : string) (v : jv) (m : jv) : jv :=
  match m with JObj l => JObj (obj_insert key v l) | _ => m end.

Definition normalize_json_object (v : jv) : jv := if is_object v then v else JObj [].

(** [set_model_endpoint_metadata_string], [set_model_endpoint_metadata_bool] *)
Definition set_endpoint_string (key value : string) (m : jv) : jv := object_insert key (JStr value) m.
Definition set_endpoint_bool (key : string) (value : bool) (m : jv) : jv := object_insert key (JBool value) m.

Definition string_vec (v : jv) : option (list string) :=
  values ← jv_array v;
  match omap non_blank (omap jv_str values) with [] => None | items => Some items end.

Definition optional_trimmed_string (v : jv) : option string := jv_str v ≫= non_blank.
Definition string_value_or_empty (v : jv) : string := default "" (jv_str v ≫= non_blank).

Definition merge_json_object (existing patch : jv) : result string jv :=
  match patch with
  | JNull => Ok (JObj [])
  | JObj l => Ok (JObj (foldl insert_entry (match existing with JObj m => m | _ => [] end) l))
  | _ => Err "metadata patch 必须是 JSON object"
  end.

(** * Records *)

Definition set_metadata (m : jv) (e : ModelEndpoint) : ModelEndpoint :=
  {| model_endpoint_id := model_endpoint_id e; workspace_id := workspace_id e;
     provider_account_id := provider_account_id e; model_kind := model_kind e; endpoint_kind := endpoint_kind e;
     provider_key := provider_key e; model_name := model_name e; capability_tags := capability_tags e;
     cost_policy := cost_policy e; status := status e; metadata := m |}.

Definition set_status (s : ModelEndpointStatus) (e : ModelEndpoint) : ModelEndpoint :=
  {| model_endpoint_id := model_endpoint_id e; workspace_id := workspace_id e;
     provider_account_id := provider_account_id e; model_kind := model_kind e; endpoint_kind := endpoint_kind e;
     provider_key := provider_key e; model_name := model_name e; capability_tags := capability_tags e;
     cost_policy := cost_policy e; status := s; metadata := metadata e |}.

Definition set_tags (tags : list string) (e : ModelEndpoint) : ModelEndpoint :=
  {| model_endpoint_id := model_endpoint_id e; workspace_id := workspace_id e;
     provider_account_id := provider_account_id e; model_kind := model_kind e; endpoint_kind := endpoint_kind e;
     provider_key := provider_key e; model_name := model_name e; capability_tags := tags;
     cost_policy := cost_policy e; status := status e; metadata := metadata e |}.

Definition set_provider (provider name : string) (e : ModelEndpoint) : ModelEndpoint :=
  {| model_endpoint_id := model_endpoint_id e; workspace_id := workspace_id e;
     provider_account_id := provider_account_id e; model_kind := model_kind e; endpoint_kind := endpoint_kind e;
     provider_key := provider; model_name := name; capability_tags := capability_tags e;
     cost_policy := cost_policy e; status := status e; metadata := metadata e |}.

Definition map_metadata (f : jv -> jv) (e : ModelEndpoint) : ModelEndpoint := set_metadata (f (metadata e)) e.

(** [AdminModelCenterState], without the capabilities and the runtimes. *)
Record AdminModelCenterState := {
  endpoints : list ModelEndpoint;
  route_policies : list ModelRoutePolicy;
  model_store_root : string
}.

(** * The built-in endpoints and policies *)

Definition trim_slashes (s : string) : string := trim_end_matches (fun c => Ascii.eqb c "/"%char) s.

(** With the process environment of [h]. *)
Definition local_model_api_base_url (h : Host) : string :=
  match env_var h MODEL_API_BASE_URL_ENV with
  | Some value => let value := trim_slashes (trim value) in
                  if is_empty value then DEFAULT_MODEL_API_BASE_URL else value
  | None => DEFAULT_MODEL_API_BASE_URL
  end.

Definition local_model_api_healthz_url (base_url : string) : string :=
  let trimmed := trim_slashes (trim base_url) in
  match strip_suffix "/v1" trimmed with
  | Some prefix => prefix +:+ "/healthz"
  | None => trimmed +:+ "/healthz"
  end.

Definition local_model_api_token (h : Host) : string :=
  default "" (env_var h MODEL_API_TOKEN_ENV ≫= non_blank).

(** The entries that the built-in endpoints of the local service share. *)
Definition local_service_entries (h : Host) : list (string * jv) :=
  let base_url := local_model_api_base_url h in
  let api_key := local_model_api_token h in
  [("builtin", JBool true); ("base_url", JStr base_url); ("healthz_url", JStr (local_model_api_healthz_url base_url));
   ("api_key", JStr api_key); ("api_key_configured", JBool (negb (is_empty api_key)));
   ("api_key_required", JBool true)].

Definition builtin_endpoint (id : string) (kind : ModelKind) (where_ : ModelEndpointKind) (provider name : string)
    (tags : list string) (cost : list (string * jv)) (s : ModelEndpointStatus) (entries : list (string * jv))
  : ModelEndpoint :=
  {| model_endpoint_id := id; workspace_id := Some DEFAULT_MODEL_WORKSPACE_ID; provider_account_id := None;
     model_kind := kind; endpoint_kind := where_; provider_key := provider; model_name := name;
     capability_tags := tags; cost_policy := json_object cost; status := s; metadata := json_object entries |}.

Definition local_cost : list (string * jv) := [("cost_hint", JStr "local_or_sidecar")].

Definition default_model_endpoints (h : Host) : list ModelEndpoint :=
  [builtin_endpoint "ocr-local-tesseract" Ocr KindLocal "tesseract" "tesseract-cli" ["image"; "local_first"; "ocr"]
     [("cost_hint", JStr "local_cpu")] EndpointDegraded
     [("builtin", JBool true); ("binary_path", JStr ""); ("languages", JStr "chi_sim+eng"); ("secret_configured", JBool false)];
   builtin_endpoint "embed-local-openai-compatible" Embedder KindLocal "openai_compatible" "harbor-local-embed"
     ["embeddings"; "local_first"] local_cost EndpointDegraded (local_service_entries h);
   builtin_endpoint "rerank-local-compatible" Reranker KindLocal "rerank_compatible" "local-reranker"
     ["local_first"; "rerank"] local_cost EndpointDisabled
     (local_service_entries h ++ [("rerank_path", JStr "/rerank"); ("cloud_fallback_allowed", JBool false)]);
   builtin_endpoint "llm-local-openai-compatible" Llm KindLocal "openai_compatible" "Qwen/Qwen2.5-0.5B-Instruct"
     ["assistant_input_parser"; "chat"; "k3_nsp"; "local_first"; "semantic_router"] local_cost EndpointDegraded
     (local_service_entries h
        ++ [("semantic_router", JBool true); ("local_only", JBool true); ("cloud_fallback_allowed", JBool false)]);
   builtin_endpoint DEFAULT_SILICONFLOW_ENDPOINT_ID Llm KindCloud "openai_compatible" DEFAULT_SILICONFLOW_MODEL
     ["chat"; "cloud_fallback"; "openai_compatible"]
     [("cost_hint", JStr "cloud_metered"); ("provider", JStr "siliconflow")] EndpointDisabled
     [("builtin", JBool true); ("provider_label", JStr "SiliconFlow"); ("base_url", JStr DEFAULT_SILICONFLOW_BASE_URL);
      ("healthz_url", JStr "https://api.siliconflow.cn/v1/models"); ("api_key", JStr "");
      ("api_key_configured", JBool false); ("model", JStr DEFAULT_SILICONFLOW_MODEL);
      ("fallback_scope", JArr [JStr DEFAULT_POLICY_RETRIEVAL_ANSWER]); ("secret_redaction", JStr "endpoint_metadata")];
   builtin_endpoint "vlm-local-openai-compatible" Vlm KindLocal "openai_compatible" "vision"
     ["image"; "local_first"; "multimodal"] local_cost EndpointDisabled (local_service_entries h)].

Definition builtin_policy (id scope modal : string) (level : PrivacyLevel) (order : list string) (s : string)
    (entries : list (string * jv)) : ModelRoutePolicy :=
  {| route_policy_id := id; pol_workspace_id := DEFAULT_MODEL_WORKSPACE_ID; domain_scope := scope; modality := modal;
     privacy_level := level; local_preferred := true; fallback_order := order; pol_status := s;
     pol_metadata := json_object entries |}.

Definition local_entries (capability : string) : list (string * jv) :=
  [("capability", JStr capability); ("local_only", JBool true); ("cloud_fallback_allowed", JBool false)].

Definition default_model_route_policies : list ModelRoutePolicy :=
  [builtin_policy DEFAULT_POLICY_RETRIEVAL_OCR "retrieval" "image" StrictLocal ["local"; "sidecar"; "cloud"] "active"
     [("capability", JStr "ocr")];
   builtin_policy DEFAULT_POLICY_RETRIEVAL_EMBED "retrieval" "text" StrictLocal ["local"; "sidecar"; "cloud"] "active"
     [("capability", JStr "embed")];
   builtin_policy DEFAULT_POLICY_RETRIEVAL_RERANK "retrieval" "text" StrictLocal ["local"; "sidecar"] "active"
     (local_entries "rerank");
   builtin_policy DEFAULT_POLICY_SEMANTIC_ROUTER "semantic" "text" StrictLocal ["local"; "sidecar"] "active"
     (local_entries "router");
   builtin_policy DEFAULT_POLICY_RETRIEVAL_ANSWER "retrieval" "text" AllowRedactedCloud ["local"; "sidecar"; "cloud"]
     "active" [("capability", JStr "answer")];
   builtin_policy DEFAULT_POLICY_RETRIEVAL_VISION_SUMMARY "retrieval" "multimodal" StrictLocal ["local"; "sidecar"]
     "degraded" [("capability", JStr "vision_summary"); ("cloud_fallback", JBool false)]].

(** * Sanitizing *)

(** The loop that replaces two dashes by one; a round shortens the text. *)
Fixpoint single_dashes (rounds : nat) (s : string) : string :=
  match rounds with
  | O => s
  | S rounds => if str_contains "--" s then single_dashes rounds (str_replace "--" "-" s) else s
  end.

(** A character that is not ASCII leaves nothing, as each of its bytes does. *)
Fixpoint slug_chars (s : string) : string :=
  match s with
  | "" => ""
  | String c r =>
      if is_ascii_alphanumeric c then String (ascii_lower c) (slug_chars r)
      else if Ascii.eqb c "-" || Ascii.eqb c "_" || Ascii.eqb c "." then String "-" (slug_chars r)
      else slug_chars r
  end.

Definition is_dash (c : ascii) : bool := Ascii.eqb c "-".

Definition slugify_identity_component (value : string) : string :=
  let compact := slug_chars (trim value) in
  trim_matches is_dash (single_dashes (str_len compact) compact).

(** [sort] and [dedup] *)
Definition sorted_tags (tags : list string) : list string := dedup_by id (sort_by String.compare tags).

Definition ensure_model_endpoint_tag (tag : string) (e : ModelEndpoint) : ModelEndpoint :=
  if str_in tag (capability_tags e) then e else set_tags (sorted_tags (capability_tags e ++ [tag])) e.

Definition is_legacy_model_api_url (value : string) : bool :=
  let normalized := to_ascii_lowercase (trim value) in
  str_contains "127.0.0.1:4176" normalized || str_contains "localhost:4176" normalized.

Definition LOCAL_SERVICE_ENDPOINTS : list string :=
  ["embed-local-openai-compatible"; "rerank-local-compatible"; "llm-local-openai-compatible";
   "vlm-local-openai-compatible"].

(** The marks of the endpoint that routes. *)
Definition mark_router (e : ModelEndpoint) : ModelEndpoint :=
  let e := ensure_model_endpoint_tag "semantic_router"
             (ensure_model_endpoint_tag "k3_nsp" (ensure_model_endpoint_tag "assistant_input_parser" e)) in
  map_metadata (fun m => set_endpoint_bool "cloud_fallback_allowed" false
                           (set_endpoint_bool "local_only" true (set_endpoint_bool "semantic_router" true m))) e.

(** The end of the normalization, when an address is of the former service. *)
Definition migrate_legacy_urls (d : ModelEndpoint) (legacy_base_url legacy_healthz_url : option string) (m : jv) : jv :=
  let set_default key m :=
    match metadata_string (metadata d) key with Some value => set_endpoint_string key value m | None => m end in
  let m := set_default "healthz_url" (set_default "base_url" m) in
  let m := set_endpoint_bool "legacy_model_api_migrated" true m in
  let m := set_endpoint_string "legacy_model_api_migrated_reason"
             "4176 standalone model API is not part of the release inference path" m in
  let m := match legacy_base_url with
           | Some value => set_endpoint_string "legacy_model_api_migrated_from_base_url" value m | None => m end in
  match legacy_healthz_url with
  | Some value => set_endpoint_string "legacy_model_api_migrated_from_healthz_url" value m | None => m end.

Definition option_filter {A} (p : A -> bool) (o : option A) : option A := o ≫= fun x => if p x then Some x else None.

Definition normalize_builtin_local_model_api_endpoint (h : Host) (e : ModelEndpoint) : ModelEndpoint :=
  if negb (str_in (model_endpoint_id e) LOCAL_SERVICE_ENDPOINTS) then e
  else if negb (metadata_bool (metadata e) "builtin") then e else
  match list_find (fun d => model_endpoint_id d =? model_endpoint_id e) (default_model_endpoints h) with
  | None => e
  | Some d =>
      let api_key := default "" (jv_get (metadata d) "api_key" ≫= jv_str) in
      let e := map_metadata (fun m => set_endpoint_bool "api_key_required" true
                 (set_endpoint_bool "api_key_configured" (metadata_bool (metadata d) "api_key_configured")
                    (set_endpoint_string "api_key" api_key m))) e in
      let e := if model_endpoint_id e =? "llm-local-openai-compatible" then mark_router e else e in
      let legacy_base_url := option_filter is_legacy_model_api_url (metadata_string (metadata e) "base_url") in
      let legacy_healthz_url := option_filter is_legacy_model_api_url (metadata_string (metadata e) "healthz_url") in
      if negb (is_some legacy_base_url) && negb (is_some legacy_healthz_url) then e
      else map_metadata (migrate_legacy_urls d legacy_base_url legacy_healthz_url) e
  end.

Definition aligned_provider (model : string) : option string :=
  let normalized := to_ascii_lowercase model in
  if str_contains "qwen" normalized then Some "qwen"
  else if str_contains "bge" normalized then Some "bge"
  else if str_contains "jina" normalized then Some "jina" else None.

Definition align_embedding_endpoint_identity_with_runtime (e : ModelEndpoint) : ModelEndpoint :=
  if negb (model_endpoint_id e =? "embed-local-openai-compatible")
     || match model_kind e with Embedder => false | _ => true end
     || negb (metadata_bool (metadata e) "runtime_ready") then e else
  match metadata_string (metadata e) "runtime_model_id", metadata_string (metadata e) "runtime_embedding_model",
        metadata_string (metadata e) "model" with
  | Some runtime_model_id, Some runtime_embedding_model, Some served_model =>
      if negb (runtime_model_id =? runtime_embedding_model) || negb (runtime_model_id =? served_model) then e else
      match aligned_provider runtime_model_id with
      | None => e
      | Some provider =>
          map_metadata (fun m =>
            set_endpoint_string "runtime_embedding_model" runtime_model_id
              (set_endpoint_string "runtime_model_id" runtime_model_id
                 (set_endpoint_string "model" runtime_model_id
                    (set_endpoint_string "catalog_model_id" runtime_model_id m))))
            (set_provider provider runtime_model_id e)
      end
  | _, _, _ => e
  end.

Definition sanitized_id (e : ModelEndpoint) : string :=
  let id := trim (model_endpoint_id e) in
  if is_empty id then
    trim_matches is_dash
      (model_kind_as_str (model_kind e) +:+ "-" +:+ slugify_identity_component (provider_key e) +:+ "-"
         +:+ slugify_identity_component (model_name e))
  else id.

Definition sanitize_model_endpoint (h : Host) (e : ModelEndpoint) : result string ModelEndpoint :=
  let id := sanitized_id e in
  if is_empty id then Err "model_endpoint_id 不能为空" else
  let provider := default "custom" (non_blank (provider_key e)) in
  Ok (align_embedding_endpoint_identity_with_runtime
        (normalize_builtin_local_model_api_endpoint h
           {| model_endpoint_id := id; workspace_id := workspace_id e ≫= non_blank;
              provider_account_id := provider_account_id e ≫= non_blank; model_kind := model_kind e;
              endpoint_kind := endpoint_kind e; provider_key := provider;
              model_name := default provider (non_blank (model_name e));
              capability_tags := sorted_tags (omap non_blank (capability_tags e));
              cost_policy := normalize_json_object (cost_policy e); status := status e;
              metadata := normalize_json_object (metadata e) |})).

Definition sanitize_model_route_policy (p : ModelRoutePolicy) : result string ModelRoutePolicy :=
  match non_blank (route_policy_id p) with
  | None => Err "route_policy_id 不能为空"
  | Some id =>
      Ok {| route_policy_id := id;
            pol_workspace_id := default DEFAULT_MODEL_WORKSPACE_ID (non_blank (pol_workspace_id p));
            domain_scope := default "retrieval" (non_blank (domain_scope p));
            modality := default "text" (non_blank (modality p)); privacy_level := privacy_level p;
            local_preferred := local_preferred p;
            fallback_order := match omap non_blank (fallback_order p) with
                              | [] => ["local"; "sidecar"; "cloud"] | order => order end;
            pol_status := default "active" (non_blank (pol_status p));
            pol_metadata := normalize_json_object (pol_metadata p) |}
  end.

Definition set_policy (level : PrivacyLevel) (order : list string) (m : jv) (p : ModelRoutePolicy) : ModelRoutePolicy :=
  {| route_policy_id := route_policy_id p; pol_workspace_id := pol_workspace_id p; domain_scope := domain_scope p;
     modality := modality p; privacy_level := level; local_preferred := local_preferred p; fallback_order := order;
     pol_status := pol_status p; pol_metadata := m |}.

(** [retain] and what replaces an empty order *)
Definition local_order (order : list string) : list string :=
  match List.filter (fun kind => negb (eq_ignore_ascii_case kind "cloud")) order with
  | [] => ["local"; "sidecar"] | order => order end.

(** The router's policy, as it is kept. *)
Definition force_router_policy (p : ModelRoutePolicy) : ModelRoutePolicy :=
  if route_policy_id p =? DEFAULT_POLICY_SEMANTIC_ROUTER
  then set_policy StrictLocal (local_order (fallback_order p))
         (if is_object (pol_metadata p)
          then object_insert "cloud_fallback_allowed" (JBool false)
                 (object_insert "local_only" (JBool true)
                    (jv_remove "redaction_required" (jv_remove "cloud_fallback_scope" (pol_metadata p))))
          else json_object (local_entries "router")) p
  else p.

(** The defaults whose identifiers are not among [ids], sanitized. *)
Definition missing_defaults {A} (id_of : A -> string) (sanitize : A -> result string A) (ids : list string)
    (defaults : list A) : list A :=
  omap (fun d => res_ok (sanitize d)) (List.filter (fun d => negb (str_in (id_of d) ids)) defaults).

Definition by_kind_and_id (a b : ModelEndpoint) : comparison :=
  then_with (String.compare (model_kind_as_str (model_kind a)) (model_kind_as_str (model_kind b)))
    (String.compare (model_endpoint_id a) (model_endpoint_id b)).

(** The endpoints and policies of the state. *)
Definition sanitize_model_center_state (h : Host) (s : AdminModelCenterState) : AdminModelCenterState :=
  let kept := omap (fun e => res_ok (sanitize_model_endpoint h e)) (endpoints s) in
  let all := kept ++ missing_defaults model_endpoint_id (sanitize_model_endpoint h) (model_endpoint_id <$> kept)
                       (default_model_endpoints h) in
  let policies := omap (fun p => res_ok (sanitize_model_route_policy p)) (route_policies s) in
  let policies :=
    match policies with
    | [] => default_model_route_policies
    | _ => policies ++ missing_defaults route_policy_id sanitize_model_route_policy (route_policy_id <$> policies)
                         default_model_route_policies
    end in
  {| endpoints := sort_by by_kind_and_id all;
     route_policies := sort_by (fun a b => String.compare (route_policy_id a) (route_policy_id b))
                         (force_router_policy <$> policies);
     model_store_root := model_store_root s |}.

(** * Secrets *)

Definition SECRET_KEYS : list string := ["api_key"; "token"; "secret"; "password"; "authorization"; "bearer_token"].

Definition is_secret_key (key : string) : bool := str_in key SECRET_KEYS.

Definition secret_present (v : jv) : bool :=
  match v with
  | JNull => false
  | JStr text => negb (is_blank text)
  | JArr items => negb (length items =? 0)%nat
  | JObj l => negb (length l =? 0)%nat
  | _ => true
  end.

(** [map.entry(key).or_insert(value)] *)
Definition insert_missing (l : list (string * jv)) (flag : string * jv) : list (string * jv) :=
  match entry flag.1 l with Some _ => l | None => obj_insert flag.1 flag.2 l end.

(** The flags that the loop collects. *)
Definition configured_flags (l : list (string * jv)) : list (string * jv) :=
  (fun kv => (kv.1 +:+ "_configured", JBool (secret_present kv.2))) <$> List.filter (fun kv => is_secret_key kv.1) l.

Fixpoint redact_secret_value (v : jv) : jv :=
  match v with
  | JObj l =>
      JObj (foldl insert_missing
              (map (fun kv => (kv.1, if is_secret_key kv.1 then JStr "" else redact_secret_value kv.2)) l)
              (configured_flags l))
  | JArr items => JArr (map redact_secret_value items)
  | _ => v
  end.

Definition redact_model_endpoint (e : ModelEndpoint) : ModelEndpoint := map_metadata redact_secret_value e.

Definition redact_model_center_state (s : AdminModelCenterState) : AdminModelCenterState :=
  {| endpoints := redact_model_endpoint <$> endpoints s; route_policies := route_policies s;
     model_store_root := model_store_root s |}.

(** The body of the loop over the keys. *)
Definition preserve_secret (existing : jv) (m : jv) (key : string) : jv :=
  let incoming_value := default "" (trim <$> (jv_get m key ≫= jv_str)) in
  match metadata_string existing key with
  | None => m
  | Some existing_value =>
      if is_empty incoming_value
      then object_insert (key +:+ "_configured") (JBool true) (object_insert key (JStr existing_value) m)
      else m
  end.

Definition preserve_model_endpoint_secret_metadata (existing incoming : ModelEndpoint) : ModelEndpoint :=
  if negb (is_object (metadata existing)) then incoming
  else set_metadata (foldl (preserve_secret (metadata existing)) (normalize_json_object (metadata incoming)) SECRET_KEYS)
         incoming.

(** * The administrator's changes *)

(** What becomes of the models when the state is stored: they are sanitized. Each
    operation below goes from what [load_or_create_state] loads to what this returns. *)
Definition save_projected_state (h : Host) (s : AdminModelCenterState) : AdminModelCenterState :=
  sanitize_model_center_state h s.

Definition save_model_endpoint (h : Host) (s : AdminModelCenterState) (e : ModelEndpoint)
  : result string AdminModelCenterState :=
  e <-? sanitize_model_endpoint h e;
  Ok (save_projected_state h
     {| endpoints :=
          match list_find (fun x => model_endpoint_id x =? model_endpoint_id e) (endpoints s) with
          | Some existing =>
              upsert_first (fun x => model_endpoint_id x =? model_endpoint_id e)
                (fun existing => preserve_model_endpoint_secret_metadata existing e) e (endpoints s)
          | None => endpoints s ++ [e]
          end;
        route_policies := route_policies s; model_store_root := model_store_root s |}).

Section changes.
(** [serde_json::from_value] at the kinds and the status. *)
Context `{!Codec ModelKind} `{!Codec ModelEndpointKind} `{!Codec ModelEndpointStatus}.

Definition patched {A} (patch : jv) (key : string) (old : A) (read : jv -> result string A) : result string A :=
  match jv_get patch key with Some value => read value | None => Ok old end.

Definition apply_patch (patch : jv) (e : ModelEndpoint) : result string ModelEndpoint :=
  workspace <-? patched patch "workspace_id" (workspace_id e) (fun v => Ok (optional_trimmed_string v));
  account <-? patched patch "provider_account_id" (provider_account_id e) (fun v => Ok (optional_trimmed_string v));
  kind <-? patched patch "model_kind" (model_kind e)
             (fun v => map_err (String.append "invalid model_kind: ") (from_value (A:=ModelKind) v));
  where_ <-? patched patch "endpoint_kind" (endpoint_kind e)
               (fun v => map_err (String.append "invalid endpoint_kind: ") (from_value (A:=ModelEndpointKind) v));
  provider <-? patched patch "provider_key" (provider_key e) (fun v => Ok (string_value_or_empty v));
  name <-? patched patch "model_name" (model_name e) (fun v => Ok (string_value_or_empty v));
  tags <-? patched patch "capability_tags" (capability_tags e) (fun v => Ok (default [] (string_vec v)));
  cost <-? patched patch "cost_policy" (cost_policy e) Ok;
  status <-? patched patch "status" (status e) (fun v => map_err (String.append "invalid status: ") (from_value (A:=ModelEndpointStatus) v));
  m <-? patched patch "metadata" (metadata e) (merge_json_object (metadata e));
  Ok {| model_endpoint_id := model_endpoint_id e; workspace_id := workspace; provider_account_id := account;
        model_kind := kind; endpoint_kind := where_; provider_key := provider; model_name := name;
        capability_tags := tags; cost_policy := cost; status := status; metadata := m |}.

(** The endpoint with the identifier, changed. *)
Definition change_endpoint (h : Host) (s : AdminModelCenterState) (endpoint_id : string)
    (change : ModelEndpoint -> result string ModelEndpoint) : result string AdminModelCenterState :=
  let endpoint_id := trim endpoint_id in
  e <-? ok_or ("未找到模型端点 " +:+ endpoint_id)
          (list_find (fun x => model_endpoint_id x =? endpoint_id) (endpoints s));
  e' <-? change e;
  Ok (save_projected_state h
     {| endpoints := upsert_first (fun x => model_endpoint_id x =? endpoint_id) (fun _ => e') e' (endpoints s);
        route_policies := route_policies s; model_store_root := model_store_root s |}).

Definition patch_model_endpoint (h : Host) (s : AdminModelCenterState) (endpoint_id : string) (patch : jv)
  : result string AdminModelCenterState :=
  if is_blank endpoint_id then Err "model endpoint id 不能为空"
  else if negb (is_object patch) then Err "模型端点 patch 必须是 JSON object"
  else change_endpoint h s endpoint_id (fun e =>
         e' <-? apply_patch patch e;
         sanitize_model_endpoint h (preserve_model_endpoint_secret_metadata e e')).

Definition tested_status (observed : string) (s : ModelEndpointStatus) : ModelEndpointStatus :=
  if bool_decide (s = EndpointDisabled) then s
  else if observed =? "active" then EndpointActive
  else if (observed =? "degraded") || (observed =? "disabled") then EndpointDegraded
  else s.

(** [tested_at] is the clock, in seconds, as text. *)
Definition record_model_endpoint_test_result `{!UnicodeLower} (h : Host) (s : AdminModelCenterState)
    (endpoint_id : string) (ok : bool) (observed_status summary : string) (details : jv) (tested_at : string)
  : result string AdminModelCenterState :=
  if is_blank endpoint_id then Err "model endpoint id 不能为空"
  else change_endpoint h s endpoint_id (fun e =>
    let observed := to_lowercase (trim observed_status) in
    let m := match metadata e with JObj _ => metadata e | _ => JObj [] end in
    let m := object_insert "last_test"
               (json_object [("ok", JBool ok); ("status", JStr observed); ("summary", JStr (trim summary));
                             ("details", details); ("tested_at", JStr tested_at)]) m in
    sanitize_model_endpoint h
      (set_metadata (object_insert "health_status" (JStr observed) m) (set_status (tested_status observed (status e)) e))).

(** The loop that sanitizes each. *)
Fixpoint sanitize_policies (policies : list ModelRoutePolicy) : result string (list ModelRoutePolicy) :=
  match policies with
  | [] => Ok []
  | p :: policies => p <-? sanitize_model_route_policy p; rest <-? sanitize_policies policies; Ok (p :: rest)
  end.

Definition save_model_route_policies (h : Host) (s : AdminModelCenterState) (policies : list ModelRoutePolicy)
  : result string AdminModelCenterState :=
  policies <-? match policies with [] => Ok default_model_route_policies | _ => sanitize_policies policies end;
  Ok (save_projected_state h
     {| endpoints := endpoints s; route_policies := policies; model_store_root := model_store_root s |}).
End changes.
