(* ===== verification/ModelSelection.v ===== *)
(** Which endpoint a model runs on: the local service that answers, the endpoints as
    it makes them, the order of the candidates of a policy, and the endpoints that the
    router and the vision model are limited to. [src/runtime/model_center.rs]. *)
From Stdlib Require Import Ascii.
From S2P Require Import Prelude RustString Json UrlPath Models ServiceAuth ModelEndpoints.
Local Open Scope string_scope.
Local Open Scope list_scope.
Local Open Scope rust_scope.

Definition OCR_POLICY_ID : string := "retrieval.ocr".
Definition EMBED_POLICY_ID : string := "retrieval.embed".
Definition RERANK_POLICY_ID : string := "retrieval.rerank".
Definition LLM_POLICY_ID : string := "retrieval.answer".
Definition SEMANTIC_ROUTER_POLICY_ID : string := "semantic.router".
Definition VLM_POLICY_ID : string := "retrieval.vision_summary".
Definition SEMANTIC_ROUTER_BASE_URL_ENV : string := "HARBOR_SEMANTIC_ROUTER_BASE_URL".
Definition SEMANTIC_ROUTER_HEALTHZ_URL_ENV : string := "HARBOR_SEMANTIC_ROUTER_HEALTHZ_URL".
Definition SEMANTIC_ROUTER_TOKEN_ENV : string := "HARBOR_SEMANTIC_ROUTER_TOKEN".
Definition SEMANTIC_ROUTER_TOPOLOGY_ENV : string := "HARBOR_SEMANTIC_ROUTER_TOPOLOGY".
Definition EMBEDDED_MODEL_API_PATH : string := "/api/inference/v1".
Definition DEFAULT_EMBEDDED_MODEL_API_BASE_URL : string := "http://127.0.0.1:4174/api/inference/v1".
Definition DEFAULT_SEMANTIC_ROUTER_BASE_URL : string := "http://127.0.0.1:4176/v1".
Definition DEFAULT_SEMANTIC_ROUTER_MODEL : string := "Qwen/Qwen2.5-0.5B-Instruct".
(** In milliseconds. *)
Definition LOCAL_RUNTIME_PROJECTION_CACHE_TTL : Z := 30000.

(** [url::Url]: what the code reads of one, and its text. The port is what
    [port_or_known_default] gives; the text leaves the port out where it is the default of the scheme. *)
Record ParsedUrl := {
  pu_scheme : string;
  pu_username : string;
  pu_password : option string;
  pu_host : option string;
  pu_port : option Z;
  pu_path : string;
  pu_query : option string;
  pu_fragment : option string;
  pu_text : string
}.

Class EndpointUrls := { parse_url : string -> option ParsedUrl }.

(** What the code relies on of the text of an address: that of an HTTP address with a
    host and a port other than the default, without credentials, query and fragment. *)
Class EndpointUrlLaws `{!EndpointUrls} := {
  http_url_text s u host port :
    parse_url s = Some u -> pu_scheme u = "http" -> pu_username u = "" -> pu_password u = None ->
    pu_host u = Some host -> pu_port u = Some port -> port <> 80%Z -> pu_query u = None -> pu_fragment u = None ->
    pu_text u = "http://" +:+ host +:+ ":" +:+ show_Z port +:+ pu_path u
}.

(** * Metadata *)

Definition set_metadata_string (key value : string) (m : jv) : jv :=
  if is_blank value then m else object_insert key (JStr value) (normalize_json_object m).
Definition set_metadata_bool (key : string) (value : bool) (m : jv) : jv :=
  object_insert key (JBool value) (normalize_json_object m).

Definition metadata_missing_or_empty (m : jv) (key : string) : bool := negb (is_some (metadata_string m key)).

Definition env_trimmed (h : Host) (key : string) : option string := env_var h key ≫= non_blank.

Definition infer_healthz_url (base_url : string) : string :=
  let trimmed := trim_slashes (trim base_url) in
  if is_empty trimmed then "" else
  match strip_suffix "/v1" trimmed with
  | Some prefix => prefix +:+ "/healthz"
  | None => trimmed +:+ "/healthz"
  end.

(** [EmptyStringFallback::if_empty_then] *)
Definition if_empty_then (s : string) (fallback : option string) : option string :=
  if is_blank s then fallback else Some s.

Definition compatible_profile (profile : string) : bool :=
  let normalized := replace_char "_" "-" (to_ascii_lowercase (trim profile)) in
  str_contains "openai-compatible" normalized || str_in normalized ["harbor-candle"; "harbor-model-api-candle"].

Definition endpoint_uses_openai_compatible_api (e : ModelEndpoint) : bool :=
  eq_ignore_ascii_case (provider_key e) "openai_compatible"
  || list_any compatible_profile (metadata_string_list (metadata e) "runtime_profiles").

Definition is_local (e : ModelEndpoint) : bool := bool_decide (endpoint_kind e = KindLocal).
Definition is_cloud (e : ModelEndpoint) : bool := bool_decide (endpoint_kind e = KindCloud).

#[export] Instance model_kind_eq_dec : EqDecision ModelKind.
Proof. solve_decision. Defined.

Definition is_builtin_local_openai_endpoint (e : ModelEndpoint) : bool :=
  match model_kind e with Llm | Embedder | Vlm => true | _ => false end
  && is_local e && endpoint_uses_openai_compatible_api e && metadata_bool (metadata e) "builtin".

(** [(!name.trim().is_empty()).then_some(name)] *)
Definition unless_blank (name : string) : option string := if is_blank name then None else Some name.

(** [Option::or] *)
Definition option_or {A} (o o' : option A) : option A := match o with Some _ => o | None => o' end.

Definition embedding_model_name_from_endpoint (e : ModelEndpoint) : option string :=
  option_or (metadata_string (metadata e) "runtime_embedding_model")
    (option_or (metadata_string (metadata e) "model") (unless_blank (model_name e))).

(** * The local service *)

Record LocalRuntimeProjection := {
  lr_base_url : string;
  lr_healthz_url : string;
  lr_api_key : string;
  lr_api_key_configured : bool;
  lr_ready : bool;
  lr_backend_ready : bool;
  lr_chat_model : option string;
  lr_embedding_model : option string
}.

Record LocalRuntimeProbeTarget := {
  pt_cache_key : string;
  pt_base_url : string;
  pt_healthz_url : string;
  pt_api_key : string;
  pt_api_key_configured : bool;
  pt_redirects_disabled : bool
}.

Record CachedLocalRuntimeProjection := {
  ch_target_cache_key : string;
  ch_expires_at : Z;
  ch_projection : LocalRuntimeProjection
}.

Definition default_projection : LocalRuntimeProjection :=
  {| lr_base_url := ""; lr_healthz_url := ""; lr_api_key := ""; lr_api_key_configured := false; lr_ready := false;
     lr_backend_ready := false; lr_chat_model := None; lr_embedding_model := None |}.

Definition resolve_local_runtime_probe_target (h : Host) (l : list ModelEndpoint) : option LocalRuntimeProbeTarget :=
  let builtin := list_find is_builtin_local_openai_endpoint in
  template ← option_or (builtin l) (builtin (default_model_endpoints h));
  let fallback := option_or (list_find (fun e => model_endpoint_id e =? model_endpoint_id template) (default_model_endpoints h))
                    (builtin (default_model_endpoints h)) in
  let of_template key := option_filter (fun value => negb (is_builtin_local_openai_endpoint template && is_legacy_model_api_url value))
                           (metadata_string (metadata template) key) in
  let of_fallback key := fallback ≫= fun e => metadata_string (metadata e) key in
  let base_url := default "" (option_or (of_template "base_url") (of_fallback "base_url")) in
  let healthz_url := default (infer_healthz_url base_url) (option_or (of_template "healthz_url") (of_fallback "healthz_url")) in
  let api_key := default "" (option_or (metadata_string (metadata template) "api_key") (of_fallback "api_key")) in
  let redirects_disabled := metadata_bool (metadata template) "semantic_router_embedded_facade" in
  Some {| pt_cache_key := model_endpoint_id template +:+ "|" +:+ base_url +:+ "|" +:+ healthz_url +:+ "|" +:+ api_key
                            +:+ "|" +:+ show_bool redirects_disabled;
          pt_base_url := base_url; pt_healthz_url := healthz_url; pt_api_key := api_key;
          pt_api_key_configured :=
            metadata_bool (metadata template) "api_key_configured" || negb (is_blank api_key)
            || match fallback with Some e => metadata_bool (metadata e) "api_key_configured" | None => false end;
          pt_redirects_disabled := redirects_disabled |}.

(** [health] is the JSON that the service answers with, when it answers with success. *)
Definition probe_local_runtime_target (health : LocalRuntimeProbeTarget -> option jv) (t : LocalRuntimeProbeTarget)
  : LocalRuntimeProjection :=
  let projection ready backend chat embedding :=
    {| lr_base_url := pt_base_url t; lr_healthz_url := pt_healthz_url t; lr_api_key := pt_api_key t;
       lr_api_key_configured := pt_api_key_configured t; lr_ready := ready; lr_backend_ready := backend;
       lr_chat_model := chat; lr_embedding_model := embedding |} in
  if is_blank (pt_healthz_url t) then projection false false None None else
  match health t with
  | None => projection false false None None
  | Some payload =>
      projection (metadata_bool payload "ready")
        (default false ((jv_get payload "backend" ≫= fun v => jv_get v "ready") ≫= jv_bool))
        (metadata_string payload "chat_model") (metadata_string payload "embedding_model")
  end.

(** What a probe finds: the projections remembered, the clock before and after a
    request, and the service. *)
Record Probe := {
  pb_cache : option CachedLocalRuntimeProjection;
  pb_now : Z;
  pb_after : Z;
  pb_health : LocalRuntimeProbeTarget -> option jv
}.

(** The projection, and what is remembered then. *)
Definition probe_local_runtime (h : Host) (p : Probe) (l : list ModelEndpoint)
  : LocalRuntimeProjection * option CachedLocalRuntimeProjection :=
  match resolve_local_runtime_probe_target h l with
  | None => (default_projection, pb_cache p)
  | Some t =>
      let probed :=
        let projection := probe_local_runtime_target (pb_health p) t in
        (projection, Some {| ch_target_cache_key := pt_cache_key t;
                             ch_expires_at := pb_after p + LOCAL_RUNTIME_PROJECTION_CACHE_TTL;
                             ch_projection := projection |}) in
      match pb_cache p with
      | Some cached => if (ch_target_cache_key cached =? pt_cache_key t) && (pb_now p <? ch_expires_at cached)%Z
                       then (ch_projection cached, pb_cache p) else probed
      | None => probed
      end
  end.

(** An address of the metadata, when it is missing or of the former service. *)
Definition overlay_url (key : string) (d : option string) (m : jv) : jv :=
  let legacy := match metadata_string m key with
                | Some value => is_legacy_model_api_url value && negb (metadata_bool m "semantic_router_resident_endpoint")
                | None => false end in
  if metadata_missing_or_empty m key || legacy then
    let m := set_metadata_string key (default "" d) m in
    if legacy then set_metadata_bool "legacy_model_api_migrated" true m else m
  else m.

Definition overlay_metadata (d : ModelEndpoint) (r : LocalRuntimeProjection) (m : jv) : jv :=
  let m := overlay_url "base_url" (option_or (metadata_string (metadata d) "base_url") (if_empty_then (lr_base_url r) None)) m in
  let m := overlay_url "healthz_url"
             (Some (default (infer_healthz_url (lr_base_url r))
                      (option_or (metadata_string (metadata d) "healthz_url") (if_empty_then (lr_healthz_url r) None)))) m in
  let m := if metadata_missing_or_empty m "api_key"
           then set_metadata_string "api_key" (default "" (if_empty_then (lr_api_key r) (metadata_string (metadata d) "api_key"))) m
           else m in
  if negb (metadata_bool m "api_key_configured") && lr_api_key_configured r
  then set_metadata_bool "api_key_configured" true m else m.

Definition overlay_status (r : LocalRuntimeProjection) (e : ModelEndpoint) : ModelEndpointStatus :=
  let available := match model_kind e with
                   | Llm => Some (is_some (lr_chat_model r))
                   | Embedder => Some (is_some (lr_embedding_model r))
                   | _ => None end in
  match available with
  | None => status e
  | Some available =>
      if lr_ready r && lr_backend_ready r && available then EndpointActive
      else if bool_decide (status e = EndpointActive) then EndpointDegraded else status e
  end.

Definition overlay_endpoint (h : Host) (r : LocalRuntimeProjection) (e : ModelEndpoint) : ModelEndpoint :=
  match list_find (fun d => model_endpoint_id d =? model_endpoint_id e) (default_model_endpoints h) with
  | Some d =>
      if is_builtin_local_openai_endpoint d
      then set_status (overlay_status r e) (map_metadata (overlay_metadata d r) e) else e
  | None => e
  end.

Definition overlay_endpoints_with_runtime_truth (h : Host) (r : LocalRuntimeProjection) (l : list ModelEndpoint)
  : list ModelEndpoint := overlay_endpoint h r <$> l.

Definition runtime_wired_model_center_state (h : Host) (p : Probe) (s : AdminModelCenterState) : AdminModelCenterState :=
  {| endpoints := overlay_endpoints_with_runtime_truth h (probe_local_runtime h p (endpoints s)).1 (endpoints s);
     route_policies := route_policies s; model_store_root := model_store_root s |}.

(** * Candidates *)

Definition endpoint_priority (order : list string) (e : ModelEndpoint) : nat :=
  default (length order) (position (fun item => eq_ignore_ascii_case item (endpoint_kind_as_str (endpoint_kind e))) order).

Definition status_priority (s : ModelEndpointStatus) : nat :=
  match s with EndpointActive => 0 | EndpointDegraded => 1 | EndpointDisabled => 2 end.

Definition matches_semantic_router_tag (tag : string) : bool :=
  str_in (to_ascii_lowercase (trim tag)) ["semantic_router"; "assistant_input_parser"; "k3_nsp"].

Definition is_explicit_router (e : ModelEndpoint) : bool :=
  list_any matches_semantic_router_tag (capability_tags e) || metadata_bool (metadata e) "semantic_router".

Definition semantic_router_endpoint_priority (route_policy : string) (e : ModelEndpoint) : nat :=
  if negb (route_policy =? SEMANTIC_ROUTER_POLICY_ID) then 0
  else if is_explicit_router e
          || (metadata_bool (metadata e) "local_only" && str_contains "nsp" (to_ascii_lowercase (model_endpoint_id e)))
  then 0 else 1.

Definition candidate_order (route_policy : string) (order : list string) (a b : ModelEndpoint) : comparison :=
  then_with (Nat.compare (semantic_router_endpoint_priority route_policy a) (semantic_router_endpoint_priority route_policy b))
    (then_with (Nat.compare (endpoint_priority order a) (endpoint_priority order b))
       (then_with (Nat.compare (status_priority (status a)) (status_priority (status b)))
          (String.compare (model_endpoint_id a) (model_endpoint_id b)))).

Definition policy_of (s : AdminModelCenterState) (route_policy : string) : option ModelRoutePolicy :=
  list_find (fun p => route_policy_id p =? route_policy) (route_policies s).

Definition cloud_allowed (s : AdminModelCenterState) (route_policy : string) : bool :=
  match policy_of s route_policy with
  | Some p => negb (bool_decide (privacy_level p = StrictLocal))
  | None => true
  end.

Definition eligible (kind : ModelKind) (cloud : bool) (e : ModelEndpoint) : bool :=
  bool_decide (model_kind e = kind) && negb (bool_decide (status e = EndpointDisabled)) && (cloud || negb (is_cloud e)).

Definition resolve_endpoint_candidates (h : Host) (p : Probe) (s : AdminModelCenterState) (kind : ModelKind)
    (route_policy : string) : list ModelEndpoint :=
  let s := runtime_wired_model_center_state h p s in
  let order := match policy_of s route_policy with
               | Some policy => fallback_order policy | None => ["local"; "sidecar"; "cloud"] end in
  sort_by (candidate_order route_policy order)
    (List.filter (eligible kind (cloud_allowed s route_policy)) (endpoints s)).

Definition resolve_endpoint (h : Host) (p : Probe) (s : AdminModelCenterState) (kind : ModelKind) (route_policy : string)
  : option ModelEndpoint := head (resolve_endpoint_candidates h p s kind route_policy).

Record EmbeddingEndpointIdentity := {
  ei_provider_key : string;
  ei_model_endpoint_id : string;
  ei_model_name : string
}.

Definition embedding_endpoint_identity_with_state (h : Host) (p : Probe) (s : AdminModelCenterState)
  : option EmbeddingEndpointIdentity :=
  let runtime := (probe_local_runtime h p (endpoints s)).1 in
  e ← resolve_endpoint h p s Embedder EMBED_POLICY_ID;
  let runtime_model := if is_builtin_local_openai_endpoint e then option_filter (fun v => negb (is_blank v)) (lr_embedding_model runtime)
                       else None in
  name ← option_or runtime_model (embedding_model_name_from_endpoint e);
  Some {| ei_provider_key := provider_key e; ei_model_endpoint_id := model_endpoint_id e; ei_model_name := name |}.

(** * Where the vision model may run *)

Section urls.
Context `{!EndpointUrls}.

Definition url_is_loopback (raw_url : string) : bool :=
  match parse_url (trim raw_url) with
  | None => false
  | Some url =>
      let host := to_ascii_lowercase (default "" (pu_host url)) in
      (host =? "localhost") || (host =? "::1") || starts_with "127." host
  end.

Definition vlm_endpoint_local_only_blocker (e : ModelEndpoint) : option string :=
  if negb (is_local e) then Some "VLM endpoint must be local-only; cloud or remote fallback is blocked." else
  match metadata_string (metadata e) "base_url" with
  | None => None
  | Some base_url =>
      if negb (endpoint_uses_openai_compatible_api e) then None
      else if negb (url_is_loopback base_url)
      then Some "VLM endpoint base_url must bind to loopback for K3 local-only execution."
      else None
  end.

Definition endpoint_uses_loopback_port (e : ModelEndpoint) (port : Z) : bool :=
  match metadata_string (metadata e) "base_url" ≫= parse_url with
  | Some url => bool_decide (pu_port url = Some port)
                && match pu_host url with Some host => str_in host ["127.0.0.1"; "localhost"; "::1"] | None => false end
  | None => false
  end.

(** * The router *)

Inductive SemanticRouterTopology := TopologyEmbedded | TopologyStandalone.

Definition semantic_router_topology (h : Host) : result string SemanticRouterTopology :=
  match env_var h SEMANTIC_ROUTER_TOPOLOGY_ENV with
  | None => Ok TopologyEmbedded
  | Some value =>
      let value := trim value in
      if is_empty value || eq_ignore_ascii_case value "embedded" then Ok TopologyEmbedded
      else if eq_ignore_ascii_case value "standalone" then Ok TopologyStandalone
      else Err (SEMANTIC_ROUTER_TOPOLOGY_ENV +:+ " must be embedded or standalone, got " +:+ value)
  end.

Definition embedded_model_api_url_error : string :=
  MODEL_API_BASE_URL_ENV +:+ " must use Beacon's HTTP loopback facade on port 4174 with path " +:+ EMBEDDED_MODEL_API_PATH
    +:+ " and no credentials, query, or fragment".

(** The path that is set is the one it has. *)
Definition validate_embedded_model_api_base_url (configured : string) : result string string :=
  url <-? ok_or embedded_model_api_url_error (parse_url configured);
  let exact_host := bool_decide (pu_host url = Some "127.0.0.1") && starts_with "http://127.0.0.1:" configured in
  let facade_port := bool_decide (pu_port url = Some 4174%Z) in
  if negb (pu_scheme url =? "http") || negb exact_host || negb facade_port || negb (is_empty (pu_username url))
     || is_some (pu_password url) || negb (pu_path url =? EMBEDDED_MODEL_API_PATH) || is_some (pu_query url)
     || is_some (pu_fragment url)
  then Err embedded_model_api_url_error
  else Ok (trim_slashes (pu_text url)).

Definition canonical_embedded_model_api_base_url (h : Host) : result string string :=
  validate_embedded_model_api_base_url
    (default DEFAULT_EMBEDDED_MODEL_API_BASE_URL (env_var h MODEL_API_BASE_URL_ENV ≫= non_blank)).

Definition MOCK_KEYS : list string :=
  ["mock_text"; "mock_embedding"; "mock_embeddings"; "mock_embedding_dimensions"; "mock_rerank_scores"].

Definition canonical_embedded_semantic_router_endpoint (h : Host) : result string ModelEndpoint :=
  base_url <-? canonical_embedded_model_api_base_url h;
  api_key <-? ok_or (MODEL_API_TOKEN_ENV +:+ " is not configured") (env_trimmed h MODEL_API_TOKEN_ENV);
  e <-? ok_or "embedded semantic router model endpoint is unavailable"
          (list_find (fun e => model_endpoint_id e =? "llm-local-openai-compatible") (default_model_endpoints h));
  let m := set_metadata_string "base_url" base_url (metadata e) in
  let m := set_metadata_string "healthz_url" (infer_healthz_url base_url) m in
  let m := set_metadata_string "api_key" api_key m in
  let m := set_metadata_bool "api_key_configured" true m in
  let m := set_metadata_bool "api_key_required" true m in
  let m := set_metadata_bool "local_only" true m in
  let m := set_metadata_bool "cloud_fallback_allowed" false m in
  let m := set_metadata_bool "semantic_router_embedded_facade" true m in
  Ok (set_metadata (foldl (fun m key => jv_remove key m) m MOCK_KEYS) e).

Definition ROUTER_TAGS : list string := ["chat"; "local_first"; "semantic_router"; "assistant_input_parser"; "k3_nsp"].

Definition push_tag (tags : list string) (tag : string) : list string := if str_in tag tags then tags else tags ++ [tag].

Definition mark_semantic_router_resident_endpoint (base_url healthz_url api_key : string) (e : ModelEndpoint) : ModelEndpoint :=
  let m := set_metadata_string "base_url" base_url (metadata e) in
  let m := set_metadata_string "healthz_url" healthz_url m in
  let m := set_metadata_bool "semantic_router" true m in
  let m := set_metadata_bool "local_only" true m in
  let m := set_metadata_bool "cloud_fallback_allowed" false m in
  let m := set_metadata_bool "semantic_router_resident_endpoint" true m in
  let m := if is_blank api_key then m
           else set_metadata_bool "api_key_configured" true (set_metadata_string "api_key" api_key m) in
  set_metadata m (set_tags (sorted_tags (foldl push_tag (capability_tags e) ROUTER_TAGS)) e).

(** An enabled language model of this machine. *)
Definition local_llm (e : ModelEndpoint) : bool :=
  bool_decide (model_kind e = Llm) && is_local e && negb (bool_decide (status e = EndpointDisabled)).

(** The endpoints that the loop marks. *)
Definition wired (has_explicit_router : bool) (e : ModelEndpoint) : bool :=
  local_llm e && endpoint_uses_openai_compatible_api e
  && (is_explicit_router e || ((model_endpoint_id e =? "llm-local-openai-compatible") && negb has_explicit_router)).

Definition resident_endpoint : ModelEndpoint :=
  builtin_endpoint "llm-local-semantic-router" Llm KindLocal "openai_compatible" DEFAULT_SEMANTIC_ROUTER_MODEL []
    [("cost_hint", JStr "local_candle")] EndpointDegraded [("builtin", JBool true)].

Definition wire_semantic_router_resident_endpoint (h : Host) (l : list ModelEndpoint) : list ModelEndpoint :=
  let base_url := default DEFAULT_SEMANTIC_ROUTER_BASE_URL (trim_slashes <$> env_trimmed h SEMANTIC_ROUTER_BASE_URL_ENV) in
  let healthz_url := default (infer_healthz_url base_url) (env_trimmed h SEMANTIC_ROUTER_HEALTHZ_URL_ENV) in
  let api_key := default "" (option_or (env_trimmed h SEMANTIC_ROUTER_TOKEN_ENV) (env_trimmed h MODEL_API_TOKEN_ENV)) in
  let has_explicit_router := list_any (fun e => local_llm e && is_explicit_router e) l in
  let mark := mark_semantic_router_resident_endpoint base_url healthz_url api_key in
  let marked := (fun e => if wired has_explicit_router e then mark e else e) <$> l in
  if list_any (wired has_explicit_router) l then marked else marked ++ [mark resident_endpoint].

Definition local_router_policy (p : ModelRoutePolicy) : ModelRoutePolicy :=
  if route_policy_id p =? SEMANTIC_ROUTER_POLICY_ID
  then set_policy StrictLocal (local_order (fallback_order p))
         (object_insert "cloud_fallback_allowed" (JBool false) (object_insert "local_only" (JBool true) (pol_metadata p))) p
  else p.

Definition semantic_router_local_only_model_state (h : Host) (s : AdminModelCenterState) : result string AdminModelCenterState :=
  let local := List.filter (fun e => negb (is_cloud e)) (endpoints s) in
  topology <-? semantic_router_topology h;
  l <-? match topology with
        | TopologyEmbedded => e <-? canonical_embedded_semantic_router_endpoint h; Ok [e]
        | TopologyStandalone => Ok (wire_semantic_router_resident_endpoint h local)
        end;
  Ok {| endpoints := l; route_policies := local_router_policy <$> route_policies s; model_store_root := model_store_root s |}.

Definition semantic_router_endpoint_for_readiness (h : Host) (p : Probe) (s : AdminModelCenterState)
  : result string (option ModelEndpoint) :=
  topology <-? semantic_router_topology h;
  local_state <-? semantic_router_local_only_model_state h s;
  match topology with
  | TopologyEmbedded => Ok (list_find (fun e => model_endpoint_id e =? "llm-local-openai-compatible") (endpoints local_state))
  | TopologyStandalone => Ok (resolve_endpoint h p local_state Llm SEMANTIC_ROUTER_POLICY_ID)
  end.
End urls.
