(* ===== verification/ModelRuns.v ===== *)
(** What is asked of a model, and what becomes of the answer: the runs of
    [src/runtime/model_center.rs]. The servers, the processes and the scheduler's
    answers are interfaces; a run yields, with its result, the requests it sent. The
    mock vectors, which tests configure, are an interface too. *)
From Stdlib Require Import Ascii.
From S2P Require Import Prelude RustString Json Models ServiceAuth ModelEndpoints ModelSelection.
From S2P Require Scheduler.
Local Open Scope string_scope.
Local Open Scope list_scope.

(** [OcrExecution], [VlmSummaryExecution] and [LlmTextExecution] have these fields. *)
Record TextExecution := {
  tx_available : bool;
  tx_status : string;
  tx_summary : string;
  tx_provider_key : string;
  tx_model_endpoint_id : option string;
  tx_text : string;
  tx_details : jv
}.

Record EmbeddingExecution := {
  ee_available : bool;
  ee_status : string;
  ee_summary : string;
  ee_provider_key : string;
  ee_model_endpoint_id : option string;
  ee_model_name : option string;
  ee_vector : list spec_float;
  ee_details : jv
}.

Record RerankDocumentScore := { sc_index : nat; sc_score : spec_float }.

Record RerankExecution := {
  re_available : bool;
  re_status : string;
  re_summary : string;
  re_provider_key : string;
  re_model_endpoint_id : option string;
  re_model_name : option string;
  re_scores : list RerankDocumentScore;
  re_details : jv
}.

(** The temperature is a [f32], the timeout in milliseconds. *)
Record LlmTextOptions := {
  lo_purpose : option string;
  lo_system_prompt : option string;
  lo_temperature : option spec_float;
  lo_max_tokens : option Z;
  lo_timeout : option Z;
  lo_json_object_response : bool
}.

Definition default_options : LlmTextOptions :=
  {| lo_purpose := None; lo_system_prompt := None; lo_temperature := None; lo_max_tokens := None; lo_timeout := None;
     lo_json_object_response := false |}.

Record OpenAiCompatibleConfig := { oc_base_url : string; oc_api_key : string; oc_model : string }.
Record RerankCompatibleConfig := { rc_base_url : string; rc_api_key : string; rc_model : string; rc_rerank_path : string }.

Record TextCompletionRequest := {
  tq_system_prompt : option string;
  tq_user_prompt : string;
  tq_temperature : option spec_float;
  tq_max_tokens : option Z;
  tq_timeout : option Z;
  tq_disable_thinking : bool;
  tq_json_object_response : bool
}.

Record VisionSummaryRequest := {
  vq_image_data_url : string;
  vq_detection_summary : string;
  vq_user_prompt : option string;
  vq_system_prompt : option string;
  vq_disable_thinking : bool
}.

(** What leaves the process. *)
Inductive ModelRequest :=
| AskText (redirects_disabled : bool) (c : OpenAiCompatibleConfig) (r : TextCompletionRequest)
| AskVision (c : OpenAiCompatibleConfig) (r : VisionSummaryRequest)
| AskCatFrame (c : OpenAiCompatibleConfig) (image_data_url : string)
| AskEmbedding (c : OpenAiCompatibleConfig) (timeout : Z) (input : string)
| AskRerank (c : RerankCompatibleConfig) (query : string) (documents : list string) (top_n : nat).

(** The clients of [src/connectors/ai_provider.rs], the scheduler of leases and the
    images; the number of an attempt tells its answers apart. An answer is its text,
    vector or scores, with the raw response. *)
Class ModelServices := {
  new_text_client : bool -> OpenAiCompatibleConfig -> result string unit;
  new_vision_client : OpenAiCompatibleConfig -> result string unit;
  new_embedding_client : OpenAiCompatibleConfig -> Z -> result string unit;
  new_rerank_client : RerankCompatibleConfig -> result string unit;
  complete_text : nat -> OpenAiCompatibleConfig -> TextCompletionRequest -> result string (string * jv);
  describe_frame : OpenAiCompatibleConfig -> VisionSummaryRequest -> result string (string * jv);
  complete_vision : nat -> OpenAiCompatibleConfig -> string -> result string string;
  embed_text : OpenAiCompatibleConfig -> string -> result string (list spec_float * jv);
  rerank : RerankCompatibleConfig -> string -> list string -> nat -> result string (list RerankDocumentScore * jv);
  acquire_ai_resource_lease : nat -> Scheduler.AiWorkload -> option Scheduler.AiLeaseError;
  build_image_data_url : string -> result string string;
  mock_embedding : jv -> string -> option (list spec_float)
}.

(** * Configurations *)

Definition openai_compatible_config_from_endpoint (e : ModelEndpoint) : option OpenAiCompatibleConfig :=
  base_url ← metadata_string (metadata e) "base_url";
  let api_key := default "" (metadata_string (metadata e) "api_key") in
  let api_key_required := is_cloud e || metadata_bool (metadata e) "api_key_required" in
  if api_key_required && is_blank api_key then None else
  model ← (if bool_decide (model_kind e = Embedder) then embedding_model_name_from_endpoint e
           else option_or (metadata_string (metadata e) "model") (unless_blank (model_name e)));
  Some {| oc_base_url := trim_slashes base_url; oc_api_key := api_key; oc_model := model |}.

Definition rerank_compatible_config_from_endpoint (e : ModelEndpoint) : option RerankCompatibleConfig :=
  base_url ← metadata_string (metadata e) "base_url";
  if is_cloud e then None else
  model ← option_or (metadata_string (metadata e) "model") (unless_blank (model_name e));
  Some {| rc_base_url := trim_slashes base_url; rc_api_key := default "" (metadata_string (metadata e) "api_key");
          rc_model := model; rc_rerank_path := default "/rerank" (metadata_string (metadata e) "rerank_path") |}.

Section runs.
Context `{!EndpointUrls} `{!ModelServices}.

Definition endpoint_requires_a100_cluster_1 (e : ModelEndpoint) (w : Scheduler.AiWorkload) : bool :=
  if negb (is_local e) then false
  else if match metadata_string (metadata e) "ai_resource_cluster" with
          | Some cluster => eq_ignore_ascii_case cluster "a100_cluster_1" | None => false end then true
  else match w with
       | Scheduler.Llm =>
           match metadata_string (metadata e) "runtime" with
           | Some runtime => eq_ignore_ascii_case runtime "spacemit-llama-server" | None => false end
           || endpoint_uses_loopback_port e 8091
       | Scheduler.Vlm => endpoint_uses_loopback_port e 8080
       | _ => false
       end.

(** The error, if the lease that is needed is refused. *)
Definition acquire_endpoint_ai_lease (attempt : nat) (e : ModelEndpoint) (w : Scheduler.AiWorkload) : option Scheduler.AiLeaseError :=
  if endpoint_requires_a100_cluster_1 e w then acquire_ai_resource_lease attempt w else None.

Definition endpoint_result (available : bool) (s summary text : string) (details : jv) (e : ModelEndpoint) : TextExecution :=
  {| tx_available := available; tx_status := s; tx_summary := summary; tx_provider_key := provider_key e;
     tx_model_endpoint_id := Some (model_endpoint_id e); tx_text := text; tx_details := details |}.

Definition no_endpoint (s summary : string) (details : jv) : TextExecution :=
  {| tx_available := false; tx_status := s; tx_summary := summary; tx_provider_key := ""; tx_model_endpoint_id := None;
     tx_text := ""; tx_details := details |}.

(** [LlmTextExecution::default] *)
Definition default_text_execution : TextExecution := no_endpoint "" "" JNull.

Definition kind_details (e : ModelEndpoint) : jv :=
  json_object [("endpoint_kind", JStr (endpoint_kind_as_str (endpoint_kind e)))].

(** * Language models *)

Definition default_system_prompt : string :=
  "You are a strict HarborBeacon planning translator. Return only valid JSON that follows the requested schema.".

(** [0.1] as a [f32] *)
Definition default_temperature : spec_float := S754_finite false 13421773 (-27).

Definition text_request (prompt : string) (e : ModelEndpoint) (o : LlmTextOptions) : TextCompletionRequest :=
  {| tq_system_prompt :=
       option_or (lo_system_prompt o) (option_or (metadata_string (metadata e) "system_prompt") (Some default_system_prompt));
     tq_user_prompt := prompt; tq_temperature := option_or (lo_temperature o) (Some default_temperature);
     tq_max_tokens := lo_max_tokens o; tq_timeout := lo_timeout o;
     tq_disable_thinking := metadata_bool (metadata e) "disable_thinking";
     tq_json_object_response := lo_json_object_response o |}.

Definition lease_details (error : Scheduler.AiLeaseError) : jv :=
  json_object [("ai_resource_error", JStr (Scheduler.error_code error)); ("local_only", JBool true); ("fallback_allowed", JBool false)].

Definition run_llm_text_on_endpoint (attempt : nat) (prompt : string) (e : ModelEndpoint) (o : LlmTextOptions)
  : TextExecution * list ModelRequest :=
  match metadata_string (metadata e) "mock_text" with
  | Some mock_text =>
      (endpoint_result (negb (is_blank mock_text)) "active" "Mock LLM endpoint resolved." mock_text (kind_details e) e, [])
  | None =>
  if negb (endpoint_uses_openai_compatible_api e) then
    (endpoint_result false "degraded"
       ("LLM endpoint " +:+ model_endpoint_id e +:+ " is configured, but provider " +:+ provider_key e
          +:+ " is not implemented yet.") "" (kind_details e) e, [])
  else match openai_compatible_config_from_endpoint e with
  | None =>
      (endpoint_result false "degraded" "LLM endpoint base_url / api_key / model_name are not configured." ""
         (kind_details e) e, [])
  | Some config =>
  let redirects_disabled := metadata_bool (metadata e) "semantic_router_embedded_facade" in
  match new_text_client redirects_disabled config with
  | Err error => (endpoint_result false "degraded" ("Failed to build LLM client: " +:+ error) "" (JObj []) e, [])
  | Ok _ =>
  match acquire_endpoint_ai_lease attempt e Scheduler.Llm with
  | Some error =>
      (endpoint_result false "busy" ("LLM A100 resource is busy: " +:+ Scheduler.error_display error) "" (lease_details error) e, [])
  | None =>
      let request := text_request prompt e o in
      (match complete_text attempt config request with
       | Ok (text, raw_response) =>
           endpoint_result true "active"
             ("LLM " +:+ default "text completion" (lo_purpose o ≫= unless_blank) +:+ " completed.") text
             (json_object [("purpose", json_option JStr (lo_purpose o)); ("max_tokens", json_option JNum (lo_max_tokens o));
                           ("timeout_ms", json_option JNum (lo_timeout o));
                           ("json_object_response", JBool (lo_json_object_response o)); ("raw_response", raw_response)]) e
       | Err error => endpoint_result false "degraded" ("LLM request failed: " +:+ error) "" (JObj []) e
       end, [AskText redirects_disabled config request])
  end end end end.

Definition llm_route_policy_id (o : LlmTextOptions) : string :=
  match trim <$> lo_purpose o with
  | Some purpose => if str_in purpose ["router"; "semantic.router"] then SEMANTIC_ROUTER_POLICY_ID else LLM_POLICY_ID
  | None => LLM_POLICY_ID
  end.

Definition when {A} (o : option A) (f : A -> list (string * jv) -> list (string * jv)) (l : list (string * jv)) :=
  match o with Some x => f x l | None => l end.

Definition merge_llm_execution_details (route_policy : string) (attempted_endpoints : list string)
    (fallback_reason : option string) (fallback_used : bool) (selected_endpoint_kind : string)
    (attempt_summaries : list jv) (r : TextExecution) : TextExecution :=
  let l := match tx_details r with JObj l => l | _ => [] end in
  let l := obj_insert "route_policy_id" (JStr route_policy) l in
  let l := obj_insert "attempted_endpoints" (JArr (JStr <$> attempted_endpoints)) l in
  let l := obj_insert "fallback_used" (JBool fallback_used) l in
  let l := if route_policy =? SEMANTIC_ROUTER_POLICY_ID then obj_insert "local_only" (JBool true) l else l in
  let l := obj_insert "attempt_summaries" (JArr attempt_summaries) l in
  let l := when (fallback_reason ≫= unless_blank) (fun reason => obj_insert "fallback_reason" (JStr reason)) l in
  let l := when (tx_model_endpoint_id r) (fun id => obj_insert "selected_endpoint" (JStr id)) l in
  let l := if is_blank selected_endpoint_kind then l else obj_insert "selected_endpoint_kind" (JStr selected_endpoint_kind) l in
  {| tx_available := tx_available r; tx_status := tx_status r; tx_summary := tx_summary r;
     tx_provider_key := tx_provider_key r; tx_model_endpoint_id := tx_model_endpoint_id r; tx_text := tx_text r;
     tx_details := JObj l |}.

Definition attempt_summary (e : ModelEndpoint) (r : TextExecution) : jv :=
  json_object [("endpoint", JStr (model_endpoint_id e)); ("endpoint_kind", JStr (endpoint_kind_as_str (endpoint_kind e)));
               ("status", JStr (tx_status r)); ("available", JBool (tx_available r)); ("summary", JStr (tx_summary r))].

(** The scheduler refused the lease. *)
Definition ai_busy (r : TextExecution) : bool := (tx_status r =? "busy") && is_some (jv_get (tx_details r) "ai_resource_error").

(** What the loop has gathered. *)
Record Attempts := {
  at_endpoints : list string;
  at_summaries : list jv;
  at_fallback_reason : option string;
  at_last_result : option TextExecution
}.

Definition no_attempts : Attempts :=
  {| at_endpoints := []; at_summaries := []; at_fallback_reason := None; at_last_result := None |}.

Definition all_failed (route_policy : string) (a : Attempts) : TextExecution :=
  let r := default default_text_execution (at_last_result a) in
  merge_llm_execution_details route_policy (at_endpoints a) (at_fallback_reason a) (1 <? length (at_endpoints a))%nat ""
    (at_summaries a)
    {| tx_available := false; tx_status := if is_blank (tx_status r) then "degraded" else tx_status r;
       tx_summary := "All LLM endpoints failed for route_policy=" +:+ route_policy +:+ "; last error: " +:+ tx_summary r;
       tx_provider_key := tx_provider_key r; tx_model_endpoint_id := tx_model_endpoint_id r; tx_text := tx_text r;
       tx_details := tx_details r |}.

Fixpoint try_endpoints (route_policy prompt : string) (o : LlmTextOptions) (first_endpoint_id : option string)
    (candidates : list ModelEndpoint) (a : Attempts) : TextExecution * list ModelRequest :=
  match candidates with
  | [] => (all_failed route_policy a, [])
  | e :: candidates =>
      let '(r, requests) := run_llm_text_on_endpoint (length (at_endpoints a)) prompt e o in
      let attempted := at_endpoints a ++ [model_endpoint_id e] in
      let summaries := at_summaries a ++ [attempt_summary e r] in
      let where_ := endpoint_kind_as_str (endpoint_kind e) in
      if ai_busy r then (merge_llm_execution_details route_policy attempted None false where_ summaries r, requests)
      else if tx_available r then
        (merge_llm_execution_details route_policy attempted (at_fallback_reason a)
           (negb (bool_decide (tx_model_endpoint_id r = first_endpoint_id)) || (1 <? length attempted)%nat) where_ summaries r,
         requests)
      else
        let '(result, more) :=
          try_endpoints route_policy prompt o first_endpoint_id candidates
            {| at_endpoints := attempted; at_summaries := summaries;
               at_fallback_reason := match at_fallback_reason a with None => Some (tx_summary r) | reason => reason end;
               at_last_result := Some r |} in
        (result, requests ++ more)
  end.

Definition run_llm_text_with_state_and_options (h : Host) (p : Probe) (prompt : string) (s : AdminModelCenterState)
    (o : LlmTextOptions) : TextExecution * list ModelRequest :=
  let route_policy := llm_route_policy_id o in
  let effective := if route_policy =? SEMANTIC_ROUTER_POLICY_ID then semantic_router_local_only_model_state h s else Ok s in
  match effective with
  | Err error =>
      (no_endpoint "disabled" error
         (json_object [("route_policy_id", JStr SEMANTIC_ROUTER_POLICY_ID); ("local_only", JBool true);
                       ("cloud_fallback_allowed", JBool false); ("configuration_error", JStr error)]), [])
  | Ok s =>
      match resolve_endpoint_candidates h p s Llm route_policy with
      | [] => (no_endpoint "disabled" "No LLM endpoint is enabled."
                 (json_object [("route_policy_id", JStr route_policy); ("attempted_endpoints", JArr [])]), [])
      | candidates =>
          try_endpoints route_policy prompt o (model_endpoint_id <$> head candidates) candidates no_attempts
      end
  end.

Definition run_llm_text_with_state (h : Host) (p : Probe) (prompt : string) (s : AdminModelCenterState)
  : TextExecution * list ModelRequest := run_llm_text_with_state_and_options h p prompt s default_options.

(** * The vision model *)

Definition local_details : jv :=
  json_object [("image_path_redacted", JBool true); ("local_only", JBool true); ("fallback_allowed", JBool false)].

Definition local_kind_details (local_only : bool) (e : ModelEndpoint) : jv :=
  json_object [("endpoint_kind", JStr (endpoint_kind_as_str (endpoint_kind e))); ("local_only", JBool local_only);
               ("fallback_allowed", JBool false)].

Definition SUMMARY_PROMPT : string :=
  "请用中文概括这张图片、截图或摄像头静帧的主要内容，提取主体、场景、可检索文本线索和需要关注的信号，保持在 80 个汉字以内。".

Definition vision_request (image_data_url : string) (e : ModelEndpoint) : VisionSummaryRequest :=
  {| vq_image_data_url := image_data_url;
     vq_detection_summary := "This is an ordinary image from a knowledge base, not a security-camera alert.";
     vq_user_prompt := option_or (metadata_string (metadata e) "prompt") (Some SUMMARY_PROMPT);
     vq_system_prompt := Some "You create concise Chinese descriptions for ordinary knowledge-base images. Describe visible subjects, scene, season or weather when evident, colors, actions, and useful searchable details. Do not assess security risk or focus on people unless they are visibly relevant. Never answer only 'none' or 'unknown'; describe what is visible. Keep it under 120 Chinese characters.";
     vq_disable_thinking := true |}.

(** After the endpoint was found to be local. *)
Definition summarize_on_endpoint (image_path : string) (e : ModelEndpoint) : TextExecution * list ModelRequest :=
  match metadata_string (metadata e) "mock_text" with
  | Some mock_text =>
      (endpoint_result (negb (is_blank mock_text)) "active" "Mock VLM endpoint resolved." mock_text (local_kind_details true e) e, [])
  | None =>
  if negb (endpoint_uses_openai_compatible_api e) then
    (endpoint_result false "degraded"
       ("VLM endpoint " +:+ model_endpoint_id e +:+ " is configured, but provider " +:+ provider_key e
          +:+ " is not implemented yet.") "" (kind_details e) e, [])
  else match openai_compatible_config_from_endpoint e with
  | None =>
      (endpoint_result false "degraded" "VLM endpoint base_url / api_key / model_name are not configured." ""
         (local_kind_details true e) e, [])
  | Some config =>
  match build_image_data_url image_path with
  | Err error => (endpoint_result false "degraded" error "" local_details e, [])
  | Ok image_data_url =>
  match new_vision_client config with
  | Err error => (endpoint_result false "degraded" ("Failed to build VLM client: " +:+ error) "" local_details e, [])
  | Ok _ =>
  match acquire_endpoint_ai_lease 0 e Scheduler.Vlm with
  | Some error =>
      (endpoint_result false "busy" ("VLM A100 resource is busy: " +:+ Scheduler.error_display error) "" (lease_details error) e, [])
  | None =>
      let request := vision_request image_data_url e in
      (match describe_frame config request with
       | Ok (text, raw_response) =>
           endpoint_result true "active" "VLM summary extracted from image." text
             (json_object [("raw_response", raw_response); ("local_only", JBool true); ("fallback_allowed", JBool false)]) e
       | Err error => endpoint_result false "degraded" ("VLM request failed: " +:+ error) "" local_details e
       end, [AskVision config request])
  end end end end end.

Definition run_vlm_summary_with_state (h : Host) (p : Probe) (image_path : string) (s : AdminModelCenterState)
  : TextExecution * list ModelRequest :=
  match resolve_endpoint h p s Vlm VLM_POLICY_ID with
  | None => (no_endpoint "disabled" "No VLM endpoint is enabled." (JObj []), [])
  | Some e =>
      match vlm_endpoint_local_only_blocker e with
      | Some reason => (endpoint_result false "blocked" reason "" (local_kind_details false e) e, [])
      | None => summarize_on_endpoint image_path e
      end
  end.

(** * Embeddings *)

Definition embedding_result (available : bool) (s summary : string) (name : option string) (vector : list spec_float)
    (details : jv) (e : ModelEndpoint) : EmbeddingExecution :=
  {| ee_available := available; ee_status := s; ee_summary := summary; ee_provider_key := provider_key e;
     ee_model_endpoint_id := Some (model_endpoint_id e); ee_model_name := name; ee_vector := vector; ee_details := details |}.

Definition no_embedding (summary : string) : EmbeddingExecution :=
  {| ee_available := false; ee_status := "disabled"; ee_summary := summary; ee_provider_key := "";
     ee_model_endpoint_id := None; ee_model_name := None; ee_vector := []; ee_details := JObj [] |}.

Definition embed_on_endpoint (input : string) (timeout : Z) (e : ModelEndpoint) : EmbeddingExecution * list ModelRequest :=
  match mock_embedding (metadata e) input with
  | Some vector =>
      (embedding_result (negb (length vector =? 0)%nat) "active" "Mock embedding endpoint resolved." (Some (model_name e))
         vector (kind_details e) e, [])
  | None =>
  let resolved_model_name := embedding_model_name_from_endpoint e in
  if negb (endpoint_uses_openai_compatible_api e) then
    (embedding_result false "degraded"
       ("Embedding endpoint " +:+ model_endpoint_id e +:+ " is configured, but provider " +:+ provider_key e
          +:+ " is not implemented yet.") resolved_model_name [] (kind_details e) e, [])
  else match openai_compatible_config_from_endpoint e with
  | None =>
      (embedding_result false "degraded" "Embedding endpoint base_url / api_key / model_name are not configured."
         resolved_model_name [] (kind_details e) e, [])
  | Some config =>
  match new_embedding_client config timeout with
  | Err error =>
      (embedding_result false "degraded" ("Failed to build embedding client: " +:+ error) (Some (oc_model config)) [] (JObj []) e, [])
  | Ok _ =>
      (match embed_text config input with
       | Ok (vector, raw_response) =>
           embedding_result (negb (length vector =? 0)%nat) "active" "Embedding request completed."
             (option_or (metadata_string raw_response "model") (Some (oc_model config))) vector
             (json_object [("raw_response", raw_response)]) e
       | Err error =>
           embedding_result false "degraded" ("Embedding request failed: " +:+ error) (Some (oc_model config)) [] (JObj []) e
       end, [AskEmbedding config timeout input])
  end end end.

Definition run_embedding_with_state_and_timeout (h : Host) (p : Probe) (text : string) (s : AdminModelCenterState) (timeout : Z)
  : EmbeddingExecution * list ModelRequest :=
  let input := trim text in
  if is_empty input then (no_embedding "Embedding input is empty.", []) else
  match resolve_endpoint h p s Embedder EMBED_POLICY_ID with
  | None => (no_embedding "No embedding endpoint is enabled.", [])
  | Some e => embed_on_endpoint input timeout e
  end.

Definition run_embedding_with_state (h : Host) (p : Probe) (text : string) (s : AdminModelCenterState)
  : EmbeddingExecution * list ModelRequest := run_embedding_with_state_and_timeout h p text s 45000.

Definition embedding_query_input (e : ModelEndpoint) (text : string) : string :=
  let query := trim text in
  match metadata_string (metadata e) "query_instruction" with
  | Some instruction => "Instruct: " +:+ instruction +:+ String "010" "Query:" +:+ query
  | None => query
  end.

Definition run_query_embedding_with_state (h : Host) (p : Probe) (text : string) (s : AdminModelCenterState)
  : EmbeddingExecution * list ModelRequest :=
  let prepared := match resolve_endpoint h p s Embedder EMBED_POLICY_ID with
                  | Some e => embedding_query_input e text | None => text end in
  run_embedding_with_state h p prepared s.

(** * Reranking *)

Definition rerank_details (entries : list (string * jv)) : jv :=
  json_object (entries ++ [("route_policy_id", JStr RERANK_POLICY_ID); ("local_only", JBool true); ("fallback_allowed", JBool false)]).

Definition rerank_kind (e : ModelEndpoint) : list (string * jv) :=
  [("endpoint_kind", JStr (endpoint_kind_as_str (endpoint_kind e)))].

Definition rerank_result (available : bool) (s summary : string) (scores : list RerankDocumentScore)
    (entries : list (string * jv)) (e : ModelEndpoint) : RerankExecution :=
  {| re_available := available; re_status := s; re_summary := summary; re_provider_key := provider_key e;
     re_model_endpoint_id := Some (model_endpoint_id e); re_model_name := Some (model_name e); re_scores := scores;
     re_details := rerank_details entries |}.

Definition no_rerank (summary : string) (details : jv) : RerankExecution :=
  {| re_available := false; re_status := "disabled"; re_summary := summary; re_provider_key := "";
     re_model_endpoint_id := None; re_model_name := None; re_scores := []; re_details := details |}.

(** [f32::total_cmp] of finite numbers in canonical form: by the sign, then the
    exponent and the mantissa. *)
Definition magnitude_compare (x y : spec_float) : comparison :=
  match x, y with
  | S754_finite _ m e, S754_finite _ m' e' => then_with (Z.compare e e') (Pos.compare m m')
  | S754_finite _ _ _, _ => Gt
  | _, S754_finite _ _ _ => Lt
  | _, _ => Eq
  end.

Definition negative (x : spec_float) : bool :=
  match x with S754_zero s | S754_infinity s | S754_finite s _ _ => s | S754_nan => false end.

Definition f32_total_cmp (x y : spec_float) : comparison :=
  match negative x, negative y with
  | true, false => Lt
  | false, true => Gt
  | false, false => magnitude_compare x y
  | true, true => magnitude_compare y x
  end.

Definition is_finite (x : spec_float) : bool := match x with S754_zero _ | S754_finite _ _ _ => true | _ => false end.

Definition better_score (a b : RerankDocumentScore) : comparison :=
  then_with (f32_total_cmp (sc_score b) (sc_score a)) (Nat.compare (sc_index a) (sc_index b)).

Definition mock_score (document_count : nat) (x : nat * jv) : option RerankDocumentScore :=
  score ← f64_as_f32 <$> jv_f64 x.2;
  if (x.1 <? document_count)%nat && is_finite score then Some {| sc_index := x.1; sc_score := score |} else None.

Definition mock_rerank_scores_from_endpoint (e : ModelEndpoint) (document_count : nat) : option (list RerankDocumentScore) :=
  values ← jv_get (metadata e) "mock_rerank_scores" ≫= jv_array;
  Some (sort_by better_score (omap (mock_score document_count) (combine (seq 0 (length values)) values))).

Definition rerank_on_endpoint (query : string) (documents : list string) (top_n : nat) (e : ModelEndpoint)
  : RerankExecution * list ModelRequest :=
  if is_cloud e then
    (rerank_result false "blocked" "Cloud reranker endpoints are not allowed for retrieval.rerank." [] (rerank_kind e) e, [])
  else match mock_rerank_scores_from_endpoint e (length documents) with
  | Some scores =>
      (rerank_result (negb (length scores =? 0)%nat) "active" "Mock rerank endpoint resolved." scores (rerank_kind e) e, [])
  | None =>
  if negb (eq_ignore_ascii_case (provider_key e) "rerank_compatible") then
    (rerank_result false "degraded"
       ("Rerank endpoint " +:+ model_endpoint_id e +:+ " is configured, but provider " +:+ provider_key e
          +:+ " is not implemented yet.") [] (rerank_kind e) e, [])
  else match rerank_compatible_config_from_endpoint e with
  | None =>
      (rerank_result false "degraded" "Rerank endpoint base_url / model_name are not configured." [] (rerank_kind e) e, [])
  | Some config =>
  match new_rerank_client config with
  | Err error => (rerank_result false "degraded" ("Failed to build rerank client: " +:+ error) [] [] e, [])
  | Ok _ =>
      (match rerank config query documents (Nat.max top_n 1) with
       | Ok (scores, raw_response) =>
           let scores := List.filter (fun score => sc_index score <? length documents)%nat scores in
           rerank_result (negb (length scores =? 0)%nat) "active" "Rerank request completed." scores
             [("raw_response", raw_response)] e
       | Err error => rerank_result false "degraded" ("Rerank request failed: " +:+ error) [] [] e
       end, [AskRerank config query documents (Nat.max top_n 1)])
  end end end.

Definition run_rerank_with_state (h : Host) (p : Probe) (query : string) (documents : list string) (top_n : nat)
    (s : AdminModelCenterState) : RerankExecution * list ModelRequest :=
  let query := trim query in
  if is_empty query then (no_rerank "Rerank query is empty." (JObj []), []) else
  let documents := omap non_blank documents in
  match documents with
  | [] => (no_rerank "Rerank documents are empty." (JObj []), [])
  | _ =>
      match resolve_endpoint h p s Reranker RERANK_POLICY_ID with
      | None => (no_rerank "No local rerank endpoint is enabled." (rerank_details []), [])
      | Some e => rerank_on_endpoint query documents top_n e
      end
  end.
End runs.
