(* ===== verification/ModelSecrets.v ===== *)
(** Secrets of model endpoints: nothing that is shown holds one, and saving what was
    shown loses none. *)
From Stdlib Require Import Ascii.
From S2P Require Import Prelude RustString Json Models ServiceAuth ModelEndpoints.
Local Open Scope string_scope.
Local Open Scope list_scope.

(** * Objects *)

Lemma obj_insert_keys k v l x : x ∈ (obj_insert k v l).*1 <-> x = k \/ x ∈ l.*1.
Proof.
  induction l as [|[k' v'] l IH]; cbn; [set_solver|]. destruct (String.compare k k') eqn:E; cbn.
  - apply String.compare_eq_iff in E as ->. set_solver.
  - set_solver.
  - rewrite elem_of_cons, IH. set_solver.
Qed.

Lemma entry_some_key {A} k (l : list (string * A)) : is_Some (entry k l) <-> k ∈ l.*1.
Proof.
  rewrite <- not_eq_None_Some. rewrite entry_none. split; [intros H; by destruct (decide (k ∈ l.*1))|by intros ? ?].
Qed.

(** * What is shown *)

(** No value holds anything at the key of a secret. *)
Fixpoint shows_no_secret (v : jv) : bool :=
  match v with
  | JObj l => forallb (fun kv => if is_secret_key kv.1 then bool_decide (kv.2 = JStr "") else shows_no_secret kv.2) l
  | JArr items => forallb shows_no_secret items
  | _ => true
  end.

Definition redact_entry (kv : string * jv) : string * jv :=
  (kv.1, if is_secret_key kv.1 then JStr "" else redact_secret_value kv.2).

Lemma redact_object l :
  redact_secret_value (JObj l) = JObj (foldl insert_missing (redact_entry <$> l) (configured_flags l)).
Proof. done. Qed.

Lemma insert_missing_in l f x : x ∈ insert_missing l f -> x ∈ l \/ x = f.
Proof.
  unfold insert_missing. destruct (entry f.1 l); [by left|]. intros [->|H]%elem_of_obj_insert; [right; by destruct f|by left].
Qed.

Lemma insert_all_in flags l x : x ∈ foldl insert_missing l flags -> x ∈ l \/ x ∈ flags.
Proof.
  revert l. induction flags as [|f flags IH]; intros l; cbn; [by left|].
  intros [[H| ->]%insert_missing_in|H]%IH; [by left|right; left|right; by right].
Qed.

Lemma insert_missing_keys l f k : k ∈ (insert_missing l f).*1 <-> k = f.1 \/ k ∈ l.*1.
Proof.
  unfold insert_missing. destruct (entry f.1 l) as [v|] eqn:E; [|apply obj_insert_keys].
  split; [by right|]. intros [->|H]; [|done]. apply entry_some_key. by rewrite E.
Qed.

Lemma insert_all_keys flags l k : k ∈ (foldl insert_missing l flags).*1 <-> k ∈ flags.*1 \/ k ∈ l.*1.
Proof.
  revert l. induction flags as [|f flags IH]; intros l; cbn; [set_solver|]. rewrite IH, insert_missing_keys, elem_of_cons. tauto.
Qed.

Lemma insert_all_present flags l : (forall f, f ∈ flags -> f.1 ∈ l.*1) -> foldl insert_missing l flags = l.
Proof.
  induction flags as [|f flags IH]; intros Hf; [done|]. cbn.
  assert (insert_missing l f = l) as ->; [|apply IH; intros g Hg; apply Hf; by right].
  unfold insert_missing. destruct (proj2 (entry_some_key f.1 l)) as [v ->]; [apply Hf; left|done].
Qed.

(** The keys of the flags. *)
Definition flag_key (k : string) : Prop := exists k', k' ∈ SECRET_KEYS /\ k = k' +:+ "_configured".

Lemma flags_in l f : f ∈ configured_flags l -> exists kv, kv ∈ l /\ is_secret_key kv.1 = true /\ f = (kv.1 +:+ "_configured", JBool (secret_present kv.2)).
Proof.
  unfold configured_flags. intros (kv & -> & [Hin Hs]%elem_of_list_filter)%list_elem_of_fmap. by exists kv.
Qed.

Lemma secret_key_in k : is_secret_key k = true -> k ∈ SECRET_KEYS.
Proof. unfold is_secret_key, str_in. rewrite list_any_true. by intros (x & Hx & ->%String.eqb_eq). Qed.

Lemma flag_not_secret k : flag_key k -> is_secret_key k = false.
Proof.
  intros (k' & Hk & ->). unfold SECRET_KEYS in Hk. rewrite !elem_of_cons in Hk.
  destruct Hk as [->|[->|[->|[->|[->|[->|Hk]]]]]]; try done. by apply not_elem_of_nil in Hk.
Qed.

Lemma flags_keys l f : f ∈ configured_flags l -> flag_key f.1.
Proof. intros (kv & _ & Hs & ->)%flags_in. exists kv.1. split; [by apply secret_key_in|done]. Qed.

Lemma redacted_shows_none v : shows_no_secret (redact_secret_value v) = true.
Proof.
  induction v as [| | | | |l IH|l IH] using jv_nested_ind; try done.
  - cbn. apply forallb_forall. intros x (y & <- & Hy)%in_map_iff. rewrite Forall_forall in IH. by apply IH, list_elem_of_In.
  - rewrite redact_object. cbn [shows_no_secret]. apply forallb_forall. intros kv Hin%list_elem_of_In.
    apply insert_all_in in Hin as [(x & -> & Hx)%list_elem_of_fmap|Hin].
    + cbn. destruct (is_secret_key x.1); [done|]. rewrite Forall_forall in IH. by apply IH.
    + apply flags_in in Hin as (x & _ & Hs & ->). cbn.
      rewrite flag_not_secret; [done|]. exists x.1. split; [by apply secret_key_in|done].
Qed.

Lemma redacted_fixed v : redact_secret_value (redact_secret_value v) = redact_secret_value v.
Proof.
  induction v as [| | | | |l IH|l IH] using jv_nested_ind; try done.
  - cbn. f_equal. rewrite map_map. apply map_ext_in. intros x Hx. rewrite Forall_forall in IH. by apply IH, list_elem_of_In.
  - rewrite redact_object. set (l' := foldl insert_missing _ _). rewrite redact_object. f_equal.
    assert (redact_entry <$> l' = l') as ->.
    { rewrite <- (list_fmap_id l') at 2. apply list_fmap_ext. intros i kv Hkv%list_elem_of_lookup_2. cbn.
      apply insert_all_in in Hkv as [(x & -> & Hx)%list_elem_of_fmap|Hin]; unfold redact_entry; cbn.
      - destruct (is_secret_key x.1) eqn:Hs; [done|]. rewrite Forall_forall in IH. by rewrite IH.
      - apply flags_in in Hin as (x & _ & Hs & ->). cbn.
        rewrite flag_not_secret; [done|]. exists x.1. split; [by apply secret_key_in|done]. }
    apply insert_all_present. intros f (kv & Hin & Hs & ->)%flags_in. cbn. apply insert_all_keys.
    apply insert_all_in in Hin as [(x & -> & Hx)%list_elem_of_fmap|Hin].
    + left. unfold configured_flags. apply list_elem_of_fmap.
      exists (x.1 +:+ "_configured", JBool (secret_present x.2)). split; [done|]. apply list_elem_of_fmap. exists x. split; [done|]. by apply elem_of_list_filter.
    + apply flags_keys in Hin. by rewrite (flag_not_secret _ Hin) in Hs.
Qed.

(** * Ordered metadata *)

Lemma insert_all_ordered flags l : keys_ordered l -> keys_ordered (foldl insert_missing l flags).
Proof.
  revert l. induction flags as [|f flags IH]; intros l Hl; [done|]. cbn. apply IH. unfold insert_missing.
  destruct (entry f.1 l); [done|]. by apply obj_insert_ordered.
Qed.

Lemma fmap_ordered (f : string * jv -> string * jv) l :
  (forall kv, (f kv).1 = kv.1) -> keys_ordered l -> keys_ordered (f <$> l).
Proof.
  intros Hf Hl. unfold keys_ordered in *. induction Hl as [|kv l Hl IH Hx]; cbn; constructor; [done|].
  apply Forall_fmap. eapply Forall_impl; [exact Hx|]. intros x. unfold key_lt. cbn. by rewrite !Hf.
Qed.

Lemma insert_all_entry flags l k : keys_ordered l -> k ∉ flags.*1 -> entry k (foldl insert_missing l flags) = entry k l.
Proof.
  revert l. induction flags as [|f flags IH]; intros l Hl Hk; [done|]. cbn in *. rewrite not_elem_of_cons in Hk.
  assert (keys_ordered (insert_missing l f)) as Hi by exact (insert_all_ordered [f] l Hl).
  rewrite IH by tauto. unfold insert_missing. destruct (entry f.1 l) eqn:E; [done|]. rewrite entry_obj_insert by done.
  destruct (String.eqb_spec f.1 k) as [<-|]; [naive_solver|done].
Qed.

(** What is shown at a key: the values of the other keys, redacted. *)
Lemma redacted_entry l k :
  keys_ordered l -> ~ flag_key k ->
  jv_get (redact_secret_value (JObj l)) k = if is_secret_key k then (fun _ => JStr "") <$> entry k l else redact_secret_value <$> entry k l.
Proof.
  intros Hl Hk. rewrite redact_object. cbn [jv_get]. rewrite insert_all_entry.
  - rewrite entry_fmap by (apply Forall_forall; by intros kv _). unfold redact_entry. cbn.
    by destruct (is_secret_key k), (entry k l).
  - by apply fmap_ordered.
  - intros (f & -> & Hf)%list_elem_of_fmap. by apply Hk, (flags_keys l).
Qed.

(** C27. The metadata that is shown of the model endpoints holds no secret: at the key of
    one, however deep, there is the empty text; redacting again changes nothing; and
    what an endpoint has at the other keys of its metadata is shown, redacted. Only
    that: the rest of an endpoint, its cost policy included, and the route policies
    with their metadata are shown as they are. *)
Theorem shown_endpoints_hold_no_secret s :
  Forall (fun e => shows_no_secret (metadata e) = true) (endpoints (redact_model_center_state s))
  /\ redact_model_center_state (redact_model_center_state s) = redact_model_center_state s
  /\ (forall i e l k, endpoints s !! i = Some e -> metadata e = JObj l -> keys_ordered l -> is_secret_key k = false -> ~ flag_key k ->
       exists e', endpoints (redact_model_center_state s) !! i = Some e'
         /\ model_endpoint_id e' = model_endpoint_id e /\ jv_get (metadata e') k = redact_secret_value <$> entry k l)
  /\ route_policies (redact_model_center_state s) = route_policies s
  /\ (cost_policy <$> endpoints (redact_model_center_state s)) = (cost_policy <$> endpoints s).
Proof.
  split; [|split; [|split; [|split; [done|]]]].
  - cbn. apply Forall_fmap, Forall_forall. intros e _. apply redacted_shows_none.
  - unfold redact_model_center_state. cbn. f_equal. rewrite <- list_fmap_compose. apply list_fmap_ext. intros i e _. cbn.
    unfold redact_model_endpoint, map_metadata, set_metadata. cbn. by rewrite redacted_fixed.
  - intros i e l k Hi Hm Hl Hs Hf. exists (redact_model_endpoint e). cbn. rewrite list_lookup_fmap, Hi. split; [done|]. split; [done|].
    rewrite Hm. change (jv_get (redact_secret_value (JObj l)) k = redact_secret_value <$> entry k l). by rewrite redacted_entry, Hs.
  - cbn. rewrite <- list_fmap_compose. by apply list_fmap_ext.
Qed.

(** * Saving what was shown *)

Lemma redact_jv_str v : jv_str (redact_secret_value v) = jv_str v.
Proof. by destruct v. Qed.

Lemma object_insert_ordered k v l : keys_ordered l -> exists l', object_insert k v (JObj l) = JObj l' /\ keys_ordered l'.
Proof. intros Hl. eexists. split; [done|]. by apply obj_insert_ordered. Qed.

Lemma metadata_string_insert k v l k' :
  keys_ordered l -> metadata_string (object_insert k v (JObj l)) k' = if (k =? k') then jv_str v ≫= non_blank else metadata_string (JObj l) k'.
Proof. intros Hl. unfold metadata_string. cbn [object_insert jv_get]. rewrite entry_obj_insert by done. by destruct (k =? k'). Qed.

Lemma trim_non_blank s t : non_blank s = Some t -> non_blank t = Some t.
Proof.
  unfold non_blank. destruct (is_empty (trim s)) eqn:E; [done|]. intros [= <-]. by rewrite trim_fixed, E.
Qed.

Lemma preserve_step existing l key :
  keys_ordered l -> key ∈ SECRET_KEYS -> metadata_string (JObj l) key = None ->
  exists l', preserve_secret existing (JObj l) key = JObj l' /\ keys_ordered l'
    /\ forall k, ~ flag_key k -> metadata_string (JObj l') k = if (key =? k) then metadata_string existing key else metadata_string (JObj l) k.
Proof.
  intros Hl Hkey Hn. unfold preserve_secret. destruct (metadata_string existing key) as [v|] eqn:He.
  - assert (is_empty (default "" (trim <$> (jv_get (JObj l) key ≫= jv_str))) = true) as ->.
    { unfold metadata_string in Hn. destruct (jv_get (JObj l) key ≫= jv_str) as [t|]; [|done]. cbn in *.
      unfold non_blank in Hn. by destruct (is_empty (trim t)). }
    destruct (object_insert_ordered key (JStr v) l Hl) as (l1 & E1 & H1).
    destruct (object_insert_ordered (key +:+ "_configured") (JBool true) l1 H1) as (l2 & E2 & H2).
    exists l2. rewrite E1, E2. split; [done|]. split; [done|]. intros k Hk. rewrite <- E2, metadata_string_insert by done.
    destruct (String.eqb_spec (key +:+ "_configured") k) as [<-|_]; [exfalso; apply Hk; by exists key|].
    rewrite <- E1, metadata_string_insert by done. destruct (key =? k); [|done]. cbn.
    unfold metadata_string in He. destruct (jv_get existing key ≫= jv_str) as [t|]; [|done]. cbn in He. by apply trim_non_blank in He.
  - exists l. split; [done|]. split; [done|]. intros k _. by destruct (String.eqb_spec key k) as [<-|].
Qed.

Lemma preserve_all existing keys l :
  keys_ordered l -> NoDup keys -> (forall k, k ∈ keys -> k ∈ SECRET_KEYS) -> (forall k, k ∈ keys -> metadata_string (JObj l) k = None) ->
  exists l', foldl (preserve_secret existing) (JObj l) keys = JObj l' /\ keys_ordered l'
    /\ forall k, ~ flag_key k -> metadata_string (JObj l') k = if decide (k ∈ keys) then metadata_string existing k else metadata_string (JObj l) k.
Proof.
  revert l. induction keys as [|key keys IH]; intros l Hl Hnd Hs Hn.
  { exists l. split; [done|]. split; [done|]. intros k _. by rewrite decide_False by apply not_elem_of_nil. }
  apply NoDup_cons in Hnd as [Hkey Hnd]. cbn [foldl].
  destruct (preserve_step existing l key Hl) as (l1 & -> & H1 & E1); [apply Hs; left|apply Hn; left|].
  assert (forall k, k ∈ keys -> ~ flag_key k) as Hflag.
  { intros k Hk Hf. apply flag_not_secret in Hf. assert (k ∈ SECRET_KEYS) as Hks by (apply Hs; by right).
    unfold is_secret_key, str_in in Hf. rewrite list_any_false in Hf. specialize (Hf k Hks). by rewrite String.eqb_refl in Hf. }
  destruct (IH l1 H1 Hnd) as (l2 & -> & H2 & E2).
  - intros k Hk. apply Hs. by right.
  - intros k Hk. rewrite E1 by by apply Hflag. destruct (String.eqb_spec key k) as [->|]; [done|]. apply Hn. by right.
  - exists l2. split; [done|]. split; [done|]. intros k Hk. rewrite E2, E1 by done.
    destruct (decide (k ∈ keys)) as [Hin|Hin]; [rewrite decide_True by (by right); done|].
    destruct (String.eqb_spec key k) as [->|Hne]; [by rewrite decide_True by left|].
    rewrite decide_False; [done|]. by intros [->|?]%elem_of_cons.
Qed.

Lemma secret_keys_nodup : NoDup SECRET_KEYS.
Proof. apply (bool_decide_unpack _). by vm_compute. Qed.

Lemma secret_key_iff k : is_secret_key k = true <-> k ∈ SECRET_KEYS.
Proof.
  split; [apply secret_key_in|]. intros Hk. unfold is_secret_key, str_in. apply list_any_true. exists k. split; [done|]. apply String.eqb_refl.
Qed.

Lemma tagged_id tag e : model_endpoint_id (ensure_model_endpoint_tag tag e) = model_endpoint_id e.
Proof. unfold ensure_model_endpoint_tag. by case_match. Qed.

Lemma normalized_id h e : model_endpoint_id (normalize_builtin_local_model_api_endpoint h e) = model_endpoint_id e.
Proof.
  unfold normalize_builtin_local_model_api_endpoint. do 2 (case_match; [done|]). case_match; [|done]. cbn zeta.
  assert (forall f x, model_endpoint_id (map_metadata f x) = model_endpoint_id x) as Hmap by done.
  assert (forall b : bool, forall x, model_endpoint_id x = model_endpoint_id e -> model_endpoint_id (if b then mark_router x else x) = model_endpoint_id e) as Hm.
  { intros [] x Hx; [|done]. unfold mark_router. by rewrite Hmap, !tagged_id. }
  case_match; [by apply Hm|]. rewrite Hmap. by apply Hm.
Qed.

Lemma aligned_id e : model_endpoint_id (align_embedding_endpoint_identity_with_runtime e) = model_endpoint_id e.
Proof. unfold align_embedding_endpoint_identity_with_runtime. by repeat (case_match; try done). Qed.

(** With other metadata, what is in sanitized form stays so. *)
Lemma sanitize_metadata h e l :
  sanitize_model_endpoint h e = Ok e -> str_in (model_endpoint_id e) LOCAL_SERVICE_ENDPOINTS = false ->
  sanitize_model_endpoint h (set_metadata (JObj l) e) = Ok (set_metadata (JObj l) e).
Proof.
  intros Hs Hid. unfold sanitize_model_endpoint in *.
  change (sanitized_id (set_metadata (JObj l) e)) with (sanitized_id e). destruct (is_empty (sanitized_id e)) eqn:E; [done|].
  injection Hs as Hs. f_equal. set (e1 := Build_ModelEndpoint _ _ _ _ _ _ _ _ _ _ _) in Hs.
  assert (model_endpoint_id e1 = model_endpoint_id e) as Hid1.
  { rewrite <- (normalized_id h e1), <- aligned_id. by rewrite Hs. }
  assert (forall x, model_endpoint_id x = model_endpoint_id e ->
            align_embedding_endpoint_identity_with_runtime (normalize_builtin_local_model_api_endpoint h x) = x) as Hfix.
  { intros x Hx. unfold normalize_builtin_local_model_api_endpoint. rewrite Hx, Hid. cbn [negb].
    unfold align_embedding_endpoint_identity_with_runtime. rewrite Hx.
    destruct (String.eqb_spec (model_endpoint_id e) "embed-local-openai-compatible") as [E'|]; [exfalso; revert Hid; by rewrite E'|done]. }
  rewrite Hfix in Hs by done. rewrite Hfix by exact Hid1. unfold e1 in Hs.
  unfold set_metadata. cbn [model_endpoint_id workspace_id provider_account_id model_kind
    endpoint_kind provider_key model_name capability_tags cost_policy status metadata].
  f_equal;
    first [exact (f_equal model_endpoint_id Hs)|exact (f_equal workspace_id Hs)|exact (f_equal provider_account_id Hs)
          |exact (f_equal provider_key Hs)|exact (f_equal model_name Hs)|exact (f_equal capability_tags Hs)
          |exact (f_equal cost_policy Hs)].
Qed.

Lemma sanitized_endpoint_id h d e : sanitize_model_endpoint h d = Ok e -> model_endpoint_id e = sanitized_id d.
Proof.
  unfold sanitize_model_endpoint. destruct (is_empty _); [done|]. intros [= <-]. by rewrite aligned_id, normalized_id.
Qed.

Lemma default_ids h : Forall (fun d => sanitized_id d = model_endpoint_id d) (default_model_endpoints h).
Proof. unfold default_model_endpoints. repeat (constructor; [reflexivity|]). constructor. Qed.

Lemma missing_ids h ids e :
  e ∈ missing_defaults model_endpoint_id (sanitize_model_endpoint h) ids (default_model_endpoints h) ->
  str_in (model_endpoint_id e) ids = false.
Proof.
  unfold missing_defaults. intros (d & Hd & He)%list_elem_of_omap.
  apply list_elem_of_In, filter_In in Hd as [Hd%list_elem_of_In Hn%negb_true_iff].
  destruct (sanitize_model_endpoint h d) as [x|] eqn:Hx; [|done]. injection He as <-.
  by rewrite (sanitized_endpoint_id h d x Hx), (proj1 (Forall_forall _ _) (default_ids h) d Hd).
Qed.

Lemma kept_all {A} (f : A -> result string A) l : Forall (fun x => f x = Ok x) l -> omap (fun x => res_ok (f x)) l = l.
Proof. induction 1 as [|x l Hx _ IH]; [done|]. cbn. rewrite Hx. cbn. by f_equal. Qed.

Lemma find_only {A} (p : A -> bool) l x :
  x ∈ l -> p x = true -> (forall y, y ∈ l -> p y = true -> y = x) -> list_find p l = Some x.
Proof.
  intros Hx Hp Hu. destruct (list_find p l) as [y|] eqn:E.
  - apply list_find_some in E as [Hy Hpy]. by rewrite (Hu y Hy Hpy).
  - pose proof (proj1 (list_find_none p l) E x Hx) as Hn. by rewrite Hp in Hn.
Qed.

(** The element with a key, changed, where keys are unique. *)
Lemma upsert_at {A} (key : A -> string) change new l e :
  NoDup (key <$> l) -> e ∈ l -> key (change e) = key e ->
  key <$> upsert_first (fun x => key x =? key e) change new l = key <$> l
  /\ forall x, x ∈ upsert_first (fun x => key x =? key e) change new l <-> x = change e \/ x ∈ l /\ key x <> key e.
Proof.
  intros Hnd He Hc. induction l as [|y l IH]; [by apply not_elem_of_nil in He|].
  pose proof (fun Hy : y ∈ y :: l => NoDup_fmap_inj key (y :: l) y e Hnd Hy He) as Hinj. apply NoDup_cons in Hnd as [Hy Hnd]. cbn.
  destruct (String.eqb_spec (key y) (key e)) as [E|Hne].
  - rewrite (Hinj ltac:(left) E). cbn. split; [by rewrite Hc|]. intros x. rewrite !elem_of_cons. split; [|intros [->|[[->|Hx] Hx']]; tauto].
    intros [->|Hx]; [by left|]. right. split; [by right|]. intros Ex. apply Hy. rewrite E, <- Ex. by apply list_elem_of_fmap_2.
  - apply elem_of_cons in He as [->|He]; [done|]. destruct (IH Hnd He) as [Hk Hx]. cbn. rewrite Hk. split; [done|].
    intros x. rewrite !elem_of_cons, Hx. split; [intros [->|[->|[? ?]]]; auto|intros [->|[[->|?] ?]]; auto].
Qed.

(** What is in sanitized form is stored as it is. *)
Lemma stored_as_is h s x :
  Forall (fun e => sanitize_model_endpoint h e = Ok e) (endpoints s) -> NoDup (model_endpoint_id <$> endpoints s) ->
  x ∈ endpoints s ->
  list_find (fun e => model_endpoint_id e =? model_endpoint_id x) (endpoints (save_projected_state h s)) = Some x.
Proof.
  intros Hs Hnd Hx. unfold save_projected_state, sanitize_model_center_state. cbn [endpoints]. rewrite (kept_all _ _ Hs).
  apply find_only; [|apply String.eqb_refl|].
  - rewrite sort_by_perm. apply elem_of_app. by left.
  - intros y Hy E%String.eqb_eq. rewrite sort_by_perm in Hy. apply elem_of_app in Hy as [Hy|Hy].
    + exact (NoDup_fmap_inj model_endpoint_id _ y x Hnd Hy Hx E).
    + apply missing_ids in Hy. unfold str_in in Hy. rewrite list_any_false in Hy.
      specialize (Hy (model_endpoint_id x) (list_elem_of_fmap_2 model_endpoint_id _ _ Hx)). by rewrite E, String.eqb_refl in Hy.
Qed.

(** The secrets that an endpoint had are put back into what was shown of it. *)
Lemma secrets_put_back e l :
  metadata e = JObj l -> keys_ordered l ->
  exists l', preserve_model_endpoint_secret_metadata e (redact_model_endpoint e) = set_metadata (JObj l') e
    /\ forall k, ~ flag_key k -> metadata_string (JObj l') k = metadata_string (metadata e) k.
Proof.
  intros Hm Hl. unfold preserve_model_endpoint_secret_metadata. rewrite Hm. cbn [is_object negb].
  change (metadata (redact_model_endpoint e)) with (redact_secret_value (metadata e)). rewrite Hm.
  set (l1 := foldl insert_missing (redact_entry <$> l) (configured_flags l)).
  change (normalize_json_object (redact_secret_value (JObj l))) with (JObj l1).
  assert (keys_ordered l1) as H1 by by apply insert_all_ordered, fmap_ordered.
  assert (forall x, ~ flag_key x -> metadata_string (JObj l1) x = if is_secret_key x then None else metadata_string (JObj l) x) as Hshown.
  { intros x Hx. unfold metadata_string. pose proof (redacted_entry l x Hl Hx) as E. rewrite redact_object in E. fold l1 in E.
    rewrite E. cbn [jv_get]. destruct (is_secret_key x); destruct (entry x l) as [v|]; cbn; try done. by rewrite redact_jv_str. }
  destruct (preserve_all (JObj l) SECRET_KEYS l1 H1 secret_keys_nodup) as (l2 & E2 & _ & Hl2); [done| |].
  { intros x Hx. assert (is_secret_key x = true) as Hsx by by apply secret_key_iff.
    rewrite Hshown, Hsx; [done|]. intros Hfl. by rewrite (flag_not_secret x Hfl) in Hsx. }
  exists l2. split; [by rewrite E2|]. intros k Hk. rewrite Hl2 by done. destruct (decide (k ∈ SECRET_KEYS)) as [Hin|Hin]; [done|].
  rewrite Hshown by done. destruct (is_secret_key k) eqn:Hsk; [|done]. by apply secret_key_iff in Hsk.
Qed.

(** C28. Saving an endpoint as it was shown, without its secrets, keeps them, if the state
    is in the form it is stored in, with distinct identifiers, and the endpoint is none
    of the four of the local service (whose keys the environment sets): the texts at the
    top of its metadata, secret or not, are as they were when the state has been stored,
    and so are the other endpoints. Secrets deeper in it, or that are no texts, are not
    among them. *)
Theorem shown_endpoint_saved_back h s e l :
  Forall (fun x => sanitize_model_endpoint h x = Ok x) (endpoints s) -> NoDup (model_endpoint_id <$> endpoints s) ->
  e ∈ endpoints s -> str_in (model_endpoint_id e) LOCAL_SERVICE_ENDPOINTS = false -> metadata e = JObj l -> keys_ordered l ->
  exists s' e', save_model_endpoint h s (redact_model_endpoint e) = Ok s'
    /\ list_find (fun x => model_endpoint_id x =? model_endpoint_id e) (endpoints s') = Some e'
    /\ (forall k, ~ flag_key k -> metadata_string (metadata e') k = metadata_string (metadata e) k)
    /\ (forall x, x ∈ endpoints s -> model_endpoint_id x <> model_endpoint_id e ->
          list_find (fun y => model_endpoint_id y =? model_endpoint_id x) (endpoints s') = Some x).
Proof.
  intros Hall Hnd He Hid Hm Hl. pose proof (proj1 (Forall_forall _ _) Hall e He) as Hs. cbv beta in Hs.
  destruct (secrets_put_back e l Hm Hl) as (l' & Hback & Htexts).
  unfold save_model_endpoint. assert (redact_model_endpoint e = set_metadata (redact_secret_value (JObj l)) e) as Hr.
  { unfold redact_model_endpoint, map_metadata. by rewrite Hm. }
  assert (sanitize_model_endpoint h (redact_model_endpoint e) = Ok (redact_model_endpoint e)) as ->.
  { rewrite Hr, redact_object. by apply sanitize_metadata. }
  cbn [mbind result_bind].
  change (model_endpoint_id (redact_model_endpoint e)) with (model_endpoint_id e).
  rewrite (find_only _ _ e He (String.eqb_refl _)) by (intros y Hy E%String.eqb_eq; by eapply (NoDup_fmap_inj model_endpoint_id)).
  set (change := fun x => preserve_model_endpoint_secret_metadata x (redact_model_endpoint e)).
  assert (change e = set_metadata (JObj l') e) as Hc by exact Hback.
  destruct (upsert_at model_endpoint_id change (redact_model_endpoint e) (endpoints s) e Hnd He) as [Hkeys Hin]; [by rewrite Hc|].
  rewrite Hc in Hin. set (s1 := Build_AdminModelCenterState _ _ _).
  assert (Forall (fun x => sanitize_model_endpoint h x = Ok x) (endpoints s1)) as Hall1.
  { apply Forall_forall. intros x [->|[Hx _]]%Hin; [by apply sanitize_metadata|]. exact (proj1 (Forall_forall _ _) Hall x Hx). }
  assert (NoDup (model_endpoint_id <$> endpoints s1)) as Hnd1 by (cbn; by rewrite Hkeys).
  eexists _, (set_metadata (JObj l') e). split; [done|]. split; [|split; [exact Htexts|]].
  - change (model_endpoint_id e) with (model_endpoint_id (set_metadata (JObj l') e)) at 1. apply (stored_as_is h s1); [done|done|].
    apply Hin. by left.
  - intros x Hx Hne. apply (stored_as_is h s1); [done|done|]. apply Hin. by right.
Qed.
