(* ===== verification/ModelRunTheorems.v ===== *)
(** Where the runs of models send what they are given: the router to the facade of
    this machine only, images to a loopback address, documents to no cloud, texts to a
    cloud only by the policy; and the endpoints of a policy are tried in its order
    until one answers. *)
From Stdlib Require Import Ascii.
From S2P Require Import Prelude RustString Json Models ServiceAuth ModelEndpoints ModelSelection ModelRuns ModelSecrets.
From S2P Require Scheduler.
Local Open Scope string_scope.
Local Open Scope list_scope.
Local Open Scope rust_scope.

(** * Candidates *)

Lemma overlay_fields h r e :
  model_endpoint_id (overlay_endpoint h r e) = model_endpoint_id e /\ model_kind (overlay_endpoint h r e) = model_kind e
  /\ endpoint_kind (overlay_endpoint h r e) = endpoint_kind e /\ provider_key (overlay_endpoint h r e) = provider_key e.
Proof. unfold overlay_endpoint. by repeat case_match. Qed.

#[export] Instance candidate_order_total route order : TotalCmp (candidate_order route order).
Proof. unfold candidate_order. total_cmp. Qed.

(** A candidate is of the kind, enabled, an endpoint of the state as the local service
    makes it, and in a cloud only where the policy allows one. *)
Lemma candidate_spec h p s kind route e :
  e ∈ resolve_endpoint_candidates h p s kind route ->
  model_kind e = kind /\ status e <> EndpointDisabled
  /\ (exists e0, e0 ∈ endpoints s /\ e = overlay_endpoint h (probe_local_runtime h p (endpoints s)).1 e0)
  /\ (is_cloud e = true -> cloud_allowed s route = true).
Proof.
  unfold resolve_endpoint_candidates. rewrite (elem_of_sort_by (candidate_order route _)), elem_of_list_filter.
  intros [(e0 & -> & Hin)%list_elem_of_fmap He]. unfold eligible in He.
  apply andb_true_iff in He as [[Hk%bool_decide_eq_true Hs%negb_true_iff%bool_decide_eq_false]%andb_true_iff Hc].
  split; [done|]. split; [done|]. split; [by exists e0|]. intros E. rewrite E, orb_false_r in Hc. exact Hc.
Qed.

(** The stored endpoint that a candidate is made of. *)
Lemma candidate_stored h p s kind route e :
  e ∈ resolve_endpoint_candidates h p s kind route ->
  exists e0, e0 ∈ endpoints s /\ e = overlay_endpoint h (probe_local_runtime h p (endpoints s)).1 e0
    /\ model_kind e0 = kind /\ status e <> EndpointDisabled /\ (is_cloud e0 = true -> cloud_allowed s route = true).
Proof.
  intros (Hk & Hs & (e0 & Hin & ->) & Hc)%candidate_spec. exists e0. split; [done|]. split; [done|].
  destruct (overlay_fields h (probe_local_runtime h p (endpoints s)).1 e0) as (_ & E1 & E2 & _).
  split; [by rewrite <- E1|]. split; [done|]. intros He. apply Hc. unfold is_cloud in *. by rewrite E2.
Qed.

Lemma resolved_candidate h p s kind route e :
  resolve_endpoint h p s kind route = Some e -> e ∈ resolve_endpoint_candidates h p s kind route.
Proof. unfold resolve_endpoint. destruct (resolve_endpoint_candidates _ _ _ _ _) as [|x l]; [done|]. intros [= ->]. left. Qed.

Section runs.
Context `{!EndpointUrls} `{!ModelServices}.

(** * Texts *)

Lemma run_on_endpoint_requests attempt prompt e o r requests q :
  run_llm_text_on_endpoint attempt prompt e o = (r, requests) -> q ∈ requests ->
  exists config, openai_compatible_config_from_endpoint e = Some config
    /\ q = AskText (metadata_bool (metadata e) "semantic_router_embedded_facade") config (text_request prompt e o).
Proof.
  unfold run_llm_text_on_endpoint. repeat (case_match; try (by intros [= <- <-] ?%not_elem_of_nil)).
  all: intros [= <- <-] ->%list_elem_of_singleton; eexists; by split.
Qed.

Lemma tried_requests route prompt o first candidates a r requests q :
  try_endpoints route prompt o first candidates a = (r, requests) -> q ∈ requests ->
  exists e config, e ∈ candidates /\ openai_compatible_config_from_endpoint e = Some config
    /\ q = AskText (metadata_bool (metadata e) "semantic_router_embedded_facade") config (text_request prompt e o).
Proof.
  revert a r requests. induction candidates as [|e candidates IH]; intros a r requests; cbn [try_endpoints].
  { by intros [= <- <-] ?%not_elem_of_nil. }
  destruct (run_llm_text_on_endpoint _ prompt e o) as [r1 req1] eqn:Hrun.
  assert (q ∈ req1 -> exists e' config, e' ∈ e :: candidates /\ openai_compatible_config_from_endpoint e' = Some config
    /\ q = AskText (metadata_bool (metadata e') "semantic_router_embedded_facade") config (text_request prompt e' o)) as H1.
  { intros Hq. destruct (run_on_endpoint_requests _ _ _ _ _ _ _ Hrun Hq) as (config & Hc & ->). exists e, config. split; [left|done]. }
  destruct (ai_busy r1); [by intros [= <- <-]|]. destruct (tx_available r1); [by intros [= <- <-]|].
  destruct (try_endpoints _ _ _ _ candidates _) as [r2 req2] eqn:Hmore. intros [= <- <-] [Hq|Hq]%elem_of_app; [by apply H1|].
  destruct (IH _ _ _ Hmore Hq) as (e' & config & Hin & H2). exists e', config. split; [by right|done].
Qed.

Definition default_router_endpoint (h : Host) : ModelEndpoint :=
  builtin_endpoint "llm-local-openai-compatible" Llm KindLocal "openai_compatible" "Qwen/Qwen2.5-0.5B-Instruct"
    ["assistant_input_parser"; "chat"; "k3_nsp"; "local_first"; "semantic_router"] local_cost EndpointDegraded
    (local_service_entries h
       ++ [("semantic_router", JBool true); ("local_only", JBool true); ("cloud_fallback_allowed", JBool false)]).

Lemma find_default_router h :
  list_find (fun e => model_endpoint_id e =? "llm-local-openai-compatible") (default_model_endpoints h) = Some (default_router_endpoint h).
Proof. reflexivity. Qed.

(** The metadata of the embedded router. *)
Definition facade_metadata (base_url api_key : string) (m : jv) : jv :=
  foldl (fun m key => jv_remove key m)
    (set_metadata_bool "semantic_router_embedded_facade" true
       (set_metadata_bool "cloud_fallback_allowed" false
          (set_metadata_bool "local_only" true
             (set_metadata_bool "api_key_required" true
                (set_metadata_bool "api_key_configured" true
                   (set_metadata_string "api_key" api_key
                      (set_metadata_string "healthz_url" (infer_healthz_url base_url)
                         (set_metadata_string "base_url" base_url m)))))))) MOCK_KEYS.

Lemma embedded_endpoint h e :
  canonical_embedded_semantic_router_endpoint h = Ok e ->
  exists base_url api_key, canonical_embedded_model_api_base_url h = Ok base_url /\ env_trimmed h MODEL_API_TOKEN_ENV = Some api_key
    /\ e = map_metadata (facade_metadata base_url api_key) (default_router_endpoint h).
Proof.
  unfold canonical_embedded_semantic_router_endpoint. rewrite find_default_router.
  destruct (canonical_embedded_model_api_base_url h) as [base_url|]; [|done]. cbn [mbind result_bind].
  destruct (env_trimmed h MODEL_API_TOKEN_ENV) as [api_key|]; [|done]. unfold ok_or. cbn [mbind result_bind].
  intros He. exists base_url, api_key. split; [done|]. split; [done|].
  apply (f_equal (fun r => match r with Ok x => x | Err _ => e end)) in He. symmetry. exact He.
Qed.

Lemma router_state_no_cloud h s s' :
  semantic_router_local_only_model_state h s = Ok s' -> forall e, e ∈ endpoints s' -> is_cloud e = false.
Proof.
  unfold semantic_router_local_only_model_state. destruct (semantic_router_topology h) as [[]|]; cbn [mbind result_bind]; [| |done].
  - destruct (canonical_embedded_semantic_router_endpoint h) as [e|] eqn:He; cbn [mbind result_bind]; [|done].
    intros [= <-] x ->%list_elem_of_singleton. apply embedded_endpoint in He as (base_url & api_key & _ & _ & ->). reflexivity.
  - intros [= <-] x Hx. cbn in Hx. unfold wire_semantic_router_resident_endpoint in Hx.
    assert (forall mark (w : ModelEndpoint -> bool), (forall y, is_cloud (mark y) = is_cloud y) ->
              forall z, z ∈ (fun y => if w y then mark y else y) <$> List.filter (fun e => negb (is_cloud e)) (endpoints s) -> is_cloud z = false) as Hl.
    { intros mark w Hmark z (y & -> & [_ Hy%negb_true_iff]%elem_of_list_filter)%list_elem_of_fmap. destruct (w y); [by rewrite Hmark|done]. }
    destruct (list_any _ _); [by eapply Hl; [|exact Hx]|]. apply elem_of_app in Hx as [Hx| ->%list_elem_of_singleton]; [by eapply Hl; [|exact Hx]|done].
Qed.

(** The state whose endpoints are asked: for the router the one it is left with. *)
Definition asked_state (h : Host) (s : AdminModelCenterState) (o : LlmTextOptions) (s' : AdminModelCenterState) : Prop :=
  if llm_route_policy_id o =? SEMANTIC_ROUTER_POLICY_ID then semantic_router_local_only_model_state h s = Ok s' else s' = s.

(** C23. Every text that is sent goes to one of the endpoints of the state, for the
    router of the state it is left with, where none is a cloud's: to a language model,
    with the address, key and name that the endpoint has once the local service's
    report is laid over it, and not to one that is then disabled; and to one of a cloud
    only if the policy for answers is not strictly local. *)
Theorem cloud_text_by_policy h p prompt s o r requests q :
  run_llm_text_with_state_and_options h p prompt s o = (r, requests) -> q ∈ requests ->
  exists s' e0 config, asked_state h s o s' /\ e0 ∈ endpoints s'
    /\ let e := overlay_endpoint h (probe_local_runtime h p (endpoints s')).1 e0 in
       openai_compatible_config_from_endpoint e = Some config
       /\ q = AskText (metadata_bool (metadata e) "semantic_router_embedded_facade") config (text_request prompt e o)
       /\ model_kind e0 = Llm /\ status e <> EndpointDisabled
       /\ (is_cloud e0 = true -> llm_route_policy_id o = LLM_POLICY_ID /\ s' = s /\ cloud_allowed s LLM_POLICY_ID = true).
Proof.
  unfold run_llm_text_with_state_and_options. destruct (if llm_route_policy_id o =? SEMANTIC_ROUTER_POLICY_ID then _ else _) as [s'|error] eqn:Hs;
    [|by intros [= <- <-] ?%not_elem_of_nil].
  assert (asked_state h s o s') as Hasked.
  { unfold asked_state. destruct (llm_route_policy_id o =? SEMANTIC_ROUTER_POLICY_ID); [done|]. by injection Hs. }
  pose proof (candidate_stored h p s' Llm (llm_route_policy_id o)) as Hcand.
  destruct (resolve_endpoint_candidates _ _ _ _ _) as [|e1 l] eqn:Hl; [by intros [= <- <-] ?%not_elem_of_nil|].
  intros Ht Hq. destruct (tried_requests _ _ _ _ _ _ _ _ _ Ht Hq) as (e & config & Hin & Hc & ->).
  destruct (Hcand e Hin) as (e0 & Hin0 & -> & Hk & Hd & Hcloud). exists s', e0, config. do 2 (split; [done|]). cbn zeta.
  do 4 (split; [done|]). intros He. unfold asked_state in Hasked.
  destruct (String.eqb_spec (llm_route_policy_id o) SEMANTIC_ROUTER_POLICY_ID) as [Hr|Hr].
  - by rewrite (router_state_no_cloud h s s' Hasked e0 Hin0) in He.
  - subst s'. assert (llm_route_policy_id o = LLM_POLICY_ID) as Ho.
    { unfold llm_route_policy_id in *. destruct (trim <$> lo_purpose o); [|done]. by destruct (str_in _ _). }
    split; [done|]. split; [done|]. rewrite <- Ho. by apply Hcloud.
Qed.

(** * The order of the attempts *)

(** The loop ends with this outcome. *)
Definition ends_attempts (r : TextExecution) : bool := ai_busy r || tx_available r.

(** What does not depend on the details. *)
Definition same_answer (r r' : TextExecution) : Prop :=
  tx_available r = tx_available r' /\ tx_status r = tx_status r' /\ tx_text r = tx_text r'
  /\ tx_model_endpoint_id r = tx_model_endpoint_id r'.

Lemma try_endpoints_spec route prompt o first candidates a r requests :
  try_endpoints route prompt o first candidates a = (r, requests) ->
  let outcome i e := run_llm_text_on_endpoint (length (at_endpoints a) + i) prompt e o in
  exists tried, tried `prefix_of` candidates
    /\ requests = concat (imap (fun i e => (outcome i e).2) tried)
    /\ (forall i e, tried !! i = Some e -> S i < length tried -> ends_attempts (outcome i e).1 = false)
    /\ ((exists e, last tried = Some e /\ ends_attempts (outcome (length tried - 1) e).1 = true /\ same_answer r (outcome (length tried - 1) e).1)
        \/ (tried = candidates /\ (forall i e, tried !! i = Some e -> ends_attempts (outcome i e).1 = false) /\ tx_available r = false)).
Proof.
  cbn zeta. revert a r requests. induction candidates as [|e candidates IH]; intros a r requests; cbn [try_endpoints].
  { intros [= <- <-]. exists []. split; [done|]. split; [done|]. split; [by intros|]. right. split; [done|]. split; [by intros|done]. }
  destruct (run_llm_text_on_endpoint _ prompt e o) as [r1 req1] eqn:Hrun.
  assert (run_llm_text_on_endpoint (length (at_endpoints a) + 0) prompt e o = (r1, req1)) as Hrun0 by by rewrite Nat.add_0_r.
  assert (forall x, ends_attempts r1 = true -> same_answer x r1 ->
    exists tried, tried `prefix_of` e :: candidates
    /\ req1 = concat (imap (fun i e => (run_llm_text_on_endpoint (length (at_endpoints a) + i) prompt e o).2) tried)
    /\ (forall i e, tried !! i = Some e -> S i < length tried -> ends_attempts (run_llm_text_on_endpoint (length (at_endpoints a) + i) prompt e o).1 = false)
    /\ ((exists e, last tried = Some e /\ ends_attempts (run_llm_text_on_endpoint (length (at_endpoints a) + (length tried - 1)) prompt e o).1 = true
           /\ same_answer x (run_llm_text_on_endpoint (length (at_endpoints a) + (length tried - 1)) prompt e o).1)
        \/ (tried = e :: candidates /\ (forall i e, tried !! i = Some e -> ends_attempts (run_llm_text_on_endpoint (length (at_endpoints a) + i) prompt e o).1 = false)
            /\ tx_available x = false))) as Hstop.
  { intros x He Hx. exists [e]. cbn. rewrite Hrun0, app_nil_r. split; [apply prefix_cons, prefix_nil|]. split; [done|].
    split; [intros i y _ Hi; lia|]. left. exists e. by rewrite Hrun0. }
  destruct (ai_busy r1) eqn:Hb; [intros [= <- <-]; apply Hstop; [unfold ends_attempts; by rewrite Hb|done]|].
  destruct (tx_available r1) eqn:Hav; [intros [= <- <-]; apply Hstop; [unfold ends_attempts; by rewrite Hav, orb_true_r|done]|].
  clear Hstop. destruct (try_endpoints _ _ _ _ candidates _) as [r2 req2] eqn:Hmore. intros [= <- <-].
  destruct (IH _ _ _ Hmore) as (tried & Hpre & Hreq & Hno & Hend). cbn [at_endpoints] in *. rewrite length_app in *. cbn [length] in *.
  assert (ends_attempts r1 = false) as H1 by (unfold ends_attempts; by rewrite Hb, Hav).
  assert (forall i, length (at_endpoints a) + 1 + i = length (at_endpoints a) + S i) as Hi by lia.
  exists (e :: tried). split; [by apply prefix_cons|]. split; [|split].
  - cbn. rewrite Hrun0. cbn. f_equal. rewrite Hreq. f_equal. apply imap_ext. intros i x _. cbn. by rewrite Hi.
  - intros [|i] x Hx Hlt; [injection Hx as <-; by rewrite Hrun0|]. cbn in Hx, Hlt. rewrite <- Hi. apply Hno; [done|lia].
  - destruct Hend as [(x & Hl & He & Hs)|(-> & Hn & Hf)].
    + left. exists x. destruct tried as [|y tried]; [done|]. cbn [length] in *.
      replace (S (S (length tried)) - 1) with (S (S (length tried) - 1)) by lia. rewrite <- Hi. split; [|done].
      by rewrite last_cons_cons.
    + right. split; [done|]. split; [|done]. intros [|i] x Hx; [injection Hx as <-; by rewrite Hrun0|]. rewrite <- Hi. by apply Hn.
Qed.

(** The endpoints of a policy are tried in its order, each once, until one answers
    or the scheduler is busy; what is asked is what these attempts ask, and the answer
    is the last one's; without one, the answer is that none is available. *)
Theorem first_available_answers h p prompt s o r requests :
  llm_route_policy_id o = LLM_POLICY_ID ->
  run_llm_text_with_state_and_options h p prompt s o = (r, requests) ->
  let candidates := resolve_endpoint_candidates h p s Llm LLM_POLICY_ID in
  let outcome i e := run_llm_text_on_endpoint i prompt e o in
  StronglySorted (fun a b => candidate_order LLM_POLICY_ID (match policy_of s LLM_POLICY_ID with
                     | Some policy => fallback_order policy | None => ["local"; "sidecar"; "cloud"] end) a b <> Gt) candidates
  /\ exists tried, tried `prefix_of` candidates
    /\ requests = concat (imap (fun i e => (outcome i e).2) tried)
    /\ (forall i e, tried !! i = Some e -> S i < length tried -> ends_attempts (outcome i e).1 = false)
    /\ ((exists e, last tried = Some e /\ ends_attempts (outcome (length tried - 1) e).1 = true /\ same_answer r (outcome (length tried - 1) e).1)
        \/ (tried = candidates /\ (forall i e, tried !! i = Some e -> ends_attempts (outcome i e).1 = false) /\ tx_available r = false)).
Proof.
  intros Ho Hrun. cbn zeta. split.
  - apply (sort_by_sorted (candidate_order LLM_POLICY_ID (match policy_of s LLM_POLICY_ID with
                     | Some policy => fallback_order policy | None => ["local"; "sidecar"; "cloud"] end))).
  - unfold run_llm_text_with_state_and_options in Hrun. rewrite Ho in Hrun. change (LLM_POLICY_ID =? SEMANTIC_ROUTER_POLICY_ID) with false in Hrun. cbv iota in Hrun.
    destruct (resolve_endpoint_candidates _ _ _ _ _) as [|e l] eqn:Hl.
    + injection Hrun as Hr Hq. subst r requests. exists []. split; [done|]. split; [done|]. split; [by intros|]. right. split; [done|]. split; [by intros|done].
    + exact (try_endpoints_spec _ _ _ _ _ _ _ _ Hrun).
Qed.

(** * The router *)

Lemma validated_facade `{!EndpointUrlLaws} configured base_url :
  validate_embedded_model_api_base_url configured = Ok base_url -> base_url = DEFAULT_EMBEDDED_MODEL_API_BASE_URL.
Proof.
  unfold validate_embedded_model_api_base_url. destruct (parse_url configured) as [u|] eqn:Hu; [|done]. unfold ok_or. cbn [mbind result_bind].
  destruct (_ || _) eqn:E; [done|]. intros [= <-]. rewrite !orb_false_iff, !negb_false_iff, andb_true_iff in E.
  destruct E as [[[[[[[Hs%String.eqb_eq [Hh%bool_decide_eq_true _]] Hp%bool_decide_eq_true] Hn] Hw] Hpath%String.eqb_eq] Hq] Hf].
  assert (pu_username u = "") as Hn' by (by destruct (pu_username u)).
  assert (pu_password u = None) as Hw' by (by destruct (pu_password u)).
  assert (pu_query u = None) as Hq' by (by destruct (pu_query u)). assert (pu_fragment u = None) as Hf' by (by destruct (pu_fragment u)).
  rewrite (http_url_text configured u "127.0.0.1" 4174) by done. rewrite Hpath. reflexivity.
Qed.

Lemma facade_address `{!EndpointUrlLaws} h base_url :
  canonical_embedded_model_api_base_url h = Ok base_url -> base_url = DEFAULT_EMBEDDED_MODEL_API_BASE_URL.
Proof. apply validated_facade. Qed.

Lemma overlay_url_kept key d m value :
  metadata_string m key = Some value -> is_legacy_model_api_url value = false -> overlay_url key d m = m.
Proof. intros Hm Hl. unfold overlay_url, metadata_missing_or_empty. by rewrite Hm, Hl. Qed.

Lemma overlay_metadata_kept d r m base_url healthz_url api_key :
  metadata_string m "base_url" = Some base_url -> is_legacy_model_api_url base_url = false ->
  metadata_string m "healthz_url" = Some healthz_url -> is_legacy_model_api_url healthz_url = false ->
  metadata_string m "api_key" = Some api_key -> metadata_bool m "api_key_configured" = true ->
  overlay_metadata d r m = m.
Proof.
  intros Hb Hlb Hz Hlz Hk Hc. unfold overlay_metadata. cbv zeta.
  rewrite (overlay_url_kept "base_url" _ m base_url), (overlay_url_kept "healthz_url" _ m healthz_url) by done.
  unfold metadata_missing_or_empty. rewrite Hk. cbn [is_some negb]. by rewrite Hc.
Qed.

Lemma set_status_metadata s e : metadata (set_status s e) = metadata e.
Proof. done. Qed.

Section facade.
Context (h : Host) (api_key : string) (Hkey : non_blank api_key = Some api_key).

Definition router_endpoint : ModelEndpoint :=
  map_metadata (facade_metadata DEFAULT_EMBEDDED_MODEL_API_BASE_URL api_key) (default_router_endpoint h).

Lemma facade_key_not_blank : is_blank api_key = false.
Proof using Hkey. unfold non_blank in Hkey. unfold is_blank. by destruct (is_empty (trim api_key)). Qed.

Lemma facade_metadata_shown :
  metadata router_endpoint
  = JObj [("api_key", JStr api_key); ("api_key_configured", JBool true); ("api_key_required", JBool true);
          ("base_url", JStr DEFAULT_EMBEDDED_MODEL_API_BASE_URL); ("builtin", JBool true);
          ("cloud_fallback_allowed", JBool false); ("healthz_url", JStr "http://127.0.0.1:4174/api/inference/healthz");
          ("local_only", JBool true); ("semantic_router", JBool true); ("semantic_router_embedded_facade", JBool true)].
Proof using Hkey.
  unfold router_endpoint, facade_metadata, map_metadata. cbn [metadata set_metadata]. unfold set_metadata_string.
  rewrite facade_key_not_blank. reflexivity.
Qed.

(** What the local service answers changes nothing of the address and the key. *)
Lemma overlay_router r :
  overlay_endpoint h r router_endpoint = set_status (overlay_status r router_endpoint) router_endpoint.
Proof using Hkey.
  unfold overlay_endpoint. change (model_endpoint_id router_endpoint) with "llm-local-openai-compatible". rewrite find_default_router.
  change (is_builtin_local_openai_endpoint (default_router_endpoint h)) with true. cbv iota.
  assert (overlay_metadata (default_router_endpoint h) r (metadata router_endpoint) = metadata router_endpoint) as E.
  { eapply overlay_metadata_kept; rewrite ?facade_metadata_shown; first [exact Hkey|reflexivity]. }
  change (map_metadata (overlay_metadata (default_router_endpoint h) r) router_endpoint)
    with (set_metadata (overlay_metadata (default_router_endpoint h) r (metadata router_endpoint)) router_endpoint).
  by rewrite E.
Qed.

Lemma router_config r :
  openai_compatible_config_from_endpoint (set_status r router_endpoint)
  = Some {| oc_base_url := DEFAULT_EMBEDDED_MODEL_API_BASE_URL; oc_api_key := api_key; oc_model := DEFAULT_SEMANTIC_ROUTER_MODEL |}.
Proof using Hkey.
  unfold openai_compatible_config_from_endpoint. rewrite set_status_metadata.
  assert (metadata_string (metadata router_endpoint) "base_url" = Some DEFAULT_EMBEDDED_MODEL_API_BASE_URL) as ->.
  { by rewrite facade_metadata_shown. }
  assert (metadata_string (metadata router_endpoint) "api_key" = Some api_key) as ->.
  { rewrite facade_metadata_shown. exact Hkey. }
  cbn [mbind option_bind]. change (default "" (Some api_key)) with api_key. rewrite facade_key_not_blank, andb_false_r. cbv iota.
  rewrite facade_metadata_shown. reflexivity.
Qed.

Lemma canonical_router :
  canonical_embedded_model_api_base_url h = Ok DEFAULT_EMBEDDED_MODEL_API_BASE_URL -> env_trimmed h MODEL_API_TOKEN_ENV = Some api_key ->
  canonical_embedded_semantic_router_endpoint h = Ok router_endpoint.
Proof.
  intros Hb Hk. unfold canonical_embedded_semantic_router_endpoint. rewrite Hb, Hk. cbn [mbind result_bind ok_or].
  rewrite find_default_router. unfold ok_or. cbn [mbind result_bind]. unfold router_endpoint, map_metadata, facade_metadata. reflexivity.
Qed.

Lemma router_state s :
  semantic_router_topology h = Ok TopologyEmbedded -> canonical_embedded_model_api_base_url h = Ok DEFAULT_EMBEDDED_MODEL_API_BASE_URL ->
  env_trimmed h MODEL_API_TOKEN_ENV = Some api_key ->
  exists s', semantic_router_local_only_model_state h s = Ok s' /\ endpoints s' = [router_endpoint].
Proof.
  intros Ht Hb Hk. unfold semantic_router_local_only_model_state. rewrite Ht, canonical_router by done. cbn [mbind result_bind].
  eexists. split; reflexivity.
Qed.
End facade.

(** C11. The router, where it is embedded, sends texts to the facade of this machine only,
    with the key of the environment, whatever endpoints and policies the administrator
    has, whatever address the environment gives and whatever the local service answers;
    where the environment gives another address or no key, it sends none. *)
Theorem router_asks_facade_only `{!EndpointUrlLaws} h p prompt s o r requests q :
  semantic_router_topology h = Ok TopologyEmbedded -> llm_route_policy_id o = SEMANTIC_ROUTER_POLICY_ID ->
  run_llm_text_with_state_and_options h p prompt s o = (r, requests) -> q ∈ requests ->
  exists api_key e, q = AskText true {| oc_base_url := "http://127.0.0.1:4174/api/inference/v1"; oc_api_key := api_key;
                                      oc_model := "Qwen/Qwen2.5-0.5B-Instruct" |} (text_request prompt e o)
    /\ env_trimmed h MODEL_API_TOKEN_ENV = Some api_key.
Proof.
  intros Ht Ho. unfold run_llm_text_with_state_and_options. rewrite Ho. change (_ =? SEMANTIC_ROUTER_POLICY_ID) with true. cbv iota.
  destruct (canonical_embedded_model_api_base_url h) as [base_url|error] eqn:Hb; [pose proof (facade_address h base_url Hb) as ->|].
  - destruct (env_trimmed h MODEL_API_TOKEN_ENV) as [api_key|] eqn:Hk.
    + assert (non_blank api_key = Some api_key) as Hkey.
      { unfold env_trimmed in Hk. destruct (env_var h MODEL_API_TOKEN_ENV) as [v|]; [|done]. by apply trim_non_blank in Hk. }
      destruct (router_state h api_key s Ht Hb Hk) as (s' & -> & Hs').
      pose proof (candidate_spec h p s' Llm SEMANTIC_ROUTER_POLICY_ID) as Hcand.
      destruct (resolve_endpoint_candidates _ _ _ _ _) as [|e0 l] eqn:Hl; [by intros [= <- <-] ?%not_elem_of_nil|].
      intros Htry Hq. destruct (tried_requests _ _ _ _ _ _ _ _ _ Htry Hq) as (e & config & Hin & Hc & ->).
      destruct (Hcand e Hin) as (_ & _ & (e1 & Hin1 & ->) & _). rewrite Hs' in Hin1. apply list_elem_of_singleton in Hin1 as ->.
      rewrite overlay_router in Hc |- * by done. rewrite router_config in Hc by done. injection Hc as <-.
      exists api_key. eexists. split; [|done]. f_equal.
      by rewrite set_status_metadata, facade_metadata_shown.
    + unfold semantic_router_local_only_model_state, canonical_embedded_semantic_router_endpoint. rewrite Ht, Hb, Hk.
      by intros [= <- <-] ?%not_elem_of_nil.
  - unfold semantic_router_local_only_model_state, canonical_embedded_semantic_router_endpoint. rewrite Ht, Hb.
    by intros [= <- <-] ?%not_elem_of_nil.
Qed.

(** * Images and documents *)

(** An endpoint that passes the check has a loopback address, and is asked there. *)
Lemma local_vision_config e config :
  vlm_endpoint_local_only_blocker e = None -> endpoint_uses_openai_compatible_api e = true ->
  openai_compatible_config_from_endpoint e = Some config ->
  exists base_url url, endpoint_kind e = KindLocal /\ metadata_string (metadata e) "base_url" = Some base_url
    /\ oc_base_url config = trim_slashes base_url /\ parse_url (trim base_url) = Some url
    /\ (to_ascii_lowercase (default "" (pu_host url)) = "localhost" \/ to_ascii_lowercase (default "" (pu_host url)) = "::1"
         \/ starts_with "127." (to_ascii_lowercase (default "" (pu_host url))) = true).
Proof.
  intros Hb Hu Hc. unfold openai_compatible_config_from_endpoint in Hc.
  destruct (metadata_string (metadata e) "base_url") as [base_url|] eqn:Hbase; [|done].
  cbn [mbind option_bind] in Hc. destruct (_ && _); [done|]. destruct (if bool_decide _ then _ else _); [|done]. injection Hc as <-.
  unfold vlm_endpoint_local_only_blocker in Hb. destruct (is_local e) eqn:Hl; [|done]. rewrite Hbase, Hu in Hb. cbn [negb] in Hb.
  destruct (url_is_loopback base_url) eqn:Hloop; [|done]. unfold url_is_loopback in Hloop.
  destruct (parse_url (trim base_url)) as [url|] eqn:Hp; [|done]. exists base_url, url.
  split; [by apply bool_decide_eq_true in Hl|]. split; [done|]. split; [done|]. split; [done|].
  apply orb_true_iff in Hloop as [[Hx%String.eqb_eq|Hx%String.eqb_eq]%orb_true_iff|Hx]; auto.
Qed.

(** C24. An image is sent only to an endpoint of the state that is stored as a local
    vision model, the first of those the policy for images allows, once the local
    service's report is laid over them, and not disabled; it is sent with that
    endpoint's address, key and name, where the host of the address is a loopback name:
    localhost, the text "::1", or one that begins with "127."; and what is sent is that
    image with the endpoint's prompt. *)
Theorem images_stay_local h p image_path s r requests q :
  run_vlm_summary_with_state h p image_path s = (r, requests) -> q ∈ requests ->
  exists e0 config image base_url url host, e0 ∈ endpoints s
    /\ let e := overlay_endpoint h (probe_local_runtime h p (endpoints s)).1 e0 in
       resolve_endpoint h p s Vlm VLM_POLICY_ID = Some e
       /\ openai_compatible_config_from_endpoint e = Some config /\ build_image_data_url image_path = Ok image
       /\ q = AskVision config (vision_request image e)
       /\ model_kind e0 = Vlm /\ endpoint_kind e0 = KindLocal /\ status e <> EndpointDisabled
       /\ metadata_string (metadata e) "base_url" = Some base_url /\ oc_base_url config = trim_slashes base_url
       /\ parse_url (trim base_url) = Some url /\ host = to_ascii_lowercase (default "" (pu_host url))
       /\ (host = "localhost" \/ host = "::1" \/ starts_with "127." host = true).
Proof.
  unfold run_vlm_summary_with_state. destruct (resolve_endpoint h p s Vlm VLM_POLICY_ID) as [e|] eqn:He; [|by intros [= <- <-] ?%not_elem_of_nil].
  destruct (vlm_endpoint_local_only_blocker e) eqn:Hb; [by intros [= <- <-] ?%not_elem_of_nil|].
  destruct (candidate_stored h p s Vlm VLM_POLICY_ID e (resolved_candidate _ _ _ _ _ _ He)) as (e0 & Hin & -> & Hk & Hd & _).
  unfold summarize_on_endpoint. set (e := overlay_endpoint _ _ _) in *.
  destruct (metadata_string (metadata e) "mock_text"); [by intros [= <- <-] ?%not_elem_of_nil|].
  destruct (endpoint_uses_openai_compatible_api e) eqn:Hu; [|by intros [= <- <-] ?%not_elem_of_nil]. cbn [negb].
  destruct (openai_compatible_config_from_endpoint e) as [config|] eqn:Hc; [|by intros [= <- <-] ?%not_elem_of_nil].
  destruct (build_image_data_url image_path) as [image|] eqn:Himg; [|by intros [= <- <-] ?%not_elem_of_nil].
  intros Hrun Hq. assert (q = AskVision config (vision_request image e)) as ->.
  { revert Hrun Hq. repeat (case_match; try (by intros [= <- <-] ?%not_elem_of_nil)).
    all: by intros [= <- <-] ->%list_elem_of_singleton. }
  destruct (local_vision_config e config Hb Hu Hc) as (base_url & url & Hl & Hbase & Hoc & Hp & Hhost).
  exists e0, config, image, base_url, url, (to_ascii_lowercase (default "" (pu_host url))). split; [done|]. cbn zeta.
  destruct (overlay_fields h (probe_local_runtime h p (endpoints s)).1 e0) as (_ & _ & E2 & _). fold e in E2. by rewrite <- E2.
Qed.

(** The documents of a search are never sent to a cloud to be ranked, whatever the
    policies say, and a text is sent to a cloud to be embedded only if the policy
    for embeddings allows one. *)
Theorem search_stays_local h p s :
  (forall query documents top_n r requests q,
     run_rerank_with_state h p query documents top_n s = (r, requests) -> q ∈ requests ->
     exists e config docs, q = AskRerank config (trim query) docs (Nat.max top_n 1) /\ docs = omap non_blank documents
       /\ rerank_compatible_config_from_endpoint e = Some config /\ is_cloud e = false /\ status e <> EndpointDisabled)
  /\ (forall text timeout r requests q,
     run_embedding_with_state_and_timeout h p text s timeout = (r, requests) -> q ∈ requests ->
     exists e config, q = AskEmbedding config timeout (trim text) /\ openai_compatible_config_from_endpoint e = Some config
       /\ status e <> EndpointDisabled /\ (is_cloud e = true -> cloud_allowed s EMBED_POLICY_ID = true)).
Proof.
  split.
  - intros query documents top_n r requests q. unfold run_rerank_with_state. destruct (is_empty _); [by intros [= <- <-] ?%not_elem_of_nil|].
    destruct (omap non_blank documents) as [|d l] eqn:Hd; [by intros [= <- <-] ?%not_elem_of_nil|].
    destruct (resolve_endpoint h p s Reranker RERANK_POLICY_ID) as [e|] eqn:He; [|by intros [= <- <-] ?%not_elem_of_nil].
    apply resolved_candidate, candidate_spec in He as (_ & Hs & _ & _). unfold rerank_on_endpoint.
    destruct (is_cloud e) eqn:Hcl; [by intros [= <- <-] ?%not_elem_of_nil|]. destruct (mock_rerank_scores_from_endpoint _ _); [by intros [= <- <-] ?%not_elem_of_nil|].
    destruct (negb _); [by intros [= <- <-] ?%not_elem_of_nil|].
    destruct (rerank_compatible_config_from_endpoint e) as [config|] eqn:Hc; [|by intros [= <- <-] ?%not_elem_of_nil].
    destruct (new_rerank_client config); [|by intros [= <- <-] ?%not_elem_of_nil]. intros [= _ <-] ->%list_elem_of_singleton.
    by exists e, config, (d :: l).
  - intros text timeout r requests q. unfold run_embedding_with_state_and_timeout. destruct (is_empty _); [by intros [= <- <-] ?%not_elem_of_nil|].
    destruct (resolve_endpoint h p s Embedder EMBED_POLICY_ID) as [e|] eqn:He; [|by intros [= <- <-] ?%not_elem_of_nil].
    apply resolved_candidate, candidate_spec in He as (_ & Hs & _ & Hcl). unfold embed_on_endpoint.
    destruct (mock_embedding _ _); [by intros [= <- <-] ?%not_elem_of_nil|]. destruct (negb _); [by intros [= <- <-] ?%not_elem_of_nil|].
    destruct (openai_compatible_config_from_endpoint e) as [config|] eqn:Hc; [|by intros [= <- <-] ?%not_elem_of_nil].
    destruct (new_embedding_client config timeout); [|by intros [= <- <-] ?%not_elem_of_nil]. intros [= _ <-] ->%list_elem_of_singleton.
    by exists e, config.
Qed.
End runs.
