(* ===== verification/CatVerdict.v ===== *)
(** What is made of one recording: it is fetched, measured, frames of it are taken and
    shown to the classifier or to the vision model, and their answers decide.
    [evaluate_cat_recording_candidate] of [src/bin/agent_hub_admin_api.rs], with the
    check of a frame of [src/connectors/ai_provider.rs], the round of
    [src/runtime/model_center.rs] and the classifier's configuration of
    [src/runtime/cat_recording_classifier.rs]. The programs that are run, the files and
    the media service are an interface; their outputs are texts, decoded. *)
From Stdlib Require Import Ascii.
From S2P Require Import Prelude RustString Json Models ServiceAuth ModelEndpoints ModelSelection ModelRuns CatRecords CatSampling.
From S2P Require Scheduler.
Local Open Scope string_scope.
Local Open Scope list_scope.
Local Open Scope rust_scope.

Definition CAT_RECORDING_VALIDATION_MAX_BYTES : Z := 256 * 1024 * 1024.
Definition CAT_RECORDING_VALIDATION_STDERR_MAX_CHARS : nat := 120.
Definition CAT_RECORDING_VALIDATION_ERROR_MAX_CHARS : nat := 480.

(** * Texts of errors *)

(** The text after its first [n] characters. *)
Definition chars_drop (n : nat) (s : string) : string := str_drop (str_len (chars_take n s)) s.
Definition last_chars (n : nat) (s : string) : string := chars_drop (chars_count s - n) s.

Definition tail_bounded_text (value : string) (max_chars : nat) : string :=
  if (chars_count value <=? max_chars)%nat then value else "..." +:+ last_chars (max_chars - 3) value.

Definition head_and_tail_bounded_text (value : string) (max_chars : nat) : string :=
  if (chars_count value <=? max_chars)%nat then value else
  let available := (max_chars - 5)%nat in
  let head_chars := (available / 2)%nat in
  chars_take head_chars value +:+ " ... " +:+ last_chars (available - head_chars) value.

Definition sanitize_cat_recording_validation_error (error : string) : string :=
  head_and_tail_bounded_text (join " " (split_whitespace error)) CAT_RECORDING_VALIDATION_ERROR_MAX_CHARS.

Definition summarize_media_tool_stderr (stderr : string) (redacted_paths : list string) : string :=
  let redact text path := if is_empty path then text else str_replace path "<redacted-path>" text in
  let normalized := join " " (split_whitespace (foldl redact stderr redacted_paths)) in
  if is_empty normalized then "none" else tail_bounded_text normalized CAT_RECORDING_VALIDATION_STDERR_MAX_CHARS.

(** * A frame's check *)

Record CatFrameVerificationPayload := {
  pl_behavior_tags : list string;
  pl_summary : string;
  pl_reason_code : string
}.

(** [CatFrameVerificationResponse], without the raw response, which nothing here reads. *)
Record CatFrameVerificationResponse := {
  fr_cat_present : bool;
  fr_behavior_tags : list string;
  fr_summary : string;
  fr_reason_code : string
}.

Definition normalize_cat_frame_payload (p : CatFrameVerificationPayload) : CatFrameVerificationPayload :=
  {| pl_behavior_tags := foldl push_tag [] (pl_behavior_tags p); pl_summary := pl_summary p;
     pl_reason_code := pl_reason_code p |}.

Definition CAT_REASON_CODES : list string := ["cat_visible"; "no_cat_visible"; "uncertain"; "invalid_frame"].
Definition CAT_BEHAVIOR_TAGS : list string :=
  ["walking"; "running"; "jumping"; "eating"; "drinking"; "playing"; "resting"; "grooming"; "unknown"].

Definition validate_cat_frame_payload (p : CatFrameVerificationPayload) : result string unit :=
  if is_blank (pl_summary p) || is_blank (pl_reason_code p)
  then Err "cat verification response omitted summary or reason_code"
  else if negb (str_in (pl_reason_code p) CAT_REASON_CODES)
  then Err "cat verification response contained an invalid reason_code"
  else if negb (pl_reason_code p =? "cat_visible") && negb (length (pl_behavior_tags p) =? 0)%nat
  then Err "cat verification response attached behavior to a negative result"
  else if (4 <? length (pl_behavior_tags p))%nat || list_any (fun tag => negb (str_in tag CAT_BEHAVIOR_TAGS)) (pl_behavior_tags p)
  then Err "cat verification response contained invalid behavior tags"
  else if negb (length (dedup_by id (sort_by String.compare (pl_behavior_tags p))) =? length (pl_behavior_tags p))%nat
  then Err "cat verification response contained duplicate behavior tags"
  else Ok tt.

(** [str::rfind] of an ASCII character *)
Definition rfind_char (c : ascii) (s : string) : option nat :=
  (fun i => (str_len s - 1 - i)%nat) <$> find_char c (str_rev s).

Definition extract_json_object (value : string) : option string :=
  let trimmed := trim value in
  if starts_with "{" trimmed && ends_with "}" trimmed then Some trimmed else
  start ← find_char "{"%char trimmed;
  last ← rfind_char "}"%char trimmed;
  if (start <? last)%nat then Some (String.substring start (last - start + 1) trimmed) else None.

(** * The world *)

Inductive CatRecordingValidatorBackend := MobileNetV2Int8 | VlmBackend.
Inductive CatRecordingFrameProfile := ProfileClassifier | ProfileVlm.
Inductive CatRecordingFrameSeekStrategy := Fast | Accurate.

(** The paths of the programs and of the model are not read here. *)
Record CatRecordingClassifierConfig := {
  cc_python_bin : string;
  cc_classifier_bin : string;
  cc_model_path : string;
  cc_expected_model_sha256 : string;
  cc_threshold_ppm : Z;
  cc_ai_threads : Z;
  cc_affinity : string
}.

(** The commands that are run, by what they are built from. *)
Inductive MediaCommand :=
| ProbeDuration (video_path : string) (video_stream_only : bool)
| ExtractFrame (video_path output_path : string) (offset_ms : Z) (strategy : CatRecordingFrameSeekStrategy)
    (profile : CatRecordingFrameProfile)
| Classify (config : CatRecordingClassifierConfig) (frames : list (Z * string)).

Record BoundedMediaCommandOutput := {
  mo_success : bool;
  mo_code : option Z;
  mo_stdout : string;
  mo_stderr : string;
  mo_timed_out : bool;
  mo_forced_stop : bool
}.

Record BoundedMediaCommandError := { me_message : string; me_exit_confirmed : bool }.

(** [Codec] of a payload and of the classifier's output; [parse_f64] is [f64::from_str],
    of the standard library. *)
Class CatMedia := {
  create_work_dir : string -> option string;
  download_dvr_artifact_to : string -> string -> result string unit;
  run_bounded_media_command : MediaCommand -> result BoundedMediaCommandError BoundedMediaCommandOutput;
  media_output_state : string -> string;
  output_reset_error : string -> CatRecordingFrameSeekStrategy -> option string;
  deadline_exhausted : string -> CatRecordingFrameSeekStrategy -> bool;
  is_file : string -> bool;
  parse_cat_frame : string -> result string CatFrameVerificationPayload;
  parse_classifier_json : string -> result string CatRecordingClassifierOutput;
  parse_f64 : string -> option spec_float
}.

(** * Floating point *)

Definition f64_mul : spec_float -> spec_float -> spec_float := SFmul 53 1024.
Definition f64_zero : spec_float := S754_zero false.
Definition f64_one : spec_float := S754_finite false 4503599627370496 (-52).
Definition f64_thousand : spec_float := S754_finite false 8796093022208000 (-43).
Definition f64_million : spec_float := S754_finite false 8589934592000000 (-33).
(** [CAT_RECORDING_VALIDATION_MAX_DURATION_SECONDS] *)
Definition f64_six_hundred : spec_float := S754_finite false 5277655813324800 (-43).

(** [f64::round], of what is not negative, as an integer of the width with maximum [max]. *)
Definition f64_round (max : Z) (x : spec_float) : Z :=
  match x with
  | S754_finite false m e =>
      Z.min max (if (0 <=? e)%Z then Z.pos m * 2 ^ e
                 else (2 * Z.pos m + 2 ^ (- e)) / (2 * 2 ^ (- e)))%Z
  | S754_infinity false => max
  | _ => 0%Z
  end.

(** [x.max(0.0)] *)
Definition f64_max_zero (x : spec_float) : spec_float := if SFltb f64_zero x then x else f64_zero.

Definition cat_recording_duration_ms (duration_seconds : spec_float) : Z :=
  f64_round u64_max (f64_mul (f64_max_zero duration_seconds) f64_thousand).

Definition measured_duration_ms (duration_seconds : spec_float) : Z :=
  f64_round u64_max (f64_mul duration_seconds f64_thousand).

(** * The classifier *)

Definition CAT_RECORDING_VALIDATOR_ENV : string := "HARBOR_K3_CAT_RECORDING_VALIDATOR".
Definition CAT_RECORDING_CLASSIFIER_THRESHOLD_ENV : string := "HARBOR_K3_CAT_RECORDING_CLASSIFIER_THRESHOLD".
Definition CAT_RECORDING_CLASSIFIER_AI_THREADS_ENV : string := "HARBOR_K3_CAT_RECORDING_CLASSIFIER_AI_THREADS".
Definition CAT_RECORDING_CLASSIFIER_AFFINITY_ENV : string := "HARBOR_K3_CAT_RECORDING_CLASSIFIER_AFFINITY".
Definition CAT_RECORDING_CLASSIFIER_BIN_ENV : string := "HARBOR_K3_CAT_RECORDING_CLASSIFIER_BIN".
Definition CAT_RECORDING_CLASSIFIER_MODEL_ENV : string := "HARBOR_K3_CAT_RECORDING_CLASSIFIER_MODEL".
Definition CAT_RECORDING_CLASSIFIER_MODEL_SHA256_ENV : string := "HARBOR_K3_CAT_RECORDING_CLASSIFIER_MODEL_SHA256".
Definition CAT_RECORDING_CLASSIFIER_MODEL_SHA256 : string :=
  "d0c1bdcf973ca7f6efc6e62af764ff59300e0d27abbc75c20c7f86515769d825".
Definition DEFAULT_CLASSIFIER_BIN : string := "/usr/lib/harboros-beacon/harbornavi_k3_cat_recording_classifier.py".
Definition DEFAULT_CLASSIFIER_MODEL : string :=
  "/var/lib/harboros-beacon/vision-models/mobilenetv2-cat-binary-v2-20260806/mobilenetv2_cat_binary_int8.onnx".
Definition DEFAULT_THRESHOLD_PPM : Z := 620000.
Definition DEFAULT_AI_THREADS : Z := 4.
Definition DEFAULT_AFFINITY : string := "12;13;14;15".

Definition validator_backend_from_env (h : Host) : result string CatRecordingValidatorBackend :=
  let value := to_ascii_lowercase (trim (default "vlm" (env_var h CAT_RECORDING_VALIDATOR_ENV))) in
  if value =? "mobilenet_v2_int8" then Ok MobileNetV2Int8
  else if value =? "vlm" then Ok VlmBackend
  else Err (CAT_RECORDING_VALIDATOR_ENV +:+ " must be mobilenet_v2_int8 or vlm").

Definition sampled (frames : list (Z * string)) : list CatRecordingFramePrediction :=
  (fun f => {| fp_frame_index := f.1; fp_cat_probability_ppm := 0; fp_inference_ms := 0 |}) <$> frames.

(** [Option::transpose] of what is read from a variable *)
Definition read_env {A} (h : Host) (key : string) (d : A) (parse : string -> result string A) : result string A :=
  match env_var h key with Some value => parse value | None => Ok d end.

Definition env_path (h : Host) (name d : string) : string :=
  default d (option_filter (fun v => negb (is_empty v)) (env_var h name)).

(** No core is one of those before it. *)
Fixpoint repeated_core (seen cores : list Z) : bool :=
  match cores with
  | [] => false
  | core :: cores => bool_decide (core ∈ seen) || repeated_core (seen ++ [core]) cores
  end.

Definition validate_affinity (value : string) (ai_threads : Z) : result string unit :=
  let valid := match mapM (parse_uint 255) (split_char ";"%char value) with
               | Some cores => (Z.of_nat (length cores) =? ai_threads)%Z
                               && list_all (fun core => bool_decide (core ∈ [12; 13; 14; 15]%Z)) cores
                               && negb (repeated_core [] cores)
               | None => false
               end in
  if valid then Ok tt
  else Err (CAT_RECORDING_CLASSIFIER_AFFINITY_ENV +:+ " must contain " +:+ show_Z ai_threads
              +:+ " unique core IDs from 12..=15").

Section evaluation.
Context `{!EndpointUrls} `{!ModelServices} `{!CatMedia}.

Definition parse_threshold_ppm (value : string) : result string Z :=
  let wrong := CAT_RECORDING_CLASSIFIER_THRESHOLD_ENV +:+ " must be 0.0..=1.0" in
  threshold <-? ok_or wrong (parse_f64 (trim value));
  if negb (is_finite threshold) || negb (SFleb f64_zero threshold && SFleb threshold f64_one) then Err wrong
  else Ok (f64_round 4294967295 (f64_mul threshold f64_million)).

Definition classifier_config_from_env (h : Host) : result string CatRecordingClassifierConfig :=
  threshold_ppm <-? read_env h CAT_RECORDING_CLASSIFIER_THRESHOLD_ENV DEFAULT_THRESHOLD_PPM parse_threshold_ppm;
  let wrong_threads := CAT_RECORDING_CLASSIFIER_AI_THREADS_ENV +:+ " must be 1..=4" in
  ai_threads <-? read_env h CAT_RECORDING_CLASSIFIER_AI_THREADS_ENV DEFAULT_AI_THREADS
                   (fun value => ok_or wrong_threads (parse_uint u64_max (trim value)));
  if negb ((1 <=? ai_threads)%Z && (ai_threads <=? 4)%Z) then Err wrong_threads else
  let affinity := default DEFAULT_AFFINITY (env_var h CAT_RECORDING_CLASSIFIER_AFFINITY_ENV) in
  _ <-? validate_affinity affinity ai_threads;
  Ok {| cc_python_bin := default "python3" (env_var h "HARBOR_K3_CAT_RECORDING_CLASSIFIER_PYTHON");
        cc_classifier_bin := env_path h CAT_RECORDING_CLASSIFIER_BIN_ENV DEFAULT_CLASSIFIER_BIN;
        cc_model_path := env_path h CAT_RECORDING_CLASSIFIER_MODEL_ENV DEFAULT_CLASSIFIER_MODEL;
        cc_expected_model_sha256 :=
          to_ascii_lowercase (trim (default CAT_RECORDING_CLASSIFIER_MODEL_SHA256
                                      (env_var h CAT_RECORDING_CLASSIFIER_MODEL_SHA256_ENV)));
        cc_threshold_ppm := threshold_ppm; cc_ai_threads := ai_threads; cc_affinity := affinity |}.

Definition validate_sample_frames (frames : list (Z * string)) : result string unit :=
  _ <-? aggregate_cat_recording_predictions (sampled frames) DEFAULT_THRESHOLD_PPM 1;
  match list_find (fun f => negb (is_file f.2)) frames with
  | Some f => Err ("cat classifier frame is missing: " +:+ f.2)
  | None => Ok tt
  end.

Definition RUNTIME_FAILURE_MARKERS : list string :=
  ["onnxruntimeerror"; "onnx runtime error"; "spacemitexecutionprovider"; "spacemit execution provider";
   "spacemit_onnx_runtime"].

(** The pieces between the characters that are not alphanumeric. *)
Definition alphanumeric_tokens (s : string) : list string :=
  split_char " "%char (str_map (fun c => if is_ascii_alphanumeric c then c else " "%char) s).

Definition classifier_ai_quarantine_reason (timed_out status_success : bool) (stderr : string)
  : option Scheduler.AiLeaseQuarantineReason :=
  if timed_out then Some Scheduler.InferenceTimeout else if status_success then None else
  let stderr := to_ascii_lowercase stderr in
  if contains_any RUNTIME_FAILURE_MARKERS stderr || list_any (fun token => str_in token ["npu"; "tcm"]) (alphanumeric_tokens stderr)
  then Some Scheduler.RuntimeFailure else None.

(** What becomes of the lease: it is released where there is no reason. *)
Definition run_cat_recording_classifier (frames : list (Z * string)) (config : CatRecordingClassifierConfig)
  : result string CatRecordingClassifierOutput * option Scheduler.AiLeaseQuarantineReason :=
  match validate_sample_frames frames with
  | Err error => (Err error, None)
  | Ok _ =>
  match acquire_ai_resource_lease 0 Scheduler.CatRecordingVerifier with
  | Some error => (Err ("cat_classifier_" +:+ Scheduler.error_code error), None)
  | None =>
  match run_bounded_media_command (Classify config frames) with
  | Err error =>
      if negb (me_exit_confirmed error)
      then (Err ("cat_classifier_runner_error=" +:+ me_message error
                 +:+ "; exit_unconfirmed=true; ai_resource_lease_quarantined=true; board_reboot_required=true"),
            Some Scheduler.ProcessExitUnconfirmed)
      else (Err ("cat_classifier_runner_error=" +:+ me_message error), None)
  | Ok output =>
      match classifier_ai_quarantine_reason (mo_timed_out output) (mo_success output) (mo_stderr output) with
      | Some reason =>
          let failure :=
            if mo_timed_out output && mo_forced_stop output then "cat_classifier_timeout_forced"
            else if mo_timed_out output then "cat_classifier_timeout"
            else "cat_classifier_failed " +:+ summarize_media_tool_stderr (mo_stderr output) [] in
          (Err (failure +:+ "; ai_resource_lease_quarantined=true; cluster_one_restart_required=true"), Some reason)
      | None =>
          if negb (mo_success output)
          then (Err ("cat_classifier_failed " +:+ summarize_media_tool_stderr (mo_stderr output) []), None)
          else (parse_classifier_output (parse_classifier_json (mo_stdout output)) (cc_expected_model_sha256 config)
                  (cc_threshold_ppm config) (sort_by Z.compare frames.*1), None)
      end
  end end end.

(** * The vision model *)

Definition verify_cat_frame (index : Z) (config : OpenAiCompatibleConfig) (image_data_url : string)
  : result string CatFrameVerificationResponse :=
  text <-? complete_vision (Z.to_nat index) config image_data_url;
  json_text <-? ok_or "cat verification response did not contain a JSON object" (extract_json_object text);
  payload <-? map_err (String.append "failed to parse cat verification JSON: ") (parse_cat_frame json_text);
  let payload := normalize_cat_frame_payload payload in
  _ <-? validate_cat_frame_payload payload;
  Ok {| fr_cat_present := pl_reason_code payload =? "cat_visible"; fr_behavior_tags := pl_behavior_tags payload;
        fr_summary := pl_summary payload; fr_reason_code := pl_reason_code payload |}.

Definition cat_recording_vlm_error (s summary : string) (e : option ModelEndpoint) : CatRecordingVlmExecution :=
  {| vx_available := false; vx_status := s; vx_summary := summary;
     vx_provider_key := default "" (provider_key <$> e); vx_model_endpoint_id := model_endpoint_id <$> e;
     vx_model_name := default "" (model_name <$> e); vx_cat_present := false; vx_cat_frame_indices := [];
     vx_behavior_tags := []; vx_reason_code := ""; vx_sampled_frame_count := 0 |}.

Definition cat_frames (responses : list (Z * CatFrameVerificationResponse)) : list Z :=
  dedup_by id (sort_by Z.compare (List.filter (fun x => fr_cat_present x.2) responses).*1).

Definition aggregate_cat_frame_verifications (e : ModelEndpoint) (responses : list (Z * CatFrameVerificationResponse))
  : CatRecordingVlmExecution :=
  let cat_frame_indices := cat_frames responses in
  let positive := snd <$> List.filter (fun x => fr_cat_present x.2) responses in
  let uncertain := list_any (fun x => negb (fr_cat_present x.2) && negb (fr_reason_code x.2 =? "no_cat_visible")) responses in
  let first_summary := default "" (head (omap non_blank (fr_summary <$> positive))) in
  let count := if (Z.of_nat (length responses) <=? 255)%Z then Z.of_nat (length responses) else 255%Z in
  let '(summary, reason_code) :=
    if (2 <=? length cat_frame_indices)%nat
    then (trim ("抽样 " +:+ show_Z count +:+ " 帧，其中 " +:+ show_nat (length cat_frame_indices) +:+ " 帧确认出现猫。"
                  +:+ first_summary), "cat_visible")
    else match cat_frame_indices with
         | frame_index :: _ =>
             (trim ("抽样 " +:+ show_Z count +:+ " 帧，仅第 " +:+ show_Z frame_index +:+ " 帧确认出现猫，需要复核。"
                      +:+ first_summary), "uncertain")
         | [] => if uncertain then ("抽样 " +:+ show_Z count +:+ " 帧未形成明确结论，需要复核。", "uncertain")
                 else ("抽样 " +:+ show_Z count +:+ " 帧均未看见猫。", "no_cat_visible")
         end in
  {| vx_available := true; vx_status := "active"; vx_summary := summary; vx_provider_key := provider_key e;
     vx_model_endpoint_id := Some (model_endpoint_id e); vx_model_name := model_name e;
     vx_cat_present := negb (length cat_frame_indices =? 0)%nat; vx_cat_frame_indices := cat_frame_indices;
     vx_behavior_tags := foldl push_tag [] (concat (fr_behavior_tags <$> positive));
     vx_reason_code := reason_code; vx_sampled_frame_count := count |}.

(** The loop over the frames: the responses, or the error that ends it; and what was asked. *)
Fixpoint verify_frames (config : OpenAiCompatibleConfig) (frames : list (Z * string))
  : result string (list (Z * CatFrameVerificationResponse)) * list ModelRequest :=
  match frames with
  | [] => (Ok [], [])
  | (index, path) :: frames =>
      match build_image_data_url path with
      | Err error => (Err error, [])
      | Ok url =>
          match verify_cat_frame index config url with
          | Err error => (Err error, [AskCatFrame config url])
          | Ok response =>
              let '(rest, requests) := verify_frames config frames in
              ((fun l => (index, response) :: l) <$> rest, AskCatFrame config url :: requests)
          end
      end
  end.

Definition valid_round (frames : list (Z * string)) : bool :=
  let indices := dedup_by id (sort_by Z.compare frames.*1) in
  (length indices =? length frames)%nat && list_all (fun index => (1 <=? index)%Z && (index <=? 10)%Z) indices.

(** [round] tells the answers of the scheduler apart. *)
Definition run_cat_recording_validation_with_state (h : Host) (p : Probe) (round : nat) (frames : list (Z * string))
    (s : AdminModelCenterState) : CatRecordingVlmExecution * list ModelRequest :=
  match resolve_endpoint h p s Vlm VLM_POLICY_ID with
  | None => (cat_recording_vlm_error "disabled" "No VLM endpoint is enabled." None, [])
  | Some e =>
  match vlm_endpoint_local_only_blocker e with
  | Some reason => (cat_recording_vlm_error "blocked" reason (Some e), [])
  | None =>
  if negb (eq_ignore_ascii_case (provider_key e) "openai_compatible")
  then (cat_recording_vlm_error "degraded" "Configured VLM provider does not support cat recording validation." (Some e), []) else
  match openai_compatible_config_from_endpoint e with
  | None => (cat_recording_vlm_error "degraded" "VLM endpoint configuration is incomplete." (Some e), [])
  | Some config =>
  if (length frames =? 0)%nat || (5 <? length frames)%nat
  then (cat_recording_vlm_error "degraded"
          "Cat recording validation requires between one and five sampled frames per round." (Some e), [])
  else if negb (valid_round frames)
  then (cat_recording_vlm_error "degraded" "Cat recording validation sampled frame indices are invalid." (Some e), []) else
  match new_vision_client config with
  | Err error => (cat_recording_vlm_error "degraded" error (Some e), [])
  | Ok _ =>
  match acquire_endpoint_ai_lease round e Scheduler.Vlm with
  | Some error =>
      (cat_recording_vlm_error "busy" ("VLM A100 resource is busy: " +:+ Scheduler.error_display error) (Some e), [])
  | None =>
      match verify_frames config frames with
      | (Err error, requests) => (cat_recording_vlm_error "degraded" error (Some e), requests)
      | (Ok responses, requests) => (aggregate_cat_frame_verifications e responses, requests)
      end
  end end end end end.

(** * Media *)

Definition media_tool_output_summary (o : BoundedMediaCommandOutput) (expected_output : option string)
    (redacted_paths : list string) : string :=
  let exit := if mo_timed_out o then "timeout" else default "signal" (show_Z <$> mo_code o) in
  let output_state := default "not_applicable" (media_output_state <$> expected_output) in
  "exit=" +:+ exit +:+ " output=" +:+ output_state +:+ " stderr=" +:+ summarize_media_tool_stderr (mo_stderr o) redacted_paths.

(** [str::lines], for finding one: pieces between newlines; a carriage return goes with
    the blanks that are trimmed. *)
Fixpoint first_duration (lines : list string) : option spec_float :=
  match lines with
  | [] => None
  | line :: lines => match parse_f64 (trim line) with Some x => Some x | None => first_duration lines end
  end.

Definition lf : ascii := ascii_of_nat 10.

Definition probe_once (video_path : string) (video_stream_only : bool) : result string spec_float :=
  let profile := "profile=" +:+ (if video_stream_only then "video" else "container") +:+ " " in
  match run_bounded_media_command (ProbeDuration video_path video_stream_only) with
  | Ok output =>
      if negb (mo_timed_out output) && mo_success output then
        match option_filter (fun d => is_finite d && SFltb f64_zero d) (first_duration (split_char lf (mo_stdout output))) with
        | Some duration => Ok duration
        | None => Err (profile +:+ "invalid_duration")
        end
      else Err (profile +:+ media_tool_output_summary output None [video_path])
  | Err error => Err (profile +:+ "runner_error=" +:+ sanitize_cat_recording_validation_error (me_message error))
  end.

Definition probe_media_duration_seconds (video_path : string) : result string spec_float :=
  match probe_once video_path true with
  | Ok duration => Ok duration
  | Err failure =>
      match probe_once video_path false with
      | Ok duration => Ok duration
      | Err failure' =>
          Err (sanitize_cat_recording_validation_error
                 ("ffprobe_failed_for_cat_recording_validation attempts=[" +:+ join "; " [failure; failure'] +:+ "]"))
      end
  end.

Definition strategy_as_str (s : CatRecordingFrameSeekStrategy) : string := match s with Fast => "fast" | Accurate => "accurate" end.

Definition max_frames (p : CatRecordingFrameProfile) : nat :=
  match p with ProfileClassifier => 9 | ProfileVlm => CAT_RECORDING_VALIDATION_FRAMES_PER_ROUND end.

Definition attempt_frame (video_path output_path : string) (offset_ms : Z) (profile : CatRecordingFrameProfile)
    (strategy : CatRecordingFrameSeekStrategy) : result string unit :=
  let about := "strategy=" +:+ strategy_as_str strategy +:+ " " in
  match output_reset_error output_path strategy with
  | Some error => Err (about +:+ "output_reset_error=" +:+ sanitize_cat_recording_validation_error error)
  | None =>
  if deadline_exhausted output_path strategy then Err (about +:+ "deadline_exhausted") else
  match run_bounded_media_command (ExtractFrame video_path output_path offset_ms strategy profile) with
  | Err error => Err (about +:+ "runner_error=" +:+ sanitize_cat_recording_validation_error (me_message error))
  | Ok output =>
      if negb (mo_timed_out output) && mo_success output && (media_output_state output_path =? "present") then Ok tt
      else Err (about +:+ media_tool_output_summary output (Some output_path) [video_path; output_path])
  end end.

Definition attempt_cat_recording_seek_fallback {T} (attempt : CatRecordingFrameSeekStrategy -> result string T) : result string T :=
  match attempt Fast with
  | Ok x => Ok x
  | Err fast_error =>
      match attempt Accurate with
      | Ok x => Ok x
      | Err accurate_error => Err ("attempts=[" +:+ fast_error +:+ "; " +:+ accurate_error +:+ "]")
      end
  end.

(** The offset is a number of milliseconds small enough to be printed as it is. *)
Definition extract_cat_recording_sample_frame (video_path output_path : string) (frame_index offset_ms : Z)
    (profile : CatRecordingFrameProfile) : result string unit :=
  map_err (fun attempts => sanitize_cat_recording_validation_error
             ("ffmpeg_sample_frame_failed frame=" +:+ show_Z frame_index +:+ " timestamp_ms=" +:+ show_Z offset_ms +:+ " " +:+ attempts))
    (attempt_cat_recording_seek_fallback (attempt_frame video_path output_path offset_ms profile)).

Definition frame_path (output_dir : string) (t : CatRecordingSampleTarget) : string :=
  output_dir +:+ "/frame-" +:+ show_Z (tg_frame_index t) +:+ ".jpg".

Fixpoint extract_frames (video_path output_dir : string) (targets : list CatRecordingSampleTarget)
    (profile : CatRecordingFrameProfile) : result string (list (Z * string)) :=
  match targets with
  | [] => Ok []
  | t :: targets =>
      _ <-? extract_cat_recording_sample_frame video_path (frame_path output_dir t) (tg_frame_index t) (tg_offset_ms t) profile;
      rest <-? extract_frames video_path output_dir targets profile;
      Ok ((tg_frame_index t, frame_path output_dir t) :: rest)
  end.

Definition build_cat_recording_sample_frames (video_path output_dir : string) (targets : list CatRecordingSampleTarget)
    (profile : CatRecordingFrameProfile) : result string (list (Z * string)) :=
  if (length targets =? 0)%nat || (max_frames profile <? length targets)%nat
  then Err "cat_recording_sample_target_count_is_invalid"
  else extract_frames video_path output_dir targets profile.

(** * The evaluation *)

Definition Verdict : Type := CatRecordingValidationStatus * option CatRecordingValidationDecision * option string.

(** Everything that is asked of the models' state, by the round. *)
Record Evaluation := {
  ev_host : Host;
  ev_temp_root : string;
  ev_probe : nat -> Probe;
  ev_state : nat -> AdminModelCenterState;
  ev_elapsed_ms : Z
}.

Definition classified (v : Evaluation) (r : CatRecordingValidationRecord) (video_path work_dir : string)
    (duration_seconds : spec_float) : result string CatRecordingValidationDecision :=
  let '(sampling_strategy, targets) :=
    select_cat_recording_classifier_sample_targets r (cat_recording_duration_ms duration_seconds) in
  frames <-? build_cat_recording_sample_frames video_path work_dir targets ProfileClassifier;
  config <-? classifier_config_from_env (ev_host v);
  execution <-? (run_cat_recording_classifier frames config).1;
  aggregation <-? aggregate_cat_recording_predictions (co_predictions execution) (cc_threshold_ppm config)
                    CAT_RECORDING_CLASSIFIER_MIN_POSITIVE_FRAMES;
  Ok (sanitize_decision
        {| dc_cat_present := ag_cat_present aggregation; dc_cat_frame_indices := ag_cat_frame_indices aggregation;
           dc_behavior_tags := []; dc_summary := ""; dc_reason_code := ag_reason_code aggregation;
           dc_sampled_frame_count := co_sampled_frame_count execution; dc_sampling_strategy := sampling_strategy;
           dc_validation_rounds := 1; dc_sampled_offsets_ms := tg_offset_ms <$> targets;
           dc_frame_predictions := ag_frame_predictions aggregation; dc_model_endpoint_id := co_provider execution;
           dc_model_name := co_model_name execution; dc_elapsed_ms := Z.min (ev_elapsed_ms v) u64_max |}).

(** One round of the vision model. *)
Definition vlm_round (v : Evaluation) (round : nat) (video_path work_dir : string) (targets : list CatRecordingSampleTarget)
  : result string CatRecordingVlmExecution :=
  frames <-? build_cat_recording_sample_frames video_path work_dir targets ProfileVlm;
  let execution := (run_cat_recording_validation_with_state (ev_host v) (ev_probe v round) round frames (ev_state v round)).1 in
  if negb (vx_available execution) then Err ("vlm_" +:+ vx_status execution) else Ok execution.

(** The targets and the executions of one round or two. *)
Definition vlm_rounds (v : Evaluation) (r : CatRecordingValidationRecord) (video_path work_dir : string)
    (duration_ms : Z) (targets : list CatRecordingSampleTarget)
  : result string (list CatRecordingSampleTarget * list CatRecordingVlmExecution) :=
  execution <-? vlm_round v 0 video_path work_dir targets;
  if should_run_cat_recording_followup execution r then
    let followup := select_followup_cat_recording_sample_targets r duration_ms targets
                      (cat_recording_positive_offsets targets (vx_cat_frame_indices execution)) in
    if (length followup =? 0)%nat then Ok (targets, [execution])
    else more <-? vlm_round v 1 video_path work_dir followup; Ok (targets ++ followup, [execution; more])
  else Ok (targets, [execution]).

Definition seen_by_model (v : Evaluation) (r : CatRecordingValidationRecord) (video_path work_dir : string)
    (duration_seconds : spec_float) : result string CatRecordingValidationDecision :=
  let duration_ms := cat_recording_duration_ms duration_seconds in
  let '(sampling_strategy, targets) := select_initial_cat_recording_vlm_sample_targets r duration_ms in
  rounds <-? vlm_rounds v r video_path work_dir duration_ms targets;
  let execution := merge_cat_recording_vlm_executions rounds.2 in
  Ok (sanitize_decision
        {| dc_cat_present := vx_cat_present execution; dc_cat_frame_indices := vx_cat_frame_indices execution;
           dc_behavior_tags := vx_behavior_tags execution; dc_summary := vx_summary execution;
           dc_reason_code := vx_reason_code execution; dc_sampled_frame_count := vx_sampled_frame_count execution;
           dc_sampling_strategy := sampling_strategy; dc_validation_rounds := Z.of_nat (length rounds.2);
           dc_sampled_offsets_ms := tg_offset_ms <$> rounds.1; dc_frame_predictions := [];
           dc_model_endpoint_id := default "" (vx_model_endpoint_id execution); dc_model_name := vx_model_name execution;
           dc_elapsed_ms := Z.min (ev_elapsed_ms v) u64_max |}).

Definition evaluate_cat_recording_candidate (v : Evaluation) (r : CatRecordingValidationRecord) : result string Verdict :=
  if (CAT_RECORDING_VALIDATION_MAX_BYTES <? vr_byte_size r)%Z
  then Ok (ReviewRequired, None, Some "recording_exceeds_validation_size_limit") else
  claim_token <-? ok_or "cat recording validation claim is missing its fencing token" (vr_claim_token r);
  let work_dir := ev_temp_root v +:+ "/" +:+ vr_validation_id r +:+ "-" +:+ claim_token in
  match create_work_dir work_dir with
  | Some error => Err ("failed to create cat recording validation work directory: " +:+ error)
  | None =>
  let video_path := work_dir +:+ "/recording.mp4" in
  _ <-? download_dvr_artifact_to (vr_artifact_id r) video_path;
  duration_seconds <-? probe_media_duration_seconds video_path;
  if negb (is_finite duration_seconds) || SFleb duration_seconds f64_zero || SFltb f64_six_hundred duration_seconds
  then Ok (ReviewRequired, None, Some "recording_duration_is_outside_validation_limits") else
  match cat_recording_hard_gate_reason r (measured_duration_ms duration_seconds) with
  | Some (status, reason) => Ok (status, None, Some reason)
  | None =>
      backend <-? validator_backend_from_env (ev_host v);
      decision <-? match backend with
                   | MobileNetV2Int8 => classified v r video_path work_dir duration_seconds
                   | VlmBackend => seen_by_model v r video_path work_dir duration_seconds
                   end;
      Ok (cat_recording_validation_status_for_decision decision, Some decision, None)
  end end.
End evaluation.

(** * What a verdict rests on *)

Lemma result_bind_ok {E A B} (q : result E A) (k : A -> result E B) b :
  (x <-? q; k x) = Ok b -> exists a, q = Ok a /\ k a = Ok b.
Proof. destruct q as [a|e]; [by exists a|done]. Qed.

Lemma elem_of_dedup_by {A} `{EqDecision A} (x : A) l : x ∈ dedup_by id l <-> x ∈ l.
Proof.
  induction l as [|y l IH]; cbn; [done|]. destruct (dedup_by id l) as [|z rest] eqn:E.
  - by rewrite !elem_of_cons, <- IH.
  - destruct (decide (y = z)) as [->|]; rewrite !elem_of_cons in *; naive_solver.
Qed.

Lemma elem_of_sorted_set (x : Z) l : x ∈ dedup_by id (sort_by Z.compare l) <-> x ∈ l.
Proof. by rewrite elem_of_dedup_by, (elem_of_sort_by Z.compare). Qed.

Lemma dedup_by_strict l : StronglySorted Z.le l -> StronglySorted Z.lt (dedup_by id l).
Proof.
  induction l as [|x l IH]; cbn; [constructor|]. intros [Hl Hx]%StronglySorted_inv. specialize (IH Hl).
  assert (forall z, z ∈ dedup_by id l -> (x <= z)%Z) as Hle.
  { intros z Hz. rewrite elem_of_dedup_by in Hz. by eapply Forall_forall in Hx. }
  destruct (dedup_by id l) as [|y rest]; [by repeat constructor|]. pose proof (StronglySorted_inv IH) as [Hr Hy].
  destruct (decide (x = y)) as [<-|Hxy]; [done|]. pose proof (Hle y ltac:(left)).
  constructor; [done|]. constructor; [lia|]. eapply Forall_impl; [exact Hy|]. cbn. lia.
Qed.

Lemma sorted_set_strict l : StronglySorted Z.lt (dedup_by id (sort_by Z.compare l)).
Proof.
  apply dedup_by_strict. assert (StronglySorted (cmp_le Z.compare) (sort_by Z.compare l)) as Hs by apply (sort_by_sorted Z.compare).
  induction Hs as [|x l' Hs IH Hx]; constructor; [done|]. eapply Forall_impl; [exact Hx|]. intros y Hy. exact Hy.
Qed.

(** Two at least, of a set kept in order. *)
Lemma two_of_set l : (2 <= length (dedup_by id (sort_by Z.compare l)))%nat -> exists n n', (n < n')%Z /\ n ∈ l /\ n' ∈ l.
Proof.
  pose proof (sorted_set_strict l) as Hs. pose proof (fun x => elem_of_sorted_set x l) as Hin.
  destruct (dedup_by id _) as [|n [|n' rest]]; cbn; [lia|lia|]. intros _. exists n, n'.
  apply StronglySorted_inv in Hs as [_ Hn]. split; [by apply Forall_inv in Hn|]. split; apply Hin; [left|right; left].
Qed.

Lemma sanitized_frames d n : n ∈ dc_cat_frame_indices (sanitize_decision d) -> n ∈ dc_cat_frame_indices d.
Proof. cbn. rewrite elem_of_sorted_set, elem_of_list_filter. by intros [? _]. Qed.

Section verdicts.
Context {urls : EndpointUrls} {services : ModelServices} {media : CatMedia}.

(** ** A round of the vision model *)

Lemma verify_frames_spec config frames responses requests :
  verify_frames config frames = (Ok responses, requests) ->
  Forall2 (fun f x => x.1 = f.1 /\ exists url, build_image_data_url f.2 = Ok url /\ verify_cat_frame f.1 config url = Ok x.2) frames responses.
Proof.
  revert responses requests. induction frames as [|[index path] frames IH]; intros responses requests; cbn [verify_frames].
  { intros [= <- _]. constructor. }
  destruct (build_image_data_url path) as [url|] eqn:Hu; [|done]. destruct (verify_cat_frame index config url) as [x|] eqn:Hv; [|done].
  destruct (verify_frames config frames) as [[l|] more] eqn:Hr; [|done]. intros [= <- _]. constructor; [|by eapply IH].
  split; [done|]. by exists url.
Qed.

Lemma verified_present index config url x : verify_cat_frame index config url = Ok x -> fr_cat_present x = (fr_reason_code x =? "cat_visible").
Proof.
  unfold verify_cat_frame. intros (text & _ & H1)%result_bind_ok. apply result_bind_ok in H1 as (json & _ & H1).
  apply result_bind_ok in H1 as (payload & _ & H1). apply result_bind_ok in H1 as (u & _ & H1). by injection H1 as <-.
Qed.

Definition saw (n : Z) (responses : list (Z * CatFrameVerificationResponse)) : Prop :=
  exists x, (n, x) ∈ responses /\ fr_cat_present x = true.

Lemma cat_frames_spec responses n : n ∈ cat_frames responses <-> saw n responses.
Proof.
  unfold cat_frames, saw. rewrite elem_of_sorted_set, list_elem_of_fmap. split.
  - intros ([k x] & -> & [Hin Hp]%elem_of_list_filter). by exists x.
  - intros (x & Hin & Hp). exists (n, x). split; [done|]. by apply elem_of_list_filter.
Qed.

Definition doubtful (x : Z * CatFrameVerificationResponse) : bool :=
  negb (fr_cat_present x.2) && negb (fr_reason_code x.2 =? "no_cat_visible").

Lemma aggregate_fields e responses :
  vx_available (aggregate_cat_frame_verifications e responses) = true
  /\ vx_cat_frame_indices (aggregate_cat_frame_verifications e responses) = cat_frames responses
  /\ vx_reason_code (aggregate_cat_frame_verifications e responses)
     = if (2 <=? length (cat_frames responses))%nat then "cat_visible"
       else match cat_frames responses with
            | _ :: _ => "uncertain"
            | [] => if list_any doubtful responses then "uncertain" else "no_cat_visible"
            end.
Proof.
  unfold aggregate_cat_frame_verifications. cbn zeta. fold doubtful. destruct (2 <=? length (cat_frames responses))%nat; [done|].
  destruct (cat_frames responses); [|done]. by destruct (list_any doubtful responses).
Qed.

Lemma aggregate_negative e responses :
  cat_frames responses = [] -> vx_reason_code (aggregate_cat_frame_verifications e responses) <> "uncertain" ->
  Forall (fun x => fr_reason_code x.2 = "no_cat_visible") responses.
Proof.
  destruct (aggregate_fields e responses) as (_ & _ & ->). intros E. rewrite E. cbn [length Nat.leb]. intros Hu.
  apply Forall_forall. intros [n x] Hin. assert (fr_cat_present x = false) as Hp.
  { apply not_true_iff_false. intros Hp. assert (n ∈ cat_frames responses) as Hn by (apply cat_frames_spec; by exists x).
    rewrite E in Hn. by apply not_elem_of_nil in Hn. }
  destruct (list_any doubtful responses) eqn:Ha; [done|]. rewrite list_any_false in Ha. specialize (Ha _ Hin).
  unfold doubtful in Ha. cbn [snd] in Ha. rewrite Hp in Ha. by apply negb_false_iff, String.eqb_eq in Ha.
Qed.

Lemma run_available h p round frames s :
  vx_available (run_cat_recording_validation_with_state h p round frames s).1 = true ->
  exists e config responses, resolve_endpoint h p s Vlm VLM_POLICY_ID = Some e /\ vlm_endpoint_local_only_blocker e = None
    /\ openai_compatible_config_from_endpoint e = Some config
    /\ Forall2 (fun f x => x.1 = f.1 /\ exists url, build_image_data_url f.2 = Ok url /\ verify_cat_frame f.1 config url = Ok x.2) frames responses
    /\ (run_cat_recording_validation_with_state h p round frames s).1 = aggregate_cat_frame_verifications e responses.
Proof.
  unfold run_cat_recording_validation_with_state. destruct (resolve_endpoint h p s Vlm VLM_POLICY_ID) as [e|]; [|done].
  destruct (vlm_endpoint_local_only_blocker e) eqn:Hb; [done|]. destruct (negb (eq_ignore_ascii_case _ _)); [done|].
  destruct (openai_compatible_config_from_endpoint e) as [config|] eqn:Hc; [|done].
  destruct (_ || _); [done|]. destruct (negb (valid_round frames)); [done|]. destruct (new_vision_client config); [|done].
  destruct (acquire_endpoint_ai_lease _ _ _); [done|]. destruct (verify_frames config frames) as [[responses|] requests] eqn:Hv; [|done].
  intros _. exists e, config, responses. apply verify_frames_spec in Hv. done.
Qed.

(** What the vision model answers on a frame, in a round. *)
Definition frame_answer (v : Evaluation) (round : nat) (path : string) (index : Z) (reason : string) : Prop :=
  exists e config url x, resolve_endpoint (ev_host v) (ev_probe v round) (ev_state v round) Vlm VLM_POLICY_ID = Some e
    /\ vlm_endpoint_local_only_blocker e = None /\ openai_compatible_config_from_endpoint e = Some config
    /\ build_image_data_url path = Ok url /\ verify_cat_frame index config url = Ok x /\ fr_reason_code x = reason.

Definition target_answer (v : Evaluation) (work_dir : string) (round : nat) (reason : string) (t : CatRecordingSampleTarget) : Prop :=
  frame_answer v round (frame_path work_dir t) (tg_frame_index t) reason.

Lemma extracted video_path work_dir targets profile frames :
  build_cat_recording_sample_frames video_path work_dir targets profile = Ok frames ->
  frames = (fun t => (tg_frame_index t, frame_path work_dir t)) <$> targets /\ targets <> [].
Proof.
  unfold build_cat_recording_sample_frames. destruct targets as [|t targets]; [done|]. destruct (_ || _); [done|].
  intros He. split; [|done]. revert frames He. generalize (t :: targets). clear. intros l.
  induction l as [|t l IH]; intros frames; cbn [extract_frames]; [by intros [= <-]|].
  intros (u & _ & He)%result_bind_ok. apply result_bind_ok in He as (rest & Hr & He). injection He as <-. cbn. by rewrite (IH rest Hr).
Qed.

Lemma round_spec v round video_path work_dir targets x :
  vlm_round v round video_path work_dir targets = Ok x ->
  targets <> []
  /\ (forall n, n ∈ vx_cat_frame_indices x -> exists t, t ∈ targets /\ tg_frame_index t = n /\ target_answer v work_dir round "cat_visible" t)
  /\ (vx_cat_frame_indices x = [] -> vx_reason_code x <> "uncertain" -> Forall (target_answer v work_dir round "no_cat_visible") targets).
Proof.
  unfold vlm_round. intros (frames & Hf & Hx)%result_bind_ok. apply extracted in Hf as [-> Hne]. split; [done|]. revert Hx.
  set (run := run_cat_recording_validation_with_state _ _ _ _ _). destruct (vx_available run.1) eqn:Hav; [|done]. cbn [negb]. intros [= <-].
  apply run_available in Hav as (e & config & responses & He & Hb & Hc & Hv & E). fold run in E. rewrite E.
  destruct (aggregate_fields e responses) as (_ & Hind & _). rewrite Hind.
  rewrite Forall2_fmap_l in Hv. assert (forall i t y, targets !! i = Some t -> responses !! i = Some y ->
    y.1 = tg_frame_index t /\ frame_answer v round (frame_path work_dir t) (tg_frame_index t) (fr_reason_code y.2)
    /\ fr_cat_present y.2 = (fr_reason_code y.2 =? "cat_visible")) as Hall.
  { intros i t y Ht Hy. destruct (Forall2_lookup_lr _ _ _ _ _ _ Hv Ht Hy) as (Ey & url & Hu & Hver). cbn in Ey, Hu, Hver.
    split; [done|]. split; [by exists e, config, url, y.2|]. by eapply verified_present. }
  split.
  - intros n Hn. apply cat_frames_spec in Hn as (y & [i Hi]%list_elem_of_lookup & Hp). destruct (Forall2_lookup_r _ _ _ _ _ Hv Hi) as (t & Ht & _).
    destruct (Hall i t _ Ht Hi) as (Ey & Ha & Hpres). cbn in *. exists t. split; [by eapply list_elem_of_lookup_2|]. split; [done|].
    rewrite Hp in Hpres. symmetry in Hpres. apply String.eqb_eq in Hpres. unfold target_answer. by rewrite <- Hpres.
  - intros Hi Hr. pose proof (aggregate_negative e responses Hi Hr) as Hneg. apply Forall_lookup. intros i t Ht.
    destruct (Forall2_lookup_l _ _ _ _ _ Hv Ht) as (y & Hy & _). destruct (Hall i t y Ht Hy) as (_ & Ha & _).
    eapply Forall_lookup_1 in Hneg as Ey; [|exact Hy]. unfold target_answer. by rewrite <- Ey.
Qed.
(** ** The rounds together *)

Lemma merged_frames executions n :
  n ∈ vx_cat_frame_indices (merge_cat_recording_vlm_executions executions) <-> exists x, x ∈ executions /\ n ∈ vx_cat_frame_indices x.
Proof.
  cbn. rewrite elem_of_sorted_set, list_elem_of_In, in_concat. split.
  - intros (l & Hl%list_elem_of_In & Hn%list_elem_of_In). apply list_elem_of_fmap in Hl as (x & -> & Hx). by exists x.
  - intros (x & Hx & Hn). exists (vx_cat_frame_indices x). split; apply list_elem_of_In; [by apply list_elem_of_fmap_2|done].
Qed.

Lemma merged_negative executions :
  vx_cat_present (merge_cat_recording_vlm_executions executions) = false ->
  sanitize_text (vx_reason_code (merge_cat_recording_vlm_executions executions)) = "no_cat_visible" ->
  forall x, x ∈ executions -> vx_cat_frame_indices x = [] /\ vx_reason_code x <> "uncertain".
Proof.
  intros Hp Hr x Hx. pose proof (merged_frames executions) as Hm. revert Hp Hr Hm. cbn.
  destruct (dedup_by id _) as [|n l] eqn:E; [|done]. intros _ Hr Hm. split.
  - destruct (vx_cat_frame_indices x) as [|n l] eqn:Ex; [done|]. exfalso.
    assert (n ∈ @nil Z) as Hn%not_elem_of_nil; [|done]. apply Hm. exists x. split; [done|]. rewrite Ex. left.
  - destruct (list_any (fun x => vx_reason_code x =? "uncertain") executions) eqn:Hany; [exfalso; by vm_compute in Hr|].
    rewrite list_any_false in Hany. intros Hu. specialize (Hany x Hx). by rewrite Hu in Hany.
Qed.

Definition initial_targets (r : CatRecordingValidationRecord) (d : Z) : list CatRecordingSampleTarget :=
  (select_initial_cat_recording_vlm_sample_targets r d).2.
Definition further_targets (r : CatRecordingValidationRecord) (d : Z) (positive_frame_indices : list Z) : list CatRecordingSampleTarget :=
  select_followup_cat_recording_sample_targets r d (initial_targets r d)
    (cat_recording_positive_offsets (initial_targets r d) positive_frame_indices).

Lemma rounds_spec v r video_path work_dir d rounds :
  vr_detection_evidence r <> [] -> vlm_rounds v r video_path work_dir d (initial_targets r d) = Ok rounds ->
  initial_targets r d <> []
  /\ (forall n x, x ∈ rounds.2 -> n ∈ vx_cat_frame_indices x ->
        exists round positive t, t ∈ (if (round =? 0)%nat then initial_targets r d else further_targets r d positive)
          /\ tg_frame_index t = n /\ target_answer v work_dir round "cat_visible" t)
  /\ ((forall x, x ∈ rounds.2 -> vx_cat_frame_indices x = [] /\ vx_reason_code x <> "uncertain") ->
        Forall (target_answer v work_dir 0 "no_cat_visible") (initial_targets r d)
        /\ Forall (target_answer v work_dir 1 "no_cat_visible") (further_targets r d [])).
Proof.
  intros Hev. unfold vlm_rounds. intros (x & Hx & Hrest)%result_bind_ok. destruct (round_spec _ _ _ _ _ _ Hx) as (Hne & Hpos & Hneg).
  split; [done|]. assert (forall n, n ∈ vx_cat_frame_indices x -> exists round positive t,
     t ∈ (if (round =? 0)%nat then initial_targets r d else further_targets r d positive)
     /\ tg_frame_index t = n /\ target_answer v work_dir round "cat_visible" t) as Hfirst.
  { intros n Hn. destruct (Hpos n Hn) as (t & Ht & Hi & Ha). by exists 0, [], t. }
  destruct (should_run_cat_recording_followup x r) eqn:Hs.
  - fold (further_targets r d (vx_cat_frame_indices x)) in Hrest. destruct (length (further_targets _ _ _) =? 0)%nat eqn:Hl.
    + injection Hrest as <-. cbn [snd]. split; [intros n y ->%list_elem_of_singleton; apply Hfirst|].
      intros Hall. destruct (Hall x) as [Hi Hu]; [left|]. split; [by apply Hneg|]. rewrite Hi in Hl.
      by destruct (further_targets r d []).
    + apply result_bind_ok in Hrest as (y & Hy & Hrest). injection Hrest as <-. cbn [snd].
      destruct (round_spec _ _ _ _ _ _ Hy) as (_ & Hpos' & Hneg'). split.
      * intros n z [->| ->%list_elem_of_singleton]%elem_of_cons; [by apply Hfirst|]. intros Hn. destruct (Hpos' n Hn) as (t & Ht & Hi & Ha).
        by exists 1, (vx_cat_frame_indices x), t.
      * intros Hall. destruct (Hall x) as [Hi Hu]; [left|]. destruct (Hall y) as [Hi' Hu']; [right; left|].
        split; [by apply Hneg|]. rewrite Hi in Hneg'. by apply Hneg'.
  - injection Hrest as <-. cbn [snd]. split; [intros n y ->%list_elem_of_singleton; apply Hfirst|].
    intros Hall. destruct (Hall x) as [Hi Hu]; [left|]. exfalso. revert Hs. unfold should_run_cat_recording_followup. rewrite Hi.
    destruct (vr_detection_evidence r); [done|]. cbn. by rewrite orb_true_r.
Qed.

(** ** The gate *)

(** The recording is long enough, and the detector saw a cat in it. *)
Definition worth_showing (r : CatRecordingValidationRecord) (ms : Z) : Prop :=
  (5000 <= ms)%Z /\ exists e, e ∈ vr_detection_evidence r
    /\ (vr_started_at_epoch_ms r <= ce_frame_epoch_ms e <= u128_saturating_add (vr_started_at_epoch_ms r) ms)%Z.

Lemma gate_passed r ms : cat_recording_hard_gate_reason r ms = None -> worth_showing r ms.
Proof.
  unfold cat_recording_hard_gate_reason, CAT_RECORDING_MINIMUM_DURATION_MS. destruct (Z.ltb_spec ms 5000); [done|]. cbn zeta.
  destruct (list_any _ _) eqn:Ha; [|done]. intros _. split; [done|]. apply list_any_true in Ha as (e & Hin & He).
  exists e. split; [done|]. bool_facts. lia.
Qed.

Lemma gate_closed r ms status reason :
  cat_recording_hard_gate_reason r ms = Some (status, reason) ->
  status <> Accepted /\ (status = Rejected -> (ms < 5000)%Z /\ reason = "recording_shorter_than_minimum_duration").
Proof.
  unfold cat_recording_hard_gate_reason, CAT_RECORDING_MINIMUM_DURATION_MS. destruct (Z.ltb_spec ms 5000); [by intros [= <- <-]|]. cbn zeta.
  destruct (list_any _ _); [done|]. by intros [= <- <-].
Qed.

(** ** The verdict *)

Definition work_dir_of (v : Evaluation) (r : CatRecordingValidationRecord) : string :=
  ev_temp_root v +:+ "/" +:+ vr_validation_id r +:+ "-" +:+ default "" (vr_claim_token r).

(** The frame with the number shows a cat: the vision model says so, of a frame taken of
    the recording, or the classifier is as sure as its threshold asks. *)
Definition shows_cat (v : Evaluation) (r : CatRecordingValidationRecord) (d : Z) (n : Z) : Prop :=
  (exists round positive t, t ∈ (if (round =? 0)%nat then initial_targets r d else further_targets r d positive)
     /\ tg_frame_index t = n /\ target_answer v (work_dir_of v r) round "cat_visible" t)
  \/ (exists frames config output p, (run_cat_recording_classifier frames config).1 = Ok output
        /\ frames = (fun t => (tg_frame_index t, frame_path (work_dir_of v r) t)) <$> (select_cat_recording_classifier_sample_targets r d).2
        /\ p ∈ co_predictions output /\ fp_frame_index p = n /\ (cc_threshold_ppm config <= fp_cat_probability_ppm p)%Z).

(** No frame that was taken shows a cat. *)
Definition shows_no_cat (v : Evaluation) (r : CatRecordingValidationRecord) (d : Z) : Prop :=
  (initial_targets r d <> []
   /\ Forall (target_answer v (work_dir_of v r) 0 "no_cat_visible") (initial_targets r d)
   /\ Forall (target_answer v (work_dir_of v r) 1 "no_cat_visible") (further_targets r d []))
  \/ (exists frames config output, (run_cat_recording_classifier frames config).1 = Ok output
        /\ frames = (fun t => (tg_frame_index t, frame_path (work_dir_of v r) t)) <$> (select_cat_recording_classifier_sample_targets r d).2
        /\ Forall (fun p => fp_cat_probability_ppm p < cc_threshold_ppm config)%Z (co_predictions output)).

Definition decided_by (v : Evaluation) (r : CatRecordingValidationRecord) (d : Z) (decision : CatRecordingValidationDecision) : Prop :=
  (forall n, n ∈ dc_cat_frame_indices decision -> shows_cat v r d n)
  /\ (dc_cat_present decision = false -> dc_reason_code decision = "no_cat_visible" -> shows_no_cat v r d).

Lemma seen_decides v r video_path duration decision :
  vr_detection_evidence r <> [] -> seen_by_model v r video_path (work_dir_of v r) duration = Ok decision ->
  decided_by v r (cat_recording_duration_ms duration) decision.
Proof.
  intros Hev. unfold seen_by_model. cbn zeta. set (d := cat_recording_duration_ms duration).
  destruct (select_initial_cat_recording_vlm_sample_targets r d) as [strategy targets] eqn:Ht.
  assert (targets = initial_targets r d) as -> by (unfold initial_targets; by rewrite Ht).
  intros (rounds & Hr & Hd)%result_bind_ok. injection Hd as <-. destruct (rounds_spec _ _ _ _ _ _ Hev Hr) as (Hne & Hpos & Hneg).
  split.
  - intros n Hn%sanitized_frames. cbn [dc_cat_frame_indices] in Hn. apply merged_frames in Hn as (x & Hx & Hn). left. by eapply Hpos.
  - intros Hp Hc. left. split; [done|]. apply Hneg. by apply merged_negative.
Qed.

Lemma classified_decides v r video_path duration decision :
  classified v r video_path (work_dir_of v r) duration = Ok decision ->
  decided_by v r (cat_recording_duration_ms duration) decision.
Proof.
  unfold classified. set (d := cat_recording_duration_ms duration).
  destruct (select_cat_recording_classifier_sample_targets r d) as [strategy targets] eqn:Ht.
  intros (frames & Hf & Hd)%result_bind_ok. apply result_bind_ok in Hd as (config & _ & Hd).
  apply result_bind_ok in Hd as (output & Hout & Hd). apply result_bind_ok in Hd as (a & Ha & Hd). injection Hd as <-.
  apply extracted in Hf as [-> _]. destruct (aggregation_spec _ _ _ _ Ha) as (_ & _ & Hin & _ & Hreason).
  split.
  - intros n Hn%sanitized_frames. cbn [dc_cat_frame_indices] in Hn. apply Hin in Hn as (p & Hp & Hi & Hc). right.
    eexists _, config, output, p. split; [exact Hout|]. by rewrite Ht.
  - intros _ Hc. right. eexists _, config, output. split; [exact Hout|]. split; [by rewrite Ht|].
    apply Forall_forall. intros p Hp. destruct (Z.lt_ge_cases (fp_cat_probability_ppm p) (cc_threshold_ppm config)) as [|Hge]; [done|exfalso].
    assert (fp_frame_index p ∈ ag_cat_frame_indices a) as Hn by (apply Hin; by exists p).
    cbn [sanitize_decision dc_reason_code] in Hc. rewrite Hreason in Hc. destruct (ag_cat_present a); [by vm_compute in Hc|].
    destruct (ag_cat_frame_indices a); [by apply not_elem_of_nil in Hn|by vm_compute in Hc].
Qed.

Lemma classified_sorted v r video_path work_dir duration decision :
  classified v r video_path work_dir duration = Ok decision ->
  exists l, dc_cat_frame_indices decision = dedup_by id (sort_by Z.compare l).
Proof.
  unfold classified. destruct (select_cat_recording_classifier_sample_targets _ _).
  intros (? & _ & Hd)%result_bind_ok. do 3 (apply result_bind_ok in Hd as (? & _ & Hd)). injection Hd as <-. by eexists.
Qed.

Lemma seen_sorted v r video_path work_dir duration decision :
  seen_by_model v r video_path work_dir duration = Ok decision ->
  exists l, dc_cat_frame_indices decision = dedup_by id (sort_by Z.compare l).
Proof.
  unfold seen_by_model. cbn zeta. destruct (select_initial_cat_recording_vlm_sample_targets _ _).
  intros (? & _ & Hd)%result_bind_ok. injection Hd as <-. by eexists.
Qed.

Lemma accepted_frames d : cat_recording_validation_status_for_decision d = Accepted -> (2 <= length (dc_cat_frame_indices d))%nat.
Proof.
  unfold cat_recording_validation_status_for_decision. destruct (_ && (2 <=? _)%nat) eqn:E.
  - intros _. by apply andb_true_iff in E as [_ E%Nat.leb_le].
  - destruct (negb _ && _ && _); intros [=].
Qed.

Lemma rejected_decision d :
  cat_recording_validation_status_for_decision d = Rejected -> dc_cat_present d = false /\ dc_reason_code d = "no_cat_visible".
Proof.
  unfold cat_recording_validation_status_for_decision. destruct (_ && (2 <=? _)%nat); [intros [=]|].
  destruct (negb _ && _ && _) eqn:E; [intros _|intros [=]].
  by apply andb_true_iff in E as [[Hp%negb_true_iff _]%andb_true_iff Hc%String.eqb_eq].
Qed.

(** C16. What is accepted was measured to be five seconds long at least, the detector saw a
    cat within it, and two frames of it at least show one, by the model or the
    classifier; what is rejected is shorter, or was of that length with a detection, and
    none of the frames taken of it, those of the second look included, shows a cat. *)
Theorem verdict_evidence v r status decision error :
  evaluate_cat_recording_candidate v r = Ok (status, decision, error) ->
  (status = Accepted -> exists duration, probe_media_duration_seconds (work_dir_of v r +:+ "/recording.mp4") = Ok duration
     /\ worth_showing r (measured_duration_ms duration)
     /\ exists n n', (n < n')%Z /\ shows_cat v r (cat_recording_duration_ms duration) n
          /\ shows_cat v r (cat_recording_duration_ms duration) n')
  /\ (status = Rejected -> exists duration, probe_media_duration_seconds (work_dir_of v r +:+ "/recording.mp4") = Ok duration
     /\ ((measured_duration_ms duration < 5000)%Z /\ error = Some "recording_shorter_than_minimum_duration"
         \/ worth_showing r (measured_duration_ms duration) /\ shows_no_cat v r (cat_recording_duration_ms duration))).
Proof.
  unfold evaluate_cat_recording_candidate. destruct (_ <? vr_byte_size r)%Z; [by intros [= <- _ _]|].
  intros (token & Htok & He)%result_bind_ok. destruct (vr_claim_token r) as [token'|] eqn:Hr; [|done]. injection Htok as ->.
  assert (ev_temp_root v +:+ "/" +:+ vr_validation_id r +:+ "-" +:+ token = work_dir_of v r) as Hdir by (unfold work_dir_of; by rewrite Hr).
  cbn zeta in He. rewrite Hdir in He. destruct (create_work_dir _); [done|]. apply result_bind_ok in He as (u & _ & He).
  apply result_bind_ok in He as (duration & Hdur & He). destruct (_ || _); [by injection He as <- _ _|].
  destruct (cat_recording_hard_gate_reason r (measured_duration_ms duration)) as [[st reason]|] eqn:Hg.
  { injection He as <- _ <-. destruct (gate_closed _ _ _ _ Hg) as [Ha Hrej]. split; [done|]. intros Hst.
    exists duration. split; [done|]. left. destruct (Hrej Hst) as [? ->]. done. }
  apply gate_passed in Hg. apply result_bind_ok in He as (backend & _ & He). apply result_bind_ok in He as (dec & Hdec & He).
  injection He as <- _ _. assert (decided_by v r (cat_recording_duration_ms duration) dec) as [Hpos Hneg].
  { destruct backend; [by apply classified_decides in Hdec|]. eapply seen_decides; [|exact Hdec]. destruct Hg as (_ & e & Hin & _).
    intros E. rewrite E in Hin. by apply not_elem_of_nil in Hin. }
  assert (exists l, dc_cat_frame_indices dec = dedup_by id (sort_by Z.compare l)) as (l & Hl).
  { destruct backend; [by eapply classified_sorted|by eapply seen_sorted]. }
  split; intros Hst; exists duration; (split; [done|]).
  - split; [done|]. apply accepted_frames in Hst. rewrite Hl in Hst. apply two_of_set in Hst as (n & n' & Hlt & Hn & Hn').
    exists n, n'. split; [done|]. split; apply Hpos; rewrite Hl; by apply elem_of_sorted_set.
  - right. split; [done|]. apply rejected_decision in Hst as [Hp Hc]. by apply Hneg.
Qed.
End verdicts.
