(* ===== verification/CatWorker.v ===== *)
(** The worker that validates recordings and has the rejected ones deleted:
    [run_cat_recording_validation_worker] and what it calls, of
    [src/bin/agent_hub_admin_api.rs]. Its store is the interface [QueueStore], so that
    others may use the queue between its operations; the file of validations is one
    ([CatStoreTheorems.file_queue]). What the provider was asked is kept, with the
    queue at that moment. *)
From stdpp Require Import gmap.
From S2P Require Import Prelude RustString Json TaskStore CatRecords CatQueue CatSampling CatVerdict.
Local Open Scope string_scope.
Local Open Scope list_scope.

(** In milliseconds. *)
Definition CAT_RECORDING_VALIDATION_CLAIM_LEASE_DURATION : Z := 300000.
Definition CAT_RECORDING_DISCARD_CLAIM_LEASE_MS : Z := 120000.
Definition CAT_RECORDING_AI_RESOURCE_RETRY_DELAY : Z := 5000.

(** The world that the worker reads: the clock at a reading, tokens, what becomes of an
    evaluation, what the media service answers to a deletion, and whether the models are
    ready; by how far the worker is. *)
Class WorkerWorld := {
  clock : nat -> Z;
  draw_uuid : nat -> string;
  evaluation : nat -> CatRecordingValidationRecord -> result string Verdict;
  delete_dvr_artifact : nat -> string -> result string jv;
  validation_runtime_ready : nat -> result string bool
}.

Section worker.
Context `{!Sha256} `{!HashOrder} {S : Type} `{!QueueStore S} `{!WorkerWorld}.
Context (mode : CatRecordingValidationMode) (worker_owner : string).

(** What the provider was asked to delete, last first, and the queue then. *)
Record Worker := {
  wk_store : S;
  wk_tick : nat;
  wk_asked : list (string * Latest)
}.

(** One call of the store. *)
Definition perform {A} (q : Request A) (w : Worker) : result string A * Worker :=
  let '(answer, s) := run_request q (wk_store w) in
  (answer, {| wk_store := s; wk_tick := wk_tick w + 3; wk_asked := wk_asked w |}).

(** The clock of a call, and after its update. *)
Definition now (w : Worker) : Z := clock (wk_tick w).
Definition later (w : Worker) : Z := clock (wk_tick w + 1).

Definition ask_deletion (artifact_id : string) (w : Worker) : result string jv * Worker :=
  (delete_dvr_artifact (wk_tick w) artifact_id,
   {| wk_store := wk_store w; wk_tick := wk_tick w + 1; wk_asked := (artifact_id, queue_of (wk_store w)) :: wk_asked w |}).

Definition discard_failed (artifact_id token error : string) (w : Worker) : Worker :=
  (perform (mark_artifact_discard_failed artifact_id token error (now w) (later w)) w).2.

Definition discard_cat_recording_artifact (r : CatRecordingValidationRecord) (w : Worker) : Worker :=
  if negb (is_physical_discard_eligible mode r) then w else
  match perform (claim_artifact_discard (vr_artifact_id r) mode (now w) CAT_RECORDING_DISCARD_CLAIM_LEASE_MS
                   (draw_uuid (wk_tick w))) w with
  | (Ok (Some pending), w) =>
      match vr_discard_attempt_token pending with
      | None => w
      | Some token =>
          match ask_deletion (vr_artifact_id pending) w with
          | (Ok response, w) =>
              let flag key := default false (jv_get response key ≫= jv_bool) in
              match perform (mark_artifact_discarded (vr_artifact_id pending) token (now w) (later w)
                               (clock (wk_tick w + 2)) (flag "deleted") (flag "alreadyAbsent")) w with
              | (Ok _, w) => w
              | (Err error, w) => discard_failed (vr_artifact_id pending) token (sanitize_cat_recording_validation_error error) w
              end
          | (Err error, w) => discard_failed (vr_artifact_id pending) token (sanitize_cat_recording_validation_error error) w
          end
      end
  | (_, w) => w
  end.

Definition retry_pending_cat_recording_discards (w : Worker) : Worker :=
  match perform (pending_discards mode) w with
  | (Ok records, w) => foldl (fun w r => discard_cat_recording_artifact r w) w records
  | (Err _, w) => w
  end.

(** The operation that ends a claim, by what became of the evaluation. *)
Definition end_of_claim (claimed : CatRecordingValidationRecord) (claim_token : string)
    (evaluated : result string Verdict) (now later : Z) (retry_from : Z) : Request CatRecordingValidationRecord :=
  let id := vr_artifact_id claimed in
  match evaluated with
  | Ok (status, decision, error) => complete id claim_token now later status decision error
  | Err error =>
      let diagnostic := sanitize_cat_recording_validation_error error in
      if is_cat_recording_ai_resource_contention error
      then defer_resource_contention id claim_token now later
             (u128_saturating_add retry_from CAT_RECORDING_AI_RESOURCE_RETRY_DELAY) diagnostic
      else match cat_recording_validation_retry_delay (vr_attempt_count claimed) with
           | Some delay => schedule_retry id claim_token now later (u128_saturating_add retry_from (delay * 1000)) diagnostic
           | None => complete id claim_token now later ReviewRequired None (Some diagnostic)
           end
  end.

Definition process_cat_recording_validation (claimed : CatRecordingValidationRecord) (w : Worker) : Worker :=
  match vr_claim_token claimed with
  | None => w
  | Some claim_token =>
      match perform (end_of_claim claimed claim_token (evaluation (wk_tick w) claimed) (clock (wk_tick w + 1))
                       (clock (wk_tick w + 2)) (now w)) w with
      | (Ok r, w) => if is_physical_discard_eligible mode r then discard_cat_recording_artifact r w else w
      | (Err _, w) => w
      end
  end.

(** The body of the loop; it sleeps or goes on. *)
Definition worker_turn (w : Worker) : Worker :=
  let w := retry_pending_cat_recording_discards w in
  match validation_runtime_ready (wk_tick w) with
  | Ok true =>
      match perform (recover_expired_claims (now w)) w with
      | (Err _, w) => w
      | (Ok _, w) =>
          match perform (claim_next_pending worker_owner (draw_uuid (wk_tick w)) (now w)
                           CAT_RECORDING_VALIDATION_CLAIM_LEASE_DURATION) w with
          | (Ok (Some r), w) => process_cat_recording_validation r w
          | (_, w) => w
          end
      end
  | _ => w
  end.

Fixpoint worker_turns (n : nat) (w : Worker) : Worker :=
  match n with O => w | Datatypes.S n => worker_turns n (worker_turn w) end.

Definition run_cat_recording_validation_worker (turns : nat) (w : Worker) : Worker :=
  if negb (validates_candidates mode) then w else
  let w := (perform (recover_expired_claims (now w)) w).2 in
  worker_turns turns (retry_pending_cat_recording_discards w).
End worker.

Arguments Worker S : clear implicits.

(** * What the worker does to the queue *)

Section proofs.
Context {sha : Sha256} {order : HashOrder} {S : Type} {store : QueueStore S} {world : WorkerWorld}.
Context (mode : CatRecordingValidationMode) (worker_owner : string).

Abbreviation queue w := (queue_of (wk_store w)).

Lemma decided_is_records {A} (q : Request A) m records a : decided q m = Ok (records, a) -> decided_records q m = records.
Proof. unfold decided_records. by intros ->. Qed.

Lemma perform_prefix {A} (q : Request A) (w : Worker S) :
  exists others m records, queue_steps others (queue w) m /\ records `prefix_of` decided_records q m
    /\ queue (perform q w).2 = put_records records m.
Proof.
  destruct (run_request_prefix q (wk_store w)) as (others & m & records & Ho & Hp & Hq). exists others, m, records.
  split; [done|]. split; [done|]. unfold perform. destruct (run_request q (wk_store w)) as [a s]. exact Hq.
Qed.

Lemma perform_steps {A} (q : Request A) op (w : Worker S) :
  (forall m, op_records op m = decided_records q m) -> exists ops, queue_steps ops (queue w) (queue (perform q w).2).
Proof.
  intros Hop. destruct (perform_prefix q w) as (others & m & records & Ho & Hp & ->). exists (others ++ [(op, false)]).
  eapply steps_app; [done|]. eapply steps_cons; [|constructor]. constructor; [|done]. by rewrite Hop.
Qed.

Lemma perform_reads {A} (q : Request A) (w : Worker S) :
  (forall m, decided_records q m = []) -> exists ops, queue_steps ops (queue w) (queue (perform q w).2).
Proof.
  intros Hd. destruct (perform_prefix q w) as (others & m & records & Ho & Hp & ->). rewrite Hd in Hp.
  apply prefix_nil_inv in Hp as ->. by exists others.
Qed.

Lemma perform_ok {A} (q : Request A) (w w' : Worker S) a :
  perform q w = (Ok a, w') ->
  exists others m records, queue_steps others (queue w) m /\ decided q m = Ok (records, a) /\ queue w' = put_records records m.
Proof.
  unfold perform. destruct (run_request q (wk_store w)) as [answer s] eqn:Hr. intros [= -> <-]. by apply run_request_ok in Hr.
Qed.

Lemma perform_asked {A} (q : Request A) (w : Worker S) : wk_asked (perform q w).2 = wk_asked w.
Proof. unfold perform. by destruct (run_request _ _). Qed.

(** How often the provider was asked to delete a recording, and how many attempts are
    recorded. *)
Definition times_asked (id : string) (w : Worker S) : nat := count_if (fun x => x.1 =? id) (wk_asked w).
Definition attempts (m : Latest) (id : string) : Z := default 0%Z (vr_discard_attempt_count <$> m !! id).

(** What the provider is asked to delete is rejected, and its deletion recorded as
    under way. *)
Definition deletion_recorded (x : string * Latest) : Prop :=
  exists r, x.2 !! x.1 = Some r /\ discardable r /\ vr_artifact_disposition r = DiscardPending /\ mode = ModeEnforce.

(** From one worker to another. *)
Record safe (w : Worker S) : Prop := {
  sf_well : well (queue w);
  sf_asked : Forall deletion_recorded (wk_asked w);
  sf_bound id : (Z.of_nat (times_asked id w) <= attempts (queue w) id)%Z
}.

Definition goes (w w' : Worker S) : Prop := safe w' /\ exists ops, queue_steps ops (queue w) (queue w').

Lemma goes_refl (w : Worker S) : safe w -> goes w w.
Proof. intros Hs. split; [done|]. exists []. constructor. Qed.

Lemma goes_trans (w1 w2 w3 : Worker S) : goes w1 w2 -> (safe w2 -> goes w2 w3) -> goes w1 w3.
Proof.
  intros [H2 (ops & H12)] Hn. destruct (Hn H2) as [H3 (ops' & H23)]. split; [done|]. exists (ops ++ ops').
  by eapply steps_app.
Qed.

Lemma changes_attempts op r r' :
  changes op (Some r) r' -> sound r -> (vr_discard_attempt_count r <= vr_discard_attempt_count r')%Z.
Proof.
  intros Hc [_ _ Ha _]. remember (Some r) as old eqn:Ho. destruct Hc; simplify_eq; cbn; try lia.
  unfold u32_saturating_add, u32_max, MAX_ARTIFACT_DISCARD_ATTEMPTS in *. lia.
Qed.

Lemma step_attempts op m m' id : well m -> queue_step op m m' -> (attempts m id <= attempts m' id)%Z.
Proof.
  intros Hw Hs. pose proof (step_well op m m' Hs Hw) as [_ Hw']. destruct Hw as [Hk Hm]. unfold attempts.
  destruct (step_lookup op m m' id Hk Hs) as [->|(r' & E & Hc & _)]; [done|]. rewrite E. cbn.
  destruct (m !! id) as [r|] eqn:Hr; cbn.
  - apply (changes_attempts op.1); [done|]. by apply (Hm id).
  - destruct (Hw' id r' E) as [_ _ Ha _]. lia.
Qed.

Lemma steps_attempts ops m m' id : well m -> queue_steps ops m m' -> (attempts m id <= attempts m' id)%Z.
Proof.
  intros Hw Hs. induction Hs as [|op ops m m1 m' Hs _ IH]; [done|].
  pose proof (step_attempts op m m1 id Hw Hs). pose proof (IH (step_well op m m1 Hs Hw)). lia.
Qed.

Lemma steps_goes ops (w w' : Worker S) :
  safe w -> wk_asked w' = wk_asked w -> queue_steps ops (queue w) (queue w') -> goes w w'.
Proof.
  intros [Hw Ha Hb] Hasked Hs. split; [split|by exists ops].
  - by eapply steps_well.
  - by rewrite Hasked.
  - intros id. unfold times_asked in *. rewrite Hasked. specialize (Hb id). pose proof (steps_attempts ops _ _ id Hw Hs). lia.
Qed.

Lemma perform_goes {A} (q : Request A) op (w : Worker S) :
  safe w -> (forall m, op_records op m = decided_records q m) -> goes w (perform q w).2.
Proof. intros Hs Ho. destruct (perform_steps q op w Ho) as (ops & Hops). eapply steps_goes; [done|apply perform_asked|exact Hops]. Qed.

Lemma reads_goes {A} (q : Request A) (w : Worker S) : safe w -> (forall m, decided_records q m = []) -> goes w (perform q w).2.
Proof. intros Hs Hd. destruct (perform_reads q w Hd) as (ops & Hops). eapply steps_goes; [done|apply perform_asked|exact Hops]. Qed.

(** What a claim of a deletion records. *)
Lemma claimed_deletion id now lease uuid m records pending :
  keyed m -> decided (claim_artifact_discard id mode now lease uuid) m = Ok (records, Some pending) ->
  exists r, m !! id = Some r /\ is_physical_discard_eligible mode r = true /\ records = [pending]
    /\ pending = claim_discard_record now lease uuid r /\ vr_artifact_id r = id
    /\ (vr_discard_attempt_count r < MAX_ARTIFACT_DISCARD_ATTEMPTS)%Z.
Proof.
  intros Hk. unfold decided, claim_artifact_discard. destruct (lease =? 0)%Z; cbn; [done|]. unfold record_of.
  destruct (m !! id) as [r|] eqn:Hr; cbn; [|done]. destruct (is_physical_discard_eligible mode r) eqn:He; cbn [negb]; [|done].
  destruct (discard_claimed now r); [done|]. destruct (Z.leb_spec MAX_ARTIFACT_DISCARD_ATTEMPTS (vr_discard_attempt_count r)); [done|].
  intros Hd. exists r. injection Hd as <- <-. by rewrite (Hk id r Hr).
Qed.

Lemma discard_failed_goes id token error (w : Worker S) : safe w -> goes w (discard_failed id token error w).
Proof. intros Hs. by apply (perform_goes _ (OpDiscardFailed id token error (now w) (later w))). Qed.

Lemma asks_goes (w w' : Worker S) id lease uuid t pending :
  safe w -> perform (claim_artifact_discard id mode t lease uuid) w = (Ok (Some pending), w') ->
  goes w (ask_deletion (vr_artifact_id pending) w').2.
Proof.
  intros Hs Hp. pose proof (perform_goes _ (OpClaimDiscard id mode t lease uuid) w Hs (fun m => eq_refl)) as Hg.
  rewrite Hp in Hg. cbn [snd] in Hg. destruct Hg as [[Hw' Ha' Hb'] Hops].
  assert (wk_asked w' = wk_asked w) as Hasked.
  { pose proof (perform_asked (claim_artifact_discard id mode t lease uuid) w) as E. by rewrite Hp in E. }
  destruct Hs as [Hw Ha Hb]. destruct (perform_ok _ _ _ _ Hp) as (others & m & records & Hoth & Hd & Hq).
  pose proof (steps_attempts others _ _ id Hw Hoth) as Hle.
  destruct (claimed_deletion id t lease uuid _ _ _ (proj1 (steps_well _ _ _ Hoth Hw)) Hd) as (r & Hr & He & -> & Hpend & Hid & Hlt).
  assert (vr_artifact_id pending = id) as Hpid by by rewrite Hpend.
  assert (queue w' !! id = Some pending) as Hl by (rewrite Hq; cbn; unfold put_record; rewrite Hpid; apply lookup_insert_eq).
  split; [split|exact Hops]; cbn [ask_deletion snd wk_asked wk_store]; [done| |].
  - constructor; [|by rewrite Hasked]. rewrite Hpid. exists pending. cbn. split; [done|].
    destruct (eligible_discardable mode r He) as [Hdis _]. rewrite Hpend. split; [done|]. split; [done|].
    unfold is_physical_discard_eligible in He. by bool_facts.
  - intros k. unfold times_asked. cbn [wk_asked]. rewrite Hpid, Hasked. rewrite count_if_cons. specialize (Hb k). specialize (Hb' k).
    unfold times_asked in *. cbn [fst]. destruct (String.eqb_spec id k) as [<-|Hne].
    + unfold attempts in *. rewrite Hl, Hr in *. cbn in Hb, Hb', Hle |- *. rewrite Hpend. cbn.
      unfold u32_saturating_add, u32_max, MAX_ARTIFACT_DISCARD_ATTEMPTS in *. lia.
    + rewrite Hasked in Hb'. lia.
Qed.

Lemma discard_goes r (w : Worker S) : safe w -> goes w (discard_cat_recording_artifact mode r w).
Proof.
  intros Hs. unfold discard_cat_recording_artifact. destruct (negb _); [by apply goes_refl|].
  set (q := claim_artifact_discard _ _ _ _ _).
  pose proof (perform_goes q (OpClaimDiscard (vr_artifact_id r) mode (now w) CAT_RECORDING_DISCARD_CLAIM_LEASE_MS (draw_uuid (wk_tick w))) w Hs (fun m => eq_refl)) as Hg.
  destruct (perform q w) as [[[pending|]|e] w1] eqn:Hp; [|exact Hg|exact Hg].
  destruct (vr_discard_attempt_token pending) as [token|]; [|exact Hg].
  pose proof (asks_goes w w1 _ _ _ _ pending Hs Hp) as Hask.
  destruct (ask_deletion (vr_artifact_id pending) w1) as [[response|error] w2] eqn:E2; cbn [snd] in Hask.
  - eapply goes_trans; [exact Hask|]. intros H2. set (q2 := mark_artifact_discarded _ _ _ _ _ _ _).
    pose proof (perform_goes q2 (OpDiscarded (vr_artifact_id pending) token (now w2) (later w2) (clock (wk_tick w2 + 2))
       (default false (jv_get response "deleted" ≫= jv_bool)) (default false (jv_get response "alreadyAbsent" ≫= jv_bool))) w2 H2 (fun m => eq_refl)) as Hg2.
    destruct (perform q2 w2) as [[x|e] w3]; [exact Hg2|]. eapply goes_trans; [exact Hg2|]. intros H3. by apply discard_failed_goes.
  - eapply goes_trans; [exact Hask|]. intros H2. by apply discard_failed_goes.
Qed.

Lemma retry_goes (w : Worker S) : safe w -> goes w (retry_pending_cat_recording_discards mode w).
Proof.
  intros Hs. unfold retry_pending_cat_recording_discards.
  pose proof (reads_goes (pending_discards mode) w Hs (fun m => eq_refl)) as Hg.
  destruct (perform (pending_discards mode) w) as [[records|e] w1]; [|exact Hg]. eapply goes_trans; [exact Hg|]. clear.
  revert w1. induction records as [|r records IH]; intros w1 H1; [by apply goes_refl|]. cbn.
  eapply goes_trans; [by apply discard_goes|]. apply IH.
Qed.

Lemma end_of_claim_op r token ev t l from :
  exists op, forall m, op_records op m = decided_records (end_of_claim r token ev t l from) m.
Proof.
  unfold end_of_claim. destruct ev as [[[status decision] error]|error].
  - by exists (OpComplete (vr_artifact_id r) token t l status decision error).
  - destruct (is_cat_recording_ai_resource_contention error).
    + by eexists (OpDefer (vr_artifact_id r) token t l _ _).
    + destruct (cat_recording_validation_retry_delay _).
      * by eexists (OpRetry (vr_artifact_id r) token t l _ _).
      * by eexists (OpComplete (vr_artifact_id r) token t l ReviewRequired None (Some _)).
Qed.

Lemma process_goes r (w : Worker S) : safe w -> goes w (process_cat_recording_validation mode r w).
Proof.
  intros Hs. unfold process_cat_recording_validation. destruct (vr_claim_token r) as [token|]; [|by apply goes_refl].
  set (q := end_of_claim _ _ _ _ _ _). destruct (end_of_claim_op r token (evaluation (wk_tick w) r) (clock (wk_tick w + 1)) (clock (wk_tick w + 2)) (now w)) as (op & Hop).
  pose proof (perform_goes q op w Hs Hop) as Hg. destruct (perform q w) as [[r'|e] w1]; [|exact Hg].
  destruct (is_physical_discard_eligible mode r'); [|exact Hg]. eapply goes_trans; [exact Hg|]. apply discard_goes.
Qed.

Lemma turn_goes (w : Worker S) : safe w -> goes w (worker_turn mode worker_owner w).
Proof.
  intros Hs. unfold worker_turn. eapply goes_trans; [by apply retry_goes|]. intros H1.
  set (w1 := retry_pending_cat_recording_discards mode w) in *.
  destruct (validation_runtime_ready (wk_tick w1)) as [[]|]; [|by apply goes_refl|by apply goes_refl].
  pose proof (perform_goes (recover_expired_claims (now w1)) (OpRecover (now w1)) w1 H1 (fun m => eq_refl)) as Hg.
  destruct (perform (recover_expired_claims (now w1)) w1) as [[n|e] w2]; [|exact Hg]. eapply goes_trans; [exact Hg|]. intros H2.
  set (q := claim_next_pending _ _ _ _).
  pose proof (perform_goes q (OpClaim worker_owner (draw_uuid (wk_tick w2)) (now w2) CAT_RECORDING_VALIDATION_CLAIM_LEASE_DURATION) w2 H2 (fun m => eq_refl)) as Hc.
  destruct (perform q w2) as [[[r|]|e] w3]; [|exact Hc|exact Hc]. eapply goes_trans; [exact Hc|]. apply process_goes.
Qed.

Lemma turns_goes n (w : Worker S) : safe w -> goes w (worker_turns mode worker_owner n w).
Proof.
  revert w. induction n as [|n IH]; intros w Hs; [by apply goes_refl|]. cbn. eapply goes_trans; [by apply turn_goes|]. apply IH.
Qed.

Lemma worker_goes n (w : Worker S) : safe w -> goes w (run_cat_recording_validation_worker mode worker_owner n w).
Proof.
  intros Hs. unfold run_cat_recording_validation_worker. destruct (negb _); [by apply goes_refl|].
  eapply goes_trans; [by apply (perform_goes (recover_expired_claims (now w)) (OpRecover (now w)))|]. intros H1. eapply goes_trans; [by apply retry_goes|]. apply turns_goes.
Qed.

(** C5. The worker, however many turns it makes, whatever fails and whatever others do
    to the queue meanwhile, changes it only by its operations; it asks the provider to delete only a recording
    that is rejected, of the camera for cats, and whose deletion the queue holds as
    under way, when validation is enforced; and it asks at most three times for one. *)
Theorem worker_deletes_rejected ops n (w : Worker S) :
  queue_steps ops ∅ (queue w) -> wk_asked w = [] ->
  let w' := run_cat_recording_validation_worker mode worker_owner n w in
  (exists ops', queue_steps ops' (queue w) (queue w'))
  /\ (forall id m, (id, m) ∈ wk_asked w' -> exists r, m !! id = Some r /\ discardable r
        /\ vr_artifact_disposition r = DiscardPending /\ mode = ModeEnforce)
  /\ forall id, times_asked id w' <= 3.
Proof.
  intros Hq Ha. cbn zeta. pose proof (steps_well ops ∅ _ Hq well_empty) as Hw.
  assert (safe w) as Hs.
  { split; [done| |]; unfold times_asked; rewrite Ha; [done|]. intros id. cbn. unfold attempts.
    destruct (queue w !! id) as [r|] eqn:Hr; cbn; [|done]. by destruct (proj2 Hw id r Hr) as [_ _ [? _] _]. }
  destruct (worker_goes n w Hs) as [[Hw' Ha' Hb'] Hops]. split; [done|]. split.
  - intros id m Hin. exact (proj1 (Forall_forall _ _) Ha' (id, m) Hin).
  - intros id. specialize (Hb' id). unfold attempts in Hb'. destruct (queue _ !! id) as [r|] eqn:Hr; cbn in Hb'; [|lia].
    destruct (proj2 Hw' id r Hr) as [_ _ [_ Hm] _]. unfold MAX_ARTIFACT_DISCARD_ATTEMPTS in Hm. lia.
Qed.

Lemma decided_update written id update m r u :
  m !! id = Some r -> update r = Ok u ->
  decided (update_record_checked written id update) m = Ok ([set_updated_at written u], set_updated_at written u).
Proof. intros Hm Hu. unfold decided, update_record_checked, record_of. cbn. rewrite Hm. cbn. by rewrite Hu. Qed.

(** What becomes of a claim that is still valid. An evaluation's verdict is kept,
    and the recording shown only if it is accepted. An evaluation that failed
    decides nothing: the recording is looked at again after five seconds when the
    accelerator was taken, without counting the attempt, and otherwise after ten
    seconds, half a minute and two minutes; the fourth attempt's failure leaves it to
    review. *)
Theorem failed_evaluations_retried m r token ev t l from :
  m !! vr_artifact_id r = Some r -> validate_processing_claim r token t = Ok tt ->
  exists r', decided (end_of_claim r token ev t l from) m = Ok ([r'], r') /\ vr_artifact_id r' = vr_artifact_id r
    /\ vr_claim_token r' = None
    /\ (is_published r' = true <-> exists decision error, ev = Ok (Accepted, decision, error))
    /\ match ev with
       | Ok (status, decision, error) => vr_validation_status r' = status /\ vr_decision r' = decision
       | Err error =>
           vr_decision r' = None /\ vr_last_error r' = Some (sanitize_text (sanitize_cat_recording_validation_error error))
           /\ (if is_cat_recording_ai_resource_contention error
               then vr_validation_status r' = PendingValidation /\ vr_attempt_count r' = Z.max 0 (vr_attempt_count r - 1)
                    /\ vr_next_retry_at_epoch_ms r' = Some (u128_saturating_add from 5000)
               else vr_attempt_count r' = vr_attempt_count r
                    /\ if (vr_attempt_count r <? 4)%Z
                       then vr_validation_status r' = PendingValidation
                            /\ vr_next_retry_at_epoch_ms r'
                               = Some (u128_saturating_add from
                                         (if (vr_attempt_count r <=? 1)%Z then 10000
                                          else if (vr_attempt_count r =? 2)%Z then 30000 else 120000))
                       else vr_validation_status r' = ReviewRequired /\ vr_next_retry_at_epoch_ms r' = None)
       end.
Proof.
  intros Hm Hv. unfold end_of_claim. destruct ev as [[[status decision] error]|error].
  - eexists. split; [unfold complete; eapply decided_update; [exact Hm|]; by rewrite Hv|].
    split; [done|]. split; [done|]. split; [|done]. unfold is_published. cbn.
    destruct status; cbn; split; try done; try (by intros (? & ? & [=])). intros _. by eexists _, _.
  - assert (forall d l', cat_recording_validation_retry_delay (vr_attempt_count r) = d ->
      (vr_attempt_count r <? 4)%Z = is_some d
      /\ (is_some d = true -> d = Some l' -> (l' * 1000)%Z = if (vr_attempt_count r <=? 1)%Z then 10000%Z else if (vr_attempt_count r =? 2)%Z then 30000%Z else 120000%Z)) as Hdelay.
    { intros d l' <-. unfold cat_recording_validation_retry_delay, CAT_RECORDING_VALIDATION_MAX_ATTEMPTS, saturating_sub.
      destruct (Z.leb_spec 4 (vr_attempt_count r)); [split; [by apply Z.ltb_ge|done]|].
      assert (Z.max 0 (vr_attempt_count r - 1) = 0 \/ Z.max 0 (vr_attempt_count r - 1) = 1 \/ Z.max 0 (vr_attempt_count r - 1) = 2)%Z as [E|[E|E]] by lia;
        rewrite E; cbn; (split; [by apply Z.ltb_lt|]); intros _ [= <-]; repeat case_match; lia. }
    destruct (is_cat_recording_ai_resource_contention error).
    + eexists. split; [unfold defer_resource_contention; eapply decided_update; [exact Hm|]; by rewrite Hv|].
      split; [done|]. split; [done|]. split; [|done]. unfold is_published. cbn. split; [done|]. by intros (? & ? & [=]).
    + destruct (cat_recording_validation_retry_delay (vr_attempt_count r)) as [d|] eqn:E.
      * destruct (Hdelay (Some d) d eq_refl) as [-> Hd]. cbn [is_some].
        eexists. split; [unfold schedule_retry; eapply decided_update; [exact Hm|]; by rewrite Hv|].
        split; [done|]. split; [done|]. split; [unfold is_published; cbn; split; [done|by intros (? & ? & [=])]|].
        rewrite <- (Hd eq_refl eq_refl). done.
      * destruct (Hdelay None 0%Z eq_refl) as [-> _]. cbn [is_some].
        eexists. split; [unfold complete; eapply decided_update; [exact Hm|]; by rewrite Hv|].
        split; [done|]. split; [done|]. split; [unfold is_published; cbn; split; [done|by intros (? & ? & [=])]|]. done.
Qed.
End proofs.
