(* ===== verification/CatCapture.v ===== *)
(** The recordings that the detection of a cat starts and stops: the worker
    [cat-auto-recording] of [src/bin/agent_hub_admin_api.rs] and what it calls. It polls
    the latest result of each detection, asks HarborLink to record, keeps what is in
    progress in memory and in the ledger, and hands what was recorded to the queue of
    validations. The ledger and the queue are interfaces ([LedgerStore],
    [QueueStore]), and so is what HarborLink answers. The mutex of the memory is held
    by this worker alone and not poisoned. The detections are given with each turn. *)
From stdpp Require Import gmap.
From S2P Require Import Prelude TaskStore RustString Json ModelRuns CatRecords CatQueue CatSampling CatVerdict CatLedger.
Local Open Scope string_scope.
Local Open Scope list_scope.

Definition CAT_AUTO_RECORD_LEASE_TTL_SECONDS : Z := 30.
Definition CAT_AUTO_RECORD_PRE_ROLL_SECONDS : Z := 3.
Definition CAT_AUTO_RECORD_RENEW_INTERVAL_SECONDS : Z := 10.
Definition CAT_RECORDING_PENDING_START_TIMEOUT_MS : Z := 30000.
Definition CAT_AUTO_RECORD_MAX_RESULT_AGE_MS : Z := 5000.
Definition CAT_AUTO_RECORD_MAX_DETECTION_EVIDENCE : nat := 256.
Definition DEFAULT_CAT_AUTO_RECORD_START_CONSECUTIVE_FRAMES : Z := 5.
Definition DEFAULT_CAT_AUTO_RECORD_START_DURATION_MS : Z := 500.
Definition DEFAULT_CAT_AUTO_RECORD_STOP_CONSECUTIVE_FRAMES : Z := 15.
Definition DEFAULT_CAT_AUTO_RECORD_STOP_DURATION_MS : Z := 3000.

(** * Settings *)

Record CatAutoRecordingConfig := {
  cc_start_consecutive_frames : Z;
  cc_start_duration_ms : Z;
  cc_stop_consecutive_frames : Z;
  cc_stop_duration_ms : Z
}.

Definition bounded_u64_value (name : string) (raw : option string) (default_value min max : Z) : result string Z :=
  (value <-? match raw with
             | Some raw => ok_or (name +:+ " must be an integer between " +:+ show_Z min +:+ " and " +:+ show_Z max)
                             (parse_uint u64_max (trim raw))
             | None => Ok default_value
             end;
   if negb ((min <=? value) && (value <=? max))%Z
   then Err (name +:+ " must be between " +:+ show_Z min +:+ " and " +:+ show_Z max)
   else Ok value)%rust.

(** [env::var] *)
Inductive EnvVar := NotPresent | NotUnicode | Present (value : string).

Section settings.
Context (env_var : string -> EnvVar).

Definition bounded_u64_env (name : string) (default_value min max : Z) : result string Z :=
  match env_var name with
  | Present value => bounded_u64_value name (Some value) default_value min max
  | NotPresent => bounded_u64_value name None default_value min max
  | NotUnicode => Err (name +:+ " must be valid Unicode")
  end.

Definition cat_auto_recording_enabled : bool :=
  match env_var "HARBOR_K3_CAT_AUTO_RECORD_ENABLED" with
  | Present value => RustString.str_in (to_ascii_lowercase (trim value)) ["1"; "true"; "yes"; "on"]
  | _ => false
  end.

Definition cat_auto_recording_config_from_env : result string CatAutoRecordingConfig :=
  (start_frames <-? bounded_u64_env "HARBOR_K3_CAT_AUTO_RECORD_START_CONSECUTIVE_FRAMES"
                      DEFAULT_CAT_AUTO_RECORD_START_CONSECUTIVE_FRAMES 2 100;
   start_duration <-? bounded_u64_env "HARBOR_K3_CAT_AUTO_RECORD_START_DURATION_MS"
                        DEFAULT_CAT_AUTO_RECORD_START_DURATION_MS 100 10000;
   stop_frames <-? bounded_u64_env "HARBOR_K3_CAT_AUTO_RECORD_STOP_CONSECUTIVE_FRAMES"
                     DEFAULT_CAT_AUTO_RECORD_STOP_CONSECUTIVE_FRAMES 2 1000;
   stop_duration <-? bounded_u64_env "HARBOR_K3_CAT_AUTO_RECORD_STOP_DURATION_MS"
                       DEFAULT_CAT_AUTO_RECORD_STOP_DURATION_MS 500 60000;
   Ok {| cc_start_consecutive_frames := start_frames; cc_start_duration_ms := start_duration;
         cc_stop_consecutive_frames := stop_frames; cc_stop_duration_ms := stop_duration |})%rust.
End settings.

(** * What was detected *)

Record CatDetectionStreakSample := {
  ds_sequence : Z;
  ds_frame_epoch_ms : Z;
  ds_detection_count : Z;
  ds_consecutive_present_frames : Z;
  ds_consecutive_absent_frames : Z;
  ds_present_since_epoch_ms : Z;
  ds_absent_since_epoch_ms : Z;
  ds_max_confidence_ppm : Z
}.

(** [(confidence * 1_000_000.0).round() as u32] *)
Definition confidence_ppm (confidence : spec_float) : Z := f64_round u32_max (f64_mul confidence f64_million).

Definition detection_confidence (detection : jv) : option Z :=
  label ← jv_get detection "label" ≫= jv_str;
  if negb (label =? "cat") then None else
  confidence ← jv_get detection "confidence" ≫= jv_f64;
  if negb (is_finite confidence) || negb (SFleb f64_zero confidence && SFleb confidence f64_one) then None
  else Some (confidence_ppm confidence).

Fixpoint max_confidence (maximum : Z) (detections : list jv) : option Z :=
  match detections with
  | [] => Some maximum
  | detection :: detections =>
      confidence ← detection_confidence detection;
      max_confidence (Z.max maximum confidence) detections
  end.

Definition cat_detection_max_confidence_ppm (r : jv) (detection_count : Z) : option Z :=
  detections ← jv_get r "detections" ≫= jv_array;
  if negb (Z.of_nat (length detections) =? detection_count)%Z then None else max_confidence 0 detections.

(** The counts of a sample agree with whether a cat is seen. *)
Definition consistent (s : CatDetectionStreakSample) : bool :=
  (if 0 <? ds_detection_count s then
     (0 <? ds_consecutive_present_frames s) && (ds_consecutive_absent_frames s =? 0)
     && (0 <? ds_present_since_epoch_ms s) && (ds_present_since_epoch_ms s <=? ds_frame_epoch_ms s)
     && (ds_absent_since_epoch_ms s =? 0)
   else
     (ds_consecutive_present_frames s =? 0) && (0 <? ds_consecutive_absent_frames s)
     && (ds_present_since_epoch_ms s =? 0) && (0 <? ds_absent_since_epoch_ms s)
     && (ds_absent_since_epoch_ms s <=? ds_frame_epoch_ms s))%Z.

Definition parse_cat_detection_streak_sample (r : jv) (now_epoch_ms : Z) : option CatDetectionStreakSample :=
  let number key := jv_get r key ≫= jv_u64 in
  target ← jv_get r "target_label" ≫= jv_str;
  if negb (target =? "cat") then None else
  detection_count ← number "detection_count";
  sequence ← number "sequence";
  frame ← number "frame_epoch_ms";
  present_frames ← number "consecutive_present_frames";
  absent_frames ← number "consecutive_absent_frames";
  present_since ← number "present_since_epoch_ms";
  absent_since ← number "absent_since_epoch_ms";
  confidence ← cat_detection_max_confidence_ppm r detection_count;
  let s := {| ds_sequence := sequence; ds_frame_epoch_ms := frame; ds_detection_count := detection_count;
              ds_consecutive_present_frames := present_frames; ds_consecutive_absent_frames := absent_frames;
              ds_present_since_epoch_ms := present_since; ds_absent_since_epoch_ms := absent_since;
              ds_max_confidence_ppm := confidence |} in
  if (frame =? 0)%Z || (CAT_AUTO_RECORD_MAX_RESULT_AGE_MS <? saturating_sub now_epoch_ms frame)%Z then None
  else if consistent s then Some s else None.

(** * What is kept as evidence *)

Definition evidence_of (s : CatDetectionStreakSample) : CatDetectionEvidence :=
  {| ce_sequence := ds_sequence s; ce_frame_epoch_ms := ds_frame_epoch_ms s;
     ce_confidence_ppm := ds_max_confidence_ppm s |}.

Definition confidence_at (evidence : list CatDetectionEvidence) (index : nat) : Z :=
  default 0%Z (ce_confidence_ppm <$> evidence !! index).

(** [(1..latest_index).min_by_key], the first of the least. *)
Definition weakest (evidence : list CatDetectionEvidence) (latest_index : nat) : nat :=
  default 1 (min_by (fun i j => Z.compare (confidence_at evidence i) (confidence_at evidence j)) (seq 1 (latest_index - 1))).

(** Full, the evidence keeps its first and its latest item, and of those between the
    surest. *)
Definition record_cat_detection_evidence (evidence : list CatDetectionEvidence) (s : CatDetectionStreakSample)
  : list CatDetectionEvidence :=
  if (length evidence <? CAT_AUTO_RECORD_MAX_DETECTION_EVIDENCE)%nat then evidence ++ [evidence_of s] else
  let latest_index := length evidence - 1 in
  let evidence :=
    match evidence !! latest_index with
    | Some latest =>
        if (1 <? latest_index)%nat
           && (confidence_at evidence (weakest evidence latest_index) <? ce_confidence_ppm latest)%Z
        then <[weakest evidence latest_index := latest]> evidence else evidence
    | None => evidence
    end in
  <[latest_index := evidence_of s]> evidence.

(** * When to start and to stop *)

Inductive CatAutoRecordingTransition := Hold | Start | Stop.

#[export] Instance transition_eq_dec : EqDecision CatAutoRecordingTransition.
Proof. solve_decision. Defined.

Definition cat_auto_recording_transition (recording_active : bool) (s : CatDetectionStreakSample)
    (config : CatAutoRecordingConfig) : CatAutoRecordingTransition :=
  if negb recording_active && (0 <? ds_detection_count s)%Z
     && (cc_start_consecutive_frames config <=? ds_consecutive_present_frames s)%Z
     && (cc_start_duration_ms config <=? saturating_sub (ds_frame_epoch_ms s) (ds_present_since_epoch_ms s))%Z
  then Start
  else if recording_active && (ds_detection_count s =? 0)%Z
     && (cc_stop_consecutive_frames config <=? ds_consecutive_absent_frames s)%Z
     && (cc_stop_duration_ms config <=? saturating_sub (ds_frame_epoch_ms s) (ds_absent_since_epoch_ms s))%Z
  then Stop
  else Hold.

Definition is_new_cat_detection_sequence (last_sequence : option Z) (s : CatDetectionStreakSample) : bool :=
  match last_sequence with Some last => (last <? ds_sequence s)%Z | None => true end.

(** * Recordings of HarborLink *)

(** Of [src/connectors/harborlink_media.rs]. *)
Record HarborLinkEventRecordingLease := {
  el_camera_id : string;
  el_lease_id : string;
  el_event_id : string;
  el_owner : string;
  el_status : string;
  el_stream_profile : string;
  el_labels : list string;
  el_started_at : string;
  el_updated_at : string;
  el_expires_at : string;
  el_pre_roll_seconds : Z;
  el_trigger_epoch_ms : Z;
  el_artifacts : list HarborLinkRecordingArtifact
}.

Definition has_cat_label (labels : list string) : bool := RustString.str_in "cat" labels.

Definition is_harborbeacon_cat_event_recording (lease : HarborLinkEventRecordingLease) : bool :=
  (el_owner lease =? "harborbeacon") && has_cat_label (el_labels lease).

Definition reusable_cat_event_recording (lease : HarborLinkEventRecordingLease) (stream_profile : string) : bool :=
  is_harborbeacon_cat_event_recording lease && RustString.str_in (el_status lease) ["pending"; "running"]
  && (el_stream_profile lease =? stream_profile).

(** A recording of a cat. *)
Definition is_cat_recording (a : HarborLinkRecordingArtifact) : bool :=
  (hl_kind a =? "recording") && bool_decide (hl_source a = Some "yolo_cat_activity") && has_cat_label (hl_labels a).

Definition by_artifact_id (a b : HarborLinkRecordingArtifact) : comparison :=
  String.compare (hl_artifact_id a) (hl_artifact_id b).

Definition reconciliation_terminal_artifacts (state : CatRecordingReconciliationState)
    (lease : option HarborLinkEventRecordingLease) (timeline : list HarborLinkRecordingArtifact)
  : list HarborLinkRecordingArtifact :=
  match rs_event_id state with
  | None => []
  | Some event_id =>
      let terminal lease :=
        (el_event_id lease =? event_id) && is_harborbeacon_cat_event_recording lease
        && RustString.str_in (el_status lease) ["stopped"; "expired"] in
      let artifacts := match lease with Some lease => if terminal lease then el_artifacts lease else [] | None => [] end in
      let artifacts := artifacts ++ List.filter (fun a => bool_decide (hl_event_id a = Some event_id)) timeline in
      dedup_by hl_artifact_id (sort_by by_artifact_id (List.filter is_cat_recording artifacts))
  end.

(** The calls of HarborLink. *)
Inductive LinkCall :=
| EventRecordingStatus (camera_id : string)
| EventRecordingLeaseStatus (camera_id lease_id : string)
| StartEventRecording (camera_id event_id stream_profile : string) (ttl_seconds pre_roll_seconds trigger_epoch_ms : Z)
| RenewEventRecording (camera_id lease_id : string) (ttl_seconds : Z)
| StopEventRecording (camera_id lease_id : string)
| RecordingTimeline (camera_id : string).

(** The world that the worker meets: what HarborLink answers, after the calls that it
    was given, the last first; [serde_json::from_str] of its errors; the clock and the
    identifiers drawn, by how far the worker is. *)
Class CaptureWorld := {
  link_lease : list LinkCall -> LinkCall -> result string HarborLinkEventRecordingLease;
  link_timeline : list LinkCall -> string -> result string (list HarborLinkRecordingArtifact);
  error_value : string -> option jv;
  epoch_ms : nat -> Z;
  draw_event : nat -> string
}.

(** The client refuses a recording that began without what came before the trigger. *)
Definition accept_start (pre_roll_seconds trigger_epoch_ms : Z) (lease : HarborLinkEventRecordingLease)
  : result string HarborLinkEventRecordingLease :=
  if (0 <? pre_roll_seconds)%Z
     && ((el_pre_roll_seconds lease <? pre_roll_seconds)%Z || negb (el_trigger_epoch_ms lease =? trigger_epoch_ms)%Z)
  then Err "HarborLink did not honor the requested event pre-roll"
  else Ok lease.

(** * The worker *)

Declare Scope act_scope.
Delimit Scope act_scope with act.

Section worker.
Context `{!Sha256} `{!HashOrder} {L S : Type} `{!LedgerStore L} `{!QueueStore S} `{!CaptureWorld}.

(** [cp_states]: [cat_auto_recording], by camera. [cp_asked]: the calls of HarborLink,
    the last first, and the ledger at each. *)
Record Capture := {
  cp_states : gmap string CatRecordingReconciliationState;
  cp_ledger : L;
  cp_queue : S;
  cp_tick : nat;
  cp_asked : list (LinkCall * Ledger)
}.

Definition Act (A : Type) : Type := Capture -> result string A * Capture.

Definition ret {A} (a : A) : Act A := fun w => (Ok a, w).
Definition fail {A} (error : string) : Act A := fun w => (Err error, w).
Definition lift {A} (r : result string A) : Act A := fun w => (r, w).
Definition bind {A B} (m : Act A) (k : A -> Act B) : Act B :=
  fun w => match m w with (Ok a, w) => k a w | (Err error, w) => (Err error, w) end.
(** What it answers, an error too. *)
Definition attempt {A} (m : Act A) : Act (result string A) := fun w => let (r, w) := m w in (Ok r, w).

Notation "x <== m ; k" := (bind m (fun x => k))
  (at level 100, m at next level, right associativity) : act_scope.
Local Open Scope act_scope.

Definition get_states : Act (gmap string CatRecordingReconciliationState) := fun w => (Ok (cp_states w), w).

Definition change_states (f : gmap string CatRecordingReconciliationState -> gmap string CatRecordingReconciliationState)
  : Act unit :=
  fun w => (Ok tt, {| cp_states := f (cp_states w); cp_ledger := cp_ledger w; cp_queue := cp_queue w;
                      cp_tick := cp_tick w; cp_asked := cp_asked w |}).

Definition put_state (camera_id : string) (state : CatRecordingReconciliationState) : Act unit :=
  change_states (insert camera_id state).

Definition ledger (op : LedgerOp) : Act unit :=
  fun w => let (r, l) := ledger_op op (cp_ledger w) in
    (r, {| cp_states := cp_states w; cp_ledger := l; cp_queue := cp_queue w; cp_tick := cp_tick w;
           cp_asked := cp_asked w |}).

Definition enqueue {A} (q : Request A) : Act A :=
  fun w => let (r, s) := run_request q (cp_queue w) in
    (r, {| cp_states := cp_states w; cp_ledger := cp_ledger w; cp_queue := s; cp_tick := cp_tick w;
           cp_asked := cp_asked w |}).

(** Reading the clock, or drawing an identifier. *)
Definition draw {A} (f : nat -> A) : Act A :=
  fun w => (Ok (f (cp_tick w)), {| cp_states := cp_states w; cp_ledger := cp_ledger w; cp_queue := cp_queue w;
                                   cp_tick := Datatypes.S (cp_tick w); cp_asked := cp_asked w |}).

Definition answered {A} (f : list LinkCall -> result string A) (call : LinkCall) : Act A :=
  fun w => (f (fst <$> cp_asked w), {| cp_states := cp_states w; cp_ledger := cp_ledger w; cp_queue := cp_queue w;
                                       cp_tick := cp_tick w;
                                       cp_asked := (call, ledger_of (cp_ledger w)) :: cp_asked w |}).

Definition ask (call : LinkCall) : Act HarborLinkEventRecordingLease := answered (fun asked => link_lease asked call) call.

Definition recording_timeline (camera_id : string) : Act (list HarborLinkRecordingArtifact) :=
  answered (fun asked => link_timeline asked camera_id) (RecordingTimeline camera_id).

Definition start_event_recording (camera_id event_id stream_profile : string) (trigger_epoch_ms : Z)
  : Act HarborLinkEventRecordingLease :=
  lease <== ask (StartEventRecording camera_id event_id stream_profile CAT_AUTO_RECORD_LEASE_TTL_SECONDS
                   CAT_AUTO_RECORD_PRE_ROLL_SECONDS trigger_epoch_ms);
  lift (accept_start CAT_AUTO_RECORD_PRE_ROLL_SECONDS trigger_epoch_ms lease).

(** ** Handing over what was recorded *)

Context (mode : CatRecordingValidationMode).

Fixpoint register_all (artifacts : list HarborLinkRecordingArtifact) (evidence : list CatDetectionEvidence)
    (registered : nat) : Act nat :=
  match artifacts with
  | [] => ret registered
  | a :: artifacts =>
      now <== draw epoch_ms;
      _ <== enqueue (register_candidate_with_evidence now a evidence);
      register_all artifacts evidence (registered + 1)
  end.

Definition register_cat_recording_validation_artifacts (artifacts : list HarborLinkRecordingArtifact)
    (evidence : list CatDetectionEvidence) : Act nat :=
  if negb (validates_candidates mode) then ret 0
  else register_all (List.filter is_cat_recording artifacts) evidence 0.

(** ** Reconciling *)

Definition with_lease (event_id lease_id : string) (state : CatRecordingReconciliationState)
  : CatRecordingReconciliationState :=
  {| rs_camera_id := rs_camera_id state; rs_phase := Active; rs_created_at_epoch_ms := rs_created_at_epoch_ms state;
     rs_last_sequence := rs_last_sequence state; rs_event_id := Some event_id; rs_lease_id := Some lease_id;
     rs_stream_profile := rs_stream_profile state; rs_last_renewed_epoch_ms := rs_last_renewed_epoch_ms state;
     rs_detection_evidence := rs_detection_evidence state |}.

Definition with_profile (stream_profile : string) (state : CatRecordingReconciliationState)
  : CatRecordingReconciliationState :=
  {| rs_camera_id := rs_camera_id state; rs_phase := rs_phase state;
     rs_created_at_epoch_ms := rs_created_at_epoch_ms state; rs_last_sequence := rs_last_sequence state;
     rs_event_id := rs_event_id state; rs_lease_id := rs_lease_id state; rs_stream_profile := Some stream_profile;
     rs_last_renewed_epoch_ms := rs_last_renewed_epoch_ms state; rs_detection_evidence := rs_detection_evidence state |}.

(** HarborLink records it still. *)
Definition in_progress (event_id : string) (lease : HarborLinkEventRecordingLease) : bool :=
  (el_event_id lease =? event_id) && is_harborbeacon_cat_event_recording lease
  && RustString.str_in (el_status lease) ["pending"; "running"; "finalizing"].

Definition recovered (state : CatRecordingReconciliationState) (event_id : string) (lease : HarborLinkEventRecordingLease)
  : CatRecordingReconciliationState :=
  with_profile (el_stream_profile lease) (with_lease event_id (el_lease_id lease) state).

Definition is_not_found (error : string) : bool :=
  bool_decide ((error_value error ≫= (fun v => jv_get v "statusCode" ≫= jv_u64)) = Some 404%Z).

Definition forget (camera_id : string) : Act unit :=
  _ <== ledger (LedgerRemove camera_id);
  change_states (base.delete camera_id).

(** HarborLink does not record it, or not any more. *)
Definition reconcile_ended (state : CatRecordingReconciliationState) (event_id : string)
    (lease : option HarborLinkEventRecordingLease) : Act unit :=
  artifacts <== match reconciliation_terminal_artifacts state lease [] with
                | [] => timeline <== recording_timeline (rs_camera_id state);
                        ret (reconciliation_terminal_artifacts state lease timeline)
                | artifacts => ret artifacts
                end;
  match artifacts with
  | [] =>
      pending_start_expired <==
        (if decide (rs_phase state = PendingStart)
         then now <== draw epoch_ms;
              ret (CAT_RECORDING_PENDING_START_TIMEOUT_MS <=? saturating_sub now (rs_created_at_epoch_ms state))%Z
         else ret false);
      if negb (is_some lease) && pending_start_expired then forget (rs_camera_id state)
      else fail ("cat recording reconciliation has no terminal artifact for event " +:+ event_id)
  | _ =>
      _ <== register_cat_recording_validation_artifacts artifacts (rs_detection_evidence state);
      forget (rs_camera_id state)
  end.

(** By its lease, if it is known. *)
Definition status_call (state : CatRecordingReconciliationState) : LinkCall :=
  match rs_lease_id state with
  | Some lease_id => EventRecordingLeaseStatus (rs_camera_id state) lease_id
  | None => EventRecordingStatus (rs_camera_id state)
  end.

Definition reconcile_cat_recording (state : CatRecordingReconciliationState) : Act unit :=
  match rs_event_id state with
  | None => ret tt
  | Some event_id =>
      lease <== attempt (ask (status_call state));
      match lease with
      | Ok lease =>
          if in_progress event_id lease then
            let state := recovered state event_id lease in
            _ <== ledger (LedgerUpsert state);
            put_state (rs_camera_id state) state
          else reconcile_ended state event_id (Some lease)
      | Err error => if is_not_found error then reconcile_ended state event_id None else fail error
      end
  end.

Fixpoint reconcile_all (states : list CatRecordingReconciliationState) (failed : gset string) (first_error : option string)
  : Act (gset string * option string) :=
  match states with
  | [] => ret (failed, first_error)
  | state :: states =>
      r <== attempt (reconcile_cat_recording state);
      match r with
      | Ok _ => reconcile_all states failed first_error
      | Err error => reconcile_all states ({[rs_camera_id state]} ∪ failed) (Some (default error first_error))
      end
  end.

Definition reconcile_cat_recordings_with_failures : Act (gset string * option string) :=
  states <== get_states;
  reconcile_all (values states) ∅ None.

Definition first_error_or_ok (first_error : option string) : Act unit :=
  match first_error with Some error => fail error | None => ret tt end.

Definition reconcile_cat_recordings : Act unit :=
  x <== reconcile_cat_recordings_with_failures;
  first_error_or_ok x.2.

Definition reconcile_cat_recording_after_link_error (state : CatRecordingReconciliationState) (error : string) : Act unit :=
  r <== attempt (reconcile_cat_recording state);
  match r with
  | Ok _ => ret tt
  | Err reconciliation_error => fail (error +:+ "; cat recording reconciliation failed: " +:+ reconciliation_error)
  end.

(** ** A result of the detection *)

(** A state without a recording. *)
Definition fresh (camera_id : string) : CatRecordingReconciliationState :=
  {| rs_camera_id := camera_id; rs_phase := Active; rs_created_at_epoch_ms := 0; rs_last_sequence := None;
     rs_event_id := None; rs_lease_id := None; rs_stream_profile := None; rs_last_renewed_epoch_ms := 0;
     rs_detection_evidence := [] |}.

Definition with_camera (camera_id : string) (state : CatRecordingReconciliationState) : CatRecordingReconciliationState :=
  {| rs_camera_id := camera_id; rs_phase := rs_phase state; rs_created_at_epoch_ms := rs_created_at_epoch_ms state;
     rs_last_sequence := rs_last_sequence state; rs_event_id := rs_event_id state; rs_lease_id := rs_lease_id state;
     rs_stream_profile := rs_stream_profile state; rs_last_renewed_epoch_ms := rs_last_renewed_epoch_ms state;
     rs_detection_evidence := rs_detection_evidence state |}.

Definition with_sequence (sequence : Z) (state : CatRecordingReconciliationState) : CatRecordingReconciliationState :=
  {| rs_camera_id := rs_camera_id state; rs_phase := rs_phase state;
     rs_created_at_epoch_ms := rs_created_at_epoch_ms state; rs_last_sequence := Some sequence;
     rs_event_id := rs_event_id state; rs_lease_id := rs_lease_id state; rs_stream_profile := rs_stream_profile state;
     rs_last_renewed_epoch_ms := rs_last_renewed_epoch_ms state; rs_detection_evidence := rs_detection_evidence state |}.

Definition with_renewal (now : Z) (state : CatRecordingReconciliationState) : CatRecordingReconciliationState :=
  {| rs_camera_id := rs_camera_id state; rs_phase := rs_phase state;
     rs_created_at_epoch_ms := rs_created_at_epoch_ms state; rs_last_sequence := rs_last_sequence state;
     rs_event_id := rs_event_id state; rs_lease_id := rs_lease_id state; rs_stream_profile := rs_stream_profile state;
     rs_last_renewed_epoch_ms := now; rs_detection_evidence := rs_detection_evidence state |}.

Definition with_evidence (evidence : list CatDetectionEvidence) (state : CatRecordingReconciliationState)
  : CatRecordingReconciliationState :=
  {| rs_camera_id := rs_camera_id state; rs_phase := rs_phase state;
     rs_created_at_epoch_ms := rs_created_at_epoch_ms state; rs_last_sequence := rs_last_sequence state;
     rs_event_id := rs_event_id state; rs_lease_id := rs_lease_id state; rs_stream_profile := rs_stream_profile state;
     rs_last_renewed_epoch_ms := rs_last_renewed_epoch_ms state; rs_detection_evidence := evidence |}.

(** The identifiers that a renewal answers; the phase stays. *)
Definition with_renewed (renewed : HarborLinkEventRecordingLease) (state : CatRecordingReconciliationState)
  : CatRecordingReconciliationState :=
  {| rs_camera_id := rs_camera_id state; rs_phase := rs_phase state;
     rs_created_at_epoch_ms := rs_created_at_epoch_ms state; rs_last_sequence := rs_last_sequence state;
     rs_event_id := Some (el_event_id renewed); rs_lease_id := Some (el_lease_id renewed);
     rs_stream_profile := rs_stream_profile state; rs_last_renewed_epoch_ms := rs_last_renewed_epoch_ms state;
     rs_detection_evidence := rs_detection_evidence state |}.

Definition pending_start (now : Z) (event_id stream_profile : string) (state : CatRecordingReconciliationState)
  : CatRecordingReconciliationState :=
  {| rs_camera_id := rs_camera_id state; rs_phase := PendingStart; rs_created_at_epoch_ms := now;
     rs_last_sequence := rs_last_sequence state; rs_event_id := Some event_id; rs_lease_id := None;
     rs_stream_profile := Some stream_profile; rs_last_renewed_epoch_ms := rs_last_renewed_epoch_ms state;
     rs_detection_evidence := rs_detection_evidence state |}.

Definition sees_cat (s : CatDetectionStreakSample) : bool := (0 <? ds_detection_count s)%Z.

Definition add_evidence (s : CatDetectionStreakSample) (state : CatRecordingReconciliationState)
  : CatRecordingReconciliationState :=
  with_evidence (record_cat_detection_evidence (rs_detection_evidence state) s) state.

(** The end of a recording, and what follows it; both where the stream profile changes
    and where no cat is seen any more. *)
Definition end_recording (camera_id lease_id : string) (state : CatRecordingReconciliationState) (next : Act unit) : Act unit :=
  stopped <== attempt (ask (StopEventRecording camera_id lease_id));
  match stopped with
  | Err error => reconcile_cat_recording_after_link_error state error
  | Ok stopped =>
      _ <== register_cat_recording_validation_artifacts (el_artifacts stopped) (rs_detection_evidence state);
      _ <== ledger (LedgerRemove camera_id);
      _ <== put_state camera_id (fresh camera_id);
      next
  end.

Section sample.
Context (camera_id stream_profile : string) (config : CatAutoRecordingConfig) (now : Z).

(** The closure [start_event_recording]: the ledger first. *)
Definition ask_recording (s : CatDetectionStreakSample) (state : CatRecordingReconciliationState)
  : Act (CatRecordingReconciliationState * HarborLinkEventRecordingLease) :=
  event_id <== draw (fun n => "cat-activity-" +:+ draw_event n);
  let state := pending_start now event_id stream_profile state in
  let state := if sees_cat s then add_evidence s state else state in
  _ <== put_state camera_id state;
  _ <== ledger (LedgerUpsert state);
  lease <== start_event_recording camera_id event_id stream_profile (ds_frame_epoch_ms s);
  ret (state, lease).

Definition start_recording (s : CatDetectionStreakSample) (state : CatRecordingReconciliationState)
  : Act CatRecordingReconciliationState :=
  current <== attempt (ask (EventRecordingStatus camera_id));
  let current_lease :=
    match current with Ok lease => if is_harborbeacon_cat_event_recording lease then Some lease else None | Err _ => None end in
  x <== match current_lease with
        | Some lease =>
            if reusable_cat_event_recording lease stream_profile then ret (state, lease) else
            stopped <== ask (StopEventRecording camera_id (el_lease_id lease));
            _ <== register_cat_recording_validation_artifacts (el_artifacts stopped) [];
            ask_recording s state
        | None => ask_recording s state
        end;
  let (state, lease) := x : CatRecordingReconciliationState * HarborLinkEventRecordingLease in
  let state := with_renewal now
                 (with_lease (el_event_id lease) (el_lease_id lease) (with_profile (el_stream_profile lease) state)) in
  _ <== put_state camera_id state;
  _ <== ledger (LedgerUpsert state);
  ret state.

(** A cat seen while recording. *)
Definition keep_evidence (new_sample : option CatDetectionStreakSample) (state : CatRecordingReconciliationState)
  : Act CatRecordingReconciliationState :=
  match new_sample with
  | Some s =>
      if is_some (rs_lease_id state) && sees_cat s
         && negb (list_any (fun e => ce_sequence e =? ds_sequence s)%Z (rs_detection_evidence state))
      then let state := add_evidence s state in
           _ <== put_state camera_id state;
           _ <== ledger (LedgerUpsert state);
           ret state
      else ret state
  | None => ret state
  end.

Definition renew_recording (lease_id : string) (state : CatRecordingReconciliationState) : Act unit :=
  renewed <== attempt (ask (RenewEventRecording camera_id lease_id CAT_AUTO_RECORD_LEASE_TTL_SECONDS));
  match renewed with
  | Ok renewed =>
      let state := with_renewal now (with_renewed renewed state) in
      _ <== put_state camera_id state;
      ledger (LedgerUpsert state)
  | Err error => reconcile_cat_recording_after_link_error state error
  end.

(** From where the stream profile is settled. *)
Definition process_sample (sample : option CatDetectionStreakSample) (state : CatRecordingReconciliationState) : Act unit :=
  let state := with_profile stream_profile state in
  let new_sample :=
    match sample with
    | Some s => if is_new_cat_detection_sequence (rs_last_sequence state) s then Some s else None
    | None => None
    end in
  let state := match new_sample with Some s => with_sequence (ds_sequence s) state | None => state end in
  _ <== put_state camera_id state;
  let transition :=
    match new_sample with
    | Some s => cat_auto_recording_transition (is_some (rs_lease_id state)) s config
    | None => Hold
    end in
  state <== match transition, new_sample with
            | Start, Some s => start_recording s state
            | Start, None => fail "cat auto-recording start is missing trigger evidence"
            | _, _ => ret state
            end;
  state <== keep_evidence new_sample state;
  match rs_lease_id state with
  | None => ret tt
  | Some lease_id =>
      if decide (transition = Stop) then end_recording camera_id lease_id state (ret tt)
      else if is_some sample
              && (CAT_AUTO_RECORD_RENEW_INTERVAL_SECONDS * 1000 <=? saturating_sub now (rs_last_renewed_epoch_ms state))%Z
      then renew_recording lease_id state
      else ret tt
  end.
End sample.

Definition process_cat_detection_result (camera_id stream_profile : string) (latest_result : option jv)
    (config : CatAutoRecordingConfig) : Act unit :=
  now <== draw epoch_ms;
  let sample := latest_result ≫= (fun r => parse_cat_detection_streak_sample r now) in
  states <== get_states;
  let state := with_camera camera_id (default default_state (states !! camera_id)) in
  _ <== put_state camera_id state;
  let go := process_sample camera_id stream_profile config now sample in
  if match rs_stream_profile state with Some active => negb (active =? stream_profile) | None => false end then
    match rs_lease_id state with
    | Some lease_id => end_recording camera_id lease_id state (go (fresh camera_id))
    | None => _ <== put_state camera_id (fresh camera_id); go (fresh camera_id)
    end
  else go state.

(** ** A turn *)

(** [HashMap::iter_mut] *)
Definition entries (states : gmap string CatRecordingReconciliationState) : list (string * CatRecordingReconciliationState) :=
  values (map_imap (fun camera_id state => Some (camera_id, state)) states).

Fixpoint stop_each (active failed : gset string) (states : list (string * CatRecordingReconciliationState))
    (completed : list string) : Act unit :=
  match states with
  | [] => change_states (fun states => foldl (fun states camera_id => base.delete camera_id states) states (rev completed))
  | (camera_id, state) :: states =>
      if TaskStore.str_in camera_id active || TaskStore.str_in camera_id failed
         || bool_decide (rs_phase state = PendingStart)
      then stop_each active failed states completed
      else
        let next := _ <== ledger (LedgerRemove camera_id); stop_each active failed states (camera_id :: completed) in
        match rs_lease_id state with
        | None => next
        | Some lease_id =>
            stopped <== attempt (ask (StopEventRecording camera_id lease_id));
            match stopped with
            | Err error => reconcile_cat_recording_after_link_error state error
            | Ok stopped =>
                _ <== register_cat_recording_validation_artifacts (el_artifacts stopped) (rs_detection_evidence state);
                next
            end
        end
  end.

Definition stop_orphaned_cat_recordings (active failed : gset string) : Act unit :=
  states <== get_states; stop_each active failed (entries states) [].

(** What the detections yield: that running out of their leases they were not renewed,
    and for each that is running its camera, its stream profile and its latest result. *)
Record Detections := {
  dt_renewal_error : option string;
  dt_samples : list (string * string * option jv)
}.

Fixpoint process_samples (samples : list (string * string * option jv)) (config : CatAutoRecordingConfig)
    (first_error : option string) : Act (option string) :=
  match samples with
  | [] => ret first_error
  | (camera_id, stream_profile, latest_result) :: samples =>
      r <== attempt (process_cat_detection_result camera_id stream_profile latest_result config);
      process_samples samples config
        (match r with Ok _ => first_error | Err error => Some (default error first_error) end)
  end.

Definition cat_auto_recording_tick (config : CatAutoRecordingConfig) (detections : Detections) : Act unit :=
  x <== reconcile_cat_recordings_with_failures;
  let active := list_to_set ((fun s => s.1.1) <$> dt_samples detections) in
  first_error <== process_samples (dt_samples detections) config (dt_renewal_error detections);
  r <== attempt (stop_orphaned_cat_recordings active x.1);
  first_error_or_ok (match r with Ok _ => first_error | Err error => Some (default error first_error) end).

(** A turn of the loop of [start_cat_auto_recording_worker], and whether it is the
    last. *)
Definition worker_turn (config : option CatAutoRecordingConfig) (detections : Detections) (w : Capture) : bool * Capture :=
  let w := (match config with
            | Some config => cat_auto_recording_tick config detections w
            | None => reconcile_cat_recordings w
            end).2 in
  (negb (is_some config) && bool_decide (cp_states w = ∅), w).

Fixpoint worker_turns (config : option CatAutoRecordingConfig) (turns : list Detections) (w : Capture) : Capture :=
  match turns with
  | [] => w
  | detections :: turns =>
      let (last, w) := worker_turn config detections w in
      if last then w else worker_turns config turns w
  end.

Definition start_cat_auto_recording_worker (env_var : string -> EnvVar) (turns : list Detections) (w : Capture) : Capture :=
  let config :=
    if cat_auto_recording_enabled env_var
    then match cat_auto_recording_config_from_env env_var with Ok config => Some config | Err _ => None end
    else None in
  if negb (is_some config) && bool_decide (cp_states w = ∅) then w else worker_turns config turns w.

(** [AdminApi::new_with_dependencies]: a process that starts takes the ledger over. *)
Definition boot (l : L) (s : S) (tick : nat) (asked : list (LinkCall * Ledger)) : result string Capture :=
  let (r, l) := ledger_load l in
  (fun states => {| cp_states := states; cp_ledger := l; cp_queue := s; cp_tick := tick; cp_asked := asked |}) <$> r.
End worker.

Arguments Capture L S : clear implicits.
