(* ===== verification/CatCaptureTheorems.v ===== *)
(** What the worker that records cats does, whatever HarborLink answers: it starts a
    recording on evidence only, after the ledger holds it and after it asked whether
    one goes on; the ledger keeps what is in memory; what it forgets was handed over;
    and a process that starts takes over what goes on. *)
From Stdlib Require Import Sorting.Sorted.
From stdpp Require Import gmap.
From S2P Require Import Prelude TaskStore TaskStoreTheorems RustString Json ModelRuns CatRecords CatQueue CatSampling CatVerdict CatLedger CatCapture.
Local Open Scope string_scope.
Local Open Scope list_scope.

(** * Evidence *)

Lemma min_by_key_least {A} (f : A -> Z) l x y :
  min_by (fun a b => Z.compare (f a) (f b)) l = Some x -> y ∈ l -> (f x <= f y)%Z.
Proof.
  intros Hx Hy. assert (TotalCmp (fun a b => Z.compare (f a) (f b))) by total_cmp.
  apply (min_by_least (fun a b => Z.compare (f a) (f b))) in Hx. rewrite Forall_forall in Hx. by apply Hx.
Qed.

Lemma min_by_some {A} (cmp : A -> A -> comparison) l : l <> [] -> exists x, min_by cmp l = Some x.
Proof. destruct l as [|a l]; [done|]. cbn. repeat case_match; eauto. Qed.

(** What the slot of the weakest item is: neither the first nor the latest, and no item
    between them is weaker. *)
Lemma weakest_spec evidence n :
  1 < n -> (1 <= weakest evidence n < n) /\ forall i, 1 <= i < n -> (confidence_at evidence (weakest evidence n) <= confidence_at evidence i)%Z.
Proof.
  intros Hn. unfold weakest. destruct (min_by_some (fun i j => Z.compare (confidence_at evidence i) (confidence_at evidence j)) (seq 1 (n - 1))) as [x Hx].
  { destruct n as [|[|n]]; [lia|lia|done]. }
  rewrite Hx. cbn. pose proof (min_by_in _ _ _ Hx) as Hin%elem_of_seq. split; [lia|]. intros i Hi.
  apply (min_by_key_least (confidence_at evidence) _ _ _ Hx). apply elem_of_seq. lia.
Qed.

Lemma confidence_at_lookup evidence i e : evidence !! i = Some e -> confidence_at evidence i = ce_confidence_ppm e.
Proof. unfold confidence_at. by intros ->. Qed.

(** The evidence after a sample when it is full. *)
Lemma record_full evidence s first latest :
  (CAT_AUTO_RECORD_MAX_DETECTION_EVIDENCE <= length evidence) ->
  evidence !! 0 = Some first -> evidence !! (length evidence - 1) = Some latest ->
  exists w weak, (1 <= w < length evidence - 1) /\ evidence !! w = Some weak
    /\ (forall i e, 1 <= i < length evidence - 1 -> evidence !! i = Some e -> (ce_confidence_ppm weak <= ce_confidence_ppm e)%Z)
    /\ record_cat_detection_evidence evidence s
       = <[length evidence - 1 := evidence_of s]>
           (if (ce_confidence_ppm weak <? ce_confidence_ppm latest)%Z then <[w := latest]> evidence else evidence).
Proof.
  intros Hlen H0 Hlatest. unfold record_cat_detection_evidence. destruct (Nat.ltb_spec (length evidence) CAT_AUTO_RECORD_MAX_DETECTION_EVIDENCE); [lia|].
  rewrite Hlatest. unfold CAT_AUTO_RECORD_MAX_DETECTION_EVIDENCE in *. set (n := length evidence - 1) in *.
  destruct (weakest_spec evidence n) as [Hw Hleast]; [unfold n; lia|].
  destruct (lookup_lt_is_Some_2 evidence (weakest evidence n)) as [weak Hweak]; [unfold n in *; lia|].
  exists (weakest evidence n), weak. split; [exact Hw|]. split; [done|]. split.
  - intros i e Hi He. specialize (Hleast i Hi). by rewrite (confidence_at_lookup _ _ _ Hweak), (confidence_at_lookup _ _ _ He) in Hleast.
  - rewrite (confidence_at_lookup _ _ _ Hweak). destruct (Nat.ltb_spec 1 n); [done|lia].
Qed.

(** C35. The evidence of a recording is bounded, and loses only what it can spare: it never
    holds more than 256 items; it ends with the newest; none is made up; its first
    stays; and whatever was there, or is new, one that is as sure is kept. *)
Theorem detection_evidence_bounded evidence s :
  length evidence <= CAT_AUTO_RECORD_MAX_DETECTION_EVIDENCE ->
  let kept := record_cat_detection_evidence evidence s in
  length kept = Nat.min (length evidence + 1) CAT_AUTO_RECORD_MAX_DETECTION_EVIDENCE
  /\ last kept = Some (evidence_of s)
  /\ (forall e : CatDetectionEvidence, e ∈ kept -> e ∈ evidence ++ [evidence_of s])
  /\ (forall e, head evidence = Some e -> head kept = Some e)
  /\ forall e : CatDetectionEvidence, e ∈ evidence ++ [evidence_of s] -> exists e', e' ∈ kept /\ (ce_confidence_ppm e <= ce_confidence_ppm e')%Z.
Proof.
  intros Hlen. cbn zeta. destruct (Nat.ltb_spec (length evidence) CAT_AUTO_RECORD_MAX_DETECTION_EVIDENCE) as [Hlt|Hge].
  { unfold record_cat_detection_evidence. apply Nat.ltb_lt in Hlt as E. rewrite E, length_app, last_snoc. cbn [length].
    split; [lia|]. split; [done|]. split; [done|]. split; [by destruct evidence|]. intros e He. by exists e. }
  assert (length evidence = 256) as Hn by (unfold CAT_AUTO_RECORD_MAX_DETECTION_EVIDENCE in *; lia).
  destruct (lookup_lt_is_Some_2 evidence 0) as [first H0]; [lia|].
  destruct (lookup_lt_is_Some_2 evidence (length evidence - 1)) as [latest Hl]; [lia|].
  destruct (record_full evidence s first latest Hge H0 Hl) as (w & weak & Hw & Hweak & Hleast & ->).
  set (moved := if (ce_confidence_ppm weak <? ce_confidence_ppm latest)%Z then <[w := latest]> evidence else evidence).
  assert (length moved = length evidence) as Hm.
  { unfold moved. case_match; [apply length_insert|done]. }
  assert (forall e, e ∈ moved -> e ∈ evidence) as Hold.
  { intros e. unfold moved. case_match; [|done]. intros [i Hi]%list_elem_of_lookup.
    destruct (decide (i = w)) as [->|Hne]; [rewrite list_lookup_insert_eq in Hi by lia; simplify_eq; by eapply list_elem_of_lookup_2|].
    rewrite list_lookup_insert_ne in Hi by done. by eapply list_elem_of_lookup_2. }
  split; [rewrite length_insert, Hm; unfold CAT_AUTO_RECORD_MAX_DETECTION_EVIDENCE; lia|].
  assert (<[length evidence - 1 := evidence_of s]> moved !! (length evidence - 1) = Some (evidence_of s)) as Hnew.
  { apply list_lookup_insert_eq. lia. }
  assert (forall i, i < length evidence - 1 -> <[length evidence - 1 := evidence_of s]> moved !! i = moved !! i) as Hother.
  { intros i Hi. apply list_lookup_insert_ne. lia. }
  assert (moved !! w = Some (if (ce_confidence_ppm weak <? ce_confidence_ppm latest)%Z then latest else weak)) as Hmw.
  { unfold moved. case_match; [apply list_lookup_insert_eq; lia|done]. }
  assert (forall i, i <> w -> moved !! i = evidence !! i) as Hmo.
  { intros i Hi. unfold moved. case_match; [by apply list_lookup_insert_ne|done]. }
  split; [rewrite last_lookup, length_insert, Hm, <- Hnew; f_equal; lia|]. split; [|split].
  - intros e [i Hi]%list_elem_of_lookup. apply elem_of_app. destruct (decide (i = length evidence - 1)) as [->|Hne].
    + right. rewrite Hnew in Hi. simplify_eq. by apply list_elem_of_singleton.
    + left. rewrite list_lookup_insert_ne in Hi by done. eapply Hold, list_elem_of_lookup_2. exact Hi.
  - intros e He. rewrite head_lookup in *. by rewrite Hother, Hmo by lia.
  - intros e [[i Hi]%list_elem_of_lookup| ->%list_elem_of_singleton]%elem_of_app.
    + apply lookup_lt_Some in Hi as Hil. destruct (decide (i = length evidence - 1)) as [->|Hne].
      * assert (e = latest) as -> by congruence. eexists. split; [eapply (list_elem_of_lookup_2 _ w); rewrite Hother by lia; exact Hmw|].
        destruct (Z.ltb_spec (ce_confidence_ppm weak) (ce_confidence_ppm latest)); lia.
      * destruct (decide (i = w)) as [->|Hiw].
        -- assert (e = weak) as -> by congruence. eexists. split; [eapply (list_elem_of_lookup_2 _ w); rewrite Hother by lia; exact Hmw|].
           destruct (Z.ltb_spec (ce_confidence_ppm weak) (ce_confidence_ppm latest)); lia.
        -- exists e. split; [|done]. eapply (list_elem_of_lookup_2 _ i). by rewrite Hother, Hmo by lia.
    + eexists. split; [by eapply list_elem_of_lookup_2|done].
Qed.

(** * Settings and samples *)

Lemma bounded_spec name raw d min max v :
  (min <= d <= max)%Z -> bounded_u64_value name raw d min max = Ok v -> (min <= v <= max)%Z.
Proof.
  intros Hd. unfold bounded_u64_value. destruct raw as [raw|]; cbn; [destruct (parse_uint _ _) as [v'|]; cbn; [|done]|];
    case_match eqn:E; try done; intros [= <-]; [|done]. apply negb_false_iff, andb_true_iff in E as [?%Z.leb_le ?%Z.leb_le]. lia.
Qed.

Lemma bounded_env_spec env name d min max v :
  (min <= d <= max)%Z -> bounded_u64_env env name d min max = Ok v -> (min <= v <= max)%Z.
Proof. unfold bounded_u64_env. intros Hd. destruct (env name); [by apply bounded_spec|done|by apply bounded_spec]. Qed.

(** However the environment is set, a worker that records at all waits for two frames
    and a tenth of a second at least before it starts, and for two frames and half a
    second before it stops. *)
Lemma config_bounds env c :
  cat_auto_recording_config_from_env env = Ok c ->
  (2 <= cc_start_consecutive_frames c <= 100 /\ 100 <= cc_start_duration_ms c <= 10000
   /\ 2 <= cc_stop_consecutive_frames c <= 1000 /\ 500 <= cc_stop_duration_ms c <= 60000)%Z.
Proof.
  unfold cat_auto_recording_config_from_env.
  destruct (bounded_u64_env env _ _ 2 100) eqn:E1; cbn; [|done]. destruct (bounded_u64_env env _ _ 100 10000) eqn:E2; cbn; [|done].
  destruct (bounded_u64_env env _ _ 2 1000) eqn:E3; cbn; [|done]. destruct (bounded_u64_env env _ _ 500 60000) eqn:E4; cbn; [|done].
  intros [= <-]. cbn. apply bounded_env_spec in E1, E2, E3, E4; unfold DEFAULT_CAT_AUTO_RECORD_START_CONSECUTIVE_FRAMES,
    DEFAULT_CAT_AUTO_RECORD_START_DURATION_MS, DEFAULT_CAT_AUTO_RECORD_STOP_CONSECUTIVE_FRAMES, DEFAULT_CAT_AUTO_RECORD_STOP_DURATION_MS; lia.
Qed.

(** A sample that is used is recent and its counts agree. *)
Lemma parsed_sample r now s :
  parse_cat_detection_streak_sample r now = Some s ->
  consistent s = true /\ (0 < ds_frame_epoch_ms s \/ ds_frame_epoch_ms s < 0)%Z
  /\ (now - ds_frame_epoch_ms s <= CAT_AUTO_RECORD_MAX_RESULT_AGE_MS)%Z.
Proof.
  unfold parse_cat_detection_streak_sample. intros H. repeat (apply bind_Some in H as (? & _ & H) || case_match); simplify_eq.
  split; [done|]. cbn. match goal with E : _ || _ = false |- _ => apply orb_false_iff in E as [?%Z.eqb_neq ?%Z.ltb_ge] end.
  unfold saturating_sub in *. lia.
Qed.

Lemma transition_start active s c :
  cat_auto_recording_transition active s c = Start <->
  active = false /\ sees_cat s = true /\ (cc_start_consecutive_frames c <= ds_consecutive_present_frames s)%Z
  /\ (cc_start_duration_ms c <= saturating_sub (ds_frame_epoch_ms s) (ds_present_since_epoch_ms s))%Z.
Proof.
  unfold cat_auto_recording_transition, sees_cat. destruct active; cbn; [split; [by case_match|by intros []]|].
  destruct (0 <? ds_detection_count s)%Z; cbn; [|split; [done|by intros (? & ? & _)]].
  destruct (Z.leb_spec (cc_start_consecutive_frames c) (ds_consecutive_present_frames s)); cbn; [|split; [done|lia]].
  destruct (Z.leb_spec (cc_start_duration_ms c) (saturating_sub (ds_frame_epoch_ms s) (ds_present_since_epoch_ms s))); split; (done || lia).
Qed.

Lemma transition_stop active s c :
  cat_auto_recording_transition active s c = Stop <->
  active = true /\ ds_detection_count s = 0%Z /\ (cc_stop_consecutive_frames c <= ds_consecutive_absent_frames s)%Z
  /\ (cc_stop_duration_ms c <= saturating_sub (ds_frame_epoch_ms s) (ds_absent_since_epoch_ms s))%Z.
Proof.
  unfold cat_auto_recording_transition. destruct active; cbn; [|split; [by case_match|by intros []]].
  destruct (Z.eqb_spec (ds_detection_count s) 0); cbn; [|split; [done|tauto]].
  destruct (Z.leb_spec (cc_stop_consecutive_frames c) (ds_consecutive_absent_frames s)); cbn; [|split; [done|lia]].
  destruct (Z.leb_spec (cc_stop_duration_ms c) (saturating_sub (ds_frame_epoch_ms s) (ds_absent_since_epoch_ms s))); split; (done || lia).
Qed.

(** * What HarborLink is asked *)

Create HintDb quiet.

Ltac solve_quiet := cbv zeta; auto 20 with quiet.

Section proofs.
Context {sha : Sha256} {order : HashOrder} {L S : Type} {keeps : LedgerStore L} {queues : QueueStore S} {world : CaptureWorld}.
Context (mode : CatRecordingValidationMode).
Implicit Types (w : Capture L S).

Abbreviation held w := (ledger_of (cp_ledger w)).

(** What is asked beyond [asked] has [P] of the ledger then and of the calls before. *)
Inductive grown (P : LinkCall -> Ledger -> list LinkCall -> Prop) (asked : list (LinkCall * Ledger)) : list (LinkCall * Ledger) -> Prop :=
| grown_none : grown P asked asked
| grown_ask call l asked' : grown P asked asked' -> P call l (fst <$> asked') -> grown P asked ((call, l) :: asked').

Lemma grown_trans P a b c : grown P a b -> grown P b c -> grown P a c.
Proof. intros Hab Hbc. induction Hbc; [done|]. by constructor. Qed.

Lemma grown_mono P Q a b : (forall call l h, P call l h -> Q call l h) -> grown P a b -> grown Q a b.
Proof. intros HPQ H. induction H; constructor; auto. Qed.

Lemma grown_in P a b x : grown P a b -> x ∈ b -> x ∈ a \/ exists h, P x.1 x.2 h.
Proof.
  intros H. induction H as [|call l b H IH HP]; [by left|]. intros [->|Hx]%elem_of_cons; [right; by eexists|by apply IH].
Qed.

Definition asks {A} (P : LinkCall -> Ledger -> list LinkCall -> Prop) (m : Act A) w : Prop :=
  grown P (cp_asked w) (cp_asked (m w).2).

Definition quiet {A} (m : Act A) : Prop := forall w, cp_asked (m w).2 = cp_asked w.

Section rules.
Context (P : LinkCall -> Ledger -> list LinkCall -> Prop) {A B : Type}.

Lemma asks_quiet (m : Act A) w : quiet m -> asks P m w.
Proof. intros Hm. unfold asks. rewrite Hm. constructor. Qed.

Lemma asks_bind (m : Act A) (k : A -> Act B) w :
  asks P m w -> (forall a w', m w = (Ok a, w') -> asks P (k a) w') -> asks P (bind m k) w.
Proof.
  unfold asks, bind. intros Hm Hk. destruct (m w) as [[a|e] w'] eqn:E; [|done]. eapply grown_trans; [exact Hm|by apply Hk].
Qed.

Lemma asks_attempt (m : Act A) w : asks P m w -> asks P (attempt m) w.
Proof. unfold asks, attempt. by destruct (m w). Qed.

Lemma asks_then (m : Act A) (k : A -> Act B) w : quiet m -> (forall a w', m w = (Ok a, w') -> asks P (k a) w') -> asks P (bind m k) w.
Proof. intros Hm. apply asks_bind. by apply asks_quiet. Qed.
End rules.

Lemma asks_answered {A} P (f : list LinkCall -> result string A) call w :
  P call (held w) (fst <$> cp_asked w) -> asks P (answered f call) w.
Proof. intros HP. unfold asks. cbn. constructor; [constructor|done]. Qed.

Lemma quiet_bind {A B} (m : Act A) (k : A -> Act B) : quiet m -> (forall a, quiet (k a)) -> quiet (bind m k).
Proof.
  intros Hm Hk w. unfold bind. specialize (Hm w). destruct (m w) as [[a|e] w']; cbn in *; [|done]. by rewrite Hk.
Qed.

Lemma quiet_ret {A} (a : A) : quiet (ret a). Proof. done. Qed.
Lemma quiet_fail {A} e : quiet (fail e : Act A). Proof. done. Qed.
Lemma quiet_lift {A} (r : result string A) : quiet (lift r). Proof. done. Qed.
Lemma quiet_get : quiet get_states. Proof. done. Qed.
Lemma quiet_change f : quiet (change_states f). Proof. done. Qed.
Lemma quiet_put cam st : quiet (put_state cam st). Proof. done. Qed.
Lemma quiet_draw {A} (f : nat -> A) : quiet (draw f). Proof. done. Qed.
Lemma quiet_ledger op : quiet (ledger op).
Proof. intros w. unfold ledger. by destruct (ledger_op op _). Qed.
Lemma quiet_enqueue {A} (q : Request A) : quiet (enqueue q).
Proof. intros w. unfold enqueue. by destruct (run_request q _). Qed.

#[local] Hint Extern 3 (quiet (bind _ _)) => apply quiet_bind; [|intro; cbv zeta] : quiet.
#[local] Hint Resolve quiet_ret quiet_fail quiet_lift quiet_get quiet_change quiet_put quiet_draw quiet_ledger quiet_enqueue : quiet.

Lemma quiet_register_all artifacts evidence n : quiet (register_all artifacts evidence n).
Proof.
  revert n. induction artifacts as [|a artifacts IH]; intros n; cbn; [auto with quiet|].
  apply quiet_bind; [auto with quiet|]. intros now. apply quiet_bind; auto with quiet.
Qed.

Lemma quiet_register artifacts evidence : quiet (register_cat_recording_validation_artifacts mode artifacts evidence).
Proof. unfold register_cat_recording_validation_artifacts. case_match; [auto with quiet|apply quiet_register_all]. Qed.

Lemma quiet_first e : quiet (first_error_or_ok e).
Proof. by destruct e. Qed.

Lemma quiet_forget cam : quiet (forget cam).
Proof. apply quiet_bind; auto with quiet. Qed.
#[local] Hint Resolve quiet_register quiet_forget : quiet.

(** Questions, which change nothing. *)
Definition is_inquiry (call : LinkCall) : bool :=
  match call with
  | EventRecordingStatus _ | EventRecordingLeaseStatus _ _ | RecordingTimeline _ => true
  | StartEventRecording _ _ _ _ _ _ | RenewEventRecording _ _ _ | StopEventRecording _ _ => false
  end.

Section inquiries.
Context (P : LinkCall -> Ledger -> list LinkCall -> Prop) (HP : forall call l h, is_inquiry call = true -> P call l h).

Lemma asks_ended st event_id lease w : asks P (reconcile_ended mode st event_id lease) w.
Proof.
  unfold reconcile_ended. apply asks_bind.
  { destruct (reconciliation_terminal_artifacts st lease []); [|by apply asks_quiet].
    apply asks_bind; [by apply asks_answered, HP|]. intros; by apply asks_quiet. }
  intros artifacts w1 _. apply asks_quiet. destruct artifacts.
  - apply quiet_bind; [case_match; auto using quiet_bind with quiet|]. intros expired. case_match; auto with quiet.
  - apply quiet_bind; auto with quiet.
Qed.

Lemma asks_reconcile st w : asks P (reconcile_cat_recording mode st) w.
Proof.
  unfold reconcile_cat_recording. destruct (rs_event_id st) as [event_id|]; [|by apply asks_quiet].
  apply asks_bind. { apply asks_attempt, asks_answered, HP. unfold status_call. by destruct (rs_lease_id st). }
  intros [lease|error] w1 _; case_match; try apply asks_ended; apply asks_quiet; auto using quiet_bind with quiet.
Qed.

Lemma asks_reconcile_all states failed first_error w : asks P (reconcile_all mode states failed first_error) w.
Proof.
  revert failed first_error w. induction states as [|st states IH]; intros failed first_error w; [by apply asks_quiet|]. cbn.
  apply asks_bind; [apply asks_attempt, asks_reconcile|]. intros [[]|e] w1 _; apply IH.
Qed.

Lemma asks_reconcile_states w : asks P (reconcile_cat_recordings_with_failures mode) w.
Proof. apply asks_then; [auto with quiet|]. intros states w1 _. apply asks_reconcile_all. Qed.

Lemma asks_after_link_error st error w : asks P (reconcile_cat_recording_after_link_error mode st error) w.
Proof.
  apply asks_bind; [apply asks_attempt, asks_reconcile|]. intros [[]|e] w1 _; apply asks_quiet; auto with quiet.
Qed.

Lemma asks_reconciliation w : asks P (reconcile_cat_recordings mode) w.
Proof. apply asks_bind; [apply asks_reconcile_states|]. intros [failed first_error] w1 _. apply asks_quiet. by destruct first_error. Qed.

Lemma asks_end cam lease_id st (next : Act unit) w :
  P (StopEventRecording cam lease_id) (held w) (fst <$> cp_asked w) ->
  (forall w', cp_states w' !! cam = Some (fresh cam) -> asks P next w') -> asks P (end_recording mode cam lease_id st next) w.
Proof.
  intros Hstop Hnext. apply asks_bind; [by apply asks_attempt, asks_answered|]. intros [stopped|error] w1 _; [|apply asks_after_link_error].
  apply asks_then; [auto with quiet|]. intros n w2 _. apply asks_then; [auto with quiet|]. intros u w3 _.
  apply asks_then; [auto with quiet|]. intros v w4 [= _ <-]. apply Hnext. cbn. apply lookup_insert_eq.
Qed.
End inquiries.

Lemma quiet_eq {A} (m : Act A) w r w' : quiet m -> m w = (r, w') -> cp_asked w' = cp_asked w.
Proof. intros Hm E. specialize (Hm w). by rewrite E in Hm. Qed.

Lemma ledger_upsert_spec st w w' :
  ledger (LedgerUpsert st) w = (Ok tt, w') ->
  held w' = <[rs_camera_id st := st]> (held w) /\ cp_asked w' = cp_asked w /\ cp_states w' = cp_states w /\ cp_queue w' = cp_queue w.
Proof.
  unfold ledger. destruct (ledger_op _ _) as [r l] eqn:E. intros [= -> <-]. cbn. split; [|done].
  pose proof (ledger_op_ok (LedgerUpsert st) (cp_ledger w)) as Hop. rewrite E in Hop. cbn in Hop. rewrite Hop by done.
  destruct (is_blank (rs_camera_id st)) eqn:Hb; [|done]. exfalso.
  destruct (ledger_upsert_blank st (cp_ledger w) Hb) as [e He]. by rewrite E in He.
Qed.

(** The recording is in the ledger, as one that is yet to start. *)
Definition pending_in (l : Ledger) (cam event_id profile : string) : Prop :=
  exists st, l !! cam = Some st /\ rs_phase st = PendingStart /\ rs_event_id st = Some event_id /\ rs_lease_id st = None
    /\ rs_stream_profile st = Some profile.

(** HarborLink was just asked for the camera's recording: it did not answer with one of
    this program's, which an error is too, or it did with one that could not go on, and
    was told to stop it. *)
Definition nothing_goes_on (cam profile : string) (h : list LinkCall) : Prop :=
  exists h',
    (h = EventRecordingStatus cam :: h'
     /\ forall current, link_lease h' (EventRecordingStatus cam) = Ok current -> is_harborbeacon_cat_event_recording current = false)
    \/ exists current, link_lease h' (EventRecordingStatus cam) = Ok current /\ reusable_cat_event_recording current profile = false
         /\ h = StopEventRecording cam (el_lease_id current) :: EventRecordingStatus cam :: h'.

Definition wants_start (c : CatAutoRecordingConfig) (s : CatDetectionStreakSample) : Prop :=
  sees_cat s = true /\ (cc_start_consecutive_frames c <= ds_consecutive_present_frames s)%Z
  /\ (cc_start_duration_ms c <= saturating_sub (ds_frame_epoch_ms s) (ds_present_since_epoch_ms s))%Z.

Definition wants_stop (c : CatAutoRecordingConfig) (s : CatDetectionStreakSample) : Prop :=
  ds_detection_count s = 0%Z /\ (cc_stop_consecutive_frames c <= ds_consecutive_absent_frames s)%Z
  /\ (cc_stop_duration_ms c <= saturating_sub (ds_frame_epoch_ms s) (ds_absent_since_epoch_ms s))%Z.

(** What a result of the detection of [cam] lets be asked: [was] is what was in memory,
    and [sample] what was parsed. *)
Section process.
Context (cam profile : string) (config : CatAutoRecordingConfig) (sample : option CatDetectionStreakSample)
  (was : CatRecordingReconciliationState).

Definition switches : bool := match rs_stream_profile was with Some active => negb (active =? profile) | None => false end.

Definition fits (s : CatDetectionStreakSample) : Prop :=
  sample = Some s /\ (switches = true \/ is_new_cat_detection_sequence (rs_last_sequence was) s = true).

Definition allowed (call : LinkCall) (l : Ledger) (h : list LinkCall) : Prop :=
  match call with
  | StartEventRecording camera_id event_id stream_profile ttl pre_roll trigger =>
      camera_id = cam /\ stream_profile = profile /\ ttl = 30%Z /\ pre_roll = 3%Z
      /\ (switches = true \/ rs_lease_id was = None)
      /\ exists s, fits s /\ wants_start config s /\ trigger = ds_frame_epoch_ms s
           /\ pending_in l cam event_id profile /\ nothing_goes_on cam profile h
  | StopEventRecording camera_id lease_id =>
      camera_id = cam
      /\ ((rs_lease_id was = Some lease_id /\ (switches = true \/ exists s, fits s /\ wants_stop config s))
          \/ exists h' current, h = EventRecordingStatus cam :: h' /\ link_lease h' (EventRecordingStatus cam) = Ok current
               /\ el_lease_id current = lease_id /\ is_harborbeacon_cat_event_recording current = true
               /\ reusable_cat_event_recording current profile = false)
  | RenewEventRecording camera_id _ ttl => camera_id = cam /\ ttl = 30%Z
  | _ => True
  end.

Lemma inquiry_allowed call l h : is_inquiry call = true -> allowed call l h.
Proof. by destruct call. Qed.
Local Hint Resolve inquiry_allowed : core.

Lemma asks_recording now s st w :
  rs_camera_id st = cam -> fits s -> wants_start config s -> (switches = true \/ rs_lease_id was = None) ->
  nothing_goes_on cam profile (fst <$> cp_asked w) ->
  asks allowed (ask_recording cam profile now s st) w.
Proof.
  intros Hcam Hf Hs Hl Hn. apply asks_then; [auto with quiet|]. intros event_id w1 E1.
  pose proof (quiet_eq _ _ _ _ (quiet_draw _) E1) as A1.
  cbv zeta. set (st' := if sees_cat s then add_evidence s (pending_start now event_id profile st) else pending_start now event_id profile st).
  assert (rs_camera_id st' = cam /\ rs_phase st' = PendingStart /\ rs_event_id st' = Some event_id /\ rs_lease_id st' = None
          /\ rs_stream_profile st' = Some profile) as (H1 & H2 & H3 & H4 & H5) by (unfold st'; by destruct (sees_cat s)).
  apply asks_then; [auto with quiet|]. intros [] w2 E2. pose proof (quiet_eq _ _ _ _ (quiet_put _ _) E2) as A2.
  apply asks_then; [auto with quiet|]. intros [] w3 (Hh & A3 & _)%ledger_upsert_spec.
  apply asks_bind; [|intros; by apply asks_quiet]. apply asks_bind; [|intros; by apply asks_quiet].
  apply asks_answered. rewrite A3, A2, A1. repeat (split; [done|]). exists s. repeat (split; [done|]). split; [|done].
  exists st'. rewrite Hh, H1, lookup_insert_eq. done.
Qed.

Lemma asks_start now s st w :
  rs_camera_id st = cam -> fits s -> wants_start config s -> (switches = true \/ rs_lease_id was = None) ->
  asks allowed (start_recording mode cam profile now s st) w.
Proof.
  intros Hcam Hf Hs Hl. apply asks_bind; [by apply asks_attempt, asks_answered|]. intros current w1 [= <- <-].
  apply asks_bind; [|intros [st' lease] w2 _; apply asks_quiet; solve_quiet].
  destruct (link_lease _ _) as [lease|e] eqn:E.
  - destruct (is_harborbeacon_cat_event_recording lease) eqn:Hh.
    + destruct (reusable_cat_event_recording lease profile) eqn:Hr; [by apply asks_quiet|].
      apply asks_bind.
      { apply asks_answered. split; [done|]. right. by eexists _, lease. }
      intros stopped w2 [= _ <-]. apply asks_then; [auto with quiet|]. intros n w3 E3.
      apply asks_recording; try done. rewrite (quiet_eq _ _ _ _ (quiet_register _ _) E3). eexists. right. by exists lease.
    + apply asks_recording; try done. exists (fst <$> cp_asked w). left. split; [done|]. intros current. rewrite E. by intros [= <-].
  - apply asks_recording; try done. exists (fst <$> cp_asked w). left. split; [done|]. intros current. by rewrite E.
Qed.

Lemma keep_evidence_lease ns st w st' w' :
  keep_evidence cam ns st w = (Ok st', w') -> rs_lease_id st' = rs_lease_id st.
Proof.
  unfold keep_evidence. destruct ns as [s|]; [|by intros [= -> _]]. case_match; [|by intros [= -> _]].
  unfold bind. cbn. destruct (ledger _ _) as [[[]|e] w2]; [|done]. by intros [= <- _].
Qed.

Lemma quiet_keep_evidence ns st : quiet (keep_evidence cam ns st).
Proof. unfold keep_evidence. destruct ns; [|auto with quiet]. case_match; solve_quiet. Qed.

Lemma asks_renew now lease_id st w : asks (allowed) (renew_recording mode cam now lease_id st) w.
Proof.
  apply asks_bind; [by apply asks_attempt, asks_answered|]. intros [renewed|e] w1 _; [|apply asks_after_link_error; auto].
  apply asks_quiet. solve_quiet.
Qed.

Lemma asks_sample now st w :
  rs_camera_id st = cam ->
  (switches = true /\ rs_lease_id st = None \/ rs_lease_id st = rs_lease_id was /\ rs_last_sequence st = rs_last_sequence was) ->
  asks allowed (process_sample mode cam profile config now sample st) w.
Proof.
  intros Hcam Hst. unfold process_sample. cbv zeta. change (rs_last_sequence (with_profile profile st)) with (rs_last_sequence st).
  set (ns := match sample with Some s => if is_new_cat_detection_sequence _ s then Some s else None | None => None end).
  assert (forall s, ns = Some s -> fits s) as Hfits.
  { unfold ns. intros s. destruct sample as [s'|] eqn:Hsm; [|done]. case_match eqn:Hn; [|done]. intros [= ->]. split; [done|].
    destruct Hst as [[? _]|[_ ?]]; [by left|right; congruence]. }
  set (st1 := match ns with Some s => with_sequence (ds_sequence s) (with_profile profile st) | None => with_profile profile st end).
  assert (rs_camera_id st1 = cam /\ rs_lease_id st1 = rs_lease_id st) as [H1 H2] by (unfold st1; by destruct ns). rewrite H2.
  set (t := match ns with Some s => cat_auto_recording_transition _ s config | None => Hold end).
  apply asks_then; [auto with quiet|]. intros [] w1 E1. apply asks_bind.
  { destruct t eqn:Ht; [by apply asks_quiet| |by apply asks_quiet]. destruct ns as [s|] eqn:Hns; [|by apply asks_quiet].
    apply transition_start in Ht as (Ha & Hw). apply asks_start; auto.
    destruct Hst as [[? _]|[<- _]]; [by left|right]. by destruct (rs_lease_id st). }
  intros st2 w2 E2. apply asks_then; [apply quiet_keep_evidence|]. intros st3 w3 E3. apply keep_evidence_lease in E3.
  destruct (rs_lease_id st3) as [lease_id|] eqn:Hl; [|by apply asks_quiet].
  destruct (decide (t = Stop)) as [Ht|Ht].
  - assert (st2 = st1) as -> by (rewrite Ht in E2; unfold ret in E2; congruence).
    unfold t in Ht. destruct ns as [s|]; [|done]. apply transition_stop in Ht as (Ha & Hw).
    apply asks_end; [auto|split; [done|]|intros; by apply asks_quiet]. left. destruct Hst as [[_ Hst]|[Hst _]]; [rewrite Hst in Ha; done|].
    split; [congruence|]. right. exists s. split; [by apply Hfits|done].
  - destruct (is_some sample && _); [apply asks_renew|by apply asks_quiet].
Qed.
End process.

(** What was in memory for a camera. *)
Definition memory_of (cam : string) w : CatRecordingReconciliationState := default default_state (cp_states w !! cam).

Lemma asks_process cam profile result config w :
  let sample := result ≫= (fun r => parse_cat_detection_streak_sample r (epoch_ms (cp_tick w))) in
  asks (allowed cam profile config sample (memory_of cam w)) (process_cat_detection_result mode cam profile result config) w.
Proof.
  cbn zeta. unfold process_cat_detection_result. apply asks_then; [auto with quiet|]. intros now w1 [= <- <-]. cbv zeta.
  apply asks_then; [auto with quiet|]. intros states w2 [= <- <-]. apply asks_then; [auto with quiet|]. intros [] w3 [= <-].
  cbn [cp_states]. change (default default_state (cp_states w !! cam)) with (memory_of cam w).
  set (st := with_camera cam (memory_of cam w)). change (rs_stream_profile st) with (rs_stream_profile (memory_of cam w)).
  change (rs_lease_id st) with (rs_lease_id (memory_of cam w)).
  destruct (match rs_stream_profile (memory_of cam w) with Some active => _ | None => _ end) eqn:Hsw.
  - destruct (rs_lease_id (memory_of cam w)) as [lease_id|] eqn:Hl.
    + apply asks_end; [by intros []|split; [done|]; left; split; [done|by left]|]. intros w4 _. apply asks_sample; [done|by left].
    + apply asks_then; [auto with quiet|]. intros [] w4 _. apply asks_sample; [done|by left].
  - apply asks_sample; [done|by right].
Qed.

(** * The worker *)

Lemma grown_before P a b x :
  grown P a b -> x ∈ b -> x ∈ a \/ exists newer older, b = newer ++ x :: older /\ P x.1 x.2 (fst <$> older).
Proof.
  intros H. induction H as [|call l b H IH HP]; [by left|]. intros [->|Hx]%elem_of_cons.
  - right. by exists [], b.
  - destruct (IH Hx) as [?|(newer & older & -> & HP')]; [by left|right]. by exists ((call, l) :: newer), older.
Qed.

(** What the detections of a turn let be asked. *)
Definition justified (config : CatAutoRecordingConfig) (samples : list (string * string * option jv)) (call : LinkCall)
    (l : Ledger) (h : list LinkCall) : Prop :=
  match call with
  | StartEventRecording cam event_id profile ttl pre_roll trigger =>
      ttl = 30%Z /\ pre_roll = 3%Z
      /\ exists result tick s, (cam, profile, Some result) ∈ samples
           /\ parse_cat_detection_streak_sample result (epoch_ms tick) = Some s
           /\ wants_start config s /\ trigger = ds_frame_epoch_ms s /\ pending_in l cam event_id profile
           /\ nothing_goes_on cam profile h
  | _ => True
  end.

Lemma inquiry_justified config samples call l h : is_inquiry call = true -> justified config samples call l h.
Proof. by destruct call. Qed.

Lemma allowed_justified config samples cam profile result tick was call l h :
  (cam, profile, result) ∈ samples ->
  allowed cam profile config (result ≫= (fun r => parse_cat_detection_streak_sample r (epoch_ms tick))) was call l h ->
  justified config samples call l h.
Proof.
  intros Hin. destruct call; try done. cbn. intros (-> & -> & -> & -> & _ & s & [Hs _] & Hw & -> & Hp & Hn).
  apply bind_Some in Hs as (r & -> & Hs). split; [done|]. split; [done|]. by exists r, tick, s.
Qed.

Lemma asks_samples samples config done_error rest w :
  (forall x, x ∈ rest -> x ∈ samples) -> asks (justified config samples) (process_samples mode rest config done_error) w.
Proof.
  revert done_error w. induction rest as [|[[cam profile] result] rest IH]; intros done_error w Hin; [by apply asks_quiet|]. cbn.
  apply asks_bind; [|intros r w1 _; apply IH; intros x Hx; apply Hin; by right].
  apply asks_attempt. eapply grown_mono; [|apply asks_process]. intros call l h. apply allowed_justified, Hin. by left.
Qed.

Lemma asks_stop_each P active failed states completed w :
  (forall call l h, is_inquiry call = true -> P call l h) -> (forall cam lease_id l h, P (StopEventRecording cam lease_id) l h) ->
  asks P (stop_each mode active failed states completed) w.
Proof.
  intros Hi Hs. revert completed w. induction states as [|[cam st] states IH]; intros completed w; [by apply asks_quiet|]. cbn.
  case_match; [apply IH|]. destruct (rs_lease_id st) as [lease_id|].
  - apply asks_bind; [by apply asks_attempt, asks_answered|]. intros [stopped|e] w1 _; [|by apply asks_after_link_error; auto].
    apply asks_then; [auto with quiet|]. intros n w2 _. apply asks_then; [auto with quiet|]. intros u w3 _. apply IH.
  - apply asks_then; [auto with quiet|]. intros u w1 _. apply IH.
Qed.

Lemma asks_tick config dt w : asks (justified config (dt_samples dt)) (cat_auto_recording_tick mode config dt) w.
Proof.
  unfold cat_auto_recording_tick. apply asks_bind; [apply asks_reconcile_states, inquiry_justified|].
  intros [failed e0] w1 _. cbv zeta. apply asks_bind; [by apply asks_samples|]. intros first_error w2 _.
  apply asks_bind; [|intros r w3 _; apply asks_quiet, quiet_first].
  apply asks_attempt. apply asks_then; [auto with quiet|]. intros states w3 _.
  apply asks_stop_each; [apply inquiry_justified|done].
Qed.

Definition recording_config (env : string -> EnvVar) : option CatAutoRecordingConfig :=
  if cat_auto_recording_enabled env
  then match cat_auto_recording_config_from_env env with Ok c => Some c | Err _ => None end
  else None.

(** What the worker may ask in a turn. *)
Definition turn_justified (config : option CatAutoRecordingConfig) (turns : list Detections) (call : LinkCall) (l : Ledger)
    (h : list LinkCall) : Prop :=
  match config with
  | Some c => exists dt, dt ∈ turns /\ justified c (dt_samples dt) call l h
  | None => is_inquiry call = true
  end.

Lemma worker_asks config all turns w :
  (forall dt, dt ∈ turns -> dt ∈ all) -> grown (turn_justified config all) (cp_asked w) (cp_asked (worker_turns mode config turns w)).
Proof.
  revert w. induction turns as [|dt turns IH]; intros w Hin; [constructor|]. cbn.
  set (w1 := (match config with Some c => cat_auto_recording_tick mode c dt w | None => reconcile_cat_recordings mode w end).2).
  assert (grown (turn_justified config all) (cp_asked w) (cp_asked w1)) as H1.
  { unfold w1. destruct config as [c|]; cbn.
    - eapply grown_mono; [|apply (asks_tick c dt w)]. intros call l h Hj. exists dt. split; [apply Hin; by left|done].
    - by apply asks_reconciliation. }
  case_match; [done|]. eapply grown_trans; [exact H1|]. apply IH. intros x Hx. apply Hin. by right.
Qed.

Lemma start_worker_asks env turns w :
  grown (turn_justified (recording_config env) turns) (cp_asked w) (cp_asked (start_cat_auto_recording_worker mode env turns w)).
Proof.
  unfold start_cat_auto_recording_worker. fold (recording_config env). cbv zeta. case_match; [constructor|by apply worker_asks].
Qed.

(** C6. A recording starts on evidence. Whatever HarborLink answers and whatever fails,
    the worker asks for one only if recording is enabled and set within its bounds; a
    running detection of that camera and profile had a recent result with a cat that
    was seen as often and as long as set, and the recording begins three seconds before
    that result's frame; the ledger already holds it as pending, for a process that
    takes over; and HarborLink was asked just before for the camera's recording, and
    either did not answer with one of this program's (it has none or another's, or it
    answered an error or not at all, which the code takes for none), or answered with
    one that cannot go on, which it was then told to stop. Disabled, the worker only
    asks how things stand. *)
Theorem recordings_start_on_evidence env turns w :
  let w' := start_cat_auto_recording_worker mode env turns w in
  (forall cam event_id profile ttl pre_roll trigger l,
     (StartEventRecording cam event_id profile ttl pre_roll trigger, l) ∈ cp_asked w' ->
     (StartEventRecording cam event_id profile ttl pre_roll trigger, l) ∈ cp_asked w
     \/ exists c dt result tick s newer older,
          cat_auto_recording_enabled env = true /\ cat_auto_recording_config_from_env env = Ok c
          /\ dt ∈ turns /\ (cam, profile, Some result) ∈ dt_samples dt
          /\ parse_cat_detection_streak_sample result (epoch_ms tick) = Some s /\ (epoch_ms tick - ds_frame_epoch_ms s <= 5000)%Z
          /\ (0 < ds_detection_count s /\ 2 <= cc_start_consecutive_frames c <= ds_consecutive_present_frames s)%Z
          /\ (100 <= cc_start_duration_ms c <= saturating_sub (ds_frame_epoch_ms s) (ds_present_since_epoch_ms s))%Z
          /\ ttl = 30%Z /\ pre_roll = 3%Z /\ trigger = ds_frame_epoch_ms s
          /\ pending_in l cam event_id profile
          /\ cp_asked w' = newer ++ (StartEventRecording cam event_id profile ttl pre_roll trigger, l) :: older
          /\ nothing_goes_on cam profile (fst <$> older))
  /\ (cat_auto_recording_enabled env = false -> forall x, x ∈ cp_asked w' -> x ∈ cp_asked w \/ is_inquiry x.1 = true).
Proof.
  cbn zeta. pose proof (start_worker_asks env turns w) as Hg. split.
  - intros cam event_id profile ttl pre_roll trigger l Hin. destruct (grown_before _ _ _ _ Hg Hin) as [?|(newer & older & E & HP)]; [by left|right].
    unfold turn_justified, recording_config in HP. destruct (cat_auto_recording_enabled env); [|done].
    destruct (cat_auto_recording_config_from_env env) as [c|e] eqn:Hc; [|done].
    destruct HP as (dt & Hdt & -> & -> & result & tick & s & Hs & Hparse & (Hsees & Hf & Hd) & -> & Hp & Hn).
    destruct (config_bounds env c Hc) as (B1 & B2 & _). destruct (parsed_sample _ _ _ Hparse) as (_ & _ & Hrec).
    exists c, dt, result, tick, s, newer, older. unfold sees_cat in Hsees. apply Z.ltb_lt in Hsees.
    unfold CAT_AUTO_RECORD_MAX_RESULT_AGE_MS in Hrec. repeat (split; [first [done|lia]|]). done.
  - intros Hd x Hin. destruct (grown_before _ _ _ _ Hg Hin) as [?|(newer & older & _ & HP)]; [by left|right].
    unfold turn_justified, recording_config in HP. by rewrite Hd in HP.
Qed.

(** A recording is stopped for a reason. Of a detection that runs, the worker stops
    the recording that it holds only when the stream profile changed, or when a result
    not looked at before has no cat, as often and as long as set; and it stops another
    one of this program's only to start its own, when HarborLink, just asked, has one
    that cannot go on. *)
Theorem recordings_stop_for_reason cam profile result config w lease_id camera_id l :
  let w' := (process_cat_detection_result mode cam profile result config w).2 in
  let was := memory_of cam w in
  (StopEventRecording camera_id lease_id, l) ∈ cp_asked w' ->
  (StopEventRecording camera_id lease_id, l) ∈ cp_asked w
  \/ camera_id = cam
     /\ ((rs_lease_id was = Some lease_id
           /\ ((exists active, rs_stream_profile was = Some active /\ active <> profile)
               \/ exists r s, result = Some r /\ parse_cat_detection_streak_sample r (epoch_ms (cp_tick w)) = Some s
                    /\ is_new_cat_detection_sequence (rs_last_sequence was) s = true /\ wants_stop config s))
         \/ exists newer older ledger current,
              cp_asked w' = newer ++ (StopEventRecording cam lease_id, l) :: (EventRecordingStatus cam, ledger) :: older
              /\ link_lease (fst <$> older) (EventRecordingStatus cam) = Ok current /\ el_lease_id current = lease_id
              /\ is_harborbeacon_cat_event_recording current = true /\ reusable_cat_event_recording current profile = false).
Proof.
  cbn zeta. intros Hin. pose proof (asks_process cam profile result config w) as Hg.
  destruct (grown_before _ _ _ _ Hg Hin) as [?|(newer & older & E & -> & HP)]; [by left|right]. split; [done|].
  assert (switches profile (memory_of cam w) = true -> exists active, rs_stream_profile (memory_of cam w) = Some active /\ active <> profile) as Hsw.
  { unfold switches. destruct (rs_stream_profile _) as [active|]; [|done]. intros Hne%negb_true_iff%String.eqb_neq. by exists active. }
  destruct HP as [[Hl HP]|(h' & current & Eh & Hlink & Hid & Hh & Hr)].
  - left. split; [done|]. destruct HP as [Hs|(s & [Hs Hn] & Hw)]; [by left; apply Hsw|].
    destruct Hn as [Hn|Hn]; [by left; apply Hsw|right]. apply bind_Some in Hs as (r & -> & Hs). by exists r, s.
  - right. destruct older as [|[call ledger] older]; [done|]. cbn in Eh. injection Eh as -> <-.
    by exists newer, older, ledger, current.
Qed.

(** * What reconciliation settles *)

Lemma put_records_keeps records m k : is_Some (m !! k) -> is_Some (put_records records m !! k).
Proof. intros Hk. destruct (put_records_lookup records m k) as [->|(r & -> & _)]; eauto. Qed.

Lemma queue_steps_keeps ops m m' k : queue_steps ops m m' -> is_Some (m !! k) -> is_Some (m' !! k).
Proof. intros Hs. induction Hs as [|op ops m m1 m' [records _] _ IH]; [done|]. intros Hk. by apply IH, put_records_keeps. Qed.

Definition queued w (a : HarborLinkRecordingArtifact) : Prop := is_Some (queue_of (cp_queue w) !! hl_artifact_id a).

Lemma enqueue_keeps {A} (q : Request A) w a : queued w a -> queued (enqueue q w).2 a.
Proof.
  unfold queued, enqueue. destruct (run_request_prefix q (cp_queue w)) as (others & m & records & Ho & _ & Hq).
  destruct (run_request q _) as [r s]. cbn in *. rewrite Hq. intros Ha. by eapply put_records_keeps, queue_steps_keeps.
Qed.

Lemma enqueue_registers now a evidence r w w' :
  enqueue (register_candidate_with_evidence now a evidence) w = (Ok r, w') -> queued w' a.
Proof.
  unfold enqueue, queued. destruct (run_request _ _) as [[r'|e] s] eqn:E; intros [= <- <-]. cbn.
  apply run_request_ok in E as (others & m & records & _ & Hd & ->). unfold decided, register_candidate_with_evidence in Hd.
  destruct (recording_event_id a) as [event_id|]; cbn in Hd; [|done]. destruct (m !! hl_artifact_id a) as [x|] eqn:Hm; injection Hd as <- <-.
  - by exists x.
  - cbn. unfold put_record. cbn. rewrite lookup_insert_eq. eauto.
Qed.

(** Memory, ledger and calls. *)
Definition same_books w w' : Prop :=
  cp_states w' = cp_states w /\ cp_ledger w' = cp_ledger w /\ cp_asked w' = cp_asked w.

Lemma enqueue_books {A} (q : Request A) w : same_books w (enqueue q w).2.
Proof. unfold enqueue. by destruct (run_request _ _). Qed.

Lemma register_all_books artifacts evidence n w : same_books w (register_all artifacts evidence n w).2.
Proof.
  revert n w. induction artifacts as [|a artifacts IH]; intros n w; [done|]. cbn. unfold bind. cbn.
  set (w1 := {| cp_tick := Datatypes.S (cp_tick w) |}). pose proof (enqueue_books (register_candidate_with_evidence (epoch_ms (cp_tick w)) a evidence) w1) as Hb.
  destruct (enqueue _ w1) as [[r|e] w2]; cbn in Hb; [|exact Hb]. destruct Hb as (H1 & H2 & H3).
  destruct (IH (n + 1) w2) as (H4 & H5 & H6). split; [|split]; etransitivity; eassumption.
Qed.

Lemma register_books artifacts evidence w : same_books w (register_cat_recording_validation_artifacts mode artifacts evidence w).2.
Proof. unfold register_cat_recording_validation_artifacts. case_match; [done|apply register_all_books]. Qed.

Lemma register_all_keeps artifacts evidence n w a : queued w a -> queued (register_all artifacts evidence n w).2 a.
Proof.
  revert n w. induction artifacts as [|b artifacts IH]; intros n w Ha; [done|]. cbn. unfold bind. cbn.
  set (w1 := {| cp_tick := Datatypes.S (cp_tick w) |}).
  pose proof (enqueue_keeps (register_candidate_with_evidence (epoch_ms (cp_tick w)) b evidence) w1 a Ha) as Hk.
  destruct (enqueue _ w1) as [[r|e] w2]; [by apply IH|exact Hk].
Qed.

Lemma register_all_queued artifacts evidence n w r w' a :
  register_all artifacts evidence n w = (Ok r, w') -> a ∈ artifacts -> queued w' a.
Proof.
  revert n w. induction artifacts as [|b artifacts IH]; intros n w; [by intros _ ?%not_elem_of_nil|]. cbn. unfold bind. cbn.
  set (w1 := {| cp_tick := Datatypes.S (cp_tick w) |}). destruct (enqueue _ w1) as [[r1|e] w2] eqn:E; [|done].
  intros Hr [->|Ha]%elem_of_cons; [|by eapply IH].
  apply enqueue_registers in E. pose proof (register_all_keeps artifacts evidence (n + 1) w2 b E) as Hk. by rewrite Hr in Hk.
Qed.

Lemma register_queued artifacts evidence w r w' a :
  mode <> ModeOff -> register_cat_recording_validation_artifacts mode artifacts evidence w = (Ok r, w') ->
  a ∈ artifacts -> is_cat_recording a = true -> queued w' a.
Proof.
  intros Hm. unfold register_cat_recording_validation_artifacts, validates_candidates. rewrite bool_decide_eq_false_2 by done. cbn.
  intros Hr Ha Hc. eapply register_all_queued; [exact Hr|]. apply list_elem_of_In, filter_In. split; [by apply list_elem_of_In|done].
Qed.

Lemma dedup_by_in {A B} `{EqDecision B} (key : A -> B) l x : x ∈ dedup_by key l -> x ∈ l.
Proof.
  revert x. induction l as [|a l IH]; intros x; [done|]. cbn. destruct (dedup_by key l) as [|y rest] eqn:E.
  - intros [->|Hx]%elem_of_cons; [by left|by apply not_elem_of_nil in Hx].
  - case_match; intros [->|Hx]%elem_of_cons; try (by left); right; apply IH; [by right|done].
Qed.

Lemma dedup_by_key {A B} `{EqDecision B} (key : A -> B) l x : x ∈ l -> exists y, y ∈ dedup_by key l /\ key y = key x.
Proof.
  revert x. induction l as [|a l IH]; intros x; [by intros ?%not_elem_of_nil|]. cbn. intros [->|Hx]%elem_of_cons.
  - exists a. split; [|done]. destruct (dedup_by key l); [by left|]. case_match; by left.
  - destruct (IH x Hx) as (y & Hy & Hk). destruct (dedup_by key l) as [|z rest] eqn:E; [by apply not_elem_of_nil in Hy|].
    case_match eqn:Hd; [|exists y; split; [by right|done]].
    apply elem_of_cons in Hy as [->|Hy]; [exists a; split; [by left|congruence]|exists y; split; [by right|done]].
Qed.

(** What ended of the event of a state, in HarborLink's answers. *)
Definition ended_recording (st : CatRecordingReconciliationState) (lease : option HarborLinkEventRecordingLease)
    (timeline : list HarborLinkRecordingArtifact) (a : HarborLinkRecordingArtifact) : Prop :=
  is_cat_recording a = true
  /\ (a ∈ timeline /\ hl_event_id a = rs_event_id st
      \/ exists x, lease = Some x /\ Some (el_event_id x) = rs_event_id st /\ is_harborbeacon_cat_event_recording x = true
           /\ (el_status x = "stopped" \/ el_status x = "expired") /\ a ∈ el_artifacts x).

Lemma str_in_two s a b : RustString.str_in s [a; b] = true <-> s = a \/ s = b.
Proof.
  unfold RustString.str_in, list_any. cbn [existsb]. rewrite orb_false_r, orb_true_iff, !String.eqb_eq. done.
Qed.

Lemma terminal_artifacts_spec st event_id lease timeline :
  rs_event_id st = Some event_id ->
  (forall a, a ∈ reconciliation_terminal_artifacts st lease timeline -> ended_recording st lease timeline a)
  /\ forall a, ended_recording st lease timeline a ->
       exists b, b ∈ reconciliation_terminal_artifacts st lease timeline /\ hl_artifact_id b = hl_artifact_id a.
Proof.
  intros He. unfold reconciliation_terminal_artifacts, ended_recording. rewrite He.
  set (mine := match lease with Some _ => _ | None => _ end).
  assert (forall a, a ∈ mine <-> exists x, lease = Some x /\ Some (el_event_id x) = Some event_id
    /\ is_harborbeacon_cat_event_recording x = true /\ (el_status x = "stopped" \/ el_status x = "expired") /\ a ∈ el_artifacts x) as Hmine.
  { intros a. unfold mine. destruct lease as [x|]; [|split; [by intros ?%not_elem_of_nil|by intros (? & ? & _)]]. case_match eqn:Hc.
    - apply andb_true_iff in Hc as [[Hev%String.eqb_eq Hh]%andb_true_iff Hs%str_in_two].
      split; [intros Ha; exists x; by rewrite Hev|intros (y & [= <-] & ? & ? & ? & ?); done].
    - split; [by intros ?%not_elem_of_nil|]. intros (y & [= <-] & [= Hy] & Hh & Hs%str_in_two & _). exfalso.
      cbv beta zeta in Hc. rewrite Hh, Hs, <- Hy, String.eqb_refl in Hc. done. }
  set (theirs := List.filter (fun a => bool_decide (hl_event_id a = Some event_id)) timeline).
  assert (forall a, a ∈ theirs <-> a ∈ timeline /\ hl_event_id a = Some event_id) as Htheirs.
  { intros a. unfold theirs. rewrite list_elem_of_In, filter_In, <- list_elem_of_In. by rewrite bool_decide_eq_true. }
  assert (forall a, a ∈ sort_by by_artifact_id (List.filter is_cat_recording (mine ++ theirs))
           <-> is_cat_recording a = true /\ (a ∈ mine \/ a ∈ theirs)) as Hall.
  { intros a. rewrite sort_by_perm. rewrite list_elem_of_In, filter_In, <- list_elem_of_In, elem_of_app. tauto. }
  split; intros a Ha.
  - apply dedup_by_in, Hall in Ha. rewrite Hmine, Htheirs in Ha. tauto.
  - apply (dedup_by_key hl_artifact_id _ a). apply Hall. rewrite Hmine, Htheirs. tauto.
Qed.

(** Its steps. *)
Lemma ledger_remove_spec cam w w' :
  ledger (LedgerRemove cam) w = (Ok tt, w') ->
  held w' = base.delete cam (held w) /\ cp_states w' = cp_states w /\ cp_queue w' = cp_queue w /\ cp_asked w' = cp_asked w.
Proof.
  unfold ledger. destruct (ledger_op _ _) as [r l] eqn:E. intros [= -> <-]. cbn. split; [|done].
  pose proof (ledger_op_ok (LedgerRemove cam) (cp_ledger w)) as Hop. rewrite E in Hop. by apply Hop.
Qed.

Lemma forget_spec cam w w' :
  forget cam w = (Ok tt, w') ->
  cp_states w' = base.delete cam (cp_states w) /\ held w' = base.delete cam (held w) /\ cp_queue w' = cp_queue w
  /\ cp_asked w' = cp_asked w.
Proof.
  unfold forget, bind. destruct (ledger _ w) as [[[]|e] w1] eqn:E; [|done]. apply ledger_remove_spec in E as (H1 & H2 & H3 & H4).
  intros [= <-]. cbn. by rewrite H1, H2, H3, H4.
Qed.

(** What reconciling a state comes to, when it succeeds. *)
Definition handed_over (st : CatRecordingReconciliationState) (lease : option HarborLinkEventRecordingLease) w' : Prop :=
  exists timeline,
    (timeline = [] \/ exists h, link_timeline h (rs_camera_id st) = Ok timeline)
    /\ (exists a, ended_recording st lease timeline a)
    /\ (mode <> ModeOff -> forall a, ended_recording st lease timeline a -> queued w' a).

Definition never_began (st : CatRecordingReconciliationState) (lease : option HarborLinkEventRecordingLease) : Prop :=
  lease = None /\ rs_phase st = PendingStart
  /\ exists tick, (CAT_RECORDING_PENDING_START_TIMEOUT_MS <= saturating_sub (epoch_ms tick) (rs_created_at_epoch_ms st))%Z.

Lemma ended_spec st event_id lease w w' :
  rs_event_id st = Some event_id -> reconcile_ended mode st event_id lease w = (Ok tt, w') ->
  cp_states w' = base.delete (rs_camera_id st) (cp_states w) /\ held w' = base.delete (rs_camera_id st) (held w)
  /\ (handed_over st lease w' \/ never_began st lease).
Proof.
  intros He. unfold reconcile_ended. set (m := match reconciliation_terminal_artifacts st lease [] with [] => _ | _ => _ end).
  unfold bind at 1. destruct (m w) as [[artifacts|e] w1] eqn:E; [|done].
  assert (cp_states w1 = cp_states w /\ cp_ledger w1 = cp_ledger w
          /\ exists timeline, artifacts = reconciliation_terminal_artifacts st lease timeline
               /\ (timeline = [] \/ exists h, link_timeline h (rs_camera_id st) = Ok timeline)) as (Hst & Hle & timeline & -> & Htl).
  { unfold m in E. destruct (reconciliation_terminal_artifacts st lease []) as [|a l] eqn:Ha.
    - unfold bind, recording_timeline, answered in E. destruct (link_timeline _ _) as [timeline|e] eqn:Hl; [|done].
      injection E as <- <-. split; [done|]. split; [done|]. exists timeline. split; [done|]. right. by eexists.
    - injection E as <- <-. split; [done|]. split; [done|]. exists []. split; [by rewrite Ha|by left]. }
  destruct (terminal_artifacts_spec st event_id lease timeline He) as [Hsound Hcomplete].
  destruct (reconciliation_terminal_artifacts st lease timeline) as [|a l] eqn:Ha.
  - unfold bind at 1. destruct (decide (rs_phase st = PendingStart)) as [Hp|Hp].
    + unfold bind at 1. cbn [draw]. cbn. set (w2 := {| cp_tick := _ |}). case_match eqn:Hc; [|done].
      apply andb_true_iff in Hc as [Hn Hx%Z.leb_le]. intros (-> & -> & _)%forget_spec. cbn. rewrite Hst, Hle.
      split; [done|]. split; [done|]. right. destruct lease; [done|]. split; [done|]. split; [done|]. by eexists.
    + cbn. rewrite andb_false_r. done.
  - unfold bind at 1. destruct (register_cat_recording_validation_artifacts mode (a :: l) (rs_detection_evidence st) w1) as [[n|e] w2] eqn:Er; [|done].
    pose proof (register_books (a :: l) (rs_detection_evidence st) w1) as (B1 & B2 & _). rewrite Er in B1, B2. cbn in B1, B2.
    intros (-> & -> & Hq & _)%forget_spec. rewrite B1, B2, Hst, Hle. split; [done|]. split; [done|]. left. exists timeline.
    split; [done|]. split; [exists a; apply Hsound; by left|]. intros Hm b Hb. destruct (Hcomplete b Hb) as (c & Hc & Hid).
    unfold queued. rewrite Hq, <- Hid. eapply (register_queued _ _ _ _ _ c Hm Er Hc). by apply Hsound.
Qed.

(** The ledger failed to remove an entry. *)
Definition removal_fails (cam : string) : Prop := exists l, (ledger_op (LedgerRemove cam) l).1 <> Ok tt.

Lemma forget_err cam w e w' : forget cam w = (Err e, w') -> cp_states w' = cp_states w /\ removal_fails cam.
Proof.
  unfold forget, bind, ledger. destruct (ledger_op _ _) as [[[]|e'] l] eqn:E; [done|]. intros [= _ <-]. split; [done|].
  exists (cp_ledger w). by rewrite E.
Qed.

Lemma ended_err st event_id lease w e w' :
  reconcile_ended mode st event_id lease w = (Err e, w') ->
  cp_states w' = cp_states w /\ (held w' = held w \/ removal_fails (rs_camera_id st)).
Proof.
  unfold reconcile_ended. set (m := match reconciliation_terminal_artifacts st lease [] with [] => _ | _ => _ end).
  assert (forall r w1, m w = (r, w1) -> cp_states w1 = cp_states w /\ cp_ledger w1 = cp_ledger w) as Hm.
  { intros r w1. unfold m. destruct (reconciliation_terminal_artifacts st lease []); [|by intros [= _ <-]].
    unfold bind, recording_timeline, answered. by destruct (link_timeline _ _); intros [= _ <-]. }
  unfold bind at 1. destruct (m w) as [[artifacts|e1] w1] eqn:E; destruct (Hm _ _ eq_refl) as [<- <-]; [|intros [= _ <-]; auto].
  destruct artifacts as [|a l].
  - unfold bind at 1. destruct (decide (rs_phase st = PendingStart)).
    + unfold bind at 1. cbn. case_match; [intros [-> ?]%forget_err; auto|intros [= _ <-]; auto].
    + cbn. rewrite andb_false_r. intros [= _ <-]. auto.
  - unfold bind at 1. pose proof (register_books (a :: l) (rs_detection_evidence st) w1) as (B & B' & _).
    destruct (register_cat_recording_validation_artifacts _ _ _ w1) as [[n|e2] w2]; cbn in B, B'; rewrite <- B, <- B';
      [intros [? ?]%forget_err; auto|intros [= _ <-]; auto].
Qed.

(** What reconciling does to memory and to the ledger. *)
Lemma reconciling_steps st event_id w r w' :
  rs_event_id st = Some event_id -> reconcile_cat_recording mode st w = (r, w') ->
  match r with
  | Ok _ =>
      (exists lease, cp_states w' = <[rs_camera_id st := recovered st event_id lease]> (cp_states w)
         /\ held w' = <[rs_camera_id st := recovered st event_id lease]> (held w))
      \/ (cp_states w' = base.delete (rs_camera_id st) (cp_states w) /\ held w' = base.delete (rs_camera_id st) (held w))
  | Err _ =>
      cp_states w' = cp_states w
      /\ (held w' = held w \/ removal_fails (rs_camera_id st)
          \/ exists lease l, (ledger_op (LedgerUpsert (recovered st event_id lease)) l).1 <> Ok tt)
  end.
Proof.
  intros He. unfold reconcile_cat_recording. rewrite He. unfold bind at 1. unfold attempt, ask, answered.
  set (w1 := {| cp_asked := _ |}).
  assert (forall lease r, reconcile_ended mode st event_id lease w1 = (r, w') -> match r with
    | Ok _ => cp_states w' = base.delete (rs_camera_id st) (cp_states w) /\ held w' = base.delete (rs_camera_id st) (held w)
    | Err _ => cp_states w' = cp_states w /\ (held w' = held w \/ removal_fails (rs_camera_id st)) end) as Hended.
  { intros lease [[]|e] Hr; [|by apply ended_err in Hr]. by apply (ended_spec st event_id _ _ _ He) in Hr as (? & ? & _). }
  destruct (link_lease _ _) as [lease|error].
  - destruct (in_progress event_id lease) eqn:Hp.
    + unfold bind. destruct (ledger _ w1) as [[[]|e] w2] eqn:El.
      * apply ledger_upsert_spec in El as (Hh & _ & Hs & _). intros [= <- <-]. left. exists lease. cbn. by rewrite Hs, Hh.
      * intros [= <- <-]. unfold ledger in El. destruct (ledger_op _ _) as [x l] eqn:Eo. injection El as -> <-. split; [done|].
        right; right. exists lease, (cp_ledger w1). by rewrite Eo.
    + intros Hr%Hended. destruct r; [auto|tauto].
  - destruct (is_not_found error); [|intros [= <- <-]; auto]. intros Hr%Hended. destruct r; [auto|tauto].
Qed.

(** C7. Reconciling loses nothing. When it succeeds, a recording that HarborLink has in
    progress is held with its lease, in memory and in the ledger; and one is forgotten
    only when HarborLink recorded at least one file of it, and what it recorded is in the
    queue of validations unless validation is off (which it is by default, and then
    queues nothing), or when HarborLink answered that it knows of none, thirty seconds
    or more after it was to start. When it fails memory is as it was. *)
Theorem reconciling_loses_nothing st event_id w r w' :
  rs_event_id st = Some event_id -> reconcile_cat_recording mode st w = (r, w') ->
  let answer := link_lease (fst <$> cp_asked w) (status_call st) in
  match r with
  | Ok _ =>
      (exists lease, answer = Ok lease /\ in_progress event_id lease = true
         /\ cp_states w' = <[rs_camera_id st := recovered st event_id lease]> (cp_states w)
         /\ held w' = <[rs_camera_id st := recovered st event_id lease]> (held w))
      \/ (cp_states w' = base.delete (rs_camera_id st) (cp_states w) /\ held w' = base.delete (rs_camera_id st) (held w)
          /\ ((exists lease, answer = Ok lease /\ in_progress event_id lease = false /\ handed_over st (Some lease) w')
              \/ exists error, answer = Err error /\ is_not_found error = true
                   /\ (handed_over st None w' \/ never_began st None)))
  | Err _ => cp_states w' = cp_states w
  end.
Proof.
  intros He. unfold reconcile_cat_recording. rewrite He. unfold bind at 1. unfold attempt, ask, answered. cbn zeta.
  set (w1 := {| cp_asked := _ |}). destruct (link_lease _ _) as [lease|error].
  - destruct (in_progress event_id lease) eqn:Hp.
    + unfold bind. destruct (ledger _ w1) as [[[]|e] w2] eqn:El.
      * apply ledger_upsert_spec in El as (Hh & _ & Hs & _). intros [= <- <-]. left. exists lease. cbn. by rewrite Hs, Hh.
      * intros [= <- <-]. unfold ledger in El. destruct (ledger_op _ _). by injection El as _ <-.
    + intros Hr. destruct r as [[]|e]; [|by apply ended_err in Hr as [Hr _]].
      right. apply (ended_spec st event_id _ _ _ He) in Hr as (-> & -> & Hr). split; [done|]. split; [done|]. left. exists lease.
      split; [done|]. split; [done|]. by destruct Hr as [Hr|[? _]].
  - destruct (is_not_found error) eqn:Hn; [|by intros [= <- <-]].
    intros Hr. destruct r as [[]|e]; [|by apply ended_err in Hr as [Hr _]].
    right. apply (ended_spec st event_id _ _ _ He) in Hr as (-> & -> & Hr). split; [done|]. split; [done|]. right. by exists error.
Qed.

(** * Memory and the ledger *)

(** The same recording, at the same point. *)
Definition same_recording (a b : CatRecordingReconciliationState) : Prop :=
  rs_event_id a = rs_event_id b /\ rs_lease_id a = rs_lease_id b /\ rs_phase a = rs_phase b
  /\ rs_created_at_epoch_ms a = rs_created_at_epoch_ms b /\ rs_last_renewed_epoch_ms a = rs_last_renewed_epoch_ms b
  /\ rs_detection_evidence a = rs_detection_evidence b.

Definition told_to_stop w (cam : string) (st : CatRecordingReconciliationState) : Prop :=
  exists lease_id l, rs_lease_id st = Some lease_id /\ (StopEventRecording cam lease_id, l) ∈ cp_asked w.

(** Of a recording in memory. *)
Definition covered w (cam : string) (st : CatRecordingReconciliationState) : Prop :=
  (exists e, held w !! cam = Some e /\ same_recording st e) \/ told_to_stop w cam st.

Definition well_named (cam : string) (st : CatRecordingReconciliationState) : Prop :=
  rs_camera_id st = cam /\ is_blank cam = false
  /\ (rs_event_id st <> None -> rs_phase st = Active -> rs_lease_id st <> None).

Lemma well_named_self cam st : well_named cam st -> well_named (rs_camera_id st) st.
Proof. intros Hn. by rewrite (proj1 Hn). Qed.

Record agrees w : Prop := {
  ag_memory : forall cam st, cp_states w !! cam = Some st -> well_named cam st;
  ag_ledger : forall cam e, held w !! cam = Some e -> well_named cam e;
  ag_covered : forall cam st, cp_states w !! cam = Some st -> rs_event_id st <> None -> covered w cam st
}.

Definition asked_within w w' : Prop := forall x, x ∈ cp_asked w -> x ∈ cp_asked w'.

Lemma asks_within {A} P (m : Act A) w : asks P m w -> asked_within w (m w).2.
Proof. intros H x Hx. induction H as [|call l b _ IH _]; [done|by right]. Qed.

(** What only asks. *)
Lemma agrees_neutral w w' :
  cp_states w' = cp_states w -> held w' = held w -> asked_within w w' -> agrees w -> agrees w'.
Proof.
  intros Hs Hh Ha []. split; rewrite ?Hs, ?Hh; [done|done|]. intros cam st Hst He.
  destruct (ag_covered0 cam st Hst He) as [(e & H1 & H2)|(lease_id & l & H1 & H2)].
  - left. rewrite Hh. by exists e.
  - right. exists lease_id, l. auto.
Qed.

(** A camera's state is replaced in both. *)
Lemma agrees_insert cam st w w' :
  cp_states w' = <[cam := st]> (cp_states w) -> held w' = <[cam := st]> (held w) -> asked_within w w' ->
  well_named cam st -> agrees w -> agrees w'.
Proof.
  intros Hs Hh Ha Hn [Hm Hl Hc]. split; rewrite ?Hs, ?Hh.
  - intros c x [[<- <-]|[Hne Hx]]%lookup_insert_Some; auto.
  - intros c x [[<- <-]|[Hne Hx]]%lookup_insert_Some; auto.
  - intros c x [[<- <-]|[Hne Hx]]%lookup_insert_Some He.
    + left. exists st. rewrite Hh, lookup_insert_eq. by repeat split.
    + destruct (Hc c x Hx He) as [(e & H1 & H2)|(lease_id & l & H1 & H2)].
      * left. exists e. by rewrite Hh, lookup_insert_ne.
      * right. exists lease_id, l. auto.
Qed.

(** It is taken out of the ledger, and in memory has no recording any more, or was told
    to stop. *)
Lemma agrees_remove cam w w' :
  held w' = base.delete cam (held w) -> asked_within w w' ->
  (forall c, c <> cam -> cp_states w' !! c = cp_states w !! c) ->
  (forall st, cp_states w' !! cam = Some st -> well_named cam st /\ (rs_event_id st <> None -> told_to_stop w' cam st)) ->
  agrees w -> agrees w'.
Proof.
  intros Hh Ha Hs Hcam [Hm Hl Hc]. split.
  - intros c x Hx. destruct (decide (c = cam)) as [->|Hne]; [by apply Hcam|]. rewrite Hs in Hx by done. auto.
  - rewrite Hh. intros c x [_ Hx]%lookup_delete_Some. auto.
  - intros c x Hx He. destruct (decide (c = cam)) as [->|Hne]; [right; by apply Hcam|]. rewrite Hs in Hx by done.
    destruct (Hc c x Hx He) as [(e & H1 & H2)|(lease_id & l & H1 & H2)].
    + left. exists e. by rewrite Hh, lookup_delete_ne.
    + right. exists lease_id, l. auto.
Qed.

(** Only the memory changes, to the same recording or none. *)
Lemma agrees_put cam st st0 w :
  well_named cam st -> (rs_event_id st <> None -> cp_states w !! cam = Some st0 /\ same_recording st st0) ->
  agrees w -> agrees (put_state cam st w).2.
Proof.
  intros Hn Hst [Hm Hl Hc]. split; cbn; [|done|].
  - intros c x [[<- <-]|[Hne Hx]]%lookup_insert_Some; auto.
  - intros c x [[<- <-]|[Hne Hx]]%lookup_insert_Some He; [|by apply Hc].
    destruct (Hst He) as [H0 Hsame]. destruct (Hc cam st0 H0) as [(e & H1 & H2)|(lease_id & l & H1 & H2)].
    + by destruct Hsame as [<- _].
    + left. exists e. split; [done|]. unfold same_recording in *. intuition congruence.
    + right. exists lease_id, l. split; [|done]. by destruct Hsame as (_ & -> & _).
Qed.

(** The ledger does not fail. *)
Definition ledger_sure : Prop :=
  forall op (l : L), match op with LedgerUpsert st => is_blank (rs_camera_id st) = false | LedgerRemove _ => True end ->
    (ledger_op op l).1 = Ok tt.

Section sure.
Context (sure : ledger_sure).

Lemma agrees_bind {A B} (m : Act A) (k : A -> Act B) w :
  agrees (m w).2 -> (forall a w', m w = (Ok a, w') -> agrees w' -> agrees (k a w').2) -> agrees (bind m k w).2.
Proof. unfold bind. intros Hm Hk. destruct (m w) as [[a|e] w'] eqn:E; [by apply Hk|done]. Qed.

Lemma agrees_attempt {A} (m : Act A) w : agrees (m w).2 -> agrees (attempt m w).2.
Proof. unfold attempt. by destruct (m w). Qed.

Lemma agrees_answered {A} (f : list LinkCall -> result string A) call w : agrees w -> agrees (answered f call w).2.
Proof. apply agrees_neutral; [done|done|]. intros x Hx. by right. Qed.

Lemma agrees_draw {A} (f : nat -> A) w : agrees w -> agrees (draw f w).2.
Proof. apply agrees_neutral; [done|done|]. by intros x. Qed.

Lemma agrees_register artifacts evidence w :
  agrees w -> agrees (register_cat_recording_validation_artifacts mode artifacts evidence w).2.
Proof.
  destruct (register_books artifacts evidence w) as (H1 & H2 & H3). apply agrees_neutral; [done|by rewrite H2|].
  unfold asked_within. by rewrite H3.
Qed.

Lemma sure_upsert st w : is_blank (rs_camera_id st) = false -> exists w', ledger (LedgerUpsert st) w = (Ok tt, w').
Proof.
  intros Hb. pose proof (sure (LedgerUpsert st) (cp_ledger w) Hb) as Hs. unfold ledger. destruct (ledger_op _ _) as [r l].
  cbn in Hs. rewrite Hs. eauto.
Qed.

Lemma sure_remove cam w : exists w', ledger (LedgerRemove cam) w = (Ok tt, w').
Proof.
  pose proof (sure (LedgerRemove cam) (cp_ledger w) I) as Hs. unfold ledger. destruct (ledger_op _ _) as [r l].
  cbn in Hs. rewrite Hs. eauto.
Qed.

Lemma removal_sure cam : ~ removal_fails cam.
Proof. intros [l Hl]. by apply Hl, (sure (LedgerRemove cam)). Qed.

(** Memory, then the ledger. *)
Lemma agrees_save {A} cam st (k : unit -> Act A) w :
  well_named cam st -> agrees w ->
  (forall w', agrees w' -> cp_states w' !! cam = Some st -> agrees (k tt w').2) ->
  agrees (bind (put_state cam st) (fun _ => bind (ledger (LedgerUpsert st)) k) w).2.
Proof.
  intros Hn Ha Hk. unfold bind. cbn. set (w1 := {| cp_states := _ |}).
  destruct (sure_upsert st w1) as [w2 E]; [by destruct Hn as (-> & ? & _)|]. rewrite E.
  apply ledger_upsert_spec in E as (Hh & Hq & Hs & _). apply Hk.
  - apply (agrees_insert cam st w); [by rewrite Hs|rewrite Hh; by destruct Hn as (-> & _)|by unfold asked_within; rewrite Hq|done..].
  - rewrite Hs. apply lookup_insert_eq.
Qed.

Lemma agrees_save_end cam st w :
  well_named cam st -> agrees w -> agrees (bind (put_state cam st) (fun _ => ledger (LedgerUpsert st)) w).2.
Proof.
  intros Hn Ha. assert (agrees (bind (put_state cam st) (fun _ => bind (ledger (LedgerUpsert st)) ret) w).2) as H.
  { apply agrees_save; [done|done|]. by intros. }
  revert H. unfold bind. cbn. by destruct (ledger _ _) as [[[]|e] w2].
Qed.

Lemma agrees_forget cam w : agrees w -> agrees (forget cam w).2.
Proof.
  intros Ha. destruct (forget cam w) as [[[]|e] w'] eqn:E.
  - apply forget_spec in E as (Hs & Hh & _ & Hq). cbn. apply (agrees_remove cam w); [done|by unfold asked_within; rewrite Hq| | |done].
    + intros c Hc. rewrite Hs. by apply lookup_delete_ne.
    + intros st. rewrite Hs, lookup_delete_eq. done.
  - apply forget_err in E as [_ E]. by apply removal_sure in E.
Qed.

Lemma agrees_reconcile st w : well_named (rs_camera_id st) st -> agrees w -> agrees (reconcile_cat_recording mode st w).2.
Proof.
  intros Hn Ha. destruct (reconcile_cat_recording mode st w) as [r w'] eqn:E. cbn.
  assert (asked_within w w') as Hq.
  { pose proof (asks_within (fun _ _ _ => True) (reconcile_cat_recording mode st) w) as H. rewrite E in H. apply H.
    by apply asks_reconcile. }
  destruct (rs_event_id st) as [event_id|] eqn:He; [|unfold reconcile_cat_recording in E; rewrite He in E; by injection E as _ <-].
  pose proof (reconciling_steps st event_id w r w' He E) as Hr. destruct r as [[]|e].
  - destruct Hr as [(lease & Hs & Hh)|[Hs Hh]].
    + apply (agrees_insert (rs_camera_id st) (recovered st event_id lease) w); try done. destruct Hn as (_ & Hb & _). by split.
    + apply (agrees_remove (rs_camera_id st) w); try done.
      * intros c Hc. rewrite Hs. by apply lookup_delete_ne.
      * intros x. by rewrite Hs, lookup_delete_eq.
  - destruct Hr as (Hs & [Hh|[Hh|Hh]]); [by apply (agrees_neutral w)|by apply removal_sure in Hh|].
    destruct Hh as (lease & l & Hl). exfalso. apply Hl, (sure (LedgerUpsert _)). by destruct Hn as (_ & ? & _).
Qed.

Lemma agrees_after_link_error st error w :
  well_named (rs_camera_id st) st -> agrees w -> agrees (reconcile_cat_recording_after_link_error mode st error w).2.
Proof.
  intros Hn Ha. apply agrees_bind; [by apply agrees_attempt, agrees_reconcile|]. by intros [[]|e] w' _.
Qed.

Lemma agrees_reconcile_all states failed first_error w :
  Forall (fun st => well_named (rs_camera_id st) st) states -> agrees w -> agrees (reconcile_all mode states failed first_error w).2.
Proof.
  intros Hs. revert failed first_error w. induction Hs as [|st states Hst _ IH]; intros failed first_error w Ha; [done|]. cbn.
  apply agrees_bind; [by apply agrees_attempt, agrees_reconcile|]. intros [[]|e] w' _; apply IH.
Qed.

Lemma agrees_reconcile_states w : agrees w -> agrees (reconcile_cat_recordings_with_failures mode w).2.
Proof.
  intros Ha. apply agrees_bind; [done|]. intros states w' [= <- <-] _. apply agrees_reconcile_all; [|done].
  apply Forall_forall. intros st (cam & Hst)%elem_of_values. by eapply well_named_self, (ag_memory w Ha cam).
Qed.

Lemma agrees_end cam lease_id st (next : Act unit) w :
  well_named cam st -> agrees w -> (forall w', agrees w' -> cp_states w' !! cam = Some (fresh cam) -> agrees (next w').2) ->
  agrees (end_recording mode cam lease_id st next w).2.
Proof.
  intros Hn Ha Hnext. apply agrees_bind; [by apply agrees_attempt, agrees_answered|]. intros [stopped|e] w1 _ A1.
  - apply agrees_bind; [by apply agrees_register|]. intros n w2 _ A2. unfold bind.
    destruct (sure_remove cam w2) as [w3 E]. rewrite E. apply ledger_remove_spec in E as (Hh & Hs & _ & Hq). apply Hnext.
    + apply (agrees_remove cam w2); cbn; [done|by unfold asked_within; cbn; rewrite Hq| | |done].
      * intros c Hc. by rewrite lookup_insert_ne, Hs.
      * intros x. rewrite lookup_insert_eq. intros [= <-]. split; [|done]. destruct Hn as (_ & Hb & _). by split.
    + apply lookup_insert_eq.
  - apply agrees_after_link_error; [by eapply well_named_self|done].
Qed.

Section process.
Context (cam profile : string) (config : CatAutoRecordingConfig) (now : Z) (named : is_blank cam = false).

Lemma act_bind_ok {A B} (m : Act A) (k : A -> Act B) w b w' :
  bind m k w = (Ok b, w') -> exists a w1, m w = (Ok a, w1) /\ k a w1 = (Ok b, w').
Proof. unfold bind. destruct (m w) as [[a|e] w1]; [|done]. eauto. Qed.

Lemma ask_recording_camera s st w st' lease w' :
  ask_recording cam profile now s st w = (Ok (st', lease), w') -> rs_camera_id st' = rs_camera_id st.
Proof.
  intros (event_id & w1 & _ & H)%act_bind_ok. cbv zeta in H. apply act_bind_ok in H as (? & w2 & _ & H).
  apply act_bind_ok in H as (? & w3 & _ & H). apply act_bind_ok in H as (lease' & w4 & _ & [= <- <- <-]). by destruct (sees_cat s).
Qed.

Lemma agrees_ask_recording s st w :
  rs_camera_id st = cam -> agrees w -> agrees (ask_recording cam profile now s st w).2.
Proof.
  intros Hcam Ha. apply agrees_bind; [by apply agrees_draw|]. intros event_id w1 _ A1. cbv zeta.
  apply agrees_save; [|done|].
  - destruct (sees_cat s); by split.
  - intros w2 A2 _. apply agrees_bind; [|by intros]. apply agrees_bind; [by apply agrees_answered|by intros].
Qed.

Lemma agrees_start_recording s st w :
  rs_camera_id st = cam -> agrees w -> agrees (start_recording mode cam profile now s st w).2.
Proof.
  intros Hcam Ha. apply agrees_bind; [by apply agrees_attempt, agrees_answered|]. intros current w1 _ A1. cbv zeta.
  set (current_lease := match current with Ok lease => if is_harborbeacon_cat_event_recording lease then Some lease else None | Err _ => None end).
  apply agrees_bind.
  - destruct current_lease as [lease|]; [|by apply agrees_ask_recording]. destruct (reusable_cat_event_recording lease profile); [done|].
    apply agrees_bind; [by apply agrees_answered|]. intros stopped w2 _ A2.
    apply agrees_bind; [by apply agrees_register|]. intros n w3 _ A3. by apply agrees_ask_recording.
  - intros [st' lease] w2 E A2. assert (rs_camera_id st' = cam) as Hcam'.
    { revert E. destruct current_lease as [x|]; [destruct (reusable_cat_event_recording x profile); [by intros [= <- <-]|]|].
      - intros (stopped & w3 & _ & H')%act_bind_ok. apply act_bind_ok in H' as (n & w4 & _ & ->%ask_recording_camera). done.
      - by intros ->%ask_recording_camera. }
    apply agrees_save; [by split|done|]. intros w3 A3 _. exact A3.
Qed.

(** What a state answered by a step is in memory. *)
Definition current w (st : CatRecordingReconciliationState) : Prop := cp_states w !! cam = Some st /\ agrees w.

Lemma current_named w st : current w st -> well_named cam st.
Proof. intros [Hs Ha]. by apply (ag_memory w Ha). Qed.

Lemma saved_current st (k : unit -> Act CatRecordingReconciliationState) w st' w' :
  (forall w1, k tt w1 = (Ok st, w1)) ->
  bind (put_state cam st) (fun _ => bind (ledger (LedgerUpsert st)) k) w = (Ok st', w') ->
  st' = st /\ cp_states w' !! cam = Some st.
Proof.
  intros Hk (u & w1 & E1 & H)%act_bind_ok. apply act_bind_ok in H as ([] & w2 & (_ & _ & Hs & _)%ledger_upsert_spec & H).
  rewrite Hk in H. injection H as <- <-. split; [done|]. rewrite Hs. injection E1 as _ <-. apply lookup_insert_eq.
Qed.

Lemma start_current s st w st' w' : start_recording mode cam profile now s st w = (Ok st', w') -> cp_states w' !! cam = Some st'.
Proof.
  intros (c & w1 & _ & H)%act_bind_ok. cbv zeta in H. apply act_bind_ok in H as ([st1 lease] & w2 & _ & H).
  by apply saved_current in H as [-> ?].
Qed.

Lemma evidence_current ns st w st' w' :
  current w st -> agrees w' -> keep_evidence cam ns st w = (Ok st', w') -> current w' st'.
Proof.
  intros [Hc Ha] Ha' H. split; [|done]. revert H. unfold keep_evidence. destruct ns as [s|]; [|by intros [= <- <-]].
  case_match; [|by intros [= <- <-]]. cbv zeta. by intros [-> ?]%saved_current.
Qed.

Lemma agrees_evidence ns st w : current w st -> agrees (keep_evidence cam ns st w).2.
Proof.
  intros Hc. pose proof (current_named w st Hc) as Hn. destruct Hc as [Hc Ha]. unfold keep_evidence. destruct ns as [s|]; [|done].
  case_match; [|done]. cbv zeta. apply agrees_save; [exact Hn|done|]. by intros w1 A1 _.
Qed.

Lemma agrees_renew lease_id st w : current w st -> rs_lease_id st <> None -> agrees (renew_recording mode cam now lease_id st w).2.
Proof.
  intros Hc Hl. pose proof (current_named w st Hc) as Hn. destruct Hc as [Hc Ha].
  apply agrees_bind; [by apply agrees_attempt, agrees_answered|]. intros [renewed|e] w1 _ A1.
  - cbv zeta. apply agrees_save_end; [destruct Hn as (? & ? & _); by split|done].
  - apply agrees_after_link_error; [by eapply well_named_self|done].
Qed.

Lemma agrees_put_current st st' w :
  current w st -> same_recording st' st -> rs_camera_id st' = cam -> agrees (put_state cam st' w).2.
Proof.
  intros Hc Hs Hcam. pose proof (current_named w st Hc) as (_ & Hb & Hp). destruct Hc as [Hc Ha].
  apply (agrees_put cam st' st); [|done|done]. split; [done|]. split; [done|]. by destruct Hs as (-> & -> & -> & _).
Qed.

Lemma agrees_sample sample st w : current w st -> agrees (process_sample mode cam profile config now sample st w).2.
Proof.
  intros Hc. pose proof (current_named w st Hc) as (Hcam & _). unfold process_sample. cbv zeta.
  set (ns := match sample with Some s => if is_new_cat_detection_sequence _ s then Some s else None | None => None end).
  set (st1 := match ns with Some s => with_sequence (ds_sequence s) (with_profile profile st) | None => with_profile profile st end).
  assert (rs_camera_id st1 = cam /\ same_recording st1 st) as [H1 H2] by (unfold st1; destruct ns; by repeat split).
  set (t := match ns with Some s => cat_auto_recording_transition _ s config | None => Hold end).
  apply agrees_bind; [by eapply agrees_put_current|]. intros [] w1 [= <-] A1. set (w1 := {| cp_states := _ |}) in *.
  assert (current w1 st1) as C1 by (split; [apply lookup_insert_eq|done]).
  apply agrees_bind.
  { destruct t; [done| |done]. destruct ns as [s|]; [by apply agrees_start_recording|done]. }
  intros st2 w2 E2 A2. assert (current w2 st2) as C2.
  { destruct t; [by injection E2 as <- <-| |by injection E2 as <- <-]. destruct ns as [s|]; [|done]. split; [by eapply start_current|done]. }
  apply agrees_bind; [by apply agrees_evidence|]. intros st3 w3 E3 A3. pose proof (evidence_current ns st2 w2 st3 w3 C2 A3 E3) as C3.
  destruct (rs_lease_id st3) as [lease_id|] eqn:Hl; [|done]. destruct (decide (t = Stop)).
  - apply agrees_end; [by eapply current_named|done|]. by intros.
  - destruct (is_some sample && _); [apply agrees_renew; [done|congruence]|done].
Qed.

End process.

Lemma agrees_process cam profile result config w :
  is_blank cam = false -> agrees w -> agrees (process_cat_detection_result mode cam profile result config w).2.
Proof.
  intros named Ha. apply agrees_bind; [by apply agrees_draw|]. intros t w1 [= <- <-] A1. apply agrees_bind; [done|]. intros states w2 [= <- <-] _.
  cbv zeta. cbn [cp_states]. set (st := with_camera cam (default default_state (cp_states w !! cam))).
  set (w1 := {| cp_tick := _ |}) in *.
  assert (agrees (put_state cam st w1).2) as A2.
  { apply (agrees_put cam st (default default_state (cp_states w !! cam))); [| |done].
    - unfold st. destruct (cp_states w !! cam) as [x|] eqn:E; [|by split]. pose proof (ag_memory w Ha cam x E) as (_ & ? & ?). by split.
    - unfold st. cbn. destruct (cp_states w !! cam) as [x|]; [|done]. by repeat split. }
  apply agrees_bind; [done|]. intros [] w2 [= <-] _.
  assert (current cam (put_state cam st w1).2 st) as C2 by (split; [apply lookup_insert_eq|done]).
  destruct (match rs_stream_profile st with Some active => _ | None => _ end).
  - destruct (rs_lease_id st) as [lease_id|].
    + apply agrees_end; [by eapply current_named|done|]. intros w3 A3 H3. by apply agrees_sample.
    + apply agrees_bind; [apply (agrees_put cam _ st); [by split|done|done]|]. intros [] w3 [= <-] A3.
      apply agrees_sample; [done|]. split; [apply lookup_insert_eq|done].
  - by apply agrees_sample.
Qed.

Lemma agrees_samples samples config first_error w :
  Forall (fun x => is_blank x.1.1 = false) samples -> agrees w -> agrees (process_samples mode samples config first_error w).2.
Proof.
  intros Hs. revert first_error w. induction Hs as [|[[cam profile] result] samples Hb _ IH]; intros first_error w Ha; [done|]. cbn.
  apply agrees_bind; [by apply agrees_attempt, agrees_process|]. intros r w1 _ A1. by apply IH.
Qed.

Lemma delete_all_lookup (l : list string) (m : gmap string CatRecordingReconciliationState) c x :
  foldl (fun m cam => base.delete cam m) m l !! c = Some x -> m !! c = Some x.
Proof.
  revert m. induction l as [|cam l IH]; intros m; [done|]. cbn. intros H%IH. by apply lookup_delete_Some in H as [_ H].
Qed.

Lemma agrees_stop_each active failed states completed w :
  (forall cam st, (cam, st) ∈ states -> cp_states w !! cam = Some st) -> agrees w ->
  agrees (stop_each mode active failed states completed w).2.
Proof.
  revert completed w. induction states as [|[cam st] states IH]; intros completed w Hin Ha; cbn.
  { destruct Ha as [Hm Hl Hc]. split; cbn; [|done|]; [intros c x ?%delete_all_lookup; auto|].
    intros c x H%delete_all_lookup He. exact (Hc c x H He). }
  pose proof (Hin cam st ltac:(by left)) as Hst. pose proof (ag_memory w Ha cam st Hst) as Hn.
  destruct (_ || bool_decide (rs_phase st = PendingStart)) eqn:Hskip; [apply IH; [intros c x Hx; apply Hin; by right|done]|].
  apply orb_false_iff in Hskip as [_ Hphase%bool_decide_eq_false].
  assert (rs_phase st = Active) as Hactive by (by destruct (rs_phase st)).
  assert (forall w', cp_states w' = cp_states w -> agrees w' -> (rs_event_id st <> None -> told_to_stop w' cam st) ->
    agrees (bind (ledger (LedgerRemove cam)) (fun _ => stop_each mode active failed states (cam :: completed)) w').2) as Hnext.
  { intros w' Hs A' Ht. unfold bind. destruct (sure_remove cam w') as [w2 E]. rewrite E.
    apply ledger_remove_spec in E as (Hh & Hs2 & _ & Hq). apply IH.
    - intros c x Hx. rewrite Hs2, Hs. apply Hin. by right.
    - apply (agrees_remove cam w'); [done|by unfold asked_within; rewrite Hq|by intros; rewrite Hs2| |done].
      intros x Hx. rewrite Hs2, Hs, Hst in Hx. injection Hx as <-. split; [done|]. intros He. unfold told_to_stop. rewrite Hq. by apply Ht. }
  destruct (rs_lease_id st) as [lease_id|] eqn:Hl.
  - apply agrees_bind; [by apply agrees_attempt, agrees_answered|]. intros [stopped|e] w1 E A1.
    + unfold attempt, ask, answered in E. injection E as E <-. unfold bind at 1.
      set (w1 := {| cp_asked := _ |}) in *.
      pose proof (register_books (el_artifacts stopped) (rs_detection_evidence st) w1) as (B1 & B2 & B3).
      pose proof (agrees_register (el_artifacts stopped) (rs_detection_evidence st) w1 A1) as A2.
      destruct (register_cat_recording_validation_artifacts _ _ _ w1) as [[n|e] w2]; [|done]. cbn in B1, B3, A2.
      apply Hnext; [done|done|]. intros _. exists lease_id, (held w). rewrite B3. split; [done|]. by left.
    + apply agrees_after_link_error; [by eapply well_named_self|done].
  - apply Hnext; [done|done|]. intros He. by destruct Hn as (_ & _ & Hn); destruct (Hn He Hactive).
Qed.

Lemma entries_lookup (m : gmap string CatRecordingReconciliationState) cam st : (cam, st) ∈ entries m -> m !! cam = Some st.
Proof.
  unfold entries. intros (k & Hk)%elem_of_values. rewrite map_lookup_imap in Hk. destruct (m !! k) as [x|] eqn:E; [|done].
  cbn in Hk. injection Hk as <- <-. exact E.
Qed.

Lemma agrees_tick config dt w :
  Forall (fun x => is_blank x.1.1 = false) (dt_samples dt) -> agrees w -> agrees (cat_auto_recording_tick mode config dt w).2.
Proof.
  intros Hb Ha. apply agrees_bind; [by apply agrees_reconcile_states|]. intros [failed e0] w1 _ A1. cbv zeta.
  apply agrees_bind; [by apply agrees_samples|]. intros first_error w2 _ A2.
  apply agrees_bind.
  - apply agrees_attempt, agrees_bind; [done|]. intros states w3 [= <- <-] _. apply agrees_stop_each; [apply entries_lookup|done].
  - intros r w3 _ A3. by destruct r, first_error.
Qed.

Lemma agrees_turn config dt w :
  Forall (fun x => is_blank x.1.1 = false) (dt_samples dt) -> agrees w -> agrees (worker_turn mode config dt w).2.
Proof.
  intros Hb Ha. unfold worker_turn. cbn. destruct config as [c|]; [by apply agrees_tick|].
  apply agrees_bind; [by apply agrees_reconcile_states|]. intros [failed e] w1 _ A1. by destruct e.
Qed.

Lemma boot_spec (l : L) (s : S) tick asked w :
  boot l s tick asked = Ok w -> cp_states w = ledger_of l /\ held w = ledger_of l /\ cp_asked w = asked.
Proof.
  unfold boot. pose proof (ledger_load_ok l) as H1. pose proof (ledger_load_reads l) as H2.
  destruct (ledger_load l) as [[states|e] l']; cbn in *; [|done]. intros [= <-]. cbn. by rewrite (H1 states eq_refl).
Qed.

Lemma agrees_boot l s tick asked w :
  (forall cam e, ledger_of l !! cam = Some e -> well_named cam e) -> boot l s tick asked = Ok w -> agrees w.
Proof.
  intros Hn (Hs & Hh & _)%boot_spec. split; rewrite ?Hs, ?Hh; [done|done|]. intros cam st Hst He. left. exists st.
  rewrite Hh. by repeat split.
Qed.
End sure.

(** What processes come to, one after the other, from an empty ledger: each boots with
    the ledger and makes turns, whatever its detections. *)
Inductive reached : Capture L S -> Prop :=
| reached_first l s tick w : ledger_of l = ∅ -> boot l s tick [] = Ok w -> reached w
| reached_turn config dt w :
    reached w -> Forall (fun x => is_blank x.1.1 = false) (dt_samples dt) -> reached (worker_turn mode config dt w).2
| reached_next w s tick w' : reached w -> boot (cp_ledger w) s tick (cp_asked w) = Ok w' -> reached w'.

(** C13. The next process knows every recording. As long as writing the ledger does not
    fail, and cameras are named, between turns the ledger has each recording that is in
    memory, with its event, its lease, how far it is, and its evidence, so that a
    process that takes over goes on with it; or else HarborLink was told to stop that
    recording. *)
Theorem ledger_keeps_recordings w cam st :
  ledger_sure -> reached w -> cp_states w !! cam = Some st -> rs_event_id st <> None ->
  rs_camera_id st = cam /\ ((exists e, held w !! cam = Some e /\ same_recording st e) \/ told_to_stop w cam st).
Proof.
  intros Hsure Hr Hst He. assert (agrees w) as Ha.
  { clear Hst He. induction Hr as [l s tick w Hl Hb|config dt w _ IH Hb|w s tick w' _ IH Hb].
    - eapply agrees_boot; [|exact Hb]. intros c e. by rewrite Hl, lookup_empty.
    - by apply agrees_turn.
    - eapply agrees_boot; [|exact Hb]. apply (ag_ledger w IH). }
  split; [by apply (ag_memory w Ha)|]. by apply (ag_covered w Ha).
Qed.

(** * Taking over *)

Definition held_in_both w (cam : string) (st : CatRecordingReconciliationState) : Prop :=
  cp_states w !! cam = Some st /\ held w !! cam = Some st.

(** Another camera's reconciliation changes nothing of this one. *)
Lemma reconcile_other cam st x w :
  rs_camera_id x <> cam -> ledger_sure -> is_blank (rs_camera_id x) = false ->
  held_in_both w cam st -> held_in_both (reconcile_cat_recording mode x w).2 cam st.
Proof.
  intros Hne Hsure Hb [Hs Hh]. destruct (reconcile_cat_recording mode x w) as [r w'] eqn:E. cbn.
  destruct (rs_event_id x) as [event_id|] eqn:He; [|unfold reconcile_cat_recording in E; rewrite He in E; by injection E as _ <-].
  pose proof (reconciling_steps x event_id w r w' He E) as Hr. unfold held_in_both. destruct r as [[]|e].
  - destruct Hr as [(lease & -> & ->)|[-> ->]]; [by rewrite !lookup_insert_ne|by rewrite !lookup_delete_ne].
  - destruct Hr as (-> & [->|[Hh'|(lease & l & Hl)]]); [done|by apply (removal_sure Hsure) in Hh'|].
    exfalso. by apply Hl, (Hsure (LedgerUpsert _)).
Qed.

Section takeover.
Context (sure : ledger_sure) (cam event_id : string) (st : CatRecordingReconciliationState)
  (lease : HarborLinkEventRecordingLease) (goes_on : in_progress event_id lease = true)
  (event : rs_event_id st = Some event_id) (camera : rs_camera_id st = cam) (named : is_blank cam = false)
  (answers : forall h, link_lease h (status_call st) = Ok lease).

Lemma reconcile_takes_over w : held_in_both (reconcile_cat_recording mode st w).2 cam (recovered st event_id lease).
Proof.
  destruct (sure_upsert sure (recovered st event_id lease) (ask (status_call st) w).2) as [w2 E]; [cbn; by rewrite camera|].
  assert (reconcile_cat_recording mode st w = put_state cam (recovered st event_id lease) w2) as ->.
  { unfold reconcile_cat_recording. rewrite event. unfold bind at 1. unfold attempt, ask, answered. rewrite answers, goes_on.
    unfold bind. unfold ask, answered in E. rewrite answers in E. cbn [snd] in E. rewrite E. cbn [recovered rs_camera_id with_profile with_lease].
    by rewrite camera. }
  apply ledger_upsert_spec in E as (Hh & _). split; cbn; [by rewrite lookup_insert_eq|]. rewrite Hh. cbn. by rewrite camera, lookup_insert_eq.
Qed.

Lemma all_take_over states failed first_error w :
  (forall x, x ∈ states -> is_blank (rs_camera_id x) = false /\ (rs_camera_id x = cam -> x = st)) ->
  held_in_both w cam (recovered st event_id lease) \/ st ∈ states ->
  held_in_both (reconcile_all mode states failed first_error w).2 cam (recovered st event_id lease).
Proof.
  revert failed first_error w. induction states as [|x states IH]; intros failed first_error w Hx Hst.
  { by destruct Hst as [?|?%not_elem_of_nil]. }
  cbn. unfold bind, attempt. destruct (Hx x ltac:(by left)) as [Hb Hcam].
  assert (held_in_both (reconcile_cat_recording mode x w).2 cam (recovered st event_id lease) \/ st ∈ states) as Hnext.
  { destruct (decide (rs_camera_id x = cam)) as [E|Hne]; [rewrite (Hcam E); left; apply reconcile_takes_over|].
    destruct Hst as [Hst|[->|Hst]%elem_of_cons]; [left; by apply reconcile_other|done|by right]. }
  destruct (reconcile_cat_recording mode x w) as [[[]|e] w1]; apply IH; try done; intros y Hy; apply Hx; by right.
Qed.
End takeover.

(** C15. A process that takes over recovers what goes on. If the ledger has a recording
    that HarborLink still has in progress, then once the next process that boots has
    reconciled, before anything else, memory and the ledger hold it with HarborLink's
    lease, whether or not the process that asked for it learnt that it began, and
    whatever becomes of the other cameras. *)
Theorem restart_takes_over l s tick asked w cam st event_id lease :
  ledger_sure -> boot l s tick asked = Ok w -> (forall c e, ledger_of l !! c = Some e -> well_named c e) ->
  ledger_of l !! cam = Some st -> rs_event_id st = Some event_id -> in_progress event_id lease = true ->
  (forall h, link_lease h (status_call st) = Ok lease) ->
  held_in_both (reconcile_cat_recordings mode w).2 cam (recovered st event_id lease).
Proof.
  intros Hsure (Hs & Hh & _)%boot_spec Hn Hst He Hp Hl. pose proof (Hn cam st Hst) as (Hcam & Hb & _).
  assert (held_in_both (reconcile_cat_recordings_with_failures mode w).2 cam (recovered st event_id lease)) as Hr.
  { unfold reconcile_cat_recordings_with_failures, bind, get_states. apply all_take_over; try done.
    - intros x (c & Hx)%elem_of_values. rewrite Hs in Hx. pose proof (Hn c x Hx) as (Hc & Hbc & _). split; [by rewrite Hc|].
      intros E. rewrite Hc in E. subst c. congruence.
    - right. apply elem_of_values. exists cam. by rewrite Hs. }
  unfold reconcile_cat_recordings, bind. destruct (reconcile_cat_recordings_with_failures mode w) as [[[failed e]|e] w1]; [|exact Hr].
  cbn. by destruct e.
Qed.
End proofs.

(** * At concrete inputs *)

Module Sample.

#[local] Instance order : HashOrder := {| values A m := (map_to_list m).*2; values_perm A m := reflexivity _ |}.
#[local] Instance hash : Sha256 := {| sha256 _ := repeat 7%Z 32; sha256_length _ := eq_refl |}.

(** A ledger and a queue that do not fail. *)
#[local] Instance sure_ledger : LedgerStore Ledger.
Proof.
  refine {| ledger_load m := (Ok m, m);
            ledger_op op m := match op with
                              | LedgerUpsert st => if is_blank (rs_camera_id st) then (Err "blank", m) else (Ok tt, ledger_effect op m)
                              | LedgerRemove _ => (Ok tt, ledger_effect op m)
                              end;
            ledger_of m := m |}.
  - by intros l m [= ->].
  - done.
  - intros [st|cam] m; cbn; [|done]. by destruct (is_blank (rs_camera_id st)).
  - intros [st|cam] m; cbn; [|by right]. destruct (is_blank (rs_camera_id st)); [by left|by right].
  - intros st m Hb. cbn. rewrite Hb. by eexists.
Defined.

#[local] Instance sure_queue : QueueStore Latest.
Proof.
  refine {| run_request A q m := match decided q m with Ok (records, a) => (Ok a, put_records records m) | Err e => (Err e, m) end;
            queue_of m := m |}.
  - intros A q s s' a. destruct (decided q s) as [[records x]|e] eqn:E; intros [= <- <-].
    exists [], s, records. split; [constructor|]. by rewrite E.
  - intros A q s. exists [], s. unfold decided_records. destruct (decided q s) as [[records x]|e] eqn:E.
    + exists records. split; [constructor|done].
    + exists []. split; [constructor|]. split; [apply prefix_nil|done].
Defined.

Lemma is_sure : ledger_sure (L := Ledger).
Proof. intros [st|cam] m; cbn; [|done]. by intros ->. Qed.

Definition lease_for (event_id status profile : string) (artifacts : list HarborLinkRecordingArtifact) : HarborLinkEventRecordingLease :=
  {| el_camera_id := "cam"; el_lease_id := "lease"; el_event_id := event_id; el_owner := "harborbeacon"; el_status := status;
     el_stream_profile := profile; el_labels := ["cat"]; el_started_at := ""; el_updated_at := ""; el_expires_at := "";
     el_pre_roll_seconds := 3; el_trigger_epoch_ms := 99000; el_artifacts := artifacts |}.

Definition artifact (event_id : string) : HarborLinkRecordingArtifact :=
  {| hl_media_contract_version := "1.0"; hl_artifact_id := "recordings~" +:+ event_id; hl_camera_id := "cam";
     hl_kind := "recording"; hl_mime_type := "video/mp4"; hl_byte_size := 1024; hl_started_at_epoch_ms := 99000;
     hl_ended_at_epoch_ms := 109000; hl_duration_seconds := 10; hl_stream_kind := "mainstream";
     hl_modified_at_epoch_ms := 109000; hl_preview_url := "/v1/a"; hl_event_id := Some event_id;
     hl_labels := ["cat"]; hl_source := Some "yolo_cat_activity" |}.

(** The last recording that was started, and whether it was stopped. *)
Fixpoint last_start (calls : list LinkCall) : option (string * bool) :=
  match calls with
  | [] => None
  | StartEventRecording _ event_id _ _ _ _ :: _ => Some (event_id, false)
  | StopEventRecording _ _ :: calls => (fun x => (x.1, true)) <$> last_start calls
  | _ :: calls => last_start calls
  end.

(** A HarborLink that works; time stands still. *)
Definition good_link : CaptureWorld :=
  {| link_lease calls call :=
       match call with
       | StartEventRecording _ event_id profile _ _ _ => Ok (lease_for event_id "running" profile [])
       | StopEventRecording _ _ =>
           match last_start calls with
           | Some (event_id, false) => Ok (lease_for event_id "stopped" "main" [artifact event_id])
           | _ => Err "404"
           end
       | _ => match last_start calls with Some (event_id, false) => Ok (lease_for event_id "running" "main" []) | _ => Err "404" end
       end;
     link_timeline _ _ := Ok []; error_value e := if (e =? "404")%string then Some (JObj [("statusCode", JNum 404)]) else None;
     epoch_ms _ := 100000%Z; draw_event n := show_nat n |}.

Definition config : CatAutoRecordingConfig :=
  {| cc_start_consecutive_frames := 5; cc_start_duration_ms := 500; cc_stop_consecutive_frames := 15; cc_stop_duration_ms := 3000 |}.

Definition seen (sequence : Z) : jv :=
  JObj [("target_label", JStr "cat"); ("detection_count", JNum 1); ("sequence", JNum sequence); ("frame_epoch_ms", JNum 99000);
        ("consecutive_present_frames", JNum 10); ("consecutive_absent_frames", JNum 0); ("present_since_epoch_ms", JNum 98000);
        ("absent_since_epoch_ms", JNum 0); ("detections", JArr [JObj [("label", JStr "cat"); ("confidence", JNum 1)]])].

Definition unseen (sequence : Z) : jv :=
  JObj [("target_label", JStr "cat"); ("detection_count", JNum 0); ("sequence", JNum sequence); ("frame_epoch_ms", JNum 99000);
        ("consecutive_present_frames", JNum 0); ("consecutive_absent_frames", JNum 20); ("present_since_epoch_ms", JNum 0);
        ("absent_since_epoch_ms", JNum 95000); ("detections", JArr [])].

Definition detects (results : list jv) : list Detections :=
  (fun r => {| dt_renewal_error := None; dt_samples := [("cam", "main", Some r)] |}) <$> results.

Definition nothing : Capture Ledger Latest := {| cp_states := ∅; cp_ledger := ∅; cp_queue := ∅; cp_tick := 0; cp_asked := [] |}.

Definition enabled_env (name : string) : EnvVar :=
  if (name =? "HARBOR_K3_CAT_AUTO_RECORD_ENABLED")%string then Present " Yes " else NotPresent.

Definition is_request (call : LinkCall) : bool := negb (is_inquiry call).

(** A cat comes, stays and leaves: it is recorded once, and the recording queued. *)
Example cat_recorded :
  let w := @start_cat_auto_recording_worker _ _ _ _ _ _ good_link ModeEnforce enabled_env
             (detects [seen 1; seen 1; seen 2; unseen 3; unseen 3]) nothing in
  rev (List.filter is_request (fst <$> cp_asked w))
    = [StartEventRecording "cam" "cat-activity-1" "main" 30 3 99000; StopEventRecording "cam" "lease"]
  /\ (map_to_list (cp_queue w)).*1 = ["recordings~cat-activity-1"]
  /\ (ce_sequence <$> (vr_detection_evidence <$> (map_to_list (cp_queue w)).*2) ≫= id) = [1%Z; 2%Z]
  /\ cp_ledger w = ∅.
Proof. vm_compute. repeat split. Qed.

Example cat_not_recorded :
  let w := @start_cat_auto_recording_worker _ _ _ _ _ _ good_link ModeEnforce (fun _ => NotPresent) (detects [seen 1]) nothing in
  cp_asked w = [].
Proof. by vm_compute. Qed.

#[local] Existing Instance good_link.

Definition after_turns (results : list jv) : Capture Ledger Latest :=
  start_cat_auto_recording_worker ModeEnforce enabled_env (detects results) nothing.

Definition recording : Capture Ledger Latest := after_turns [seen 1].
Definition stopping : Capture Ledger Latest :=
  (process_cat_detection_result ModeEnforce "cam" "main" (Some (unseen 3)) config recording).2.

Definition state_of (w : Capture Ledger Latest) : CatRecordingReconciliationState := memory_of "cam" w.

Lemma recordings_stop_for_reason_witness :
  (StopEventRecording "cam" "lease", cp_ledger recording) ∈ cp_asked stopping
  /\ rs_lease_id (state_of recording) = Some "lease"
  /\ ((StopEventRecording "cam" "lease", cp_ledger recording) ∈ cp_asked recording
      \/ "cam" = "cam" /\ (rs_lease_id (memory_of "cam" recording) = Some "lease" \/ exists current, el_lease_id current = "lease")).
Proof.
  assert ((StopEventRecording "cam" "lease", cp_ledger recording) ∈ cp_asked stopping) as Hin by (vm_compute; by left).
  split; [exact Hin|]. split; [by vm_compute|].
  destruct (recordings_stop_for_reason ModeEnforce "cam" "main" (Some (unseen 3)) config recording "lease" "cam" _ Hin)
    as [H|[_ [[H _]|(n & o & l & current & _ & _ & H & _)]]]; [by left|right; split; [done|by left]|right; split; [done|right; by exists current]].
Defined.

Definition reconciled : Capture Ledger Latest := (reconcile_cat_recording ModeEnforce (state_of recording) recording).2.

Lemma reconciling_loses_nothing_witness :
  rs_event_id (state_of recording) = Some "cat-activity-1"
  /\ exists lease, link_lease (fst <$> cp_asked recording) (status_call (state_of recording)) = Ok lease
       /\ in_progress "cat-activity-1" lease = true.
Proof.
  assert (rs_event_id (state_of recording) = Some "cat-activity-1") as He by by vm_compute. split; [exact He|].
  assert (reconcile_cat_recording ModeEnforce (state_of recording) recording = (Ok tt, reconciled)) as E by by vm_compute.
  destruct (reconciling_loses_nothing ModeEnforce (state_of recording) "cat-activity-1" recording (Ok tt) reconciled He E)
    as [(lease & H1 & H2 & _)|(Hs & _)]; [exact (ex_intro _ lease (conj H1 H2))|].
  exfalso. apply (f_equal (fun m => is_some (m !! "cam"))) in Hs. vm_compute in Hs. discriminate.
Defined.

Definition first_boot : Capture Ledger Latest := {| cp_states := ∅; cp_ledger := ∅; cp_queue := ∅; cp_tick := 0; cp_asked := [] |}.

Definition first_turn : Capture Ledger Latest :=
  (worker_turn ModeEnforce (Some config) {| dt_renewal_error := None; dt_samples := [("cam", "main", Some (seen 1))] |} first_boot).2.

Lemma ledger_keeps_recordings_witness :
  rs_event_id (state_of first_turn) = Some "cat-activity-1"
  /\ rs_camera_id (state_of first_turn) = "cam"
  /\ ((exists e, cp_ledger first_turn !! "cam" = Some e /\ same_recording (state_of first_turn) e)
      \/ told_to_stop first_turn "cam" (state_of first_turn)).
Proof.
  split; [by vm_compute|].
  assert (reached ModeEnforce first_turn) as Hr.
  { apply reached_turn; [by eapply (reached_first _ (∅ : Ledger) (∅ : Latest) 0)|]. by repeat constructor. }
  apply (ledger_keeps_recordings ModeEnforce first_turn "cam" (state_of first_turn) is_sure Hr); by vm_compute.
Defined.

Lemma detection_evidence_bounded_witness :
  let full := replicate 256 {| ce_sequence := 1; ce_frame_epoch_ms := 1; ce_confidence_ppm := 700000 |} in
  let s := {| ds_sequence := 2; ds_frame_epoch_ms := 2; ds_detection_count := 1; ds_consecutive_present_frames := 1;
              ds_consecutive_absent_frames := 0; ds_present_since_epoch_ms := 1; ds_absent_since_epoch_ms := 0;
              ds_max_confidence_ppm := 900000 |} in
  length full = 256 /\ length (record_cat_detection_evidence full s) = Nat.min (length full + 1) CAT_AUTO_RECORD_MAX_DETECTION_EVIDENCE.
Proof. split; [by vm_compute|]. apply detection_evidence_bounded. vm_compute. lia. Defined.

(** HarborLink has a recording in progress whose start was not learnt. *)
Definition running_link : CaptureWorld :=
  {| link_lease _ call := Ok (lease_for "cat-activity-9" "running" "main" []); link_timeline _ _ := Ok []; error_value _ := None;
     epoch_ms _ := 100000%Z; draw_event n := show_nat n |}.

Definition left_pending : CatRecordingReconciliationState :=
  pending_start 99000 "cat-activity-9" "main" (fresh "cam").

Definition next_boot : Capture Ledger Latest :=
  {| cp_states := {["cam" := left_pending]}; cp_ledger := {["cam" := left_pending]}; cp_queue := ∅; cp_tick := 0; cp_asked := [] |}.

Lemma restart_takes_over_witness :
  held_in_both (@reconcile_cat_recordings _ _ _ _ _ _ running_link ModeEnforce next_boot).2 "cam"
    (recovered left_pending "cat-activity-9" (lease_for "cat-activity-9" "running" "main" [])).
Proof.
  apply (@restart_takes_over _ _ _ _ _ _ running_link ModeEnforce ({["cam" := left_pending]} : Ledger) (∅ : Latest) 0 [] next_boot
           "cam" left_pending "cat-activity-9" (lease_for "cat-activity-9" "running" "main" []) is_sure eq_refl); try done.
  intros c e Hc. change (({["cam" := left_pending]} : Ledger) !! c = Some e) in Hc. apply lookup_singleton_Some in Hc as [<- <-]. by split.
Defined.

(** * What is lost *)

(** The first request for a recording is not answered in time, and then HarborLink
    cannot be asked how it stands; a moment later it takes the next request. *)
Definition slow_link : CaptureWorld :=
  {| link_lease calls call :=
       match call with
       | StartEventRecording _ event_id profile _ _ _ =>
           match last_start calls with None => Err "timeout" | Some _ => Ok (lease_for event_id "running" profile []) end
       | _ => Err "unavailable"
       end;
     link_timeline _ _ := Err "unavailable"; error_value _ := None; epoch_ms _ := 100000%Z; draw_event n := show_nat n |}.

Definition with_slow_link (results : list (string * jv)) : Capture Ledger Latest :=
  @start_cat_auto_recording_worker _ _ _ _ _ _ slow_link ModeEnforce enabled_env
    ((fun r => {| dt_renewal_error := None; dt_samples := [("cam", r.1, Some r.2)] |}) <$> results) nothing.

(** The recording that was asked for first, and that may go on, is in memory and in the
    ledger no more once the cat is seen again: the worker looks at the results of a
    camera whose reconciliation just failed. *)
Example pending_start_overwritten :
  (rs_event_id <$> cp_ledger (with_slow_link [("main", seen 1)]) !! "cam") = Some (Some "cat-activity-1")
  /\ let w := with_slow_link [("main", seen 1); ("main", seen 2)] in
     (rs_event_id <$> cp_ledger w !! "cam") = Some (Some "cat-activity-3") /\ rs_event_id (state_of w) = Some "cat-activity-3"
     /\ List.filter is_request (fst <$> cp_asked w)
        = [StartEventRecording "cam" "cat-activity-3" "main" 30 3 99000; StartEventRecording "cam" "cat-activity-1" "main" 30 3 99000].
Proof. vm_compute. repeat split. Qed.

(** And when the stream profile changes, it is dropped from memory unreconciled, and
    once the detection ends from the ledger too. *)
Example pending_start_dropped :
  let w := with_slow_link [("main", seen 1); ("sub", unseen 2)] in
  rs_event_id (state_of w) = None /\ (rs_event_id <$> cp_ledger w !! "cam") = Some (Some "cat-activity-1")
  /\ cp_ledger (@cat_auto_recording_tick _ _ _ _ _ _ slow_link ModeEnforce config {| dt_renewal_error := None; dt_samples := [] |} w).2 = ∅.
Proof. vm_compute. repeat split. Qed.
End Sample.
