(* ===== verification/CatSample.v ===== *)
(** A recording that is registered, claimed, rejected and discarded, and the file that
    keeps it: the theorems on the validation of recordings at concrete inputs, and
    what is left undone. *)
From stdpp Require Import gmap.
From S2P Require Import Prelude RustString Json UrlPath VisionStore TaskStore TaskApiSample CatRecords CatQueue.
From S2P Require Import CatStore CatStoreLemmas CatStoreWrites CatStoreTheorems CatSampling CatVerdict CatWorker.
Local Open Scope string_scope.
Local Open Scope list_scope.

#[local] Existing Instance sample_order.
#[local] Instance sample_sha256 : Sha256 :=
  {| sha256 _ := repeat 7%Z 32; sha256_length _ := eq_refl |}.

(** * The life of a recording *)

Definition sample_recording : HarborLinkRecordingArtifact :=
  {| hl_media_contract_version := "1.0"; hl_artifact_id := "recordings~a"; hl_camera_id := "camera-1";
     hl_kind := "recording"; hl_mime_type := "video/mp4"; hl_byte_size := 1024; hl_started_at_epoch_ms := 1000;
     hl_ended_at_epoch_ms := 9000; hl_duration_seconds := 8; hl_stream_kind := "mainstream";
     hl_modified_at_epoch_ms := 9000; hl_preview_url := "/v1/a"; hl_event_id := Some "cat-activity-1";
     hl_labels := ["cat"]; hl_source := Some "yolo_cat_activity" |}.

Definition register_op : Op := OpRegister 10000 sample_recording [].
Definition claim_op : Op := OpClaim "worker" "t1" 20000 60000.
Definition reject_op : Op := OpComplete "recordings~a" "t1" 30000 30001 Rejected None (Some "no cat").
Definition discard_op (now : Z) : Op := OpClaimDiscard "recordings~a" ModeEnforce now 1000 "u".
Definition discarded_op : Op := OpDiscarded "recordings~a" "discard-1-u" 40500 40501 40502 true false.

(** All the records of the operations are persisted. *)
Definition run_ops (ops : list Op) (m : Latest) : Latest := foldl (fun m op => put_records (op_records op m) m) m ops.

Definition unanswered (ops : list Op) : list Answered := (fun op => (op, false)) <$> ops.

Lemma run_steps ops m : queue_steps (unanswered ops) m (run_ops ops m).
Proof.
  revert m. induction ops as [|op ops IH]; intros m; [constructor|]. eapply steps_cons; [by constructor|]. apply IH.
Qed.

Definition at_ (ops : list Op) : CatRecordingValidationRecord :=
  default (new_record 0 sample_recording "" []) (run_ops ops ∅ !! "recordings~a").

Lemma there ops : is_some (run_ops ops ∅ !! "recordings~a") = true -> run_ops ops ∅ !! "recordings~a" = Some (at_ ops).
Proof. unfold at_. by destruct (_ !! _). Qed.

Definition claimed_ops : list Op := [register_op; claim_op].
Definition rejected_ops : list Op := [register_op; claim_op; reject_op].
Definition discarded_ops : list Op := [register_op; claim_op; reject_op; discard_op 40000; discarded_op].

Lemma only_rejected_discarded_witness :
  vr_artifact_disposition (at_ discarded_ops) = Discarded /\ vr_artifact_disposition (at_ discarded_ops) <> Retained
  /\ discardable (at_ discarded_ops)
  /\ (0 <= vr_discard_attempt_count (at_ discarded_ops) <= MAX_ARTIFACT_DISCARD_ATTEMPTS)%Z
  /\ (vr_artifact_disposition (at_ discarded_ops) = Discarded -> confirmed_gone (at_ discarded_ops)).
Proof.
  split; [by vm_compute|]. assert (vr_artifact_disposition (at_ discarded_ops) <> Retained) as Hd by by vm_compute.
  split; [exact Hd|].
  exact (only_rejected_discarded _ _ "recordings~a" _ (run_steps discarded_ops ∅) (there discarded_ops eq_refl) Hd).
Defined.

Lemma decision_is_final_witness :
  vr_validation_status (at_ rejected_ops) = Rejected
  /\ exists r', run_ops [discard_op 40000; claim_op] (run_ops rejected_ops ∅) !! "recordings~a" = Some r'
       /\ vr_validation_status r' = vr_validation_status (at_ rejected_ops) /\ vr_decision r' = vr_decision (at_ rejected_ops)
       /\ (is_published r' = true <-> vr_validation_status (at_ rejected_ops) = Accepted).
Proof.
  split; [by vm_compute|].
  exact (decision_is_final _ _ _ _ "recordings~a" _ (run_steps rejected_ops ∅)
           (there rejected_ops eq_refl) eq_refl (run_steps [discard_op 40000; claim_op] _)).
Defined.

(** Others that come before the deadline, with another token or none. *)
Definition other_ops : list Op :=
  [claim_op; OpRecover 79999; OpComplete "recordings~a" "t0" 79999 79999 Accepted None None; register_op].

Lemma claim_is_exclusive_witness :
  vr_validation_status (at_ claimed_ops) = Processing /\ vr_claim_lease_deadline_epoch_ms (at_ claimed_ops) = Some 80000%Z
  /\ run_ops other_ops (run_ops claimed_ops ∅) !! "recordings~a" = Some (at_ claimed_ops).
Proof.
  split; [by vm_compute|]. split; [by vm_compute|].
  apply (claim_is_exclusive (unanswered claimed_ops) (unanswered other_ops) (run_ops claimed_ops ∅) _ "recordings~a" (at_ claimed_ops) "t1" 80000%Z (run_steps claimed_ops ∅)
           (there claimed_ops eq_refl)); [by vm_compute..| |apply run_steps].
  repeat constructor.
Defined.

Lemma claim_takes_oldest_witness :
  match decided (claim_next_pending "worker" "t1" 20000 60000) (run_ops [register_op] ∅) with
  | Ok (_, None) => forall k r, run_ops [register_op] ∅ !! k = Some r -> claimable 20000 r = false
  | Ok (records, Some r') =>
      records = [r'] /\ exists r, run_ops [register_op] ∅ !! vr_artifact_id r' = Some r /\ claimable 20000 r = true
        /\ (forall k x, run_ops [register_op] ∅ !! k = Some x -> claimable 20000 x = true -> older_record r x <> Gt)
        /\ r' = claim_record 20000 60000 (sanitize_text "worker") "t1" r
        /\ forall later, (20000 <= later < Z.min (20000 + 60000) u128_max)%Z -> validate_processing_claim r' "t1" later = Ok tt
  | Err _ => False
  end.
Proof. exact (claim_takes_oldest _ _ "worker" "t1" 20000 60000 (run_steps [register_op] _) eq_refl eq_refl eq_refl). Defined.

Lemma expired_claims_recovered_witness :
  expired 80000 (at_ claimed_ops) = true
  /\ exists records, decided (recover_expired_claims 80000) (run_ops claimed_ops ∅) = Ok (records, length records)
       /\ forall k r, run_ops claimed_ops ∅ !! k = Some r ->
            put_records records (run_ops claimed_ops ∅) !! k = Some (if expired 80000 r then recover_record 80000 r else r)
            /\ forall later, claimable later (recover_record 80000 r) = true.
Proof. split; [by vm_compute|]. exact (expired_claims_recovered _ _ 80000 (run_steps claimed_ops _)). Defined.

(** A third attempt whose lease expires is never ended: the recording stays pending,
    but no attempt may be made, and nothing may be said of the last one. *)
Definition stuck_ops : list Op := rejected_ops ++ [discard_op 40000; discard_op 50000; discard_op 60000].

Example third_attempt_stuck :
  vr_artifact_disposition (at_ stuck_ops) = DiscardPending
  /\ pending_discard ModeEnforce (at_ stuck_ops) = false
  /\ decided (claim_artifact_discard "recordings~a" ModeEnforce 70000 1000 "u") (run_ops stuck_ops ∅)
     = Err "cat recording discard attempts are exhausted"
  /\ decided (mark_artifact_discard_failed "recordings~a" "discard-3-u" "timeout" 70000 70000) (run_ops stuck_ops ∅)
     = Err "cat recording discard attempt is stale, expired, or invalid".
Proof. repeat split; by vm_compute. Qed.

(** * The file *)

#[local] Instance evidence_eq_dec : EqDecision CatDetectionEvidence.
Proof. solve_decision. Defined.
#[local] Instance prediction_eq_dec : EqDecision CatRecordingFramePrediction.
Proof. solve_decision. Defined.
#[local] Instance decision_eq_dec : EqDecision CatRecordingValidationDecision.
Proof. solve_decision. Defined.
#[local] Instance tombstone_eq_dec : EqDecision CatRecordingDiscardTombstone.
Proof. solve_decision. Defined.
#[local] Instance record_eq_dec : EqDecision CatRecordingValidationRecord.
Proof. solve_decision. Defined.

(** What the worker does with the recording, below. *)
Definition worker_ops : list Op :=
  [register_op; OpClaim "worker" "u12" 21200 300000; OpComplete "recordings~a" "u12" 21600 21700 Rejected None (Some "no cat");
   OpClaimDiscard "recordings~a" ModeEnforce 21800 120000 "u18"; OpDiscarded "recordings~a" "discard-1-u18" 22200 22300 22400 true false].

(** Text for the records of the life above and of the worker's, and for no others. *)
Definition sample_lines : list (CatRecordingValidationRecord * string) :=
  [(at_ [register_op], "{registered}"); (at_ claimed_ops, "{claimed}"); (at_ rejected_ops, "{rejected}");
   (at_ (take 2 worker_ops), "{worker claimed}"); (at_ (take 3 worker_ops), "{worker rejected}");
   (at_ (take 4 worker_ops), "{worker asked}"); (at_ worker_ops, "{discarded}")].

Definition line_for (r : CatRecordingValidationRecord) : result string string :=
  match List.find (fun p => bool_decide (p.1 = r)) sample_lines with Some p => Ok p.2 | None => Err "no text" end.
Definition record_for (line : string) : result string CatRecordingValidationRecord :=
  match List.find (fun p => p.2 =? line) sample_lines with Some p => Ok p.1 | None => Err "no record" end.

#[local] Instance sample_text : RecordText :=
  {| record_to_vec := line_for; record_from_str := record_for; record_from_slice := record_for |}.

#[local] Instance sample_laws : RecordTextLaws.
Proof.
  intros r line Hl Hs. cbn in Hl. unfold line_for in Hl. destruct (List.find _ _) as [p|] eqn:Hf; [|done]. injection Hl as <-.
  apply List.find_some in Hf as [Hin Hr%bool_decide_eq_true]. subst r.
  unfold sample_lines in Hin. cbn in Hin. repeat (destruct Hin as [<-|Hin]; [split; by vm_compute|]). done.
Qed.

Definition sample_world (d : Disk) (calls : list Call) (i : ValidationStoreIndex) : World :=
  {| w_disk := d; w_calls := calls; w_index := i |}.

Definition register_request : Request unit := op_request register_op.

Lemma sample_threshold : (0 < COMPACTION_THRESHOLD_BYTES <= MAX_STORE_BYTES)%Z.
Proof. by vm_compute. Qed.

Lemma empty_stored : stored "v.jsonl" COMPACTION_THRESHOLD_BYTES (empty_disk []) ∅ "" 0.
Proof.
  exists [], []. split; [|done]. split; try done; cbn; apply Sorted.SSorted_nil.
Qed.

(** The write stops after four bytes. *)
Definition torn_calls : list Call := replicate 42 good_call ++ [{| c_error := Some "disk full"; c_written := 4; c_stamp := 9 |}].

Lemma crash_safe_witness :
  let (r, w) := run "/data" "v.jsonl" COMPACTION_THRESHOLD_BYTES register_request (sample_world (empty_disk []) torn_calls default_index) in
  exists records torn' g',
    records `prefix_of` decided_records register_request ∅ /\ stored "v.jsonl" COMPACTION_THRESHOLD_BYTES (w_disk w) (put_records records ∅) torn' g'
    /\ coherent (w_index w) (put_records records ∅) g'
    /\ (forall j, coherent j ∅ 0 -> coherent j (put_records records ∅) g')
    /\ (forall a, r = Ok a -> decided register_request ∅ = Ok (records, a))
    /\ (calm torn_calls -> ~ hopeless COMPACTION_THRESHOLD_BYTES register_request ∅ 0 -> is_ok r = true).
Proof.
  exact (crash_safe "/data" "v.jsonl" COMPACTION_THRESHOLD_BYTES eq_refl sample_threshold register_request _ default_index ∅ "" 0 torn_calls
           empty_stored (default_coherent ∅ 0)).
Defined.

Definition ran (d : Disk) (calls : list Call) (i : ValidationStoreIndex) (op : Op) : result string unit * World :=
  run "/data" "v.jsonl" COMPACTION_THRESHOLD_BYTES (op_request op) (sample_world d calls i).

Definition main_of (w : World) : option string := f_bytes <$> d_main (w_disk w).

(** A line that is torn is dropped by the next process, which registers the recording
    again. *)
Example torn_line_dropped :
  let (r, w) := ran (empty_disk []) torn_calls default_index register_op in
  let (r', w') := ran (w_disk w) [] default_index register_op in
  r = Err "failed to persist cat validation record: disk full" /\ main_of w = Some "{reg"
  /\ r' = Ok tt /\ main_of w' = Some ("{registered}" +:+ String NEWLINE "").
Proof. vm_compute. repeat split. Qed.

(** A whole line that is no record is passed over when the file is read, but keeps the
    file from being rotated: once it is full, no operation that writes succeeds. *)
Definition damaged_disk : Disk :=
  {| d_main := Some {| f_bytes := "no record" +:+ String NEWLINE ""; f_stamp := 0 |}; d_generation := None; d_siblings := [] |}.

Example damaged_line_stops_writing :
  fst (run "/data" "v.jsonl" 15 list_latest (sample_world damaged_disk [] default_index)) = Ok []
  /\ fst (run "/data" "v.jsonl" 15 register_request (sample_world damaged_disk [] default_index))
     = Err "cat recording validation archive contains invalid JSON /data/v.jsonl.archive.00000000000000000001.jsonl: no record"
  /\ fst (run "/data" "v.jsonl" 40 register_request (sample_world damaged_disk [] default_index)) = Ok tt.
Proof. vm_compute. repeat split. Qed.

(** Two processes: the first registers, the second claims, the first lists. *)
Definition sample_start : System := {| sy_disk := empty_disk []; sy_index := fun _ => default_index |}.

Definition after_op (s : System) (p : nat) (op : Op) : System :=
  let w := snd (ran (sy_disk s) [] (sy_index s p) op) in
  {| sy_disk := w_disk w; sy_index := set_process p (w_index w) (sy_index s) |}.

Definition sample_system : System := after_op (after_op sample_start 0 register_op) 1 claim_op.

Definition listed : result string (list CatRecordingValidationRecord) * World :=
  run "/data" "v.jsonl" COMPACTION_THRESHOLD_BYTES list_latest (sample_world (sy_disk sample_system) [] (sy_index sample_system 0)).

Lemma both_listed : listed = (Ok [at_ claimed_ops], snd listed).
Proof. rewrite (surjective_pairing listed). f_equal. Qed.

Lemma answers_step p op ops s s' answered :
  is_ok (fst (ran (sy_disk s) [] (sy_index s p) op)) = answered ->
  system_steps "/data" "v.jsonl" COMPACTION_THRESHOLD_BYTES ops (after_op s p op) s' ->
  system_steps "/data" "v.jsonl" COMPACTION_THRESHOLD_BYTES ((op, answered) :: ops) s s'.
Proof. intros <- Hs. eapply (sys_op _ _ _ p op []); [apply surjective_pairing|exact Hs]. Qed.

Definition claimed_answered : list Answered := [(register_op, true); (claim_op, true)].

Lemma sample_system_steps :
  system_steps "/data" "v.jsonl" COMPACTION_THRESHOLD_BYTES claimed_answered sample_start sample_system.
Proof. apply (answers_step 0); [by vm_compute|]. apply (answers_step 1); [by vm_compute|]. apply sys_nil. Qed.

Lemma store_implements_queue_witness :
  exists m, queue_steps claimed_answered ∅ m /\ [at_ claimed_ops] ≡ₚ (map_to_list m).*2.
Proof.
  exact (store_implements_queue "/data" "v.jsonl" COMPACTION_THRESHOLD_BYTES eq_refl sample_threshold [] _ sample_system 0 []
           [at_ claimed_ops] (snd listed) eq_refl sample_system_steps both_listed).
Defined.

(** * The classifier *)

Definition sample_frame_at (index ppm : Z) : CatRecordingFramePrediction :=
  {| fp_frame_index := index; fp_cat_probability_ppm := ppm; fp_inference_ms := 10 |}.

Example sample_verdict :
  aggregate_cat_recording_predictions [sample_frame_at 3 900000; sample_frame_at 1 100000; sample_frame_at 2 800000] 800000 2
  = Ok {| ag_cat_present := true; ag_cat_frame_indices := [2%Z; 3%Z]; ag_reason_code := "cat_visible";
          ag_frame_predictions := [sample_frame_at 1 100000; sample_frame_at 2 800000; sample_frame_at 3 900000] |}.
Proof. by vm_compute. Qed.

(** * The frames that are looked at *)

(** A recording of eight seconds with two detections. *)
Definition sampled_record : CatRecordingValidationRecord :=
  new_record 10000 sample_recording "cat-activity-1"
    [{| ce_sequence := 1; ce_frame_epoch_ms := 3000; ce_confidence_ppm := 700000 |};
     {| ce_sequence := 2; ce_frame_epoch_ms := 6000; ce_confidence_ppm := 900000 |}].

Definition sampled_initial : list CatRecordingSampleTarget := (select_initial_cat_recording_vlm_sample_targets sampled_record 8000).2.
Definition sampled_followup : list CatRecordingSampleTarget :=
  select_followup_cat_recording_sample_targets sampled_record 8000 sampled_initial [].

Lemma model_frames_witness :
  (0 <= 8000)%Z /\ length (sampled_initial ++ sampled_followup) = 7
  /\ tg_frame_index <$> sampled_initial ++ sampled_followup
     = seqZ 1 (Z.of_nat (length (sampled_initial ++ sampled_followup))).
Proof. split; [lia|]. split; [by vm_compute|]. exact (proj1 (model_frames sampled_record 8000 [] ltac:(lia))). Defined.

Lemma classifier_frames_witness :
  (5000 <= 8000 <= 600000)%Z
  /\ tg_frame_index <$> (select_cat_recording_classifier_sample_targets sampled_record 8000).2 = seqZ 1 9.
Proof. split; [lia|]. refine (proj1 (classifier_frames sampled_record 8000 _)). vm_compute. by split. Defined.

(** * The worker *)

(** The queue itself as the store: every call succeeds in persisting what it decides. *)
#[local] Instance queue_store : QueueStore Latest.
Proof.
  refine {| run_request A q m := match decided q m with Ok (records, a) => (Ok a, put_records records m) | Err e => (Err e, m) end;
            queue_of m := m |}.
  - intros A q s s' a. destruct (decided q s) as [[records x]|e] eqn:E; intros [= <- <-].
    exists [], s, records. split; [constructor|]. by rewrite E.
  - intros A q s. exists [], s. unfold decided_records. destruct (decided q s) as [[records x]|e] eqn:E.
    + exists records. split; [constructor|done].
    + exists []. split; [constructor|]. split; [apply prefix_nil|done].
Defined.

(** Every evaluation says that there is no cat, and the provider deletes. *)
#[local] Instance sample_world_of_worker : WorkerWorld :=
  {| clock n := (20000 + 100 * Z.of_nat n)%Z; draw_uuid n := "u" +:+ show_nat n;
     evaluation _ _ := Ok (Rejected, None, Some "no cat"); delete_dvr_artifact _ _ := Ok (JObj [("deleted", JBool true)]);
     validation_runtime_ready _ := Ok true |}.

Definition idle_worker : Worker Latest := {| wk_store := run_ops [register_op] ∅; wk_tick := 0; wk_asked := [] |}.

Definition turned_worker : Worker Latest := run_cat_recording_validation_worker ModeEnforce "worker" 2 idle_worker.

Lemma worker_deletes_rejected_witness :
  wk_asked idle_worker = [] /\ (wk_asked turned_worker).*1 = ["recordings~a"]
  /\ vr_artifact_disposition <$> (wk_store turned_worker !! "recordings~a") = Some Discarded
  /\ times_asked "recordings~a" turned_worker <= 3.
Proof.
  split; [done|]. split; [by vm_compute|]. split; [by vm_compute|].
  exact (proj2 (proj2 (worker_deletes_rejected ModeEnforce "worker" _ 2 idle_worker (run_steps [register_op] ∅) eq_refl)) "recordings~a").
Defined.

(** The same over the file: another process registers the recording, and again later;
    a listing of the worker fails. *)
#[local] Instance file_store : QueueStore _ :=
  file_queue "/data" "v.jsonl" COMPACTION_THRESHOLD_BYTES eq_refl sample_threshold 0.

Definition by_other (op : Op) : nat * Op * list Call := (1, op, []).
Definition failing_turn : FileTurn := {| ft_others := []; ft_calls := [{| c_error := Some "EIO"; c_written := 0; c_stamp := 0 |}] |}.

Definition sample_files : FileStore :=
  {| fs_system := sample_start;
     fs_turns := [{| ft_others := [by_other register_op]; ft_calls := [] |}; calm_turn; failing_turn; calm_turn;
                  {| ft_others := [by_other register_op]; ft_calls := [] |}] |}.

Lemma sample_files_hold : file_holds "v.jsonl" COMPACTION_THRESHOLD_BYTES sample_files ∅.
Proof. by apply empty_system. Qed.

Definition file_worker : Worker { f : FileStore | exists m, file_holds "v.jsonl" COMPACTION_THRESHOLD_BYTES f m } :=
  {| wk_store := exist _ sample_files (ex_intro _ ∅ sample_files_hold); wk_tick := 0; wk_asked := [] |}.

Definition file_worker_after := run_cat_recording_validation_worker ModeEnforce "worker" 2 file_worker.

Example file_worker_discards :
  (wk_asked file_worker_after).*1 = ["recordings~a"]
  /\ queue_of (wk_store file_worker_after) !! "recordings~a" = Some (at_ worker_ops).
Proof. split; by vm_compute. Qed.

Lemma failed_evaluations_retried_witness :
  validate_processing_claim (at_ claimed_ops) "t1" 30000 = Ok tt
  /\ exists r, decided (end_of_claim (at_ claimed_ops) "t1" (Err "no frame") 30000 30001 30002) (run_ops claimed_ops ∅) = Ok ([r], r)
       /\ vr_claim_token r = None.
Proof.
  assert (validate_processing_claim (at_ claimed_ops) "t1" 30000 = Ok tt) as Hv by by vm_compute. split; [exact Hv|].
  destruct (failed_evaluations_retried (run_ops claimed_ops ∅) (at_ claimed_ops) "t1" (Err "no frame") 30000 30001 30002
              (there claimed_ops eq_refl) Hv) as (r & Hd & _ & Ht & _).
  exact (ex_intro _ r (conj Hd Ht)).
Defined.
