(* ===== verification/ModelSample.v ===== *)
(** The models at concrete inputs: a machine with an address parser for plain HTTP
    addresses, a local and a cloud language model, a vision model, and a recording
    that is shown to it; and behaviours of the code that its checks do not mean. *)
From Stdlib Require Import Ascii.
From S2P Require Import Prelude RustString Json Models ServiceAuth ModelEndpoints ModelSelection ModelRuns ModelSecrets ModelRunTheorems.
From S2P Require Import TaskApiSample CatRecords CatQueue CatSampling CatVerdict.
Local Open Scope string_scope.
Local Open Scope list_scope.

(** * The machine *)

Definition sample_env (key : string) : option string :=
  if key =? MODEL_API_TOKEN_ENV then Some " token " else None.
Definition sample_host : Host := {| env_var := sample_env; read_to_string _ := Err "none" |}.
Definition bare_host : Host := {| env_var _ := None; read_to_string _ := Err "none" |}.

Definition sample_probe : Probe := {| pb_cache := None; pb_now := 0; pb_after := 0; pb_health _ := None |}.

(** Addresses of the form [http://host:port/path], with any port but the default. *)
Definition parse_http (s : string) : option ParsedUrl :=
  if negb (starts_with "http://" s) then None else
  match split_once "/" (str_drop 7 s) with
  | None => None
  | Some (authority, path) =>
      match split_once ":" authority with
      | None => None
      | Some (host, port) =>
          match parse_uint 65535 port with
          | None => None
          | Some port =>
              if (port =? 80)%Z then None else
              Some {| pu_scheme := "http"; pu_username := ""; pu_password := None; pu_host := Some host; pu_port := Some port;
                      pu_path := "/" +:+ path; pu_query := None; pu_fragment := None;
                      pu_text := "http://" +:+ host +:+ ":" +:+ show_Z port +:+ "/" +:+ path |}
          end
      end
  end.

#[local] Instance sample_urls : EndpointUrls := {| parse_url := parse_http |}.
#[local] Instance sample_url_laws : EndpointUrlLaws.
Proof.
  constructor. intros s u host port. unfold parse_url, sample_urls, parse_http.
  destruct (negb _); [done|]. destruct (split_once _ _) as [[authority path]|]; [|done].
  destruct (split_once _ authority) as [[h p]|]; [|done]. destruct (parse_uint _ p) as [z|]; [|done].
  destruct (z =? 80)%Z; [done|].
  intros [= <-]. cbn. intros _ _ _ [= <-] [= <-] _ _ _. done.
Defined.

(** The first attempt fails; the models see a cat in every frame. *)
#[local] Instance sample_services : ModelServices :=
  {| new_text_client _ _ := Ok tt; new_vision_client _ := Ok tt; new_embedding_client _ _ := Ok tt; new_rerank_client _ := Ok tt;
     complete_text attempt _ _ := if (attempt =? 0)%nat then Err "timeout" else Ok ("hello", JNull);
     describe_frame _ _ := Ok ("a room", JNull); complete_vision _ _ _ := Ok "{}"; embed_text _ _ := Ok ([], JNull);
     rerank _ _ _ _ := Ok ([], JNull); acquire_ai_resource_lease _ _ := None;
     build_image_data_url path := Ok ("data:" +:+ path); mock_embedding _ _ := None |}.

Definition sample_endpoint (id : string) (kind : ModelKind) (where_ : ModelEndpointKind) (base_url : string) : ModelEndpoint :=
  builtin_endpoint id kind where_ "openai_compatible" "m" [] [] EndpointActive
    [("api_key", JStr "k"); ("base_url", JStr base_url); ("note", JStr "mine")].

Definition local_llm_endpoint := sample_endpoint "llm-here" Llm KindLocal "http://127.0.0.1:8091/v1".
Definition cloud_llm_endpoint := sample_endpoint "llm-there" Llm KindCloud "https://models.example/v1".
Definition vlm_endpoint := sample_endpoint "vlm-here" Vlm KindLocal "http://127.0.0.1:8080/v1".

Definition sample_state : AdminModelCenterState :=
  {| endpoints := [local_llm_endpoint; cloud_llm_endpoint; vlm_endpoint]; route_policies := default_model_route_policies;
     model_store_root := "" |}.

(** * Texts *)

Definition answered : TextExecution * list ModelRequest :=
  run_llm_text_with_state_and_options sample_host sample_probe "hi" sample_state default_options.

Lemma answered_pair : run_llm_text_with_state_and_options sample_host sample_probe "hi" sample_state default_options = (answered.1, answered.2).
Proof. unfold answered. apply surjective_pairing. Qed.

Definition to_cloud : ModelRequest :=
  AskText false {| oc_base_url := "https://models.example/v1"; oc_api_key := "k"; oc_model := "m" |}
    (text_request "hi" cloud_llm_endpoint default_options).

Lemma to_cloud_asked : to_cloud ∈ answered.2.
Proof. apply (list_elem_of_lookup_2 _ 1). by vm_compute. Qed.

Lemma cloud_text_by_policy_witness :
  to_cloud ∈ answered.2 /\ exists s' e0 config,
    e0 ∈ endpoints s'
    /\ to_cloud = AskText (metadata_bool (metadata (overlay_endpoint sample_host (probe_local_runtime sample_host sample_probe (endpoints s')).1 e0))
                   "semantic_router_embedded_facade") config
         (text_request "hi" (overlay_endpoint sample_host (probe_local_runtime sample_host sample_probe (endpoints s')).1 e0) default_options)
    /\ model_kind e0 = Llm /\ (is_cloud e0 = true -> s' = sample_state /\ cloud_allowed sample_state LLM_POLICY_ID = true).
Proof.
  split; [exact to_cloud_asked|].
  destruct (cloud_text_by_policy sample_host sample_probe "hi" sample_state default_options answered.1 answered.2 to_cloud
              answered_pair to_cloud_asked) as (s' & e0 & config & _ & Hin & _ & Hq & Hk & _ & Hc).
  exact (ex_intro _ s' (ex_intro _ e0 (ex_intro _ config (conj Hin (conj Hq (conj Hk (fun He => proj2 (Hc He)))))))).
Defined.

Lemma first_available_answers_witness :
  llm_route_policy_id default_options = LLM_POLICY_ID /\ tx_text answered.1 = "hello" /\ length answered.2 = 2
  /\ exists tried, tried `prefix_of` resolve_endpoint_candidates sample_host sample_probe sample_state Llm LLM_POLICY_ID
       /\ answered.2 = concat (imap (fun i e => (run_llm_text_on_endpoint i "hi" e default_options).2) tried).
Proof.
  split; [done|]. split; [by vm_compute|]. split; [by vm_compute|].
  destruct (first_available_answers sample_host sample_probe "hi" sample_state default_options answered.1 answered.2 eq_refl
              answered_pair) as [_ (tried & Hp & Hr & _)].
  exact (ex_intro _ tried (conj Hp Hr)).
Defined.

Definition router_options : LlmTextOptions :=
  {| lo_purpose := Some "router"; lo_system_prompt := None; lo_temperature := None; lo_max_tokens := None; lo_timeout := None;
     lo_json_object_response := true |}.

Definition routed : TextExecution * list ModelRequest :=
  run_llm_text_with_state_and_options sample_host sample_probe "hi" sample_state router_options.

Lemma routed_pair : run_llm_text_with_state_and_options sample_host sample_probe "hi" sample_state router_options = (routed.1, routed.2).
Proof. unfold routed. apply surjective_pairing. Qed.

Definition to_facade : ModelRequest := default to_cloud (head routed.2).

Lemma to_facade_asked : to_facade ∈ routed.2.
Proof. apply (list_elem_of_lookup_2 _ 0). by vm_compute. Qed.

Lemma router_asks_facade_only_witness :
  semantic_router_topology sample_host = Ok TopologyEmbedded /\ to_facade ∈ routed.2
  /\ exists api_key e, to_facade = AskText true {| oc_base_url := "http://127.0.0.1:4174/api/inference/v1"; oc_api_key := api_key;
                                                   oc_model := "Qwen/Qwen2.5-0.5B-Instruct" |} (text_request "hi" e router_options)
       /\ env_trimmed sample_host MODEL_API_TOKEN_ENV = Some api_key.
Proof.
  split; [done|]. split; [exact to_facade_asked|].
  exact (router_asks_facade_only sample_host sample_probe "hi" sample_state router_options routed.1 routed.2 to_facade eq_refl eq_refl
           routed_pair to_facade_asked).
Defined.

(** * Images *)

Definition summarized : TextExecution * list ModelRequest :=
  run_vlm_summary_with_state sample_host sample_probe "/tmp/a.jpg" sample_state.
Lemma summarized_pair : run_vlm_summary_with_state sample_host sample_probe "/tmp/a.jpg" sample_state = (summarized.1, summarized.2).
Proof. unfold summarized. apply surjective_pairing. Qed.

Definition to_vision : ModelRequest := default to_cloud (head summarized.2).

Lemma to_vision_asked : to_vision ∈ summarized.2.
Proof. apply (list_elem_of_lookup_2 _ 0). by vm_compute. Qed.

Lemma images_stay_local_witness :
  to_vision ∈ summarized.2 /\ exists e0 config request, e0 ∈ endpoints sample_state /\ to_vision = AskVision config request
    /\ endpoint_kind e0 = KindLocal.
Proof.
  split; [exact to_vision_asked|].
  destruct (images_stay_local sample_host sample_probe "/tmp/a.jpg" sample_state summarized.1 summarized.2 to_vision
              summarized_pair to_vision_asked) as (e0 & config & image & _ & _ & _ & Hin & _ & _ & _ & Hq & _ & Hk & _).
  exact (ex_intro _ e0 (ex_intro _ config (ex_intro _ _ (conj Hin (conj Hq Hk))))).
Defined.

(** A host that only begins like a loopback address passes for one; the name of the
    loopback address of IPv6, as [url] gives it, does not. *)
Example loopback_by_prefix : url_is_loopback "http://127.evil.example:8080/v1" = true.
Proof. by vm_compute. Qed.

(** * Secrets *)

Definition stored_metadata : list (string * jv) :=
  [("api_key", JStr "k"); ("base_url", JStr "http://127.0.0.1:8091/v1"); ("note", JStr "mine")].

Lemma stored_ordered : keys_ordered stored_metadata.
Proof. repeat constructor. Qed.

Lemma sample_endpoints_stored : Forall (fun x => sanitize_model_endpoint sample_host x = Ok x) (endpoints sample_state).
Proof. repeat (constructor; [reflexivity|]). constructor. Qed.

Lemma sample_ids_distinct : NoDup (model_endpoint_id <$> endpoints sample_state).
Proof. apply (bool_decide_unpack _). by vm_compute. Qed.

Lemma local_llm_in : local_llm_endpoint ∈ endpoints sample_state.
Proof. left. Qed.

Lemma shown_endpoint_saved_back_witness :
  metadata_string (metadata (redact_model_endpoint local_llm_endpoint)) "api_key" = None
  /\ exists s' e', save_model_endpoint sample_host sample_state (redact_model_endpoint local_llm_endpoint) = Ok s'
       /\ list_find (fun x => model_endpoint_id x =? "llm-here") (endpoints s') = Some e'
       /\ metadata_string (metadata e') "api_key" = Some "k".
Proof.
  split; [by vm_compute|].
  destruct (shown_endpoint_saved_back sample_host sample_state local_llm_endpoint stored_metadata sample_endpoints_stored sample_ids_distinct
              local_llm_in eq_refl eq_refl stored_ordered)
    as (s' & e' & Hsave & Hfind & Hkeep & _).
  exists s', e'. split; [exact Hsave|]. split; [exact Hfind|]. rewrite (Hkeep "api_key"); [by vm_compute|].
  intros Hf%flag_not_secret. by vm_compute in Hf.
Defined.

(** A secret that is not a text is not kept: shown as the empty text, it is saved as it
    was shown. *)
Definition nested_endpoint : ModelEndpoint :=
  builtin_endpoint "llm-nested" Llm KindLocal "openai_compatible" "m" [] [] EndpointActive
    [("auth", JObj [("token", JStr "t")])].

Definition saved_nested : option jv :=
  s ← res_ok (save_model_endpoint sample_host
                {| endpoints := [nested_endpoint]; route_policies := []; model_store_root := "" |} (redact_model_endpoint nested_endpoint));
  metadata <$> list_find (fun x => model_endpoint_id x =? "llm-nested") (endpoints s).

Example nested_secret_lost : (saved_nested ≫= fun m => jv_get m "auth" ≫= fun v => jv_get v "token") = Some (JStr "").
Proof. by vm_compute. Qed.

(** The key that the administrator gave the local service is replaced by the
    environment's, or by none. *)
Definition keyed_builtin : ModelEndpoint :=
  builtin_endpoint "llm-local-openai-compatible" Llm KindLocal "openai_compatible" "m" [] [] EndpointActive
    [("api_key", JStr "mine"); ("builtin", JBool true)].

Example stored_key_wiped :
  (fun e => jv_get (metadata e) "api_key") <$> res_ok (sanitize_model_endpoint bare_host keyed_builtin) = Some (Some (JStr "")).
Proof. reflexivity. Qed.

(** * A recording that is shown to the vision model *)

(** The prompt asks for this tag where no behaviour is certain, whatever the reason. *)
Example unknown_tag_refused :
  validate_cat_frame_payload {| pl_behavior_tags := ["unknown"]; pl_summary := "no cat"; pl_reason_code := "no_cat_visible" |}
  = Err "cat verification response attached behavior to a negative result".
Proof. by vm_compute. Qed.

Definition eight : spec_float := S754_finite false 4503599627370496 (-49).

Definition good_output : BoundedMediaCommandOutput :=
  {| mo_success := true; mo_code := Some 0%Z; mo_stdout := "8.0"; mo_stderr := ""; mo_timed_out := false; mo_forced_stop := false |}.

#[local] Instance sample_media : CatMedia :=
  {| create_work_dir _ := None; download_dvr_artifact_to _ _ := Ok tt; run_bounded_media_command _ := Ok good_output;
     media_output_state _ := "present"; output_reset_error _ _ := None; deadline_exhausted _ _ := false; is_file _ := true;
     parse_cat_frame _ := Ok {| pl_behavior_tags := ["walking"]; pl_summary := "a cat"; pl_reason_code := "cat_visible" |};
     parse_classifier_json _ := Err "none"; parse_f64 s := if s =? "8.0" then Some eight else None |}.

Definition sample_evaluation : Evaluation :=
  {| ev_host := sample_host; ev_temp_root := "/tmp"; ev_probe _ := sample_probe; ev_state _ := sample_state; ev_elapsed_ms := 10 |}.

#[local] Instance sample_digest : Sha256 := {| sha256 _ := repeat 7%Z 32; sha256_length _ := eq_refl |}.

(** Eight seconds, with two detections, claimed. *)
Definition shown_recording : CatRecordingValidationRecord :=
  claim_record 20000 60000 "worker" "t1"
    (new_record 10000
       {| hl_media_contract_version := "1.0"; hl_artifact_id := "recordings~a"; hl_camera_id := "camera-1";
          hl_kind := "recording"; hl_mime_type := "video/mp4"; hl_byte_size := 1024; hl_started_at_epoch_ms := 1000;
          hl_ended_at_epoch_ms := 9000; hl_duration_seconds := 8; hl_stream_kind := "mainstream";
          hl_modified_at_epoch_ms := 9000; hl_preview_url := "/v1/a"; hl_event_id := Some "cat-activity-1";
          hl_labels := ["cat"]; hl_source := Some "yolo_cat_activity" |} "cat-activity-1"
       [{| ce_sequence := 1; ce_frame_epoch_ms := 3000; ce_confidence_ppm := 700000 |};
        {| ce_sequence := 2; ce_frame_epoch_ms := 6000; ce_confidence_ppm := 900000 |}]).

Definition shown_verdict : result string Verdict := evaluate_cat_recording_candidate sample_evaluation shown_recording.
Definition shown_decision : option CatRecordingValidationDecision := res_ok shown_verdict ≫= fun v => v.1.2.

Lemma shown_accepted : evaluate_cat_recording_candidate sample_evaluation shown_recording = Ok (Accepted, shown_decision, None).
Proof. by vm_compute. Qed.

Lemma verdict_evidence_witness :
  evaluate_cat_recording_candidate sample_evaluation shown_recording = Ok (Accepted, shown_decision, None)
  /\ exists duration, worth_showing shown_recording (measured_duration_ms duration)
       /\ exists n n', (n < n')%Z /\ shows_cat sample_evaluation shown_recording (cat_recording_duration_ms duration) n
            /\ shows_cat sample_evaluation shown_recording (cat_recording_duration_ms duration) n'.
Proof.
  split; [exact shown_accepted|].
  destruct (proj1 (verdict_evidence sample_evaluation shown_recording Accepted shown_decision None shown_accepted) eq_refl)
    as (duration & _ & Hw & Hn).
  exact (ex_intro _ duration (conj Hw Hn)).
Defined.
